(* ===== verification/_CoqProject ===== *)
-Q . S2P
Prelude.v
IntUtil.v
Varint.v
Base58.v
Hardfork.v
Config.v
Address.v
Double.v
Difficulty.v
Reward.v
Rules.v
Voting.v
VotingPool.v
Order.v
Transactions.v
L2Votes.v
NodeProof.v
ServiceNode.v
NodeList.v
QuorumCop.v
VoteHandling.v
Random.v
Swarm.v
Quorums.v
Staking.v
Funding.v
Events.v
PulseEntropy.v
BlockUpdate.v
Rotation.v
Pulse.v
PulseSafety.v
PulseRuns.v
PulseTermination.v
VerifyBlock.v
Money.v
Ledger.v
LedgerHistory.v
LedgerRewards.v
LedgerPayouts.v
LedgerStakes.v
History.v
HistoryRuns.v
Checkpoints.v
Reorg.v
ReorgRuns.v
Blink.v
BlinkQuorum.v
BlinkRelay.v
SwapBackend.v
