(* ===== verification/Prelude.v ===== *)
(** * xeqm-core: a verification library

    xeqm-core is the node software of a proof-of-stake style CryptoNote chain: service nodes
    lock a stake, quorums of them test each other, sign checkpoints and make blocks (pulse), and
    miners make a block only when pulse fails.  This library models the consensus logic of the
    node, in C++ under [src/src], and the swap back ends [src/swap_backend.js] and
    [src/swap_backend.py].  This file holds what the others share; paths below are relative to
    [src/src] unless they name a file of their own.

    ** The parts and how they interact

    A block arrives with a header, signatures and transactions.  The hard fork schedule says
    which rules hold at its height; [update_from_block] of the service node list applies the
    block to the list: it counts its votes on L2 events, applies the events that are confirmed,
    the state changes that quorums voted for, registrations, contributions and unlock requests,
    and then derives the swarms and quorums of the new state with random numbers seeded by block
    hashes.  The quorum cop of a node tests the others and votes; votes are checked, pooled and
    assembled into state change transactions and checkpoints, which other nodes verify.  Pulse
    is the state machine by which the quorum of a round makes the next block; [verify_block]
    decides whether the list accepts it, and the reward ledger credits and pays what it earns.

    - Arithmetic and codecs: [IntUtil] (epee's 128-bit helpers), [Varint], [Base58], [Address]
      ([common/varint.h], [common/base58.cpp], [cryptonote_basic/cryptonote_basic_impl.cpp]),
      [Double] (IEEE doubles, [common/oxen.cpp]).
    - Rules of the chain: [Hardfork] ([cryptonote_basic/hardfork.cpp], [cryptonote_config.h]),
      [Config] ([network_config/]), [Difficulty] and [Reward]
      ([cryptonote_basic/difficulty.cpp], [cryptonote_basic_impl.cpp], [oxen_economy.h]).
    - Service nodes: [Rules] ([cryptonote_core/service_node_rules.cpp]), [ServiceNode] (one
      registration record), [NodeProof] (uptime proofs and reachability), [NodeList] (state
      changes, unlocks, blacklist, proofs), [Staking] and [Funding] (registrations and
      contributions), [L2Votes] and [Events] (confirmation of L2 events and what they do),
      [BlockUpdate] and [Rotation] (adding a block, the queue of block leaders), all of
      [cryptonote_core/service_node_list.cpp]; [Swarm] ([service_node_swarm.cpp]); [Quorums] and
      [PulseEntropy] (who is in which quorum), over [Random] ([common/random.cpp]).
    - Voting: [Voting] and [VotingPool] ([cryptonote_core/service_node_voting.cpp]),
      [QuorumCop] and [VoteHandling] ([service_node_quorum_cop.cpp]).
    - Pulse: [Pulse] (the machine), [PulseSafety] (its invariant), [PulseRuns] (what runs
      guarantee), [PulseTermination] (the loop ends; timing) for [cryptonote_core/pulse.cpp].
    - Accepting and rewarding blocks: [VerifyBlock] ([verify_block] of
      [cryptonote_core/service_node_list.cpp]), [Money] (amounts with a fraction,
      [cryptonote_basic/cryptonote_basic_impl.h]), [Ledger] (the SQL tables with their triggers
      as maps and the operations on them, [blockchain_db/sqlite/db_sqlite.cpp]) with what it
      guarantees in [LedgerHistory] (detaches), [LedgerRewards] (what a block credits),
      [LedgerPayouts] (batched payments) and [LedgerStakes] (claims on the L2 network).
    - Chains: [History] and [HistoryRuns] (the recent and archived states of the list, [block_add]
      and [blockchain_detached] of [cryptonote_core/service_node_list.cpp] in step with the
      ledger), [Checkpoints] ([checkpoints/checkpoints.cpp], the queries on stored checkpoints of
      [blockchain_db/] and the comparison of two chains), [Reorg] and [ReorgRuns] ([add_new_block],
      the checks of a block, [handle_alternative_block], the switch to another chain and its
      rollback, [cryptonote_core/blockchain.cpp]).  [Reorg] sees the list, the ledger and the
      other subsystems through the class [Subsystems], of which nothing is assumed: they may
      refuse any block at any time.  [History] sees [update_from_block] through [BlockUpdater], which [list_updater] implements.
    - Blink: [Blink] (the signatures two quorums give a transaction before it is mined, and how a
      node takes them in, [cryptonote_core/tx_blink.cpp] and [parse_incoming_blinks] of
      [cryptonote_core.cpp]), [BlinkQuorum] (how the quorum collects them, with its threads
      interleaved, [cryptonote_protocol/quorumnet.cpp]) and [BlinkRelay] (from one to the other).
    - [Order] (byte string order, [std::sort]) and [Transactions] (the fields of blocks and
      transactions the rest reads); [SwapBackend] for the swap back ends.

    ** Conventions

    Definitions keep the names of the source.  An unsigned integer of [w] bits is a [Z], with
    [u8] to [u64] and [s32], [s64] where the code wraps around; [double] is the Standard Library's
    specification floats; keys, hashes and signatures are byte strings.  A routine that fails is
    an [option]; a handler of the list returns its verdict, the new state and the logs it
    writes, and an outer [None] is an exception.  [outcome] of [Random] has a value, [Thrown] for
    exceptions and out of range accesses, and [Stalled] for running out of fuel.  Maps are
    [gmap] where the code's order does not matter; a walk over an unordered map takes a listing
    of it as an argument, an ordered [std::map] is an association list in the order of its keys.
    Cryptographic primitives, the database, the mempool, the clock and the network are arguments
    of the functions that use them, with what is assumed of them as hypotheses of the theorems.

    ** What the theorems show

    - Pulse: over all runs, with any messages in any order, the random value of a block is fixed
      by commitments ([pulse_random_committed]), blocks that are made verify
      ([pulse_blocks_verify]), the loop of [check_state] ends ([check_state_returns]) and rounds
      follow the clock ([prepared_round_on_schedule]).
    - Votes: the pool holds one vote per voter and target, verified by the quorum of its height on
      the current chain even after detaches, but for obligations votes at the detached height
      itself ([quorum_cop_safe], [pool_invariant]); a member votes only as the rules allow
      ([worker_votes_sound]), acceptance of state changes and quorum signatures is characterised
      exactly, and what a node assembles from its pool is accepted.
    - The list: the state changes refine the life cycle of a node ([state_change_refinement]),
      stakes are balanced in every reachable state and every node can be funded
      ([stakes_well_formed], [funding_completes]), L2 events are resolved in time and an exit
      settles one staged entry ([l2_resolved_in_time], [exit_settles_once]), every active node gets its turn to lead
      ([leader_rotation]), and the precomputed quorum and cached entropy are those of the
      reference functions ([precomputed_pulse_quorum], [pulse_entropy_feeder_exact]).
    - Blocks: which blocks at the top of the chain are accepted ([main_chain_block_accepted]).
    - The ledger: a detach restores the balances of the block it goes back to
      ([ledger_detach_exact]), rewards are conserved or, in one case that is characterised, the
      distribution throws ([block_rewards_conserved]), payments settle exactly what is due
      ([batch_payments_settle]) and claims are the sum of their parts
      ([claims_rederived]).
    - Chains: a reorganisation exchanges the chains or puts the old blocks back, up to one that the
      node itself then refuses ([reorganisation_all_or_nothing]), and never replaces a final block
      ([final_blocks_permanent]); what is final stays final when its
      checkpoints are culled or detached ([finality_permanent]); the choice between chains is a
      strict preference ([chain_choice]); the list and the ledger go back to the same block
      ([detach_in_step]), and the index of locked key images is that of the nodes
      ([key_image_index_exact]).
    - Blink: a quorum's node decides once, whatever the order of messages and threads
      ([blink_decided_once]); what it sends on is accepted and read back exactly
      ([blink_relay_roundtrip]); and nothing is accepted without the signatures of both quorums
      ([blink_accepted_sound]).
    - Quorums and swarms have the members they must have and no draw is out of range; the random
      orders are uniform over the engine's outputs ([obligations_quorum_sound] and the others of
      [Quorums], [swarm_changes_healthy], [shuffle_portable_uniform]).
    - Difficulty, reward, addresses, codecs, hard forks: exactness, bounds and round trips.

    ** Fuel and bounds

    The rejection loop of [uniform_distribution_portable] has no bound in the code.  The model
    gives it [fuel] draws and returns [Stalled] when all are rejected; theorems hold for every
    fuel, and say of a stall that the engine did reject that many draws ([stalls],
    [rng_stalls]).  [run_stages] of [Pulse] has a number of turns; [check_state_returns] shows
    that 200000 are enough from any reachable state.  The loops over heights of [Checkpoints] get
    the distance they cover ([cull_loop_spec], [first_checkpoint_down], [detach_loop_clears]);
    popping blocks gets the length of the chain ([pop_until_spec]), the walk along alternative
    blocks their number ([node_walk_complete]).  The fuel of
    [handle_alternative_block] bounds switches within switches, which end with pulse: there one
    round is enough ([pulse_fuel]).  Loops over data are structural.

    ** What is not modelled

    Of blockchain and core ([cryptonote_core/blockchain.cpp], [cryptonote_core.cpp]) what does not
    add blocks or switch chains: templates, fees and weights, the rules of transactions, the start
    of a node.  The mempool apart from its blinks, the messages of quorumnet, the databases apart from checkpoints and rewards, the stored form of
    the list's history, the name system, peer-to-peer, RPC and wallets: storage, network and
    orchestration around the modelled rules.  Consensus hashes and curve operations: parameters.
    Serialization of blocks and transactions: they are given parsed.  Of the reward
    database the migrations of older schemas and its recorded snapshots.  The migrations that run
    once at HF21 and HF22: parameters of the block update.  Tracking of the
    L2 chain and BLS aggregation: network I/O, whose events are data of the model.  Logging,
    tests, the mock network and vendored code. *)
From stdpp Require Export prelude list sorting.
From Stdlib Require Export ZArith Lia.

#[global] Open Scope Z_scope.

(** [lia] sees through division and remainder. *)
Ltac Zify.zify_post_hook ::= Z.to_euclidean_division_equations.

(** ** Machine integers

    A [w]-bit unsigned C++ value is a [Z]; the conversions below write out the
    wrap-around of the corresponding C++ type. *)
Definition u8 (x : Z) : Z := x mod 256.
Definition u16 (x : Z) : Z := x mod 65536.
Definition u32 (x : Z) : Z := x mod 4294967296.
Definition u64 (x : Z) : Z := x mod 18446744073709551616.

(** Two's complement reinterpretation as a signed 64-bit value. *)
Definition s64 (x : Z) : Z :=
  (x + 9223372036854775808) mod 18446744073709551616 - 9223372036854775808.

(** ... and as a signed 32-bit value. *)
Definition s32 (x : Z) : Z := (x + 2147483648) mod 4294967296 - 2147483648.

Definition UINT64_MAX : Z := 18446744073709551615.
Definition UINT32_MAX : Z := 4294967295.

Definition is_u8 (x : Z) : Prop := 0 <= x < 256.
Definition is_u16 (x : Z) : Prop := 0 <= x < 65536.
Definition is_u32 (x : Z) : Prop := 0 <= x < 4294967296.
Definition is_u64 (x : Z) : Prop := 0 <= x < 18446744073709551616.
Definition is_s64 (x : Z) : Prop :=
  -9223372036854775808 <= x < 9223372036854775808.

(** C++ [bool] used as an integer. *)
Definition b2z (b : bool) : Z := if b then 1 else 0.

(** ** The development's automation *)

Create HintDb width.

Lemma u8_range x : is_u8 (u8 x).
Proof. unfold is_u8, u8. apply Z.mod_pos_bound. lia. Qed.
Lemma u16_range x : is_u16 (u16 x).
Proof. unfold is_u16, u16. apply Z.mod_pos_bound. lia. Qed.
Lemma u32_range x : is_u32 (u32 x).
Proof. unfold is_u32, u32. apply Z.mod_pos_bound. lia. Qed.
Lemma u64_range x : is_u64 (u64 x).
Proof. unfold is_u64, u64. apply Z.mod_pos_bound. lia. Qed.

Lemma u8_small x : is_u8 x -> u8 x = x.
Proof. apply Z.mod_small. Qed.
Lemma u16_small x : is_u16 x -> u16 x = x.
Proof. apply Z.mod_small. Qed.
Lemma u32_small x : is_u32 x -> u32 x = x.
Proof. apply Z.mod_small. Qed.
Lemma u64_small x : is_u64 x -> u64 x = x.
Proof. apply Z.mod_small. Qed.
Lemma s64_small x : is_s64 x -> s64 x = x.
Proof. unfold is_s64, s64. intros H. rewrite Z.mod_small; lia. Qed.

Lemma s32_small x : -2147483648 <= x < 2147483648 -> s32 x = x.
Proof. unfold s32. intros H. rewrite Z.mod_small; lia. Qed.

#[export] Hint Resolve u8_range u16_range u32_range u64_range : width.

(** [width] unfolds the range predicates and calls [lia]. *)
Ltac width := unfold is_u8, is_u16, is_u32, is_u64, is_s64, UINT64_MAX, UINT32_MAX in *; lia.

(** [wrap_free] drops every wrap-around whose argument is provably in range. *)
Ltac wrap_free :=
  repeat match goal with
  | |- context [u64 ?x] => rewrite (u64_small x) by width
  | |- context [u32 ?x] => rewrite (u32_small x) by width
  | |- context [u16 ?x] => rewrite (u16_small x) by width
  | |- context [u8 ?x] => rewrite (u8_small x) by width
  | |- context [s64 ?x] => rewrite (s64_small x) by width
  end.

(** [bool_hyps] turns boolean conditions taken or refused by the code into
    propositions. *)
Ltac bool_hyps :=
  repeat match goal with
  | H : _ && _ = true |- _ => apply andb_true_iff in H; destruct H
  | H : _ || _ = false |- _ => apply orb_false_iff in H; destruct H
  | H : _ || _ = true |- _ => apply orb_true_iff in H; destruct H
  | H : _ && _ = false |- _ => apply andb_false_iff in H; destruct H
  | H : negb _ = true |- _ => apply negb_true_iff in H
  | H : negb _ = false |- _ => apply negb_false_iff in H
  | H : (_ =? _) = true |- _ => apply Z.eqb_eq in H
  | H : (_ =? _) = false |- _ => apply Z.eqb_neq in H
  | H : (_ <? _) = true |- _ => apply Z.ltb_lt in H
  | H : (_ <? _) = false |- _ => apply Z.ltb_ge in H
  | H : (_ <=? _) = true |- _ => apply Z.leb_le in H
  | H : (_ <=? _) = false |- _ => apply Z.leb_gt in H
  end.

(** ** Bit-level arithmetic *)

(** Disjoint bit fields: OR-ing a low field into a shifted one is addition. *)
Lemma lor_shiftl_add a b n :
  0 <= n -> 0 <= b < 2 ^ n -> Z.lor (Z.shiftl a n) b = a * 2 ^ n + b.
Proof.
  intros Hn Hb. rewrite <- Z.shiftl_mul_pow2 by done.
  rewrite Z.add_nocarry_lxor.
  - apply Z.bits_inj'. intros i Hi. rewrite Z.lor_spec, Z.lxor_spec.
    destruct (Z.ltb_spec i n) as [Hlt|Hge].
    + rewrite Z.shiftl_spec_low by done. by destruct (Z.testbit b i).
    + destruct (decide (b = 0)) as [->|]; [by rewrite Z.bits_0, orb_false_r, xorb_false_r|].
      rewrite (Z.bits_above_log2 b i); [by destruct (Z.testbit _ i)|lia|].
      apply Z.log2_lt_pow2; [lia|]. eapply Z.lt_le_trans; [apply Hb|]. by apply Z.pow_le_mono_r.
  - apply Z.bits_inj'. intros i Hi. rewrite Z.land_spec, Z.bits_0.
    destruct (Z.ltb_spec i n) as [Hlt|Hge].
    + by rewrite Z.shiftl_spec_low by done.
    + destruct (decide (b = 0)) as [->|]; [by rewrite Z.bits_0, andb_false_r|].
      rewrite (Z.bits_above_log2 b i); [by rewrite andb_false_r|lia|].
      apply Z.log2_lt_pow2; [lia|]. eapply Z.lt_le_trans; [apply Hb|]. by apply Z.pow_le_mono_r.
Qed.

(** The same with the low field on the left, as [x | (y << n)]. *)
Lemma lor_add_shiftl a b n :
  0 <= n -> 0 <= b < 2 ^ n -> Z.lor b (Z.shiftl a n) = a * 2 ^ n + b.
Proof. intros. rewrite Z.lor_comm. by apply lor_shiftl_add. Qed.

Lemma lor_1_even x : Z.lor (2 * x) 1 = 2 * x + 1.
Proof.
  replace (2 * x) with (Z.shiftl x 1) by (rewrite Z.shiftl_mul_pow2; lia).
  rewrite lor_shiftl_add by lia. rewrite Z.shiftl_mul_pow2 by lia. lia.
Qed.

Lemma land_ones_mod x n : 0 <= n -> Z.land x (2 ^ n - 1) = x mod 2 ^ n.
Proof.
  intros. rewrite <- Z.land_ones by done. f_equal. rewrite Z.ones_equiv. lia.
Qed.

(** ** Lists *)

(** Exhaustive checks over a finite index range, discharged by evaluation. *)
Lemma forallb_seq (P : nat -> bool) n k :
  (k < n)%nat -> forallb P (seq 0 n) = true -> P k = true.
Proof. intros Hk H. rewrite forallb_forall in H. apply H, in_seq. lia. Qed.

(** Fixed-size chunks, as loops over [data + i * k] read them. *)
Definition chunks {A} (k n : nat) (data : list A) : list (list A) :=
  (fun i => take k (drop (i * k) data)) <$> seq 0 n.

Lemma mapM_chunks {A B} (f : list A -> option B) k n data :
  mapM (fun i => f (take k (drop (i * k) data))) (seq 0 n) = mapM f (chunks k n data).
Proof.
  unfold chunks. induction (seq 0 n) as [|i l IH]; [done|]. cbn [mapM fmap list_fmap].
  destruct (f _) as [x|]; [|done]. cbn. unfold fmap in IH. by rewrite IH.
Qed.

Lemma chunks_S {A} k n (data : list A) : chunks k (S n) data = take k data :: chunks k n (drop k data).
Proof.
  unfold chunks. rewrite <- cons_seq. cbn [fmap list_fmap Nat.mul]. rewrite drop_0. f_equal.
  rewrite <- fmap_S_seq, <- list_fmap_compose. apply list_fmap_ext. intros _ i _. cbn.
  by rewrite drop_drop.
Qed.

Lemma chunks_concat {A} k (cs : list (list A)) tl :
  Forall (fun c => length c = k) cs -> chunks k (length cs) (concat cs ++ tl) = cs.
Proof.
  induction 1 as [|c cs Hc _ IH]; [done|]. cbn [length concat]. rewrite chunks_S.
  rewrite <- app_assoc, take_app_length', drop_app_length' by done. by rewrite IH.
Qed.

Lemma chunks_split {A} k n (data : list A) :
  (n * k <= length data)%nat ->
  data = concat (chunks k n data) ++ drop (n * k) data /\
  Forall (fun c => length c = k) (chunks k n data).
Proof.
  revert data. induction n as [|n IH]; intros data Hl; [by rewrite drop_0|].
  rewrite chunks_S. destruct (IH (drop k data)) as [E H]; [rewrite length_drop; lia|].
  split; [|constructor; [rewrite length_take; lia|done]].
  cbn [concat]. rewrite <- app_assoc. replace (S n * k)%nat with (k + n * k)%nat by lia.
  rewrite <- drop_drop, <- E. by rewrite take_drop.
Qed.

Lemma length_concat_const {A} k (cs : list (list A)) :
  Forall (fun c => length c = k) cs -> length (concat cs) = (length cs * k)%nat.
Proof. induction 1 as [|c cs Hc _ IH]; [done|]. cbn. rewrite length_app. lia. Qed.

(** ** Words in memory *)

(** Little-endian loads and stores of integers. *)
Fixpoint load_le (bytes : list Z) : Z :=
  match bytes with
  | [] => 0
  | b :: bytes => b + 256 * load_le bytes
  end.

Fixpoint store_le (n : nat) (x : Z) : list Z :=
  match n with
  | O => []
  | S n => x mod 256 :: store_le n (x / 256)
  end.

Lemma length_store_le n x : length (store_le n x) = n.
Proof. revert x. induction n; intros; cbn; [done|by rewrite IHn]. Qed.

Lemma store_le_bytes n x : Forall is_u8 (store_le n x).
Proof. revert x. induction n; intros; cbn; constructor; [width|done]. Qed.

Lemma load_le_bound l : Forall is_u8 l -> 0 <= load_le l < 256 ^ Z.of_nat (length l).
Proof.
  induction 1 as [|b l Hb Hl IH]; [cbn; lia|]. cbn [load_le length].
  rewrite Nat2Z.inj_succ, Z.pow_succ_r by lia. width.
Qed.

Lemma store_load_le l : Forall is_u8 l -> store_le (length l) (load_le l) = l.
Proof.
  induction 1 as [|b l Hb Hl IH]; [done|]. cbn [load_le length store_le].
  replace ((b + 256 * load_le l) mod 256) with b by width.
  replace ((b + 256 * load_le l) / 256) with (load_le l) by width. by rewrite IH.
Qed.

Lemma load_store_le n x : 0 <= x < 256 ^ Z.of_nat n -> load_le (store_le n x) = x.
Proof.
  revert x. induction n as [|n IH]; intros x Hx; [cbn in *; lia|].
  rewrite Nat2Z.inj_succ, Z.pow_succ_r in Hx by lia. cbn [store_le load_le]. rewrite IH; lia.
Qed.

Lemma load_le_zeros l n : load_le (l ++ replicate n 0) = load_le l.
Proof.
  induction l as [|b l IH]; cbn [app load_le]; [|by rewrite IH].
  induction n as [|n IHn]; cbn [replicate load_le]; lia.
Qed.

Lemma take_store_le n m x : (n <= m)%nat -> take n (store_le m x) = store_le n x.
Proof.
  revert m x. induction n as [|n IH]; intros m x Hm; [by rewrite take_0|].
  destruct m as [|m]; [lia|]. cbn. by rewrite IH by lia.
Qed.

Lemma load_le_app a b : load_le (a ++ b) = load_le a + 256 ^ Z.of_nat (length a) * load_le b.
Proof.
  induction a as [|x a IH]; cbn [app load_le length]; [lia|].
  rewrite Nat2Z.inj_succ, Z.pow_succ_r, IH by lia. lia.
Qed.
