(* ===== verification/IntUtil.v ===== *)
(** * 128-bit integer helpers (contrib/epee/include/epee/int-util.h)

    The header has two implementations of each routine: one on the compiler's
    [unsigned __int128] and one for compilers without it, on 64-bit words only.
    Both are modelled; the theorems show the word-level ones compute the same
    128-bit results. *)
From S2P Require Import Prelude.

(** ** With [__SIZEOF_INT128__] *)
Module Int128.

(** Returns (product_lo, product_hi). *)
Definition mul128 (multiplier multiplicand : Z) : Z * Z :=
  let result := multiplier * multiplicand in
  (u64 result, u64 (Z.shiftr result 64)).

(** Returns (quotient_hi, quotient_lo). *)
Definition div128_32 (dividend_hi dividend_lo divisor : Z) : Z * Z :=
  let result := Z.lor (Z.shiftl dividend_hi 64) dividend_lo / divisor in
  (u64 (Z.shiftr result 64), u64 result).

Definition div128_64 (dividend_hi dividend_lo divisor : Z) : Z * Z :=
  let result := Z.lor (Z.shiftl dividend_hi 64) dividend_lo / divisor in
  (u64 (Z.shiftr result 64), u64 result).

Definition mul128_div64 (a b c : Z) : Z := u64 (a * b / c).

End Int128.

(** ** Without [__SIZEOF_INT128__] *)
Module Words.

Definition hi_dword (val : Z) : Z := Z.shiftr val 32.

Definition lo_dword (val : Z) : Z := Z.land val 4294967295.

(** Returns (quotient, remainder); the remainder is an in-out argument. *)
Definition div_with_remainder (dividend divisor remainder : Z) : Z * Z :=
  let dividend := Z.lor dividend (u64 (Z.shiftl remainder 32)) in
  (dividend / divisor, u32 (dividend mod divisor)).

(** Returns (carry, hi, lo). *)
Definition shl128 (hi lo : Z) : bool * Z * Z :=
  let carry := negb (Z.shiftr hi 63 =? 0) in
  let hi := u64 (Z.shiftl hi 1) in
  let hi := u64 (hi + Z.shiftr lo 63) in
  let lo := u64 (Z.shiftl lo 1) in
  (carry, hi, lo).

Definition mul128 (multiplier multiplicand : Z) : Z * Z :=
  let a := hi_dword multiplier in
  let b := lo_dword multiplier in
  let c := hi_dword multiplicand in
  let d := lo_dword multiplicand in
  let ac := u64 (a * c) in
  let ad := u64 (a * d) in
  let bc := u64 (b * c) in
  let bd := u64 (b * d) in
  let adbc := u64 (ad + bc) in
  let adbc_carry := b2z (adbc <? ad) in
  let product_lo := u64 (bd + u64 (Z.shiftl adbc 32)) in
  let product_lo_carry := b2z (product_lo <? bd) in
  let product_hi :=
    u64 (u64 (u64 (ac + Z.shiftr adbc 32) + u64 (Z.shiftl adbc_carry 32)) + product_lo_carry) in
  (product_lo, product_hi).

Definition div128_32 (dividend_hi dividend_lo divisor : Z) : Z * Z :=
  let '(q3, r3) := div_with_remainder (hi_dword dividend_hi) divisor 0 in
  let '(q2, r2) := div_with_remainder (lo_dword dividend_hi) divisor r3 in
  let '(q1, r1) := div_with_remainder (hi_dword dividend_lo) divisor r2 in
  let '(q0, _) := div_with_remainder (lo_dword dividend_lo) divisor r1 in
  (Z.lor (u64 (Z.shiftl q3 32)) q2, Z.lor (u64 (Z.shiftl q1 32)) q0).

(** One iteration of the shift-and-subtract loop on (remainder, hi, lo). *)
Definition div128_64_step (divisor : Z) (st : Z * Z * Z) : Z * Z * Z :=
  let '(remainder, hi, lo) := st in
  let carry := negb (Z.shiftr remainder 63 =? 0) in
  let remainder := u64 (Z.shiftl remainder 1) in
  let '(out, hi, lo) := shl128 hi lo in
  let remainder := if out then Z.lor remainder 1 else remainder in
  if carry || (divisor <=? remainder)
  then (u64 (remainder - divisor), hi, Z.lor lo 1)
  else (remainder, hi, lo).

Definition div128_64 (dividend_hi dividend_lo divisor : Z) : Z * Z :=
  let '(_, hi, lo) :=
    Nat.iter 128 (div128_64_step divisor) (0, dividend_hi, dividend_lo) in
  (hi, lo).

Definition mul128_div64 (a b c : Z) : Z :=
  let '(lo, hi) := mul128 a b in
  let '(_, resultlo) := div128_64 hi lo c in
  resultlo.

End Words.

(** ** The word-level routines agree with the 128-bit ones *)

Lemma hi_dword_spec x : Words.hi_dword x = x / 4294967296.
Proof. unfold Words.hi_dword. by rewrite Z.shiftr_div_pow2. Qed.

Lemma lo_dword_spec x : Words.lo_dword x = x mod 4294967296.
Proof. apply (land_ones_mod x 32). lia. Qed.

Lemma u64_shiftl32 x : u64 (Z.shiftl x 32) = x mod 4294967296 * 4294967296.
Proof.
  rewrite Z.shiftl_mul_pow2 by lia. unfold u64. change (2 ^ 32) with 4294967296.
  change 18446744073709551616 with (4294967296 * 4294967296).
  by rewrite Z.mul_mod_distr_r by lia.
Qed.

Lemma lor_dwords a b :
  0 <= b < 4294967296 -> Z.lor (a * 4294967296) b = a * 4294967296 + b.
Proof.
  intros. change 4294967296 with (2 ^ 32). rewrite <- (lor_shiftl_add a b 32) by lia.
  by rewrite Z.shiftl_mul_pow2.
Qed.

(** Carry of a 64-bit addition, as the comparison the code makes. *)
Lemma add_carry_spec x y :
  is_u64 x -> is_u64 y ->
  x + y = b2z (u64 (x + y) <? x) * 18446744073709551616 + u64 (x + y).
Proof.
  unfold is_u64, u64, b2z. intros Hx Hy.
  destruct (Z.ltb_spec ((x + y) mod 18446744073709551616) x); cbv iota; lia.
Qed.

Lemma dword_prod_bound a b :
  0 <= a < 4294967296 -> 0 <= b < 4294967296 -> 0 <= a * b <= 18446744065119617025.
Proof. nia. Qed.

Lemma words_mul128_total x y :
  is_u64 x -> is_u64 y ->
  let '(lo, hi) := Words.mul128 x y in
  is_u64 lo /\ is_u64 hi /\ hi * 18446744073709551616 + lo = x * y.
Proof.
  intros Hx Hy. unfold Words.mul128. rewrite !hi_dword_spec, !lo_dword_spec.
  set (a := x / 4294967296). set (b := x mod 4294967296).
  set (c := y / 4294967296). set (d := y mod 4294967296).
  assert (Hxe : x = a * 4294967296 + b) by (subst a b; lia).
  assert (Hye : y = c * 4294967296 + d) by (subst c d; lia).
  assert (Ha : 0 <= a < 4294967296) by (subst a; width).
  assert (Hb : 0 <= b < 4294967296) by (subst b; lia).
  assert (Hc : 0 <= c < 4294967296) by (subst c; width).
  assert (Hd : 0 <= d < 4294967296) by (subst d; lia).
  pose proof (dword_prod_bound a c Ha Hc). pose proof (dword_prod_bound a d Ha Hd).
  pose proof (dword_prod_bound b c Hb Hc). pose proof (dword_prod_bound b d Hb Hd).
  assert (Hprod : x * y = a * c * 18446744073709551616 + (a * d + b * c) * 4294967296 + b * d)
    by (rewrite Hxe, Hye; ring).
  clearbody a b c d.
  rewrite (u64_small (a * c)), (u64_small (a * d)), (u64_small (b * c)), (u64_small (b * d))
    by width.
  set (ac := a * c) in *. set (ad := a * d) in *. set (bc := b * c) in *. set (bd := b * d) in *.
  clearbody ac ad bc bd.
  pose proof (add_carry_spec ad bc ltac:(width) ltac:(width)) as Hc1.
  pose proof (u64_range (ad + bc)) as Hr1.
  set (adbc := u64 (ad + bc)) in *. set (k1 := b2z (adbc <? ad)) in *.
  assert (Hk1 : 0 <= k1 <= 1) by (subst k1; unfold b2z; destruct (_ <? _); lia).
  clearbody adbc k1. rewrite !u64_shiftl32, Z.shiftr_div_pow2 by lia.
  change (2 ^ 32) with 4294967296. rewrite (Z.mod_small k1) by lia.
  pose proof (add_carry_spec bd (adbc mod 4294967296 * 4294967296) ltac:(width) ltac:(width)) as Hc2.
  pose proof (u64_range (bd + adbc mod 4294967296 * 4294967296)) as Hr2.
  set (lo := u64 (bd + _)) in *. set (k2 := b2z (lo <? bd)) in *.
  assert (Hk2 : 0 <= k2 <= 1) by (subst k2; unfold b2z; destruct (_ <? _); lia).
  clearbody lo k2.
  assert (Hsum : (ac + adbc / 4294967296 + k1 * 4294967296 + k2) * 18446744073709551616 + lo = x * y)
    by (rewrite Hprod; lia).
  assert (Hub : x * y < 18446744073709551616 * 18446744073709551616) by (unfold is_u64 in *; nia).
  unfold is_u64 in *. wrap_free. lia.
Qed.

(** One digit of the base-2^32 long division. *)
Lemma div_with_remainder_spec x divisor r :
  0 <= x < 4294967296 -> 0 < divisor < 4294967296 -> 0 <= r < divisor ->
  let '(q, r') := Words.div_with_remainder x divisor r in
  0 <= q < 4294967296 /\ 0 <= r' < divisor /\ r * 4294967296 + x = q * divisor + r'.
Proof.
  intros Hx Hd Hr. unfold Words.div_with_remainder.
  rewrite u64_shiftl32, (Z.mod_small r) by lia.
  rewrite (Z.lor_comm x), lor_dwords by lia.
  set (n := r * 4294967296 + x).
  pose proof (Z.div_mod n divisor ltac:(lia)). pose proof (Z.mod_pos_bound n divisor ltac:(lia)).
  rewrite u32_small by width. split; [|lia].
  split; [apply Z.div_pos; lia|]. apply Z.div_lt_upper_bound; lia.
Qed.

Lemma u64_dwords q1 q0 :
  0 <= q1 < 4294967296 -> 0 <= q0 < 4294967296 ->
  Z.lor (u64 (Z.shiftl q1 32)) q0 = q1 * 4294967296 + q0.
Proof.
  intros. rewrite u64_shiftl32, Z.mod_small by lia. by apply lor_dwords.
Qed.

Lemma words_div128_32_total hi lo divisor :
  is_u64 hi -> is_u64 lo -> 0 < divisor < 4294967296 ->
  let '(qhi, qlo) := Words.div128_32 hi lo divisor in
  is_u64 qhi /\ is_u64 qlo /\
  qhi * 18446744073709551616 + qlo = (hi * 18446744073709551616 + lo) / divisor.
Proof.
  intros Hhi Hlo Hd. unfold Words.div128_32. rewrite !hi_dword_spec, !lo_dword_spec.
  pose proof (div_with_remainder_spec (hi / 4294967296) divisor 0 ltac:(width) Hd ltac:(lia)) as H3.
  destruct (Words.div_with_remainder (hi / 4294967296) divisor 0) as [q3 r3].
  destruct H3 as (Hq3 & Hr3 & E3).
  pose proof (div_with_remainder_spec (hi mod 4294967296) divisor r3 ltac:(lia) Hd Hr3) as H2.
  destruct (Words.div_with_remainder (hi mod 4294967296) divisor r3) as [q2 r2].
  destruct H2 as (Hq2 & Hr2 & E2).
  pose proof (div_with_remainder_spec (lo / 4294967296) divisor r2 ltac:(width) Hd Hr2) as H1.
  destruct (Words.div_with_remainder (lo / 4294967296) divisor r2) as [q1 r1].
  destruct H1 as (Hq1 & Hr1 & E1).
  pose proof (div_with_remainder_spec (lo mod 4294967296) divisor r1 ltac:(lia) Hd Hr1) as H0.
  destruct (Words.div_with_remainder (lo mod 4294967296) divisor r1) as [q0 r0].
  destruct H0 as (Hq0 & Hr0 & E0).
  rewrite !u64_dwords by done. split; [width|]. split; [width|].
  apply (Z.div_unique _ _ _ r0); [lia|].
  assert (Ehi : hi = hi / 4294967296 * 4294967296 + hi mod 4294967296) by lia.
  assert (Elo : lo = lo / 4294967296 * 4294967296 + lo mod 4294967296) by lia.
  set (h1 := hi / 4294967296) in *. set (h0 := hi mod 4294967296) in *.
  set (l1 := lo / 4294967296) in *. set (l0 := lo mod 4294967296) in *.
  clearbody h1 h0 l1 l0. subst hi lo. clear Hhi Hlo. nia.
Qed.

Lemma shl128_spec hi lo :
  is_u64 hi -> is_u64 lo ->
  let '(c, hi', lo') := Words.shl128 hi lo in
  is_u64 hi' /\ is_u64 lo' /\ (exists k, lo' = 2 * k) /\
  b2z c * (18446744073709551616 * 18446744073709551616) + hi' * 18446744073709551616 + lo' =
  2 * (hi * 18446744073709551616 + lo).
Proof.
  intros Hhi Hlo. unfold Words.shl128.
  rewrite !Z.shiftl_mul_pow2, !Z.shiftr_div_pow2 by lia.
  change (2 ^ 63) with 9223372036854775808. change (2 ^ 1) with 2. unfold is_u64, u64, b2z in *.
  split; [lia|]. split; [lia|]. split; [exists (lo mod 9223372036854775808); lia|].
  destruct (Z.eqb_spec (hi / 9223372036854775808) 0); cbn [negb]; lia.
Qed.

(** The loop invariant of the shift-and-subtract division of [D] by [d] after
    [i] iterations: the high bits of (hi, lo) still hold the unread bits of [D],
    the low [i] bits the quotient of the bits already read. *)
Definition div_inv (D d i : Z) (st : Z * Z * Z) : Prop :=
  let '(r, hi, lo) := st in
  is_u64 hi /\ is_u64 lo /\ 0 <= r < d /\ exists q, 0 <= q < 2 ^ i /\
  hi * 18446744073709551616 + lo = (D mod 2 ^ (128 - i)) * 2 ^ i + q /\
  q * d + r = D / 2 ^ (128 - i).

(** Reading the next bit of [D], most significant first. *)
Lemma next_bit D k :
  0 <= k -> 0 <= D ->
  exists b, 0 <= b <= 1 /\ D mod 2 ^ (k + 1) = b * 2 ^ k + D mod 2 ^ k /\
            D / 2 ^ k = 2 * (D / 2 ^ (k + 1)) + b.
Proof.
  intros Hk HD. exists ((D / 2 ^ k) mod 2).
  rewrite Z.pow_add_r, Z.pow_1_r by lia.
  pose proof (Z.pow_pos_nonneg 2 k ltac:(lia) Hk).
  split; [lia|]. split.
  - rewrite Z.rem_mul_r by lia. lia.
  - rewrite <- Z.div_div by lia. lia.
Qed.

Lemma div128_64_step_inv D d i st :
  0 <= D -> 0 < d < 18446744073709551616 -> 0 <= i < 128 ->
  div_inv D d i st -> div_inv D d (i + 1) (Words.div128_64_step d st).
Proof.
  intros HD Hd Hi. destruct st as [[r hi] lo].
  intros (Hhi & Hlo & Hr & q & Hq & EN & Eq). unfold Words.div128_64_step.
  pose proof (shl128_spec hi lo Hhi Hlo) as Hs.
  destruct (Words.shl128 hi lo) as [[c hi'] lo'].
  destruct Hs as (Hhi' & Hlo' & [k2 Ek2] & ES).
  destruct (next_bit D (127 - i) ltac:(lia) HD) as (b & Hb & Em & Ed).
  replace (127 - i + 1) with (128 - i) in * by lia. rewrite Em in EN.
  pose proof (Z.mod_pos_bound D (2 ^ (127 - i)) ltac:(apply Z.pow_pos_nonneg; lia)) as Hm.
  assert (Hp : 2 ^ (127 - i) * 2 ^ (i + 1) = 18446744073709551616 * 18446744073709551616)
    by (rewrite <- Z.pow_add_r by lia; replace (127 - i + (i + 1)) with 128 by lia; done).
  assert (Hp1 : 2 ^ (i + 1) = 2 * 2 ^ i) by (rewrite Z.pow_add_r by lia; lia).
  set (m := D mod 2 ^ (127 - i)) in *. set (A := 2 ^ (127 - i)) in *. set (B := 2 ^ i) in *.
  assert (HB : 0 < B) by (apply Z.pow_pos_nonneg; lia).
  assert (HmB : 0 <= m * (2 * B) <= (A - 1) * (2 * B))
    by (split; [apply Z.mul_nonneg_nonneg|apply Z.mul_le_mono_nonneg_r]; lia).
  assert (HbA : b * A * B * 2 = b * (18446744073709551616 * 18446744073709551616))
    by (rewrite <- Hp, Hp1; ring).
  rewrite Hp1 in Hp.
  assert (Ec : b2z c = b) by (clear -ES EN HmB HbA Hp Hq Hb Hhi' Hlo';
    unfold b2z, is_u64 in *; destruct c; lia).
  assert (EN' : hi' * 18446744073709551616 + lo' = m * 2 ^ (i + 1) + 2 * q)
    by (rewrite Ec in ES; lia).
  replace (if c then Z.lor (u64 (Z.shiftl r 1)) 1 else u64 (Z.shiftl r 1)) with
    (u64 (2 * r) + b); cycle 1.
  { rewrite Z.shiftl_mul_pow2 by lia. change (2 ^ 1) with 2. rewrite (Z.mul_comm r).
    assert (Hev : u64 (2 * r) = 2 * (r mod 9223372036854775808)) by (unfold u64; lia).
    subst b. destruct c; unfold b2z; [by rewrite Hev, lor_1_even|lia]. }
  replace (negb (Z.shiftr r 63 =? 0)) with (18446744073709551616 <=? 2 * r); cycle 1.
  { rewrite Z.shiftr_div_pow2 by lia. change (2 ^ 63) with 9223372036854775808. lia. }
  set (r2 := 2 * r + b).
  assert (Hsub : if (18446744073709551616 <=? 2 * r) || (d <=? u64 (2 * r) + b)
    then d <= r2 /\ u64 (u64 (2 * r) + b - d) = r2 - d
    else r2 < d /\ u64 (2 * r) + b = r2).
  { unfold u64. destruct (Z.leb_spec 18446744073709551616 (2 * r)); cbn [orb]; [subst r2; lia|].
    destruct (Z.leb_spec d ((2 * r) mod 18446744073709551616 + b)); subst r2; lia. }
  assert (Ei : 128 - (i + 1) = 127 - i) by lia. subst r2.
  unfold div_inv. rewrite Ei. fold A. fold m. clearbody m A B. clear Ei HmB HbA Hp Hm ES EN HB Em.
  destruct (_ || _).
  - destruct Hsub as [Hge ->]. subst lo'. rewrite lor_1_even.
    split; [done|]. split; [width|]. split; [lia|]. exists (2 * q + 1).
    split; [lia|]. split; [lia|]. rewrite Ed, <- Eq. lia.
  - destruct Hsub as [Hlt ->].
    split; [done|]. split; [done|]. split; [lia|]. exists (2 * q).
    split; [lia|]. split; [lia|]. rewrite Ed, <- Eq. lia.
Qed.

Lemma div128_64_iter_inv D d st n :
  0 <= D -> 0 < d < 18446744073709551616 -> (n <= 128)%nat ->
  div_inv D d 0 st -> div_inv D d (Z.of_nat n) (Nat.iter n (Words.div128_64_step d) st).
Proof.
  intros HD Hd Hn H0. induction n as [|n IH]; [done|].
  rewrite Nat.iter_succ, Nat2Z.inj_succ. apply div128_64_step_inv; [done..|lia|].
  apply IH. lia.
Qed.

Lemma words_div128_64_total hi lo d :
  is_u64 hi -> is_u64 lo -> 0 < d < 18446744073709551616 ->
  let '(qhi, qlo) := Words.div128_64 hi lo d in
  is_u64 qhi /\ is_u64 qlo /\
  qhi * 18446744073709551616 + qlo = (hi * 18446744073709551616 + lo) / d.
Proof.
  intros Hhi Hlo Hd. set (D := hi * 18446744073709551616 + lo).
  assert (HD : 0 <= D < 2 ^ 128) by (subst D; unfold is_u64 in *; lia).
  assert (H0 : div_inv D d 0 (0, hi, lo)).
  { split; [done|]. split; [done|]. split; [lia|]. exists 0. rewrite Z.sub_0_r.
    rewrite (Z.mod_small D), (Z.div_small D) by lia. lia. }
  pose proof (div128_64_iter_inv D d _ 128 ltac:(lia) Hd ltac:(lia) H0) as Hf.
  unfold Words.div128_64. destruct (Nat.iter 128 _ _) as [[r qhi] qlo].
  destruct Hf as (Hqh & Hql & Hr & q & Hq & EN & Eq). split; [done|]. split; [done|].
  change (128 - Z.of_nat 128) with 0 in *. rewrite Z.pow_0_r, Z.mod_1_r in EN.
  rewrite Z.pow_0_r, Z.div_1_r in Eq.
  apply (Z.div_unique _ _ _ r); lia.
Qed.

(** Splitting a 128-bit value into words is unique. *)
Lemma words_unique n hi lo :
  is_u64 lo -> is_u64 hi -> hi * 18446744073709551616 + lo = n ->
  hi = u64 (Z.shiftr n 64) /\ lo = u64 n.
Proof.
  intros Hlo Hhi <-. rewrite Z.shiftr_div_pow2 by lia. unfold is_u64, u64 in *.
  change (2 ^ 64) with 18446744073709551616. lia.
Qed.

Lemma dividend_words hi lo :
  is_u64 lo -> Z.lor (Z.shiftl hi 64) lo = hi * 18446744073709551616 + lo.
Proof. intros. by rewrite lor_shiftl_add. Qed.

Theorem mul128_words_eq x y :
  is_u64 x -> is_u64 y -> Words.mul128 x y = Int128.mul128 x y.
Proof.
  intros Hx Hy. pose proof (words_mul128_total x y Hx Hy) as H.
  unfold Int128.mul128. destruct (Words.mul128 x y) as [lo hi]. destruct H as (Hlo & Hhi & E).
  by destruct (words_unique _ _ _ Hlo Hhi E) as [-> ->].
Qed.

Theorem div128_64_words_eq hi lo d :
  is_u64 hi -> is_u64 lo -> 0 < d < 18446744073709551616 ->
  Words.div128_64 hi lo d = Int128.div128_64 hi lo d.
Proof.
  intros Hhi Hlo Hd. pose proof (words_div128_64_total hi lo d Hhi Hlo Hd) as H.
  unfold Int128.div128_64. destruct (Words.div128_64 hi lo d) as [qhi qlo].
  destruct H as (Hqh & Hql & E). rewrite dividend_words by done.
  by destruct (words_unique _ _ _ Hql Hqh E) as [-> ->].
Qed.

Theorem div128_32_words_eq hi lo d :
  is_u64 hi -> is_u64 lo -> 0 < d < 4294967296 ->
  Words.div128_32 hi lo d = Int128.div128_32 hi lo d.
Proof.
  intros Hhi Hlo Hd. pose proof (words_div128_32_total hi lo d Hhi Hlo Hd) as H.
  unfold Int128.div128_32. destruct (Words.div128_32 hi lo d) as [qhi qlo].
  destruct H as (Hqh & Hql & E). rewrite dividend_words by done.
  by destruct (words_unique _ _ _ Hql Hqh E) as [-> ->].
Qed.

(** On 64-bit operands the portable helpers of int-util.h (schoolbook
    multiplication on 32-bit halves, base-2^32 long division, shift-and-subtract
    long division) return exactly what the [unsigned __int128] versions return. *)
Theorem int_util_portable_equiv a b c :
  is_u64 a -> is_u64 b -> 0 < c < 18446744073709551616 ->
  Words.mul128 a b = Int128.mul128 a b /\
  Words.div128_64 a b c = Int128.div128_64 a b c /\
  (c < 4294967296 -> Words.div128_32 a b c = Int128.div128_32 a b c) /\
  Words.mul128_div64 a b c = Int128.mul128_div64 a b c.
Proof.
  intros Ha Hb Hc. split; [by apply mul128_words_eq|]. split; [by apply div128_64_words_eq|].
  split; [intros; apply div128_32_words_eq; [done..|lia]|].
  unfold Words.mul128_div64. pose proof (words_mul128_total a b Ha Hb) as H.
  destruct (Words.mul128 a b) as [lo hi]. destruct H as (Hlo & Hhi & E).
  rewrite (div128_64_words_eq hi lo c) by done.
  unfold Int128.div128_64, Int128.mul128_div64. by rewrite dividend_words, E.
Qed.

Lemma int_util_portable_equiv_witness :
  Words.mul128 18446744073709551615 12345678901234567890 =
    Int128.mul128 18446744073709551615 12345678901234567890 /\
  Words.div128_64 18446744073709551615 12345678901234567890 1000000007 =
    Int128.div128_64 18446744073709551615 12345678901234567890 1000000007.
Proof.
  destruct (int_util_portable_equiv 18446744073709551615 12345678901234567890 1000000007)
    as (? & ? & ? & ?); [width..|]. by split.
Defined.
