(* ===== verification/Varint.v ===== *)
(** * Variable-length integers (src/common/varint.h)

    A [char] buffer is a list of byte values.  [bits] is [sizeof(T) * 8] of the
    unsigned integer type [T] the templates are instantiated with. *)
From S2P Require Import Prelude.

Definition EVARINT_OVERFLOW : Z := -1.
Definition EVARINT_REPRESENT : Z := -2.
Definition EVARINT_TRUNCATED : Z := -3.

Definition VARINT_MAX_LENGTH (bits : Z) : Z := (bits + 6) / 7.

(** The writing loop.  [count] is the number of bytes the assertions on
    [VARINT_MAX_LENGTH] still allow; [None] is a failed assertion. *)
Fixpoint write_varint_loop (count : nat) (i : Z) : option (list Z) :=
  match count with
  | O => None
  | S count =>
      if 127 <? i
      then rest ← write_varint_loop count (Z.shiftr i 7);
           Some (Z.lor (Z.land i 127) 128 :: rest)
      else Some [i]
  end.

Definition write_varint (bits i : Z) : option (list Z) :=
  write_varint_loop (Z.to_nat (VARINT_MAX_LENGTH bits)) i.

(** The reading loop: returns the return value, the final value of [write] and
    the position of [it], as the bytes not consumed. *)
Fixpoint read_varint_loop (bits shift write read : Z) (it : list Z) : Z * Z * list Z :=
  match it with
  | [] => (EVARINT_TRUNCATED, write, [])
  | byte :: it =>
      let read := read + 1 in
      if (byte =? 0) && negb (shift =? 0) then (EVARINT_REPRESENT, write, it)
      else
        let bits_avail := u64 (bits - shift) in
        if (bits_avail <=? 7) && (Z.shiftl 1 bits_avail <=? byte)
        then (EVARINT_OVERFLOW, write, it)
        else
          let more := negb (Z.land byte 128 =? 0) in
          let write := Z.lor write (Z.shiftl (Z.land byte 127) shift mod 2 ^ bits) in
          if more then read_varint_loop bits (u64 (shift + 7)) write read it
          else (read, write, it)
  end.

Definition read_varint (bits : Z) (it : list Z) : Z * Z * list Z :=
  read_varint_loop bits 0 0 0 it.

(** ** Reasoning about the two loops *)

Lemma land127 x : Z.land x 127 = x mod 128.
Proof. apply (land_ones_mod x 7). lia. Qed.

Lemma shiftr7 x : Z.shiftr x 7 = x / 128.
Proof. by rewrite Z.shiftr_div_pow2. Qed.

(** A continuation byte: the low seven bits of [i] with the top bit set. *)
Lemma cont_byte i : Z.lor (Z.land i 127) 128 = i mod 128 + 128.
Proof.
  rewrite land127. pose proof (lor_add_shiftl 1 (i mod 128) 7 ltac:(lia) ltac:(lia)) as E.
  change (Z.shiftl 1 7) with 128 in E. rewrite E. lia.
Qed.

Lemma land128 x : is_u8 x -> negb (Z.land x 128 =? 0) = (128 <=? x).
Proof.
  intros Hx. assert (E : Z.land x 128 = x / 128 * 128).
  { apply Z.bits_inj'. intros i Hi. change 128 with (2 ^ 7) at 1 3.
    rewrite Z.land_spec, Z.pow2_bits_eqb by lia.
    change 128 with (2 ^ 7). rewrite <- Z.shiftr_div_pow2, <- Z.shiftl_mul_pow2 by lia.
    destruct (Z.eqb_spec 7 i) as [<-|Hne].
    - by rewrite Z.shiftl_spec, Z.shiftr_spec, andb_true_r by lia.
    - rewrite andb_false_r. destruct (Z.ltb_spec i 7).
      + by rewrite Z.shiftl_spec_low by lia.
      + rewrite Z.shiftl_spec, Z.shiftr_spec by lia. replace (i - 7 + 7) with i by lia.
        symmetry. destruct (decide (x = 0)) as [->|]; [apply Z.bits_0|].
        apply Z.bits_above_log2; [width|]. apply Z.log2_lt_pow2; [width|].
        apply Z.lt_le_trans with (2 ^ 8); [width|]. apply Z.pow_le_mono_r; lia. }
  rewrite E. unfold is_u8 in Hx. destruct (Z.eqb_spec (x / 128 * 128) 0); cbn [negb]; lia.
Qed.

Lemma pow2_split a b : 0 <= a -> 0 <= b -> 2 ^ (a + b) = 2 ^ a * 2 ^ b.
Proof. intros. by rewrite Z.pow_add_r. Qed.

Lemma pow2_pos a : 0 <= a -> 0 < 2 ^ a.
Proof. intros. by apply Z.pow_pos_nonneg. Qed.

(** Accumulating the next 7-bit group does not wrap and does not overlap. *)
Lemma accumulate bits shift w g :
  0 <= shift < bits -> 0 <= w < 2 ^ shift -> 0 <= g < 2 ^ (bits - shift) ->
  Z.lor w (Z.shiftl g shift mod 2 ^ bits) = w + g * 2 ^ shift.
Proof.
  intros Hs Hw Hg. rewrite Z.mod_small.
  - rewrite lor_add_shiftl by lia. lia.
  - rewrite Z.shiftl_mul_pow2 by lia. replace (2 ^ bits) with (2 ^ (bits - shift) * 2 ^ shift)
      by (rewrite <- pow2_split by lia; f_equal; lia).
    pose proof (pow2_pos shift ltac:(lia)). nia.
Qed.

Lemma write_varint_loop_some n i :
  0 <= i < 2 ^ (7 * Z.of_nat n) -> (0 < n)%nat ->
  exists enc, write_varint_loop n i = Some enc /\ (length enc <= n)%nat /\ enc <> [].
Proof.
  revert i. induction n as [|n IH]; intros i Hi Hn; [lia|]. cbn [write_varint_loop].
  destruct (Z.ltb_spec 127 i) as [Hgt|Hle]; [|exists [i]; cbn; repeat split; [lia|done]].
  destruct n as [|n]; [change (7 * Z.of_nat 1) with 7 in Hi; lia|].
  destruct (IH (Z.shiftr i 7)) as (enc & -> & Hlen & _); [|lia|].
  - rewrite shiftr7. replace (7 * Z.of_nat (S (S n))) with (7 * Z.of_nat (S n) + 7) in Hi by lia.
    rewrite pow2_split in Hi by lia. split; [lia|]. apply Z.div_lt_upper_bound; lia.
  - eexists. split; [done|]. cbn. split; [lia|done].
Qed.

Lemma write_varint_loop_bytes n i enc :
  0 <= i -> write_varint_loop n i = Some enc -> Forall is_u8 enc.
Proof.
  revert i enc. induction n as [|n IH]; intros i enc Hi; [done|]. cbn [write_varint_loop].
  destruct (Z.ltb_spec 127 i) as [Hgt|Hle].
  - destruct (write_varint_loop n (Z.shiftr i 7)) as [rest|] eqn:E; [|done]. cbn.
    intros [= <-]. constructor.
    + rewrite cont_byte. width.
    + apply (IH (Z.shiftr i 7) _ ltac:(rewrite shiftr7; lia) E).
  - intros [= <-]. constructor; [width|done].
Qed.

(** Decoding undoes encoding, from any intermediate state of the reading loop. *)
Lemma read_write_loop bits n i enc shift w r rest :
  0 < bits <= 64 -> 0 <= shift < bits -> 0 <= w < 2 ^ shift -> 0 <= i < 2 ^ (bits - shift) ->
  (shift = 0 \/ 0 < i) -> write_varint_loop n i = Some enc ->
  read_varint_loop bits shift w r (enc ++ rest) =
  (r + Z.of_nat (length enc), w + i * 2 ^ shift, rest).
Proof.
  intros Hb. revert i enc shift w r. induction n as [|n IH]; intros i enc shift w r Hs Hw Hi Hz; [done|].
  cbn [write_varint_loop]. destruct (Z.ltb_spec 127 i) as [Hgt|Hle].
  - destruct (write_varint_loop n (Z.shiftr i 7)) as [tl|] eqn:E; [|done]. cbn [mbind option_bind].
    intros [= <-]. cbn [app read_varint_loop]. rewrite cont_byte.
    assert (Havail : 7 < bits - shift).
    { destruct (Z.ltb_spec 7 (bits - shift)); [done|].
      pose proof (Z.pow_le_mono_r 2 (bits - shift) 7 ltac:(lia) ltac:(lia)). lia. }
    rewrite (u64_small (bits - shift)), (u64_small (shift + 7)) by width.
    replace (i mod 128 + 128 =? 0) with false by lia.
    replace (bits - shift <=? 7) with false by lia. cbn [andb].
    rewrite land128 by width. replace (128 <=? i mod 128 + 128) with true by lia.
    rewrite land127. replace ((i mod 128 + 128) mod 128) with (i mod 128) by lia.
    replace (bits - shift) with (bits - (shift + 7) + 7) in Hi by lia.
    rewrite pow2_split in Hi by lia. change (2 ^ 7) with 128 in Hi.
    rewrite accumulate; [|lia|lia|]; cycle 1.
    { replace (bits - shift) with (bits - (shift + 7) + 7) by lia. rewrite pow2_split by lia.
      change (2 ^ 7) with 128. pose proof (pow2_pos (bits - (shift + 7)) ltac:(lia)). lia. }
    pose proof (pow2_pos shift ltac:(lia)) as Hps.
    rewrite shiftr7 in E. rewrite (IH (i / 128) tl); rewrite ?pow2_split by lia;
      change (2 ^ 7) with 128; [|lia|nia|lia|right; lia|done].
    cbn [length]. do 2 f_equal; [lia|].
    rewrite (Z.div_mod i 128) at 3 by lia. ring.
  - intros [= <-]. cbn [app read_varint_loop length].
    replace ((i =? 0) && negb (shift =? 0)) with false by lia.
    rewrite (u64_small (bits - shift)) by width. rewrite Z.shiftl_1_l.
    replace ((bits - shift <=? 7) && (2 ^ (bits - shift) <=? i)) with false by lia.
    rewrite land128 by width. replace (128 <=? i) with false by lia.
    rewrite land127, (Z.mod_small i 128) by lia. by rewrite accumulate by lia.
Qed.

(** Whatever the reading loop accepts is the encoding of what it returns. *)
Lemma read_loop_canonical bits n l shift w r ret v rest :
  0 < bits <= 64 -> Forall is_u8 l -> 0 <= shift < bits -> 0 <= w < 2 ^ shift -> 0 <= r ->
  bits - shift <= 7 * Z.of_nat n ->
  read_varint_loop bits shift w r l = (ret, v, rest) -> 0 < ret ->
  exists i enc, write_varint_loop n i = Some enc /\ l = enc ++ rest /\
    v = w + i * 2 ^ shift /\ 0 <= i < 2 ^ (bits - shift) /\ (shift = 0 \/ 0 < i) /\
    ret = r + Z.of_nat (length enc).
Proof.
  intros Hb. revert n shift w r. induction l as [|byte l IH]; intros n shift w r Hl Hs Hw Hr Hn;
    cbn [read_varint_loop]; [intros [= <- <- <-]; unfold EVARINT_TRUNCATED; lia|].
  inversion_clear Hl as [|? ? Hbyte Hl'].
  destruct ((byte =? 0) && negb (shift =? 0)) eqn:Ez;
    [intros [= <- <- <-]; unfold EVARINT_REPRESENT; lia|].
  rewrite (u64_small (bits - shift)) by width. rewrite Z.shiftl_1_l.
  destruct ((bits - shift <=? 7) && (2 ^ (bits - shift) <=? byte)) eqn:Eo;
    [intros [= <- <- <-]; unfold EVARINT_OVERFLOW; lia|].
  rewrite land128 by done. rewrite land127. destruct n as [|n]; [lia|].
  assert (Hg : 0 <= byte mod 128 < 2 ^ (bits - shift)).
  { destruct (Z.leb_spec (bits - shift) 7); [unfold is_u8 in *; lia|].
    pose proof (Z.pow_le_mono_r 2 7 (bits - shift) ltac:(lia) ltac:(lia)). lia. }
  rewrite accumulate by lia. cbn [write_varint_loop].
  destruct (Z.leb_spec 128 byte) as [Hc|Hc].
  - assert (Havail : 7 < bits - shift).
    { destruct (Z.leb_spec (bits - shift) 7); [|lia].
      pose proof (Z.pow_le_mono_r 2 (bits - shift) 7 ltac:(lia) ltac:(lia)). lia. }
    rewrite (u64_small (shift + 7)) by width. intros Hread Hret.
    pose proof (pow2_pos shift ltac:(lia)) as Hps.
    destruct (IH n (shift + 7) (w + byte mod 128 * 2 ^ shift) (r + 1)) as (i & enc & He & -> & Hv & Hi & Hz & Hr');
      [done|lia|rewrite pow2_split by lia; change (2 ^ 7) with 128; nia|lia|lia|done|done|].
    replace (bits - shift) with (bits - (shift + 7) + 7) by lia. rewrite pow2_split in * by lia.
    change (2 ^ 7) with 128 in *.
    exists (i * 128 + byte mod 128), (byte :: enc).
    replace (127 <? i * 128 + byte mod 128) with true by lia.
    rewrite cont_byte, shiftr7. replace ((i * 128 + byte mod 128) / 128) with i by lia.
    rewrite He. cbn [mbind option_bind].
    replace ((i * 128 + byte mod 128) mod 128 + 128) with byte by width.
    split; [done|]. split; [done|]. split; [rewrite Hv; ring|]. split; [lia|]. cbn [length]. lia.
  - intros [= <- <- <-] _. exists byte, [byte]. replace (127 <? byte) with false by lia.
    rewrite Z.mod_small by width. repeat split; cbn [length]; width.
Qed.

(** [VARINT_MAX_LENGTH] is enough for every value of the type. *)
Lemma varint_max_length_enough bits :
  0 < bits -> bits <= 7 * Z.of_nat (Z.to_nat (VARINT_MAX_LENGTH bits)).
Proof. unfold VARINT_MAX_LENGTH. lia. Qed.

(** Round trip, for use by the codecs built on varints. *)
Lemma varint_rt_gen bits i rest :
  0 < bits <= 64 -> 0 <= i < 2 ^ bits ->
  exists enc, write_varint bits i = Some enc /\
    1 <= Z.of_nat (length enc) <= VARINT_MAX_LENGTH bits /\
    read_varint bits (enc ++ rest) = (Z.of_nat (length enc), i, rest).
Proof.
  intros Hb Hi. pose proof (varint_max_length_enough bits ltac:(lia)) as Hm.
  destruct (write_varint_loop_some (Z.to_nat (VARINT_MAX_LENGTH bits)) i) as (enc & He & Hlen & Hne).
  - pose proof (Z.pow_le_mono_r 2 _ _ ltac:(lia) Hm). lia.
  - lia.
  - exists enc. split; [done|]. split.
    + destruct enc; [done|]. cbn [length] in *. lia.
    + unfold read_varint. rewrite (read_write_loop bits _ i enc 0 0 0 rest) with (6 := He);
        [do 2 f_equal; lia|rewrite ?Z.sub_0_r; lia..].
Qed.

Lemma varint_rt tag : is_u64 tag -> forall rest,
  exists enc, write_varint 64 tag = Some enc /\ (1 <= length enc)%nat /\
    read_varint 64 (enc ++ rest) = (Z.of_nat (length enc), tag, rest).
Proof.
  intros Ht rest. destruct (varint_rt_gen 64 tag rest) as (enc & ? & ? & ?); [lia|width|].
  exists enc. split_and!; [done|lia|done].
Qed.

(** Every value of a [bits]-wide unsigned type is written without tripping
    the length assertions, in at most [VARINT_MAX_LENGTH] bytes, and reading the
    written bytes (followed by anything) returns their number, the value, and
    leaves the iterator right after them. *)
Theorem varint_roundtrip bits i rest :
  0 < bits <= 64 -> 0 <= i < 2 ^ bits ->
  exists enc, write_varint bits i = Some enc /\
    1 <= Z.of_nat (length enc) <= VARINT_MAX_LENGTH bits /\
    read_varint bits (enc ++ rest) = (Z.of_nat (length enc), i, rest).
Proof. apply varint_rt_gen. Qed.

Lemma varint_roundtrip_witness :
  (exists enc, write_varint 64 48900 = Some enc /\
    1 <= Z.of_nat (length enc) <= VARINT_MAX_LENGTH 64 /\
    read_varint 64 (enc ++ [7; 8]) = (Z.of_nat (length enc), 48900, [7; 8])) /\
  write_varint 64 48900 = Some [132; 254; 2].
Proof. split; [apply (varint_roundtrip 64 48900 [7; 8]); lia|reflexivity]. Defined.

(** Varints are not malleable: whenever [read_varint] succeeds, the value
    fits the type and the bytes consumed are exactly the bytes [write_varint]
    produces for that value. *)
Theorem varint_canonical bits l ret v rest :
  0 < bits <= 64 -> Forall is_u8 l -> read_varint bits l = (ret, v, rest) -> 0 < ret ->
  0 <= v < 2 ^ bits /\ exists enc, write_varint bits v = Some enc /\ l = enc ++ rest /\
  ret = Z.of_nat (length enc).
Proof.
  intros Hb Hl Hr Hret.
  destruct (read_loop_canonical bits (Z.to_nat (VARINT_MAX_LENGTH bits)) l 0 0 0 ret v rest)
    as (i & enc & He & -> & -> & Hi & _ & ->);
    [done..|lia|lia|lia|pose proof (varint_max_length_enough bits); lia|done|done|].
  replace (0 + i * 2 ^ 0) with i by lia. rewrite Z.sub_0_r in Hi.
  split; [done|]. exists enc. split; [done|]. split; [done|]. lia.
Qed.

Lemma varint_canonical_witness :
  0 <= 300 < 2 ^ 32 /\ exists enc, write_varint 32 300 = Some enc /\ [172; 2; 9] = enc ++ [9] /\
  2 = Z.of_nat (length enc).
Proof.
  apply (varint_canonical 32 [172; 2; 9] 2 300 [9]);
    [lia|repeat constructor; width|reflexivity|lia].
Defined.

Lemma write_varint_bytes bits i enc :
  0 <= i -> write_varint bits i = Some enc -> Forall is_u8 enc.
Proof. apply write_varint_loop_bytes. Qed.
