(* ===== verification/Base58.v ===== *)
(** * CryptoNote base58 and address strings (src/common/base58.cpp)

    Strings are lists of character codes.  A [bool]-returning routine with an
    output argument is an [option]; [None] of an encoding routine is a write
    outside its buffer.  [cn_fast_hash] is a parameter of the address functions. *)
From S2P Require Import Prelude IntUtil Varint.

Definition alphabet : list Z :=
  [49; 50; 51; 52; 53; 54; 55; 56; 57; 65; 66; 67; 68; 69; 70; 71; 72; 74; 75; 76; 77; 78; 80;
   81; 82; 83; 84; 85; 86; 87; 88; 89; 90; 97; 98; 99; 100; 101; 102; 103; 104; 105; 106; 107;
   109; 110; 111; 112; 113; 114; 115; 116; 117; 118; 119; 120; 121; 122].

Definition full_block_size : nat := 8.
Definition encoded_block_sizes : list nat := [0; 2; 3; 5; 6; 7; 9; 10; 11]%nat.
Definition full_encoded_block_size : nat := 11.
Definition decoded_block_sizes : list Z := [0; -1; 1; 2; -1; 3; 4; 5; -1; 6; 7; 8].
Definition addr_checksum_size : nat := 4.

(** The table built by the constructor of [reverse_alphabet_table]. *)
Definition from_b58_lut : list Z :=
  foldl (fun lut i => <[Z.to_nat (alphabet !!! i) := Z.of_nat i]> lut)
        (replicate 256 (-1)) (seq 0 (length alphabet)).

Definition reverse_alphabet (letter : Z) : Z := from_b58_lut !!! Z.to_nat (u8 letter).

(** Byte swap of a 64-bit word. *)
Definition SWAP64BE (x : Z) : Z := load_le (rev (store_le 8 x)).

Definition uint_8be_to_64 (data : list Z) : Z :=
  SWAP64BE (load_le (replicate (8 - length data) 0 ++ data)).

Definition uint_64_to_8be (num : Z) (size : nat) : list Z :=
  drop (8 - size) (store_le 8 (SWAP64BE num)).

(** The loop of [encode_block]; [n] is [i + 1]. *)
Fixpoint encode_block_loop (n : nat) (num : Z) (res : list Z) : option (list Z) :=
  if 0 <? num then
    match n with
    | O => None
    | S i =>
        encode_block_loop i (num / Z.of_nat (length alphabet))
          (<[i := alphabet !!! Z.to_nat (num mod Z.of_nat (length alphabet))]> res)
    end
  else Some res.

(** [res] is the block's part of the result, still filled with [alphabet[0]]. *)
Definition encode_block (block : list Z) : option (list Z) :=
  let size := encoded_block_sizes !!! length block in
  encode_block_loop size (uint_8be_to_64 block) (replicate size (alphabet !!! 0%nat)).

(** The loop of [decode_block] over the symbols from the last to the first. *)
Fixpoint decode_block_loop (symbols : list Z) (res_num order : Z) : option Z :=
  match symbols with
  | [] => Some res_num
  | c :: symbols =>
      let digit := reverse_alphabet c in
      if digit <? 0 then None
      else
        let '(product_lo, product_hi) := Int128.mul128 order digit in
        let tmp := u64 (res_num + product_lo) in
        if (tmp <? res_num) || negb (product_hi =? 0) then None
        else decode_block_loop symbols tmp (u64 (order * Z.of_nat (length alphabet)))
  end.

Definition decode_block (block : list Z) : option (list Z) :=
  let res_size := decoded_block_sizes !!! length block in
  if res_size <=? 0 then None
  else
    res_num ← decode_block_loop (rev block) 0 1;
    if (res_size <? Z.of_nat full_block_size) && (Z.shiftl 1 (8 * res_size) <=? res_num)
    then None
    else Some (uint_64_to_8be res_num (Z.to_nat res_size)).

Definition encode (data : list Z) : option (list Z) :=
  if decide (data = []) then Some []
  else
    let full_block_count := (length data / full_block_size)%nat in
    let last_block_size := (length data mod full_block_size)%nat in
    full ← mapM (fun i => encode_block (take full_block_size (drop (i * full_block_size) data)))
                (seq 0 full_block_count);
    last ← (if decide (0 < last_block_size)%nat
            then encode_block (take last_block_size (drop (full_block_count * full_block_size) data))
            else Some []);
    Some (concat full ++ last).

Definition decode (enc : list Z) : option (list Z) :=
  if decide (enc = []) then Some []
  else
    let full_block_count := (length enc / full_encoded_block_size)%nat in
    let last_block_size := (length enc mod full_encoded_block_size)%nat in
    let last_block_decoded_size := decoded_block_sizes !!! last_block_size in
    if last_block_decoded_size <? 0 then None
    else
      full ← mapM (fun i => decode_block (take full_encoded_block_size
                                               (drop (i * full_encoded_block_size) enc)))
                  (seq 0 full_block_count);
      last ← (if decide (0 < last_block_size)%nat
              then decode_block (take last_block_size
                                      (drop (full_block_count * full_encoded_block_size) enc))
              else Some []);
      Some (concat full ++ last).

Section Addresses.
Context (cn_fast_hash : list Z -> list Z).

Definition encode_addr (tag : Z) (data : list Z) : option (list Z) :=
  varint ← write_varint 64 tag;
  let buf := varint ++ data in
  let hash := cn_fast_hash buf in
  encode (buf ++ take addr_checksum_size hash).

(** Returns the tag and the data. *)
Definition decode_addr (addr : list Z) : option (Z * list Z) :=
  addr_data ← decode addr;
  if decide (length addr_data <= addr_checksum_size)%nat then None
  else
    let checksum := drop (length addr_data - addr_checksum_size) addr_data in
    let addr_data := take (length addr_data - addr_checksum_size) addr_data in
    let expected_checksum := take addr_checksum_size (cn_fast_hash addr_data) in
    if decide (expected_checksum ≠ checksum) then None
    else
      let '(read, tag, _) := read_varint 64 addr_data in
      if read <=? 0 then None
      else Some (tag, drop (Z.to_nat read) addr_data).

End Addresses.

(** ** Symbols and digits *)

Lemma reverse_alphabet_symbol d :
  0 <= d < 58 -> reverse_alphabet (alphabet !!! Z.to_nat d) = d /\ is_u8 (alphabet !!! Z.to_nat d).
Proof.
  intros Hd.
  assert (Hall : forallb (fun k => (reverse_alphabet (alphabet !!! k) =? Z.of_nat k) &&
    (0 <=? alphabet !!! k) && (alphabet !!! k <? 256)) (seq 0 58) = true)
    by (vm_compute; reflexivity).
  apply forallb_seq with (k := Z.to_nat d) in Hall; [|lia]. bool_hyps. unfold is_u8. lia.
Qed.

Lemma symbol_reverse_alphabet c :
  is_u8 c -> 0 <= reverse_alphabet c ->
  reverse_alphabet c < 58 /\ alphabet !!! Z.to_nat (reverse_alphabet c) = c.
Proof.
  intros Hc Hr.
  assert (Hall : forallb (fun k => (reverse_alphabet (Z.of_nat k) <? 0) ||
    ((reverse_alphabet (Z.of_nat k) <? 58) &&
     (alphabet !!! Z.to_nat (reverse_alphabet (Z.of_nat k)) =? Z.of_nat k))) (seq 0 256) = true)
    by (vm_compute; reflexivity).
  apply forallb_seq with (k := Z.to_nat c) in Hall; [|width].
  rewrite Z2Nat.id in Hall by width. bool_hyps; lia.
Qed.

(** Base-58 digits, least significant first. *)
Fixpoint le58 (n : nat) (num : Z) : list Z :=
  match n with
  | O => []
  | S n => num mod 58 :: le58 n (num / 58)
  end.

Fixpoint val58 (digits : list Z) : Z :=
  match digits with
  | [] => 0
  | d :: digits => d + 58 * val58 digits
  end.

Definition symbol (d : Z) : Z := alphabet !!! Z.to_nat d.

Lemma length_le58 n num : length (le58 n num) = n.
Proof. revert num. induction n; intros; cbn; [done|by rewrite IHn]. Qed.

Lemma le58_range n num : Forall (fun d => 0 <= d < 58) (le58 n num).
Proof. revert num. induction n; intros; cbn; constructor; [lia|done]. Qed.

Lemma val58_le58 n num : 0 <= num < 58 ^ Z.of_nat n -> val58 (le58 n num) = num.
Proof.
  revert num. induction n as [|n IH]; intros num Hn; [cbn in *; lia|].
  cbn [le58 val58]. rewrite Nat2Z.inj_succ, Z.pow_succ_r in Hn by lia. rewrite IH; lia.
Qed.

Lemma le58_val58 l : Forall (fun d => 0 <= d < 58) l -> le58 (length l) (val58 l) = l.
Proof.
  induction 1 as [|d l Hd Hl IH]; [done|]. cbn [length le58 val58].
  replace ((d + 58 * val58 l) mod 58) with d by lia.
  replace ((d + 58 * val58 l) / 58) with (val58 l) by lia. by rewrite IH.
Qed.

Lemma val58_bound l :
  Forall (fun d => 0 <= d < 58) l -> 0 <= val58 l < 58 ^ Z.of_nat (length l).
Proof.
  induction 1 as [|d l Hd Hl IH]; [cbn; lia|]. cbn [length val58].
  rewrite Nat2Z.inj_succ, Z.pow_succ_r by lia. lia.
Qed.

Lemma le58_zero n : rev (symbol <$> le58 n 0) = replicate n (symbol 0).
Proof.
  induction n as [|n IH]; [done|]. cbn [le58]. change (0 mod 58) with 0. change (0 / 58) with 0.
  cbn [fmap list_fmap rev]. rewrite IH. symmetry. by rewrite <- replicate_cons_app.
Qed.

(** The encoding loop writes the base-58 digits, most significant first. *)
Lemma encode_block_loop_spec n num tl :
  0 <= num < 58 ^ Z.of_nat n ->
  encode_block_loop n num (replicate n (symbol 0) ++ tl) = Some (rev (symbol <$> le58 n num) ++ tl).
Proof.
  revert num tl. induction n as [|n IH]; intros num tl Hn.
  - cbn in *. by replace (0 <? num) with false by lia.
  - cbn [encode_block_loop]. rewrite Nat2Z.inj_succ, Z.pow_succ_r in Hn by lia.
    destruct (Z.ltb_spec 0 num) as [Hpos|Hz].
    + change (Z.of_nat (length alphabet)) with 58. rewrite replicate_S_end, <- app_assoc.
      rewrite insert_app_r_alt by (rewrite length_replicate; lia).
      rewrite length_replicate, Nat.sub_diag. cbn [insert list_insert app].
      rewrite IH by lia. cbn [le58 fmap list_fmap rev]. by rewrite <- app_assoc.
    + assert (num = 0) as -> by lia. by rewrite le58_zero.
Qed.

(** ** Words in memory *)

Lemma rev_replicate {A} n (x : A) : rev (replicate n x) = replicate n x.
Proof.
  induction n as [|n IH]; [done|]. cbn [replicate rev]. rewrite IH.
  symmetry. by rewrite <- replicate_cons_app.
Qed.

Lemma uint_8be_to_64_spec data :
  Forall is_u8 data -> (length data <= 8)%nat -> uint_8be_to_64 data = load_le (rev data).
Proof.
  intros Hd Hl. unfold uint_8be_to_64, SWAP64BE.
  set (bytes := replicate (8 - length data) 0 ++ data).
  assert (H8 : length bytes = 8%nat) by (subst bytes; rewrite length_app, length_replicate; lia).
  assert (Hb : Forall is_u8 bytes).
  { apply Forall_app. split; [|done]. apply Forall_replicate. width. }
  rewrite <- H8, store_load_le by done. subst bytes.
  by rewrite rev_app_distr, rev_replicate, load_le_zeros.
Qed.

Lemma uint_64_to_8be_spec num size :
  is_u64 num -> (size <= 8)%nat -> uint_64_to_8be num size = rev (store_le size num).
Proof.
  intros Hn Hs. unfold uint_64_to_8be, SWAP64BE.
  assert (Hb : Forall is_u8 (rev (store_le 8 num))) by (apply List.Forall_rev, store_le_bytes).
  assert (H8 : length (rev (store_le 8 num)) = 8%nat) by (rewrite length_rev; apply length_store_le).
  rewrite <- H8 at 2. rewrite store_load_le by done.
  rewrite <- (take_store_le size 8) by done.
  rewrite <- (take_drop size (store_le 8 num)) at 1. rewrite rev_app_distr.
  rewrite drop_app_length'; [done|]. rewrite length_rev, length_drop, length_store_le. done.
Qed.

(** ** The decoding loop *)

Definition digit_of (c : Z) : option Z :=
  if reverse_alphabet c <? 0 then None else Some (reverse_alphabet c).

Lemma reverse_alphabet_lt c : reverse_alphabet c < 58.
Proof.
  assert (E : reverse_alphabet c = reverse_alphabet (u8 c)).
  { unfold reverse_alphabet. rewrite (u8_small (u8 c)); [done|apply u8_range]. }
  rewrite E. destruct (Z.ltb_spec (reverse_alphabet (u8 c)) 0); [lia|].
  by apply symbol_reverse_alphabet; [apply u8_range|].
Qed.

Lemma digits_range syms ds :
  mapM digit_of syms = Some ds -> Forall (fun d => 0 <= d < 58) ds /\ length ds = length syms.
Proof.
  intros H. apply mapM_Some in H. split; [|by apply Forall2_length in H].
  induction H as [|c d syms ds Hd _ IH]; constructor; [|done].
  unfold digit_of in Hd. pose proof (reverse_alphabet_lt c).
  destruct (Z.ltb_spec (reverse_alphabet c) 0); simplify_eq. lia.
Qed.

Lemma pow58_u64 k : 0 <= k <= 10 -> 0 < 58 ^ k <= 430804206899405824.
Proof.
  intros Hk. split; [apply Z.pow_pos_nonneg; lia|].
  change 430804206899405824 with (58 ^ 10). apply Z.pow_le_mono_r; lia.
Qed.

(** Overflow of the accumulator is detected exactly. *)
Lemma mul128_add_check res order d :
  is_u64 res -> is_u64 order -> 0 <= d < 58 ->
  let '(lo, hi) := Int128.mul128 order d in
  (u64 (res + lo) <? res) || negb (hi =? 0) = (18446744073709551616 <=? res + order * d) /\
  (res + order * d < 18446744073709551616 -> u64 (res + lo) = res + order * d).
Proof.
  intros Hr Ho Hd. unfold Int128.mul128. rewrite Z.shiftr_div_pow2 by lia.
  change (2 ^ 64) with 18446744073709551616.
  assert (Hp : 0 <= order * d <= 58 * order) by (unfold is_u64 in *; nia).
  set (p := order * d) in *. clearbody p. unfold is_u64, u64 in *.
  destruct (Z.eqb_spec ((p / 18446744073709551616) mod 18446744073709551616) 0) as [E|E]; cbn [negb].
  - assert (p < 18446744073709551616) by lia. split; [|lia].
    rewrite orb_false_r. lia.
  - rewrite orb_true_r. split; [|lia]. symmetry. apply Z.leb_le. lia.
Qed.

Lemma decode_block_loop_spec syms res k :
  is_u64 res -> 0 <= k -> k + Z.of_nat (length syms) <= 11 ->
  decode_block_loop syms res (u64 (58 ^ k)) =
  (ds ← mapM digit_of syms;
   if res + 58 ^ k * val58 ds <? 18446744073709551616 then Some (res + 58 ^ k * val58 ds) else None).
Proof.
  revert res k. induction syms as [|c syms IH]; intros res k Hr Hk Hl.
  - cbn. rewrite Z.mul_0_r, Z.add_0_r. by replace (res <? 18446744073709551616) with true by width.
  - cbn [length] in Hl. cbn [decode_block_loop mapM]. pose proof (pow58_u64 k ltac:(lia)) as Hpk.
    rewrite (u64_small (58 ^ k)) by width.
    pose proof (reverse_alphabet_lt c) as Hlt. set (d := reverse_alphabet c) in *.
    change (digit_of c) with (if d <? 0 then None else Some d).
    destruct (Z.ltb_spec d 0) as [|Hd]; [done|]. cbn [mbind option_bind].
    pose proof (mul128_add_check res (58 ^ k) d Hr ltac:(width) ltac:(lia)) as Hm.
    destruct (Int128.mul128 (58 ^ k) d) as [lo hi]. destruct Hm as [-> Ht].
    change (Z.of_nat (length alphabet)) with 58.
    destruct (Z.leb_spec 18446744073709551616 (res + 58 ^ k * d)) as [Ho|Ho].
    + destruct (mapM digit_of syms) as [ds|] eqn:Eds; [|done]. cbn [mbind option_bind val58 mret option_ret].
      apply digits_range in Eds as [Hds _]. apply val58_bound in Hds.
      destruct (Z.ltb_spec (res + 58 ^ k * (d + 58 * val58 ds)) 18446744073709551616); [nia|done].
    + rewrite Ht by done. rewrite (Z.mul_comm (58 ^ k) 58), <- Z.pow_succ_r by done.
      rewrite IH; [|unfold is_u64 in *; nia|lia|lia].
      destruct (mapM digit_of syms) as [ds|]; [|done]. cbn [mbind option_bind val58 mret option_ret].
      rewrite Z.pow_succ_r by done.
      replace (res + 58 ^ k * d + 58 * 58 ^ k * val58 ds)
        with (res + 58 ^ k * (d + 58 * val58 ds)) by ring. done.
Qed.

(** ** Blocks *)

Lemma block_sizes n :
  (1 <= n <= 8)%nat ->
  let e := encoded_block_sizes !!! n in
  decoded_block_sizes !!! e = Z.of_nat n /\ 256 ^ Z.of_nat n <= 58 ^ Z.of_nat e /\ (2 <= e <= 11)%nat.
Proof.
  intros Hn. do 9 (destruct n as [|n]; [try lia; vm_compute; split_and!; congruence || lia|]). lia.
Qed.

Lemma block_sizes_inv e :
  (e <= 11)%nat -> 0 < decoded_block_sizes !!! e ->
  (1 <= Z.to_nat (decoded_block_sizes !!! e) <= 8)%nat /\
  encoded_block_sizes !!! Z.to_nat (decoded_block_sizes !!! e) = e.
Proof.
  intros He Hd.
  do 12 (destruct e as [|e]; [revert Hd; vm_compute; try congruence; intros _; split_and!; lia|]). lia.
Qed.

Lemma pow256_u64 n : (n <= 8)%nat -> 256 ^ Z.of_nat n <= 18446744073709551616.
Proof. intros. change 18446744073709551616 with (256 ^ 8). apply Z.pow_le_mono_r; lia. Qed.

Lemma block_value_bound b :
  Forall is_u8 b -> 0 <= load_le (rev b) < 256 ^ Z.of_nat (length b).
Proof. intros Hb. rewrite <- (length_rev b). by apply load_le_bound, List.Forall_rev. Qed.

Lemma encode_block_spec b :
  Forall is_u8 b -> (1 <= length b <= 8)%nat ->
  encode_block b =
    Some (rev (symbol <$> le58 (encoded_block_sizes !!! length b) (load_le (rev b)))).
Proof.
  intros Hb Hl. unfold encode_block. rewrite uint_8be_to_64_spec by (done || lia).
  destruct (block_sizes (length b) Hl) as (_ & Hp & _).
  pose proof (block_value_bound b Hb). set (e := encoded_block_sizes !!! length b) in *.
  rewrite <- (app_nil_r (replicate e _)). change (alphabet !!! 0%nat) with (symbol 0).
  by rewrite encode_block_loop_spec, app_nil_r by lia.
Qed.

Lemma encode_block_length b enc :
  Forall is_u8 b -> (1 <= length b <= 8)%nat -> encode_block b = Some enc ->
  length enc = encoded_block_sizes !!! length b.
Proof.
  intros Hb Hl. rewrite encode_block_spec by done. intros [= <-].
  by rewrite length_rev, length_fmap, length_le58.
Qed.

Lemma digits_of_symbols ds :
  Forall (fun d => 0 <= d < 58) ds -> mapM digit_of (symbol <$> ds) = Some ds.
Proof.
  intros H. apply mapM_Some. induction H as [|d ds Hd _ IH]; constructor; [|done].
  unfold digit_of, symbol. destruct (reverse_alphabet_symbol d Hd) as [-> _].
  by replace (d <? 0) with false by lia.
Qed.

Lemma symbols_of_digits syms ds :
  Forall is_u8 syms -> mapM digit_of syms = Some ds -> symbol <$> ds = syms.
Proof.
  intros Hs H. apply mapM_Some in H. revert Hs.
  induction H as [|c d syms ds Hd _ IH]; intros Hs; [done|].
  inversion_clear Hs as [|? ? Hc Hs']. cbn. rewrite IH by done. f_equal.
  unfold digit_of in Hd. destruct (Z.ltb_spec (reverse_alphabet c) 0); simplify_eq.
  by apply symbol_reverse_alphabet.
Qed.

(** [decode_block] through the digits of the block. *)
Lemma decode_block_spec blk :
  (length blk <= 11)%nat -> 0 < decoded_block_sizes !!! length blk ->
  decode_block blk =
  (ds ← mapM digit_of (rev blk);
   if val58 ds <? 256 ^ (decoded_block_sizes !!! length blk)
   then Some (rev (store_le (Z.to_nat (decoded_block_sizes !!! length blk)) (val58 ds))) else None).
Proof.
  intros Hl Hd. unfold decode_block. destruct (block_sizes_inv _ Hl Hd) as [Hn _].
  set (n := decoded_block_sizes !!! length blk) in *.
  replace (n <=? 0) with false by lia. change 1 with (u64 (58 ^ 0)).
  rewrite decode_block_loop_spec by (rewrite ?length_rev; width).
  destruct (mapM digit_of (rev blk)) as [ds|] eqn:Eds; [|done]. cbn [mbind option_bind].
  apply digits_range in Eds as [Hds _]. apply val58_bound in Hds.
  rewrite Z.pow_0_r, Z.mul_1_l, Z.add_0_l. change (Z.of_nat full_block_size) with 8.
  rewrite Z.shiftl_1_l, Z.pow_mul_r by lia. change (2 ^ 8) with 256.
  pose proof (pow256_u64 (Z.to_nat n) ltac:(lia)) as Hp. rewrite Z2Nat.id in Hp by lia.
  destruct (Z.ltb_spec (val58 ds) 18446744073709551616) as [Hv|Hv]; cbn [mbind option_bind].
  - destruct (Z.ltb_spec (val58 ds) (256 ^ n)) as [Hw|Hw].
    + replace (256 ^ n <=? val58 ds) with false by lia. rewrite andb_false_r.
      by rewrite uint_64_to_8be_spec by width.
    + replace (n <? 8) with true; [by replace (256 ^ n <=? val58 ds) with true by lia|].
      destruct (Z.ltb_spec n 8); [done|]. assert (n = 8) by lia. replace n with 8 in * by lia. lia.
  - by replace (val58 ds <? 256 ^ n) with false by lia.
Qed.

Lemma decode_encode_block b :
  Forall is_u8 b -> (1 <= length b <= 8)%nat ->
  exists enc, encode_block b = Some enc /\ decode_block enc = Some b /\ Forall is_u8 enc /\
              length enc = encoded_block_sizes !!! length b.
Proof.
  intros Hb Hl. rewrite encode_block_spec by done. eexists. split; [done|].
  destruct (block_sizes (length b) Hl) as (Hd & Hp & He). pose proof (block_value_bound b Hb) as Hv.
  set (e := encoded_block_sizes !!! length b) in *. set (num := load_le (rev b)) in *.
  assert (Hlen : length (rev (symbol <$> le58 e num)) = e)
    by (by rewrite length_rev, length_fmap, length_le58).
  split_and!; [|apply List.Forall_rev, Forall_fmap|done].
  - rewrite decode_block_spec; rewrite ?Hlen, ?Hd; [|lia..].
    rewrite rev_involutive, digits_of_symbols by apply le58_range. cbn [mbind option_bind].
    rewrite val58_le58 by lia. replace (num <? _) with true by lia. f_equal.
    rewrite Nat2Z.id, <- (length_rev b). unfold num.
    by rewrite store_load_le, rev_involutive by (by apply List.Forall_rev).
  - eapply Forall_impl; [apply le58_range|]. intros d Hd'. by apply reverse_alphabet_symbol.
Qed.

Lemma encode_decode_block blk d :
  Forall is_u8 blk -> (length blk <= 11)%nat -> decode_block blk = Some d ->
  encode_block d = Some blk /\ (1 <= length d <= 8)%nat /\ Forall is_u8 d /\
  Z.of_nat (length d) = decoded_block_sizes !!! length blk.
Proof.
  intros Hb Hl Hdec.
  assert (Hd : 0 < decoded_block_sizes !!! length blk).
  { unfold decode_block in Hdec. destruct (Z.leb_spec (decoded_block_sizes !!! length blk) 0); [done|lia]. }
  rewrite decode_block_spec in Hdec by done. destruct (block_sizes_inv _ Hl Hd) as [Hn He].
  set (n := decoded_block_sizes !!! length blk) in *.
  destruct (mapM digit_of (rev blk)) as [ds|] eqn:Eds; [|done]. cbn [mbind option_bind] in Hdec.
  destruct (Z.ltb_spec (val58 ds) (256 ^ n)) as [Hv|]; [|done]. injection Hdec as <-.
  pose proof (digits_range _ _ Eds) as [Hds Hlen]. rewrite length_rev in Hlen.
  apply symbols_of_digits in Eds; [|by apply List.Forall_rev].
  pose proof (val58_bound ds Hds).
  assert (Hld : length (rev (store_le (Z.to_nat n) (val58 ds))) = Z.to_nat n)
    by (by rewrite length_rev, length_store_le).
  assert (Hbd : Forall is_u8 (rev (store_le (Z.to_nat n) (val58 ds))))
    by (apply List.Forall_rev, store_le_bytes).
  rewrite encode_block_spec by (rewrite ?Hld; done). rewrite Hld. split; [|split_and!; [lia..|done|lia]].
  rewrite He, rev_involutive, load_store_le by (rewrite Z2Nat.id by lia; lia).
  by rewrite <- Hlen, le58_val58, Eds, rev_involutive.
Qed.

(** ** Strings *)

(** A buffer cut at its block boundaries. *)
Definition blocks_of (k : nat) (data : list Z) (cs : list (list Z)) (tl : list Z) : Prop :=
  data = concat cs ++ tl /\ Forall (fun c => length c = k) cs /\ (length tl < k)%nat.

Lemma blocks_of_exists k data :
  (0 < k)%nat -> exists cs tl, blocks_of k data cs tl.
Proof.
  intros Hk. pose proof (Nat.div_mod_eq (length data) k) as E.
  destruct (chunks_split k (length data / k) data) as [Ec Hc]; [lia|].
  exists (chunks k (length data / k) data), (drop (length data / k * k) data).
  split_and!; [done|done|]. rewrite length_drop.
  pose proof (Nat.mod_upper_bound (length data) k). lia.
Qed.

Lemma blocks_of_counts k data cs tl :
  blocks_of k data cs tl ->
  (length data / k)%nat = length cs /\ (length data mod k)%nat = length tl /\
  drop (length cs * k) data = tl /\ chunks k (length cs) data = cs.
Proof.
  intros (-> & Hc & Ht). pose proof (length_concat_const k cs Hc) as Hl.
  rewrite length_app, Hl. rewrite (Nat.add_comm (_ * _)). split_and!.
  - rewrite Nat.div_add by lia. rewrite Nat.div_small by lia. lia.
  - by rewrite Nat.Div0.mod_add, Nat.mod_small by lia.
  - by rewrite drop_app_length'.
  - by apply chunks_concat.
Qed.

Lemma encode_blocks data cs tl :
  data <> [] -> blocks_of 8 data cs tl ->
  encode data =
    (full ← mapM encode_block cs;
     last ← (if decide (0 < length tl)%nat then encode_block tl else Some []);
     Some (concat full ++ last)).
Proof.
  intros Hne Hb. unfold encode. destruct (decide (data = [])); [done|].
  unfold full_block_size. destruct (blocks_of_counts _ _ _ _ Hb) as (-> & -> & Hd & Hc).
  rewrite mapM_chunks, Hc, Hd. by rewrite take_ge by done.
Qed.

Lemma decode_blocks enc cs tl :
  enc <> [] -> blocks_of 11 enc cs tl ->
  decode enc =
    (if decoded_block_sizes !!! length tl <? 0 then None
     else
       full ← mapM decode_block cs;
       last ← (if decide (0 < length tl)%nat then decode_block tl else Some []);
       Some (concat full ++ last)).
Proof.
  intros Hne Hb. unfold decode. destruct (decide (enc = [])); [done|].
  unfold full_encoded_block_size. destruct (blocks_of_counts _ _ _ _ Hb) as (-> & -> & Hd & Hc).
  rewrite mapM_chunks, Hc, Hd. by rewrite take_ge by done.
Qed.

Lemma encode_blocks_total cs :
  Forall (fun c => length c = 8%nat) cs -> Forall (Forall is_u8) cs ->
  exists es, mapM encode_block cs = Some es /\ mapM decode_block es = Some cs /\
    Forall (fun e => length e = 11%nat) es /\ Forall is_u8 (concat es) /\ length es = length cs.
Proof.
  intros Hl Hb. induction Hl as [|c cs Hc _ IH].
  - by exists [].
  - inversion_clear Hb as [|? ? Hbc Hb']. destruct (IH Hb') as (es & He & Hd & Hle & Hbe & Hn).
    destruct (decode_encode_block c Hbc ltac:(lia)) as (e & Hec & Hdc & Hbe' & Hlen).
    rewrite Hc in Hlen. change (encoded_block_sizes !!! 8%nat) with 11%nat in Hlen.
    exists (e :: es). cbn [mapM concat length]. rewrite Hec, Hdc. cbn [mbind option_bind].
    rewrite He, Hd. split_and!; [done|done|by constructor|by apply Forall_app|by rewrite Hn].
Qed.

Lemma decode_blocks_total es cs :
  Forall (fun e => length e = 11%nat) es -> Forall (Forall is_u8) es ->
  mapM decode_block es = Some cs ->
  mapM encode_block cs = Some es /\ Forall (fun c => length c = 8%nat) cs /\ Forall is_u8 (concat cs).
Proof.
  intros Hl Hb H. apply mapM_Some in H.
  induction H as [|e c es cs Hdc _ IH]; [done|].
  inversion_clear Hl as [|? ? Hle Hl']. inversion_clear Hb as [|? ? Hbe Hb'].
  destruct (IH Hl' Hb') as (He & Hlc & Hbc).
  destruct (encode_decode_block e c Hbe ltac:(lia) Hdc) as (Hec & _ & Hbc' & Hlen).
  rewrite Hle in Hlen. change (decoded_block_sizes !!! 11%nat) with 8 in Hlen.
  cbn [mapM concat]. rewrite Hec. cbn [mbind option_bind]. rewrite He.
  split_and!; [done|constructor; [lia|done]|by apply Forall_app].
Qed.

Lemma Forall_concat_bytes cs tl :
  Forall is_u8 (concat cs ++ tl) -> Forall (Forall is_u8) cs /\ Forall is_u8 tl.
Proof.
  rewrite Forall_app. intros [Hc Ht]. split; [|done].
  induction cs as [|c cs IH]; [done|]. cbn in Hc. apply Forall_app in Hc as [? ?]. constructor; auto.
Qed.

Lemma tail_roundtrip tl :
  Forall is_u8 tl -> (length tl < 8)%nat ->
  exists et, (if decide (0 < length tl)%nat then encode_block tl else Some []) = Some et /\
    (if decide (0 < length et)%nat then decode_block et else Some []) = Some tl /\
    Forall is_u8 et /\ (length et < 11)%nat /\ decoded_block_sizes !!! length et = Z.of_nat (length tl) /\
    (et = [] <-> tl = []).
Proof.
  intros Hb Hl. destruct (decide (0 < length tl)%nat) as [Hp|Hz].
  - destruct (decode_encode_block tl Hb ltac:(lia)) as (et & He & Hd & Hbe & Hlen).
    destruct (block_sizes (length tl) ltac:(lia)) as (Hds & _ & Hr).
    assert (Hlt : (encoded_block_sizes !!! length tl < 11)%nat).
    { clear -Hl. revert Hl. generalize (length tl). intros n Hn.
      do 8 (destruct n as [|n]; [vm_compute; lia|]). lia. }
    exists et. rewrite Hlen. split_and!; [done| |done|done|done|].
    + by rewrite decide_True by lia.
    + split; [intros ->; cbn in Hlen; lia|intros ->; cbn in Hp; lia].
  - destruct tl; [|cbn in Hz; lia]. exists []. split_and!; [done|done|constructor|cbn; lia|done|done].
Qed.

Lemma decode_encode data :
  Forall is_u8 data -> exists enc, encode data = Some enc /\ decode enc = Some data /\ Forall is_u8 enc.
Proof.
  intros Hb. destruct (decide (data = [])) as [->|Hne]; [by exists []|].
  destruct (blocks_of_exists 8 data ltac:(lia)) as (cs & tl & Hbl).
  pose proof Hbl as (Hd & Hc & Ht). rewrite Hd in Hb. apply Forall_concat_bytes in Hb as [Hbc Hbt].
  destruct (encode_blocks_total cs Hc Hbc) as (es & He & Hde & Hle & Hbe & Hn).
  destruct (tail_roundtrip tl Hbt Ht) as (et & Het & Hdt & Hbet & Hlet & Hsz & Hnil).
  rewrite (encode_blocks data cs tl) by done. rewrite He, Het. cbn [mbind option_bind].
  exists (concat es ++ et). split; [done|]. split; [|by apply Forall_app].
  assert (Hne' : concat es ++ et <> []).
  { intros [E1 E2]%app_nil. apply Hnil in E2. subst tl. rewrite app_nil_r in Hd.
    destruct cs as [|c cs]; [done|]. destruct es as [|e es]; [done|].
    inversion_clear Hle as [|? ? Hlen _]. destruct e; [done|]. done. }
  rewrite (decode_blocks _ es et) by (done || by split_and!).
  replace (decoded_block_sizes !!! length et <? 0) with false by lia.
  rewrite Hde, Hdt. cbn [mbind option_bind]. by rewrite Hd.
Qed.

Lemma tail_roundtrip_inv et tl :
  Forall is_u8 et -> (length et < 11)%nat ->
  (if decide (0 < length et)%nat then decode_block et else Some []) = Some tl ->
  (if decide (0 < length tl)%nat then encode_block tl else Some []) = Some et /\
  Forall is_u8 tl /\ (length tl < 8)%nat /\ (tl = [] <-> et = []).
Proof.
  intros Hb Hl. destruct (decide (0 < length et)%nat) as [Hp|Hz].
  - intros Hdec. destruct (encode_decode_block et tl Hb ltac:(lia) Hdec) as (He & Hr & Hbt & Hlen).
    rewrite decide_True by lia. split_and!; [done|done| |].
    + assert (H8 : decoded_block_sizes !!! length et < 8); [|lia].
      clear -Hl. revert Hl. generalize (length et). intros n Hn.
      do 11 (destruct n as [|n]; [vm_compute; (congruence || lia)|]). lia.
    + split; intros ->; cbn in *; lia.
  - destruct et; [|cbn in Hz; lia]. intros [= <-]. split_and!; [done|constructor|cbn; lia|done].
Qed.

(** Base58 is a bijection between byte strings and the strings [decode]
    accepts: encoding never writes outside its buffer and is undone by
    decoding, and any string that decodes is the encoding of its decoding. *)
Theorem base58_bijection :
  (forall data, Forall is_u8 data ->
     exists enc, encode data = Some enc /\ decode enc = Some data) /\
  (forall enc data, Forall is_u8 enc -> decode enc = Some data -> encode data = Some enc).
Proof.
  split; [intros data Hb; destruct (decode_encode data Hb) as (enc & ? & ? & _); eauto|].
  intros enc data Hb Hdec. destruct (decide (enc = [])) as [->|Hne].
  - unfold decode in Hdec. rewrite decide_True in Hdec by done. by injection Hdec as <-.
  - destruct (blocks_of_exists 11 enc ltac:(lia)) as (es & et & Hbl).
    pose proof Hbl as (Hd & Hc & Ht). rewrite Hd in Hb. apply Forall_concat_bytes in Hb as [Hbe Hbt].
    rewrite (decode_blocks enc es et) in Hdec by done.
    destruct (_ <? 0); [done|].
    destruct (mapM decode_block es) as [cs|] eqn:Ecs; [|done]. cbn [mbind option_bind] in Hdec.
    destruct (if decide _ then _ else _) as [tl|] eqn:Etl; [|done]. cbn [mbind option_bind] in Hdec.
    injection Hdec as <-.
    destruct (decode_blocks_total es cs Hc Hbe Ecs) as (Hee & Hlc & Hbc).
    destruct (tail_roundtrip_inv et tl Hbt Ht Etl) as (Het & _ & Hlt & Hnil).
    rewrite (encode_blocks _ cs tl); [by rewrite Hee, Het, Hd| |by split_and!].
    intros [E1 E2]%app_nil. apply Hnil in E2. subst et. rewrite app_nil_r in Hd.
    destruct es as [|e es]; [done|]. apply mapM_Some, Forall2_length in Ecs.
    destruct cs as [|c cs]; [done|]. inversion_clear Hlc as [|? ? Hlen _]. destruct c; [done|]. done.
Qed.

Section AddressTheorems.
Context (cn_fast_hash : list Z -> list Z).
Hypothesis cn_fast_hash_bytes :
  forall m, length (cn_fast_hash m) = 32%nat /\ Forall is_u8 (cn_fast_hash m).

Lemma addr_roundtrip tag data :
  is_u64 tag -> Forall is_u8 data ->
  exists addr, encode_addr cn_fast_hash tag data = Some addr /\
               decode_addr cn_fast_hash addr = Some (tag, data).
Proof.
  intros Ht Hb. unfold encode_addr.
  destruct (varint_rt tag Ht data) as (v & Hv & Hlv & Hr). rewrite Hv. cbn [mbind option_bind].
  destruct (cn_fast_hash_bytes (v ++ data)) as [Hl Hh].
  pose proof (write_varint_bytes 64 tag v ltac:(width) Hv) as Hbv.
  set (buf := v ++ data) in *. set (sum := take addr_checksum_size (cn_fast_hash buf)).
  assert (Hls : length sum = 4%nat) by (unfold sum; rewrite length_take, Hl; done).
  assert (Hbuf : Forall is_u8 buf) by (by apply Forall_app).
  destruct (decode_encode (buf ++ sum)) as (addr & -> & Hd & _).
  { apply Forall_app. split; [done|]. by apply Forall_take. }
  exists addr. split; [done|]. unfold decode_addr. rewrite Hd. cbn [mbind option_bind].
  assert (Hlb : (1 <= length buf)%nat) by (unfold buf; rewrite length_app; lia).
  assert (E : (length (buf ++ sum) - addr_checksum_size)%nat = length buf)
    by (rewrite length_app, Hls; unfold addr_checksum_size; lia).
  rewrite decide_False by (rewrite length_app, Hls; unfold addr_checksum_size; lia). rewrite E.
  rewrite drop_app_length, take_app_length. fold sum. rewrite decide_False by (intros H; by apply H).
  rewrite Hr. replace (Z.of_nat (length v) <=? 0) with false by (symmetry; apply Z.leb_gt; clear -Hlv; lia).
  rewrite Nat2Z.id. unfold buf. by rewrite drop_app_length.
Qed.

(** An address built from a 64-bit tag and any payload decodes to exactly
    that tag and payload. *)
Theorem decode_encode_addr tag data :
  is_u64 tag -> Forall is_u8 data ->
  exists addr, encode_addr cn_fast_hash tag data = Some addr /\
               decode_addr cn_fast_hash addr = Some (tag, data).
Proof. apply addr_roundtrip. Qed.

End AddressTheorems.

Lemma decode_encode_addr_witness :
  let hash := fun m : list Z => replicate 32 (u8 (load_le m)) in
  exists addr, encode_addr hash 114 [1; 2; 3; 250] = Some addr /\
               decode_addr hash addr = Some (114, [1; 2; 3; 250]).
Proof.
  intros hash. apply (decode_encode_addr hash).
  - intros m. split; [done|]. apply Forall_replicate, u8_range.
  - width.
  - repeat constructor; width.
Defined.
