(* ===== verification/Hardfork.v ===== *)
(** * Network types, hard forks and their schedule

    [cryptonote_config.h] (the [hf] and [network_type] enums and the feature
    switches) and [cryptonote_basic/hardfork.cpp] (the hard fork tables of the
    networks and the queries over them).  [hf] is an enum over [uint8_t] and code
    casts block version bytes to it, so it is a [Z] with named values. *)
From S2P Require Import Prelude.

(** ** [enum class hf : uint8_t] *)
Definition hf := Z.
Definition hf_none : hf := 0.
Definition hf7 : hf := 7.
Definition hf8 : hf := 8.
Definition hf9_service_nodes : hf := 9.
Definition hf10_bulletproofs : hf := 10.
Definition hf11_infinite_staking : hf := 11.
Definition hf12_checkpointing : hf := 12.
Definition hf13_enforce_checkpoints : hf := 13.
Definition hf14_blink : hf := 14.
Definition hf15_ons : hf := 15.
Definition hf16_pulse : hf := 16.
Definition hf17 : hf := 17.
Definition hf18 : hf := 18.
Definition hf19_reward_batching : hf := 19.
Definition hf20_governance_payouts_fix : hf := 20.
Definition hf21_weekly_batching : hf := 21.
Definition hf22_sn_policy : hf := 22.
Definition hf20_eth_transition : hf := 23.
Definition hf21_eth : hf := 24.
Definition hf22_eth_fixup : hf := 25.
Definition hf_next : hf := 26.
Definition hf_max : hf := u8 (hf_next - 1).

Definition hf_prev (x : hf) : hf :=
  if (x <=? hf7) || (hf_max <? x) then hf_none else u8 (x - 1).

(** ** [namespace feature] *)
Definition feature_PER_BYTE_FEE := hf10_bulletproofs.
Definition feature_LONG_TERM_BLOCK_WEIGHT := hf11_infinite_staking.
Definition feature_ED25519_KEY := hf13_enforce_checkpoints.
Definition feature_BLINK := hf14_blink.
Definition feature_PULSE := hf16_pulse.
Definition feature_PROOF_BTENC := hf18.
Definition feature_ETH_TRANSITION := hf20_eth_transition.
Definition feature_ETH_BLS := hf21_eth.
Definition feature_SN_PK_IS_ED25519 := hf21_eth.

Definition pulse_recovery (version : hf) (snode_revision : Z) : bool :=
  (hf22_sn_policy <? version) || ((version =? hf22_sn_policy) && (1 <=? snode_revision)).

Inductive network_type :=
  MAINNET | TESTNET | DEVNET | STAGENET | LOCALDEV | FAKECHAIN | UNDEFINED.

#[global] Instance network_type_eq_dec : EqDecision network_type.
Proof. solve_decision. Defined.

(** ** The tables *)
Record hard_fork := HardFork {
  fork_version : hf;
  fork_snode_revision : Z;
  fork_height : Z;
  fork_time : Z;
}.

Definition mainnet_hard_forks : list hard_fork := [
  HardFork hf7 0 0 1653632397;
  HardFork hf11_infinite_staking 0 2 1653632397;
  HardFork hf12_checkpointing 0 3 1653632397;
  HardFork hf13_enforce_checkpoints 0 4 1653632397;
  HardFork hf14_blink 0 5 1653632397;
  HardFork hf15_ons 0 6 1653632397;
  HardFork hf16_pulse 0 750 1653632397;
  HardFork hf17 0 751 1653632397;
  HardFork hf18 0 752 1653632397;
  HardFork hf19_reward_batching 0 753 1653632397;
  HardFork hf19_reward_batching 1 754 1653632397;
  HardFork hf19_reward_batching 2 755 1661205699;
  HardFork hf19_reward_batching 3 756 1673385120;
  HardFork hf20_governance_payouts_fix 0 37000 1781064000;
  HardFork hf21_weekly_batching 0 99000 1784045460;
  HardFork hf22_sn_policy 0 219120 1791226800;
  HardFork hf22_sn_policy 1 236920 1792350000
].

Definition testnet_hard_forks : list hard_fork := [
  HardFork hf7 0 0 1653632397;
  HardFork hf11_infinite_staking 0 2 1653632397;
  HardFork hf12_checkpointing 0 3 1653632397;
  HardFork hf13_enforce_checkpoints 0 4 1653632397;
  HardFork hf14_blink 0 5 1653632397;
  HardFork hf15_ons 0 6 1653632397;
  HardFork hf16_pulse 0 750 1653632397;
  HardFork hf17 0 751 1653632397;
  HardFork hf18 0 752 1653632397;
  HardFork hf19_reward_batching 0 753 1653632397;
  HardFork hf19_reward_batching 1 754 1653632397;
  HardFork hf19_reward_batching 2 755 1661205699;
  HardFork hf19_reward_batching 3 756 1673385120;
  HardFork hf20_governance_payouts_fix 0 760 1781064000;
  HardFork hf21_weekly_batching 0 1000 1781064001;
  HardFork hf22_sn_policy 0 1500 1781064002;
  HardFork hf22_sn_policy 1 1600 1781064003
].

Definition devnet_hard_forks : list hard_fork := [
  HardFork hf7 0 0 1716310007;
  HardFork hf14_blink 0 1 1716310014;
  HardFork hf21_eth 0 2 1716310021
].

Definition local_devnet_hard_forks : list hard_fork := [
  HardFork hf7 0 0 1716310007;
  HardFork hf14_blink 0 1 1716310014;
  HardFork hf16_pulse 0 40 1716310016;
  HardFork hf17 0 45 1716310017;
  HardFork hf18 0 46 1716310018;
  HardFork hf19_reward_batching 0 47 1716310019;
  HardFork hf20_governance_payouts_fix 0 50 1716310020;
  HardFork hf20_eth_transition 0 170 1716310020;
  HardFork hf21_eth 0 171 1716310020
].

Definition stagenet_hard_forks : list hard_fork := [
  HardFork hf7 0 0 1724084000;
  HardFork hf14_blink 0 1 1724084014;
  HardFork hf21_eth 0 250 1736985600
].

(** [std::pair]'s lexicographic [<=]. *)
Definition pair_leb (a b : hf * Z) : bool :=
  (a.1 <? b.1) || ((a.1 =? b.1) && (a.2 <=? b.2)).

(** The loop of [is_ordered], from entry [prev] on. *)
Fixpoint is_ordered_from (prev : hard_fork) (forks : list hard_fork) : bool :=
  match forks with
  | [] => true
  | hf :: rest =>
      if pair_leb (fork_version hf, fork_snode_revision hf) (fork_version prev, fork_snode_revision prev)
         || (fork_height hf <=? fork_height prev) || (fork_time hf <? fork_time prev)
      then false
      else is_ordered_from hf rest
  end.

Definition is_ordered (forks : list hard_fork) : bool :=
  match forks with
  | [] => false
  | first :: rest => if fork_version first <? hf7 then false else is_ordered_from first rest
  end.

(** The loop of [get_hard_fork_heights]. *)
Fixpoint hard_fork_heights_loop (v : hf) (forks : list hard_fork)
    (found : option Z * option Z) : option Z * option Z :=
  match forks with
  | [] => found
  | hf :: rest =>
      if v <? fork_version hf then
        match found.1 with
        | Some _ => (found.1, Some (u64 (fork_height hf - 1)))
        | None => found
        end
      else if (fork_version hf =? v) && match found.1 with None => true | Some _ => false end then
        hard_fork_heights_loop v rest (Some (fork_height hf), found.2)
      else hard_fork_heights_loop v rest found
  end.

Fixpoint hard_fork_ceil_loop (v : hf) (forks : list hard_fork) : hf :=
  match forks with
  | [] => v
  | hf :: rest => if v <=? fork_version hf then fork_version hf else hard_fork_ceil_loop v rest
  end.

Fixpoint version_revision_loop (h : Z) (forks : list hard_fork) (result : hf * Z) : hf * Z :=
  match forks with
  | [] => result
  | f :: rest =>
      if fork_height f <=? h then version_revision_loop h rest (fork_version f, fork_snode_revision f)
      else result
  end.

Fixpoint ideal_version_loop (ht : Z) (forks : list hard_fork) (result : hf * Z) : hf * Z :=
  match forks with
  | [] => result
  | h :: rest =>
      let result := if fork_height h <=? ht then (fork_version h, fork_snode_revision h) else result in
      let result := if result.1 <? hf19_reward_batching then (result.1, u8 (fork_version h))
                    else result in
      ideal_version_loop ht rest result
  end.

(** ** The queries

    [fakechain_hardforks] is the global vector the test suites fill. *)
Section Queries.
Context (fakechain_hardforks : list hard_fork).

Definition get_hard_forks (type : network_type) : list hard_fork :=
  match type with
  | MAINNET => mainnet_hard_forks
  | STAGENET => stagenet_hard_forks
  | TESTNET => testnet_hard_forks
  | DEVNET => devnet_hard_forks
  | LOCALDEV => local_devnet_hard_forks
  | FAKECHAIN => fakechain_hardforks
  | UNDEFINED => []
  end.

Definition get_hard_fork_heights (nettype : network_type) (v : hf) : option Z * option Z :=
  hard_fork_heights_loop v (get_hard_forks nettype) (None, None).

(** [back()] of an empty span is undefined: [None]. *)
Definition get_latest_hard_fork (nettype : network_type) : option hard_fork :=
  last (get_hard_forks nettype).

Definition hard_fork_ceil (nettype : network_type) (v : hf) : hf :=
  hard_fork_ceil_loop v (get_hard_forks nettype).

Definition get_network_version_revision (nettype : network_type) (h : Z) : hf * Z :=
  version_revision_loop h (get_hard_forks nettype) (0, 0).

Definition get_network_version (nettype : network_type) (h : Z) : hf :=
  (get_network_version_revision nettype h).1.

Definition is_hard_fork_at_least (type : network_type) (v : hf) (h : Z) : bool :=
  v <=? get_network_version type h.

Definition hard_fork_begins (type : network_type) (v : hf) : option Z :=
  (get_hard_fork_heights type (hard_fork_ceil type v)).1.

Definition get_ideal_block_version (nettype : network_type) (h : Z) : hf * Z :=
  ideal_version_loop h (get_hard_forks nettype) (0, 0).

End Queries.

(** The networks whose table is compiled in. *)
Definition has_table (nt : network_type) : bool :=
  match nt with FAKECHAIN | UNDEFINED => false | _ => true end.

(** ** Lemmas on ordered tables *)

(** What [is_ordered] gives of the entries after [prev]. *)
Definition later (prev f : hard_fork) : Prop :=
  fork_version prev <= fork_version f /\ fork_height prev < fork_height f /\
  pair_leb (fork_version f, fork_snode_revision f)
    (fork_version prev, fork_snode_revision prev) = false.

Lemma later_trans a b c : later a b -> later b c -> later a c.
Proof.
  unfold later, pair_leb. cbn. intros (H1 & H2 & H3) (H4 & H5 & H6). bool_hyps; try lia.
  all: split; [lia|split; [lia|]]; apply orb_false_iff; split; [lia|apply andb_false_iff; lia].
Qed.

Lemma is_ordered_from_later prev forks :
  is_ordered_from prev forks = true -> Forall (later prev) forks /\ Sorted later forks.
Proof.
  revert prev. induction forks as [|f rest IH]; intros prev; [by repeat constructor|].
  cbn. destruct (pair_leb _ _) eqn:E; [done|]. cbn.
  destruct (_ || _) eqn:E2; [done|]. intros H. bool_hyps.
  assert (later prev f) as Hl.
  { unfold later. split; [|split; [lia|done]]. unfold pair_leb in E. cbn in E. bool_hyps; lia. }
  destruct (IH _ H) as [HF HS]. split.
  - constructor; [done|]. eapply Forall_impl; [exact HF|]. eauto using later_trans.
  - constructor; [done|]. destruct HF; by constructor.
Qed.

Lemma is_ordered_from_tail prev f rest :
  is_ordered_from prev (f :: rest) = true ->
  later prev f /\ is_ordered_from f rest = true.
Proof.
  intros H. split; [by apply is_ordered_from_later in H as [H%Forall_inv _]|].
  cbn in H. by destruct (_ || _ || _) in H.
Qed.

Lemma ordered_after prev rest f :
  is_ordered_from prev rest = true -> In f rest -> later prev f.
Proof.
  intros [H _]%is_ordered_from_later Hin. rewrite List.Forall_forall in H. by apply H.
Qed.

(** The schedules compiled into the program are ordered and start at height 0. *)
Lemma compiled_tables_ordered fk nt :
  has_table nt = true ->
  is_ordered (get_hard_forks fk nt) = true /\
  exists first rest, get_hard_forks fk nt = first :: rest /\ fork_height first = 0.
Proof. by destruct nt; cbn; intros H; try done; split; eauto. Qed.

(** The loops run on an ordered suffix whose predecessor is in force. *)
Lemma version_loop_ge prev rest h :
  is_ordered_from prev rest = true ->
  fork_version prev <= (version_revision_loop h rest (fork_version prev, fork_snode_revision prev)).1.
Proof.
  revert prev. induction rest as [|f rest IH]; intros prev H; cbn; [lia|].
  apply is_ordered_from_tail in H as [(Hv & _) H].
  case_match; [|cbn; lia]. specialize (IH f H). lia.
Qed.

Lemma heights_loop_end_ge v x prev rest y :
  is_ordered_from prev rest = true -> 0 <= fork_height prev ->
  Forall (fun f => is_u64 (fork_height f)) rest ->
  hard_fork_heights_loop v rest (Some x, None) = (Some x, Some y) -> fork_height prev <= y.
Proof.
  revert prev. induction rest as [|g rest IH]; intros prev Ho H0 Hr; [done|]. cbn.
  apply is_ordered_from_tail in Ho as [(_ & Hh & _) Ho]. inversion_clear Hr as [|? ? Hg Hr'].
  case_match.
  - intros [= <-]. rewrite u64_small by width. lia.
  - rewrite andb_false_r. intros Heq. specialize (IH g Ho ltac:(lia) Hr' Heq). lia.
Qed.

Lemma heights_loop_found v x prev rest b h :
  is_ordered_from prev rest = true -> fork_version prev = v ->
  0 <= fork_height prev -> Forall (fun f => is_u64 (fork_height f)) rest ->
  hard_fork_heights_loop v rest (Some x, None) = (Some x, b) ->
  (version_revision_loop h rest (fork_version prev, fork_snode_revision prev)).1 = v <->
  forall y, b = Some y -> h <= y.
Proof.
  revert prev. induction rest as [|f rest IH]; intros prev Ho Hv H0 Hr; cbn.
  { intros [= <-]. split; [done|]. intros _. done. }
  apply is_ordered_from_tail in Ho as [(Hle & Hh & _) Ho]. inversion_clear Hr as [|? ? Hf Hr'].
  destruct (Z.ltb_spec v (fork_version f)) as [Hlt|Hge]; cbv iota.
  - intros [= <-]. rewrite u64_small by width.
    destruct (Z.leb_spec (fork_height f) h); cbv iota.
    + pose proof (version_loop_ge f rest h Ho). split; [lia|]. intros Hy.
      specialize (Hy _ eq_refl). lia.
    + split; [|done]. intros _ y [= <-]. lia.
  - rewrite andb_false_r. intros Heq.
    destruct (Z.leb_spec (fork_height f) h); cbv iota.
    + apply (IH f); [done|lia|lia|done|done].
    + split; [|done]. intros _ y ->.
      pose proof (heights_loop_end_ge v x f rest y Ho ltac:(width) Hr' Heq). lia.
Qed.

Lemma heights_loop_keeps v x rest : (hard_fork_heights_loop v rest (Some x, None)).1 = Some x.
Proof.
  induction rest as [|f rest IH]; [done|]. cbn. case_match; [done|]. by rewrite andb_false_r.
Qed.

Lemma heights_loop_after v prev rest x b :
  is_ordered_from prev rest = true ->
  hard_fork_heights_loop v rest (None, None) = (Some x, b) -> fork_height prev < x.
Proof.
  revert prev. induction rest as [|g rest IH]; intros prev Ho; [done|]. cbn.
  apply is_ordered_from_tail in Ho as [(_ & Hh & _) Ho].
  case_match; [done|]. rewrite andb_true_r. case_match; intros Heq.
  - pose proof (heights_loop_keeps v (fork_height g) rest) as Hk.
    rewrite Heq in Hk. injection Hk as ->. done.
  - specialize (IH g Ho Heq). lia.
Qed.

Lemma heights_loop_none v prev rest a b h :
  is_ordered_from prev rest = true -> fork_version prev < v ->
  0 <= fork_height prev -> Forall (fun f => is_u64 (fork_height f)) rest ->
  hard_fork_heights_loop v rest (None, None) = (a, b) ->
  (version_revision_loop h rest (fork_version prev, fork_snode_revision prev)).1 = v <->
  exists x, a = Some x /\ x <= h /\ forall y, b = Some y -> h <= y.
Proof.
  revert prev. induction rest as [|f rest IH]; intros prev Ho Hv H0 Hr; cbn.
  { intros [= <- <-]. split; [lia|naive_solver]. }
  apply is_ordered_from_tail in Ho as [(Hle & Hh & _) Ho]. inversion_clear Hr as [|? ? Hf Hr'].
  destruct (Z.ltb_spec v (fork_version f)) as [Hlt|Hge]; cbv iota.
  { intros [= <- <-]. split; [|naive_solver]. case_match; cbn; [|lia].
    pose proof (version_loop_ge f rest h Ho). lia. }
  rewrite andb_true_r. destruct (Z.eqb_spec (fork_version f) v) as [Hv'|Hne]; cbv iota; intros Heq.
  - assert (a = Some (fork_height f)) as ->.
    { pose proof (heights_loop_keeps v (fork_height f) rest) as Hk. by rewrite Heq in Hk. }
    destruct (Z.leb_spec (fork_height f) h); cbv iota.
    + rewrite (heights_loop_found v (fork_height f) f rest b h Ho Hv' ltac:(lia) Hr' Heq).
      naive_solver.
    + cbn. split; [lia|]. intros (x & [= <-] & ? & _). lia.
  - destruct (Z.leb_spec (fork_height f) h); cbv iota; [apply (IH f); try done; lia|].
    cbn. split; [lia|]. intros (x & -> & Hx & _).
    apply heights_loop_after with (prev := f) in Heq; [lia|done].
Qed.

(** The first entry at or above a version. *)
Fixpoint first_at_least (v : hf) (forks : list hard_fork) : option hard_fork :=
  match forks with
  | [] => None
  | f :: rest => if v <=? fork_version f then Some f else first_at_least v rest
  end.

Lemma heights_of_ceil v forks :
  (hard_fork_heights_loop (hard_fork_ceil_loop v forks) forks (None, None)).1 =
  fork_height <$> first_at_least v forks.
Proof.
  assert (forall c, v <= c -> c = hard_fork_ceil_loop v forks ->
    (hard_fork_heights_loop c forks (None, None)).1 = fork_height <$> first_at_least v forks)
    as H.
  { intros c Hc. induction forks as [|f rest IH]; [done|]. cbn.
    destruct (Z.leb_spec v (fork_version f)) as [Hle|Hgt]; cbv iota.
    - intros ->. rewrite Z.ltb_irrefl, Z.eqb_refl. cbv iota. cbn [andb].
      apply heights_loop_keeps.
    - intros E. destruct (Z.ltb_spec c (fork_version f)); [lia|]. cbv iota.
      destruct (Z.eqb_spec (fork_version f) c); [lia|]. cbn [andb]. by apply IH. }
  apply H; [|done].
  clear. induction forks as [|f rest IH]; cbn; [lia|]. case_match; lia.
Qed.

Lemma version_loop_at_least v prev rest h :
  is_ordered_from prev rest = true -> fork_version prev < v ->
  v <= (version_revision_loop h rest (fork_version prev, fork_snode_revision prev)).1 <->
  exists f, first_at_least v rest = Some f /\ fork_height f <= h.
Proof.
  revert prev. induction rest as [|f rest IH]; intros prev Ho Hv; cbn.
  { split; [lia|naive_solver]. }
  apply is_ordered_from_tail in Ho as [(Hle & Hh & _) Ho].
  destruct (Z.leb_spec (fork_height f) h) as [Hfh|Hfh]; cbv iota;
    destruct (Z.leb_spec v (fork_version f)) as [Hvf|Hvf]; cbv iota.
  - pose proof (version_loop_ge f rest h Ho). split; [eauto|lia].
  - by apply IH.
  - cbn. split; [lia|]. intros (g & [= <-] & ?). lia.
  - cbn. split; [lia|]. intros (g & Hg & ?). exfalso.
    assert (In g rest) as Hin.
    { clear - Hg. induction rest as [|k rest IH]; [done|]. cbn in Hg.
      case_match; [|by right; auto]. left. by injection Hg. }
    destruct (ordered_after f rest g Ho Hin) as (_ & ? & _). lia.
Qed.

Lemma pair_leb_refl a : pair_leb a a = true.
Proof. unfold pair_leb. apply orb_true_iff. right. apply andb_true_iff. lia. Qed.

Lemma later_pair_leb a b :
  later a b ->
  pair_leb (fork_version a, fork_snode_revision a) (fork_version b, fork_snode_revision b) = true.
Proof.
  unfold later, pair_leb. cbn. intros (Hv & _ & Hp). apply orb_true_iff.
  destruct (Z.eq_dec (fork_version a) (fork_version b)); [right|left; lia].
  apply andb_true_iff. bool_hyps; lia.
Qed.

Lemma version_loop_later prev f rest h :
  later prev f -> is_ordered_from f rest = true ->
  pair_leb (fork_version prev, fork_snode_revision prev)
    (version_revision_loop h rest (fork_version f, fork_snode_revision f)) = true.
Proof.
  revert f. induction rest as [|g rest IH]; intros f Hl Ho; cbn; [by apply later_pair_leb|].
  apply is_ordered_from_tail in Ho as [Hg Ho].
  case_match; [|by apply later_pair_leb]. apply IH; [|done]. by eapply later_trans.
Qed.

Lemma version_loop_mono prev rest h h' :
  h <= h' -> is_ordered_from prev rest = true ->
  pair_leb (version_revision_loop h rest (fork_version prev, fork_snode_revision prev))
    (version_revision_loop h' rest (fork_version prev, fork_snode_revision prev)) = true.
Proof.
  intros Hh. revert prev. induction rest as [|f rest IH]; intros prev Ho; cbn;
    [apply pair_leb_refl|].
  apply is_ordered_from_tail in Ho as [Hl Ho].
  destruct (Z.leb_spec (fork_height f) h), (Z.leb_spec (fork_height f) h'); cbv iota;
    [by apply IH|lia|by apply version_loop_later|apply pair_leb_refl].
Qed.

(** A table as [is_ordered] accepts it, with heights in range. *)
Definition schedule_ok (forks : list hard_fork) : Prop :=
  is_ordered forks = true /\ Forall (fun f => is_u64 (fork_height f)) forks.

Lemma compiled_schedule_ok fk nt : has_table nt = true -> schedule_ok (get_hard_forks fk nt).
Proof.
  intros H. split; [by apply compiled_tables_ordered|].
  destruct nt; cbn; try done; repeat constructor; cbn; width.
Qed.

Lemma schedule_ok_inv forks :
  schedule_ok forks -> exists first rest, forks = first :: rest /\ hf7 <= fork_version first /\
    is_ordered_from first rest = true /\ is_u64 (fork_height first) /\
    Forall (fun f => is_u64 (fork_height f)) rest.
Proof.
  intros [Ho Hr]. destruct forks as [|first rest]; [done|]. cbn in Ho.
  destruct (Z.ltb_spec (fork_version first) hf7); [done|]. inversion_clear Hr. eauto 10.
Qed.

(** The hard fork in force never goes back: as the height grows, the pair of
    network version and service node revision grows lexicographically, on every
    network whose table [is_ordered] accepts (all those compiled in). *)
Theorem network_version_monotone fk nt h h' :
  schedule_ok (get_hard_forks fk nt) -> h <= h' ->
  pair_leb (get_network_version_revision fk nt h) (get_network_version_revision fk nt h') = true.
Proof.
  intros (first & rest & E & Hv & Ho & _ & _)%schedule_ok_inv Hh.
  unfold get_network_version_revision. rewrite E. cbn.
  destruct (Z.leb_spec (fork_height first) h), (Z.leb_spec (fork_height first) h'); cbv iota;
    [by apply version_loop_mono|lia| |apply pair_leb_refl].
  pose proof (version_loop_ge first rest h' Ho). unfold hf7 in *. unfold pair_leb. cbn.
  apply orb_true_iff. left. lia.
Qed.

Lemma network_version_monotone_witness :
  pair_leb (get_network_version_revision [] MAINNET 98999)
    (get_network_version_revision [] MAINNET 236920) = true.
Proof.
  apply network_version_monotone; [by apply compiled_schedule_ok|lia].
Defined.

(** [get_hard_fork_heights] returns exactly the heights at which a version is in
    force: the network version at [h] is [v] iff the first bound exists and is at
    most [h], and the second one, when there is one, is at least [h]. *)
Theorem hard_fork_heights_exact fk nt v h :
  schedule_ok (get_hard_forks fk nt) -> v <> hf_none ->
  get_network_version fk nt h = v <->
  exists a, (get_hard_fork_heights fk nt v).1 = Some a /\ a <= h /\
    forall b, (get_hard_fork_heights fk nt v).2 = Some b -> h <= b.
Proof.
  intros (first & rest & E & Hf7 & Ho & Hf & Hr)%schedule_ok_inv Hnone.
  unfold get_network_version, get_network_version_revision, get_hard_fork_heights. rewrite E.
  destruct (hard_fork_heights_loop v (first :: rest) (None, None)) as [a b] eqn:Heq.
  cbn in Heq |- *. unfold hf7, hf_none in *.
  destruct (Z.ltb_spec v (fork_version first)) as [Hlt|Hge]; cbv iota in Heq.
  { injection Heq as <- <-. split; [|naive_solver]. case_match; cbn; [|lia].
    pose proof (version_loop_ge first rest h Ho). lia. }
  rewrite andb_true_r in Heq.
  destruct (Z.eqb_spec (fork_version first) v) as [Hv'|Hne]; cbv iota in Heq.
  - pose proof (heights_loop_keeps v (fork_height first) rest) as Hk. rewrite Heq in Hk.
    cbn in Hk. subst a. destruct (Z.leb_spec (fork_height first) h); cbv iota.
    + rewrite (heights_loop_found v (fork_height first) first rest b h) by (done || width).
      naive_solver.
    + cbn. split; [lia|]. intros (x & [= <-] & ? & _). lia.
  - destruct (Z.leb_spec (fork_height first) h); cbv iota.
    + apply heights_loop_none; try done; width.
    + cbn. split; [lia|]. intros (x & -> & Hx & _).
      apply heights_loop_after with (prev := first) in Heq; [lia|done].
Qed.

Lemma hard_fork_heights_exact_witness :
  get_network_version [] MAINNET 98999 = hf20_governance_payouts_fix <->
  exists a, Some 37000 = Some a /\ a <= 98999 /\ forall b, Some 98999 = Some b -> 98999 <= b.
Proof.
  apply (hard_fork_heights_exact [] MAINNET hf20_governance_payouts_fix 98999);
    [by apply compiled_schedule_ok|done].
Defined.

Lemma hard_fork_begins_iff fk nt v h :
  schedule_ok (get_hard_forks fk nt) -> hf_none < v ->
  is_hard_fork_at_least fk nt v h = true <->
  exists b, hard_fork_begins fk nt v = Some b /\ b <= h.
Proof.
  intros (first & rest & E & Hf7 & Ho & _ & _)%schedule_ok_inv Hv.
  unfold is_hard_fork_at_least, hard_fork_begins, get_network_version,
    get_network_version_revision, get_hard_fork_heights, hard_fork_ceil.
  rewrite E, heights_of_ceil, Z.leb_le. unfold hf_none in Hv. cbn.
  assert (forall o : option hard_fork, (exists b, fork_height <$> o = Some b /\ b <= h) <->
    exists f, o = Some f /\ fork_height f <= h) as -> by (intros [f|]; naive_solver).
  destruct (Z.leb_spec v (fork_version first)) as [Hvf|Hvf]; cbv iota.
  - case_match; cbn; bool_hyps.
    + pose proof (version_loop_ge first rest h Ho). split; [eauto|lia].
    + split; [lia|]. intros (f & [= <-] & ?). lia.
  - case_match; bool_hyps; [by apply version_loop_at_least|]. cbn.
    split; [lia|]. intros (f & Hf & ?).
    assert (v <= (version_revision_loop (fork_height f) rest
      (fork_version first, fork_snode_revision first)).1) as Hx
      by (apply version_loop_at_least; [done|lia|exists f; split; [done|lia]]).
    destruct rest as [|g rest]; cbn in Hx; [lia|].
    apply is_ordered_from_tail in Ho as [(_ & Hg & _) Ho]. revert Hx. case_match; cbn; [|lia].
    bool_hyps. lia.
Qed.

(** [is_hard_fork_at_least] and [hard_fork_begins] agree, also for versions a
    network skips: a height is at or after a hard fork iff that fork (rounded up
    to the next version in the table) has a start height and it is reached. *)
Theorem hard_fork_begins_exact fk nt v h :
  schedule_ok (get_hard_forks fk nt) -> hf_none < v ->
  is_hard_fork_at_least fk nt v h = true <->
  exists b, hard_fork_begins fk nt v = Some b /\ b <= h.
Proof. apply hard_fork_begins_iff. Qed.

Lemma hard_fork_begins_exact_witness :
  is_hard_fork_at_least [] STAGENET hf16_pulse 250 = true <->
  exists b, Some 250 = Some b /\ b <= 250.
Proof.
  apply (hard_fork_begins_exact [] STAGENET hf16_pulse 250);
    [by apply compiled_schedule_ok|done].
Defined.

(** What [get_ideal_block_version] promises, given the entry in force and the
    last entry of the table. *)
Definition ideal_of (inforce : hf * Z) (latest : hard_fork) : hf * Z :=
  (inforce.1, if inforce.1 <? hf19_reward_batching then u8 (fork_version latest) else inforce.2).

Lemma last_shift {A} (f d : A) rest : List.last (f :: rest) d = List.last rest f.
Proof.
  revert f d. induction rest as [|g rest IH]; intros f d; [done|].
  change (List.last (g :: rest) d = List.last (g :: rest) f). by rewrite !IH.
Qed.

Lemma ideal_loop_future rest h r :
  Forall (fun f => h < fork_height f) rest ->
  forall d, ((r.1 <? hf19_reward_batching) = true -> r.2 = u8 (fork_version d)) ->
  ideal_version_loop h rest r = (r.1, (ideal_of r (List.last rest d)).2).
Proof.
  intros Hr. revert r. induction Hr as [|f rest Hf _ IH]; intros [v x] d Hd; cbn in Hd;
    rewrite ?last_shift; cbn.
  { f_equal. destruct (_ <? _); [by apply Hd|done]. }
  destruct (Z.leb_spec (fork_height f) h); [lia|]. cbv iota. cbn [fst snd].
  destruct (v <? hf19_reward_batching) eqn:E; rewrite (IH _ f) by (cbn; congruence); cbn;
    by rewrite E.
Qed.

Lemma ideal_loop_spec prev rest h x :
  is_ordered_from prev rest = true ->
  x = (ideal_of (fork_version prev, fork_snode_revision prev) prev).2 ->
  ideal_version_loop h rest (fork_version prev, x) =
  ideal_of (version_revision_loop h rest (fork_version prev, fork_snode_revision prev))
    (List.last rest prev).
Proof.
  revert prev x. induction rest as [|f rest IH]; intros prev x Ho ->; [done|].
  pose proof Ho as Ho'. apply is_ordered_from_tail in Ho' as [_ Hof].
  cbn [ideal_version_loop version_revision_loop].
  rewrite last_shift.
  destruct (Z.leb_spec (fork_height f) h) as [Hle|Hgt]; cbv iota; cbn [fst snd].
  - rewrite <- (IH f (ideal_of (fork_version f, fork_snode_revision f) f).2) by done.
    unfold ideal_of. cbn. by case_match.
  - assert (Forall (fun g => h < fork_height g) rest) as Hfut.
    { apply is_ordered_from_later in Hof as [Hof _]. eapply Forall_impl; [exact Hof|].
      intros g (_ & ? & _). lia. }
    unfold ideal_of at 1. cbn [fst snd].
    destruct (fork_version prev <? hf19_reward_batching) eqn:E; cbv iota;
      rewrite ?E; rewrite (ideal_loop_future rest h _ Hfut f) by (cbn; congruence);
      unfold ideal_of; cbn; by rewrite E.
Qed.

(** The block version we want to produce carries the network version of the
    height and, as minor version, the current service node revision from HF19 on
    and the largest version known before that. *)
Theorem ideal_block_version_spec fk nt h first rest latest :
  schedule_ok (get_hard_forks fk nt) -> get_hard_forks fk nt = first :: rest ->
  fork_height first <= h -> get_latest_hard_fork fk nt = Some latest ->
  get_ideal_block_version fk nt h =
  (get_network_version fk nt h,
   if get_network_version fk nt h <? hf19_reward_batching then u8 (fork_version latest)
   else (get_network_version_revision fk nt h).2).
Proof.
  intros (first' & rest' & E' & _ & Ho & _ & _)%schedule_ok_inv E Hh Hlast.
  rewrite E in E'. injection E' as <- <-.
  unfold get_latest_hard_fork in Hlast. unfold get_ideal_block_version, get_network_version,
    get_network_version_revision. rewrite E in Hlast |- *. cbn [ideal_version_loop version_revision_loop].
  destruct (Z.leb_spec (fork_height first) h); [|lia]. cbv iota. cbn [fst snd].
  assert (latest = List.last rest first) as ->.
  { clear - Hlast. revert first Hlast. induction rest as [|f rest IH]; intros first Hlast;
      [by injection Hlast|]. rewrite last_shift. by apply IH. }
  pose proof (ideal_loop_spec first rest h _ Ho eq_refl) as Hs. unfold ideal_of in Hs.
  cbn [fst snd] in Hs. rewrite <- Hs. by case_match.
Qed.

Lemma ideal_block_version_spec_witness :
  get_ideal_block_version [] MAINNET 10 = (hf15_ons, 22) /\
  get_ideal_block_version [] MAINNET 755 = (hf19_reward_batching, 2).
Proof.
  split; [rewrite (ideal_block_version_spec [] MAINNET 10 _ _ _
            (compiled_schedule_ok [] MAINNET eq_refl) eq_refl ltac:(cbn; lia) eq_refl)
         |rewrite (ideal_block_version_spec [] MAINNET 755 _ _ _
            (compiled_schedule_ok [] MAINNET eq_refl) eq_refl ltac:(cbn; lia) eq_refl)];
    reflexivity.
Defined.

(** The mainnet schedule goes from HF22's policy on without ever naming [hf21_eth]. *)
Lemma mainnet_without_hf21 fk : (get_hard_fork_heights fk MAINNET hf21_eth).1 = None.
Proof. reflexivity. Qed.
