(* ===== verification/Config.v ===== *)
(** * The networks' configurations

    [network_config/network_config.h] (the struct and its members),
    [network_config/{mainnet,testnet,devnet,localdev,stagenet,fakechain}.h] (one
    [constexpr] value each) and [networks.h] (selection by network type and the
    conversion of network types to and from strings).

    Durations are in seconds (the L2 block time in milliseconds).  The values are
    designated initialisers: a member a network does not name is value-initialised,
    that is 0, [false] or empty, and so it is below. *)
From S2P Require Import Prelude Hardfork.
From stdpp Require Import strings.
#[local] Open Scope string_scope.
#[local] Open Scope list_scope.
#[local] Open Scope Z_scope.

(** [config::L2_BLOCK_TIME]. *)
Definition L2_BLOCK_TIME_ms : Z := 250.

Record network_config := NetworkConfig {
  NETWORK_TYPE : network_type;
  DEFAULT_CONFIG_SUBDIR : string;
  HEIGHT_ESTIMATE_HEIGHT : Z;
  HEIGHT_ESTIMATE_TIMESTAMP : Z;
  PUBLIC_ADDRESS_BASE58_PREFIX : Z;
  PUBLIC_INTEGRATED_ADDRESS_BASE58_PREFIX : Z;
  PUBLIC_SUBADDRESS_BASE58_PREFIX : Z;
  P2P_DEFAULT_PORT : Z;
  RPC_DEFAULT_PORT : Z;
  QNET_DEFAULT_PORT : Z;
  NETWORK_ID : list Z;
  P2P_SEED_NODES : list string;
  GENESIS_TX : string;
  GENESIS_NONCE : Z;
  GOVERNANCE_REWARD_INTERVAL : Z;
  GOVERNANCE_WALLET_ADDRESS : (string * string);
  UPTIME_PROOF_TOLERANCE : Z;
  UPTIME_PROOF_STARTUP_DELAY : Z;
  UPTIME_PROOF_CHECK_INTERVAL : Z;
  UPTIME_PROOF_FREQUENCY : Z;
  UPTIME_PROOF_VALIDITY : Z;
  MAX_DEACTIVATE_PER_BLOCK : Z;
  HAVE_STORAGE_SERVER : bool;
  HAVE_SESSION_ROUTER : bool;
  HAVE_LOKINET : bool;
  TARGET_BLOCK_TIME : Z;
  PULSE_STAGE_TIMEOUT : Z;
  PULSE_ROUND_TIMEOUT : Z;
  PULSE_MAX_START_ADJUSTMENT : Z;
  PULSE_MINER_FALLBACK_ROUNDS : Z;
  FALLBACK_MINER_PUBKEYS : list string;
  PULSE_MIN_SERVICE_NODES : Z;
  BATCHING_INTERVAL : Z;
  MIN_BATCH_PAYMENT_AMOUNT : Z;
  BATCHING_INTERVAL_V2 : Z;
  MIN_BATCH_PAYMENT_AMOUNT_V2 : Z;
  LIMIT_BATCH_OUTPUTS : Z;
  SERVICE_NODE_PAYABLE_AFTER_BLOCKS : Z;
  DEREGISTRATION_LOCK_DURATION : Z;
  DEREGISTRATION_LOCK_DURATION_V2 : Z;
  UNLOCK_DURATION : Z;
  HARDFORK_DEREGISTRATION_GRACE_PERIOD : Z;
  HISTORY_ARCHIVE_INTERVAL : Z;
  HISTORY_ARCHIVE_KEEP_WINDOW : Z;
  HISTORY_RECENT_KEEP_WINDOW : Z;
  ETH_EXIT_BUFFER : Z;
  ETH_DEREG_BUFFER : Z;
  ETHEREUM_CHAIN_ID : Z;
  ETHEREUM_REWARDS_CONTRACT : string;
  ETHEREUM_POOL_CONTRACT : string;
  L2_REWARD_POOL_UPDATE_BLOCKS : Z;
  L2_TRACKER_SAFE_BLOCKS : Z;
  L2_NODE_LIST_PURGE_BLOCKS : Z;
  L2_NODE_LIST_PURGE_MIN_OXEN_AGE : Z;
  DEFAULT_STAKING_URL : string;
}.

Definition mainnet_seeds : list string := [
  "147.93.0.247:9230";
  "194.238.25.200:9230";
  "62.146.169.98:9230";
  "158.220.116.207:9230";
  "217.216.108.148:9230"
].

Definition mainnet_fallback_miner_pubkeys : list string := [
  "69c287255899a3633906b4c3e358f42748c0894987672a28730e9bb7b31b27c9";
  "bdffb531a652ce95e7ba62c4589d7f7138cbbfe10927cc1f2708c7ea4603aab1";
  "e1a49dc9488e43e4099028e8c7209b062cbdf1f48ff6467ad4dd6ba71c6ab46b"
].

Definition mainnet_TARGET_BLOCK_TIME : Z := 60.

Definition mainnet_config : network_config := {|
  NETWORK_TYPE := MAINNET;
  DEFAULT_CONFIG_SUBDIR := EmptyString;
  HEIGHT_ESTIMATE_HEIGHT := 32322;
  HEIGHT_ESTIMATE_TIMESTAMP := 1710140000;
  PUBLIC_ADDRESS_BASE58_PREFIX := 1646260;
  PUBLIC_INTEGRATED_ADDRESS_BASE58_PREFIX := 1646259;
  PUBLIC_SUBADDRESS_BASE58_PREFIX := 1646258;
  P2P_DEFAULT_PORT := 9230;
  RPC_DEFAULT_PORT := 9231;
  QNET_DEFAULT_PORT := 9232;
  NETWORK_ID := [69; 81; 85; 73; 76; 73; 66; 82; 73; 65; 78; 84; 0; 0; 0; 0];
  P2P_SEED_NODES := mainnet_seeds;
  GENESIS_TX := "021e01ff0001e0929292c9fcd5eb0302e9fd9ecc323d8e5c7ef6a2f654f0a2fcad6066e25e08f90b228fbd9a51a2032c42011613fd188ec2108351fc47576e5a886eee82a1c962a175e81a9e5249ecc09ee572000000000000000000000000000000000000000000000000000000000000000000";
  GENESIS_NONCE := 12345;
  GOVERNANCE_REWARD_INTERVAL := 86400;
  GOVERNANCE_WALLET_ADDRESS := ("XEQM9BXYDV2A6wudXpKNLd9zQbC7HCGaYiKWC1ew6xyFhL81ds3E5TiMAqUsTg5VXqKvKvGbDHcbKERfxKgND6Xw5fDLZzgswz", EmptyString);
  UPTIME_PROOF_TOLERANCE := 300;
  UPTIME_PROOF_STARTUP_DELAY := 30;
  UPTIME_PROOF_CHECK_INTERVAL := 30;
  UPTIME_PROOF_FREQUENCY := 600;
  UPTIME_PROOF_VALIDITY := 1260;
  MAX_DEACTIVATE_PER_BLOCK := 1;
  HAVE_STORAGE_SERVER := false;
  HAVE_SESSION_ROUTER := false;
  HAVE_LOKINET := false;
  TARGET_BLOCK_TIME := mainnet_TARGET_BLOCK_TIME;
  PULSE_STAGE_TIMEOUT := 10;
  PULSE_ROUND_TIMEOUT := 30;
  PULSE_MAX_START_ADJUSTMENT := 15;
  PULSE_MINER_FALLBACK_ROUNDS := 2;
  FALLBACK_MINER_PUBKEYS := mainnet_fallback_miner_pubkeys;
  PULSE_MIN_SERVICE_NODES := 12;
  BATCHING_INTERVAL := 20;
  MIN_BATCH_PAYMENT_AMOUNT := 100000000;
  BATCHING_INTERVAL_V2 := 10080;
  MIN_BATCH_PAYMENT_AMOUNT_V2 := 1000000000;
  LIMIT_BATCH_OUTPUTS := 15;
  SERVICE_NODE_PAYABLE_AFTER_BLOCKS := 4;
  DEREGISTRATION_LOCK_DURATION := 7 * 86400;
  DEREGISTRATION_LOCK_DURATION_V2 := 14 * 86400;
  UNLOCK_DURATION := 14 * 86400;
  HARDFORK_DEREGISTRATION_GRACE_PERIOD := 5 * 86400 / mainnet_TARGET_BLOCK_TIME;
  HISTORY_ARCHIVE_INTERVAL := 10000;
  HISTORY_ARCHIVE_KEEP_WINDOW := 2 * 365 * 86400 / mainnet_TARGET_BLOCK_TIME;
  HISTORY_RECENT_KEEP_WINDOW := 65;
  ETH_EXIT_BUFFER := 3600 / mainnet_TARGET_BLOCK_TIME;
  ETH_DEREG_BUFFER := 3600 / mainnet_TARGET_BLOCK_TIME;
  ETHEREUM_CHAIN_ID := 421614;
  ETHEREUM_REWARDS_CONTRACT := "0x5FC8d32690cc91D4c39d9d3abcBD16989F875707";
  ETHEREUM_POOL_CONTRACT := "0x9fE46736679d2D9a65F0992F2272dE9f3c7fa6e0";
  L2_REWARD_POOL_UPDATE_BLOCKS := 600000 / L2_BLOCK_TIME_ms / 4;
  L2_TRACKER_SAFE_BLOCKS := 70000 / L2_BLOCK_TIME_ms;
  L2_NODE_LIST_PURGE_BLOCKS := 3600000 / L2_BLOCK_TIME_ms / 2;
  L2_NODE_LIST_PURGE_MIN_OXEN_AGE := 86400 / mainnet_TARGET_BLOCK_TIME;
  DEFAULT_STAKING_URL := EmptyString;
|}.

Definition testnet_seeds : list string := [
  "84.247.143.210:18080"
].

Definition testnet_fallback_miner_pubkeys : list string := [
  "fc3f4e927eb61bc9e2edcff069936a96bdb893f74f7c9ec80f8fc52983e349f5"
].

Definition testnet_config : network_config := {|
  NETWORK_TYPE := TESTNET;
  DEFAULT_CONFIG_SUBDIR := "testnet";
  HEIGHT_ESTIMATE_HEIGHT := 0;
  HEIGHT_ESTIMATE_TIMESTAMP := 0;
  PUBLIC_ADDRESS_BASE58_PREFIX := 1842868;
  PUBLIC_INTEGRATED_ADDRESS_BASE58_PREFIX := 1547956;
  PUBLIC_SUBADDRESS_BASE58_PREFIX := 990900;
  P2P_DEFAULT_PORT := 38156;
  RPC_DEFAULT_PORT := 38157;
  QNET_DEFAULT_PORT := 38159;
  NETWORK_ID := [84; 69; 83; 84; 69; 81; 85; 73; 76; 73; 66; 82; 73; 65; 78; 84];
  P2P_SEED_NODES := testnet_seeds;
  GENESIS_TX := "021e01ff00018080c9db97f4fb270278fe7eed60deb57ea863d65690c40abc5ff09505704f36ba94285a02b9e15f6942014c8f90cc270b3e4e154003ecf48f21b5762e57c52cc70df9c65502e4921cd97872000000000000000000000000000000000000000000000000000000000000000000";
  GENESIS_NONCE := 12345;
  GOVERNANCE_REWARD_INTERVAL := 120000;
  GOVERNANCE_WALLET_ADDRESS := ("XEQT8QP2BWFevNjsrvAqipQdCF7C6WdXs5BPWfa2vZRH4h1ZfuRr9wtds5gAwCGqoAd5psteQiTwdH17Fe3Vb7G25BkRFEo2MC", EmptyString);
  UPTIME_PROOF_TOLERANCE := UPTIME_PROOF_TOLERANCE mainnet_config;
  UPTIME_PROOF_STARTUP_DELAY := UPTIME_PROOF_STARTUP_DELAY mainnet_config;
  UPTIME_PROOF_CHECK_INTERVAL := UPTIME_PROOF_CHECK_INTERVAL mainnet_config;
  UPTIME_PROOF_FREQUENCY := 600;
  UPTIME_PROOF_VALIDITY := 1260;
  MAX_DEACTIVATE_PER_BLOCK := 0;
  HAVE_STORAGE_SERVER := false;
  HAVE_SESSION_ROUTER := false;
  HAVE_LOKINET := false;
  TARGET_BLOCK_TIME := TARGET_BLOCK_TIME mainnet_config;
  PULSE_STAGE_TIMEOUT := PULSE_STAGE_TIMEOUT mainnet_config;
  PULSE_ROUND_TIMEOUT := PULSE_ROUND_TIMEOUT mainnet_config;
  PULSE_MAX_START_ADJUSTMENT := PULSE_MAX_START_ADJUSTMENT mainnet_config;
  PULSE_MINER_FALLBACK_ROUNDS := PULSE_MINER_FALLBACK_ROUNDS mainnet_config;
  FALLBACK_MINER_PUBKEYS := testnet_fallback_miner_pubkeys;
  PULSE_MIN_SERVICE_NODES := 12;
  BATCHING_INTERVAL := 20;
  MIN_BATCH_PAYMENT_AMOUNT := MIN_BATCH_PAYMENT_AMOUNT mainnet_config;
  BATCHING_INTERVAL_V2 := BATCHING_INTERVAL_V2 mainnet_config;
  MIN_BATCH_PAYMENT_AMOUNT_V2 := MIN_BATCH_PAYMENT_AMOUNT_V2 mainnet_config;
  LIMIT_BATCH_OUTPUTS := LIMIT_BATCH_OUTPUTS mainnet_config;
  SERVICE_NODE_PAYABLE_AFTER_BLOCKS := 4;
  DEREGISTRATION_LOCK_DURATION := 172800;
  DEREGISTRATION_LOCK_DURATION_V2 := 86400;
  UNLOCK_DURATION := 86400;
  HARDFORK_DEREGISTRATION_GRACE_PERIOD := HARDFORK_DEREGISTRATION_GRACE_PERIOD mainnet_config;
  HISTORY_ARCHIVE_INTERVAL := HISTORY_ARCHIVE_INTERVAL mainnet_config;
  HISTORY_ARCHIVE_KEEP_WINDOW := HISTORY_ARCHIVE_KEEP_WINDOW mainnet_config;
  HISTORY_RECENT_KEEP_WINDOW := HISTORY_RECENT_KEEP_WINDOW mainnet_config;
  ETH_EXIT_BUFFER := 3600 / TARGET_BLOCK_TIME mainnet_config;
  ETH_DEREG_BUFFER := 0;
  ETHEREUM_CHAIN_ID := 421614;
  ETHEREUM_REWARDS_CONTRACT := "0x5FC8d32690cc91D4c39d9d3abcBD16989F875707";
  ETHEREUM_POOL_CONTRACT := "0x9fE46736679d2D9a65F0992F2272dE9f3c7fa6e0";
  L2_REWARD_POOL_UPDATE_BLOCKS := L2_REWARD_POOL_UPDATE_BLOCKS mainnet_config / 4;
  L2_TRACKER_SAFE_BLOCKS := L2_TRACKER_SAFE_BLOCKS mainnet_config;
  L2_NODE_LIST_PURGE_BLOCKS := L2_NODE_LIST_PURGE_BLOCKS mainnet_config / 2;
  L2_NODE_LIST_PURGE_MIN_OXEN_AGE := L2_NODE_LIST_PURGE_MIN_OXEN_AGE mainnet_config;
  DEFAULT_STAKING_URL := EmptyString;
|}.

Definition devnet_seeds : list string := [
  "37.27.236.229:34602";
  "104.243.40.38:34619"
].

Definition devnet_config : network_config := {|
  NETWORK_TYPE := DEVNET;
  DEFAULT_CONFIG_SUBDIR := "devnet3";
  HEIGHT_ESTIMATE_HEIGHT := 0;
  HEIGHT_ESTIMATE_TIMESTAMP := 1597170000;
  PUBLIC_ADDRESS_BASE58_PREFIX := 3930;
  PUBLIC_INTEGRATED_ADDRESS_BASE58_PREFIX := 4442;
  PUBLIC_SUBADDRESS_BASE58_PREFIX := 5850;
  P2P_DEFAULT_PORT := 38856;
  RPC_DEFAULT_PORT := 38857;
  QNET_DEFAULT_PORT := 38859;
  NETWORK_ID := [3; 247; 92; 125; 93; 23; 203; 107; 27; 244; 99; 121; 122; 87; 171; 215];
  P2P_SEED_NODES := devnet_seeds;
  GENESIS_TX := "04011e1e01ff00018080c9db97f4fb2702fa27e905f604faa4eb084ee675faca77b0cfea9adec1526da33cae5e286f31624201dae05bf3fa1662b7fd373c92426763d921cf3745e10ee43edb510f690c656f247200000000000000000000000000000000000000000000000000000000000000000000";
  GENESIS_NONCE := 12345;
  GOVERNANCE_REWARD_INTERVAL := GOVERNANCE_REWARD_INTERVAL mainnet_config;
  GOVERNANCE_WALLET_ADDRESS := ("XEQDTcb2KBmevAwaP56ru33ffLHouCPnCKDjK3R8tQVmg7zrDsujZLFGwnuQ7EFL3iSK8dVn7nPgWTrAbAybU5d84MsQoWGdmR", EmptyString);
  UPTIME_PROOF_TOLERANCE := UPTIME_PROOF_TOLERANCE mainnet_config;
  UPTIME_PROOF_STARTUP_DELAY := 5;
  UPTIME_PROOF_CHECK_INTERVAL := UPTIME_PROOF_CHECK_INTERVAL mainnet_config;
  UPTIME_PROOF_FREQUENCY := UPTIME_PROOF_FREQUENCY testnet_config;
  UPTIME_PROOF_VALIDITY := UPTIME_PROOF_VALIDITY testnet_config;
  MAX_DEACTIVATE_PER_BLOCK := MAX_DEACTIVATE_PER_BLOCK testnet_config;
  HAVE_STORAGE_SERVER := false;
  HAVE_SESSION_ROUTER := false;
  HAVE_LOKINET := false;
  TARGET_BLOCK_TIME := 30;
  PULSE_STAGE_TIMEOUT := 10;
  PULSE_ROUND_TIMEOUT := 30;
  PULSE_MAX_START_ADJUSTMENT := 10;
  PULSE_MINER_FALLBACK_ROUNDS := 0;
  FALLBACK_MINER_PUBKEYS := [];
  PULSE_MIN_SERVICE_NODES := PULSE_MIN_SERVICE_NODES testnet_config;
  BATCHING_INTERVAL := BATCHING_INTERVAL testnet_config;
  MIN_BATCH_PAYMENT_AMOUNT := MIN_BATCH_PAYMENT_AMOUNT mainnet_config;
  BATCHING_INTERVAL_V2 := BATCHING_INTERVAL testnet_config;
  MIN_BATCH_PAYMENT_AMOUNT_V2 := MIN_BATCH_PAYMENT_AMOUNT mainnet_config;
  LIMIT_BATCH_OUTPUTS := LIMIT_BATCH_OUTPUTS mainnet_config;
  SERVICE_NODE_PAYABLE_AFTER_BLOCKS := SERVICE_NODE_PAYABLE_AFTER_BLOCKS testnet_config;
  DEREGISTRATION_LOCK_DURATION := DEREGISTRATION_LOCK_DURATION testnet_config;
  DEREGISTRATION_LOCK_DURATION_V2 := DEREGISTRATION_LOCK_DURATION_V2 testnet_config;
  UNLOCK_DURATION := UNLOCK_DURATION testnet_config;
  HARDFORK_DEREGISTRATION_GRACE_PERIOD := 100;
  HISTORY_ARCHIVE_INTERVAL := HISTORY_ARCHIVE_INTERVAL mainnet_config;
  HISTORY_ARCHIVE_KEEP_WINDOW := HISTORY_ARCHIVE_KEEP_WINDOW mainnet_config;
  HISTORY_RECENT_KEEP_WINDOW := HISTORY_RECENT_KEEP_WINDOW mainnet_config;
  ETH_EXIT_BUFFER := ETH_EXIT_BUFFER testnet_config;
  ETH_DEREG_BUFFER := ETH_DEREG_BUFFER testnet_config;
  ETHEREUM_CHAIN_ID := 42161;
  ETHEREUM_REWARDS_CONTRACT := "0xDa11D8E9EDE9c5A1a40A5D1cF3A5278bAd139f07";
  ETHEREUM_POOL_CONTRACT := "0x35FD198cAEa28457AA0C47b2777F944c634810CF";
  L2_REWARD_POOL_UPDATE_BLOCKS := L2_REWARD_POOL_UPDATE_BLOCKS testnet_config;
  L2_TRACKER_SAFE_BLOCKS := L2_TRACKER_SAFE_BLOCKS mainnet_config;
  L2_NODE_LIST_PURGE_BLOCKS := 600000 / L2_BLOCK_TIME_ms;
  L2_NODE_LIST_PURGE_MIN_OXEN_AGE := L2_NODE_LIST_PURGE_MIN_OXEN_AGE mainnet_config;
  DEFAULT_STAKING_URL := "https://stake-dev.getsession.org";
|}.

Definition localdev_TARGET_BLOCK_TIME : Z := 5.

Definition localdev_config : network_config := {|
  NETWORK_TYPE := LOCALDEV;
  DEFAULT_CONFIG_SUBDIR := "localdev";
  HEIGHT_ESTIMATE_HEIGHT := HEIGHT_ESTIMATE_HEIGHT devnet_config;
  HEIGHT_ESTIMATE_TIMESTAMP := HEIGHT_ESTIMATE_TIMESTAMP devnet_config;
  PUBLIC_ADDRESS_BASE58_PREFIX := PUBLIC_ADDRESS_BASE58_PREFIX devnet_config;
  PUBLIC_INTEGRATED_ADDRESS_BASE58_PREFIX := PUBLIC_INTEGRATED_ADDRESS_BASE58_PREFIX devnet_config;
  PUBLIC_SUBADDRESS_BASE58_PREFIX := PUBLIC_SUBADDRESS_BASE58_PREFIX devnet_config;
  P2P_DEFAULT_PORT := P2P_DEFAULT_PORT devnet_config;
  RPC_DEFAULT_PORT := RPC_DEFAULT_PORT devnet_config;
  QNET_DEFAULT_PORT := QNET_DEFAULT_PORT devnet_config;
  NETWORK_ID := NETWORK_ID devnet_config;
  P2P_SEED_NODES := [];
  GENESIS_TX := GENESIS_TX devnet_config;
  GENESIS_NONCE := GENESIS_NONCE devnet_config;
  GOVERNANCE_REWARD_INTERVAL := GOVERNANCE_REWARD_INTERVAL mainnet_config;
  GOVERNANCE_WALLET_ADDRESS := GOVERNANCE_WALLET_ADDRESS devnet_config;
  UPTIME_PROOF_TOLERANCE := UPTIME_PROOF_TOLERANCE mainnet_config;
  UPTIME_PROOF_STARTUP_DELAY := UPTIME_PROOF_STARTUP_DELAY mainnet_config;
  UPTIME_PROOF_CHECK_INTERVAL := UPTIME_PROOF_CHECK_INTERVAL mainnet_config;
  UPTIME_PROOF_FREQUENCY := UPTIME_PROOF_FREQUENCY testnet_config;
  UPTIME_PROOF_VALIDITY := UPTIME_PROOF_VALIDITY testnet_config;
  MAX_DEACTIVATE_PER_BLOCK := MAX_DEACTIVATE_PER_BLOCK testnet_config;
  HAVE_STORAGE_SERVER := false;
  HAVE_SESSION_ROUTER := false;
  HAVE_LOKINET := false;
  TARGET_BLOCK_TIME := localdev_TARGET_BLOCK_TIME;
  PULSE_STAGE_TIMEOUT := 3;
  PULSE_ROUND_TIMEOUT := 4;
  PULSE_MAX_START_ADJUSTMENT := 4;
  PULSE_MINER_FALLBACK_ROUNDS := 0;
  FALLBACK_MINER_PUBKEYS := [];
  PULSE_MIN_SERVICE_NODES := PULSE_MIN_SERVICE_NODES testnet_config;
  BATCHING_INTERVAL := BATCHING_INTERVAL testnet_config;
  MIN_BATCH_PAYMENT_AMOUNT := MIN_BATCH_PAYMENT_AMOUNT mainnet_config;
  BATCHING_INTERVAL_V2 := BATCHING_INTERVAL testnet_config;
  MIN_BATCH_PAYMENT_AMOUNT_V2 := MIN_BATCH_PAYMENT_AMOUNT mainnet_config;
  LIMIT_BATCH_OUTPUTS := LIMIT_BATCH_OUTPUTS mainnet_config;
  SERVICE_NODE_PAYABLE_AFTER_BLOCKS := 1;
  DEREGISTRATION_LOCK_DURATION := 10 * localdev_TARGET_BLOCK_TIME;
  DEREGISTRATION_LOCK_DURATION_V2 := 10 * localdev_TARGET_BLOCK_TIME;
  UNLOCK_DURATION := 0 * localdev_TARGET_BLOCK_TIME;
  HARDFORK_DEREGISTRATION_GRACE_PERIOD := HARDFORK_DEREGISTRATION_GRACE_PERIOD mainnet_config;
  HISTORY_ARCHIVE_INTERVAL := HISTORY_ARCHIVE_INTERVAL mainnet_config;
  HISTORY_ARCHIVE_KEEP_WINDOW := HISTORY_ARCHIVE_KEEP_WINDOW mainnet_config;
  HISTORY_RECENT_KEEP_WINDOW := HISTORY_RECENT_KEEP_WINDOW mainnet_config;
  ETH_EXIT_BUFFER := 1;
  ETH_DEREG_BUFFER := 1;
  ETHEREUM_CHAIN_ID := 31337;
  ETHEREUM_REWARDS_CONTRACT := "0x5FC8d32690cc91D4c39d9d3abcBD16989F875707";
  ETHEREUM_POOL_CONTRACT := "0x9fE46736679d2D9a65F0992F2272dE9f3c7fa6e0";
  L2_REWARD_POOL_UPDATE_BLOCKS := 4;
  L2_TRACKER_SAFE_BLOCKS := 1;
  L2_NODE_LIST_PURGE_BLOCKS := 20;
  L2_NODE_LIST_PURGE_MIN_OXEN_AGE := 19;
  DEFAULT_STAKING_URL := EmptyString;
|}.

Definition stagenet_seeds : list string := [
  "104.243.40.38:11020"
].

Definition stagenet_config : network_config := {|
  NETWORK_TYPE := STAGENET;
  DEFAULT_CONFIG_SUBDIR := "stagenet";
  HEIGHT_ESTIMATE_HEIGHT := 0;
  HEIGHT_ESTIMATE_TIMESTAMP := 1710140000;
  PUBLIC_ADDRESS_BASE58_PREFIX := 1810100;
  PUBLIC_INTEGRATED_ADDRESS_BASE58_PREFIX := 1810100;
  PUBLIC_SUBADDRESS_BASE58_PREFIX := 1810100;
  P2P_DEFAULT_PORT := 11022;
  RPC_DEFAULT_PORT := 11023;
  QNET_DEFAULT_PORT := 11025;
  NETWORK_ID := [83; 84; 65; 71; 69; 81; 85; 73; 76; 73; 66; 82; 73; 65; 78; 84];
  P2P_SEED_NODES := [];
  GENESIS_TX := "04011e1e01ff00018080c9db97f4fb2702fa27e905f604faa4eb084ee675faca77b0cfea9adec1526da33cae5e286f31624201dae05bf3fa1662b7fd373c92426763d921cf3745e10ee43edb510f690c656f247200000000000000000000000000000000000000000000000000000000000000000000";
  GENESIS_NONCE := 12345;
  GOVERNANCE_REWARD_INTERVAL := GOVERNANCE_REWARD_INTERVAL mainnet_config;
  GOVERNANCE_WALLET_ADDRESS := ("XEQSRiaXQU1QrCLQWGKKfPjcu4vYKpPAbbZmxY73dvHsEdvfDpfgf1zdnwmF3Xy7HrUNgbUB3eAJvcupZaFUo2pE4MVToAJUy5", EmptyString);
  UPTIME_PROOF_TOLERANCE := UPTIME_PROOF_TOLERANCE mainnet_config;
  UPTIME_PROOF_STARTUP_DELAY := 5;
  UPTIME_PROOF_CHECK_INTERVAL := UPTIME_PROOF_CHECK_INTERVAL mainnet_config;
  UPTIME_PROOF_FREQUENCY := UPTIME_PROOF_FREQUENCY testnet_config;
  UPTIME_PROOF_VALIDITY := UPTIME_PROOF_VALIDITY testnet_config;
  MAX_DEACTIVATE_PER_BLOCK := MAX_DEACTIVATE_PER_BLOCK testnet_config;
  HAVE_STORAGE_SERVER := false;
  HAVE_SESSION_ROUTER := false;
  HAVE_LOKINET := false;
  TARGET_BLOCK_TIME := mainnet_TARGET_BLOCK_TIME;
  PULSE_STAGE_TIMEOUT := PULSE_STAGE_TIMEOUT mainnet_config;
  PULSE_ROUND_TIMEOUT := PULSE_ROUND_TIMEOUT mainnet_config;
  PULSE_MAX_START_ADJUSTMENT := PULSE_MAX_START_ADJUSTMENT mainnet_config;
  PULSE_MINER_FALLBACK_ROUNDS := 0;
  FALLBACK_MINER_PUBKEYS := [];
  PULSE_MIN_SERVICE_NODES := PULSE_MIN_SERVICE_NODES testnet_config;
  BATCHING_INTERVAL := BATCHING_INTERVAL testnet_config;
  MIN_BATCH_PAYMENT_AMOUNT := MIN_BATCH_PAYMENT_AMOUNT mainnet_config;
  BATCHING_INTERVAL_V2 := BATCHING_INTERVAL testnet_config;
  MIN_BATCH_PAYMENT_AMOUNT_V2 := MIN_BATCH_PAYMENT_AMOUNT mainnet_config;
  LIMIT_BATCH_OUTPUTS := LIMIT_BATCH_OUTPUTS mainnet_config;
  SERVICE_NODE_PAYABLE_AFTER_BLOCKS := SERVICE_NODE_PAYABLE_AFTER_BLOCKS testnet_config;
  DEREGISTRATION_LOCK_DURATION := DEREGISTRATION_LOCK_DURATION testnet_config;
  DEREGISTRATION_LOCK_DURATION_V2 := DEREGISTRATION_LOCK_DURATION_V2 testnet_config;
  UNLOCK_DURATION := UNLOCK_DURATION testnet_config;
  HARDFORK_DEREGISTRATION_GRACE_PERIOD := HARDFORK_DEREGISTRATION_GRACE_PERIOD mainnet_config;
  HISTORY_ARCHIVE_INTERVAL := HISTORY_ARCHIVE_INTERVAL mainnet_config;
  HISTORY_ARCHIVE_KEEP_WINDOW := HISTORY_ARCHIVE_KEEP_WINDOW mainnet_config;
  HISTORY_RECENT_KEEP_WINDOW := HISTORY_RECENT_KEEP_WINDOW mainnet_config;
  ETH_EXIT_BUFFER := 7200 / TARGET_BLOCK_TIME mainnet_config;
  ETH_DEREG_BUFFER := 7200 / TARGET_BLOCK_TIME mainnet_config;
  ETHEREUM_CHAIN_ID := 421614;
  ETHEREUM_REWARDS_CONTRACT := "0x9d8aB00880CBBdc2Dcd29C179779469A82E7be35";
  ETHEREUM_POOL_CONTRACT := "0xaAD853fE7091728dac0DAa7b69990ee68abFC636";
  L2_REWARD_POOL_UPDATE_BLOCKS := L2_REWARD_POOL_UPDATE_BLOCKS testnet_config;
  L2_TRACKER_SAFE_BLOCKS := L2_TRACKER_SAFE_BLOCKS mainnet_config;
  L2_NODE_LIST_PURGE_BLOCKS := L2_NODE_LIST_PURGE_BLOCKS testnet_config;
  L2_NODE_LIST_PURGE_MIN_OXEN_AGE := L2_NODE_LIST_PURGE_MIN_OXEN_AGE testnet_config;
  DEFAULT_STAKING_URL := "https://testnet.stake.getsession.org";
|}.

Definition fakechain_config : network_config := {|
  NETWORK_TYPE := FAKECHAIN;
  DEFAULT_CONFIG_SUBDIR := "regtest";
  HEIGHT_ESTIMATE_HEIGHT := HEIGHT_ESTIMATE_HEIGHT mainnet_config;
  HEIGHT_ESTIMATE_TIMESTAMP := HEIGHT_ESTIMATE_TIMESTAMP mainnet_config;
  PUBLIC_ADDRESS_BASE58_PREFIX := PUBLIC_ADDRESS_BASE58_PREFIX mainnet_config;
  PUBLIC_INTEGRATED_ADDRESS_BASE58_PREFIX := PUBLIC_INTEGRATED_ADDRESS_BASE58_PREFIX mainnet_config;
  PUBLIC_SUBADDRESS_BASE58_PREFIX := PUBLIC_SUBADDRESS_BASE58_PREFIX mainnet_config;
  P2P_DEFAULT_PORT := P2P_DEFAULT_PORT mainnet_config;
  RPC_DEFAULT_PORT := RPC_DEFAULT_PORT mainnet_config;
  QNET_DEFAULT_PORT := QNET_DEFAULT_PORT mainnet_config;
  NETWORK_ID := NETWORK_ID mainnet_config;
  P2P_SEED_NODES := [];
  GENESIS_TX := GENESIS_TX mainnet_config;
  GENESIS_NONCE := GENESIS_NONCE mainnet_config;
  GOVERNANCE_REWARD_INTERVAL := 12000;
  GOVERNANCE_WALLET_ADDRESS := GOVERNANCE_WALLET_ADDRESS mainnet_config;
  UPTIME_PROOF_TOLERANCE := UPTIME_PROOF_TOLERANCE mainnet_config;
  UPTIME_PROOF_STARTUP_DELAY := 5;
  UPTIME_PROOF_CHECK_INTERVAL := 5;
  UPTIME_PROOF_FREQUENCY := 60;
  UPTIME_PROOF_VALIDITY := 120 + 5;
  MAX_DEACTIVATE_PER_BLOCK := MAX_DEACTIVATE_PER_BLOCK testnet_config;
  HAVE_STORAGE_SERVER := false;
  HAVE_SESSION_ROUTER := false;
  HAVE_LOKINET := false;
  TARGET_BLOCK_TIME := TARGET_BLOCK_TIME mainnet_config;
  PULSE_STAGE_TIMEOUT := PULSE_STAGE_TIMEOUT mainnet_config;
  PULSE_ROUND_TIMEOUT := PULSE_ROUND_TIMEOUT mainnet_config;
  PULSE_MAX_START_ADJUSTMENT := PULSE_MAX_START_ADJUSTMENT mainnet_config;
  PULSE_MINER_FALLBACK_ROUNDS := 0;
  FALLBACK_MINER_PUBKEYS := [];
  PULSE_MIN_SERVICE_NODES := PULSE_MIN_SERVICE_NODES testnet_config;
  BATCHING_INTERVAL := BATCHING_INTERVAL testnet_config;
  MIN_BATCH_PAYMENT_AMOUNT := MIN_BATCH_PAYMENT_AMOUNT mainnet_config;
  BATCHING_INTERVAL_V2 := BATCHING_INTERVAL testnet_config;
  MIN_BATCH_PAYMENT_AMOUNT_V2 := MIN_BATCH_PAYMENT_AMOUNT mainnet_config;
  LIMIT_BATCH_OUTPUTS := LIMIT_BATCH_OUTPUTS mainnet_config;
  SERVICE_NODE_PAYABLE_AFTER_BLOCKS := SERVICE_NODE_PAYABLE_AFTER_BLOCKS testnet_config;
  DEREGISTRATION_LOCK_DURATION := 3600;
  DEREGISTRATION_LOCK_DURATION_V2 := 3600;
  UNLOCK_DURATION := 1800;
  HARDFORK_DEREGISTRATION_GRACE_PERIOD := HARDFORK_DEREGISTRATION_GRACE_PERIOD mainnet_config;
  HISTORY_ARCHIVE_INTERVAL := HISTORY_ARCHIVE_INTERVAL mainnet_config;
  HISTORY_ARCHIVE_KEEP_WINDOW := HISTORY_ARCHIVE_KEEP_WINDOW mainnet_config;
  HISTORY_RECENT_KEEP_WINDOW := HISTORY_RECENT_KEEP_WINDOW mainnet_config;
  ETH_EXIT_BUFFER := ETH_EXIT_BUFFER testnet_config;
  ETH_DEREG_BUFFER := ETH_DEREG_BUFFER testnet_config;
  ETHEREUM_CHAIN_ID := ETHEREUM_CHAIN_ID mainnet_config;
  ETHEREUM_REWARDS_CONTRACT := ETHEREUM_REWARDS_CONTRACT mainnet_config;
  ETHEREUM_POOL_CONTRACT := ETHEREUM_POOL_CONTRACT mainnet_config;
  L2_REWARD_POOL_UPDATE_BLOCKS := L2_REWARD_POOL_UPDATE_BLOCKS mainnet_config;
  L2_TRACKER_SAFE_BLOCKS := L2_TRACKER_SAFE_BLOCKS mainnet_config;
  L2_NODE_LIST_PURGE_BLOCKS := L2_NODE_LIST_PURGE_BLOCKS mainnet_config;
  L2_NODE_LIST_PURGE_MIN_OXEN_AGE := L2_NODE_LIST_PURGE_MIN_OXEN_AGE mainnet_config;
  DEFAULT_STAKING_URL := EmptyString;
|}.

(** ** Member functions of [network_config] *)

(** Duration divided by duration: truncation to an integer. *)
Definition BLOCKS_IN (c : network_config) (interval : Z) : Z :=
  Z.quot interval (TARGET_BLOCK_TIME c).
Definition BLOCKS_PER_DAY (c : network_config) : Z := BLOCKS_IN c 86400.
Definition BLOCKS_PER_HOUR (c : network_config) : Z := BLOCKS_IN c 3600.
Definition PULSE_MIN_TARGET_BLOCK_TIME (c : network_config) : Z :=
  TARGET_BLOCK_TIME c - PULSE_MAX_START_ADJUSTMENT c.
Definition PULSE_MAX_TARGET_BLOCK_TIME (c : network_config) : Z :=
  TARGET_BLOCK_TIME c + PULSE_MAX_START_ADJUSTMENT c.

Definition batching_interval (c : network_config) (v : hf) : Z :=
  if hf21_weekly_batching <=? v then BATCHING_INTERVAL_V2 c else BATCHING_INTERVAL c.
Definition min_batch_payment_amount (c : network_config) (v : hf) : Z :=
  if hf21_weekly_batching <=? v then MIN_BATCH_PAYMENT_AMOUNT_V2 c
  else MIN_BATCH_PAYMENT_AMOUNT c.

Definition governance_wallet_address (c : network_config) (hard_fork_version : hf) : string :=
  if hf20_governance_payouts_fix <=? hard_fork_version then (GOVERNANCE_WALLET_ADDRESS c).1
  else
    let wallet_switch :=
      match NETWORK_TYPE c with
      | MAINNET | FAKECHAIN => hf11_infinite_staking
      | _ => hf10_bulletproofs
      end in
    if wallet_switch <=? hard_fork_version then (GOVERNANCE_WALLET_ADDRESS c).2
    else (GOVERNANCE_WALLET_ADDRESS c).1.

(** ** [networks.h] *)
Definition ALL_NETWORKS : list network_type :=
  [MAINNET; STAGENET; TESTNET; DEVNET; LOCALDEV; FAKECHAIN].

Definition network_type_from_string (s : string) : network_type :=
  if String.eqb s "mainnet" then MAINNET
  else if String.eqb s "testnet" then TESTNET
  else if String.eqb s "devnet" then DEVNET
  else if String.eqb s "stagenet" then STAGENET
  else if String.eqb s "localdev" then LOCALDEV
  else if String.eqb s "fakechain" then FAKECHAIN
  else UNDEFINED.

Definition network_type_to_string (t : network_type) : string :=
  match t with
  | MAINNET => "mainnet"
  | TESTNET => "testnet"
  | DEVNET => "devnet"
  | STAGENET => "stagenet"
  | LOCALDEV => "localdev"
  | FAKECHAIN => "fakechain"
  | UNDEFINED => "undefined"
  end.

(** [None] is the [std::runtime_error]. *)
Definition get_config (nettype : network_type) : option network_config :=
  match nettype with
  | MAINNET => Some mainnet_config
  | STAGENET => Some stagenet_config
  | TESTNET => Some testnet_config
  | DEVNET => Some devnet_config
  | LOCALDEV => Some localdev_config
  | FAKECHAIN => Some fakechain_config
  | UNDEFINED => None
  end.

(** ** Properties *)

(** The timing relations the rest of the node relies on. *)
Definition timing_ok (c : network_config) : bool :=
  (0 <? TARGET_BLOCK_TIME c) &&
  (0 <? PULSE_MIN_TARGET_BLOCK_TIME c) &&
  (PULSE_STAGE_TIMEOUT c <=? PULSE_ROUND_TIMEOUT c) &&
  (2 * UPTIME_PROOF_FREQUENCY c <? UPTIME_PROOF_VALIDITY c) &&
  (UPTIME_PROOF_CHECK_INTERVAL c <=? UPTIME_PROOF_FREQUENCY c / 2) &&
  (UNLOCK_DURATION c <=? DEREGISTRATION_LOCK_DURATION_V2 c) &&
  (L2_NODE_LIST_PURGE_BLOCKS c * L2_BLOCK_TIME_ms <?
     L2_NODE_LIST_PURGE_MIN_OXEN_AGE c * TARGET_BLOCK_TIME c * 1000) &&
  (0 <? BATCHING_INTERVAL c) && (0 <? BATCHING_INTERVAL_V2 c) &&
  (0 <? HISTORY_ARCHIVE_INTERVAL c).

(** Every network's configuration is the one of that network and consistent: block and
    Pulse times positive and nested, two uptime proofs fit in the validity window,
    a forced deregistration locks at least as long as a requested unlock (HF22),
    the purge age covers the L2 list refresh, and the intervals the node divides
    by are positive; and the string names round-trip. *)
Theorem configs_consistent nt c :
  get_config nt = Some c ->
  NETWORK_TYPE c = nt /\ timing_ok c = true /\ length (NETWORK_ID c) = 16%nat /\
  network_type_from_string (network_type_to_string nt) = nt.
Proof. intros H. destruct nt; try discriminate H; injection H as <-; by vm_compute. Qed.

Lemma configs_consistent_witness :
  NETWORK_TYPE localdev_config = LOCALDEV /\ timing_ok localdev_config = true.
Proof. destruct (configs_consistent LOCALDEV localdev_config eq_refl) as (H1 & H2 & _).
  split; assumption. Defined.

(** Testnet does not set [MAX_DEACTIVATE_PER_BLOCK], and devnet, localdev, stagenet and
    fakechain copy it from testnet: on every network but mainnet the cap on
    service nodes deactivated per block is 0. *)
Theorem deactivation_cap_only_on_mainnet nt c :
  get_config nt = Some c ->
  MAX_DEACTIVATE_PER_BLOCK c = if decide (nt = MAINNET) then 1 else 0.
Proof. intros H. destruct nt; try discriminate H; injection H as <-; reflexivity. Qed.

Lemma deactivation_cap_only_on_mainnet_witness : MAX_DEACTIVATE_PER_BLOCK testnet_config = 0.
Proof. exact (deactivation_cap_only_on_mainnet TESTNET testnet_config eq_refl). Defined.
