(* ===== verification/Address.v ===== *)
(** * Account addresses as strings

    The address functions of [cryptonote_basic/cryptonote_basic_impl.cpp].  An address
    is two 32-byte keys, an integrated address adds an 8-byte payment id; the text
    form is base58 over the network's prefix and those bytes.  [cn_fast_hash] and
    [crypto::check_key] are parameters. *)
From S2P Require Import Prelude Varint Base58 Hardfork Config.

Record account_public_address := AccountAddress {
  m_spend_public_key : list Z;
  m_view_public_key : list Z;
}.

#[global] Instance account_public_address_eq_dec : EqDecision account_public_address.
Proof. solve_decision. Defined.

(** [address_parse_info]; [payment_id] is only assigned for integrated addresses. *)
Record address_parse_info := AddressParseInfo {
  address : account_public_address;
  is_subaddress : bool;
  has_payment_id : bool;
  payment_id : option (list Z);
}.

(** [t_serializable_object_to_blob] of an address and of an integrated one. *)
Definition address_blob (adr : account_public_address) : list Z :=
  m_spend_public_key adr ++ m_view_public_key adr.
Definition integrated_blob (adr : account_public_address) (pid : list Z) : list Z :=
  address_blob adr ++ pid.

(** [serialization::parse_binary]: all fields present and nothing left over. *)
Definition parse_address (data : list Z) : option account_public_address :=
  if decide (length data = 64%nat)
  then Some (AccountAddress (take 32 data) (drop 32 data)) else None.
Definition parse_integrated (data : list Z) : option (account_public_address * list Z) :=
  if decide (length data = 72%nat)
  then Some (AccountAddress (take 32 data) (take 32 (drop 32 data)), drop 64 data) else None.

(** [get_account_address_checksum], over all bytes of the blob but the last one. *)
Definition get_account_address_checksum (blob : list Z) : Z :=
  foldl (fun summ b => u8 (summ + b)) 0 (take (length blob - 1) blob).
Definition get_account_integrated_address_checksum (blob : list Z) : Z :=
  foldl (fun summ b => u8 (summ + b)) 0 (take (length blob - 1) blob).

Section Strings.
Context (cn_fast_hash : list Z -> list Z).
Context (check_key : list Z -> bool).

Definition get_account_address_as_str (nettype : network_type) (subaddress : bool)
    (adr : account_public_address) : option (list Z) :=
  conf ← get_config nettype;
  let address_prefix := if subaddress then PUBLIC_SUBADDRESS_BASE58_PREFIX conf
                        else PUBLIC_ADDRESS_BASE58_PREFIX conf in
  encode_addr cn_fast_hash address_prefix (address_blob adr).

Definition get_account_integrated_address_as_str (nettype : network_type)
    (adr : account_public_address) (pid : list Z) : option (list Z) :=
  conf ← get_config nettype;
  encode_addr cn_fast_hash (PUBLIC_INTEGRATED_ADDRESS_BASE58_PREFIX conf) (integrated_blob adr pid).

Definition get_account_address_from_str (nettype : network_type) (str : list Z)
    : option address_parse_info :=
  conf ← get_config nettype;
  '(prefix, data) ← decode_addr cn_fast_hash str;
  '(is_sub, has_pid) ←
    (if PUBLIC_INTEGRATED_ADDRESS_BASE58_PREFIX conf =? prefix then Some (false, true)
     else if PUBLIC_ADDRESS_BASE58_PREFIX conf =? prefix then Some (false, false)
     else if PUBLIC_SUBADDRESS_BASE58_PREFIX conf =? prefix then Some (true, false)
     else None);
  '(adr, pid) ←
    (if (has_pid : bool) then '(a, p) ← parse_integrated data; Some (a, Some p)
     else a ← parse_address data; Some (a, None));
  if negb (check_key (m_spend_public_key adr)) || negb (check_key (m_view_public_key adr))
  then None
  else Some (AddressParseInfo adr is_sub has_pid pid).

End Strings.

(** ** Lemmas *)

(** An address whose keys have their 32 bytes and pass [check_key]. *)
Definition valid_address (check_key : list Z -> bool) (adr : account_public_address) : Prop :=
  length (m_spend_public_key adr) = 32%nat /\ length (m_view_public_key adr) = 32%nat /\
  Forall is_u8 (m_spend_public_key adr) /\ Forall is_u8 (m_view_public_key adr) /\
  check_key (m_spend_public_key adr) = true /\ check_key (m_view_public_key adr) = true.

Lemma parse_address_blob ck adr : valid_address ck adr -> parse_address (address_blob adr) = Some adr.
Proof.
  destruct adr as [s v]. intros (Hs & Hv & _). unfold parse_address, address_blob. cbn in *.
  rewrite decide_True by (rewrite length_app; lia).
  by rewrite <- Hs, take_app_length, drop_app_length.
Qed.

Lemma parse_integrated_blob ck adr pid :
  valid_address ck adr -> length pid = 8%nat ->
  parse_integrated (integrated_blob adr pid) = Some (adr, pid).
Proof.
  destruct adr as [s v]. intros (Hs & Hv & _) Hp.
  unfold parse_integrated, integrated_blob, address_blob. cbn in *.
  rewrite decide_True by (rewrite !length_app; lia). rewrite <- app_assoc.
  rewrite take_app_length', (drop_app_length' s) by done.
  rewrite take_app_length' by done.
  rewrite (app_assoc s), drop_app_length' by (rewrite length_app; lia). done.
Qed.

Lemma blob_bytes ck adr : valid_address ck adr -> Forall is_u8 (address_blob adr).
Proof. intros (_ & _ & ? & ? & _). by apply Forall_app. Qed.

Lemma prefixes_u64 nt c :
  get_config nt = Some c ->
  is_u64 (PUBLIC_ADDRESS_BASE58_PREFIX c) /\ is_u64 (PUBLIC_SUBADDRESS_BASE58_PREFIX c) /\
  is_u64 (PUBLIC_INTEGRATED_ADDRESS_BASE58_PREFIX c).
Proof. intros H. destruct nt; try discriminate H; injection H as <-; cbn; width. Qed.

Section Theorems.
Context (cn_fast_hash : list Z -> list Z) (check_key : list Z -> bool).
Hypothesis cn_fast_hash_bytes :
  forall m, length (cn_fast_hash m) = 32%nat /\ Forall is_u8 (cn_fast_hash m).

(** (C39) On every network but stagenet, the text of an address (standard, subaddress or
    integrated with an 8-byte payment id) parses back to the same address, kind and
    payment id. *)
Theorem address_string_roundtrip nt adr pid :
  nt <> STAGENET -> nt <> UNDEFINED ->
  valid_address check_key adr -> length pid = 8%nat -> Forall is_u8 pid ->
  (forall sub, exists str, get_account_address_as_str cn_fast_hash nt sub adr = Some str /\
    get_account_address_from_str cn_fast_hash check_key nt str =
      Some (AddressParseInfo adr sub false None)) /\
  (exists str, get_account_integrated_address_as_str cn_fast_hash nt adr pid = Some str /\
    get_account_address_from_str cn_fast_hash check_key nt str =
      Some (AddressParseInfo adr false true (Some pid))).
Proof.
  intros Hs Hu Hadr Hl Hpid. pose proof (blob_bytes _ _ Hadr) as Hbb.
  pose proof Hadr as (_ & _ & _ & _ & Hck1 & Hck2).
  destruct (get_config nt) as [c|] eqn:Ec; [|by destruct nt].
  destruct (prefixes_u64 nt c Ec) as (P1 & P2 & P3).
  assert (PUBLIC_INTEGRATED_ADDRESS_BASE58_PREFIX c <> PUBLIC_ADDRESS_BASE58_PREFIX c /\
          PUBLIC_INTEGRATED_ADDRESS_BASE58_PREFIX c <> PUBLIC_SUBADDRESS_BASE58_PREFIX c /\
          PUBLIC_ADDRESS_BASE58_PREFIX c <> PUBLIC_SUBADDRESS_BASE58_PREFIX c) as (D1 & D2 & D3)
    by (destruct nt; try done; injection Ec as <-; done).
  unfold get_account_address_as_str, get_account_integrated_address_as_str,
    get_account_address_from_str. rewrite Ec. cbn [mbind option_bind].
  split.
  - intros sub.
    destruct (addr_roundtrip cn_fast_hash cn_fast_hash_bytes
      (if sub then PUBLIC_SUBADDRESS_BASE58_PREFIX c else PUBLIC_ADDRESS_BASE58_PREFIX c)
      (address_blob adr) ltac:(by destruct sub) Hbb) as (str & -> & Hdec).
    exists str. split; [done|]. rewrite Hdec. cbn [mbind option_bind].
    destruct sub; rewrite ?(proj2 (Z.eqb_neq _ _)) by congruence; rewrite Z.eqb_refl;
      cbn [mbind option_bind]; rewrite (parse_address_blob _ _ Hadr); cbn [mbind option_bind];
      by rewrite Hck1, Hck2.
  - destruct (addr_roundtrip cn_fast_hash cn_fast_hash_bytes
      (PUBLIC_INTEGRATED_ADDRESS_BASE58_PREFIX c) (integrated_blob adr pid) P3
      ltac:(by apply Forall_app)) as (str & -> & Hdec).
    exists str. split; [done|]. rewrite Hdec. cbn [mbind option_bind]. rewrite Z.eqb_refl.
    cbn [mbind option_bind]. rewrite (parse_integrated_blob _ _ _ Hadr Hl).
    cbn [mbind option_bind]. by rewrite Hck1, Hck2.
Qed.

(** On stagenet the three prefixes coincide and the integrated one is tried first, so no
    standard address or subaddress the node prints can be parsed back. *)
Theorem stagenet_addresses_unparseable sub adr :
  valid_address check_key adr ->
  exists str, get_account_address_as_str cn_fast_hash STAGENET sub adr = Some str /\
    get_account_address_from_str cn_fast_hash check_key STAGENET str = None.
Proof.
  intros Hadr. pose proof (blob_bytes _ _ Hadr) as Hbb.
  unfold get_account_address_as_str, get_account_address_from_str.
  cbn [get_config mbind option_bind].
  destruct (addr_roundtrip cn_fast_hash cn_fast_hash_bytes 1810100 (address_blob adr)
    ltac:(width) Hbb) as (str & He & Hdec).
  exists str. split; [by destruct sub|]. rewrite Hdec. cbn [mbind option_bind]. 
  change (PUBLIC_INTEGRATED_ADDRESS_BASE58_PREFIX stagenet_config =? 1810100) with true.
  cbn [mbind option_bind]. unfold parse_integrated. rewrite decide_False; [done|].
  destruct Hadr as (H1 & H2 & _). unfold address_blob. rewrite length_app. lia.
Qed.

End Theorems.

(** A hash and a key check to run the theorems on. *)
Definition demo_hash (m : list Z) : list Z := replicate 32 (u8 (load_le m)).
Definition demo_address : account_public_address :=
  AccountAddress (replicate 32 7) (replicate 32 9).

Lemma demo_hash_bytes m : length (demo_hash m) = 32%nat /\ Forall is_u8 (demo_hash m).
Proof. split; [done|]. apply Forall_replicate, u8_range. Qed.

Lemma demo_address_valid : valid_address (fun _ => true) demo_address.
Proof. repeat split; repeat (constructor; try width). Qed.

Lemma address_string_roundtrip_witness :
  exists str, get_account_address_as_str demo_hash MAINNET true demo_address = Some str /\
    get_account_address_from_str demo_hash (fun _ => true) MAINNET str =
      Some (AddressParseInfo demo_address true false None).
Proof.
  apply (address_string_roundtrip demo_hash (fun _ => true) demo_hash_bytes MAINNET demo_address
    (replicate 8 1)); [done|done|exact demo_address_valid|done|repeat (constructor; try width)].
Defined.

Lemma stagenet_addresses_unparseable_witness :
  exists str, get_account_address_as_str demo_hash STAGENET false demo_address = Some str /\
    get_account_address_from_str demo_hash (fun _ => true) STAGENET str = None.
Proof.
  apply (stagenet_addresses_unparseable demo_hash (fun _ => true) demo_hash_bytes false).
  exact demo_address_valid.
Defined.
