(* ===== verification/Double.v ===== *)
(** * IEEE double arithmetic and common/oxen.cpp

    The difficulty algorithm and an old block reward formula compute in [double].
    The program requires IEC 559 doubles and rounding to nearest, so [double] is
    the specification floats of the Standard Library at precision 53 and maximal
    exponent 1024: executable, and exact about rounding.  [oxen::round] and
    [oxen::exp2] are the program's own portable versions of [round] and [exp2]. *)
From S2P Require Import Prelude.
From Corelib Require Import SpecFloat.

Definition double := spec_float.
Definition DBL_MANT_DIG : Z := 53.
Definition DBL_MAX_EXP : Z := 1024.
Definition DBL_MIN_EXP : Z := -1021.

Definition dadd : double -> double -> double := SFadd DBL_MANT_DIG DBL_MAX_EXP.
Definition dsub : double -> double -> double := SFsub DBL_MANT_DIG DBL_MAX_EXP.
Definition dmul : double -> double -> double := SFmul DBL_MANT_DIG DBL_MAX_EXP.
Definition ddiv : double -> double -> double := SFdiv DBL_MANT_DIG DBL_MAX_EXP.
Definition dlt : double -> double -> bool := SFltb.

(** Conversion of an integer, rounding to nearest even. *)
Definition of_Z (x : Z) : double := binary_normalize DBL_MANT_DIG DBL_MAX_EXP x 0 false.

(** The decimal literal [m * 10^-k]: 200 fractional bits and a sticky bit decide the
    rounding. *)
Definition dec (m k : Z) : double :=
  let n := m * 2 ^ 200 in
  let q := n / 10 ^ k in
  let sticky := if n mod 10 ^ k =? 0 then 0 else 1 in
  binary_normalize DBL_MANT_DIG DBL_MAX_EXP (2 * q + sticky) (-201) false.

(** Conversion to an integer truncates; a value that is not finite has none. *)
Definition trunc (x : double) : option Z :=
  match x with
  | S754_zero _ => Some 0
  | S754_finite s m e =>
      let a := if 0 <=? e then Z.pos m * 2 ^ e else Z.pos m / 2 ^ (- e) in
      Some (if s then - a else a)
  | _ => None
  end.

(** [static_cast<uint64_t>], [static_cast<int64_t>]: undefined ([None]) when the
    truncated value does not fit. *)
Definition to_uint64 (x : double) : option Z :=
  z ← trunc x; if (0 <=? z) && (z <=? UINT64_MAX) then Some z else None.
Definition to_int64 (x : double) : option Z :=
  z ← trunc x;
  if (-9223372036854775808 <=? z) && (z <=? 9223372036854775807) then Some z else None.

(** [static constexpr double TWO_MANT_DIG], 2^52. *)
Definition TWO_MANT_DIG : double := of_Z (2 ^ 52).
Definition half : double := dec 5 1.

(** [oxen::round]: to nearest, ties away from zero. *)
Definition round (x : double) : double :=
  let y := x in
  let z := y in
  if dlt (S754_zero false) z then
    if dlt z half then S754_zero false
    else if dlt z TWO_MANT_DIG then
      let z := dadd z half in
      let y := z in
      let z := dadd z TWO_MANT_DIG in
      let z := dsub z TWO_MANT_DIG in
      if dlt y z then dsub z (of_Z 1) else z
    else z
  else if dlt z (S754_zero false) then
    if dlt (SFopp half) z then S754_zero true
    else if dlt (SFopp TWO_MANT_DIG) z then
      let z := dsub z half in
      let y := z in
      let z := dsub z TWO_MANT_DIG in
      let z := dadd z TWO_MANT_DIG in
      if dlt z y then dadd z (of_Z 1) else z
    else z
  else z.

(** [exp_table[i] = exp((i - 128) * log(2) / 256)]. *)
Definition exp_table_lo : list double := [
  dec 707106781186547524400844362104849039284 39;
  dec 709023942160207598920563322257676190836 39;
  dec 710946301084582779904674297352120049962 39;
  dec 71287387205274715340350157671438300618 38;
  dec 714806669195985005617532889137569953044 39;
  dec 71674470668389442125974978427737336719 38;
  dec 71868799872449116280161304224785251353 38;
  dec 720636559564312831364255957304947586072 39;
  dec 72259040348852331001850312073583545284 38;
  dec 724549544821017490259402705487111270714 39;
  dec 726513997924526282423036245842287293786 39;
  dec 728483777200721910815451524818606761737 39;
  dec 730458897090323494325651445155310766577 39;
  dec 732439372073202913296664682112279175616 39;
  dec 734425216668490963430822513132890712652 39;
  dec 736416445434683797507470506133110286942 39;
  dec 738413072969749655693453740187024961962 39;
  dec 740415113911235885228829945155951253966 39;
  dec 742422582936376250272386395864403155277 39;
  dec 744435494762198532693663597314273242753 39;
  dec 746453864145632424600321765743336770838 39;
  dec 748477705883617713391824861712720862423 39;
  dec 750507034813212760132561481529764324813 39;
  dec 752541865811703272039672277899716132493 39;
  dec 75458221379671136988300977551659676571 38;
  dec 756628093726304951096818488157633113612 39;
  dec 75867952059910734940489114658718937343 38;
  dec 760736509454407291763130627098242426467 39;
  dec 762799075372269153425626844758470477304 39;
  dec 76486723347364351194254345936342587308 38;
  dec 766940998920478000900300751753859329456 39;
  dec 769020386915828464216738479594307884331 39;
  dec 771105412703970411806145931045367420652 39;
  dec 773196091570510777431255778146135325272 39;
  dec 77529243884249997956151370535341912283 38;
  dec 777394469888544286059157168801667390437 39;
  dec 779502200118918483516864044737428940745 39;
  dec 781615644985678852072965367573877941354 39;
  dec 783734819982776446532455855478222575498 39;
  dec 78585974064617068462428149076570281356 38;
  dec 787990422553943243227635080090952504452 39;
  dec 790126881326412263402248482007960521995 39;
  dec 79226913262624686505993407346567890838 38;
  dec 794417192158581972116898048814333564685 39;
  dec 796571075671133448968624321559534367934 39;
  dec 798730798954313549131410147104316569576 39;
  dec 800896377841346676896923120795476813684 39;
  dec 803067828208385462848443946517563571584 39;
  dec 805245165974627154089760333678700291728 39;
  dec 807428407102430320039984581575729114268 39;
  dec 809617567597431874649880866726368203972 39;
  dec 81181266350866441589760797777344082227 38;
  dec 814013710928673883424109261007007338614 39;
  dec 816220725993637535170713864466769240053 39;
  dec 818433724883482243883852017078007231025 39;
  dec 82065272382200311435413206848451310067 38;
  dec 822877739076982422259378362362911222833 39;
  dec 825108786960308875483586738272485101678 39;
  dec 827345883828097198786118571797909120834 39;
  dec 829589046080808042697824787210781231927 39;
  dec 831838290163368217523168228488195222638 39;
  dec 834093632565291253329796170708536192903 39;
  dec 836355089820798286809404612069230711295 39;
  dec 83862267850893927589613232455870870518 38;
  dec 84089641525371454303112547623321489504 38;
  dec 84317631672419664796432298771385230143 38;
  dec 84546239963465259098692866759361830709 38;
  dec 84775468074466634749045860363936420312 38;
  dec 850053176859261734750681286748751167545 39;
  dec 852357904829025611837203530384718316326 39;
  dec 854668881550231413551897437515331498025 39;
  dec 856986123964963019301812477839166009452 39;
  dec 859309649061238957814672188228156252257 39;
  dec 861639473873136948607517116872358729753 39;
  dec 863975615480918781121524414614366207052 39;
  dec 866318091011155532438509953514163469652 39;
  dec 868666917636853124497101040936083380124 39;
  dec 871022112577578221729056715595464682243 39;
  dec 873383693099584470038708278290226842228 39;
  dec 875751676515939078050995142767930296012 39;
  dec 878126080186649741556080309687656610647 39;
  dec 880506921518791912081045787323636256171 39;
  dec 882894217966636410521691124969260937028 39;
  dec 885287987031777386769987907431242017412 39;
  dec 88768824626326062627527960009966160388 38;
  dec 89009501325771220447985955243623523504 38;
  dec 892508305659467490072110281986409916153 39;
  dec 8949281411607004980029443898876582985 37;
  dec 897354537501553593213851621063890907178 39;
  dec 899787512470267546027427696662514569756 39;
  dec 902227083903311940153838631655504844215 39;
  dec 904673269685515934269259325789226871994 39;
  dec 907126087750199378124917300181170171233 39;
  dec 909585556079304284147971563828178746372 39;
  dec 91205169270352665549806275316460097744 38;
  dec 914524515702448671545983912696158354092 39;
  dec 91700404320467123174354159479414442804 38;
  dec 919490293387946858856304371174663918816 39;
  dec 921983284479312962533570386670938449637 39;
  dec 92448303475522546419252726694739603678 38;
  dec 92698956254169278419622653516884831976 38;
  dec 929502886214410192307650717745572682403 39;
  dec 932023024198894522404814545597236289343 39;
  dec 934549994970619252444512104439799143264 39;
  dec 93708381705514995066499947497722326722 38;
  dec 93962450902828008902058735120448448827 38;
  dec 942172089516167224843810351983745154882 39;
  dec 944726577195469551733539267378681531548 39;
  dec 947287990793482820670109326713462307376 39;
  dec 949856349088277632361251759806996099924 39;
  dec 952431670908837101825337466217860725517 39;
  dec 955013975135194896221170529572799135168 39;
  dec 957603280698573646936305635147915443924 39;
  dec 960199606581523736948607188887070611744 39;
  dec 962802971818062464478519115091191368377 39;
  dec 965413395493813583952272948264534783197 39;
  dec 968030896746147225299027952283345762418 39;
  dec 970655494764320192607710617437589705184 39;
  dec 973287208789616643172102023321302921373 39;
  dec 97592605811548914795551023340047499377 38;
  dec 978572062087700134509161125813435745597 39;
  dec 981225240104463713381244885057070325016 39;
  dec 983885611616587889056366801238014683926 39;
  dec 98655319612761715646797006813220671315 38;
  dec 989228013193975484129124959065583667775 39;
  dec 99191008242510968492991311132615581644 38;
  dec 994599423483633175652477686222166314457 39;
  dec 997296056085470126257659913847922601123 39
].

Definition exp_table_hi : list double := [
  dec 10 1;
  dec 100271127505020248543074558845036204047 38;
  dec 10054299011128028213513839559347998147 37;
  dec 1008155898118417515783094890817201039276 39;
  dec 101088928605170046002040979056186052439 38;
  dec 1013630084951489438840258929063939929597 39;
  dec 101637831491095303794049311378629406276 38;
  dec 10191339960777379496848780958207928794 37;
  dec 102189714865411667823448013478329943978 38;
  dec 102466779289713564514828907627081492763 38;
  dec 10274459491187636965388611939222137815 37;
  dec 1030231637686041012871707902453904567093 39;
  dec 1033024879021228422500108283970460918086 39;
  dec 1035825693601957120029983209018081371844 39;
  dec 103863410196137879061243669795463973258 38;
  dec 104145012468831614126454607901189312648 38;
  dec 1044273782427413840321966478739929008784 39;
  dec 104710509587928986612990725022711224056 38;
  dec 104994408580068726608203812651590790906 38;
  dec 105279077300462632711989120298074630319 38;
  dec 105564517836055715880834132515293865216 38;
  dec 1058507322794512690105772109683716645074 39;
  dec 1061377227289262080950567678003883726294 39;
  dec 106425491288446454978861125700158022068 38;
  dec 106714040067682361816952112099280916261 38;
  dec 10700337118202417735424119367576235685 37;
  dec 1072934867525975551385035450873827585343 39;
  dec 1075843889062791037803228648476057074063 39;
  dec 107876079775711979374068003743848295849 38;
  dec 1081685614993215201942115594422531125643 39;
  dec 108461836221330923781610517190661434161 38;
  dec 1087559060917769665346797830944039707867 39;
  dec 109050773266525765920701065576070797899 38;
  dec 109346439907288585422822014625044716208 38;
  dec 1096429081816376823386138295859248481766 39;
  dec 109940180263022198546369696823882990404 38;
  dec 110238258330784094355641420942564685751 38;
  dec 110537144570174125558827469625695031104 38;
  dec 1108368411723678638009423649426619850137 39;
  dec 1111373503344817603850149254228916637444 39;
  dec 11143867425958925363088129569196030678 37;
  dec 111740815156736919905457996308578026665 38;
  dec 112043775240960668442900387986631301277 38;
  dec 1123475567333019800733729739775321431954 39;
  dec 112652161860824189979479864378703477763 38;
  dec 1129575928566288145997264988840249825907 39;
  dec 113263851959871922798707372367762308438 38;
  dec 113570941415780551424039033067611701343 38;
  dec 113878863475669165370383028384151125472 38;
  dec 114187620396956162271229760828788093894 38;
  dec 114497214443180421939441388822291589579 38;
  dec 114807647884017900677879966269734268003 38;
  dec 115118922995298270581775963520198253612 38;
  dec 1154310420590216039548221528724806960684 39;
  dec 1157440073633751029613085766293796821106 39;
  dec 116057821202749874636945947257609098625 38;
  dec 116372485877757751381357359909218531234 38;
  dec 1166880036952481570555516298414089287834 39;
  dec 1170043769683250188080259035792738573 36;
  dec 117321608016363724753480435451324538889 38;
  dec 1176396991650281276284645728483848641054 39;
  dec 117958652746287594548610056676944051898 38;
  dec 1182784710984341029924457204693850757966 39;
  dec 118599156566099383137126564953421556374 38;
  dec 118920711500272106671749997056047591529 38;
  dec 119243138258315122214272755814543101148 38;
  dec 1195664392039827374583837049865451975705 39;
  dec 119890616707438048177030255797630020695 38;
  dec 1202156731452703142096396957497765876003 39;
  dec 1205416109005123825604211432558411335666 39;
  dec 1208684323626581577354792255889216998484 39;
  dec 121196139927680119446816891773249304545 38;
  dec 1215247359980468878116520251338798457624 39;
  dec 1218542229827408361758207148117394510724 39;
  dec 1221846032972757516903891841911570785836 39;
  dec 1225158793637145437709464594384845353707 39;
  dec 122848053610687000569400895779278184036 38;
  dec 12318112847340759358845566532127948166 37;
  dec 1235151063936933305692912507415415760294 39;
  dec 1238499898199816567833368865859612431545 39;
  dec 124185781207348404859367746872659560551 38;
  dec 124522483017525793277520496748615267417 38;
  dec 124860097718920473662176609730249554519 38;
  dec 125198627786631627006020603178920359732 38;
  dec 1255380757024691089579390657442301194595 39;
  dec 125878443954971644307786044181516261876 38;
  dec 126219735039425070801401025851841645967 38;
  dec 1265619514578806324196273999873453036296 39;
  dec 126905095719173322255441908103233800472 38;
  dec 127249170338940275123669204418460217677 38;
  dec 127594177839639210038120243475928938891 38;
  dec 127940120750566922691358797002785254596 38;
  dec 128287001607877828072666978102151405111 38;
  dec 1286348229546025533601482208069738348355 39;
  dec 128983587340666581223274729549155218968 38;
  dec 1293332973229089436725559789048704304684 39;
  dec 1296839554651009665933754117792451159835 39;
  dec 130035564337965065101414056707091779129 38;
  dec 130388126519193589857452364895199736833 38;
  dec 130741644593467724479715157747196172848 38;
  dec 1310961211524764341922991786330755849366 39;
  dec 1314515587949354658485983613383997794965 39;
  dec 1318079601266063994690185647066116617664 39;
  dec 132165327760315751432651181233060922616 38;
  dec 132523664315974129462953709549872167411 38;
  dec 132882972420595439547865089632866510792 38;
  dec 133243254708316144935164337949073577407 38;
  dec 133604513820414577344262790437186975929 38;
  dec 133966752405330300536003066972435257602 38;
  dec 134329973118683526382421714618163087542 38;
  dec 1346941786232945835788173713229537282075 39;
  dec 135059371589203439140852219606013396004 38;
  dec 135425554693689272829801474014070280434 38;
  dec 1357927306212901046494536695671766697446 39;
  dec 136160902063822475558553593883194147464 38;
  dec 136530071720401181543069836033754285543 38;
  dec 136900242297459061192960113298219283217 38;
  dec 137271416508766836928499785714471721579 38;
  dec 137643597075453010021632280551868696026 38;
  dec 1380167867260238095581945274358283464697 39;
  dec 1383909881963831954872659527265192818 36;
  dec 1387662042298529159042861017950775988896 39;
  dec 139142437577192618714983552956624344668 38;
  dec 1395196909966200178275574599249220994716 39;
  dec 1398979672538311140209528136715194969206 39;
  dec 140277269122020470637471352433337881711 38;
  dec 140657599381901544248361973255451684411 38;
  dec 1410389608217270704414375128268675481145 39;
  dec 141421356237309504880168872420969807857 38
].

Definition exp_table : list double := exp_table_lo ++ exp_table_hi.

Definition LOG2_BY_256 : double := dec 270760617406228636491106297444600221904 41.
Definition TANH_COEFF_1 : double := of_Z 1.
Definition TANH_COEFF_3 : double := SFopp (dec 333333333333333333333333333333333333334 39).
Definition TANH_COEFF_5 : double := dec 133333333333333333333333333333333333334 39.

Fixpoint times2 (n : nat) (ret : double) : double :=
  match n with O => ret | S n => times2 n (dmul ret (of_Z 2)) end.

(** [oxen::exp2]; [None] where a conversion to [int] is undefined. *)
Definition exp2 (x : double) : option double :=
  if dlt (of_Z DBL_MAX_EXP) x then Some (S754_infinity false)
  else if dlt x (of_Z (DBL_MIN_EXP - 1 - DBL_MANT_DIG)) then Some (S754_zero false)
  else
    let nm := round (dmul x (of_Z 256)) in
    let z := dmul (dsub (dmul x (of_Z 256)) nm) (dmul LOG2_BY_256 half) in
    let z2 := dmul z z in
    let tanh_z :=
      dmul (dadd (dmul (dadd (dmul TANH_COEFF_5 z2) TANH_COEFF_3) z2) TANH_COEFF_1) z in
    let exp_y := ddiv (dadd (of_Z 1) tanh_z) (dsub (of_Z 1) tanh_z) in
    n ← to_int64 (round (dmul nm (ddiv (of_Z 1) (of_Z 256))));
    nm_i ← to_int64 nm;
    let m := nm_i - 256 * n in
    t ← exp_table !! Z.to_nat (128 + m);
    Some (times2 (Z.to_nat n) (dmul t exp_y)).

(** The literals and operations on values with exact results. *)
Example exp2_exact :
  (fun x => y ← exp2 (of_Z x); trunc y) <$> [0; 1; 2; 3; 10; 40] =
  Some <$> [1; 2; 4; 8; 1024; 2 ^ 40].
Proof. vm_compute. reflexivity. Qed.

Example round_ties :
  trunc <$> (round <$> [dec 25 1; dec 35 1; SFopp (dec 25 1); dec 24999 4; half]) =
  Some <$> [3; 4; -3; 2; 1].
Proof. vm_compute. reflexivity. Qed.
