(* ===== verification/Difficulty.v ===== *)
(** * Proof-of-work checks and the difficulty algorithm

    [cryptonote_basic/difficulty.cpp]: whether a hash meets a difficulty, the sliding
    windows of timestamps and cumulative difficulties, the mode a height is in and
    the LWMA difficulty itself, in IEEE doubles.  Conversions of doubles that are
    undefined in C++ make the result [None]. *)
From S2P Require Import Prelude IntUtil Hardfork Double.
Import Int128.

(** ** [check_hash] *)

Definition cadd (a b : Z) : bool := u64 (a + b) <? a.

Definition cadc (a b : Z) (c : bool) : bool :=
  (u64 (a + b) <? a) || (c && (u64 (a + b) =? UINT64_MAX)).

(** The [i]-th little-endian 64-bit word of a hash. *)
Definition hash_word (hash : list Z) (i : nat) : Z := load_le (take 8 (drop (8 * i) hash)).

Definition check_hash (hash : list Z) (difficulty : Z) : bool :=
  let '(top, high) := mul128 (hash_word hash 3) difficulty in
  if negb (high =? 0) then false
  else
    let '(_, cur) := mul128 (hash_word hash 0) difficulty in
    let '(low, high) := mul128 (hash_word hash 1) difficulty in
    let carry := cadd cur low in
    let cur := high in
    let '(low, high) := mul128 (hash_word hash 2) difficulty in
    let carry := cadc cur low carry in
    let carry := cadc high top carry in
    negb carry.

(** ** Windows *)

Definition DIFFICULTY_WINDOW : Z := 59.

Definition DIFFICULTY_BLOCKS_COUNT (before_hf16 : bool) : Z :=
  if before_hf16 then DIFFICULTY_WINDOW + 2 else DIFFICULTY_WINDOW + 1.

(** [while (v.size() > n) v.erase(v.begin())]. *)
Fixpoint trim_front (n : Z) (v : list Z) : list Z :=
  match v with
  | [] => []
  | _ :: v' => if n <? Z.of_nat (length v) then trim_front n v' else v
  end.

Definition add_timestamp_and_difficulty (fk : list hard_fork) (nettype : network_type)
    (chain_height : Z) (timestamps difficulties : list Z)
    (timestamp cumulative_difficulty : Z) : list Z * list Z :=
  let timestamps := timestamps ++ [timestamp] in
  let difficulties := difficulties ++ [cumulative_difficulty] in
  let before_hf16 := negb (is_hard_fork_at_least fk nettype hf16_pulse chain_height) in
  (trim_front (DIFFICULTY_BLOCKS_COUNT before_hf16) timestamps,
   trim_front (DIFFICULTY_BLOCKS_COUNT before_hf16) difficulties).

(** ** The mode of a height *)

Inductive difficulty_calc_mode := use_old_lwma | hf12_override | hf16_override | devnet | normal.

Definition PULSE_FIXED_DIFFICULTY : Z := 1000000.
Definition DEVNET_DIFF_CAP : Z := 2000.

(** [height] lies in the window that starts at an optional height. *)
Definition in_window (start : option Z) (height : Z) : bool :=
  match start with
  | Some s => (s <=? height) && (height <=? u64 (s + DIFFICULTY_WINDOW))
  | None => false
  end.

Definition difficulty_mode (fk : list hard_fork) (nettype : network_type) (height : Z)
    : difficulty_calc_mode :=
  if match nettype with DEVNET | LOCALDEV | STAGENET => true | _ => false end then devnet
  else if negb (is_hard_fork_at_least fk nettype hf10_bulletproofs height) then use_old_lwma
  else if in_window (get_hard_fork_heights fk nettype hf12_checkpointing).1 height
  then hf12_override
  else if match nettype with MAINNET => true | _ => false end &&
          in_window (get_hard_fork_heights fk nettype hf16_pulse).1 height
  then hf16_override
  else normal.

(** ** [next_difficulty_v2] *)

(** [v.resize(n)]. *)
Definition resize (n : nat) (v : list Z) : list Z := take n v ++ replicate (n - length v) 0.

(** One iteration of the loop, on (LWMA, sum_inverse_D).  Reading past the end of a
    vector is undefined: [None]. *)
Definition lwma_step (mode : difficulty_calc_mode) (T : Z) (k : double)
    (timestamps difficulties : list Z) (st : option (double * double)) (i : nat)
    : option (double * double) :=
  '(LWMA, sum_inverse_D) ← st;
  t1 ← timestamps !! i;
  t0 ← timestamps !! (i - 1)%nat;
  let solveTime := s64 (s64 t1 - s64 t0) in
  let solveTime := match mode with
                   | use_old_lwma => Z.max solveTime (-7 * T)
                   | _ => solveTime
                   end in
  let solveTime := Z.min solveTime (T * 7) in
  d1 ← difficulties !! i;
  d0 ← difficulties !! (i - 1)%nat;
  let difficulty := u64 (d1 - d0) in
  Some (dadd LWMA (ddiv (of_Z (s64 (solveTime * Z.of_nat i))) k),
        dadd sum_inverse_D (ddiv (of_Z 1) (of_Z difficulty))).

Definition next_difficulty_v2 (timestamps cumulative_difficulties : list Z)
    (target_seconds : Z) (mode : difficulty_calc_mode) : option Z :=
  let T := s64 target_seconds in
  let W := Z.to_nat DIFFICULTY_WINDOW in
  if (length timestamps <? 4)%nat then Some 1
  else
    let '(N, timestamps, cumulative_difficulties) :=
      if (length timestamps - 1 <? W)%nat
      then ((length timestamps - 1)%nat, timestamps, cumulative_difficulties)
      else (W, resize (S W) timestamps, resize (S W) cumulative_difficulties) in
    let adjust := dec 998 3 in
    let k := of_Z (Z.of_nat (N * (N + 1) / 2)) in
    '(LWMA, sum_inverse_D) ←
      foldl (lwma_step mode T k timestamps cumulative_difficulties)
        (Some (SpecFloat.S754_zero false, SpecFloat.S754_zero false)) (seq 1 N);
    let harmonic_mean_D := ddiv (of_Z (Z.of_nat N)) sum_inverse_D in
    r ← to_int64 (round LWMA);
    let LWMA := if r <? Z.quot T 20 then of_Z (Z.quot T 20) else LWMA in
    let nextDifficulty := dmul (ddiv (dmul harmonic_mean_D (of_Z T)) LWMA) adjust in
    next_difficulty ← to_uint64 nextDifficulty;
    let next_difficulty := if next_difficulty =? 0 then 1 else next_difficulty in
    Some match mode with
         | devnet => Z.min next_difficulty DEVNET_DIFF_CAP
         | hf12_override => Z.min next_difficulty (u64 (30000000 * target_seconds))
         | hf16_override => Z.min next_difficulty PULSE_FIXED_DIFFICULTY
         | _ => next_difficulty
         end.

(** ** [check_hash] is a 320-bit comparison *)

Lemma mul128_total a b : 0 <= a < 2 ^ 64 -> 0 <= b < 2 ^ 64 ->
  let '(lo, hi) := mul128 a b in
  a * b = lo + hi * 2 ^ 64 /\ 0 <= lo < 2 ^ 64 /\ 0 <= hi < 2 ^ 64.
Proof.
  intros Ha Hb. unfold mul128, u64. rewrite Z.shiftr_div_pow2 by lia.
  assert (0 <= a * b < 2 ^ 64 * 2 ^ 64) as Hp by (clear - Ha Hb; nia).
  set (p := a * b) in *. clearbody p. clear - Hp.
  assert (0 <= p / 2 ^ 64 < 2 ^ 64).
  { split; [apply Z.div_pos; lia|]. apply Z.div_lt_upper_bound; lia. }
  change 18446744073709551616 with (2 ^ 64).
  rewrite (Z.mod_small (p / 2 ^ 64)) by done. pose proof (Z.mod_pos_bound p (2 ^ 64)).
  pose proof (Z.div_mod p (2 ^ 64)). lia.
Qed.

Lemma cadd_spec a b : is_u64 a -> is_u64 b -> cadd a b = (2 ^ 64 <=? a + b).
Proof.
  intros Ha Hb. unfold cadd, u64. change (2 ^ 64) with 18446744073709551616.
  apply eq_true_iff_eq. rewrite Z.ltb_lt, Z.leb_le. width.
Qed.

Lemma cadc_spec a b c :
  is_u64 a -> is_u64 b -> cadc a b c = (2 ^ 64 <=? a + b + (if c then 1 else 0)).
Proof.
  intros Ha Hb. unfold cadc, u64, UINT64_MAX. change (2 ^ 64) with 18446744073709551616.
  apply eq_true_iff_eq. rewrite orb_true_iff, andb_true_iff, Z.ltb_lt, Z.leb_le, Z.eqb_eq.
  destruct c; width.
Qed.

Lemma hash_words hash :
  Forall is_u8 hash -> length hash = 32%nat ->
  load_le hash = hash_word hash 0 + 2 ^ 64 * hash_word hash 1 + 2 ^ 128 * hash_word hash 2
                 + 2 ^ 192 * hash_word hash 3 /\
  forall i, 0 <= hash_word hash i < 2 ^ 64.
Proof.
  intros Hb Hl. split.
  - unfold hash_word. cbn [Nat.mul Nat.add]. rewrite drop_0.
    rewrite <- (take_drop 8 hash) at 1. rewrite load_le_app.
    rewrite <- (take_drop 8 (drop 8 hash)) at 1. rewrite load_le_app, drop_drop.
    rewrite <- (take_drop 8 (drop (8 + 8) hash)) at 1. rewrite load_le_app, drop_drop.
    rewrite (take_ge (drop (8 + 8 + 8) hash)) by (rewrite length_drop; lia).
    rewrite !length_take, !length_drop, Hl. cbn [Nat.min Nat.sub Nat.add Nat.mul]. lia.
  - intros i. unfold hash_word.
    pose proof (load_le_bound (take 8 (drop (8 * i) hash)) ltac:(auto using Forall_take, Forall_drop))
      as Hbd. split; [lia|]. eapply Z.lt_le_trans; [apply Hbd|].
    change (2 ^ 64) with (256 ^ 8). apply Z.pow_le_mono_r; [lia|]. rewrite length_take. lia.
Qed.

(** [check_hash] accepts exactly the hashes whose little-endian value times the
    difficulty is below 2^256, as its documentation states: the four 128-bit
    products and the carry chain compute the 320-bit comparison exactly. *)
Theorem check_hash_exact hash difficulty :
  Forall is_u8 hash -> length hash = 32%nat -> is_u64 difficulty ->
  check_hash hash difficulty = true <-> load_le hash * difficulty < 2 ^ 256.
Proof.
  intros Hb Hl Hd. destruct (hash_words hash Hb Hl) as [-> Hw].
  assert (0 <= difficulty < 2 ^ 64) as Hd' by width. clear Hd.
  unfold check_hash.
  pose proof (mul128_total _ difficulty (Hw 3%nat) Hd') as H3.
  destruct (mul128 (hash_word hash 3) difficulty) as [top hi3]. 
  pose proof (mul128_total _ difficulty (Hw 0%nat) Hd') as H0.
  destruct (mul128 (hash_word hash 0) difficulty) as [lo0 hi0].
  pose proof (mul128_total _ difficulty (Hw 1%nat) Hd') as H1.
  destruct (mul128 (hash_word hash 1) difficulty) as [lo1 hi1].
  pose proof (mul128_total _ difficulty (Hw 2%nat) Hd') as H2.
  destruct (mul128 (hash_word hash 2) difficulty) as [lo2 hi2].
  rewrite !Z.mul_add_distr_r, <- !Z.mul_assoc.
  destruct H0 as (-> & ? & ?), H1 as (-> & ? & ?), H2 as (-> & ? & ?), H3 as (-> & ? & ?).
  clear Hw Hd' Hb Hl.
  destruct (Z.eqb_spec hi3 0) as [->|Hne]; cbn [negb]; cbv iota.
  - rewrite !cadc_spec, cadd_spec by width.
    destruct (Z.leb_spec (2 ^ 64) (hi0 + lo1));
    match goal with |- context [2 ^ 64 <=? hi1 + lo2 + ?x] =>
      destruct (Z.leb_spec (2 ^ 64) (hi1 + lo2 + x)) end;
    match goal with |- context [2 ^ 64 <=? hi2 + top + ?x] =>
      destruct (Z.leb_spec (2 ^ 64) (hi2 + top + x)) end;
    cbn [negb]; split; intros; try lia; done.
  - split; [done|]. intros. exfalso. lia.
Qed.

Lemma check_hash_exact_witness :
  check_hash (replicate 31 255 ++ [0]) 256 = true /\
  load_le (replicate 31 255 ++ [0]) * 256 < 2 ^ 256.
Proof.
  assert (Forall is_u8 (replicate 31 255 ++ [0])) as Hb
    by (apply Forall_app; split; [apply Forall_replicate; width|repeat constructor; width]).
  assert (check_hash (replicate 31 255 ++ [0]) 256 = true) as H by (vm_compute; reflexivity).
  split; [exact H|].
  apply (check_hash_exact (replicate 31 255 ++ [0]) 256); [exact Hb|reflexivity|width|exact H].
Defined.

(** ** Windows and modes *)

Lemma trim_front_spec n v :
  0 <= n -> trim_front n v = drop (length v - Z.to_nat n) v.
Proof.
  intros Hn. induction v as [|x v IH]; [by rewrite drop_nil|]. cbn [trim_front].
  destruct (Z.ltb_spec n (Z.of_nat (length (x :: v)))) as [H|H]; cbv iota; cbn [length] in H |- *.
  - rewrite IH. replace (S (length v) - Z.to_nat n)%nat with (S (length v - Z.to_nat n)) by lia.
    done.
  - by replace (S (length v) - Z.to_nat n)%nat with 0%nat by lia.
Qed.

(** Adding a block keeps the two windows aligned and bounded: both end with the new
    entry, keep the most recent entries in order and hold at most 61 entries before
    Pulse and 60 afterwards. *)
Theorem difficulty_window fk nt h timestamps difficulties t d :
  length timestamps = length difficulties ->
  let '(ts, ds) := add_timestamp_and_difficulty fk nt h timestamps difficulties t d in
  let cap := if is_hard_fork_at_least fk nt hf16_pulse h then 60%nat else 61%nat in
  length ts = length ds /\ (length ts <= cap)%nat /\
  last ts = Some t /\ last ds = Some d /\
  (exists old, timestamps ++ [t] = old ++ ts) /\
  (length timestamps < cap -> ts = timestamps ++ [t])%nat.
Proof.
  intros Hl. unfold add_timestamp_and_difficulty. set (b := is_hard_fork_at_least _ _ _ _).
  assert (exists k, (k = 60 \/ k = 61)%nat /\ k = (if b then 60 else 61)%nat /\
    DIFFICULTY_BLOCKS_COUNT (negb b) = Z.of_nat k) as (k & Hk & Eb & ->).
  { destruct b; [exists 60%nat|exists 61%nat]; repeat split; auto. }
  rewrite !trim_front_spec, Nat2Z.id, !length_app, Hl by lia. cbn [length]. rewrite <- Eb.
  assert (forall (l : list Z) x n, (n <= length l)%nat -> last (drop n (l ++ [x])) = Some x) as Hlast.
  { intros l x n Hn. rewrite drop_app_le by lia. apply last_snoc. }
  rewrite !length_drop, !length_app, Hl. cbn [length].
  repeat split; try lia.
  - apply Hlast. lia.
  - apply Hlast. lia.
  - exists (take (length difficulties + 1 - k) (timestamps ++ [t])). symmetry. apply take_drop.
  - intros Hlt. by replace (length difficulties + 1 - k)%nat with 0%nat by lia.
Qed.

Lemma difficulty_window_witness :
  let '(ts, ds) := add_timestamp_and_difficulty [] MAINNET 800 (Z.of_nat <$> seq 0 60)
                     (Z.of_nat <$> seq 100 60) 60 160 in
  length ts = length ds /\ (length ts <= 60)%nat.
Proof.
  pose proof (difficulty_window [] MAINNET 800 (Z.of_nat <$> seq 0 60) (Z.of_nat <$> seq 100 60)
    60 160 eq_refl) as H.
  destruct (add_timestamp_and_difficulty _ _ _ _ _ _ _) as [ts ds].
  destruct H as (H1 & H2 & _). split; [exact H1|exact H2].
Defined.

(** On mainnet the difficulty overrides cover exactly the first difficulty window
    after RandomX (heights 3 to 62) and after Pulse (750 to 809); below height 2 the
    old LWMA is used and everywhere else the normal mode. *)
Theorem mainnet_difficulty_modes fk h :
  0 <= h ->
  difficulty_mode fk MAINNET h =
    if h <? 2 then use_old_lwma
    else if (3 <=? h) && (h <=? 62) then hf12_override
    else if (750 <=? h) && (h <=? 809) then hf16_override
    else normal.
Proof.
  intros Hh. unfold difficulty_mode. cbv iota.
  assert (is_hard_fork_at_least fk MAINNET hf10_bulletproofs h = (2 <=? h)) as ->.
  { apply eq_true_iff_eq.
    rewrite hard_fork_begins_iff by (done || by apply compiled_schedule_ok).
    change (hard_fork_begins fk MAINNET hf10_bulletproofs) with (Some 2).
    rewrite Z.leb_le. split; [intros (b & [= <-] & ?); lia|eauto]. }
  change (get_hard_fork_heights fk MAINNET hf12_checkpointing).1 with (Some 3).
  change (get_hard_fork_heights fk MAINNET hf16_pulse).1 with (Some 750).
  unfold in_window, DIFFICULTY_WINDOW. rewrite !u64_small by width. cbn [andb Z.add].
  change (3 + 59) with 62. change (750 + 59) with 809.
  destruct (Z.ltb_spec h 2), (Z.leb_spec 2 h); try lia; reflexivity.
Qed.

Lemma mainnet_difficulty_modes_witness : difficulty_mode [] MAINNET 809 = hf16_override.
Proof. rewrite (mainnet_difficulty_modes [] 809 ltac:(lia)). reflexivity. Defined.

(** (C40) A computed difficulty is never zero and never wraps, and the overriding modes
    cap it: at most 2000 on the development networks, at most the fixed Pulse
    difficulty in the window after Pulse. *)
Theorem next_difficulty_bounds ts ds T mode d :
  0 < T -> T < 2 ^ 32 -> next_difficulty_v2 ts ds T mode = Some d ->
  1 <= d <= UINT64_MAX /\
  (mode = devnet -> d <= DEVNET_DIFF_CAP) /\
  (mode = hf16_override -> d <= PULSE_FIXED_DIFFICULTY) /\
  (mode = hf12_override -> d <= 30000000 * T).
Proof.
  intros HT HT2. unfold next_difficulty_v2. case_match.
  { intros [= <-]. unfold UINT64_MAX, DEVNET_DIFF_CAP, PULSE_FIXED_DIFFICULTY. lia. }
  destruct (if (_ <? _)%nat then _ else _) as [[N ts'] ds'].
  destruct (foldl _ _ _) as [[L S]|]; [|done]. cbn [mbind option_bind].
  destruct (to_int64 _) as [r|]; [|done]. cbn [mbind option_bind].
  destruct (to_uint64 _) as [nd|] eqn:E; [|done]. cbn [mbind option_bind]. intros [= <-].
  assert (0 <= nd <= UINT64_MAX) as Hnd.
  { unfold to_uint64 in E. destruct (trunc _) as [z|]; [|done]. cbn in E.
    destruct (_ && _) eqn:E2 in E; [|done]. injection E as <-. bool_hyps. lia. }
  assert (1 <= (if nd =? 0 then 1 else nd) <= UINT64_MAX) as Hnd'
    by (unfold UINT64_MAX in *; destruct (Z.eqb_spec nd 0); lia).
  unfold DEVNET_DIFF_CAP, PULSE_FIXED_DIFFICULTY.
  rewrite (u64_small (30000000 * T)) by width.
  destruct mode; repeat split; try discriminate; lia.
Qed.

(** Sixty blocks at exactly the target rate and a constant difficulty of 1000 give the
    difficulty back, less the 0.2% adjustment and rounded down. *)
Lemma next_difficulty_bounds_witness :
  next_difficulty_v2 ((fun i => 120 * Z.of_nat i) <$> seq 1 60)
    ((fun i => 1000 * Z.of_nat i) <$> seq 1 60) 120 normal = Some 997 /\ 1 <= 997.
Proof.
  assert (next_difficulty_v2 ((fun i => 120 * Z.of_nat i) <$> seq 1 60)
    ((fun i => 1000 * Z.of_nat i) <$> seq 1 60) 120 normal = Some 997) as H
    by (vm_compute; reflexivity).
  split; [exact H|].
  destruct (next_difficulty_bounds _ _ 120 normal 997 ltac:(lia) ltac:(lia) H) as [[Hd _] _].
  exact Hd.
Defined.
