(* ===== verification/Reward.v ===== *)
(** * Block reward

    [oxen_economy.h] (the emission constants) and the reward part of
    [cryptonote_basic/cryptonote_basic_impl.cpp]: the emission formulas by hard fork
    and the quadratic penalty on blocks heavier than the median. *)
From S2P Require Import Prelude IntUtil Hardfork Double.
Import Int128.

Definition COIN : Z := 1000000000.
Definition EMISSION_LINEAR_BASE : Z := Z.shiftl 1 61.
Definition EMISSION_SUPPLY_MULTIPLIER : Z := 19.
Definition EMISSION_SUPPLY_DIVISOR : Z := 10.
Definition EMISSION_DIVISOR : Z := 2000000.

Definition BLOCK_REWARD_HF15 : Z := 25 * COIN.
Definition MINER_REWARD_HF15 : Z := BLOCK_REWARD_HF15 * 24 / 100.
Definition SN_REWARD_HF15 : Z := BLOCK_REWARD_HF15 * 66 / 100.
Definition FOUNDATION_REWARD_HF15 : Z := BLOCK_REWARD_HF15 * 10 / 100.
Definition BLOCK_REWARD_HF16 : Z := BLOCK_REWARD_HF15.
Definition CHAINFLIP_LIQUIDITY_HF16 : Z := BLOCK_REWARD_HF15 * 24 / 100.
Definition BLOCK_REWARD_HF17 : Z := 18333333333.
Definition FOUNDATION_REWARD_HF17 : Z := 1833333333.
Definition SN_REWARD_HF19 : Z := 8250000000.
Definition FOUNDATION_REWARD_HF19 : Z := 12400000000.
Definition BLOCK_REWARD_HF19 : Z := SN_REWARD_HF19 + FOUNDATION_REWARD_HF19.

Definition BLOCK_GRANTED_FULL_REWARD_ZONE_V5 : Z := 300000.

Definition get_min_block_weight (version : hf) : Z := BLOCK_GRANTED_FULL_REWARD_ZONE_V5.

Definition block_reward_unpenalized_formula_v7 (already_generated_coins height : Z) : Z :=
  let emission_supply_component :=
    u64 (already_generated_coins * EMISSION_SUPPLY_MULTIPLIER) / EMISSION_SUPPLY_DIVISOR in
  let result := u64 (EMISSION_LINEAR_BASE - emission_supply_component) / EMISSION_DIVISOR in
  if EMISSION_LINEAR_BASE <? emission_supply_component then 0 else result.

(** [None]: a conversion to [uint64_t] that C++ leaves undefined. *)
Definition block_reward_unpenalized_formula_v8 (height : Z) : option Z :=
  e ← exp2 (ddiv (of_Z height) (dmul (of_Z 720) (of_Z 90)));
  to_uint64 (dadd (of_Z 28000000000) (ddiv (of_Z 100000000000) e)).

(** The base reward of a height, before the weight penalty. *)
Definition base_reward_of (version : hf) (already_generated_coins height : Z) : option Z :=
  if hf19_reward_batching <=? version then Some BLOCK_REWARD_HF19
  else if hf17 <=? version then Some BLOCK_REWARD_HF17
  else if hf15_ons <=? version then Some BLOCK_REWARD_HF15
  else if hf8 <=? version then block_reward_unpenalized_formula_v8 height
  else Some (block_reward_unpenalized_formula_v7 already_generated_coins height).

(** What [get_base_block_reward] leaves in its two out parameters; [None] for one it
    does not assign. *)
Record reward_out := RewardOut { reward : Z; reward_unpenalized : option Z }.

Inductive reward_result :=
  | RewardUndefined
  | RewardRefused
  | RewardOk (out : reward_out).

Definition get_base_block_reward (median_weight current_block_weight already_generated_coins : Z)
    (version : hf) (height : Z) : reward_result :=
  if already_generated_coins =? 0 then RewardOk (RewardOut 276786541324700000 None)
  else
    match base_reward_of version already_generated_coins height with
    | None => RewardUndefined
    | Some base_reward =>
        let full_reward_zone := get_min_block_weight version in
        let median_weight :=
          if median_weight <? full_reward_zone then full_reward_zone else median_weight in
        if current_block_weight <=? median_weight then
          RewardOk (RewardOut base_reward (Some base_reward))
        else if u64 (2 * median_weight) <? current_block_weight then RewardRefused
        else
          let multiplicand := u64 (u64 (2 * median_weight) - current_block_weight) in
          let multiplicand := u64 (multiplicand * current_block_weight) in
          let '(product_lo, product_hi) := mul128 base_reward multiplicand in
          let '(reward_hi, reward_lo) := div128_32 product_hi product_lo (u32 median_weight) in
          let '(reward_hi, reward_lo) := div128_32 reward_hi reward_lo (u32 median_weight) in
          RewardOk (RewardOut reward_lo (Some base_reward))
    end.

(** ** Lemmas *)

(** Splitting a 128-bit product and dividing it again loses nothing while the quotient
    fits. *)
Lemma div128_32_of_words hi lo d :
  is_u64 hi -> is_u64 lo -> 0 < d ->
  let q := (hi * 2 ^ 64 + lo) / d in
  div128_32 hi lo d = (q / 2 ^ 64, q mod 2 ^ 64).
Proof.
  intros Hh Hl Hd q. unfold div128_32.
  rewrite lor_shiftl_add by width. fold q. unfold u64.
  change 18446744073709551616 with (2 ^ 64). rewrite Z.shiftr_div_pow2 by lia.
  rewrite (Z.mod_small (q / 2 ^ 64)); [done|].
  assert (0 <= q) by (apply Z.div_pos; width).
  assert (q <= hi * 2 ^ 64 + lo) by (apply Z.div_le_upper_bound; [lia|]; width || (clear - Hd Hh Hl; unfold is_u64 in *; nia)).
  split; [apply Z.div_pos; lia|]. apply Z.div_lt_upper_bound; [lia|]. width.
Qed.

Lemma mul128_words a b :
  is_u64 a -> is_u64 b -> mul128 a b = ((a * b) mod 2 ^ 64, a * b / 2 ^ 64).
Proof.
  intros Ha Hb. unfold mul128, u64. change 18446744073709551616 with (2 ^ 64).
  rewrite Z.shiftr_div_pow2 by lia. rewrite (Z.mod_small (a * b / 2 ^ 64)); [done|].
  assert (0 <= a * b < 2 ^ 64 * 2 ^ 64) as Hp by (unfold is_u64 in *; clear - Ha Hb; nia).
  split; [apply Z.div_pos; lia|]. apply Z.div_lt_upper_bound; lia.
Qed.

(** The penalised reward as two floor divisions, and the two [assert]s: the high word
    is 0 and the penalised reward is below the base reward. *)
Definition penalised (base M B : Z) : Z := base * ((2 * M - B) * B) / M / M.

Lemma penalised_bounds base M B :
  0 < base -> 0 < M -> M < B <= 2 * M -> 0 <= penalised base M B < base.
Proof.
  intros Hb HM HB. unfold penalised. rewrite Z.div_div by lia.
  assert (0 <= (2 * M - B) * B < M * M) as Hm by nia.
  set (k := (2 * M - B) * B) in *. clearbody k.
  split; [apply Z.div_pos; nia|]. apply Z.div_lt_upper_bound; nia.
Qed.

Lemma penalty_words base M B :
  is_u64 base -> 0 < base -> 0 < M < 2 ^ 32 -> M < B <= 2 * M ->
  let '(product_lo, product_hi) := mul128 base ((2 * M - B) * B) in
  let '(hi, lo) := div128_32 product_hi product_lo M in
  div128_32 hi lo M = (0, penalised base M B).
Proof.
  intros Hb Hb0 HM HB.
  assert (0 <= (2 * M - B) * B < M * M) as Hk by nia.
  assert (M * M < 2 ^ 64) as HMM by nia.
  pose proof (penalised_bounds base M B Hb0 ltac:(lia) HB) as Hpen. unfold penalised in *.
  set (k := (2 * M - B) * B) in *. clearbody k.
  rewrite mul128_words by width.
  assert (0 <= base * k < 2 ^ 64 * 2 ^ 64) as Hp by (unfold is_u64 in *; nia).
  set (p := base * k) in *. clearbody p.
  assert (forall x, 0 <= x < 2 ^ 64 * 2 ^ 64 -> is_u64 (x / 2 ^ 64) /\ is_u64 (x mod 2 ^ 64)) as Hw.
  { intros x Hx. pose proof (Z.mod_pos_bound x (2 ^ 64)). split; [|width].
    split; [apply Z.div_pos; lia|]. apply Z.div_lt_upper_bound; lia. }
  assert (forall x, x / 2 ^ 64 * 2 ^ 64 + x mod 2 ^ 64 = x) as Hj
    by (intros x; pose proof (Z.div_mod x (2 ^ 64)); lia).
  rewrite div128_32_of_words by (apply Hw || lia; done). rewrite Hj.
  assert (0 <= p / M <= p) as Hq.
  { split; [apply Z.div_pos; lia|]. apply Z.div_le_upper_bound; nia. }
  rewrite div128_32_of_words by (apply Hw || lia; lia). rewrite Hj.
  rewrite Z.div_small, Z.mod_small by width. done.
Qed.

(** (C38) Every branch of the block reward once coins exist: a block up to the median
    weight (at least 300,000) earns the base reward; one over twice the median is
    refused; in between the reward is base * (2M - B) * B / M / M exactly, computed
    without loss in 128 bits, and lies strictly below the base reward. *)
Theorem block_reward_penalty median B coins version h base :
  coins <> 0 -> base_reward_of version coins h = Some base -> is_u64 base -> 0 < base ->
  0 <= median < 2 ^ 32 -> 0 <= B ->
  let M := Z.max median 300000 in
  get_base_block_reward median B coins version h =
    (if B <=? M then RewardOk (RewardOut base (Some base))
     else if 2 * M <? B then RewardRefused
     else RewardOk (RewardOut (penalised base M B) (Some base))) /\
  (M < B <= 2 * M -> 0 <= penalised base M B < base).
Proof.
  intros Hc Hbase Hb Hb0 Hm HB M. split; [|intros; apply penalised_bounds; lia].
  unfold get_base_block_reward. destruct (Z.eqb_spec coins 0); [done|]. rewrite Hbase.
  unfold get_min_block_weight, BLOCK_GRANTED_FULL_REWARD_ZONE_V5.
  replace (if median <? 300000 then 300000 else median) with M
    by (unfold M; destruct (Z.ltb_spec median 300000); lia).
  destruct (Z.leb_spec B M); [done|].
  assert (0 < M < 2 ^ 32) as HM by lia. clearbody M.
  rewrite (u64_small (2 * M)) by width. destruct (Z.ltb_spec (2 * M) B); [done|].
  assert (0 <= (2 * M - B) * B < M * M) as Hk by nia. assert (M * M < 2 ^ 64) by nia.
  rewrite (u64_small (2 * M - B)), (u64_small ((2 * M - B) * B)), (u32_small M) by width.
  pose proof (penalty_words base M B Hb Hb0 HM ltac:(lia)) as Hw.
  destruct (mul128 _ _) as [plo phi]. destruct (div128_32 phi plo M) as [hi lo]. by rewrite Hw.
Qed.

Lemma block_reward_penalty_witness :
  get_base_block_reward 300000 450000 1 hf21_weekly_batching 100000 =
    RewardOk (RewardOut 15487500000 (Some 20650000000)) /\ 15487500000 < 20650000000.
Proof.
  destruct (block_reward_penalty 300000 450000 1 hf21_weekly_batching 100000 20650000000
    ltac:(lia) eq_refl ltac:(width) ltac:(lia) ltac:(lia) ltac:(lia)) as [E H].
  split; [exact E|].
  destruct (H ltac:(cbn; lia)) as [_ H']. exact H'.
Defined.

(** On every compiled-in network the heights that use the floating point formula are
    few enough to evaluate. *)
Definition v8_height_ok (n : nat) : bool :=
  match block_reward_unpenalized_formula_v8 (Z.of_nat n) with
  | Some r => (28000000000 <=? r) && (r <=? 128000000000)
  | None => false
  end.

Lemma v8_heights_checked : forallb v8_height_ok (seq 0 250) = true.
Proof. vm_cast_no_check (eq_refl true). Qed.

Lemma v8_reward_bounds h :
  0 <= h < 250 -> exists r, block_reward_unpenalized_formula_v8 h = Some r /\
    28000000000 <= r <= 128000000000.
Proof.
  intros Hh. pose proof (forallb_seq v8_height_ok 250 (Z.to_nat h) ltac:(lia)
    v8_heights_checked) as H. unfold v8_height_ok in H.
  rewrite Z2Nat.id in H by lia.
  destruct (block_reward_unpenalized_formula_v8 h) as [r|]; [|done].
  exists r. bool_hyps. split; [done|lia].
Qed.

(** The base reward is defined on every compiled-in network, at every height and
    for every number of coins already generated: the floating point formula is only
    reached at heights where its conversion is in range.  It never exceeds 2^61 /
    2,000,000 atomic units. *)
Theorem base_reward_defined fk nt h coins :
  has_table nt = true -> 0 <= h -> is_u64 coins ->
  exists base, base_reward_of (get_network_version fk nt h) coins h = Some base /\
    0 <= base <= 1152921504606.
Proof.
  intros Hnt Hh Hc. unfold base_reward_of.
  destruct (Z.leb_spec hf19_reward_batching (get_network_version fk nt h));
    [eexists; split; [done|cbv; split; discriminate]|].
  destruct (Z.leb_spec hf17 (get_network_version fk nt h));
    [eexists; split; [done|cbv; split; discriminate]|].
  destruct (Z.leb_spec hf15_ons (get_network_version fk nt h)) as [|Hlt];
    [eexists; split; [done|cbv; split; discriminate]|].
  destruct (Z.leb_spec hf8 (get_network_version fk nt h)).
  - destruct (v8_reward_bounds h) as (r & -> & Hr); [|exists r; split; [done|lia]].
    split; [lia|]. apply Z.nle_gt. intros Hge.
    assert (is_hard_fork_at_least fk nt hf15_ons h = true) as Hat.
    { apply hard_fork_begins_iff; [by apply compiled_schedule_ok|done|].
      destruct nt; try discriminate; eexists; (split; [vm_compute; reflexivity|lia]). }
    unfold is_hard_fork_at_least in Hat. bool_hyps. lia.
  - eexists. split; [done|]. unfold block_reward_unpenalized_formula_v7, EMISSION_LINEAR_BASE,
      EMISSION_SUPPLY_DIVISOR, EMISSION_SUPPLY_MULTIPLIER, EMISSION_DIVISOR.
    change (Z.shiftl 1 61) with 2305843009213693952.
    pose proof (u64_range (coins * 19)) as Hr. set (x := u64 (coins * 19)) in *. clearbody x.
    destruct (Z.ltb_spec 2305843009213693952 (x / 10)); [lia|].
    rewrite (u64_small (_ - x / 10)) by width. width.
Qed.

Lemma base_reward_defined_witness :
  exists base, base_reward_of (get_network_version [] STAGENET 249) 1 249 = Some base /\
    0 <= base <= 1152921504606.
Proof. apply (base_reward_defined [] STAGENET 249 1 eq_refl ltac:(lia) ltac:(width)). Defined.
