(* ===== verification/Rules.v ===== *)
(** * Service node rules

    [cryptonote_core/service_node_rules.{h,cpp}] and the service node constants of
    [oxen_economy.h]: staking requirements, the minimum, maximum and portion
    arithmetic of contributions, the checks on registrations, decommission credit,
    and the constants of the quorums. *)
From S2P Require Import Prelude IntUtil Hardfork Config Reward.
Import Int128.

(** ** Constants *)
Definition OXEN_STAKING_REQUIREMENT : Z := 200000 * COIN.
Definition OXEN_STAKING_REQUIREMENT_TESTNET : Z := 100000 * COIN.
Definition SESH_STAKING_REQUIREMENT : Z := 100000 * COIN.
Definition SESH_STAKING_REQUIREMENT_TESTNET : Z := 100000 * COIN.
Definition SESH_STAKING_REQUIREMENT_LOCALDEV : Z := 100000 * COIN.
Definition MAX_CONTRIBUTORS_HF19 : Z := 11.
Definition MAX_CONTRIBUTORS_V1 : Z := 4.
Definition STAKING_PORTIONS : Z := 18446744073709551612.
Definition STAKING_FEE_BASIS : Z := 10000.

Definition PULSE_QUORUM_ENTROPY_LAG : Z := 21.
Definition PULSE_QUORUM_NUM_VALIDATORS : Z := 11.
Definition PULSE_QUORUM_SIZE : Z := PULSE_QUORUM_NUM_VALIDATORS + 1.
Definition PULSE_BLOCK_REQUIRED_SIGNATURES : Z := 7.
Definition FALLBACK_MINER_VOTER_INDEX : Z := 65535.

(** Durations in seconds. *)
Definition DECOMMISSION_CREDIT_PER_DAY : Z := 24 * 3600 / 30.
Definition DECOMMISSION_INITIAL_CREDIT : Z := 12 * 3600.
Definition DECOMMISSION_MAX_CREDIT : Z := 48 * 3600.
Definition DECOMMISSION_MINIMUM : Z := 2 * 3600.

Definition CHECKPOINT_NUM_CHECKPOINTS_FOR_CHAIN_FINALITY : Z := 2.
Definition CHECKPOINT_INTERVAL : Z := 4.
Definition CHECKPOINT_STORE_PERSISTENTLY_INTERVAL : Z := 60.
Definition CHECKPOINT_VOTE_LIFETIME : Z := CHECKPOINT_STORE_PERSISTENTLY_INTERVAL.
Definition QUORUM_VOTE_CHECK_COUNT : Z := 8.
Definition PULSE_MAX_MISSABLE_VOTES : Z := 4.
Definition CHECKPOINT_MAX_MISSABLE_VOTES : Z := 4.
Definition TIMESTAMP_MAX_MISSABLE_VOTES : Z := 4.
Definition TIMESYNC_MAX_UNSYNCED_VOTES : Z := 4.
Definition BLINK_QUORUM_INTERVAL : Z := 5.
Definition BLINK_QUORUM_LAG : Z := 7 * BLINK_QUORUM_INTERVAL.
Definition BLINK_EXPIRY_BUFFER : Z := BLINK_QUORUM_LAG + 10.
Definition STATE_CHANGE_NTH_OF_THE_NETWORK_TO_TEST : Z := 100.
Definition STATE_CHANGE_MIN_NODES_TO_TEST : Z := 50.
Definition VOTE_LIFETIME : Z := 60.
Definition STATE_CHANGE_MIN_VOTES_TO_CHANGE_STATE : Z := 7.
Definition STATE_CHANGE_QUORUM_SIZE : Z := 10.
Definition CHECKPOINT_QUORUM_SIZE : Z := 20.
Definition CHECKPOINT_MIN_VOTES : Z := 13.
Definition BLINK_SUBQUORUM_SIZE : Z := 10.
Definition BLINK_MIN_VOTES : Z := 7.
Definition REORG_SAFETY_BUFFER_BLOCKS_POST_HF12 : Z :=
  CHECKPOINT_INTERVAL * CHECKPOINT_NUM_CHECKPOINTS_FOR_CHAIN_FINALITY + (CHECKPOINT_INTERVAL - 1).
Definition REORG_SAFETY_BUFFER_BLOCKS_PRE_HF12 : Z := 20.
Definition VOTE_OR_TX_VERIFY_HEIGHT_BUFFER : Z := 5.
Definition SMALL_CONTRIBUTOR_UNLOCK_TIMER : Z := 30 * 24 * 3600.
Definition UNASSIGNED_SWARM_ID : Z := UINT64_MAX.

Definition pulse_validator_bit_mask : Z :=
  foldl (fun result validator_index => u16 (Z.lor result (Z.shiftl 1 validator_index)))
    0 (Z.of_nat <$> seq 0 (Z.to_nat PULSE_QUORUM_NUM_VALIDATORS)).

Definition RECOMMISSION_CREDIT (credit_at_decomm decomm_blocks : Z) : Z :=
  Z.max 0 (credit_at_decomm - 2 * decomm_blocks).

(** ** Quorum types ([service_node_voting.h]) *)
Inductive quorum_type := obligations | checkpointing | blink | pulse.
#[global] Instance quorum_type_eq_dec : EqDecision quorum_type.
Proof. solve_decision. Defined.

Definition min_votes_for_quorum_type (q : quorum_type) : Z :=
  match q with
  | obligations => STATE_CHANGE_MIN_VOTES_TO_CHANGE_STATE
  | checkpointing => CHECKPOINT_MIN_VOTES
  | blink => BLINK_MIN_VOTES
  | pulse => UINT64_MAX
  end.

Definition max_quorum_type_for_hf (version : hf) : quorum_type :=
  if version <=? hf12_checkpointing then obligations
  else if version <? hf14_blink then checkpointing
  else if version <? hf16_pulse then blink
  else pulse.

(** ** Minimum versions in uptime proofs *)
Definition version3 : Type := Z * Z * Z.

Record proof_version := ProofVersion {
  hardfork_revision : hf * Z;
  pv_oxend : version3;
  pv_lokinet : version3;
  pv_storage_server : version3;
  pv_session_router : version3;
}.

Definition MIN_UPTIME_PROOF_VERSIONS_MAINNET : list proof_version := [
  ProofVersion (hf21_weekly_batching, 0) (1, 0, 7) (0, 0, 0) (0, 0, 0) (0, 0, 0);
  ProofVersion (hf22_sn_policy, 0) (1, 1, 0) (0, 0, 0) (0, 0, 0) (0, 0, 0);
  ProofVersion (hf22_sn_policy, 1) (1, 1, 1) (0, 0, 0) (0, 0, 0) (0, 0, 0);
  ProofVersion (hf22_eth_fixup, 0) (11, 4, 0) (0, 9, 13) (2, 10, 0) (0, 0, 0);
  ProofVersion (hf22_eth_fixup, 1) (11, 5, 0) (0, 9, 14) (2, 11, 0) (0, 0, 0)
].
Definition MIN_UPTIME_PROOF_VERSIONS_STAGENET : list proof_version := [
  ProofVersion (hf21_eth, 0) (11, 0, 7) (0, 9, 13) (2, 10, 0) (0, 0, 0)
].
Definition MIN_UPTIME_PROOF_VERSIONS_TESTNET : list proof_version := [
  ProofVersion (hf21_weekly_batching, 0) (1, 0, 7) (0, 0, 0) (0, 0, 0) (0, 0, 0);
  ProofVersion (hf22_sn_policy, 0) (1, 1, 0) (0, 0, 0) (0, 0, 0) (0, 0, 0);
  ProofVersion (hf22_sn_policy, 1) (1, 1, 1) (0, 0, 0) (0, 0, 0) (0, 0, 0);
  ProofVersion (hf22_eth_fixup, 0) (11, 6, 0) (0, 0, 0) (2, 11, 1) (1, 0, 0)
].

Definition MIN_UPTIME_PROOF_VERSIONS (nettype : network_type) : list proof_version :=
  match nettype with
  | MAINNET => MIN_UPTIME_PROOF_VERSIONS_MAINNET
  | STAGENET => MIN_UPTIME_PROOF_VERSIONS_STAGENET
  | _ => MIN_UPTIME_PROOF_VERSIONS_TESTNET
  end.

(** ** Staking requirement and contributions *)
Definition MINIMUM_OPERATOR_CONTRIBUTION (staking_requirement : Z) : Z := staking_requirement / 2.

Definition is_mainnet (nt : network_type) : bool :=
  match nt with MAINNET => true | _ => false end.
Definition is_localdev (nt : network_type) : bool :=
  match nt with LOCALDEV => true | _ => false end.

Definition get_default_staking_requirement (nettype : network_type) (hardfork : hf) : Z :=
  if hardfork <? hf16_pulse then
    if is_mainnet nettype then OXEN_STAKING_REQUIREMENT else OXEN_STAKING_REQUIREMENT_TESTNET
  else if feature_ETH_BLS <=? hardfork then
    if is_mainnet nettype then SESH_STAKING_REQUIREMENT
    else if is_localdev nettype then SESH_STAKING_REQUIREMENT_LOCALDEV
    else SESH_STAKING_REQUIREMENT_TESTNET
  else
    if is_mainnet nettype then OXEN_STAKING_REQUIREMENT else OXEN_STAKING_REQUIREMENT_TESTNET.

Definition get_default_staking_requirement_at (fk : list hard_fork) (nettype : network_type)
    (height : Z) : Z :=
  get_default_staking_requirement nettype (get_network_version fk nettype height).

Definition portions_to_amount (portions staking_requirement : Z) : Z :=
  mul128_div64 staking_requirement portions STAKING_PORTIONS.

Definition get_min_node_contribution_pre_v11 (staking_requirement total_reserved : Z) : Z :=
  Z.min (u64 (staking_requirement - total_reserved)) (staking_requirement / MAX_CONTRIBUTORS_V1).

Definition get_max_node_contribution (version : hf) (staking_requirement total_reserved : Z) : Z :=
  if hf16_pulse <=? version then
    u64 (u64 (staking_requirement - total_reserved) * 101) / 100
  else UINT64_MAX.

Definition get_min_node_contribution (version : hf)
    (staking_requirement total_reserved num_contributions : Z) : Z :=
  if version <? hf11_infinite_staking then
    get_min_node_contribution_pre_v11 staking_requirement total_reserved
  else
    let needed := u64 (staking_requirement - total_reserved) in
    let max_contributors := if hf19_reward_batching <=? version then MAX_CONTRIBUTORS_HF19
                            else MAX_CONTRIBUTORS_V1 in
    if max_contributors <=? num_contributions then UINT64_MAX
    else if feature_ETH_BLS <=? version then 1
    else needed / (max_contributors - num_contributions).

Definition get_portions_to_make_amount (staking_requirement amount max_portions : Z) : Z :=
  let '(lo, hi) := mul128 amount max_portions in
  let hi := if u64 (UINT64_MAX - u64 (staking_requirement - 1)) <? lo then u64 (hi + 1) else hi in
  let lo := u64 (lo + u64 (staking_requirement - 1)) in
  let '(resulthi, resultlo) := div128_64 hi lo staking_requirement in
  resultlo.

Definition get_min_node_contribution_in_portions (version : hf)
    (staking_requirement total_reserved num_contributions : Z) : Z :=
  let atomic_amount :=
    get_min_node_contribution version staking_requirement total_reserved num_contributions in
  if atomic_amount =? UINT64_MAX then UINT64_MAX
  else get_portions_to_make_amount staking_requirement atomic_amount STAKING_PORTIONS.

(** The loop of [check_service_node_portions], from position [i]. *)
Fixpoint check_portions_loop (hf_version : hf) (i reserved remaining : Z) (portions : list Z)
    : bool :=
  match portions with
  | [] => true
  | p :: rest =>
      let min_portions := get_min_node_contribution hf_version STAKING_PORTIONS reserved i in
      if p <? min_portions then false
      else if remaining <? p then false
      else check_portions_loop hf_version (i + 1) (u64 (reserved + p)) (u64 (remaining - p)) rest
  end.

Definition check_service_node_portions (hf_version : hf) (portions : list Z) : bool :=
  if hf19_reward_batching <? hf_version then false
  else
    let hf_version := if hf_version =? hf19_reward_batching then hf18 else hf_version in
    if MAX_CONTRIBUTORS_V1 <? Z.of_nat (length portions) then false
    else check_portions_loop hf_version 0 0 STAKING_PORTIONS portions.

(** The loop of [check_service_node_stakes]; returns (reserved, remaining). *)
Fixpoint check_stakes_loop (hf_version : hf) (staking_requirement i reserved remaining : Z)
    (stakes : list Z) : option (Z * Z) :=
  match stakes with
  | [] => Some (reserved, remaining)
  | s :: rest =>
      let min_stake :=
        if i =? 0 then MINIMUM_OPERATOR_CONTRIBUTION staking_requirement
        else get_min_node_contribution hf_version staking_requirement reserved i in
      if s <? min_stake then None
      else if remaining <? s then None
      else check_stakes_loop hf_version staking_requirement (i + 1)
             (u64 (reserved + s)) (u64 (remaining - s)) rest
  end.

Definition check_service_node_stakes (hf_version : hf) (staking_requirement : Z)
    (stakes : list Z) : bool :=
  if hf_version <? hf19_reward_batching then false
  else if MAX_CONTRIBUTORS_HF19 <? Z.of_nat (length stakes) then false
  else
    match check_stakes_loop hf_version staking_requirement 0 0 staking_requirement stakes with
    | None => false
    | Some (reserved, remaining) =>
        if feature_ETH_BLS <=? hf_version then remaining =? 0 else true
    end.

(** The 32 bytes of the nonce repeated eight times, little endian. *)
Definition generate_request_stake_unlock_hash (nonce : Z) : list Z :=
  concat (replicate 8 (store_le 4 nonce)).

Definition staking_num_lock_blocks (nettype : network_type) : option Z :=
  match nettype with
  | FAKECHAIN => Some 30
  | TESTNET => (fun c => BLOCKS_IN c (48 * 3600)) <$> get_config nettype
  | _ => (fun c => BLOCKS_IN c (14 * 24 * 3600)) <$> get_config nettype
  end.

(** [has_valid_parameters], the compile-time checks of a network. *)
Definition has_valid_parameters (conf : network_config) : bool :=
  let max := BLOCKS_IN conf DECOMMISSION_MAX_CREDIT in
  (PULSE_QUORUM_SIZE <=? PULSE_MIN_SERVICE_NODES conf) &&
  (RECOMMISSION_CREDIT max 0 <=? max) &&
  (RECOMMISSION_CREDIT max max <=? RECOMMISSION_CREDIT max (Z.quot max 2)) &&
  (RECOMMISSION_CREDIT max (Z.quot max 2) <=? RECOMMISSION_CREDIT max 0) &&
  (RECOMMISSION_CREDIT (Z.quot max 2) (Z.quot max 2) <=? RECOMMISSION_CREDIT (Z.quot max 2) 0) &&
  (RECOMMISSION_CREDIT (Z.quot max 2) 1 <=? RECOMMISSION_CREDIT max 1) &&
  (RECOMMISSION_CREDIT 0 1 <=? RECOMMISSION_CREDIT (Z.quot max 2) 1) &&
  (0 <=? RECOMMISSION_CREDIT max 0) && (0 <=? RECOMMISSION_CREDIT max max) &&
  (0 <=? RECOMMISSION_CREDIT max (2 * max)).

(** ** Registrations by amount *)

(** [Forall is_u64] of a literal list. *)
Ltac concrete_u64 :=
  repeat first [apply List.Forall_nil | apply List.Forall_cons; [cbv; split; congruence|]].

Definition zsum (l : list Z) : Z := foldr Z.add 0 l.

Lemma zsum_nonneg l : Forall is_u64 l -> 0 <= zsum l.
Proof. induction 1 as [|x l Hx _ IH]; cbn; [lia|]. fold (zsum l). width. Qed.

(** Every stake meets the minimum asked of it given what is reserved before it. *)
Fixpoint meets_minimums (v : hf) (req i reserved : Z) (stakes : list Z) : Prop :=
  match stakes with
  | [] => True
  | s :: rest =>
      (if i =? 0 then MINIMUM_OPERATOR_CONTRIBUTION req
       else get_min_node_contribution v req reserved i) <= s /\
      meets_minimums v req (i + 1) (reserved + s) rest
  end.

Lemma check_stakes_loop_spec v req i reserved remaining stakes :
  Forall is_u64 stakes -> is_u64 req -> 0 <= reserved -> 0 <= remaining ->
  reserved + remaining = req ->
  (meets_minimums v req i reserved stakes -> zsum stakes <= remaining ->
   check_stakes_loop v req i reserved remaining stakes =
     Some (reserved + zsum stakes, remaining - zsum stakes)) /\
  (forall r, check_stakes_loop v req i reserved remaining stakes = Some r ->
   meets_minimums v req i reserved stakes /\ zsum stakes <= remaining).
Proof.
  intros Hs. revert i reserved remaining.
  induction Hs as [|s rest Hsr Hrest IH]; intros i reserved remaining Hreq H0 H1 Hsum; cbn.
  { split; [intros _ _; f_equal; f_equal; lia|]. intros r _. split; [done|lia]. }
  fold (zsum rest). pose proof (zsum_nonneg rest Hrest) as Hz.
  set (m := if i =? 0 then _ else _). clearbody m.
  destruct (Z.ltb_spec s m) as [Hlt|Hge]; cbv iota; [split; [|done]; intros [? _]; lia|].
  destruct (Z.ltb_spec remaining s) as [Hlt2|Hge2]; cbv iota;
    [split; [|done]; intros _ ?; lia|].
  rewrite (u64_small (reserved + s)), (u64_small (remaining - s)) by width.
  destruct (IH (i + 1) (reserved + s) (remaining - s) Hreq ltac:(width) ltac:(lia) ltac:(lia))
    as [IH1 IH2].
  split.
  - intros [_ Hm] Hle. rewrite (IH1 Hm ltac:(lia)). f_equal. f_equal; lia.
  - intros r Hr. destruct (IH2 r Hr) as [Hm Hle]. split; [done|lia].
Qed.

Lemma stakes_accepted v req stakes :
  Forall is_u64 stakes -> is_u64 req ->
  check_service_node_stakes v req stakes = true <->
  hf19_reward_batching <= v /\ (length stakes <= 11)%nat /\
  meets_minimums v req 0 0 stakes /\ zsum stakes <= req /\
  (feature_ETH_BLS <= v -> zsum stakes = req).
Proof.
  intros Hs Hreq. unfold check_service_node_stakes, MAX_CONTRIBUTORS_HF19.
  destruct (check_stakes_loop_spec v req 0 0 req stakes Hs Hreq ltac:(lia) ltac:(width) ltac:(lia))
    as [H1 H2].
  destruct (Z.ltb_spec v hf19_reward_batching) as [Hv|Hv]; cbv iota;
    [split; [done|]; intros [? _]; lia|].
  destruct (Z.ltb_spec 11 (Z.of_nat (length stakes))) as [Hl|Hl]; cbv iota;
    [split; [done|]; intros (_ & ? & _); lia|].
  destruct (check_stakes_loop v req 0 0 req stakes) as [[r m]|] eqn:E.
  - destruct (H2 _ eq_refl) as [Hm Hle]. specialize (H1 Hm Hle). injection H1 as -> ->.
    destruct (Z.leb_spec feature_ETH_BLS v); cbv iota; rewrite ?Z.eqb_eq.
    + split; [intros; repeat split; try done; lia|]. intros (_ & _ & _ & _ & Heq).
      specialize (Heq ltac:(done)). lia.
    + split; [|done]. intros _. repeat split; try done; lia.
  - split; [done|]. intros (_ & _ & Hm & Hle & _). discriminate (H1 Hm Hle).
Qed.

Lemma check_service_node_stakes_total v req stakes :
  Forall is_u64 stakes -> is_u64 req -> check_service_node_stakes v req stakes = true ->
  zsum stakes <= req.
Proof. intros Hs Hr H. apply (stakes_accepted v req stakes Hs Hr) in H. tauto. Qed.

(** Exactly which amount-based registrations are accepted: from HF19, at most 11
    contributors, each stake at or above the minimum for its position (half the
    requirement for the operator), and a total within the staking requirement,
    computed without overflow; from the ETH fork on the total must be the whole
    requirement. *)
Theorem stakes_accepted_iff v req stakes :
  Forall is_u64 stakes -> is_u64 req ->
  check_service_node_stakes v req stakes = true <->
  hf19_reward_batching <= v /\ (length stakes <= 11)%nat /\
  meets_minimums v req 0 0 stakes /\ zsum stakes <= req /\
  (feature_ETH_BLS <= v -> zsum stakes = req).
Proof. apply stakes_accepted. Qed.

Lemma stakes_accepted_iff_witness :
  check_service_node_stakes hf21_weekly_batching OXEN_STAKING_REQUIREMENT
    [100000 * COIN; 60000 * COIN; 40000 * COIN] = true /\
  zsum [100000 * COIN; 60000 * COIN; 40000 * COIN] <= OXEN_STAKING_REQUIREMENT.
Proof.
  assert (check_service_node_stakes hf21_weekly_batching OXEN_STAKING_REQUIREMENT
    [100000 * COIN; 60000 * COIN; 40000 * COIN] = true) as H by (vm_compute; reflexivity).
  split; [exact H|].
  apply (stakes_accepted_iff hf21_weekly_batching OXEN_STAKING_REQUIREMENT) in H;
    [apply H|concrete_u64|cbv; split; congruence].
Defined.

(** Contributions in non-increasing order that fill the remaining requirement meet the
    minimums of their positions. *)
Lemma zsum_le_head c cs : Sorted Z.ge (c :: cs) -> zsum (c :: cs) <= Z.of_nat (length (c :: cs)) * c.
Proof.
  intros Hs. apply Sorted_StronglySorted in Hs; [|intros x y z; lia].
  inversion_clear Hs as [|? ? _ Hall]. cbn. fold (zsum cs).
  assert (zsum cs <= Z.of_nat (length cs) * c); [|lia].
  clear - Hall. induction Hall as [|x cs Hx _ IH]; cbn; [lia|]. fold (zsum cs). lia.
Qed.

Lemma sorted_meets_minimums v req i reserved cs :
  hf19_reward_batching <= v < feature_ETH_BLS -> is_u64 req -> Forall is_u64 cs ->
  1 <= i -> i + Z.of_nat (length cs) <= 11 -> 0 <= reserved ->
  reserved + zsum cs = req -> Sorted Z.ge cs -> meets_minimums v req i reserved cs.
Proof.
  intros Hv Hreq Hcs. revert i reserved.
  induction Hcs as [|c cs Hc Hcs IH]; intros i reserved Hi Hlen H0 Hsum Hsort; [done|].
  cbn [meets_minimums]. destruct (Z.eqb_spec i 0); [lia|]. split.
  - unfold get_min_node_contribution, MAX_CONTRIBUTORS_HF19, hf19_reward_batching,
      hf11_infinite_staking, feature_ETH_BLS, hf21_eth in *.
    destruct (Z.ltb_spec v 11); [lia|]. destruct (Z.leb_spec 19 v); [|lia].
    cbn [length] in Hlen. destruct (Z.leb_spec 11 i); [lia|].
    destruct (Z.leb_spec 24 v); [lia|].
    pose proof (zsum_le_head c cs Hsort) as Hle. pose proof (zsum_nonneg (c :: cs) ltac:(by constructor)).
    rewrite u64_small by width. replace (req - reserved) with (zsum (c :: cs)) by lia.
    apply Z.div_le_upper_bound; [lia|]. cbn [length] in Hle. unfold is_u64 in Hc. nia.
  - cbn in Hsum, Hlen. fold (zsum cs) in Hsum. inversion_clear Hsort.
    apply IH; try lia; try done; width.
Qed.

(** The reason given for dropping the minimum in the ETH fork is right: an operator with
    at least half of the requirement followed by at most ten contributions, sorted
    from highest to lowest, that fill the rest exactly satisfy the contribution rules
    of the previous forks. *)
Theorem full_sorted_stakes_accepted v req op cs :
  hf19_reward_batching <= v < feature_ETH_BLS -> is_u64 req -> Forall is_u64 (op :: cs) ->
  (length cs <= 10)%nat -> req / 2 <= op -> op + zsum cs = req -> Sorted Z.ge cs ->
  check_service_node_stakes v req (op :: cs) = true.
Proof.
  intros Hv Hreq Hall Hl Hop Hsum Hsort. inversion_clear Hall as [|? ? Ho Hcs].
  pose proof (zsum_nonneg cs Hcs).
  destruct (check_stakes_loop_spec v req 0 0 req (op :: cs) ltac:(by constructor) Hreq
    ltac:(lia) ltac:(width) ltac:(lia)) as [H1 _].
  unfold check_service_node_stakes. destruct (Z.ltb_spec v hf19_reward_batching); [lia|].
  unfold MAX_CONTRIBUTORS_HF19. destruct (Z.ltb_spec 11 (Z.of_nat (length (op :: cs))));
    [cbn [length] in *; lia|].
  rewrite H1.
  - destruct (Z.leb_spec feature_ETH_BLS v); [lia|done].
  - cbn [meets_minimums]. split; [done|].
    apply sorted_meets_minimums; try done; try lia; width.
  - cbn. fold (zsum cs). lia.
Qed.

Lemma full_sorted_stakes_accepted_witness :
  check_service_node_stakes hf20_governance_payouts_fix OXEN_STAKING_REQUIREMENT
    [150000 * COIN; 30000 * COIN; 15000 * COIN; 5000 * COIN] = true.
Proof.
  apply full_sorted_stakes_accepted;
    [split; done|cbv; split; congruence|concrete_u64
    |cbn; lia|cbv; congruence|reflexivity|repeat constructor; cbv; congruence].
Defined.

(** ** Portions *)

(** A carry into the high word: the 128-bit sum of a product and a 64-bit value. *)
Lemma add_carry_words hi lo x :
  is_u64 hi -> is_u64 lo -> is_u64 x -> hi * 2 ^ 64 + lo + x < 2 ^ 64 * 2 ^ 64 ->
  let hi' := if UINT64_MAX - x <? lo then u64 (hi + 1) else hi in
  let lo' := u64 (lo + x) in
  hi' * 2 ^ 64 + lo' = hi * 2 ^ 64 + lo + x /\ is_u64 hi' /\ is_u64 lo'.
Proof.
  intros Hh Hl Hx Hb. cbv zeta. unfold UINT64_MAX, u64.
  change (2 ^ 64) with 18446744073709551616 in *.
  destruct (Z.ltb_spec (18446744073709551615 - x) lo); width.
Qed.

Lemma portions_formula req amount P :
  is_u64 amount -> is_u64 P -> is_u64 req -> 0 < req -> amount <= req -> 0 < P ->
  get_portions_to_make_amount req amount P = (amount * P + (req - 1)) / req.
Proof.
  intros Ha HP Hr Hr0 Har HP0. unfold get_portions_to_make_amount.
  rewrite mul128_words by done.
  assert (0 <= amount * P <= (2 ^ 64 - 1) * (2 ^ 64 - 1)) as Hp by (unfold is_u64 in *; nia).
  assert (amount * P <= req * P) as Hle by nia.
  set (p := amount * P) in *. clearbody p.
  assert (is_u64 (p / 2 ^ 64) /\ is_u64 (p mod 2 ^ 64)) as [Hhi Hlo].
  { pose proof (Z.mod_pos_bound p (2 ^ 64)). split; [|width].
    split; [apply Z.div_pos; lia|]. apply Z.div_lt_upper_bound; lia. }
  rewrite (u64_small (req - 1)) by width. rewrite (u64_small (UINT64_MAX - (req - 1))) by width.
  pose proof (Z.div_mod p (2 ^ 64) ltac:(lia)) as Hdm.
  pose proof (add_carry_words (p / 2 ^ 64) (p mod 2 ^ 64) (req - 1) Hhi Hlo ltac:(width)
    ltac:(clear - Hdm Hp Hr; unfold is_u64 in *; lia)) as Hc.
  cbv zeta in Hc. destruct Hc as (Hc & Hhi' & Hlo').
  set (hi' := if _ <? _ then _ else _) in *. set (lo' := u64 (_ + _)) in *. clearbody hi' lo'.
  unfold div128_64. rewrite lor_shiftl_add by width. rewrite Hc.
  replace (p / 2 ^ 64 * 2 ^ 64 + p mod 2 ^ 64 + (req - 1)) with (p + (req - 1)) by lia.
  apply u64_small. split; [apply Z.div_pos; lia|]. apply Z.div_lt_upper_bound; [lia|].
  unfold is_u64 in *. nia.
Qed.

(** [get_portions_to_make_amount] returns the lowest portion count that covers an amount,
    as documented: for an amount within a non-zero staking requirement the result is
    at most [STAKING_PORTIONS], is worth at least the amount, and every smaller count
    is worth less. *)
Theorem portions_to_make_amount_lowest req amount :
  0 < req -> is_u64 req -> 0 <= amount <= req ->
  let x := get_portions_to_make_amount req amount STAKING_PORTIONS in
  0 <= x <= STAKING_PORTIONS /\ amount <= portions_to_amount x req /\
  forall y, 0 <= y < x -> portions_to_amount y req < amount.
Proof.
  intros Hr0 Hr Ha. cbv zeta. rewrite portions_formula by (unfold STAKING_PORTIONS; width).
  assert (0 < STAKING_PORTIONS < 2 ^ 64) as HP by (unfold STAKING_PORTIONS; lia).
  unfold portions_to_amount, mul128_div64. set (P := STAKING_PORTIONS) in *. clearbody P.
  set (x := (amount * P + (req - 1)) / req).
  assert (req * x <= amount * P + (req - 1) < req * x + req) as Hx.
  { unfold x. pose proof (Z.div_mod (amount * P + (req - 1)) req). 
    pose proof (Z.mod_pos_bound (amount * P + (req - 1)) req). lia. }
  assert (0 <= x <= P) as Hxr.
  { split; [apply Z.div_pos; nia|]. unfold x. apply Z.lt_succ_r, Z.div_lt_upper_bound; nia. }
  assert (forall y, 0 <= y <= P -> u64 (req * y / P) = req * y / P) as Hu.
  { intros y Hy. apply u64_small. split; [apply Z.div_pos; nia|].
    apply Z.div_lt_upper_bound; unfold is_u64 in *; nia. }
  clearbody x. split; [done|]. split.
  - rewrite Hu by done. apply Z.div_le_lower_bound; lia.
  - intros y Hy. rewrite Hu by lia. apply Z.div_lt_upper_bound; nia.
Qed.

Lemma portions_to_make_amount_lowest_witness :
  let x := get_portions_to_make_amount OXEN_STAKING_REQUIREMENT (50000 * COIN) STAKING_PORTIONS in
  50000 * COIN <= portions_to_amount x OXEN_STAKING_REQUIREMENT.
Proof.
  apply (portions_to_make_amount_lowest OXEN_STAKING_REQUIREMENT (50000 * COIN));
    [reflexivity|cbv; split; congruence|cbv; split; congruence].
Defined.

(** ** Minimums and credit *)

(** The minimum contribution always leaves room: with something still to be contributed
    and [n] of the slots used (HF11 up to the ETH fork), the minimum is at most what is
    missing, and as many minimum contributions as there are free slots never exceed it;
    with no slot left it is the maximal value, which no stake can meet. *)
Theorem min_contribution_fits v req reserved n :
  hf11_infinite_staking <= v < feature_ETH_BLS -> is_u64 req -> 0 <= reserved <= req -> 0 <= n ->
  let slots := if hf19_reward_batching <=? v then 11 else 4 in
  let m := get_min_node_contribution v req reserved n in
  if n <? slots then 0 <= m <= req - reserved /\ (slots - n) * m <= req - reserved
  else m = UINT64_MAX.
Proof.
  intros Hv Hr Hres Hn. cbv zeta. unfold get_min_node_contribution, MAX_CONTRIBUTORS_HF19,
    MAX_CONTRIBUTORS_V1, feature_ETH_BLS, hf21_eth, hf11_infinite_staking in *.
  destruct (Z.ltb_spec v 11); [lia|]. set (slots := if _ <=? _ then 11 else 4).
  assert (1 <= slots) by (unfold slots; case_match; lia). clearbody slots.
  rewrite (u64_small (req - reserved)) by width.
  destruct (Z.ltb_spec n slots), (Z.leb_spec slots n); try lia.
  destruct (Z.leb_spec 24 v); [lia|].
  assert (0 <= (req - reserved) / (slots - n)) by (apply Z.div_pos; lia).
  pose proof (Z.mul_div_le (req - reserved) (slots - n) ltac:(lia)).
  set (m := (req - reserved) / (slots - n)) in *. clearbody m.
  split; [|done]. nia.
Qed.

Lemma min_contribution_fits_witness :
  let m := get_min_node_contribution hf21_weekly_batching OXEN_STAKING_REQUIREMENT
             (100000 * COIN) 1 in
  0 <= m <= 100000 * COIN /\ (11 - 1) * m <= 100000 * COIN.
Proof.
  apply (min_contribution_fits hf21_weekly_batching OXEN_STAKING_REQUIREMENT (100000 * COIN) 1);
    [split; done|cbv; split; congruence|cbv; split; congruence|lia].
Defined.

(** Recommission credit is never negative, never exceeds the credit at decommission, is
    weakly increasing in that credit and weakly decreasing in the length of the
    decommission: for all arguments, what the compile-time checks only sample; and the
    compile-time checks hold on every network. *)
Theorem recommission_credit_laws c c' d d' :
  0 <= c <= c' -> 0 <= d <= d' ->
  0 <= RECOMMISSION_CREDIT c d <= c /\
  RECOMMISSION_CREDIT c d <= RECOMMISSION_CREDIT c' d /\
  RECOMMISSION_CREDIT c d' <= RECOMMISSION_CREDIT c d /\
  (forall nt conf, get_config nt = Some conf -> has_valid_parameters conf = true).
Proof.
  intros Hc Hd. unfold RECOMMISSION_CREDIT. repeat split; try lia.
  intros nt conf H. destruct nt; try discriminate H; injection H as <-; vm_compute; reflexivity.
Qed.

Lemma recommission_credit_laws_witness : RECOMMISSION_CREDIT 1000 500 <= RECOMMISSION_CREDIT 1000 100.
Proof. apply (recommission_credit_laws 1000 1000 100 500); lia. Defined.
