(* ===== verification/Voting.v ===== *)
(** * Quorum votes and their verification

    [cryptonote_core/service_node_voting.{h,cpp}], up to the vote pool (which is in
    [VotingPool.v]): vote records, the message a state change vote signs, and the
    verification of state change transactions, quorum signatures, checkpoints and
    single votes.  Hashes, keys and signatures are byte strings; [cn_fast_hash],
    [check_signature] and [generate_signature] are parameters.

    Enumerations that arrive from the network ([new_state], vote types, groups) are
    kept as integers: the code compares them with the top of the enumeration. *)
From S2P Require Import Prelude Hardfork Rules.

Definition bytes : Type := list Z.

(** ** Data *)
Definition deregister : Z := 0.
Definition decommission : Z := 1.
Definition recommission : Z := 2.
Definition ip_change_penalty : Z := 3.
Definition new_state_count : Z := 4.

(** [quorum_type] and [quorum_group] on the wire. *)
Definition vote_obligations : Z := 0.
Definition vote_checkpointing : Z := 1.
Definition quorum_type_top : Z := 3.
Definition group_validator : Z := 1.
Definition group_worker : Z := 2.

Record quorum := Quorum { validators : list bytes; workers : list bytes }.

Record state_change_vote := StateChangeVote {
  worker_index : Z;
  sc_state : Z;
  sc_reason : Z;
}.

(** [quorum_vote_t]; of the union only the member selected by [vote_type] is read. *)
Record quorum_vote_t := QuorumVote {
  vote_version : Z;
  vote_type : Z;
  block_height : Z;
  group : Z;
  index_in_group : Z;
  vote_signature : bytes;
  state_change : state_change_vote;
  checkpoint_block_hash : bytes;
}.

Record sc_vote := ScVote { sc_signature : bytes; validator_index : Z }.

(** [tx_extra_service_node_state_change]. *)
Record tx_state_change := TxStateChange {
  tsc_state : Z;
  tsc_block_height : Z;
  service_node_index : Z;
  reason_consensus_all : Z;
  reason_consensus_any : Z;
  tsc_votes : list sc_vote;
}.

Record quorum_signature := QuorumSignature { voter_index : Z; qs_signature : bytes }.

(** The flags of [vote_verification_context]. *)
Inductive vote_flag :=
  | m_verification_failed
  | m_invalid_block_height
  | m_duplicate_voters
  | m_validator_index_out_of_bounds
  | m_worker_index_out_of_bounds
  | m_signature_not_valid
  | m_added_to_pool
  | m_not_enough_votes
  | m_incorrect_voting_group
  | m_invalid_vote_type
  | m_votes_not_sorted.
#[global] Instance vote_flag_eq_dec : EqDecision vote_flag.
Proof. solve_decision. Defined.

Definition vote_verification_context : Type := vote_flag -> bool.
Definition no_flags : vote_verification_context := fun _ => false.
Definition set_flag (f : vote_flag) (b : bool) (vvc : vote_verification_context)
    : vote_verification_context :=
  fun g => if decide (g = f) then b else vvc g.

(** The two members of [tx_verification_context] the vote code touches. *)
Record tx_verification_context := Tvc {
  m_verifivation_failed : bool;
  m_vote_ctx : vote_verification_context;
}.

Definition bad_tx (vvc : vote_verification_context) : bool * tx_verification_context :=
  (false, Tvc true vvc).

(** ** The signed message *)

(** [memcpy_le(block_height, service_node_index, state_int)], without the state for
    deregistrations. *)
Definition state_change_message (height index state : Z) : bytes :=
  let state_int := u16 state in
  let buf := store_le 8 height ++ store_le 4 index ++ store_le 2 state_int in
  if state =? deregister then take (length buf - 2) buf else buf.

Definition bounds_check_worker_index (q : quorum) (index : Z) (vvc : vote_verification_context)
    : bool * vote_verification_context :=
  if Z.of_nat (length (workers q)) <=? index
  then (false, set_flag m_worker_index_out_of_bounds true vvc) else (true, vvc).

Definition bounds_check_validator_index (q : quorum) (index : Z) (vvc : vote_verification_context)
    : bool * vote_verification_context :=
  if Z.of_nat (length (validators q)) <=? index
  then (false, set_flag m_validator_index_out_of_bounds true vvc) else (true, vvc).

Record block_pulse := BlockPulse { validator_bitset : Z; pulse_round : Z }.

Inductive checkpoint_type := hardcoded | service_node.
#[global] Instance checkpoint_type_eq_dec : EqDecision checkpoint_type.
Proof. solve_decision. Defined.

Record checkpoint_t := Checkpoint {
  cp_type : checkpoint_type;
  cp_height : Z;
  cp_block_hash : bytes;
  cp_signatures : list quorum_signature;
}.

(** [std::array<size_t, max(CHECKPOINT_QUORUM_SIZE, PULSE_QUORUM_NUM_VALIDATORS)>]. *)
Definition MAX_QUORUM_SIZE : Z := Z.max CHECKPOINT_QUORUM_SIZE PULSE_QUORUM_NUM_VALIDATORS.

Definition verify_pulse_quorum_sizes (q : quorum) : bool :=
  (Z.of_nat (length (workers q)) =? 1) &&
  (Z.of_nat (length (validators q)) =? PULSE_QUORUM_NUM_VALIDATORS).

Definition make_empty_service_node_checkpoint (block_hash : bytes) (height : Z) : checkpoint_t :=
  Checkpoint service_node height block_hash [].

(** Returns the verdict and the context. *)
Definition verify_vote_age (vote : quorum_vote_t) (latest_height : Z)
    (vvc : vote_verification_context) : bool * vote_verification_context :=
  let '(height_in_buffer, vvc) :=
    if u64 (block_height vote + VOTE_LIFETIME) <? latest_height then
      (latest_height <=?
         u64 (block_height vote + (VOTE_LIFETIME + VOTE_OR_TX_VERIFY_HEIGHT_BUFFER)),
       set_flag m_invalid_block_height true vvc)
    else if latest_height <? block_height vote then
      (block_height vote <=? u64 (latest_height + VOTE_OR_TX_VERIFY_HEIGHT_BUFFER),
       set_flag m_invalid_block_height true vvc)
    else (false, vvc) in
  if vvc m_invalid_block_height
  then (false, set_flag m_verification_failed (negb height_in_buffer) vvc)
  else (true, vvc).

Section Crypto.
Context (cn_fast_hash : bytes -> bytes).
Context (check_signature : bytes -> bytes -> bytes -> bool).
Context (keys : Type) (generate_signature : bytes -> keys -> bytes).

Definition make_state_change_vote_hash (height index state : Z) : bytes :=
  cn_fast_hash (state_change_message height index state).

(** The empty (zero) signature for a type it does not handle. *)
Definition make_signature_from_vote (vote : quorum_vote_t) (k : keys) : bytes :=
  if vote_type vote =? vote_obligations then
    generate_signature
      (make_state_change_vote_hash (block_height vote) (worker_index (state_change vote))
         (sc_state (state_change vote))) k
  else if vote_type vote =? vote_checkpointing then
    generate_signature (checkpoint_block_hash vote) k
  else replicate 64 0.

Definition make_signature_from_tx_state_change (sc : tx_state_change) (k : keys) : bytes :=
  generate_signature
    (make_state_change_vote_hash (tsc_block_height sc) (service_node_index sc) (tsc_state sc)) k.

Definition with_signature (v : quorum_vote_t) (sig : bytes) : quorum_vote_t :=
  QuorumVote (vote_version v) (vote_type v) (block_height v) (group v) (index_in_group v) sig
    (state_change v) (checkpoint_block_hash v).

Definition make_state_change_vote (height validator_index worker_index state reason : Z)
    (k : keys) : quorum_vote_t :=
  let result := QuorumVote 0 vote_obligations height group_validator validator_index
                  (replicate 64 0) (StateChangeVote worker_index state reason) (replicate 32 0) in
  with_signature result (make_signature_from_vote result k).

Definition make_checkpointing_vote (hf_version : hf) (block_hash : bytes)
    (height index_in_quorum : Z) (k : keys) : quorum_vote_t :=
  let result := QuorumVote 0 vote_checkpointing height group_validator index_in_quorum
                  (replicate 64 0) (StateChangeVote 0 0 0) block_hash in
  with_signature result (make_signature_from_vote result k).

(** The loop over the votes of a state change; [validator_set] has
    [STATE_CHANGE_QUORUM_SIZE] counters and indexing past its end is undefined
    ([None]). *)
Fixpoint verify_votes_loop (q : quorum) (hf_version : hf) (hash : bytes)
    (tracker : Z) (validator_set : list Z) (votes : list sc_vote)
    (tvc : tx_verification_context) : option (bool * tx_verification_context) :=
  match votes with
  | [] => Some (true, tvc)
  | vote :: rest =>
      let vvc := m_vote_ctx tvc in
      let ordered := hf13_enforce_checkpoints <=? hf_version in
      if ordered && (s32 (validator_index vote) <=? tracker) then
        Some (bad_tx (set_flag m_votes_not_sorted true vvc))
      else
        let tracker := if ordered then s32 (validator_index vote) else tracker in
        match bounds_check_validator_index q (validator_index vote) vvc with
        | (false, vvc) => Some (bad_tx vvc)
        | (true, vvc) =>
            let i := Z.to_nat (validator_index vote) in
            match validator_set !! i with
            | None => None
            | Some n =>
                if 1 <? n + 1 then Some (bad_tx (set_flag m_duplicate_voters true vvc))
                else if negb (check_signature hash (validators q !!! i) (sc_signature vote)) then
                  Some (bad_tx (set_flag m_signature_not_valid true vvc))
                else verify_votes_loop q hf_version hash tracker (<[i := n + 1]> validator_set)
                       rest tvc
            end
        end
  end.

Definition verify_tx_state_change (sc : tx_state_change) (latest_height : Z)
    (tvc : tx_verification_context) (q : quorum) (hf_version : hf)
    : option (bool * tx_verification_context) :=
  let vvc := m_vote_ctx tvc in
  if negb (tsc_state sc =? deregister) && (hf_version <? hf12_checkpointing) then Some (bad_tx vvc)
  else if new_state_count <=? tsc_state sc then Some (bad_tx vvc)
  else if Z.of_nat (length (tsc_votes sc)) <? STATE_CHANGE_MIN_VOTES_TO_CHANGE_STATE then
    Some (bad_tx (set_flag m_not_enough_votes true vvc))
  else if STATE_CHANGE_QUORUM_SIZE <? Z.of_nat (length (tsc_votes sc)) then Some (bad_tx vvc)
  else
    match bounds_check_worker_index q (service_node_index sc) vvc with
    | (false, vvc) => Some (bad_tx vvc)
    | (true, _) =>
        if latest_height <=? tsc_block_height sc then
          Some (false,
            Tvc (m_verifivation_failed tvc ||
                 (u64 (latest_height + VOTE_OR_TX_VERIFY_HEIGHT_BUFFER) <=? tsc_block_height sc))
              (set_flag m_invalid_block_height true vvc))
        else if u64 (tsc_block_height sc + VOTE_LIFETIME) <=? latest_height then
          Some (false,
            Tvc (m_verifivation_failed tvc ||
                 (u64 (tsc_block_height sc + (VOTE_LIFETIME + VOTE_OR_TX_VERIFY_HEIGHT_BUFFER))
                    <=? latest_height))
              (set_flag m_invalid_block_height true vvc))
        else
          let hash := make_state_change_vote_hash (tsc_block_height sc) (service_node_index sc)
                        (tsc_state sc) in
          verify_votes_loop q hf_version hash (-1)
            (replicate (Z.to_nat STATE_CHANGE_QUORUM_SIZE) 0) (tsc_votes sc) tvc
    end.

(** The loop of [verify_quorum_signatures].  The bounds check passes no context. *)
Fixpoint quorum_signatures_loop (q : quorum) (type : quorum_type) (hash : bytes)
    (enforce_vote_ordering : bool) (block : option block_pulse) (unique_vote_set : list Z)
    (signatures : list quorum_signature) : bool :=
  match signatures with
  | [] => true
  | s :: rest =>
      let out_of_order :=
        match rest with
        | next :: _ => enforce_vote_ordering && (voter_index next <=? voter_index s)
        | [] => false
        end in
      if out_of_order then false
      else if Z.of_nat (length (validators q)) <=? voter_index s then false
      else if match type with
              | pulse =>
                  match block with
                  | None => true
                  | Some b =>
                      Z.land (validator_bitset b) (u16 (Z.shiftl 1 (voter_index s))) =? 0
                  end
              | _ => false
              end then false
      else if Z.of_nat (length unique_vote_set) <=? voter_index s then false
      else
        let i := Z.to_nat (voter_index s) in
        if negb (unique_vote_set !!! i =? 0) then false
        else if negb (check_signature hash (validators q !!! i) (qs_signature s)) then false
        else quorum_signatures_loop q type hash enforce_vote_ordering block
               (<[i := unique_vote_set !!! i + 1]> unique_vote_set) rest
  end.

Definition verify_quorum_signatures (q : quorum) (type : quorum_type) (hf_version : hf)
    (hash : bytes) (signatures : list quorum_signature) (block : option block_pulse) : bool :=
  let n := Z.of_nat (length signatures) in
  let '(refused, enforce_vote_ordering) :=
    match type with
    | checkpointing =>
        ((n <? CHECKPOINT_MIN_VOTES) || (CHECKPOINT_QUORUM_SIZE <? n),
         hf13_enforce_checkpoints <=? hf_version)
    | pulse =>
        (negb (n =? PULSE_BLOCK_REQUIRED_SIGNATURES) ||
         match block with
         | None => true
         | Some b => Z.shiftl 1 PULSE_QUORUM_NUM_VALIDATORS <=? validator_bitset b
         end, true)
    | _ => (false, true)
    end in
  if refused then false
  else quorum_signatures_loop q type hash enforce_vote_ordering block
         (replicate (Z.to_nat MAX_QUORUM_SIZE) 0) signatures.

Definition verify_checkpoint (hf_version : hf) (checkpoint : checkpoint_t) (q : quorum) : bool :=
  match cp_type checkpoint with
  | service_node =>
      if negb (cp_height checkpoint mod CHECKPOINT_INTERVAL =? 0) then false
      else verify_quorum_signatures q checkpointing hf_version (cp_block_hash checkpoint)
             (cp_signatures checkpoint) None
  | hardcoded => (length (cp_signatures checkpoint) =? 0)%nat
  end.

Definition verify_vote_signature (hf_version : hf) (vote : quorum_vote_t)
    (vvc : vote_verification_context) (q : quorum) : bool * vote_verification_context :=
  let '(result, vvc) :=
    if quorum_type_top <? vote_type vote
    then (false, set_flag m_invalid_vote_type true vvc) else (true, vvc) in
  let '(result, vvc) :=
    if (group_worker <? group vote) || (group vote <? group_validator)
    then (false, set_flag m_incorrect_voting_group true vvc) else (result, vvc) in
  if negb result then (result, vvc)
  else
    let '(result, vvc) :=
      if group vote =? group_validator
      then bounds_check_validator_index q (index_in_group vote) vvc
      else bounds_check_worker_index q (index_in_group vote) vvc in
    if negb result then (result, vvc)
    else
      let wrong_group := negb (group vote =? group_validator) in
      let key := validators q !!! Z.to_nat (index_in_group vote) in
      if (vote_type vote =? vote_obligations) || (vote_type vote =? vote_checkpointing) then
        if wrong_group then (false, set_flag m_incorrect_voting_group true vvc)
        else
          let '(result, hash, vvc) :=
            if vote_type vote =? vote_obligations then
              let hash := make_state_change_vote_hash (block_height vote)
                            (worker_index (state_change vote)) (sc_state (state_change vote)) in
              let '(r, vvc) := bounds_check_worker_index q (worker_index (state_change vote)) vvc in
              (r, hash, vvc)
            else (true, checkpoint_block_hash vote, vvc) in
          if negb result then (result, vvc)
          else if check_signature hash key (vote_signature vote) then (true, vvc)
          else (false, set_flag m_signature_not_valid true vvc)
      else (false, vvc).

End Crypto.

(** ** The message determines the state change *)

Lemma store_le_inj n x y :
  0 <= x < 256 ^ Z.of_nat n -> 0 <= y < 256 ^ Z.of_nat n ->
  store_le n x = store_le n y -> x = y.
Proof.
  intros Hx Hy H. rewrite <- (load_store_le n x), <- (load_store_le n y) by done. by rewrite H.
Qed.

(** The message a state change vote signs determines the height, the worker index and
    the new state, although deregistrations leave the state out: a signature for one
    state change is never a signature for another one. *)
Theorem state_change_message_injective h i s h' i' s' :
  is_u64 h -> is_u32 i -> is_u16 s -> is_u64 h' -> is_u32 i' -> is_u16 s' ->
  state_change_message h i s = state_change_message h' i' s' -> h = h' /\ i = i' /\ s = s'.
Proof.
  intros Hh Hi Hs Hh' Hi' Hs'. unfold state_change_message.
  rewrite !length_app, !length_store_le. cbn [Nat.add Nat.sub].
  rewrite !(u16_small s), !(u16_small s') by done.
  assert (forall a b c, take 12 (store_le 8 a ++ store_le 4 b ++ store_le 2 c) =
    store_le 8 a ++ store_le 4 b) as Ht.
  { intros. rewrite app_assoc, take_app_length'; [done|].
    by rewrite length_app, !length_store_le. }
  assert (forall a b a' b' x y, store_le 8 a ++ store_le 4 b ++ x =
    store_le 8 a' ++ store_le 4 b' ++ y -> is_u64 a -> is_u32 b -> is_u64 a' -> is_u32 b' ->
    a = a' /\ b = b' /\ x = y) as Hinj.
  { intros a b a' b' x y E Ha Hb Ha' Hb'. apply app_inj_1 in E as [E1 E]; [|by rewrite !length_store_le].
    apply app_inj_1 in E as [E2 E]; [|by rewrite !length_store_le].
    apply store_le_inj in E1; [|width..]. by apply store_le_inj in E2; [|width..]. }
  destruct (Z.eqb_spec s deregister) as [Es|Es], (Z.eqb_spec s' deregister) as [Es'|Es'];
    rewrite ?Ht; intros E.
  - rewrite <- (app_nil_r (store_le 4 i)), <- (app_nil_r (store_le 4 i')) in E.
    apply Hinj in E as (-> & -> & _); try done. unfold deregister in *. by subst.
  - apply (f_equal length) in E. rewrite !length_app, !length_store_le in E. lia.
  - apply (f_equal length) in E. rewrite !length_app, !length_store_le in E. lia.
  - apply Hinj in E as (-> & -> & E); try done. by apply store_le_inj in E as ->; [|width..].
Qed.

Lemma state_change_message_injective_witness :
  state_change_message 5 1 decommission <> state_change_message 5 1 deregister.
Proof.
  intros E. destruct (state_change_message_injective 5 1 decommission 5 1 deregister
    ltac:(width) ltac:(width) ltac:(cbv; split; congruence) ltac:(width) ltac:(width)
    ltac:(cbv; split; congruence) E) as (_ & _ & H). discriminate H.
Defined.

(** ** Accepted state changes *)

Section StateChange.
Context (cn_fast_hash : bytes -> bytes).
Context (check_signature : bytes -> bytes -> bytes -> bool).

(** A vote by a member of the quorum with a valid signature of [hash]. *)
Definition vote_ok (q : quorum) (hash : bytes) (v : sc_vote) : Prop :=
  0 <= validator_index v < Z.of_nat (length (validators q)) /\
  check_signature hash (validators q !!! Z.to_nat (validator_index v)) (sc_signature v) = true.

Definition unseen (vs : list Z) (v : sc_vote) : Prop := vs !! Z.to_nat (validator_index v) = Some 0.

Definition ascending (tracker : Z) (votes : list sc_vote) : Prop :=
  Sorted Z.lt (tracker :: (validator_index <$> votes)).

Lemma votes_loop_defined q v hash tr vs votes tvc :
  (length (validators q) <= length vs)%nat -> Forall (fun x => 0 <= validator_index x) votes ->
  verify_votes_loop check_signature q v hash tr vs votes tvc <> None.
Proof.
  intros Hl Hn. revert tr vs tvc Hl. induction Hn as [|x votes Hx _ IH]; intros tr vs tvc Hl; [done|].
  cbn [verify_votes_loop]. case_match; [done|]. unfold bounds_check_validator_index.
  destruct (Z.leb_spec (Z.of_nat (length (validators q))) (validator_index x)); [done|].
  destruct (lookup_lt_is_Some_2 vs (Z.to_nat (validator_index x))) as [n ->]; [lia|].
  repeat case_match; try done; apply IH; by rewrite length_insert.
Qed.

Lemma unseen_insert vs i votes n :
  n <> 0 -> (i < length vs)%nat -> vs !! i = Some 0 ->
  Forall (unseen (<[i := n]> vs)) votes <->
  Forall (unseen vs) votes /\ ~ In i (Z.to_nat ∘ validator_index <$> votes).
Proof.
  intros Hn Hi Hvs. induction votes as [|x votes IH]; [cbn; split; auto|].
  rewrite !Forall_cons, IH. cbn [fmap list_fmap In]. unfold unseen, compose at 1 3.
  destruct (decide (Z.to_nat (validator_index x) = i)) as [E|E].
  - rewrite E. rewrite list_lookup_insert_eq by done. split; [|tauto]. intros [[= ?] _]. done.
  - rewrite list_lookup_insert_ne by done. unfold compose. tauto.
Qed.

Lemma votes_loop_spec q v hash tr vs votes tvc tvc' :
  (length (validators q) <= length vs)%nat -> (length (validators q) <= 10)%nat -> -1 <= tr ->
  Forall (fun x => 0 <= validator_index x < 2 ^ 31) votes -> Forall (fun n => 0 <= n) vs ->
  verify_votes_loop check_signature q v hash tr vs votes tvc = Some (true, tvc') <->
  tvc' = tvc /\ Forall (vote_ok q hash) votes /\ Forall (unseen vs) votes /\
  NoDup (Z.to_nat ∘ validator_index <$> votes) /\
  (hf13_enforce_checkpoints <= v -> ascending tr votes).
Proof.
  intros Hl Hl10 Htr Hn Hvs. revert tr vs Htr Hl Hvs.
  induction Hn as [|x votes Hx Hn IH]; intros tr vs Htr Hl Hvs.
  { cbn. split; [|by intros (-> & _)]. intros [= <-].
    split; [done|]. do 3 (split; [by constructor|]). intros _. by repeat constructor. }
  cbn [verify_votes_loop]. unfold bounds_check_validator_index.
  rewrite (s32_small (validator_index x)) by lia.
  assert (Hasc : forall b : bool, b = (hf13_enforce_checkpoints <=? v) ->
    (b && (validator_index x <=? tr) = true) \/
    ((hf13_enforce_checkpoints <= v -> tr < validator_index x) /\
     (b && (validator_index x <=? tr) = false))).
  { intros b ->. destruct (Z.leb_spec hf13_enforce_checkpoints v), (Z.leb_spec (validator_index x) tr);
      cbn; [left; done|right; split; [lia|done]..]. }
  destruct (Hasc _ eq_refl) as [Hb|[Hlt Hb]]; rewrite Hb.
  { split; [done|]. intros (_ & _ & _ & _ & Ha). bool_hyps. specialize (Ha ltac:(done)).
    unfold ascending in Ha. cbn [fmap list_fmap] in Ha. inversion_clear Ha as [|? ? _ Hr].
    inversion_clear Hr. lia. }
  destruct (Z.leb_spec (Z.of_nat (length (validators q))) (validator_index x)) as [Hge|Hin].
  { split; [done|]. intros (_ & Hok & _). inversion_clear Hok as [|? ? [? _] _]. lia. }
  destruct (lookup_lt_is_Some_2 vs (Z.to_nat (validator_index x))) as [n Hvn]; [lia|].
  rewrite Hvn. assert (0 <= n) as Hn0 by (by eapply Forall_lookup_1 in Hvs).
  destruct (Z.ltb_spec 1 (n + 1)) as [Hdup|Hnew].
  { split; [done|]. intros (_ & _ & Hu & _). inversion_clear Hu as [|? ? Hux _].
    unfold unseen in Hux. rewrite Hvn in Hux. injection Hux. lia. }
  assert (n = 0) as -> by lia.
  destruct (check_signature hash (validators q !!! Z.to_nat (validator_index x)) (sc_signature x))
    eqn:Esig; cbn [negb].
  2: { split; [done|]. intros (_ & Hok & _). inversion_clear Hok as [|? ? [_ Hs] _]. congruence. }
  rewrite IH; [|case_match; lia|by rewrite length_insert|by apply Forall_insert; [|lia]].
  rewrite unseen_insert by (done || lia). rewrite !Forall_cons. cbn [fmap list_fmap].
  rewrite NoDup_cons, list_elem_of_In. unfold compose at 2 4. unfold vote_ok at 2, unseen at 2.
  assert (Hcons : (hf13_enforce_checkpoints <= v ->
      ascending (if hf13_enforce_checkpoints <=? v then validator_index x else tr) votes) <->
    (hf13_enforce_checkpoints <= v -> ascending tr (x :: votes))).
  { destruct (Z.leb_spec hf13_enforce_checkpoints v); [|split; lia].
    unfold ascending. cbn [fmap list_fmap]. split; intros Ha Hv; specialize (Ha Hv).
    - constructor; [done|]. constructor. by apply Hlt.
    - by inversion_clear Ha. }
  rewrite Hcons. rewrite Hvn, Esig. split.
  - intros (-> & Hok & [Hu Hni] & Hnd & Ha). repeat split; try done; lia.
  - intros (-> & [_ Hok] & [_ Hu] & [Hni Hnd] & Ha). repeat split; done.
Qed.

Lemma state_change_accepted_spec sc latest tvc tvc' q v :
  (length (validators q) <= 10)%nat ->
  Forall (fun x => 0 <= validator_index x < 2 ^ 31) (tsc_votes sc) ->
  0 <= tsc_block_height sc < 2 ^ 63 -> 0 <= latest < 2 ^ 63 ->
  let hash := make_state_change_vote_hash cn_fast_hash (tsc_block_height sc)
                (service_node_index sc) (tsc_state sc) in
  verify_tx_state_change cn_fast_hash check_signature sc latest tvc q v <> None /\
  (verify_tx_state_change cn_fast_hash check_signature sc latest tvc q v = Some (true, tvc') <->
   tvc' = tvc /\ (tsc_state sc <> deregister -> hf12_checkpointing <= v) /\ tsc_state sc < 4 /\
   7 <= Z.of_nat (length (tsc_votes sc)) <= 10 /\
   service_node_index sc < Z.of_nat (length (workers q)) /\
   tsc_block_height sc < latest < tsc_block_height sc + 60 /\
   Forall (vote_ok q hash) (tsc_votes sc) /\
   NoDup (Z.to_nat ∘ validator_index <$> tsc_votes sc) /\
   (hf13_enforce_checkpoints <= v -> ascending (-1) (tsc_votes sc))).
Proof.
  intros Hq Hv Hh Hlat hash. unfold verify_tx_state_change, new_state_count, VOTE_LIFETIME,
    VOTE_OR_TX_VERIFY_HEIGHT_BUFFER, STATE_CHANGE_MIN_VOTES_TO_CHANGE_STATE,
    STATE_CHANGE_QUORUM_SIZE, bounds_check_worker_index. fold hash.
  destruct (_ && _) eqn:E1.
  { split; [done|]. split; [done|]. intros (_ & Hd & _). bool_hyps. specialize (Hd ltac:(done)). lia. }
  destruct (Z.leb_spec 4 (tsc_state sc)); [split; [done|]; split; [done|]; naive_solver lia|].
  destruct (Z.ltb_spec (Z.of_nat (length (tsc_votes sc))) 7);
    [split; [done|]; split; [done|]; naive_solver lia|].
  destruct (Z.ltb_spec 10 (Z.of_nat (length (tsc_votes sc))));
    [split; [done|]; split; [done|]; naive_solver lia|].
  destruct (Z.leb_spec (Z.of_nat (length (workers q))) (service_node_index sc));
    [split; [done|]; split; [done|]; naive_solver lia|].
  destruct (Z.leb_spec latest (tsc_block_height sc));
    [split; [done|]; split; [done|]; naive_solver lia|].
  rewrite (u64_small (tsc_block_height sc + 60)) by width.
  destruct (Z.leb_spec (tsc_block_height sc + 60) latest);
    [split; [done|]; split; [done|]; naive_solver lia|].
  split; [apply votes_loop_defined; [by rewrite length_replicate|]|].
  { eapply Forall_impl; [exact Hv|]. cbn. lia. }
  rewrite votes_loop_spec; [|by rewrite length_replicate|done|lia|done|by apply Forall_replicate].
  split.
  - intros (-> & Hok & _ & Hnd & Ha). repeat split; try done; try lia.
  - intros (-> & _ & _ & _ & _ & _ & Hok & Hnd & Ha). repeat split; try done.
    eapply Forall_impl; [exact Hok|]. intros x [Hx _]. unfold unseen.
    apply lookup_replicate_2. lia.
Qed.

(** (C28) What an accepted state change transaction proves: it names an existing worker, is
    for a height within the last 60 blocks, and carries 7 to 10 votes of pairwise
    different quorum members (in ascending order from HF13), each with a valid
    signature of exactly this height, worker and state; and every such transaction is
    accepted.  Verification never reads out of bounds on a quorum of at most 10. *)
Theorem state_change_accepted_iff sc latest tvc tvc' q v :
  (length (validators q) <= 10)%nat ->
  Forall (fun x => 0 <= validator_index x < 2 ^ 31) (tsc_votes sc) ->
  0 <= tsc_block_height sc < 2 ^ 63 -> 0 <= latest < 2 ^ 63 ->
  let hash := make_state_change_vote_hash cn_fast_hash (tsc_block_height sc)
                (service_node_index sc) (tsc_state sc) in
  verify_tx_state_change cn_fast_hash check_signature sc latest tvc q v <> None /\
  (verify_tx_state_change cn_fast_hash check_signature sc latest tvc q v = Some (true, tvc') <->
   tvc' = tvc /\ (tsc_state sc <> deregister -> hf12_checkpointing <= v) /\ tsc_state sc < 4 /\
   7 <= Z.of_nat (length (tsc_votes sc)) <= 10 /\
   service_node_index sc < Z.of_nat (length (workers q)) /\
   tsc_block_height sc < latest < tsc_block_height sc + 60 /\
   Forall (vote_ok q hash) (tsc_votes sc) /\
   NoDup (Z.to_nat ∘ validator_index <$> tsc_votes sc) /\
   (hf13_enforce_checkpoints <= v -> ascending (-1) (tsc_votes sc))).
Proof. apply state_change_accepted_spec. Qed.

End StateChange.

Section QuorumSignatures.
Context (check_signature : bytes -> bytes -> bytes -> bool).

(** A signature by a member of the quorum that (for Pulse) takes part in the round. *)
Definition sig_ok (q : quorum) (type : quorum_type) (hash : bytes) (block : option block_pulse)
    (s : quorum_signature) : Prop :=
  0 <= voter_index s < Z.of_nat (length (validators q)) /\
  check_signature hash (validators q !!! Z.to_nat (voter_index s)) (qs_signature s) = true /\
  (type = pulse -> exists b, block = Some b /\ Z.testbit (validator_bitset b) (voter_index s) = true).

Lemma land_bit_zero b i : 0 <= i < 16 -> (Z.land b (u16 (Z.shiftl 1 i)) =? 0) = negb (Z.testbit b i).
Proof.
  intros Hi. rewrite Z.shiftl_1_l. rewrite u16_small.
  2: { split; [apply Z.pow_nonneg; lia|]. change 65536 with (2 ^ 16). apply Z.pow_lt_mono_r; lia. }
  apply eq_true_iff_eq. rewrite Z.eqb_eq, negb_true_iff. split.
  - intros H. apply (f_equal (fun x => Z.testbit x i)) in H.
    rewrite Z.land_spec, Z.pow2_bits_true, Z.bits_0, andb_true_r in H by lia. done.
  - intros H. apply Z.bits_inj'. intros j Hj. rewrite Z.land_spec, Z.bits_0.
    destruct (Z.eq_dec j i) as [->|Hne]; [by rewrite H|].
    rewrite (Z.pow2_bits_false i j) by lia. apply andb_false_r.
Qed.

(** Voters in ascending order when that is enforced. *)
Definition voters_ordered (enforce : bool) (sigs : list quorum_signature) : Prop :=
  enforce = true -> Sorted Z.lt (voter_index <$> sigs).

Definition voted (vs : list Z) (s : quorum_signature) : Prop := vs !! Z.to_nat (voter_index s) = Some 0.

Lemma voted_insert vs i sigs n :
  n <> 0 -> (i < length vs)%nat -> vs !! i = Some 0 ->
  Forall (voted (<[i := n]> vs)) sigs <->
  Forall (voted vs) sigs /\ ~ In i (Z.to_nat ∘ voter_index <$> sigs).
Proof.
  intros Hn Hi Hvs. induction sigs as [|x sigs IH]; [cbn; split; auto|].
  rewrite !Forall_cons, IH. cbn [fmap list_fmap In]. unfold voted, compose at 1 3.
  destruct (decide (Z.to_nat (voter_index x) = i)) as [E|E].
  - rewrite E. rewrite list_lookup_insert_eq by done. split; [|tauto]. intros [[= ?] _]. done.
  - rewrite list_lookup_insert_ne by done. unfold compose. tauto.
Qed.

Lemma pulse_refused_spec q type block s :
  (type = pulse -> (length (validators q) <= 16)%nat) -> 0 <= voter_index s < Z.of_nat (length (validators q)) ->
  match type with
  | pulse =>
      match block with
      | None => true
      | Some b => Z.land (validator_bitset b) (u16 (Z.shiftl 1 (voter_index s))) =? 0
      end
  | _ => false
  end = false <->
  (type = pulse -> exists b, block = Some b /\ Z.testbit (validator_bitset b) (voter_index s) = true).
Proof.
  intros Hl Hi. destruct type; try (split; [discriminate|done]; fail); try (split; [|done]; discriminate).
  destruct block as [b|]; [|split; [done|]; intros H; by destruct (H eq_refl) as (? & ? & _)].
  specialize (Hl eq_refl). rewrite land_bit_zero by lia. rewrite negb_false_iff. split; [eauto|].
  intros H. by destruct (H eq_refl) as (? & [= <-] & ?).
Qed.

Lemma signatures_loop_spec q type hash enforce block vs sigs :
  (type = pulse -> (length (validators q) <= 16)%nat) -> (length (validators q) <= length vs)%nat ->
  Forall (fun s => 0 <= voter_index s) sigs -> Forall (fun n => 0 <= n) vs ->
  quorum_signatures_loop check_signature q type hash enforce block vs sigs = true <->
  Forall (sig_ok q type hash block) sigs /\ Forall (voted vs) sigs /\
  NoDup (Z.to_nat ∘ voter_index <$> sigs) /\ voters_ordered enforce sigs.
Proof.
  intros Hl16 Hl Hn. revert vs Hl. induction Hn as [|x sigs Hx Hn IH]; intros vs Hl Hvs.
  { cbn. split; [|done]. intros _. do 3 (split; [constructor|]). intros _. constructor. }
  cbn [quorum_signatures_loop]. rewrite !Forall_cons. cbn [fmap list_fmap].
  rewrite NoDup_cons, list_elem_of_In. unfold compose at 1.
  assert (Hord : forall r, r = match sigs with
      | next :: _ => enforce && (voter_index next <=? voter_index x) | [] => false end ->
    if r then voters_ordered enforce (x :: sigs) -> False
    else voters_ordered enforce sigs <-> voters_ordered enforce (x :: sigs)).
  { intros r ->. unfold voters_ordered. destruct sigs as [|y sigs].
    - cbn. split; intros _ _; repeat constructor.
    - cbn [fmap list_fmap]. destruct enforce; cbn [andb]; [|by split].
      destruct (Z.leb_spec (voter_index y) (voter_index x)) as [Hle|Hlt].
      + intros Ha. specialize (Ha eq_refl). inversion_clear Ha as [|? ? _ Hr]. inversion_clear Hr. lia.
      + split; intros Ha Ht; specialize (Ha Ht); [constructor; [exact Ha|by constructor]|by inversion_clear Ha]. }
  specialize (Hord _ eq_refl). destruct (match sigs with [] => _ | _ => _ end);
    [split; [done|]; tauto|].
  destruct (Z.leb_spec (Z.of_nat (length (validators q))) (voter_index x)) as [Hge|Hin].
  { split; [done|]. intros ([[? _] _] & _). lia. }
  pose proof (pulse_refused_spec q type block x Hl16 ltac:(lia)) as Hp.
  destruct (match type with pulse => _ | _ => _ end).
  { split; [done|]. intros ([(_ & _ & H) _] & _). by apply Hp in H. }
  destruct Hp as [Hp _]. specialize (Hp eq_refl).
  destruct (Z.leb_spec (Z.of_nat (length vs)) (voter_index x)); [lia|].
  destruct (lookup_lt_is_Some_2 vs (Z.to_nat (voter_index x))) as [n Hvn]; [lia|].
  rewrite (list_lookup_total_correct _ _ _ Hvn).
  change (voted vs x) with (vs !! Z.to_nat (voter_index x) = Some 0). unfold sig_ok at 1. rewrite Hvn.
  destruct (Z.eqb_spec n 0) as [->|Hn0]; cbn [negb];
    [|split; [done|]; intros (_ & [[= ?] _] & _); lia].
  destruct (check_signature _ _ _) eqn:Esig; cbn [negb];
    [|split; [done|]; intros ([(_ & ? & _) _] & _); congruence].
  rewrite IH; [|by rewrite length_insert|by apply Forall_insert; [|lia]].
  rewrite voted_insert by (done || lia). rewrite <- Hord.
  split.
  - intros (Hok & [Hv Hni] & Hnd & Ho). repeat split; try done; lia.
  - intros ([_ Hok] & [_ Hv] & [Hni Hnd] & Ho). repeat split; done.
Qed.

Lemma quorum_signatures_accepted_spec q v hash sigs block type :
  type = checkpointing \/ type = pulse ->
  (length (validators q) <= 20)%nat -> (type = pulse -> (length (validators q) <= 16)%nat) ->
  Forall (fun s => 0 <= voter_index s) sigs ->
  verify_quorum_signatures check_signature q type v hash sigs block = true <->
  Forall (sig_ok q type hash block) sigs /\ NoDup (Z.to_nat ∘ voter_index <$> sigs) /\
  (type = checkpointing -> (13 <= length sigs <= 20)%nat /\
     voters_ordered (hf13_enforce_checkpoints <=? v) sigs) /\
  (type = pulse -> length sigs = 7%nat /\ voters_ordered true sigs /\
     exists b, block = Some b /\ validator_bitset b < 2 ^ 11).
Proof.
  intros Htype Hl Hl16 Hn. unfold verify_quorum_signatures, CHECKPOINT_MIN_VOTES,
    CHECKPOINT_QUORUM_SIZE, PULSE_BLOCK_REQUIRED_SIGNATURES.
  pose proof (fun enforce => signatures_loop_spec q type hash enforce block (replicate 20 0) sigs Hl16
    ltac:(rewrite length_replicate; lia) Hn ltac:(by apply Forall_replicate)) as Hloop.
  change (Z.to_nat MAX_QUORUM_SIZE) with 20%nat.
  assert (Hv : Forall (sig_ok q type hash block) sigs -> Forall (voted (replicate 20 0)) sigs).
  { intros H. eapply Forall_impl; [exact H|]. intros s [Hs _]. apply lookup_replicate_2. lia. }
  destruct Htype as [-> | ->].
  - destruct (_ || _) eqn:E.
    { split; [done|]. intros (_ & _ & Hc & _). destruct (Hc eq_refl) as [? _]. bool_hyps; lia. }
    bool_hyps. rewrite Hloop. split.
    + intros (Hok & _ & Hnd & Ho). repeat split; try done; lia.
    + intros (Hok & Hnd & Hc & _). destruct (Hc eq_refl) as [_ Ho]. auto.
  - change (Z.shiftl 1 PULSE_QUORUM_NUM_VALIDATORS) with (2 ^ 11).
    destruct (_ || _) eqn:E.
    { split; [done|]. intros (_ & _ & _ & Hp). destruct (Hp eq_refl) as (? & _ & b & -> & ?).
      bool_hyps; lia. }
    apply orb_false_iff in E as [E1 E2]. bool_hyps. rewrite Hloop.
    destruct block as [b|]; [|done]. bool_hyps. split.
    + intros (Hok & _ & Hnd & Ho). repeat split; try done; eauto; lia.
    + intros (Hok & Hnd & _ & Hp). destruct (Hp eq_refl) as (_ & Ho & _). auto.
Qed.

(** Quorum signatures are accepted exactly when enough different members signed: a
    checkpoint needs 13 to 20 signatures (in ascending order from HF13), a Pulse block
    exactly 7 in ascending order, all by validators whose bit is set in the block's
    participation mask, itself within 11 bits; every signature must be valid for the
    member it names and no member may appear twice. *)
Theorem quorum_signatures_accepted_iff q v hash sigs block type :
  type = checkpointing \/ type = pulse ->
  (length (validators q) <= 20)%nat -> (type = pulse -> (length (validators q) <= 16)%nat) ->
  Forall (fun s => 0 <= voter_index s) sigs ->
  verify_quorum_signatures check_signature q type v hash sigs block = true <->
  Forall (sig_ok q type hash block) sigs /\ NoDup (Z.to_nat ∘ voter_index <$> sigs) /\
  (type = checkpointing -> (13 <= length sigs <= 20)%nat /\
     voters_ordered (hf13_enforce_checkpoints <=? v) sigs) /\
  (type = pulse -> length sigs = 7%nat /\ voters_ordered true sigs /\
     exists b, block = Some b /\ validator_bitset b < 2 ^ 11).
Proof. apply quorum_signatures_accepted_spec. Qed.

End QuorumSignatures.

(** Quorums of ten and eleven members, signatures that name the key and the hash. *)
Definition demo_keys (n : nat) : list bytes := (fun i => [Z.of_nat i]) <$> seq 1 n.
Definition demo_check (hash key sig : bytes) : bool := bool_decide (sig = key ++ hash).

Definition demo_state_change : tx_state_change :=
  let hash := state_change_message 100 1 decommission in
  TxStateChange decommission 100 1 1 1
    ((fun i => ScVote ([i + 1] ++ hash) i) <$> (Z.of_nat <$> seq 2 7)).

Lemma state_change_accepted_iff_witness :
  verify_tx_state_change (fun m => m) demo_check demo_state_change 150 (Tvc false no_flags)
    (Quorum (demo_keys 10) (demo_keys 3)) hf22_sn_policy = Some (true, Tvc false no_flags) /\
  NoDup (Z.to_nat ∘ validator_index <$> tsc_votes demo_state_change).
Proof.
  assert (verify_tx_state_change (fun m => m) demo_check demo_state_change 150 (Tvc false no_flags)
    (Quorum (demo_keys 10) (demo_keys 3)) hf22_sn_policy = Some (true, Tvc false no_flags)) as H
    by (vm_compute; reflexivity).
  split; [exact H|].
  pose proof (state_change_accepted_iff (fun m => m) demo_check demo_state_change 150
    (Tvc false no_flags) (Tvc false no_flags) (Quorum (demo_keys 10) (demo_keys 3)) hf22_sn_policy
    ltac:(cbn; lia) ltac:(repeat constructor; cbn; lia) ltac:(cbn; lia) ltac:(lia)) as [_ Hiff].
  apply Hiff in H. apply H.
Defined.

Lemma quorum_signatures_accepted_iff_witness :
  let sigs := (fun i => QuorumSignature i [i + 1; 9]) <$> (Z.of_nat <$> seq 3 7) in
  verify_quorum_signatures demo_check (Quorum (demo_keys 11) (demo_keys 1)) pulse hf22_sn_policy
    [9] sigs (Some (BlockPulse 2040 0)) = true /\
  NoDup (Z.to_nat ∘ voter_index <$> sigs).
Proof.
  intros sigs.
  assert (verify_quorum_signatures demo_check (Quorum (demo_keys 11) (demo_keys 1)) pulse
    hf22_sn_policy [9] sigs (Some (BlockPulse 2040 0)) = true) as H by (vm_compute; reflexivity).
  split; [exact H|].
  pose proof (quorum_signatures_accepted_iff demo_check (Quorum (demo_keys 11) (demo_keys 1))
    hf22_sn_policy [9] sigs (Some (BlockPulse 2040 0)) pulse (or_intror eq_refl)
    ltac:(cbn; lia) ltac:(cbn; lia) ltac:(repeat constructor; cbn; lia)) as Hiff.
  apply Hiff in H. apply H.
Defined.
