(* ===== verification/VotingPool.v ===== *)
(** * The vote pool

    [voting_pool] of [cryptonote_core/service_node_voting.{h,cpp}]: votes grouped by
    what they vote for, one list per group, with relaying times and expiry.  The two
    kinds of group share their code through a template, here a type class.  Time is an
    argument of the operations that read the clock. *)
From S2P Require Import Prelude Hardfork Rules Voting.

Record pool_vote_entry := PoolVoteEntry { pv_vote : quorum_vote_t; time_last_sent_p2p : Z }.

Definition pv_index (e : pool_vote_entry) : Z := index_in_group (pv_vote e).

Record obligations_pool_entry := ObligationsEntry {
  oe_height : Z;
  oe_worker_index : Z;
  oe_state : Z;
  oe_votes : list pool_vote_entry;
}.

Record checkpoint_pool_entry := CheckpointEntry {
  ce_height : Z;
  ce_hash : bytes;
  ce_votes : list pool_vote_entry;
}.

(** What the templates need of an entry: [operator==], construction from a vote, the
    height and the votes. *)
Class PoolEntry (T : Type) := {
  entry_key : Type;
  entry_key_dec :: EqDecision entry_key;
  key_of : T -> entry_key;
  vote_key : quorum_vote_t -> entry_key;
  of_vote : quorum_vote_t -> T;
  entry_height : T -> Z;
  entry_votes : T -> list pool_vote_entry;
  set_votes : list pool_vote_entry -> T -> T;
}.

#[global] Instance obligations_pool : PoolEntry obligations_pool_entry := {|
  entry_key := Z * Z * Z;
  key_of e := (oe_height e, oe_worker_index e, oe_state e);
  vote_key v := (block_height v, worker_index (state_change v), sc_state (state_change v));
  of_vote v := ObligationsEntry (block_height v) (worker_index (state_change v))
                 (sc_state (state_change v)) [];
  entry_height := oe_height;
  entry_votes := oe_votes;
  set_votes l e := ObligationsEntry (oe_height e) (oe_worker_index e) (oe_state e) l;
|}.

#[global] Instance checkpoint_pool : PoolEntry checkpoint_pool_entry := {|
  entry_key := Z * bytes;
  key_of e := (ce_height e, ce_hash e);
  vote_key v := (block_height v, checkpoint_block_hash v);
  of_vote v := CheckpointEntry (block_height v) (checkpoint_block_hash v) [];
  entry_height := ce_height;
  entry_votes := ce_votes;
  set_votes l e := CheckpointEntry (ce_height e) (ce_hash e) l;
|}.

Record voting_pool := VotingPool {
  m_obligations_pool : list obligations_pool_entry;
  m_checkpoint_pool : list checkpoint_pool_entry;
}.

(** [add_vote_to_pool_if_unique]: [lower_bound] by index, then insert unless the index is
    there.  Returns the new list and whether the vote was unique. *)
Fixpoint add_vote_to_pool_if_unique (votes : list pool_vote_entry) (vote : quorum_vote_t)
    : list pool_vote_entry * bool :=
  match votes with
  | [] => ([PoolVoteEntry vote 0], true)
  | e :: rest =>
      if pv_index e <? index_in_group vote then
        let '(rest, added) := add_vote_to_pool_if_unique rest vote in (e :: rest, added)
      else if negb (pv_index e =? index_in_group vote) then (PoolVoteEntry vote 0 :: votes, true)
      else (votes, false)
  end.

(** [set_relayed] on the list of a group: the first entry with the vote's index. *)
Fixpoint mark_relayed (votes : list pool_vote_entry) (index now : Z) : list pool_vote_entry :=
  match votes with
  | [] => []
  | e :: rest =>
      if index =? pv_index e then PoolVoteEntry (pv_vote e) now :: rest
      else e :: mark_relayed rest index now
  end.

Section Template.
Context {T : Type} `{PE : PoolEntry T}.

(** Apply [f] to the votes of the group of [vote], the pointer of [find_vote_in_pool];
    without [create] a missing group leaves the pool as it is. *)
Fixpoint with_vote_pool {R} (pool : list T) (vote : quorum_vote_t) (create : bool)
    (f : list pool_vote_entry -> list pool_vote_entry * R) : list T * option R :=
  match pool with
  | [] =>
      if create then
        let '(votes, r) := f (entry_votes (of_vote vote)) in
        ([set_votes votes (of_vote vote)], Some r)
      else ([], None)
  | e :: rest =>
      if decide (key_of e = vote_key vote) then
        let '(votes, r) := f (entry_votes e) in (set_votes votes e :: rest, Some r)
      else
        let '(rest, r) := with_vote_pool rest vote create f in (e :: rest, r)
  end.

Definition append_relayable_votes (result : list quorum_vote_t) (pool : list T)
    (max_last_sent min_height : Z) : list quorum_vote_t :=
  result ++ flat_map (fun e =>
    pv_vote <$> filter (fun ve => min_height <= block_height (pv_vote ve) /\
                                  time_last_sent_p2p ve <= max_last_sent) (entry_votes e)) pool.

Definition cull_votes (pool : list T) (min_height max_height : Z) : list T :=
  filter (fun e => ~ (entry_height e < min_height \/ max_height < entry_height e)) pool.

End Template.

(** Apply [f] to the votes [find_vote_pool] points to. *)
Definition with_pool {R} (vp : voting_pool) (vote : quorum_vote_t) (create : bool)
    (f : list pool_vote_entry -> list pool_vote_entry * R) : voting_pool * option R :=
  if vote_type vote =? vote_obligations then
    let '(p, r) := with_vote_pool (m_obligations_pool vp) vote create f in
    (VotingPool p (m_checkpoint_pool vp), r)
  else if vote_type vote =? vote_checkpointing then
    let '(p, r) := with_vote_pool (m_checkpoint_pool vp) vote create f in
    (VotingPool (m_obligations_pool vp) p, r)
  else (vp, None).

Definition set_relayed (vp : voting_pool) (votes : list quorum_vote_t) (now : Z) : voting_pool :=
  foldl (fun vp v => (with_pool vp v false
                        (fun l => (mark_relayed l (index_in_group v) now, tt))).1) vp votes.

Definition TIME_BETWEEN_RELAY : Z := 60 * 2.

Definition get_relayable_votes (vp : voting_pool) (now height : Z) (hf_version : hf)
    (quorum_relay : bool) : list quorum_vote_t :=
  let max_last_sent := u64 (now - TIME_BETWEEN_RELAY) in
  let min_height := if VOTE_LIFETIME <? height then height - VOTE_LIFETIME else 0 in
  if quorum_relay && (hf_version <? hf14_blink) then []
  else
    let result :=
      if (hf_version <? hf14_blink) || quorum_relay
      then append_relayable_votes [] (m_obligations_pool vp) max_last_sent min_height else [] in
    if (hf_version <? hf14_blink) || negb quorum_relay
    then append_relayable_votes result (m_checkpoint_pool vp) max_last_sent min_height else result.

(** The returned list is the group's votes after the addition; it is empty, and the
    context untouched, for a type that has no pool. *)
Definition add_pool_vote_if_unique (vp : voting_pool) (vote : quorum_vote_t)
    (vvc : vote_verification_context)
    : voting_pool * list pool_vote_entry * vote_verification_context :=
  let '(vp, r) := with_pool vp vote true
                    (fun l => let '(l', added) := add_vote_to_pool_if_unique l vote in
                              (l', (l', added))) in
  match r with
  | None => (vp, [], vvc)
  | Some (l, added) => (vp, l, set_flag m_added_to_pool added vvc)
  end.

(** A transaction of a block as far as the pool looks at it: whether it is a state
    change, and the state change parsed from its extra. *)
Record pool_tx := PoolTx { tx_is_state_change : bool; tx_state_change_extra : option tx_state_change }.

Fixpoint erase_first (sc : tx_state_change) (pool : list obligations_pool_entry)
    : list obligations_pool_entry :=
  match pool with
  | [] => []
  | e :: rest =>
      if decide (key_of e = (tsc_block_height sc, service_node_index sc, tsc_state sc))
      then rest else e :: erase_first sc rest
  end.

Definition remove_used_votes (vp : voting_pool) (txs : list pool_tx) : voting_pool :=
  VotingPool
    (foldl (fun pool tx =>
       if tx_is_state_change tx then
         match tx_state_change_extra tx with
         | Some sc => erase_first sc pool
         | None => pool
         end
       else pool) (m_obligations_pool vp) txs)
    (m_checkpoint_pool vp).

Definition remove_expired_votes (vp : voting_pool) (height : Z) : voting_pool :=
  let min_height := if height <? VOTE_LIFETIME then 0 else height - VOTE_LIFETIME in
  VotingPool (cull_votes (m_obligations_pool vp) min_height height)
             (cull_votes (m_checkpoint_pool vp) min_height height).

(** Only the first group of the height is looked at. *)
Definition received_checkpoint_vote (vp : voting_pool) (height index_in_quorum : Z) : bool :=
  match List.find (fun e => ce_height e =? height) (m_checkpoint_pool vp) with
  | None => false
  | Some e => existsb (fun ve => pv_index ve =? index_in_quorum) (ce_votes e)
  end.

(** ** The invariant *)

(** The laws the proofs use of an entry type. *)
Class PoolEntryLaws (T : Type) `{PE : PoolEntry T} := {
  key_of_vote : forall v, key_of (of_vote v) = vote_key v;
  votes_of_vote : forall v, entry_votes (of_vote v) = [];
  votes_set_votes : forall l e, entry_votes (set_votes l e) = l;
  key_set_votes : forall l e, key_of (set_votes l e) = key_of e;
  height_of_key : forall v e, key_of e = vote_key v -> entry_height e = block_height v;
}.

#[global] Instance obligations_laws : PoolEntryLaws obligations_pool_entry.
Proof. split; try reflexivity. intros v e [= H _ _]. exact H. Qed.
#[global] Instance checkpoint_laws : PoolEntryLaws checkpoint_pool_entry.
Proof. split; try reflexivity. intros v e [= H _]. exact H. Qed.

(** Votes strictly sorted by voter: one vote per voter. *)
Definition votes_sorted (l : list pool_vote_entry) : Prop := StronglySorted Z.lt (pv_index <$> l).

Section Invariant.
Context {T : Type} `{PEL : PoolEntryLaws T}.

(** All votes of a group have its type and are for what the group is for. *)
Definition entry_ok (t : Z) (e : T) : Prop :=
  votes_sorted (entry_votes e) /\ entry_votes e <> [] /\
  Forall (fun ve => vote_type (pv_vote ve) = t /\ vote_key (pv_vote ve) = key_of e) (entry_votes e).

Definition pool_ok (t : Z) (pool : list T) : Prop :=
  Forall (entry_ok t) pool /\ NoDup (key_of <$> pool).

(** A change of one group's votes that keeps the group well formed. *)
Definition keeps_ok {R} (t : Z) (vote : quorum_vote_t) (P : list pool_vote_entry -> Prop)
    (f : list pool_vote_entry -> list pool_vote_entry * R) : Prop :=
  forall l, votes_sorted l -> P l ->
    Forall (fun ve => vote_type (pv_vote ve) = t /\ vote_key (pv_vote ve) = vote_key vote) l ->
    votes_sorted (f l).1 /\ (f l).1 <> [] /\
    Forall (fun ve => vote_type (pv_vote ve) = t /\ vote_key (pv_vote ve) = vote_key vote) (f l).1.

Lemma with_vote_pool_keys {R} pool vote create (f : _ -> _ * R) :
  key_of <$> (with_vote_pool pool vote create f).1 =
  (key_of <$> pool) ++
    (if create then if decide (vote_key vote ∈ (key_of <$> pool)) then [] else [vote_key vote] else []).
Proof.
  induction pool as [|e rest IH]; cbn [with_vote_pool fmap list_fmap app].
  - destruct create; [|done]. destruct (f _) as [l r]. cbn.
    rewrite decide_False by apply not_elem_of_nil. by rewrite key_set_votes, key_of_vote.
  - destruct (decide (key_of e = vote_key vote)) as [E|E].
    + destruct (f (entry_votes e)) as [l r]. cbn. rewrite key_set_votes, E.
      destruct create; rewrite ?decide_True by (left; done); by rewrite app_nil_r.
    + destruct (with_vote_pool rest vote create f) as [rest' r]. cbn in *. rewrite IH.
      destruct create; [|done].
      destruct (decide (vote_key vote ∈ key_of <$> rest)) as [Hin|Hin];
        [rewrite decide_True by (by right)|rewrite decide_False]; [done|done|].
      intros [?|?]%elem_of_cons; [by apply E|done].
Qed.

Lemma with_vote_pool_ok {R} t pool vote create (f : _ -> _ * R) P :
  pool_ok t pool -> keeps_ok t vote P f ->
  (forall e, In e pool -> key_of e = vote_key vote -> P (entry_votes e)) ->
  (create = true -> P []) -> pool_ok t (with_vote_pool pool vote create f).1.
Proof.
  intros [Hok Hnd] Hf HP Hc. split.
  - clear Hnd. induction Hok as [|e rest (He1 & Hne & He2) Hrest IH]; cbn [with_vote_pool].
    + destruct create; [|constructor]. rewrite votes_of_vote.
      destruct (Hf []) as (H1 & H2 & H3); [constructor|by apply Hc|constructor|].
      destruct (f []) as [l r]. cbn in *. constructor; [|done]. unfold entry_ok.
      by rewrite votes_set_votes, key_set_votes, key_of_vote.
    + destruct (decide (key_of e = vote_key vote)) as [E|E].
      * destruct (Hf (entry_votes e)) as (H1 & H2 & H3);
          [done|apply HP; [by left|done]|by rewrite <- E|].
        destruct (f _) as [l r]. cbn in *. constructor; [|done]. unfold entry_ok.
        by rewrite votes_set_votes, key_set_votes, E.
      * destruct (with_vote_pool rest vote create f) as [rest' r] eqn:Er. cbn in *.
        constructor; [done|]. apply IH. intros e' He'. apply HP. by right.
  - rewrite with_vote_pool_keys. apply NoDup_app. split; [done|].
    destruct create; [|split; [intros ? _ ?%elem_of_nil|]; try done; constructor].
    case_decide; [split; [intros ? _ ?%elem_of_nil|]; try done; constructor|].
    split; [|apply NoDup_singleton]. intros x Hx ->%list_elem_of_singleton. done.
Qed.

Lemma filter_pool_ok t (P : T -> Prop) `{forall e, Decision (P e)} pool :
  pool_ok t pool -> pool_ok t (filter P pool).
Proof.
  intros [Hok Hnd]. split.
  - rewrite Forall_forall in Hok |- *. intros e [_ He]%list_elem_of_filter. by apply Hok.
  - eapply sublist_NoDup; [exact Hnd|]. apply fmap_sublist, sublist_filter.
Qed.

End Invariant.

(** *** The two changes the pool makes to a group *)

Lemma add_vote_spec l v :
  votes_sorted l ->
  let '(l', added) := add_vote_to_pool_if_unique l v in
  votes_sorted l' /\ l' <> [] /\
  (forall ve, In ve l' <-> In ve l \/ (added = true /\ ve = PoolVoteEntry v 0)) /\
  (added = true <-> ~ In (index_in_group v) (pv_index <$> l)) /\
  In (index_in_group v) (pv_index <$> l').
Proof.
  unfold votes_sorted. induction l as [|e l IH]; intros Hs; cbn [add_vote_to_pool_if_unique].
  { cbn. repeat split; try done; [by repeat constructor|naive_solver..]. }
  cbn [fmap list_fmap] in Hs. inversion_clear Hs as [|? ? Hs' Hall].
  destruct (Z.ltb_spec (pv_index e) (index_in_group v)) as [Hlt|Hge].
  - specialize (IH Hs'). destruct (add_vote_to_pool_if_unique l v) as [l' added].
    destruct IH as (Hsl & _ & Hmem & Hadd & Hin). cbn [fmap list_fmap In]. split; [|split; [done|]].
    { constructor; [done|]. apply List.Forall_forall. intros i Hi.
      apply list_elem_of_In, list_elem_of_fmap in Hi as (ve & -> & Hve%list_elem_of_In).
      apply Hmem in Hve as [Hve|[_ ->]]; [|done]. rewrite List.Forall_forall in Hall.
      apply Hall. apply list_elem_of_In, list_elem_of_fmap. exists ve. by rewrite list_elem_of_In. }
    split; [intros ve; rewrite Hmem; tauto|]. rewrite Hadd. split; [|by right].
    split; [|tauto]. intros Hn [Heq|?]; [lia|done].
  - destruct (Z.eqb_spec (pv_index e) (index_in_group v)) as [Heq|Hne]; cbn [negb fmap list_fmap In].
    + split; [by constructor|]. split; [done|]. split; [naive_solver|]. naive_solver.
    + split; [constructor; [by constructor|]|].
      { change (pv_index (PoolVoteEntry v 0)) with (index_in_group v). constructor; [lia|].
        eapply Forall_impl; [exact Hall|]. intros. lia. }
      split; [done|]. split; [naive_solver|]. split; [|by left]. split; [|done].
      intros _ [?|Hin]; [done|]. rewrite List.Forall_forall in Hall. specialize (Hall _ Hin). lia.
Qed.

Lemma mark_relayed_spec l i now :
  (pv_index <$> mark_relayed l i now) = (pv_index <$> l) /\
  (pv_vote <$> mark_relayed l i now) = (pv_vote <$> l).
Proof.
  induction l as [|e l [IH1 IH2]]; [done|]. cbn [mark_relayed]. case_match; [done|].
  cbn [fmap list_fmap]. unfold fmap in *. by rewrite IH1, IH2.
Qed.

(** *** The pool as a state machine *)

Definition vp_ok (vp : voting_pool) : Prop :=
  pool_ok vote_obligations (m_obligations_pool vp) /\
  pool_ok vote_checkpointing (m_checkpoint_pool vp).

Definition empty_pool : voting_pool := VotingPool [] [].

Inductive pool_step : voting_pool -> voting_pool -> Prop :=
  | step_add vp v vvc : pool_step vp (add_pool_vote_if_unique vp v vvc).1.1
  | step_relayed vp votes now : pool_step vp (set_relayed vp votes now)
  | step_used vp txs : pool_step vp (remove_used_votes vp txs)
  | step_expired vp h : pool_step vp (remove_expired_votes vp h).

Definition pool_reachable : voting_pool -> Prop := rtc pool_step empty_pool.

Lemma add_keeps_ok {T} `{PEL : PoolEntryLaws T} t vote :
  vote_type vote = t ->
  keeps_ok (T:=T) t vote (fun _ => True)
    (fun l => let '(l', added) := add_vote_to_pool_if_unique l vote in (l', (l', added))).
Proof.
  intros Ht l Hs _ Hall. pose proof (add_vote_spec l vote Hs) as H.
  destruct (add_vote_to_pool_if_unique l vote) as [l' added]. cbn.
  destruct H as (H1 & H2 & Hmem & _). split; [done|]. split; [done|].
  rewrite List.Forall_forall in Hall |- *. intros ve [Hve|[_ ->]]%Hmem; [by apply Hall|done].
Qed.

Lemma mark_keeps_ok {T} `{PEL : PoolEntryLaws T} t vote now :
  keeps_ok (T:=T) t vote (fun l => l <> [])
    (fun l => (mark_relayed l (index_in_group vote) now, tt)).
Proof.
  intros l Hs Hne Hall. cbn.
  destruct (mark_relayed_spec l (index_in_group vote) now) as [E1 E2].
  unfold votes_sorted. rewrite E1. split; [done|]. split.
  - intros E. rewrite E in E1. by destruct l.
  - apply (Forall_fmap pv_vote (fun v => vote_type v = t /\ vote_key v = vote_key vote)).
    rewrite E2. by apply Forall_fmap.
Qed.

Lemma add_step_ok vp v vvc : vp_ok vp -> vp_ok (add_pool_vote_if_unique vp v vvc).1.1.
Proof.
  intros [Ho Hc]. unfold add_pool_vote_if_unique, with_pool.
  destruct (Z.eqb_spec (vote_type v) vote_obligations) as [E|_].
  - pose proof (with_vote_pool_ok _ _ v true _ _ Ho (add_keeps_ok _ v E) ltac:(done) ltac:(done)) as H.
    destruct (with_vote_pool _ _ _ _) as [p [[l b]|]]; by split.
  - destruct (Z.eqb_spec (vote_type v) vote_checkpointing) as [E|_]; [|by split].
    pose proof (with_vote_pool_ok _ _ v true _ _ Hc (add_keeps_ok _ v E) ltac:(done) ltac:(done)) as H.
    destruct (with_vote_pool _ _ _ _) as [p [[l b]|]]; by split.
Qed.

Lemma nonempty_groups {T} `{PEL : PoolEntryLaws T} t (pool : list T) e :
  pool_ok t pool -> In e pool -> entry_votes e <> [].
Proof. intros [H _]. rewrite List.Forall_forall in H. intros He. apply (H e He). Qed.

Lemma relayed_one_ok vp v now :
  vp_ok vp ->
  vp_ok (with_pool vp v false (fun l => (mark_relayed l (index_in_group v) now, tt))).1.
Proof.
  intros [Ho Hc]. unfold with_pool. case_match; [|case_match; [|by split]].
  - pose proof (with_vote_pool_ok _ _ v false _ _ Ho (mark_keeps_ok _ v now)
      (fun e He _ => nonempty_groups _ _ e Ho He) ltac:(done)) as H'.
    destruct (with_vote_pool _ _ _ _) as [p r]; by split.
  - pose proof (with_vote_pool_ok _ _ v false _ _ Hc (mark_keeps_ok _ v now)
      (fun e He _ => nonempty_groups _ _ e Hc He) ltac:(done)) as H'.
    destruct (with_vote_pool _ _ _ _) as [p r]; by split.
Qed.

Lemma erase_first_sublist sc pool : erase_first sc pool `sublist_of` pool.
Proof.
  induction pool as [|e rest IH]; [done|]. cbn [erase_first].
  case_decide; [by apply sublist_cons|by apply sublist_skip].
Qed.

Lemma sublist_pool_ok {T} `{PEL : PoolEntryLaws T} t (pool pool' : list T) :
  pool' `sublist_of` pool -> pool_ok t pool -> pool_ok t pool'.
Proof.
  intros Hs [Hok Hnd]. split.
  - rewrite Forall_forall in Hok |- *. intros e He. apply Hok. by eapply elem_of_sublist in He.
  - eapply sublist_NoDup; [exact Hnd|]. by apply fmap_sublist.
Qed.

Lemma used_step_ok vp txs : vp_ok vp -> vp_ok (remove_used_votes vp txs).
Proof.
  intros [Ho Hc]. split; [|done]. cbn. revert Ho. generalize (m_obligations_pool vp).
  induction txs as [|tx txs IH]; intros pool Ho; [done|]. cbn [foldl]. apply IH.
  repeat case_match; try done. eapply sublist_pool_ok; [apply erase_first_sublist|done].
Qed.

Lemma set_relayed_ok vp votes now : vp_ok vp -> vp_ok (set_relayed vp votes now).
Proof.
  unfold set_relayed. revert vp. induction votes as [|v votes IHv]; intros vp Hok; [done|].
  cbn [foldl]. by apply IHv, relayed_one_ok.
Qed.

Lemma reachable_ok vp : pool_reachable vp -> vp_ok vp.
Proof.
  revert vp. apply (rtc_ind_r (R:=pool_step) vp_ok empty_pool).
  - repeat split; constructor.
  - intros vp vp' _ Hstep IH. destruct Hstep.
    + by apply add_step_ok.
    + by apply set_relayed_ok.
    + by apply used_step_ok.
    + destruct IH. split; by apply filter_pool_ok.
Qed.

(** (C34) The vote pool never counts a voter twice: in every state the pool can reach, each
    group is non-empty, holds only votes for what the group is for, strictly sorted by
    voter, and no two groups are for the same thing. *)
Theorem pool_invariant vp : pool_reachable vp -> vp_ok vp.
Proof. apply reachable_ok. Qed.

Lemma pool_invariant_witness :
  vp_ok (add_pool_vote_if_unique empty_pool
    (QuorumVote 0 vote_obligations 10 group_validator 3 [] (StateChangeVote 1 0 0) []) no_flags).1.1.
Proof. apply pool_invariant. apply rtc_once, step_add. Defined.

(** ** Votes per target *)

(** The votes of the first group with a key; none without such a group. *)
Fixpoint group_of {T} `{PE : PoolEntry T} (pool : list T) (k : entry_key) : list pool_vote_entry :=
  match pool with
  | [] => []
  | e :: rest => if decide (key_of e = k) then entry_votes e else group_of rest k
  end.

Definition group_votes (vp : voting_pool) (v : quorum_vote_t) : list pool_vote_entry :=
  if vote_type v =? vote_obligations then group_of (m_obligations_pool vp) (vote_key v)
  else if vote_type v =? vote_checkpointing then group_of (m_checkpoint_pool vp) (vote_key v)
  else [].

(** Two votes for the same thing. *)
Definition same_target (v w : quorum_vote_t) : Prop :=
  vote_type v = vote_type w /\
  (vote_type v = vote_obligations -> vote_key (T:=obligations_pool_entry) v = vote_key w) /\
  (vote_type v = vote_checkpointing -> vote_key (T:=checkpoint_pool_entry) v = vote_key w).

Lemma group_of_update {T} `{PEL : PoolEntryLaws T} {R} (pool : list T) vote (f : _ -> _ * R) :
  (with_vote_pool pool vote true f).2 = Some (f (group_of pool (vote_key vote))).2 /\
  forall k, group_of (with_vote_pool pool vote true f).1 k =
    if decide (k = vote_key vote) then (f (group_of pool (vote_key vote))).1 else group_of pool k.
Proof.
  induction pool as [|e rest [IH1 IH2]]; cbn [with_vote_pool group_of].
  - rewrite votes_of_vote. destruct (f []) as [l r]. cbn. split; [done|]. intros k.
    rewrite key_set_votes, key_of_vote, votes_set_votes.
    destruct (decide (k = vote_key vote)) as [->|Hne]; [by rewrite decide_True|].
    by rewrite decide_False.
  - destruct (decide (key_of e = vote_key vote)) as [E|E].
    + destruct (f (entry_votes e)) as [l r]. cbn. split; [done|]. intros k.
      rewrite key_set_votes, votes_set_votes.
      destruct (decide (k = vote_key vote)) as [->|Hne]; [by rewrite decide_True|].
      rewrite !decide_False by congruence. done.
    + destruct (with_vote_pool rest vote true f) as [rest' r]. cbn in *. split; [done|].
      intros k. rewrite IH2. destruct (decide (k = vote_key vote)) as [->|Hne]; [|done].
      by rewrite decide_False.
Qed.

Lemma group_of_ok {T} `{PEL : PoolEntryLaws T} t (pool : list T) k :
  pool_ok t pool -> votes_sorted (group_of pool k) /\
  Forall (fun ve => vote_type (pv_vote ve) = t /\ vote_key (pv_vote ve) = k) (group_of pool k).
Proof.
  intros [H _]. induction H as [|e rest (H1 & _ & H2) _ IH]; cbn [group_of];
    [split; constructor|].
  case_decide as E; [|done]. by rewrite <- E.
Qed.

Lemma sorted_nodup l : votes_sorted l -> NoDup (pv_index <$> l).
Proof.
  unfold votes_sorted. induction (pv_index <$> l) as [|x xs IH]; [constructor|].
  intros H. inversion_clear H as [|? ? Hs Hall]. constructor; [|by apply IH].
  intros Hin%list_elem_of_In. rewrite List.Forall_forall in Hall. specialize (Hall _ Hin). lia.
Qed.

Lemma add_in_pool {T} `{PEL : PoolEntryLaws T} t (pool : list T) v :
  pool_ok t pool -> vote_type v = t ->
  exists p l b,
    with_vote_pool pool v true
      (fun l => let '(l', added) := add_vote_to_pool_if_unique l v in (l', (l', added))) =
      (p, Some (l, b)) /\
    NoDup (pv_index <$> l) /\ In (index_in_group v) (pv_index <$> l) /\
    Forall (fun ve => vote_type (pv_vote ve) = t /\ vote_key (pv_vote ve) = vote_key v) l /\
    (b = true <-> ~ In (index_in_group v) (pv_index <$> group_of pool (vote_key v))) /\
    forall k, group_of p k = if decide (k = vote_key v) then l else group_of pool k.
Proof.
  intros Hok Htype. destruct (group_of_ok t pool (vote_key v) Hok) as [Hs Hall].
  set (f := fun l => let '(l', added) := add_vote_to_pool_if_unique l v in (l', (l', added))).
  destruct (group_of_update pool v f) as [E1 E2].
  pose proof (add_vote_spec _ v Hs) as Hspec.
  destruct (add_vote_to_pool_if_unique (group_of pool (vote_key v)) v) as [l' b] eqn:Ea.
  assert (f (group_of pool (vote_key v)) = (l', (l', b))) as Ef by (unfold f; by rewrite Ea).
  rewrite Ef in E1, E2. destruct Hspec as (S1 & _ & S3 & S4 & S5).
  destruct (with_vote_pool pool v true f) as [p r]. cbn in E1, E2. subst r.
  exists p, l', b. split; [done|]. split; [by apply sorted_nodup|]. split; [done|].
  split; [|split; [done|exact E2]].
  rewrite List.Forall_forall in Hall |- *. intros ve [Hve|[_ ->]]%S3; [by apply Hall|done].
Qed.

(** Adding a vote in any reachable state returns the votes for its target, one per
    voter and all for that target, the new voter among them; the context says whether the
    voter is new; later lookups see the returned list for this target and unchanged
    lists for every other one. *)
Theorem add_vote_behaviour vp v vvc vp' l vvc' :
  pool_reachable vp -> vote_type v = vote_obligations \/ vote_type v = vote_checkpointing ->
  add_pool_vote_if_unique vp v vvc = (vp', l, vvc') ->
  NoDup (pv_index <$> l) /\ In (index_in_group v) (pv_index <$> l) /\
  Forall (fun ve => same_target (pv_vote ve) v) l /\
  (vvc' m_added_to_pool = true <-> ~ In (index_in_group v) (pv_index <$> group_votes vp v)) /\
  group_votes vp' v = l /\
  (forall w, ~ same_target w v -> group_votes vp' w = group_votes vp w).
Proof.
  intros [Ho Hc]%reachable_ok Ht. unfold add_pool_vote_if_unique, with_pool, group_votes.
  destruct Ht as [Ht|Ht]; rewrite Ht; cbn [Z.eqb vote_obligations vote_checkpointing].
  - destruct (add_in_pool _ _ v Ho Ht) as (p & l0 & b & -> & Hnd & Hin & Hall & Hb & Hg).
    intros [= <- <- <-]. split; [done|]. split; [done|]. split; [|split; [|split]].
    + eapply Forall_impl; [exact Hall|]. intros ve [? ?]. repeat split; [congruence|done|].
      intros Hx. rewrite Hx in *. discriminate.
    + unfold set_flag. by rewrite decide_True.
    + cbn. rewrite Hg, decide_True by done. done.
    + intros w Hw. cbn [m_obligations_pool m_checkpoint_pool].
      destruct (Z.eqb_spec (vote_type w) vote_obligations) as [Ew|]; [|done].
      rewrite Hg, decide_False; [done|]. intros Hk. apply Hw. split; [congruence|].
      split; [done|]. rewrite Ew. discriminate.
  - destruct (add_in_pool _ _ v Hc Ht) as (p & l0 & b & -> & Hnd & Hin & Hall & Hb & Hg).
    intros [= <- <- <-]. split; [done|]. split; [done|]. split; [|split; [|split]].
    + eapply Forall_impl; [exact Hall|]. intros ve [? ?]. repeat split; [congruence| |done].
      intros Hx. rewrite Hx in *. discriminate.
    + unfold set_flag. by rewrite decide_True.
    + cbn. rewrite Hg, decide_True by done. done.
    + intros w Hw. cbn [m_obligations_pool m_checkpoint_pool].
      destruct (Z.eqb_spec (vote_type w) vote_obligations) as [Ew|]; [done|].
      destruct (Z.eqb_spec (vote_type w) vote_checkpointing) as [Ew|]; [|done].
      rewrite Hg, decide_False; [done|]. intros Hk. apply Hw. split; [congruence|].
      split; [|done]. rewrite Ew. discriminate.
Qed.

Definition demo_vote (index : Z) : quorum_vote_t :=
  QuorumVote 0 vote_checkpointing 40 group_validator index [] (StateChangeVote 0 0 0) [7].

Lemma add_vote_behaviour_witness :
  let vp := (add_pool_vote_if_unique empty_pool (demo_vote 5) no_flags).1.1 in
  let '(_, l, vvc) := add_pool_vote_if_unique vp (demo_vote 2) no_flags in
  NoDup (pv_index <$> l) /\ (pv_index <$> l) = [2; 5] /\ vvc m_added_to_pool = true.
Proof.
  intros vp.
  destruct (add_pool_vote_if_unique vp (demo_vote 2) no_flags) as [[vp' l] vvc] eqn:E.
  destruct (add_vote_behaviour vp (demo_vote 2) no_flags vp' l vvc) as (H & _);
    [apply rtc_once, step_add|right; reflexivity|exact E|].
  split; [exact H|]. vm_compute in E. injection E as <- <- <-. split; reflexivity.
Defined.

(** ** Relaying *)

(** Every vote of this voter for this target was last sent at [now]. *)
Definition sent_at {T} `{PE : PoolEntry T} (pool : list T) (v : quorum_vote_t) (now : Z) : Prop :=
  forall e ve, In e pool -> key_of e = vote_key v -> In ve (entry_votes e) ->
    pv_index ve = index_in_group v -> time_last_sent_p2p ve = now.

Lemma mark_relayed_time l i now ve :
  In ve (mark_relayed l i now) -> In ve l \/ time_last_sent_p2p ve = now.
Proof.
  induction l as [|e l IH]; [done|]. cbn [mark_relayed]. case_match; cbn; [|naive_solver].
  intros [<-|?]; [by right|auto].
Qed.

Lemma mark_relayed_done l i now ve :
  votes_sorted l -> In ve (mark_relayed l i now) -> pv_index ve = i ->
  time_last_sent_p2p ve = now.
Proof.
  unfold votes_sorted. induction l as [|e l IH]; [done|]. cbn [mark_relayed fmap list_fmap].
  intros Hs Hin Hi. inversion_clear Hs as [|? ? Hs' Hall].
  destruct (Z.eqb_spec i (pv_index e)) as [He|Hne]; destruct Hin as [<-|Hin]; [done| |done|by apply IH].
  exfalso. rewrite List.Forall_forall in Hall.
  assert (In (pv_index ve) (pv_index <$> l)) as Hx
    by (apply list_elem_of_In, list_elem_of_fmap; exists ve; by rewrite list_elem_of_In).
  specialize (Hall _ Hx). lia.
Qed.

(** Marking the vote [w] establishes [sent_at] for it and keeps it for others. *)
Lemma mark_sent {T} `{PEL : PoolEntryLaws T} t (pool : list T) w now :
  pool_ok t pool ->
  let pool' := (with_vote_pool pool w false
                  (fun l => (mark_relayed l (index_in_group w) now, tt))).1 in
  sent_at pool' w now /\ forall v, sent_at pool v now -> sent_at pool' v now.
Proof.
  intros [Hok Hnd]. cbv zeta. induction Hok as [|e rest (Hs & _) Hrest IH]; [split; [intros ? ? []|done]|].
  cbn [fmap list_fmap] in Hnd. apply NoDup_cons in Hnd as [Hni Hnd]. specialize (IH Hnd).
  cbn [with_vote_pool]. destruct (decide (key_of e = vote_key w)) as [E|E].
  - split.
    + intros e' ve [<-|He'] Hk Hve Hi; cbn in *.
      * rewrite votes_set_votes in Hve. by eapply mark_relayed_done.
      * destruct Hni. rewrite E, <- Hk. apply list_elem_of_fmap. exists e'.
        by rewrite list_elem_of_In.
    + intros v Hv e' ve [<-|He'] Hk Hve Hi; cbn in *.
      * rewrite votes_set_votes in Hve. rewrite key_set_votes in Hk.
        apply mark_relayed_time in Hve as [Hve|?]; [|done]. apply (Hv e ve); [by left|done..].
      * apply (Hv e' ve); [by right|done..].
  - destruct (with_vote_pool rest w false _) as [rest' r]. cbn in *. destruct IH as [IH1 IH2]. split.
    + intros e' ve [<-|He'] Hk Hve Hi; [done|]. by apply (IH1 e' ve).
    + intros v Hv e' ve [<-|He'] Hk Hve Hi; [apply (Hv e ve); [by left|done..]|].
      apply (IH2 v) with (e := e'); try done. intros e2 ve2 He2. apply Hv. by right.
Qed.

Definition vp_sent (vp : voting_pool) (v : quorum_vote_t) (now : Z) : Prop :=
  (vote_type v = vote_obligations -> sent_at (m_obligations_pool vp) v now) /\
  (vote_type v = vote_checkpointing -> sent_at (m_checkpoint_pool vp) v now).

Lemma relayed_one_sent vp w now :
  vp_ok vp ->
  let vp' := (with_pool vp w false (fun l => (mark_relayed l (index_in_group w) now, tt))).1 in
  vp_sent vp' w now /\ forall v, vp_sent vp v now -> vp_sent vp' v now.
Proof.
  intros [Ho Hc]. cbv zeta. unfold with_pool, vp_sent.
  destruct (Z.eqb_spec (vote_type w) vote_obligations) as [E|E].
  - pose proof (mark_sent _ _ w now Ho) as [H1 H2]. destruct (with_vote_pool _ _ _ _) as [p r].
    cbn in *. split; [split; [done|]; rewrite E; discriminate|]. intros v [Hv1 Hv2]. split; auto.
  - destruct (Z.eqb_spec (vote_type w) vote_checkpointing) as [E'|E'].
    + pose proof (mark_sent _ _ w now Hc) as [H1 H2]. destruct (with_vote_pool _ _ _ _) as [p r].
      cbn in *. split; [split; [done|done]|]. intros v [Hv1 Hv2]. split; auto.
    + cbn. split; [split; done|]. done.
Qed.

Lemma set_relayed_sent vp votes now v :
  vp_ok vp -> In v votes \/ vp_sent vp v now -> vp_sent (set_relayed vp votes now) v now.
Proof.
  unfold set_relayed. revert vp. induction votes as [|w votes IH]; intros vp Hok Hv;
    [destruct Hv; done|].
  cbn [foldl]. destruct (relayed_one_sent vp w now Hok) as [H1 H2].
  apply IH; [by apply relayed_one_ok|]. destruct Hv as [[->|Hin]|Hs]; auto.
Qed.

Lemma relayable_in {T} `{PEL : PoolEntryLaws T} (pool : list T) res m h w :
  In w (append_relayable_votes res pool m h) ->
  In w res \/ exists e ve, In e pool /\ In ve (entry_votes e) /\ pv_vote ve = w /\
    h <= block_height w /\ time_last_sent_p2p ve <= m.
Proof.
  unfold append_relayable_votes. rewrite in_app_iff, in_flat_map. intros [?|(e & He & Hw)]; [auto|].
  right. apply list_elem_of_In, list_elem_of_fmap in Hw as (ve & -> & Hve).
  apply list_elem_of_filter in Hve as [[H1 H2] Hve%list_elem_of_In]. eauto 10.
Qed.

(** Where an offered vote comes from: a group of one of the two pools, its last sending
    time old enough. *)
Lemma relayable_from {T} `{PEL : PoolEntryLaws T} t (pool : list T) res m h w :
  pool_ok t pool -> In w (append_relayable_votes res pool m h) ->
  In w res \/ vote_type w = t /\ h <= block_height w /\
    forall v now, sent_at pool v now -> vote_key v = vote_key w ->
      index_in_group v = index_in_group w -> now <= m.
Proof.
  intros [Hp _] [?|(e & ve & He & Hve & Ew & H1 & H2)]%relayable_in; [auto|right].
  rewrite List.Forall_forall in Hp. destruct (Hp e He) as (_ & _ & Hall).
  rewrite List.Forall_forall in Hall. destruct (Hall ve Hve) as [Ht Hk]. rewrite Ew in Ht, Hk.
  split; [done|]. split; [done|]. intros v now Hs Hkv Hi.
  rewrite <- (Hs e ve He); [done|congruence|done|]. unfold pv_index. congruence.
Qed.

(** What is known of an offered vote [w]. *)
Definition relay_ok (vp : voting_pool) (now h : Z) (hfv : hf) (qr : bool) (w : quorum_vote_t) : Prop :=
  h - 60 <= block_height w /\
  (hf14_blink <= hfv -> vote_type w = if qr then vote_obligations else vote_checkpointing) /\
  (forall v t, vp_sent vp v t -> same_target w v -> index_in_group w = index_in_group v ->
     t <= now - TIME_BETWEEN_RELAY).

Lemma relay_ok_obligations vp now h mh hfv qr w :
  h - 60 <= mh -> vote_type w = vote_obligations -> mh <= block_height w ->
  (hf14_blink <= hfv -> qr = true) ->
  (forall v t, sent_at (m_obligations_pool vp) v t ->
     vote_key (T:=obligations_pool_entry) v = vote_key w ->
     index_in_group v = index_in_group w -> t <= now - TIME_BETWEEN_RELAY) ->
  relay_ok vp now h hfv qr w.
Proof.
  intros Hmh Ht Hb Hq Hs. split; [lia|]. split; [intros Hf; by rewrite (Hq Hf)|].
  intros v t' [Hv _] (E & Hk & _) Hi. apply (Hs v); [apply Hv; congruence| |done].
  symmetry. by apply Hk.
Qed.

Lemma relay_ok_checkpointing vp now h mh hfv qr w :
  h - 60 <= mh -> vote_type w = vote_checkpointing -> mh <= block_height w ->
  (hf14_blink <= hfv -> qr = false) ->
  (forall v t, sent_at (m_checkpoint_pool vp) v t ->
     vote_key (T:=checkpoint_pool_entry) v = vote_key w ->
     index_in_group v = index_in_group w -> t <= now - TIME_BETWEEN_RELAY) ->
  relay_ok vp now h hfv qr w.
Proof.
  intros Hmh Ht Hb Hq Hs. split; [lia|]. split; [intros Hf; by rewrite (Hq Hf)|].
  intros v t' [_ Hv] (E & _ & Hk) Hi. apply (Hs v); [apply Hv; congruence| |done].
  symmetry. by apply Hk.
Qed.

Lemma relayable_cases vp now h hfv qr w :
  vp_ok vp -> TIME_BETWEEN_RELAY <= now < 2 ^ 63 -> In w (get_relayable_votes vp now h hfv qr) ->
  relay_ok vp now h hfv qr w.
Proof.
  intros [Ho Hc] Hnow. unfold get_relayable_votes.
  rewrite (u64_small (now - TIME_BETWEEN_RELAY)) by (unfold TIME_BETWEEN_RELAY in *; width).
  set (mh := if VOTE_LIFETIME <? h then h - VOTE_LIFETIME else 0).
  assert (h - 60 <= mh) as Hmh
    by (unfold mh, VOTE_LIFETIME; clear; destruct (Z.ltb_spec 60 h); lia).
  clearbody mh.
  pose proof (fun r => relayable_from _ _ r (now - TIME_BETWEEN_RELAY) mh w Ho) as A1.
  pose proof (fun r => relayable_from _ _ r (now - TIME_BETWEEN_RELAY) mh w Hc) as A2.
  destruct (Z.ltb_spec hfv hf14_blink) as [Hlt|Hge], qr; cbn [orb negb andb].
  - done.
  - intros [[[]|(? & ? & ?)]%A1|(? & ? & ?)]%A2;
      [apply (relay_ok_obligations _ _ _ mh)|apply (relay_ok_checkpointing _ _ _ mh)]; auto; lia.
  - intros [[]|(? & ? & ?)]%A1. by apply (relay_ok_obligations _ _ _ mh).
  - intros [[]|(? & ? & ?)]%A2. by apply (relay_ok_checkpointing _ _ _ mh).
Qed.

(** A vote that was just relayed is not offered for relaying again within two minutes,
    whatever is offered is at most 60 blocks old, and from HF14 on the two networks are
    kept apart: obligation votes go over quorumnet only, checkpoint votes over p2p only. *)
Theorem relay_backoff vp votes now now' h hfv qr w :
  pool_reachable vp -> TIME_BETWEEN_RELAY <= now' < now + TIME_BETWEEN_RELAY -> now' < 2 ^ 63 ->
  In w (get_relayable_votes (set_relayed vp votes now) now' h hfv qr) ->
  (forall v, In v votes -> same_target w v -> index_in_group w <> index_in_group v) /\
  h - 60 <= block_height w /\
  (hf14_blink <= hfv -> vote_type w = if qr then vote_obligations else vote_checkpointing).
Proof.
  intros Hr Hnow Hb Hw.
  assert (vp_ok (set_relayed vp votes now)) as Hok'
    by (apply reachable_ok; eapply rtc_r; [exact Hr|apply step_relayed]).
  destruct (relayable_cases _ now' h hfv qr w Hok' ltac:(clear Hw; lia) Hw) as (H1 & H2 & H3).
  split; [|by split]. intros v Hv Hs Hi.
  pose proof (set_relayed_sent vp votes now v (reachable_ok vp Hr) (or_introl Hv)) as Hsent.
  specialize (H3 v now Hsent Hs Hi). lia.
Qed.

Lemma relay_backoff_witness :
  let vp := (add_pool_vote_if_unique empty_pool (demo_vote 5) no_flags).1.1 in
  let vp := (add_pool_vote_if_unique vp (demo_vote 6) no_flags).1.1 in
  get_relayable_votes (set_relayed vp [demo_vote 5] 1000) 1100 50 hf22_sn_policy false
    = [demo_vote 6] /\
  (forall v, In v [demo_vote 5] -> same_target (demo_vote 6) v ->
     index_in_group (demo_vote 6) <> index_in_group v).
Proof.
  intros vp vp1.
  assert (get_relayable_votes (set_relayed vp1 [demo_vote 5] 1000) 1100 50 hf22_sn_policy false
    = [demo_vote 6]) as E by (vm_compute; reflexivity).
  split; [exact E|].
  apply (relay_backoff vp1 [demo_vote 5] 1000 1100 50 hf22_sn_policy false (demo_vote 6));
    [eapply rtc_l; [apply step_add|apply rtc_once, step_add]
    |unfold TIME_BETWEEN_RELAY; lia|lia|rewrite E; left; reflexivity].
Defined.

(** [received_checkpoint_vote] can miss a vote that is in the pool: it only looks at the
    first group of the height, and votes for another block hash at the same height are in
    another group. *)
Theorem received_checkpoint_vote_incomplete :
  exists vp v, pool_reachable vp /\ vote_type v = vote_checkpointing /\
    In (index_in_group v) (pv_index <$> group_votes vp v) /\
    received_checkpoint_vote vp (block_height v) (index_in_group v) = false.
Proof.
  set (v1 := demo_vote 5).
  set (v2 := QuorumVote 0 vote_checkpointing 40 group_validator 6 [] (StateChangeVote 0 0 0) [8]).
  exists (add_pool_vote_if_unique (add_pool_vote_if_unique empty_pool v1 no_flags).1.1 v2 no_flags).1.1, v2.
  split; [eapply rtc_l; [apply step_add|apply rtc_once, step_add]|].
  split; [done|]. split; [left; reflexivity|reflexivity].
Qed.
