(* ===== verification/Order.v ===== *)
(** * Orders and sorting

    Lexicographic comparison of byte strings, as [memcmp]-like [operator<] of the key and
    hash types, and [std::sort] by a strict order given as a boolean function.  For a strict
    total order the sorted sequence is unique, so it commutes with filtering and does not
    depend on the iteration order of the container it is built from. *)
From S2P Require Import Prelude.

(** Keys and hashes compare byte by byte. *)
Fixpoint bytes_ltb (a b : list Z) : bool :=
  match a, b with
  | _, [] => false
  | [], _ :: _ => true
  | x :: a, y :: b => if x =? y then bytes_ltb a b else x <? y
  end.

(** The contract of the comparison given to [std::sort] or [std::map], with ties only
    between equal elements. *)
Class TotalLt {A} (lt : A -> A -> bool) := {
  lt_irrefl a : lt a a = false;
  lt_trans a b c : lt a b = true -> lt b c = true -> lt a c = true;
  lt_total a b : lt a b = false -> lt b a = false -> a = b;
}.

#[global] Instance bytes_ltb_total : TotalLt bytes_ltb.
Proof.
  split.
  - intros a. induction a as [|x a IH]; cbn; [done|]. by rewrite Z.eqb_refl.
  - intros a. induction a as [|x a IH]; intros [|y b] [|z c]; cbn; try done.
    destruct (Z.eqb_spec x y), (Z.eqb_spec y z), (Z.eqb_spec x z); subst; try lia;
      rewrite ?Z.ltb_lt; try lia; apply IH.
  - intros a. induction a as [|x a IH]; intros [|y b]; cbn; try done.
    rewrite (Z.eqb_sym y x). destruct (Z.eqb_spec x y) as [->|].
    + intros H1 H2. f_equal. by apply IH.
    + rewrite !Z.ltb_ge. lia.
Qed.

(** Comparison of [std::tuple]s of two integers and a key. *)
Definition triple_ltb (a b : Z * Z * list Z) : bool :=
  if a.1.1 =? b.1.1 then if a.1.2 =? b.1.2 then bytes_ltb a.2 b.2 else a.1.2 <? b.1.2
  else a.1.1 <? b.1.1.

#[global] Instance triple_ltb_total : TotalLt triple_ltb.
Proof.
  unfold triple_ltb. split.
  - intros a. rewrite !Z.eqb_refl. apply (lt_irrefl (lt:=bytes_ltb)).
  - intros [[a1 a2] a] [[b1 b2] b] [[c1 c2] c]. cbn.
    destruct (Z.eqb_spec a1 b1), (Z.eqb_spec b1 c1), (Z.eqb_spec a1 c1); try lia;
      destruct (Z.eqb_spec a2 b2), (Z.eqb_spec b2 c2), (Z.eqb_spec a2 c2); rewrite ?Z.ltb_lt; try lia.
    apply lt_trans.
  - intros [[a1 a2] a] [[b1 b2] b]. cbn. rewrite (Z.eqb_sym b1), (Z.eqb_sym b2).
    destruct (Z.eqb_spec a1 b1); [|rewrite !Z.ltb_ge; lia].
    destruct (Z.eqb_spec a2 b2); [|rewrite !Z.ltb_ge; lia].
    intros H1 H2. subst. by rewrite (lt_total (lt:=bytes_ltb) a b H1 H2).
Qed.

(** ** [std::sort] *)

Definition not_after {A} (lt : A -> A -> bool) (a b : A) : Prop := lt b a = false.
#[global] Instance not_after_dec {A} (lt : A -> A -> bool) : RelDecision (not_after lt).
Proof. intros a b. unfold not_after. apply _. Defined.
Definition sort_by {A} (lt : A -> A -> bool) (l : list A) : list A := merge_sort (not_after lt) l.

Lemma sort_by_Permutation {A} (lt : A -> A -> bool) l : sort_by lt l ≡ₚ l.
Proof. apply merge_sort_Permutation. Qed.

Section Total.
Context {A : Type} (lt : A -> A -> bool) `{TotalLt A lt}.

Lemma lt_asym a b : lt a b = true -> lt b a = false.
Proof.
  intros Hab. destruct (lt b a) eqn:Hba; [|done].
  pose proof (lt_irrefl a). pose proof (lt_trans a b a Hab Hba). congruence.
Qed.

Lemma lt_cases a b : lt a b = true \/ a = b \/ lt b a = true.
Proof.
  destruct (lt a b) eqn:H1; [by left|]. destruct (lt b a) eqn:H2; [by right; right|].
  right. left. by apply lt_total.
Qed.

Lemma not_after_trans a b c : not_after lt a b -> not_after lt b c -> not_after lt a c.
Proof.
  intros Hab Hbc. unfold not_after in *. destruct (lt c a) eqn:Hca; [|done].
  destruct (lt_cases a b) as [Hlt|[->|Hlt]]; [|congruence|congruence].
  pose proof (lt_trans c a b Hca Hlt). congruence.
Qed.
End Total.

(** Sorting by a key with a total order: the result is unique when no two elements have the
    same key. *)
Section Keyed.
Context {A B : Type} (f : A -> B) (lt : B -> B -> bool) `{TotalLt B lt}.
Definition by_key (a b : A) : bool := lt (f a) (f b).

#[local] Instance by_key_trans : Transitive (not_after by_key).
Proof. intros a b c. apply (not_after_trans lt (f a) (f b) (f c)). Qed.
#[local] Instance by_key_total : Total (not_after by_key).
Proof.
  intros a b. unfold not_after, by_key. destruct (lt (f b) (f a)) eqn:E; [|by left].
  right. by apply (lt_asym lt).
Qed.

Lemma sort_by_StronglySorted l : StronglySorted (not_after by_key) (sort_by by_key l).
Proof. apply Sorted_StronglySorted; [apply _|]. apply Sorted_merge_sort, _. Qed.

Lemma sorted_unique l l' :
  NoDup (f <$> l) -> StronglySorted (not_after by_key) l -> StronglySorted (not_after by_key) l' ->
  l ≡ₚ l' -> l = l'.
Proof.
  intros Hnd Hs. revert l' Hnd. induction Hs as [|a l Hs IH Ha]; intros l' Hnd Hs' Hp.
  { apply Permutation_nil_l in Hp. done. }
  destruct l' as [|b l']; [by apply Permutation_nil_r in Hp|].
  assert (a = b) as <-.
  { inversion_clear Hs' as [|? ? _ Hb].
    assert (b ∈ a :: l) as Hbin by (rewrite Hp; apply elem_of_cons; by left).
    assert (a ∈ b :: l') as Hain by (rewrite <- Hp; apply elem_of_cons; by left).
    apply elem_of_cons in Hbin as [->|Hbin]; [done|]. apply elem_of_cons in Hain as [->|Hain]; [done|].
    rewrite Forall_forall in Ha, Hb. pose proof (lt_total (lt:=lt) _ _ (Ha b Hbin) (Hb a Hain)) as E.
    cbn in Hnd. apply NoDup_cons in Hnd as [Hn _]. exfalso. apply Hn. rewrite <- E.
    by apply list_elem_of_fmap_2. }
  f_equal. apply IH; [by inversion Hnd|by inversion Hs'|]. by apply Permutation_cons_inv in Hp.
Qed.

Lemma sort_by_key_unique l l' : NoDup (f <$> l) -> l ≡ₚ l' -> sort_by by_key l = sort_by by_key l'.
Proof.
  intros Hnd Hp. apply sorted_unique; [|apply sort_by_StronglySorted..|].
  - by rewrite sort_by_Permutation.
  - by rewrite !sort_by_Permutation.
Qed.

(** A comparison written differently. *)
Lemma sort_by_as_key (lt' : A -> A -> bool) l :
  (forall a b, lt' a b = by_key a b) -> NoDup (f <$> l) -> sort_by lt' l = sort_by by_key l.
Proof.
  intros Hlt Hnd. assert (forall a b, not_after lt' a b <-> not_after by_key a b) as Heq.
  { intros a b. unfold not_after. by rewrite Hlt. }
  assert (Total (not_after lt')) by (intros a b; rewrite !Heq; apply by_key_total).
  apply sorted_unique; [by rewrite sort_by_Permutation| |apply sort_by_StronglySorted|by rewrite !sort_by_Permutation].
  apply Sorted_StronglySorted; [apply _|]. pose proof (Sorted_merge_sort (not_after lt') l) as Hs.
  fold (sort_by lt' l) in Hs. induction Hs as [|a k _ IH Ha]; constructor; [done|].
  destruct Ha; constructor. by apply Heq.
Qed.

Lemma filter_StronglySorted (R : A -> A -> Prop) (P : A -> Prop) `{forall x, Decision (P x)} l :
  StronglySorted R l -> StronglySorted R (filter P l).
Proof.
  induction 1 as [|a l _ IH Ha]; [constructor|]. rewrite filter_cons.
  case_decide; [|done]. constructor; [done|]. apply Forall_forall. intros x [_ Hx]%list_elem_of_filter.
  by eapply Forall_forall in Ha.
Qed.

(** Sorting commutes with filtering. *)
Lemma filter_sort_by (P : A -> Prop) `{forall x, Decision (P x)} l :
  NoDup (f <$> l) -> filter P (sort_by by_key l) = sort_by by_key (filter P l).
Proof.
  intros Hnd. apply sorted_unique.
  - eapply sublist_NoDup; [|apply fmap_sublist, sublist_filter]. by rewrite sort_by_Permutation.
  - apply filter_StronglySorted, sort_by_StronglySorted.
  - apply sort_by_StronglySorted.
  - by rewrite !sort_by_Permutation.
Qed.
End Keyed.
