(* ===== verification/Transactions.v ===== *)
(** * Blocks and transactions, as the service node list reads them

    The fields of [cryptonote::transaction] and [cryptonote::block]
    ([cryptonote_basic/{cryptonote_basic,txtypes,tx_extra}.h]) that
    [service_node_list.cpp] looks at.  A [tx_extra] field is given parsed: [None] when
    [get_field_from_tx_extra] does not find it.  L2 events are those of
    [l2_tracker/events.h]. *)
From S2P Require Import Prelude Hardfork Config Address Voting.

(** ** Transaction types *)

Inductive txtype :=
| txtype_standard | txtype_state_change | txtype_key_image_unlock | txtype_stake | txtype_oxen_name_system
| txtype_ethereum_service_node_exit_request | txtype_ethereum_service_node_exit
| txtype_ethereum_staking_requirement_updated | txtype_ethereum_purge_missing_service_node
| txtype_ethereum_new_service_node_v2.
#[global] Instance txtype_eq_dec : EqDecision txtype.
Proof. solve_decision. Defined.

Definition txtype_value (t : txtype) : Z :=
  match t with
  | txtype_standard => 0 | txtype_state_change => 1 | txtype_key_image_unlock => 2 | txtype_stake => 3
  | txtype_oxen_name_system => 4 | txtype_ethereum_service_node_exit_request => 5
  | txtype_ethereum_service_node_exit => 6 | txtype_ethereum_staking_requirement_updated => 7
  | txtype_ethereum_purge_missing_service_node => 8 | txtype_ethereum_new_service_node_v2 => 9
  end.

Definition is_l2_event_tx (t : txtype) : bool :=
  (txtype_value txtype_ethereum_service_node_exit_request <=? txtype_value t)
  && (txtype_value t <=? txtype_value txtype_ethereum_new_service_node_v2).

Definition get_max_type_for_hf (hf_version : hf) : txtype :=
  if feature_ETH_BLS <=? hf_version then txtype_ethereum_new_service_node_v2
  else if hf15_ons <=? hf_version then txtype_oxen_name_system
  else if hf14_blink <=? hf_version then txtype_stake
  else if hf11_infinite_staking <=? hf_version then txtype_key_image_unlock
  else if hf9_service_nodes <=? hf_version then txtype_state_change
  else txtype_standard.

(** ** Fields of [tx_extra] *)

Record key_image_unlock := KeyImageUnlock { u_key_image : bytes; u_signature : bytes; u_nonce : Z }.

Record tx_extra_service_node_register := SnRegister {
  public_spend_keys : list bytes;
  public_view_keys : list bytes;
  reg_tx_fee : Z;
  reg_tx_amounts : list Z;
  hf_or_expiration : Z;
  reg_tx_signature : bytes;
}.

Record key_image_proof := KeyImageProof { kp_key_image : bytes; kp_signature : bytes }.

(** ** L2 events *)

Record contributor_v2 := ContributorV2 {
  c2_address : bytes;
  c2_beneficiary : bytes;
  c2_amount : Z;
}.

Record new_service_node_v2 := NewServiceNodeV2 {
  nsn_pubkey : bytes;
  nsn_bls_pubkey : bytes;
  nsn_ed_signature : bytes;
  nsn_fee : Z;
  nsn_contributors : list contributor_v2;
}.

(** [StateChangeVariant]; the monostate is [None] where it occurs. *)
Inductive event :=
| NewServiceNode (e : new_service_node_v2)
| ServiceNodeExitRequest (bls_pubkey : bytes)
| ServiceNodeExit (bls_pubkey : bytes) (returned_amount : Z)
| StakingRequirementUpdated (requirement : Z)
| ServiceNodePurge (bls_pubkey : bytes).

(** ** Transactions *)

Inductive rct_type := RctNull | RctFull | RctSimple | RctBulletproof | RctBulletproof2 | RctCLSAG.

(** An output is [Some key] for a [txout_to_key]; the ring signature data is opaque. *)
Record tx_outputs := TxOutputs {
  tx_version : Z;
  tx_unlock_time : Z;
  output_unlock_times : list Z;
  vout : list (option bytes);
  rct_sig_type : rct_type;
  rct_signatures : bytes;
}.
Definition no_outputs : tx_outputs := TxOutputs 4 0 [] [] RctNull [].

Record tx_extra := TxExtra {
  extra_state_change : hf -> option tx_state_change;
  extra_service_node_pubkey : option bytes;
  extra_key_image_unlock : option key_image_unlock;
  extra_register : option tx_extra_service_node_register;
  extra_contributor : option account_public_address;
  extra_tx_secret_key : option bytes;
  extra_key_image_proofs : option (list key_image_proof);
  extra_event : option event;
}.
Definition no_extra : tx_extra := TxExtra (fun _ => None) None None None None None None None.

Record transaction := Transaction {
  tx_type : txtype;
  tx_hash : bytes;
  tx_out : tx_outputs;
  extra : tx_extra;
}.

(** ** Blocks *)

Record pulse_header := PulseHeader {
  random_value : bytes;
  pulse_round : Z;
  validator_bitset : Z;
}.
Definition no_pulse : pulse_header := PulseHeader (replicate 16 0) 0 0.

Definition pulse_empty (p : pulse_header) : bool :=
  (validator_bitset p =? 0) && bool_decide (random_value p = replicate 16 0).

(** [b_height] is [get_height()] and [b_hash] is [get_block_hash]. *)
Record block := Block {
  major_version : hf;
  b_height : Z;
  b_timestamp : Z;
  b_hash : bytes;
  b_prev_id : bytes;
  b_nonce : Z;
  b_pulse : pulse_header;
  b_signatures : list quorum_signature;
  tx_hashes : list bytes;
  l2_votes : list bool;
  tx_eth_count : Z;
  l2_height : Z;
}.
Definition plain_block (v : hf) (height timestamp : Z) : block :=
  Block v height timestamp [] [] 0 no_pulse [] [] [] 0 0.

Definition has_pulse_header (b : block) : bool :=
  (feature_PULSE <=? major_version b) && negb (pulse_empty (b_pulse b)).

Definition has_pulse (b : block) : bool :=
  let has_quorum_sigs := existsb (fun s => negb (voter_index s =? 65535)) (b_signatures b) in
  (feature_PULSE <=? major_version b) && (has_pulse_header b || has_quorum_sigs).
