(* ===== verification/L2Votes.v ===== *)
(** * Confirmation of L2 state changes

    [unconfirmed_l2_tx] of [cryptonote_core/service_node_list.h], the votes a block carries
    on the pending L2 transactions and the pending map itself: the vote counting of
    [update_from_block] and the insertion of [process_new_ethereum_tx]
    ([service_node_list.cpp]).  [std::map] is an association list in the order of its keys.
    What a confirmed transaction does to the service node list is in [Events]. *)
From S2P Require Import Prelude Order Hardfork Voting Transactions.

Record unconfirmed_l2_tx := Unconfirmed {
  height_added : Z;
  confirmations : Z;
  denials : Z;
}.

Definition FULL_SCORE : Z := 2 * 3 * 2 * 5 * 7 * 2 * 3.
Definition MIN_FINALIZED_DIFFERENCE : Z := u32 (FULL_SCORE * 5).
Definition MIN_FINALIZED_RATIO : Z := 2.
Definition MAX_VOTING_BLOCKS : Z := 30.

Definition is_accepted (u : unconfirmed_l2_tx) : bool :=
  (u32 (denials u + MIN_FINALIZED_DIFFERENCE) <=? confirmations u)
  && (u32 (denials u * MIN_FINALIZED_RATIO) <=? confirmations u).

Definition is_denied (u : unconfirmed_l2_tx) : bool :=
  (u32 (confirmations u + MIN_FINALIZED_DIFFERENCE) <=? denials u)
  && (u32 (confirmations u * MIN_FINALIZED_RATIO) <=? denials u).

Definition is_expired (u : unconfirmed_l2_tx) (curr_height : Z) : bool :=
  u64 (height_added u + MAX_VOTING_BLOCKS) <=? curr_height.

Definition confirmed (u : unconfirmed_l2_tx) (curr_height : Z) : option bool :=
  if is_accepted u then Some true
  else if is_denied u || is_expired u curr_height then Some false
  else None.

(** The constructor from the pulse header of the block that mines the transaction. *)
Definition new_unconfirmed (height : Z) (pulse : pulse_header) : unconfirmed_l2_tx :=
  Unconfirmed height (FULL_SCORE / u32 (u32 (pulse_round pulse) + 1)) 0.

(** ** The pending map *)

Abbreviation pending_map := (list (bytes * unconfirmed_l2_tx)).

(** [std::map::emplace]; [None] when the key is present. *)
Fixpoint emplace (k : bytes) (u : unconfirmed_l2_tx) (m : pending_map) : option pending_map :=
  match m with
  | [] => Some [(k, u)]
  | (k', u') :: rest =>
      if bytes_ltb k k' then Some ((k, u) :: m)
      else if bytes_ltb k' k then cons (k', u') <$> emplace k u rest
      else None
  end.

Definition vote_weight (b : block) : Z :=
  FULL_SCORE / (if has_pulse b then 1 + pulse_round (b_pulse b) else 1).

Definition count_vote (weight : Z) (vote : bool) (u : unconfirmed_l2_tx) : unconfirmed_l2_tx :=
  if vote then Unconfirmed (height_added u) (u32 (confirmations u + weight)) (denials u)
  else Unconfirmed (height_added u) (confirmations u) (u32 (denials u + weight)).

(** A transaction that left the pending map: its final counts, the height and the outcome. *)
Record resolution := Resolution {
  r_hash : bytes;
  r_counts : unconfirmed_l2_tx;
  r_height : Z;
  r_accepted : bool;
}.

(** The loop over the votes: what stays pending and what is resolved, in order. *)
Fixpoint tally (weight height : Z) (votes : list bool) (m : pending_map)
    : pending_map * list resolution :=
  match votes, m with
  | vote :: votes, (k, u) :: rest =>
      let u := count_vote weight vote u in
      let '(rest, resolved) := tally weight height votes rest in
      match confirmed u height with
      | None => ((k, u) :: rest, resolved)
      | Some done => (rest, Resolution k u height done :: resolved)
      end
  | _, _ => (m, [])
  end.

(** The votes of a block; [None] when the code throws because the counts do not match. *)
Definition vote_on_pending (b : block) (height : Z) (m : pending_map)
    : option (pending_map * list resolution) :=
  if negb (length (l2_votes b) =? length m)%nat then None
  else Some (tally (vote_weight b) height (l2_votes b) m).

(** [process_new_ethereum_tx] for the L2 transactions of a block, in order; [None] when a
    transaction is already pending. *)
Definition add_pending (b : block) (hashes : list bytes) (m : pending_map) : option pending_map :=
  foldl (fun m k => m ← m; emplace k (new_unconfirmed (b_height b) (b_pulse b)) m) (Some m) hashes.

(** A run of blocks with the L2 transactions each mines: votes first, then the new ones. *)
Fixpoint l2_run (blocks : list (block * list bytes)) (m : pending_map)
    : option (pending_map * list resolution) :=
  match blocks with
  | [] => Some (m, [])
  | (b, hashes) :: blocks =>
      '(m, now) ← vote_on_pending b (b_height b) m;
      m ← add_pending b hashes m;
      '(m, later) ← l2_run blocks m;
      Some (m, now ++ later)
  end.

(** ** Counts and bounds *)

(** The rule of the header's comment, on unbounded integers. *)
Definition wins (for_ against : Z) : Prop :=
  against + 5 * FULL_SCORE <= for_ /\ 2 * against <= for_.

(** The counts of a transaction that has been voted on in every block since it was mined,
    the last of them at height [h]. *)
Record counted (h : Z) (u : unconfirmed_l2_tx) : Prop := {
  counted_since : 0 <= height_added u <= h;
  counted_for : 9 <= confirmations u <= FULL_SCORE * (h - height_added u + 1);
  counted_against : 0 <= denials u <= FULL_SCORE * (h - height_added u);
}.

Definition live (h : Z) (u : unconfirmed_l2_tx) : Prop :=
  counted h u /\ h < height_added u + MAX_VOTING_BLOCKS.

Definition block_ok (b : block) : Prop := 0 <= b_height b < 2 ^ 62 /\ is_u8 (pulse_round (b_pulse b)).

Lemma score_of_round r : is_u8 r -> 9 <= FULL_SCORE / (1 + r) <= FULL_SCORE.
Proof.
  intros Hr. change FULL_SCORE with 2520. unfold is_u8 in Hr.
  split; [apply Z.div_le_lower_bound|apply Z.div_le_upper_bound]; lia.
Qed.

Lemma vote_weight_range b : block_ok b -> 9 <= vote_weight b <= FULL_SCORE.
Proof.
  intros [_ Hr]. unfold vote_weight. destruct (has_pulse b); [by apply score_of_round|].
  unfold FULL_SCORE. cbn. lia.
Qed.

Lemma new_unconfirmed_live b : block_ok b -> live (b_height b) (new_unconfirmed (b_height b) (b_pulse b)).
Proof.
  intros [Hh Hr]. unfold live, new_unconfirmed, MAX_VOTING_BLOCKS. cbn [height_added].
  split; [|lia]. split; cbn [height_added confirmations denials]; [lia| |unfold FULL_SCORE; lia].
  rewrite (u32_small (pulse_round _)) by width. rewrite u32_small by width.
  rewrite Z.add_comm. pose proof (score_of_round _ Hr). lia.
Qed.

Lemma count_vote_counted w vote h u :
  9 <= w <= FULL_SCORE -> live h u -> counted (h + 1) (count_vote w vote u).
Proof.
  unfold live, MAX_VOTING_BLOCKS. intros Hw [[H1 H2 H3] H4]. unfold FULL_SCORE in *.
  unfold count_vote. destruct vote; split; cbn [height_added confirmations denials];
    unfold FULL_SCORE; rewrite ?u32_small by width; lia.
Qed.

(** At these counts no operation of the decision wraps around. *)
Lemma confirmed_exact h u :
  counted h u -> h <= height_added u + MAX_VOTING_BLOCKS -> h < 2 ^ 62 ->
  match confirmed u h with
  | Some true => wins (confirmations u) (denials u)
  | Some false =>
      ~ wins (confirmations u) (denials u) /\
      (wins (denials u) (confirmations u) \/ h = height_added u + MAX_VOTING_BLOCKS)
  | None => ~ wins (confirmations u) (denials u) /\ ~ wins (denials u) (confirmations u) /\
            h < height_added u + MAX_VOTING_BLOCKS
  end.
Proof.
  unfold MAX_VOTING_BLOCKS. intros [H1 H2 H3] Hle Hh.
  unfold confirmed, is_accepted, is_denied, is_expired, wins, MIN_FINALIZED_DIFFERENCE,
    MIN_FINALIZED_RATIO, MAX_VOTING_BLOCKS, FULL_SCORE in *.
  rewrite (u64_small (height_added u + 30)) by width.
  rewrite (u32_small (denials u + _)), (u32_small (denials u * _)), (u32_small (confirmations u + _)),
    (u32_small (confirmations u * _)) by (rewrite ?(u32_small (2 * 3 * 2 * 5 * 7 * 2 * 3 * 5)) by width; width).
  rewrite (u32_small (2 * 3 * 2 * 5 * 7 * 2 * 3 * 5)) by width.
  repeat match goal with |- context [?a <=? ?b] => destruct (Z.leb_spec a b) end; cbn; lia.
Qed.

(** ** The pending map is sorted *)

Definition sorted_keys (m : pending_map) : Prop :=
  StronglySorted (fun a b => bytes_ltb a b = true) m.*1.

Lemma StronglySorted_sublist {A} (R : A -> A -> Prop) l k :
  sublist l k -> StronglySorted R k -> StronglySorted R l.
Proof.
  induction 1 as [|x l k Hs IH|x l k _ IH]; intros Hk; [done| |];
    inversion_clear Hk as [|? ? Hk' Hf]; [|by apply IH].
  constructor; [by apply IH|]. apply Forall_forall. intros y Hy.
  rewrite Forall_forall in Hf. apply Hf. by eapply elem_of_sublist.
Qed.

Lemma emplace_spec k u m m' :
  emplace k u m = Some m' -> m' ≡ₚ (k, u) :: m /\ (sorted_keys m -> sorted_keys m').
Proof.
  unfold sorted_keys. revert m'.
  induction m as [|[k' u'] m IH]; intros m' H; cbn [emplace] in H.
  { injection H as <-. split; [done|]. intros _. repeat constructor. }
  destruct (bytes_ltb k k') eqn:E1.
  - injection H as <-. split; [done|]. intros Hs. cbn in *. constructor; [done|].
    inversion_clear Hs as [|? ? Hm Hf]. constructor; [done|].
    eapply Forall_impl; [exact Hf|]. intros k2 Hx. cbn in *. by eapply lt_trans.
  - destruct (bytes_ltb k' k) eqn:E2; [|done].
    destruct (emplace k u m) as [r|] eqn:E; [|done]. cbn in H. injection H as <-.
    destruct (IH r eq_refl) as [Hp Hs']. split.
    + rewrite Hp. apply Permutation_swap.
    + intros Hs. cbn in *. inversion_clear Hs as [|? ? Hm Hf]. constructor; [by apply Hs'|].
      rewrite Hp. cbn. constructor; done.
Qed.

(** An absent key can always be added. *)
Lemma emplace_absent k u m : ~ In k (map fst m) -> is_Some (emplace k u m).
Proof.
  induction m as [|[k' u'] m IH]; cbn; intros Hk; [by eexists|].
  destruct (bytes_ltb k k') eqn:E1; [by eexists|]. destruct (bytes_ltb k' k) eqn:E2.
  - destruct IH as [r ->]; [tauto|]. by eexists.
  - exfalso. apply Hk. left. symmetry. by apply (lt_total (lt:=bytes_ltb)).
Qed.

(** ** Resolution *)

(** A transaction as it was mined. *)
Abbreviation mined := (bytes * Z)%type.
Definition mined_of (e : bytes * unconfirmed_l2_tx) : mined := (e.1, height_added e.2).
Definition mined_of_resolution (r : resolution) : mined := (r_hash r, height_added (r_counts r)).

(** What the header promises of a resolution.  A vote counts at most [FULL_SCORE], so an
    acceptance takes at least four more blocks and a denial by votes at least six. *)
Definition resolved_by_rule (r : resolution) : Prop :=
  let u := r_counts r in
  let age := r_height r - height_added u in
  counted (r_height r) u /\ 0 < age <= MAX_VOTING_BLOCKS /\
  if r_accepted r then wins (confirmations u) (denials u) /\ 4 <= age
  else ~ wins (confirmations u) (denials u) /\
       (wins (denials u) (confirmations u) /\ 6 <= age \/ age = MAX_VOTING_BLOCKS).

Lemma wins_age h u : counted h u ->
  (wins (confirmations u) (denials u) -> height_added u + 4 <= h) /\
  (wins (denials u) (confirmations u) -> height_added u + 6 <= h).
Proof. intros [H1 H2 H3]. unfold wins, FULL_SCORE in *. lia. Qed.

Lemma vote_resolves w vote h k u r :
  9 <= w <= FULL_SCORE -> live h u -> h + 1 < 2 ^ 62 ->
  confirmed (count_vote w vote u) (h + 1) = Some r ->
  resolved_by_rule (Resolution k (count_vote w vote u) (h + 1) r).
Proof.
  intros Hw Hu Hh Hr. pose proof (count_vote_counted w vote h u Hw Hu) as Hc.
  destruct Hu as [[Hs _ _] Hlt]. assert (height_added (count_vote w vote u) = height_added u) as Ha
    by by destruct vote.
  pose proof (confirmed_exact (h + 1) _ Hc ltac:(rewrite Ha; unfold MAX_VOTING_BLOCKS in *; lia) Hh)
    as He. rewrite Hr in He. pose proof (wins_age _ _ Hc) as [Hw4 Hw6].
  unfold resolved_by_rule. cbn [r_counts r_height r_accepted]. split; [done|].
  rewrite Ha in *. unfold MAX_VOTING_BLOCKS in *. split; [lia|].
  destruct r; [split; [done|]; specialize (Hw4 He); lia|]. destruct He as [He [Hd|Hd]].
  - split; [done|]. left. split; [done|]. specialize (Hw6 Hd). lia.
  - split; [done|]. right. lia.
Qed.

Lemma vote_leaves_live w vote h u :
  9 <= w <= FULL_SCORE -> live h u -> h + 1 < 2 ^ 62 ->
  confirmed (count_vote w vote u) (h + 1) = None -> live (h + 1) (count_vote w vote u).
Proof.
  intros Hw Hu Hh Hr. pose proof (count_vote_counted w vote h u Hw Hu) as Hc. split; [done|].
  destruct Hu as [_ Hlt]. assert (height_added (count_vote w vote u) = height_added u) as Ha
    by by destruct vote.
  pose proof (confirmed_exact (h + 1) _ Hc ltac:(rewrite Ha; unfold MAX_VOTING_BLOCKS in *; lia) Hh)
    as He. rewrite Hr in He. tauto.
Qed.

Definition all_live (h : Z) (m : pending_map) : Prop := Forall (fun e => live h e.2) m.

Lemma tally_spec w h votes m m' out :
  9 <= w <= FULL_SCORE -> h + 1 < 2 ^ 62 -> length votes = length m -> all_live h m ->
  tally w (h + 1) votes m = (m', out) ->
  all_live (h + 1) m' /\ Forall resolved_by_rule out /\ sublist m'.*1 m.*1 /\
  mined_of <$> m ≡ₚ (mined_of_resolution <$> out) ++ (mined_of <$> m').
Proof.
  intros Hw Hh Hl Hm. revert votes m' out Hl.
  induction Hm as [|[k u] m Hu Hm IH]; intros [|vote votes] m' out Hl Ht; try done.
  { injection Ht as <- <-. repeat split; constructor. }
  cbn in Ht, Hu. injection Hl as Hl. destruct (tally w (h + 1) votes m) as [m2 out2] eqn:E.
  destruct (IH votes m2 out2 Hl E) as (H1 & H2 & H3 & H4).
  assert (mined_of (k, count_vote w vote u) = mined_of (k, u)) as Hk by by destruct vote.
  destruct (confirmed (count_vote w vote u) (h + 1)) as [r|] eqn:Er; injection Ht as <- <-.
  - split_and!; [done| |by constructor|].
    + constructor; [|done]. by eapply vote_resolves.
    + cbn [fmap list_fmap app]. rewrite <- Hk. constructor. exact H4.
  - split_and!; [|done|cbn; by constructor|].
    + constructor; [|done]. by eapply vote_leaves_live.
    + cbn [fmap list_fmap]. rewrite <- Hk, <- Permutation_middle. by constructor.
Qed.

Lemma add_pending_spec b hashes m m' :
  block_ok b -> add_pending b hashes m = Some m' -> all_live (b_height b) m -> sorted_keys m ->
  all_live (b_height b) m' /\ sorted_keys m' /\
  mined_of <$> m' ≡ₚ ((fun k => (k, b_height b)) <$> hashes) ++ (mined_of <$> m).
Proof.
  intros Hb. unfold add_pending. revert m.
  induction hashes as [|k hashes IH]; intros m H Hm Hs; [injection H as <-; done|].
  cbn [foldl] in H. unfold mbind at 2, option_bind in H.
  destruct (emplace k (new_unconfirmed (b_height b) (b_pulse b)) m) as [m1|] eqn:E.
  2: { exfalso. clear -H. induction hashes; [done|]. by apply IHhashes. }
  destruct (emplace_spec _ _ _ _ E) as [Hp Hs1].
  destruct (IH m1 H) as (H1 & H2 & H3).
  - unfold all_live. rewrite Hp. constructor; [by apply new_unconfirmed_live|done].
  - by apply Hs1.
  - split_and!; [done..|]. rewrite H3, Hp. cbn. by rewrite <- Permutation_middle.
Qed.

(** The transactions mined by a run. *)
Definition mined_in (blocks : list (block * list bytes)) : list mined :=
  '(b, hashes) ← blocks; (fun k => (k, b_height b)) <$> hashes.

(** Consecutive blocks above [h]. *)
Fixpoint consecutive (h : Z) (blocks : list (block * list bytes)) : Prop :=
  match blocks with
  | [] => True
  | (b, _) :: blocks => b_height b = h + 1 /\ block_ok b /\ consecutive (h + 1) blocks
  end.

Lemma l2_run_spec blocks h m m' out :
  consecutive h blocks -> all_live h m -> sorted_keys m -> l2_run blocks m = Some (m', out) ->
  all_live (h + Z.of_nat (length blocks)) m' /\ sorted_keys m' /\ Forall resolved_by_rule out /\
  (mined_of <$> m) ++ mined_in blocks ≡ₚ (mined_of_resolution <$> out) ++ (mined_of <$> m').
Proof.
  revert h m out. induction blocks as [|[b hashes] blocks IH]; intros h m out Hc Hm Hs H.
  { injection H as <- <-. cbn. rewrite Z.add_0_r, app_nil_r. done. }
  destruct Hc as (Hb & Hok & Hc). cbn [l2_run] in H. unfold vote_on_pending in H.
  destruct (length (l2_votes b) =? length m)%nat eqn:El; cbn [negb mbind option_bind] in H; [|done].
  apply Nat.eqb_eq in El. rewrite Hb in H.
  destruct (tally (vote_weight b) (h + 1) (l2_votes b) m) as [m1 now] eqn:Et.
  destruct (tally_spec _ h _ _ _ _ (vote_weight_range b Hok) ltac:(destruct Hok; lia) El Hm Et)
    as (T1 & T2 & T3 & T4).
  destruct (add_pending b hashes m1) as [m2|] eqn:Ea; cbn [mbind option_bind] in H; [|done].
  rewrite <- Hb in T1.
  destruct (add_pending_spec _ _ _ _ Hok Ea T1 (StronglySorted_sublist _ _ _ T3 Hs)) as (A1 & A2 & A3).
  destruct (l2_run blocks m2) as [[m3 later]|] eqn:Er; cbn in H; [|done]. injection H as <- <-.
  rewrite Hb in A1. destruct (IH _ _ _ Hc A1 A2 Er) as (R1 & R2 & R3 & R4).
  split_and!; [|done|by apply Forall_app|].
  - by replace (h + Z.of_nat (length ((b, hashes) :: blocks))) with (h + 1 + Z.of_nat (length blocks))
      by (cbn [length]; lia).
  - rewrite T4, fmap_app, <- app_assoc, <- app_assoc. f_equiv.
    cbn [mined_in mbind list_bind]. fold (mined_in blocks). rewrite <- R4, A3.
    rewrite (app_assoc (mined_of <$> m1)), (Permutation_app_comm (mined_of <$> m1)). done.
Qed.

(** (C18) Every L2 transaction is resolved in time, whatever the votes: in any run of
    consecutive blocks that starts with nothing pending, each mined transaction is either
    still pending and mined fewer than 30 blocks ago, or was resolved exactly once, at most
    30 blocks after it was mined, by the documented rule evaluated without overflow
    (accepted with five full votes more than, and at least twice, the denials, which takes
    four further blocks; denied by the same margin, which takes six, or by expiry).  The
    pending map stays sorted, so votes and transactions correspond. *)
Theorem l2_resolved_in_time blocks h m out :
  consecutive h blocks -> l2_run blocks [] = Some (m, out) ->
  let now := h + Z.of_nat (length blocks) in
  mined_in blocks ≡ₚ (mined_of_resolution <$> out) ++ (mined_of <$> m) /\
  Forall resolved_by_rule out /\
  Forall (fun e => now < height_added e.2 + MAX_VOTING_BLOCKS) m /\ sorted_keys m.
Proof.
  intros Hc Hr. destruct (l2_run_spec _ _ _ _ _ Hc ltac:(constructor) ltac:(constructor) Hr)
    as (H1 & H2 & H3 & H4).
  split_and!; try done. eapply Forall_impl; [exact H1|]. by intros e [_ He].
Qed.

(** One transaction mined at height 101 in round 0 and accepted by unanimous votes at 105;
    one mined at 102 whose votes are split until it expires at 132. *)
Definition demo_l2_block (h : Z) (votes : list bool) : block :=
  Block hf21_eth h 0 [] [] 0 no_pulse [] [] votes 0 0.
Definition demo_l2_run : list (block * list bytes) :=
  [(demo_l2_block 101 [], [[7]]); (demo_l2_block 102 [true], [[3]])] ++
  ((fun h => (demo_l2_block h [Z.even h; true], [])) <$> [103; 104; 105]) ++
  ((fun i => let h := 106 + Z.of_nat i in (demo_l2_block h [Z.even h], [])) <$> seq 0 27).

Lemma l2_resolved_in_time_witness :
  exists out, l2_run demo_l2_run [] = Some ([], out) /\ Forall resolved_by_rule out /\
    (fun r => (r_hash r, r_height r, r_accepted r)) <$> out = [([7], 105, true); ([3], 132, false)].
Proof.
  assert (consecutive 100 demo_l2_run) as Hc.
  { vm_compute. repeat split; congruence. }
  destruct (l2_run demo_l2_run []) as [[m out]|] eqn:E; [|vm_compute in E; discriminate E].
  pose proof (l2_resolved_in_time demo_l2_run 100 m out Hc E) as (_ & Hr & _).
  assert (m = [] /\ (fun r => (r_hash r, r_height r, r_accepted r)) <$> out =
    [([7], 105, true); ([3], 132, false)]) as [Hm Ho]
    by (vm_compute in E; injection E as <- <-; split; reflexivity).
  subst m. exists out. split; [reflexivity|]. split; [exact Hr|exact Ho].
Defined.
