(* ===== verification/NodeProof.v ===== *)
(** * What a node records about another node's service

    The [proof_info] of [cryptonote_core/service_node_list.{h,cpp}]: circular
    participation histories, reachability statistics from ping reports, the last uptime
    proof and the last two public addresses; with the IPv4 classification of
    [epee/net/local_ip.h] and the proof comparisons of [uptime_proof.cpp].  Clocks are
    arguments: [steady_clock] in nanoseconds, [std::time] in seconds. *)
From S2P Require Import Prelude Hardfork Config Rules.

(** ** Participation histories *)

(** The entries a history stores, and which of them count as a pass. *)
Class Passable (A : Type) := pass : A -> bool.

Definition INVALID_HEIGHT : Z := UINT64_MAX.

Record checkpoint_participation_entry := CheckpointParticipation { cpe_height : Z; cpe_voted : bool }.
Record pulse_participation_entry := PulseEntry { ppe_height : Z; ppe_round : Z; ppe_voted : bool }.
Record timestamp_participation_entry := TimestampEntry { participated : bool }.
Record timesync_entry := TimesyncEntry { in_sync : bool }.

#[global] Instance checkpoint_entry_pass : Passable checkpoint_participation_entry := cpe_voted.
#[global] Instance pulse_entry_pass : Passable pulse_participation_entry := ppe_voted.
#[global] Instance timestamp_entry_pass : Passable timestamp_participation_entry := participated.
#[global] Instance timesync_entry_pass : Passable timesync_entry := in_sync.

Record participation_history (A : Type) := History { history : list A; write_index : Z }.
Arguments History {A} _ _.
Arguments history {A} _.
Arguments write_index {A} _.

Section History.
Context {A : Type} `{Passable A}.

(** A history of [count] default-constructed entries. *)
Definition history_init (count : nat) (d : A) : participation_history A :=
  History (replicate count d) 0.

Definition history_reset (h : participation_history A) : participation_history A :=
  History (history h) 0.

Definition history_add (h : participation_history A) (entry : A) : participation_history A :=
  let size := Z.of_nat (length (history h)) in
  History (<[Z.to_nat (write_index h mod size) := entry]> (history h)) (u64 (write_index h + 1)).

Definition history_size (h : participation_history A) : Z :=
  Z.min (Z.of_nat (length (history h))) (write_index h).

Definition history_empty (h : participation_history A) : bool := write_index h =? 0.

Definition history_max_size (h : participation_history A) : Z := Z.of_nat (length (history h)).

(** [begin()] to [end()]: the first [size()] elements of the array. *)
Definition history_range (h : participation_history A) : list A :=
  take (Z.to_nat (history_size h)) (history h).

Definition count_failures (l : list A) : nat := length (filter (fun e => pass e = false) l).

Definition history_failures (h : participation_history A) : Z :=
  Z.of_nat (count_failures (history_range h)).

Definition history_passes (h : participation_history A) : Z :=
  u64 (history_size h - history_failures h).

End History.

(** ** Reachability *)

(** [time_point::min()]; times are nanoseconds of the steady clock. *)
Definition NEVER : Z := -9223372036854775808.
Definition seconds (s : Z) : Z := s * 1000000000.
Definition REACHABLE_MAX_FAILURE_VALIDITY : Z := seconds 300.

Record reachable_stats := ReachableStats {
  last_reachable : Z;
  first_unreachable : Z;
  last_unreachable : Z;
}.

Definition no_reports : reachable_stats := ReachableStats NEVER NEVER NEVER.

Definition reachable (r : reachable_stats) (now : Z) : option bool :=
  if last_unreachable r <=? last_reachable r then Some true
  else if now - REACHABLE_MAX_FAILURE_VALIDITY <? last_unreachable r then Some false
  else None.

Definition unreachable_for (r : reachable_stats) (threshold now : Z) : bool :=
  match reachable r now with
  | None | Some true => false
  | Some false => negb (now - threshold <? first_unreachable r)
  end.

(** The update of [set_peer_reachable] once the node is known to be registered. *)
Definition report_reachable (r : reachable_stats) (ok : bool) (now : Z) : reachable_stats :=
  if ok then ReachableStats now NEVER (last_unreachable r)
  else ReachableStats (last_reachable r)
         (if first_unreachable r =? NEVER then now else first_unreachable r) now.

(** ** Uptime proofs *)

Record Proof := mkProof {
  p_version : version3;
  p_storage_server_version : version3;
  p_session_router_version : version3;
  p_lokinet_version : version3;
  p_timestamp : Z;
  p_pubkey_ed25519 : list Z;
  p_sig_ed25519 : list Z;
  p_pubkey_bls : list Z;
  p_pop_bls : list Z;
  p_l2_height : Z;
  p_public_ip : Z;
  p_storage_https_port : Z;
  p_storage_omq_port : Z;
  p_qnet_port : Z;
  p_version_tag : list Z;
  p_proof_hash : list Z;
}.

Definition null_bytes (n : nat) : list Z := replicate n 0.

(** A default-constructed [Proof]. *)
Definition empty_proof : Proof :=
  mkProof (0, 0, 0) (0, 0, 0) (0, 0, 0) (0, 0, 0) 0 (null_bytes 32) (null_bytes 64)
    (null_bytes 64) (null_bytes 128) 0 0 0 0 0 [] (null_bytes 32).

(** [proof_tuple]: what [operator==] compares (the tag and the hash are left out). *)
Definition proof_tuple (p : Proof) :=
  (p_timestamp p, p_pubkey_ed25519 p, p_sig_ed25519 p, p_pubkey_bls p, p_pop_bls p,
   p_public_ip p, p_storage_https_port p, p_storage_omq_port p, p_qnet_port p, p_l2_height p,
   (p_version p, p_storage_server_version p, p_session_router_version p, p_lokinet_version p)).

Definition proof_eqb (p o : Proof) : bool := bool_decide (proof_tuple p = proof_tuple o).

Definition contact_info_changed (p o : Proof) : bool :=
  let fields p :=
    (p_version p, p_storage_server_version p, p_session_router_version p, p_lokinet_version p,
     p_pubkey_ed25519 p, p_public_ip p, p_storage_https_port p, p_storage_omq_port p,
     p_qnet_port p) in
  negb (bool_decide (fields p = fields o)).

Record proof_info := ProofInfo {
  pi_pulse_participation : participation_history pulse_participation_entry;
  pi_checkpoint_participation : participation_history checkpoint_participation_entry;
  pi_timestamp_participation : participation_history timestamp_participation_entry;
  pi_timesync_status : participation_history timesync_entry;
  pi_timestamp : Z;
  pi_effective_timestamp : Z;
  pi_public_ips : (Z * Z) * (Z * Z);
  pi_ss_reachable : reachable_stats;
  pi_lokinet_reachable : reachable_stats;
  pi_sr_reachable : reachable_stats;
  pi_proof : option Proof;
  pi_pubkey_x25519 : list Z;
}.

Definition vote_window : nat := Z.to_nat QUORUM_VOTE_CHECK_COUNT.

(** [proof_info()], whose constructor allocates an empty proof. *)
Definition new_proof_info : proof_info :=
  ProofInfo (history_init vote_window (PulseEntry INVALID_HEIGHT 0 true))
    (history_init vote_window (CheckpointParticipation INVALID_HEIGHT true))
    (history_init vote_window (TimestampEntry true))
    (history_init vote_window (TimesyncEntry true))
    0 0 ((0, 0), (0, 0)) no_reports no_reports no_reports (Some empty_proof) (null_bytes 32).

(** The address tracking of [proof_info::update]: the entry of a known address is
    refreshed, an unknown one replaces the older entry. *)
Definition track_ip (ips : (Z * Z) * (Z * Z)) (ip now : Z) : (Z * Z) * (Z * Z) :=
  let '((ip0, t0), (ip1, t1)) := ips in
  if negb (ip0 =? 0) && (ip0 =? ip) then ((ip0, now), (ip1, t1))
  else if negb (ip1 =? 0) && (ip1 =? ip) then ((ip0, t0), (ip1, now))
  else if t1 <? t0 then ((ip0, t0), (ip, now))
  else ((ip, now), (ip1, t1)).

(** [proof_info::update]: the new record, whether it must be stored, and whether the
    contact information changed. *)
Definition update (pi : proof_info) (ts : Z) (new_proof : Proof) (pk_x2 : list Z) (now : Z)
    : proof_info * (bool * bool) :=
  let contact_changed :=
    match pi_proof pi with None => true | Some p => contact_info_changed p new_proof end in
  let differs := match pi_proof pi with None => true | Some p => negb (proof_eqb p new_proof) end in
  let proof := match pi_proof pi with Some p => if differs then new_proof else p
                                    | None => new_proof end in
  let update_db := differs || negb (pi_timestamp pi =? ts) in
  (ProofInfo (pi_pulse_participation pi) (pi_checkpoint_participation pi)
     (pi_timestamp_participation pi) (pi_timesync_status pi) ts ts
     (track_ip (pi_public_ips pi) (p_public_ip proof) now)
     (pi_ss_reachable pi) (pi_lokinet_reachable pi) (pi_sr_reachable pi) (Some proof) pk_x2,
   (update_db, contact_changed)).

(** ** IPv4 classification, on an address stored little-endian *)

Definition is_ip_local (ip : Z) : bool :=
  (Z.land ip 0xff =? 0x0a) || (Z.land ip 0xf0ff =? 0x10ac) || (Z.land ip 0xffff =? 0xa8c0)
  || (Z.land ip 0xc0ff =? 0x4064) || (Z.land ip 0xffff =? 0xfea9).

Definition is_ip_loopback (ip : Z) : bool := Z.land ip 0xff =? 0x7f.

Definition is_ip_public (ip : Z) : bool :=
  negb (is_ip_local ip || is_ip_loopback ip || (Z.land ip 0xff =? 0) || (Z.land ip 0xe0 =? 0xe0)).

(** ** Histories: the last [count] entries *)

Section HistoryProofs.
Context {A : Type} `{Passable A}.
Implicit Types (h : participation_history A) (es : list A).

(** [h] holds [es], of which the array keeps the last [c]: entry number [k] sits in
    slot [k mod c]. *)
Definition holds (c : nat) h es : Prop :=
  length (history h) = c /\ write_index h = Z.of_nat (length es) /\
  forall k, (length es <= k + c)%nat -> (k < length es)%nat ->
    history h !! (k mod c)%nat = es !! k.

Lemma slot_of c n : (0 < c)%nat -> Z.to_nat (Z.of_nat n mod Z.of_nat c) = (n mod c)%nat.
Proof. intros. rewrite <- Nat2Z.inj_mod. lia. Qed.

Lemma mod_window c k n :
  (0 < c)%nat -> (k < n)%nat -> (n < k + c)%nat -> (k mod c)%nat <> (n mod c)%nat.
Proof.
  intros Hc Hlt Hw Heq.
  assert (H1 := Nat.div_mod_eq k c). assert (H2 := Nat.div_mod_eq n c).
  assert (n - k = c * (n / c - k / c))%nat by nia. nia.
Qed.

Lemma holds_add c h es e :
  (0 < c)%nat -> Z.of_nat (length es) < UINT64_MAX ->
  holds c h es -> holds c (history_add h e) (es ++ [e]).
Proof.
  intros Hc Hn (Hlen & Hw & Hslot). unfold UINT64_MAX in Hn.
  unfold history_add. rewrite Hw, Hlen, slot_of by done. split_and!; cbn.
  - by rewrite length_insert.
  - rewrite u64_small by (unfold is_u64; lia). rewrite length_app; cbn. lia.
  - intros k Hk1 Hk2. rewrite length_app in Hk1, Hk2; cbn in Hk1, Hk2.
    destruct (decide (k = length es)) as [->|Hne].
    + rewrite list_lookup_insert_eq by (rewrite Hlen; apply Nat.mod_upper_bound; lia).
      by rewrite lookup_app_r, Nat.sub_diag by lia.
    + rewrite list_lookup_insert_ne by (apply not_eq_sym, mod_window; lia).
      rewrite Hslot by lia. by rewrite lookup_app_l by lia.
Qed.

Lemma holds_adds c h es es' :
  (0 < c)%nat -> Z.of_nat (length es + length es') <= UINT64_MAX ->
  holds c h es -> holds c (foldl history_add h es') (es ++ es').
Proof.
  intros Hc. revert h es. induction es' as [|e es' IH]; intros h es Hn Hh; cbn.
  - by rewrite app_nil_r.
  - rewrite cons_middle, app_assoc. apply IH.
    + rewrite length_app. cbn in *. lia.
    + apply holds_add; [done | cbn in Hn; lia | done].
Qed.

(** The counted range is a permutation of the last [c] entries. *)
Lemma holds_range c h es :
  (0 < c)%nat -> holds c h es ->
  history_size h = Z.of_nat (c `min` length es) /\
  history_range h ≡ₚ drop (length es - c) es.
Proof.
  intros Hc (Hlen & Hw & Hslot).
  assert (Hsize : history_size h = Z.of_nat (c `min` length es))
    by (unfold history_size; rewrite Hlen, Hw; lia).
  split; [done|]. unfold history_range. rewrite Hsize, Nat2Z.id.
  destruct (decide (length es <= c)%nat) as [Hle|Hgt].
  - replace (length es - c)%nat with 0%nat by lia. rewrite drop_0, Nat.min_r by lia.
    apply reflexive_eq, list_eq. intros k. destruct (decide (k < length es)%nat) as [Hk|Hk].
    + rewrite lookup_take_lt by done. rewrite <- Hslot by lia. by rewrite Nat.mod_small by lia.
    + rewrite lookup_take_ge, lookup_ge_None_2 by lia. done.
  - rewrite Nat.min_l, take_ge by lia. symmetry.
    assert (Hrot : drop (length es - c) es = rotate (length es - c) (history h)).
    { apply list_eq. intros i. destruct (decide (i < c)%nat) as [Hi|Hi].
      - rewrite lookup_rotate_r by lia.
        unfold rotate_nat_add. rewrite <- Nat2Z.inj_add, Hlen, slot_of, lookup_drop by done.
        by rewrite Hslot by lia.
      - rewrite lookup_drop, !lookup_ge_None_2 by (rewrite ?length_rotate; lia). done. }
    rewrite Hrot. unfold rotate. rewrite (Permutation_app_comm (drop _ _)). by rewrite take_drop.
Qed.

Lemma count_failures_perm (l l' : list A) : l ≡ₚ l' -> count_failures l = count_failures l'.
Proof. intros E. unfold count_failures. by rewrite E. Qed.

Lemma count_failures_le (l : list A) : (count_failures l <= length l)%nat.
Proof. apply length_filter. Qed.

End HistoryProofs.

(** Whatever stale entries the array of a participation history holds, after a reset
    its size, failures and passes are those of the entries added since, of which exactly
    the last [count] are taken into account. *)
Theorem history_counts_recent {A : Type} `{Passable A} (h : participation_history A) es :
  history h <> [] -> Z.of_nat (length es) <= UINT64_MAX ->
  let c := length (history h) in
  let h' := foldl history_add (history_reset h) es in
  let recent := drop (length es - c) es in
  history_size h' = Z.of_nat (length recent) /\
  history_failures h' = Z.of_nat (count_failures recent) /\
  history_passes h' = Z.of_nat (length recent - count_failures recent).
Proof.
  intros Hne Hn c h' recent.
  assert (Hc : (0 < c)%nat) by (subst c; destruct (history h); [done | cbn; lia]).
  destruct (holds_range c h' es Hc) as [Hsize Hrange].
  { apply (holds_adds c _ [] es Hc); [done|]. split_and!; [done..|]. cbn. lia. }
  pose proof (count_failures_le recent) as Hle.
  assert (Hrl : length recent = (c `min` length es)%nat) by (subst recent; rewrite length_drop; lia).
  apply count_failures_perm in Hrange. fold recent in Hrange.
  unfold history_passes, history_failures. rewrite Hrange, Hsize, <- Hrl.
  split_and!; [done..|]. rewrite u64_small by (unfold is_u64, UINT64_MAX in *; lia). lia.
Qed.

Definition votes (l : list bool) : list timestamp_participation_entry := TimestampEntry <$> l.

Lemma history_counts_recent_witness :
  let h := foldl history_add (history_reset (pi_timestamp_participation new_proof_info))
             (votes [false; false; true; true; true; true; true; true; false; true]) in
  history_size h = 8 /\ history_failures h = 1 /\ history_passes h = 7.
Proof.
  pose proof (history_counts_recent (pi_timestamp_participation new_proof_info)
    (votes [false; false; true; true; true; true; true; true; false; true])
    ltac:(discriminate) ltac:(vm_compute; discriminate)) as Hcounts.
  vm_compute in Hcounts. vm_compute. exact Hcounts.
Defined.

(** ** Reachability: a recent failure at the end of a long enough outage *)

(** Reports ([true]: reachable) with their times, oldest first. *)
Definition run_reports (r : reachable_stats) (rs : list (bool * Z)) : reachable_stats :=
  foldl (fun r rt => report_reachable r rt.1 rt.2) r rs.

Lemma run_reports_bound rs r T :
  last_reachable r <= T -> last_unreachable r <= T -> Forall (fun rt => rt.2 <= T) rs ->
  last_reachable (run_reports r rs) <= T /\ last_unreachable (run_reports r rs) <= T.
Proof.
  intros H1 H2 Hall. revert r H1 H2.
  induction Hall as [|[[] t] rs Ht Hall IH]; intros r H1 H2; [done | apply IH; cbn in *; lia..].
Qed.

Lemma run_failures r fs :
  first_unreachable r <> NEVER ->
  run_reports r (pair false <$> fs)
  = ReachableStats (last_reachable r) (first_unreachable r) (default (last_unreachable r) (last fs)).
Proof.
  revert r. induction fs as [|t fs IH]; intros r Hne; [by destruct r|].
  cbn. unfold run_reports in IH. rewrite IH by (cbn; by rewrite (proj2 (Z.eqb_neq _ _) Hne)).
  rewrite last_cons. cbn. rewrite (proj2 (Z.eqb_neq _ _) Hne). by destruct (last fs).
Qed.

(** Before the outage: no report at all, or reports ending in a pass. *)
Definition healthy (pre : list (bool * Z)) : Prop :=
  pre = [] \/ exists pre' t, pre = pre' ++ [(true, t)].

Lemma healthy_stats pre :
  healthy pre -> StronglySorted Z.lt (NEVER :: (snd <$> pre)) ->
  let r := run_reports no_reports pre in
  first_unreachable r = NEVER /\ last_unreachable r <= last_reachable r.
Proof.
  intros [->|(pre' & t & ->)] Hs; [by vm_compute|].
  unfold run_reports. rewrite foldl_app. cbn. split; [done|].
  assert (Hbefore : forall x, x ∈ NEVER :: (snd <$> pre') -> x < t).
  { intros x Hx. apply (StronglySorted_app_1_elem_of Z.lt (NEVER :: (snd <$> pre')) [t]);
      [by rewrite fmap_app in Hs | done | set_solver]. }
  apply (run_reports_bound pre' no_reports t); [cbn; apply Z.lt_le_incl, Hbefore; set_solver..|].
  apply Forall_forall. intros rt Hrt. apply Z.lt_le_incl, Hbefore.
  apply elem_of_cons. right. by apply list_elem_of_fmap_2.
Qed.

(** A node counts as unreachable exactly when its last reports are an unbroken run of
    failures since the last pass (or since the start), of which the newest is less than
    [REACHABLE_MAX_FAILURE_VALIDITY] old and the oldest at least [threshold] old. *)
Theorem unreachable_for_outage pre fails threshold now :
  healthy pre -> StronglySorted Z.lt (NEVER :: (snd <$> pre) ++ fails) ->
  unreachable_for (run_reports no_reports (pre ++ (pair false <$> fails))) threshold now = true
  <-> exists oldest newest,
        head fails = Some oldest /\ last fails = Some newest /\
        now - REACHABLE_MAX_FAILURE_VALIDITY < newest /\ oldest <= now - threshold.
Proof.
  intros Hpre Hs.
  destruct (healthy_stats pre Hpre) as [Hfirst Hle].
  { apply (StronglySorted_app_1_l Z.lt (NEVER :: (snd <$> pre)) fails Hs). }
  unfold run_reports in *. rewrite foldl_app. set (r := foldl _ no_reports pre) in *.
  destruct fails as [|f fails].
  { unfold unreachable_for, reachable. cbn. rewrite (proj2 (Z.leb_le _ _) Hle).
    split; [done | intros (? & ? & [=] & _)]. }
  assert (Hlt : forall x y, x ∈ NEVER :: (snd <$> pre) -> y ∈ f :: fails -> x < y)
    by (intros x y Hx Hy; by apply (StronglySorted_app_1_elem_of Z.lt
          (NEVER :: (snd <$> pre)) (f :: fails) x y Hs)).
  assert (Hnever : NEVER < f) by (apply Hlt; set_solver).
  assert (Hlr : last_reachable r < f).
  { assert (last_reachable r <= f - 1); [|lia].
    apply (run_reports_bound pre no_reports (f - 1)); [cbn; lia..|].
    apply Forall_forall. intros rt Hrt. assert (rt.2 < f); [|lia].
    apply Hlt; [apply elem_of_cons; right; by apply list_elem_of_fmap_2 | set_solver]. }
  cbn -[last]. rewrite Hfirst, Z.eqb_refl.
  pose proof (run_failures (ReachableStats (last_reachable r) f f) fails) as Hrun.
  unfold run_reports in Hrun. rewrite Hrun by (cbn; lia). rewrite last_cons. cbn.
  set (n := default f (last fails)).
  assert (Hn : last_reachable r < n /\ match last fails with Some y => Some y | None => Some f end = Some n).
  { subst n. destruct (last fails) as [y|] eqn:Hy; cbn; [|done]. split; [|done].
    apply last_Some_elem_of in Hy. apply (StronglySorted_app_1_r _ (NEVER :: (snd <$> pre))), StronglySorted_inv in Hs as [_ Hs].
    rewrite Forall_forall in Hs. specialize (Hs y Hy). lia. }
  destruct Hn as [Hn ->]. unfold unreachable_for, reachable. cbn.
  rewrite (proj2 (Z.leb_gt _ _) Hn).
  destruct (Z.ltb_spec (now - REACHABLE_MAX_FAILURE_VALIDITY) n); cbn.
  - rewrite negb_true_iff, Z.ltb_ge. naive_solver.
  - split; [done | intros (? & ? & _ & [= <-] & ? & _); lia].
Qed.

Lemma unreachable_for_outage_witness :
  unreachable_for (run_reports no_reports
    ([(false, seconds 10); (true, seconds 20)] ++ (pair false <$> [seconds 100; seconds 4000])))
    (seconds 3900) (seconds 4100) = true.
Proof.
  apply (unreachable_for_outage [(false, seconds 10); (true, seconds 20)]
           [seconds 100; seconds 4000] (seconds 3900) (seconds 4100)).
  - right. by exists [(false, seconds 10)], (seconds 20).
  - repeat constructor.
  - exists (seconds 100), (seconds 4000). by vm_compute.
Defined.

(** ** IPv4 classes *)

Definition octets (a b c d : Z) : Z := a + 256 * b + 65536 * c + 16777216 * d.

(** The ranges that are not public: private, carrier-grade NAT, link-local, loopback,
    "this network", multicast and reserved. *)
Definition reserved_range (a b : Z) : bool :=
  (a =? 10) || ((a =? 172) && (16 <=? b) && (b <? 32)) || ((a =? 192) && (b =? 168))
  || ((a =? 100) && (64 <=? b) && (b <? 128)) || ((a =? 169) && (b =? 254))
  || (a =? 127) || (a =? 0) || (224 <=? a).

Definition public_agrees (a b : nat) : bool :=
  Bool.eqb (is_ip_public (Z.of_nat a + 256 * Z.of_nat b))
    (negb (reserved_range (Z.of_nat a) (Z.of_nat b))).
Definition public_agrees_row (a : nat) : bool := forallb (public_agrees a) (seq 0 256).

Lemma public_agrees_all : forallb public_agrees_row (seq 0 256) = true.
Proof. vm_cast_no_check (eq_refl true). Qed.

Lemma land_low16 x m : 0 <= m < 65536 -> Z.land x m = Z.land (x mod 65536) m.
Proof.
  intros Hm. change 65536 with (2 ^ 16). rewrite <- (Z.land_ones x 16), <- Z.land_assoc by lia.
  f_equal. rewrite Z.land_comm, Z.land_ones by lia. symmetry. by apply Z.mod_small.
Qed.

(** An address in an uptime proof is taken as public exactly when its two leading
    octets lie outside the private, shared, link-local, loopback, current-network,
    multicast and reserved ranges. *)
Theorem is_ip_public_ranges a b c d :
  is_u8 a -> is_u8 b -> is_u8 c -> is_u8 d ->
  is_ip_public (octets a b c d) = negb (reserved_range a b).
Proof.
  unfold is_u8. intros Ha Hb Hc Hd.
  assert (Hlow : octets a b c d mod 65536 = a + 256 * b) by (unfold octets; lia).
  assert (Heq : is_ip_public (octets a b c d) = is_ip_public (a + 256 * b)).
  { unfold is_ip_public, is_ip_local, is_ip_loopback.
    rewrite !(land_low16 (octets a b c d)), Hlow by lia. done. }
  pose proof (forallb_seq _ 256 (Z.to_nat a) ltac:(lia) public_agrees_all) as Hrow.
  pose proof (forallb_seq _ 256 (Z.to_nat b) ltac:(lia) Hrow) as Hp.
  unfold public_agrees in Hp. rewrite !Z2Nat.id in Hp by lia. apply Bool.eqb_prop in Hp. congruence.
Qed.

Lemma is_ip_public_ranges_witness : is_ip_public (octets 100 63 7 1) = negb (reserved_range 100 63).
Proof. apply is_ip_public_ranges; by unfold is_u8. Defined.
