(* ===== verification/ServiceNode.v ===== *)
(** * One service node's registration record

    [service_node_info] of [cryptonote_core/service_node_list.{h,cpp}] with its
    predicates, the decommission credit of [service_node_quorum_cop.cpp] and the payout
    portions.  A node's life cycle is encoded in the sign of [active_since_height];
    [node_status] below is its abstract reading. *)
From S2P Require Import Prelude IntUtil Hardfork Config Address Rules Voting.

Record contribution_t := Contribution {
  key_image_pub_key : bytes;
  key_image : bytes;
  contribution_amount : Z;
}.

Record contributor_t := Contributor {
  contributor_amount : Z;
  contributor_reserved : Z;
  contributor_address : account_public_address;
  ethereum_address : bytes;
  ethereum_beneficiary : bytes;
  locked_contributions : list contribution_t;
}.

Record pulse_sort_key := PulseSortKey {
  last_height_validating_in_quorum : Z;
  quorum_index : Z;
}.

(** The record's format [version] is not modelled. *)
Record service_node_info := Info {
  registration_height : Z;
  requested_unlock_height : Z;
  last_reward_block_height : Z;
  last_reward_transaction_index : Z;
  decommission_count : Z;
  active_since_height : Z;
  last_decommission_height : Z;
  last_decommission_reason_consensus_all : Z;
  last_decommission_reason_consensus_any : Z;
  recommission_credit : Z;
  contributors : list contributor_t;
  total_contributed : Z;
  total_reserved : Z;
  staking_requirement : Z;
  portions_for_operator : Z;
  swarm_id : Z;
  operator_address : account_public_address;
  operator_ethereum_address : bytes;
  bls_public_key : bytes;
  last_ip_change_height : Z;
  registration_hf_version : hf;
  pulse_sorter : pulse_sort_key;
}.

Definition is_fully_funded (info : service_node_info) : bool :=
  staking_requirement info <=? total_contributed info.

Definition is_decommissioned (info : service_node_info) : bool := active_since_height info <? 0.

Definition is_active (info : service_node_info) : bool :=
  is_fully_funded info && negb (is_decommissioned info).

(** [None] when [get_config] throws.  The sum is of an [int64_t] and a [uint64_t]. *)
Definition is_payable (info : service_node_info) (at_height : Z) (nettype : network_type)
    : option bool :=
  netconf ← get_config nettype;
  Some (is_active info
        && (u64 (active_since_height info + SERVICE_NODE_PAYABLE_AFTER_BLOCKS netconf) <=? at_height)
        && (0 <? staking_requirement info)).

Definition total_num_locked_contributions (info : service_node_info) : Z :=
  foldl (fun result c => u64 (result + Z.of_nat (length (locked_contributions c)))) 0
    (contributors info).

Definition can_be_voted_on (info : service_node_info) (height : Z) : bool :=
  if negb (is_fully_funded info) then false
  else if height <=? registration_height info then false
  else if is_decommissioned info && (height <=? last_decommission_height info) then false
  else if is_active info then negb (height <=? u64 (active_since_height info))
  else true.

Definition can_transition_to_state (info : service_node_info) (hf_version : hf) (height : Z)
    (proposed_state : Z) : bool :=
  let height_ok :=
    if hf13_enforce_checkpoints <=? hf_version then
      if negb (can_be_voted_on info height) then false
      else if proposed_state =? deregister then negb (height <=? registration_height info)
      else if proposed_state =? ip_change_penalty then negb (height <=? last_ip_change_height info)
      else true
    else if proposed_state =? deregister then negb (height <? registration_height info)
    else true in
  if negb height_ok then false
  else if is_decommissioned info then
    negb (proposed_state =? decommission) && negb (proposed_state =? ip_change_penalty)
  else negb (proposed_state =? recommission).

(** [quorum_cop::calculate_decommission_credit] in 64-bit signed arithmetic; [None] when
    [get_config] throws. *)
Definition calculate_decommission_credit (nettype : network_type) (info : service_node_info)
    (current_height : Z) : option Z :=
  conf ← get_config nettype;
  let blocks_up :=
    if negb (is_fully_funded info) then 0
    else if is_decommissioned info then
      s64 (s64 (last_decommission_height info) - - active_since_height info)
    else s64 (s64 current_height - active_since_height info) in
  let credit := recommission_credit info in
  let credit :=
    if 0 <? blocks_up then
      s64 (credit + Z.quot (s64 (blocks_up * BLOCKS_IN conf DECOMMISSION_CREDIT_PER_DAY))
                      (BLOCKS_PER_DAY conf))
    else credit in
  let max := s32 (BLOCKS_IN conf DECOMMISSION_MAX_CREDIT) in
  let credit := if max <? credit then max else credit in
  Some (if is_decommissioned info
        then s64 (credit - (s64 current_height - s64 (last_decommission_height info)))
        else credit).

(** [service_node_payout_portions]: the entries of the payout. *)
Definition service_node_payout_portions (info : service_node_info)
    : list (account_public_address * Z) :=
  if staking_requirement info =? 0 then []
  else
    let portions_after_fee := u64 (STAKING_PORTIONS - portions_for_operator info) in
    (fun contributor =>
       let portion := Int128.mul128_div64 (contributor_amount contributor) portions_after_fee
                        (staking_requirement info) in
       (contributor_address contributor,
        if bool_decide (contributor_address contributor = operator_address info)
        then u64 (portion + portions_for_operator info) else portion))
    <$> contributors info.

(** ** The abstract life cycle *)

Inductive node_status :=
| Funding
| Active (since : Z)
| Decommissioned (since at_height : Z).

Definition status (info : service_node_info) : node_status :=
  if is_decommissioned info then
    Decommissioned (- active_since_height info) (last_decommission_height info)
  else if is_fully_funded info then Active (active_since_height info) else Funding.

(** ** The effect of a state change on the record *)

Definition with_reward_position (info : service_node_info) (height : Z) : service_node_info :=
  {| registration_height := registration_height info;
     requested_unlock_height := requested_unlock_height info;
     last_reward_block_height := height;
     last_reward_transaction_index := UINT32_MAX;
     decommission_count := decommission_count info;
     active_since_height := active_since_height info;
     last_decommission_height := last_decommission_height info;
     last_decommission_reason_consensus_all := last_decommission_reason_consensus_all info;
     last_decommission_reason_consensus_any := last_decommission_reason_consensus_any info;
     recommission_credit := recommission_credit info;
     contributors := contributors info;
     total_contributed := total_contributed info;
     total_reserved := total_reserved info;
     staking_requirement := staking_requirement info;
     portions_for_operator := portions_for_operator info;
     swarm_id := swarm_id info;
     operator_address := operator_address info;
     operator_ethereum_address := operator_ethereum_address info;
     bls_public_key := bls_public_key info;
     last_ip_change_height := last_ip_change_height info;
     registration_hf_version := registration_hf_version info;
     pulse_sorter := pulse_sorter info |}.

(** The assignments of the [decommission] case. *)
Definition decommission_info (hf_version : hf) (block_height : Z) (sc : tx_state_change)
    (info : service_node_info) : service_node_info :=
  {| registration_height := registration_height info;
     requested_unlock_height := requested_unlock_height info;
     last_reward_block_height := last_reward_block_height info;
     last_reward_transaction_index := last_reward_transaction_index info;
     decommission_count := u32 (decommission_count info + 1);
     active_since_height := s64 (- active_since_height info);
     last_decommission_height := block_height;
     last_decommission_reason_consensus_all := reason_consensus_all sc;
     last_decommission_reason_consensus_any := reason_consensus_any sc;
     recommission_credit := recommission_credit info;
     contributors := contributors info;
     total_contributed := total_contributed info;
     total_reserved := total_reserved info;
     staking_requirement := staking_requirement info;
     portions_for_operator := portions_for_operator info;
     swarm_id := if hf13_enforce_checkpoints <=? hf_version then UNASSIGNED_SWARM_ID
                 else swarm_id info;
     operator_address := operator_address info;
     operator_ethereum_address := operator_ethereum_address info;
     bls_public_key := bls_public_key info;
     last_ip_change_height := last_ip_change_height info;
     registration_hf_version := registration_hf_version info;
     pulse_sorter := pulse_sorter info |}.

Definition with_activation (info : service_node_info) (height credit : Z) : service_node_info :=
  {| registration_height := registration_height info;
     requested_unlock_height := requested_unlock_height info;
     last_reward_block_height := last_reward_block_height info;
     last_reward_transaction_index := last_reward_transaction_index info;
     decommission_count := decommission_count info;
     active_since_height := height;
     last_decommission_height := last_decommission_height info;
     last_decommission_reason_consensus_all := last_decommission_reason_consensus_all info;
     last_decommission_reason_consensus_any := last_decommission_reason_consensus_any info;
     recommission_credit := credit;
     contributors := contributors info;
     total_contributed := total_contributed info;
     total_reserved := total_reserved info;
     staking_requirement := staking_requirement info;
     portions_for_operator := portions_for_operator info;
     swarm_id := swarm_id info;
     operator_address := operator_address info;
     operator_ethereum_address := operator_ethereum_address info;
     bls_public_key := bls_public_key info;
     last_ip_change_height := last_ip_change_height info;
     registration_hf_version := registration_hf_version info;
     pulse_sorter := pulse_sorter info |}.

(** The assignments of the [recommission] case. *)
Definition recommission_info (nettype : network_type) (block_height : Z)
    (info : service_node_info) : option service_node_info :=
  credit_at_decomm ← calculate_decommission_credit nettype info (last_decommission_height info);
  let decomm_blocks := s64 (u64 (block_height - last_decommission_height info)) in
  Some (with_reward_position
          (with_activation info (s64 block_height)
             (RECOMMISSION_CREDIT credit_at_decomm decomm_blocks))
          block_height).

Definition with_ip_change (info : service_node_info) (height : Z) : service_node_info :=
  {| registration_height := registration_height info;
     requested_unlock_height := requested_unlock_height info;
     last_reward_block_height := last_reward_block_height info;
     last_reward_transaction_index := last_reward_transaction_index info;
     decommission_count := decommission_count info;
     active_since_height := active_since_height info;
     last_decommission_height := last_decommission_height info;
     last_decommission_reason_consensus_all := last_decommission_reason_consensus_all info;
     last_decommission_reason_consensus_any := last_decommission_reason_consensus_any info;
     recommission_credit := recommission_credit info;
     contributors := contributors info;
     total_contributed := total_contributed info;
     total_reserved := total_reserved info;
     staking_requirement := staking_requirement info;
     portions_for_operator := portions_for_operator info;
     swarm_id := swarm_id info;
     operator_address := operator_address info;
     operator_ethereum_address := operator_ethereum_address info;
     bls_public_key := bls_public_key info;
     last_ip_change_height := height;
     registration_hf_version := registration_hf_version info;
     pulse_sorter := pulse_sorter info |}.

(** The assignments of the [ip_change_penalty] case. *)
Definition ip_change_info (block_height : Z) (info : service_node_info) : service_node_info :=
  with_ip_change (with_reward_position info block_height) block_height.

(** ** Invariant *)

(** What the list maintains for each node: heights are below [2^40], a node that is
    active or decommissioned has a positive activation height not above the current one. *)
Record info_ok (now : Z) (info : service_node_info) : Prop := {
  ok_now : 0 <= now < 2 ^ 40;
  ok_registration : 0 <= registration_height info <= now;
  ok_active_since : - now <= active_since_height info <= now;
  ok_decommissioned : is_decommissioned info = true ->
    is_fully_funded info = true /\
    - active_since_height info <= last_decommission_height info <= now;
  ok_decommission_height : 0 <= last_decommission_height info <= now;
  ok_credit : 0 <= recommission_credit info < 2 ^ 31;
  ok_ip_change : 0 <= last_ip_change_height info <= now;
}.

(** ** The credit *)

Section Credit.
Context (nettype : network_type) (conf : network_config).
Context (Hconf : get_config nettype = Some conf).

(** The credit of a node that has been up for [up] blocks, before deductions. *)
Definition earned (info : service_node_info) (up : Z) : Z :=
  Z.min (BLOCKS_IN conf DECOMMISSION_MAX_CREDIT)
    (recommission_credit info
     + Z.max 0 up * BLOCKS_IN conf DECOMMISSION_CREDIT_PER_DAY / BLOCKS_PER_DAY conf).

Definition credit_parameters_ok (c : network_config) : bool :=
  (0 <? BLOCKS_IN c DECOMMISSION_CREDIT_PER_DAY) && (BLOCKS_IN c DECOMMISSION_CREDIT_PER_DAY <? 65536)
  && (0 <? BLOCKS_PER_DAY c) && (BLOCKS_IN c DECOMMISSION_CREDIT_PER_DAY <=? BLOCKS_PER_DAY c)
  && (0 <? BLOCKS_IN c DECOMMISSION_MAX_CREDIT) && (BLOCKS_IN c DECOMMISSION_MAX_CREDIT <? 2147483648).

Lemma credit_parameters : credit_parameters_ok conf = true.
Proof using Hconf. clear - Hconf. destruct nettype; inversion Hconf; subst; by vm_compute. Qed.

(** The capped sum as the code computes it. *)
Lemma earned_machine info up :
  - 2 ^ 40 < up < 2 ^ 40 -> 0 <= recommission_credit info < 2 ^ 31 ->
  let credit := recommission_credit info in
  let credit' :=
    if 0 <? up then
      s64 (credit + Z.quot (s64 (up * BLOCKS_IN conf DECOMMISSION_CREDIT_PER_DAY))
                      (BLOCKS_PER_DAY conf))
    else credit in
  let max := s32 (BLOCKS_IN conf DECOMMISSION_MAX_CREDIT) in
  (if max <? credit' then max else credit') = earned info up /\
  0 <= earned info up <= BLOCKS_IN conf DECOMMISSION_MAX_CREDIT.
Proof using Hconf.
  intros Hup Hcr. pose proof credit_parameters as Hp. unfold credit_parameters_ok in Hp.
  bool_hyps. unfold earned. cbv zeta.
  set (rate := BLOCKS_IN conf DECOMMISSION_CREDIT_PER_DAY) in *.
  set (day := BLOCKS_PER_DAY conf) in *.
  set (mx := BLOCKS_IN conf DECOMMISSION_MAX_CREDIT) in *. clearbody rate day mx.
  rewrite (s32_small mx) by lia.
  destruct (Z.ltb_spec 0 up) as [Hpos|Hneg]; cbv iota.
  - rewrite (Z.max_r 0 up) by lia.
    assert (Hm : 0 <= up * rate < 2 ^ 56) by nia.
    rewrite (s64_small (up * rate)) by (unfold is_s64; lia).
    rewrite Z.quot_div_nonneg by lia.
    assert (0 <= up * rate / day <= up).
    { split; [apply Z.div_pos; lia|]. apply Z.div_le_upper_bound; nia. }
    rewrite s64_small by (unfold is_s64; lia). destruct (Z.ltb_spec mx (recommission_credit info + up * rate / day)); lia.
  - rewrite (Z.max_l 0 up), Z.mul_0_l, Z.div_0_l, Z.add_0_r by lia.
    destruct (Z.ltb_spec mx (recommission_credit info)); lia.
Qed.

Lemma commissioned_since info : is_decommissioned info = false -> 0 <= active_since_height info.
Proof. unfold is_decommissioned. intros. bool_hyps. lia. Qed.

Lemma decommissioned_since info : is_decommissioned info = true -> active_since_height info < 0.
Proof. unfold is_decommissioned. intros. bool_hyps. lia. Qed.

Lemma active_credit info h :
  info_ok h info -> is_active info = true ->
  calculate_decommission_credit nettype info h = Some (earned info (h - active_since_height info)).
Proof using Hconf.
  intros Hok Hact. unfold is_active in Hact. bool_hyps.
  pose proof (commissioned_since info ltac:(assumption)).
  pose proof (ok_now _ _ Hok). pose proof (ok_active_since _ _ Hok). pose proof (ok_credit _ _ Hok).
  unfold calculate_decommission_credit. rewrite Hconf. cbn [mbind option_bind].
  repeat match goal with H : is_fully_funded _ = _ |- _ => rewrite H
                       | H : is_decommissioned _ = _ |- _ => rewrite H end.
  cbn [negb]. rewrite (s64_small h), s64_small by (unfold is_s64; lia).
  f_equal. apply earned_machine; lia.
Qed.

Lemma decommissioned_credit now info h :
  info_ok now info -> 0 <= h < 2 ^ 40 -> is_decommissioned info = true ->
  calculate_decommission_credit nettype info h
  = Some (earned info (last_decommission_height info + active_since_height info)
          - (h - last_decommission_height info)).
Proof using Hconf.
  intros Hok Hh Hdec. destruct (ok_decommissioned _ _ Hok Hdec) as [Hfund Hsince].
  pose proof (ok_now _ _ Hok). pose proof (ok_active_since _ _ Hok). pose proof (ok_credit _ _ Hok).
  pose proof (ok_decommission_height _ _ Hok). pose proof (decommissioned_since info Hdec).
  unfold calculate_decommission_credit. rewrite Hconf. cbn [mbind option_bind].
  rewrite Hfund, Hdec. cbn [negb].
  rewrite (s64_small (last_decommission_height info)), (s64_small h) by (unfold is_s64; lia).
  replace (last_decommission_height info - - active_since_height info)
    with (last_decommission_height info + active_since_height info) by lia.
  rewrite (s64_small (last_decommission_height info + _)) by (unfold is_s64; lia).
  destruct (earned_machine info (last_decommission_height info + active_since_height info))
    as [He Hb]; [lia..|].
  f_equal. etransitivity; [|apply s64_small; unfold is_s64;
    pose proof credit_parameters as Hp; unfold credit_parameters_ok in Hp; bool_hyps; lia].
  f_equal. f_equal. exact He.
Qed.

End Credit.

(** ** The state changes keep the invariant *)

Lemma decommission_info_ok v d sc info :
  info_ok d info -> is_active info = true -> info_ok d (decommission_info v d sc info).
Proof.
  intros Hok Hact. unfold is_active in Hact. bool_hyps.
  pose proof (commissioned_since info ltac:(assumption)).
  destruct Hok. unfold decommission_info.
  split; cbn; rewrite ?s64_small by (unfold is_s64; lia); try lia.
  unfold is_fully_funded in *. cbn. split; [done | lia].
Qed.

Lemma decommissioned_earned v d sc conf info up :
  earned conf (decommission_info v d sc info) up = earned conf info up.
Proof. done. Qed.

Lemma info_ok_later now later info : info_ok now info -> now <= later < 2 ^ 40 -> info_ok later info.
Proof.
  intros [] ?. split; try lia. intros Hd. specialize (ok_decommissioned0 Hd). split; [tauto | lia].
Qed.

Lemma recommission_info_ok nt conf info h :
  get_config nt = Some conf -> info_ok h info -> is_decommissioned info = true ->
  exists info',
    recommission_info nt h info = Some info' /\ info_ok h info' /\ is_active info' = true /\
    active_since_height info' = h /\
    recommission_credit info'
    = Z.max 0 (earned conf info (last_decommission_height info + active_since_height info)
               - 2 * (h - last_decommission_height info)).
Proof.
  intros Hconf Hok Hdec. pose proof (ok_decommission_height _ _ Hok) as Hd.
  pose proof (ok_now _ _ Hok). destruct (ok_decommissioned _ _ Hok Hdec) as [Hfund Hs].
  pose proof (decommissioned_since info Hdec).
  unfold recommission_info.
  rewrite (decommissioned_credit nt conf Hconf h info (last_decommission_height info) Hok ltac:(lia) Hdec), Z.sub_diag, Z.sub_0_r.
  cbn [mbind option_bind].
  set (up := last_decommission_height info + active_since_height info).
  destruct (earned_machine nt conf Hconf info up) as [_ Hb];
    [subst up; lia | by destruct Hok |].
  rewrite u64_small, (s64_small h), s64_small by (unfold is_u64, is_s64; lia).
  pose proof (credit_parameters nt conf Hconf) as Hp. unfold credit_parameters_ok in Hp. bool_hyps.
  eexists. split; [done|]. cbn. unfold RECOMMISSION_CREDIT. split_and!; try done.
  - destruct Hok. split; cbn; try lia. unfold is_decommissioned. cbn. intros. bool_hyps. lia.
  - unfold is_active, is_fully_funded, is_decommissioned in *. cbn.
    apply andb_true_iff. split; [done|]. apply negb_true_iff, Z.ltb_ge. lia.
Qed.

Lemma ip_change_info_ok h info : info_ok h info -> info_ok h (ip_change_info h info).
Proof. intros []. split; cbn; done || lia. Qed.

Lemma status_active info a : status info = Active a -> is_active info = true /\ active_since_height info = a.
Proof.
  unfold status, is_active. destruct (is_decommissioned info), (is_fully_funded info); cbn; naive_solver.
Qed.

Lemma active_status info : is_active info = true -> status info = Active (active_since_height info).
Proof.
  unfold status, is_active. destruct (is_decommissioned info), (is_fully_funded info); cbn; congruence.
Qed.

Lemma decommissioned_sign v d sc info :
  info_ok d info -> 0 < active_since_height info ->
  is_decommissioned (decommission_info v d sc info) = true /\
  active_since_height (decommission_info v d sc info) = - active_since_height info.
Proof.
  intros [] Hpos. unfold is_decommissioned, decommission_info. cbn.
  rewrite s64_small by (unfold is_s64; lia). split; [apply Z.ltb_lt; lia | done].
Qed.

(** The life cycle of an active node that is decommissioned at height [d]: its credit
    at that height lies between zero and the network's maximum and is carried over; while
    it stays decommissioned the credit falls by one per block, so it is used up exactly
    after that many blocks; and a recommission at height [h] makes it active since [h] with
    the credit reduced by two for each block of downtime, never below zero. *)
Theorem decommission_cycle nt conf v sc info a d h :
  get_config nt = Some conf -> info_ok d info -> status info = Active a -> 0 < a ->
  d <= h < 2 ^ 40 ->
  let down := decommission_info v d sc info in
  exists c up,
    calculate_decommission_credit nt info d = Some c /\
    0 <= c <= BLOCKS_IN conf DECOMMISSION_MAX_CREDIT /\
    status down = Decommissioned a d /\
    calculate_decommission_credit nt down h = Some (c - (h - d)) /\
    recommission_info nt h down = Some up /\
    status up = Active h /\ recommission_credit up = Z.max 0 (c - 2 * (h - d)).
Proof.
  intros Hconf Hok Hst Ha Hh down. apply status_active in Hst as [Hact <-].
  destruct (decommissioned_sign v d sc info Hok Ha) as [Hdec Hsince]. fold down in Hdec, Hsince.
  pose proof (decommission_info_ok v d sc info Hok Hact) as Hokd. fold down in Hokd.
  pose proof (info_ok_later d h _ Hokd Hh) as Hokh. pose proof (ok_now _ _ Hok).
  destruct (recommission_info_ok nt conf down h Hconf Hokh Hdec) as (up & Hup & _ & Hact' & Hs' & Hcr).
  pose proof (decommissioned_credit nt conf Hconf h down h Hokh ltac:(lia) Hdec) as Hcd.
  assert (Hldh : last_decommission_height down = d) by done.
  assert (He : earned conf down (d + active_since_height down) = earned conf info (d - active_since_height info))
    by (rewrite Hsince; apply decommissioned_earned).
  rewrite Hldh, He in Hcr, Hcd.
  exists (earned conf info (d - active_since_height info)), up. split_and!; try done.
  - by apply active_credit.
  - pose proof (ok_active_since _ _ Hok). by apply (earned_machine nt conf Hconf); [lia | destruct Hok].
  - pose proof (ok_active_since _ _ Hok). by apply (earned_machine nt conf Hconf); [lia | destruct Hok].
  - unfold status. rewrite Hdec, Hsince, Z.opp_involutive. done.
  - rewrite (active_status _ Hact'). by rewrite Hs'.
Qed.

(** A node registered at height 100, active since 120, that staked the requirement. *)
Definition demo_info : service_node_info :=
  {| registration_height := 100; requested_unlock_height := 0; last_reward_block_height := 0;
     last_reward_transaction_index := 0; decommission_count := 0; active_since_height := 120;
     last_decommission_height := 0; last_decommission_reason_consensus_all := 0;
     last_decommission_reason_consensus_any := 0; recommission_credit := 720;
     contributors := [Contributor 75 75 (AccountAddress [1] [1]) [] [] [Contribution [9] [10] 75];
                      Contributor 25 0 (AccountAddress [2] [2]) [] [] [Contribution [9] [11] 20;
                                                                      Contribution [9] [12] 5]];
     total_contributed := 100; total_reserved := 100; staking_requirement := 100;
     portions_for_operator := 1844674407370955161; swarm_id := 0;
     operator_address := AccountAddress [1] [1]; operator_ethereum_address := [];
     bls_public_key := replicate 64 1; last_ip_change_height := 0;
     registration_hf_version := hf19_reward_batching;
     pulse_sorter := PulseSortKey 0 0 |}.

Lemma demo_info_ok now : 120 <= now < 2 ^ 40 -> info_ok now demo_info.
Proof. split; cbn; done || lia. Qed.

Lemma decommission_cycle_witness :
  exists c up,
    calculate_decommission_credit MAINNET demo_info 5000 = Some c /\
    recommission_info MAINNET 5100
      (decommission_info hf19_reward_batching 5000 demo_state_change demo_info) = Some up /\
    status up = Active 5100 /\ recommission_credit up = Z.max 0 (c - 2 * (5100 - 5000)).
Proof.
  destruct (decommission_cycle MAINNET mainnet_config hf19_reward_batching demo_state_change
              demo_info 120 5000 5100) as (c & up & Hc & _ & _ & _ & Hup & Hst & Hcr);
    [done | apply demo_info_ok; lia | done | lia..|].
  by exists c, up.
Defined.

(** ** Which votes a node accepts *)

Definition transition_allowed (info : service_node_info) (h st : Z) : Prop :=
  registration_height info < h /\
  match status info with
  | Funding => False
  | Active since =>
      since < h /\ (st = deregister \/ st = decommission \/
                    (st = ip_change_penalty /\ last_ip_change_height info < h))
  | Decommissioned _ at_height =>
      is_fully_funded info = true /\ at_height < h /\ (st = deregister \/ st = recommission)
  end.

(** From the checkpoint-enforcing hard fork on, a state change voted at height [h] may
    be applied exactly when [h] is after the node's registration and after its last
    activation or decommission; an active node may be deregistered, decommissioned or
    penalised for an address change (not twice for the same height), a decommissioned one
    deregistered or recommissioned, and a node still collecting its stake none of these. *)
Theorem can_transition_iff info v h st now :
  info_ok now info -> hf13_enforce_checkpoints <= v -> 0 <= st < new_state_count ->
  can_transition_to_state info v h st = true <-> transition_allowed info h st.
Proof.
  intros Hok Hv Hst. pose proof (ok_active_since _ _ Hok). pose proof (ok_now _ _ Hok).
  unfold can_transition_to_state, can_be_voted_on, transition_allowed, status, is_active.
  rewrite (proj2 (Z.leb_le _ _) Hv).
  assert (Hst' : st = deregister \/ st = decommission \/ st = recommission \/ st = ip_change_penalty)
    by (unfold new_state_count, deregister, decommission, recommission, ip_change_penalty in *; lia).
  destruct (is_decommissioned info) eqn:Hd, (is_fully_funded info) eqn:Hf; cbn -[Z.leb].
  2, 4 : naive_solver.
  - destruct (Z.leb_spec h (registration_height info)), (Z.leb_spec h (last_decommission_height info));
      destruct Hst' as [-> | [-> | [-> | ->]]]; cbn -[Z.leb];
      try destruct (Z.leb_spec h (last_ip_change_height info)); cbn; naive_solver lia.
  - apply commissioned_since in Hd. rewrite u64_small by (unfold is_u64; lia).
    destruct (Z.leb_spec h (registration_height info)), (Z.leb_spec h (active_since_height info));
      destruct Hst' as [-> | [-> | [-> | ->]]]; cbn -[Z.leb];
      try destruct (Z.leb_spec h (last_ip_change_height info)); cbn; naive_solver lia.
Qed.

Lemma can_transition_iff_witness :
  can_transition_to_state demo_info hf19_reward_batching 200 decommission = true.
Proof.
  apply (can_transition_iff demo_info hf19_reward_batching 200 decommission 300);
    [apply demo_info_ok; lia | done | done |].
  unfold transition_allowed. cbn. split; [lia|]. split; [lia | auto].
Defined.

(** ** Payouts *)

Definition floors (P R : Z) (amounts : list Z) : list Z := (fun a => a * P / R) <$> amounts.

Lemma floors_sum P R amounts :
  0 < R -> 0 <= P -> Forall is_u64 amounts ->
  R * zsum (floors P R amounts) <= zsum amounts * P
  <= R * zsum (floors P R amounts) + Z.of_nat (length amounts) * (R - 1).
Proof.
  intros HR HP Hall. induction Hall as [|a amounts Ha Hall IH]; cbn -[Z.of_nat]; [lia|].
  unfold zsum, floors in IH. rewrite Nat2Z.inj_succ.
  pose proof (Z.div_mod (a * P) R ltac:(lia)). pose proof (Z.mod_pos_bound (a * P) R HR).
  set (q := a * P / R) in *. set (S := foldr Z.add 0 _) in *.
  set (T := foldr Z.add 0 amounts) in *. clearbody q S T. lia.
Qed.

Definition amounts_of (cs : list contributor_t) : list Z := contributor_amount <$> cs.
Definition addresses_of (cs : list contributor_t) : list account_public_address :=
  contributor_address <$> cs.

(** The portions without wrap-around. *)
Definition ideal_portion (op : account_public_address) (fee P R : Z) (c : contributor_t) : Z :=
  contributor_amount c * P / R + (if bool_decide (contributor_address c = op) then fee else 0).

Lemma ideal_portions_sum op fee P R cs :
  NoDup (addresses_of cs) ->
  zsum (ideal_portion op fee P R <$> cs)
  = zsum (floors P R (amounts_of cs)) + (if bool_decide (op ∈ addresses_of cs) then fee else 0).
Proof.
  induction cs as [|c cs IH]; intros Hnd; [done|].
  apply NoDup_cons in Hnd as [Hnot Hnd]. specialize (IH Hnd). fold (addresses_of cs) in Hnot.
  cbn in *. unfold zsum, floors, amounts_of in *. rewrite IH. unfold ideal_portion at 1.
  destruct (bool_decide_reflect (contributor_address c = op)) as [<-|Hne].
  - rewrite (bool_decide_eq_true_2 (_ ∈ _ :: _)) by set_solver.
    rewrite bool_decide_eq_false_2 by done. lia.
  - rewrite (bool_decide_ext (op ∈ contributor_address c :: _) (op ∈ addresses_of cs))
      by (rewrite elem_of_cons; naive_solver). lia.
Qed.

Lemma amount_le_sum a amounts : Forall is_u64 amounts -> a ∈ amounts -> 0 <= a <= zsum amounts.
Proof.
  intros Hall. induction Hall as [|b l Hb Hall IH]; [set_solver|].
  pose proof (zsum_nonneg l Hall). unfold is_u64 in Hb. cbn. fold (zsum l).
  intros [->|Hin]%elem_of_cons; [lia | specialize (IH Hin); lia].
Qed.

Lemma payout_no_wrap info :
  Forall is_u64 (amounts_of (contributors info)) ->
  0 < staking_requirement info -> zsum (amounts_of (contributors info)) <= staking_requirement info ->
  0 <= portions_for_operator info <= STAKING_PORTIONS ->
  snd <$> service_node_payout_portions info
  = ideal_portion (operator_address info) (portions_for_operator info)
      (STAKING_PORTIONS - portions_for_operator info) (staking_requirement info)
    <$> contributors info.
Proof.
  intros Hall HR Hsum Hfee. unfold service_node_payout_portions.
  rewrite (proj2 (Z.eqb_neq _ _)) by lia. rewrite <- list_fmap_compose.
  apply list_fmap_ext. intros i c Hc. cbn.
  assert (Ha : 0 <= contributor_amount c <= staking_requirement info).
  { pose proof (amount_le_sum (contributor_amount c) _ Hall) as H.
    assert (0 <= contributor_amount c <= zsum (amounts_of (contributors info))); [|lia].
    apply H, list_elem_of_fmap_2. by apply list_elem_of_lookup_2 in Hc. }
  unfold ideal_portion, Int128.mul128_div64. unfold STAKING_PORTIONS in *.
  rewrite (u64_small (18446744073709551612 - _)) by (unfold is_u64; lia).
  set (P := 18446744073709551612 - portions_for_operator info) in *.
  assert (Hq : 0 <= contributor_amount c * P / staking_requirement info <= P).
  { split; [apply Z.div_pos; nia|]. apply Z.div_le_upper_bound; nia. }
  rewrite (u64_small (contributor_amount c * P / _)) by (unfold is_u64; lia).
  destruct (bool_decide _); [apply u64_small; unfold is_u64|]; lia.
Qed.

Lemma payout_total info :
  Forall is_u64 (amounts_of (contributors info)) -> 0 < staking_requirement info ->
  zsum (amounts_of (contributors info)) = staking_requirement info ->
  0 <= portions_for_operator info <= STAKING_PORTIONS ->
  NoDup (addresses_of (contributors info)) ->
  operator_address info ∈ addresses_of (contributors info) ->
  STAKING_PORTIONS - Z.of_nat (length (contributors info))
  < zsum (snd <$> service_node_payout_portions info) <= STAKING_PORTIONS.
Proof.
  intros Hall HR Hsum Hfee Hnd Hop.
  rewrite payout_no_wrap, ideal_portions_sum, bool_decide_eq_true_2 by (done || lia).
  set (P := STAKING_PORTIONS - portions_for_operator info).
  pose proof (floors_sum P (staking_requirement info) _ HR ltac:(lia) Hall) as Hf.
  rewrite Hsum in Hf. unfold amounts_of in Hf. rewrite length_fmap in Hf. fold (amounts_of (contributors info)) in Hf.
  assert (0 < Z.of_nat (length (contributors info))) by (destruct (contributors info); [set_solver | cbn; lia]).
  set (S := zsum (floors _ _ _)) in *. set (n := Z.of_nat _) in *. clearbody S n.
  set (R := staking_requirement info) in *. clearbody R. nia.
Qed.

(** The payout of a node whose contributors (the operator among them, no address twice)
    together hold exactly the staking requirement never exceeds the total of portions, and
    loses less than one portion per contributor to rounding. *)
Theorem payout_portions_total info :
  Forall is_u64 (amounts_of (contributors info)) -> 0 < staking_requirement info ->
  zsum (amounts_of (contributors info)) = staking_requirement info ->
  0 <= portions_for_operator info <= STAKING_PORTIONS ->
  NoDup (addresses_of (contributors info)) ->
  operator_address info ∈ addresses_of (contributors info) ->
  STAKING_PORTIONS - Z.of_nat (length (contributors info))
  < zsum (snd <$> service_node_payout_portions info) <= STAKING_PORTIONS.
Proof. apply payout_total. Qed.

Lemma payout_portions_total_witness :
  STAKING_PORTIONS - 2 < zsum (snd <$> service_node_payout_portions demo_info) <= STAKING_PORTIONS.
Proof.
  apply (payout_portions_total demo_info).
  - repeat constructor; by unfold is_u64.
  - done.
  - done.
  - done.
  - apply NoDup_cons; split; [|apply NoDup_singleton]. by apply (bool_decide_unpack _).
  - by apply (bool_decide_unpack _).
Defined.
