(* ===== verification/NodeList.v ===== *)
(** * The service node list

    The part of [service_node_list] and its [state_t]
    ([cryptonote_core/service_node_list.{h,cpp}]) that applies the state changes voted by
    the quorums, unlock requests, uptime proofs and reachability reports: which node is
    registered in which state, which key images are blacklisted, and what is recorded about
    each node.  Transactions are given by the fields parsed from their [tx_extra]; the
    signature checks, [cn_fast_hash] and the key conversions are parameters.  The outer
    [option] of a handler is [None] where the code throws or dereferences a null quorum. *)
From stdpp Require Import gmap.
From S2P Require Import Prelude IntUtil Hardfork Config Address Rules Voting Transactions L2Votes NodeProof ServiceNode.
#[local] Open Scope Z_scope.

(** ** State *)

Record key_image_blacklist_entry := BlacklistEntry {
  be_key_image : bytes;
  be_unlock_height : Z;
  be_amount : Z;
}.

Inductive removed_type := voluntary_exit | removed_deregister | purged.
#[global] Instance removed_type_eq_dec : EqDecision removed_type.
Proof. solve_decision. Defined.

Record recently_removed_node := RemovedNode {
  rn_height : Z;
  rn_liquidation_height : Z;
  rn_type : removed_type;
  rn_public_ip : Z;
  rn_qnet_port : Z;
  rn_version : version3;
  rn_service_node_pubkey : bytes;
  rn_info : service_node_info;
}.

Record quorum_manager := QuorumManager {
  qm_obligations : option quorum;
  qm_checkpointing : option quorum;
  qm_blink : option quorum;
  qm_pulse : option quorum;
}.

Definition qm_get (m : quorum_manager) (type : quorum_type) : option quorum :=
  match type with
  | obligations => qm_obligations m
  | checkpointing => qm_checkpointing m
  | blink => qm_blink m
  | pulse => qm_pulse m
  end.

Record state_t := State {
  service_nodes_infos : gmap bytes service_node_info;
  key_image_blacklist : list key_image_blacklist_entry;
  x25519_map : gmap bytes bytes;
  bls_map : gmap bytes bytes;
  st_height : Z;
  quorums : quorum_manager;
  recently_removed_nodes : list recently_removed_node;
  st_staking_requirement : Z;
  unconfirmed_l2_txes : pending_map;
  block_hash : bytes;
  block_leader : bytes;
}.

(** The fields of the owning [service_node_list] (and of its database) that the handlers
    use; a [state_t] may have none ([sn_list == nullptr]). *)
Record node_list := NodeList {
  nl_nettype : network_type;
  m_rescanning : bool;
  db_is_read_only : bool;
  proofs : gmap bytes proof_info;
  proof_db : gmap bytes proof_info;
  x25519_to_pub : gmap bytes (bytes * Z);
}.

Definition with_infos (st : state_t) (infos : gmap bytes service_node_info) : state_t :=
  State infos (key_image_blacklist st) (x25519_map st) (bls_map st) (st_height st) (quorums st)
    (recently_removed_nodes st) (st_staking_requirement st)
    (unconfirmed_l2_txes st) (block_hash st) (block_leader st).
Definition with_blacklist (st : state_t) (l : list key_image_blacklist_entry) : state_t :=
  State (service_nodes_infos st) l (x25519_map st) (bls_map st) (st_height st) (quorums st)
    (recently_removed_nodes st) (st_staking_requirement st)
    (unconfirmed_l2_txes st) (block_hash st) (block_leader st).
Definition with_maps (st : state_t) (x b : gmap bytes bytes) : state_t :=
  State (service_nodes_infos st) (key_image_blacklist st) x b (st_height st) (quorums st)
    (recently_removed_nodes st) (st_staking_requirement st)
    (unconfirmed_l2_txes st) (block_hash st) (block_leader st).
Definition with_removed (st : state_t) (l : list recently_removed_node) : state_t :=
  State (service_nodes_infos st) (key_image_blacklist st) (x25519_map st) (bls_map st)
    (st_height st) (quorums st) l (st_staking_requirement st)
    (unconfirmed_l2_txes st) (block_hash st) (block_leader st).
Definition with_proofs (nl : node_list) (p : gmap bytes proof_info) : node_list :=
  NodeList (nl_nettype nl) (m_rescanning nl) (db_is_read_only nl) p (proof_db nl) (x25519_to_pub nl).
Definition with_proof_db (nl : node_list) (db : gmap bytes proof_info) : node_list :=
  NodeList (nl_nettype nl) (m_rescanning nl) (db_is_read_only nl) (proofs nl) db (x25519_to_pub nl).
Definition with_x25519_to_pub (nl : node_list) (m : gmap bytes (bytes * Z)) : node_list :=
  NodeList (nl_nettype nl) (m_rescanning nl) (db_is_read_only nl) (proofs nl) (proof_db nl) m.

(** ** Operations *)

(** [proofs[key]]: default-constructed when missing. *)
Definition proof_of (nl : node_list) (key : bytes) : proof_info :=
  default new_proof_info (proofs nl !! key).

Definition with_proof (pi : proof_info) (p : option Proof) : proof_info :=
  ProofInfo (pi_pulse_participation pi) (pi_checkpoint_participation pi)
    (pi_timestamp_participation pi) (pi_timesync_status pi) (pi_timestamp pi)
    (pi_effective_timestamp pi) (pi_public_ips pi) (pi_ss_reachable pi) (pi_lokinet_reachable pi)
    (pi_sr_reachable pi) p (pi_pubkey_x25519 pi).

(** [proof_info::store] of the entry [proofs[key]]. *)
Definition store_proof (nl : node_list) (key : bytes) : node_list :=
  let pi := proof_of nl key in
  let pi := match pi_proof pi with None => with_proof pi (Some empty_proof) | Some _ => pi end in
  let nl := with_proofs nl (<[key := pi]> (proofs nl)) in
  if db_is_read_only nl then nl else with_proof_db nl (<[key := pi]> (proof_db nl)).

(** The reset of the failure conditions on a recommission. *)
Definition reset_conditions (pi : proof_info) (timestamp : Z) : proof_info :=
  ProofInfo (history_reset (pi_pulse_participation pi))
    (history_reset (pi_checkpoint_participation pi))
    (history_reset (pi_timestamp_participation pi)) (history_reset (pi_timesync_status pi))
    (pi_timestamp pi) timestamp (pi_public_ips pi) (pi_ss_reachable pi) (pi_lokinet_reachable pi)
    (pi_sr_reachable pi) (pi_proof pi) (pi_pubkey_x25519 pi).

Definition get_pubkey_from_quorum (q : quorum) (group quorum_index : Z) : option bytes :=
  if group =? group_validator then validators q !! Z.to_nat quorum_index
  else if group =? group_worker then workers q !! Z.to_nat quorum_index
  else None.

(** The entries a deregistration adds to the blacklist. *)
Definition deregister_entries (netconf : network_config) (hf_version : hf) (block_height : Z)
    (info : service_node_info) : list key_image_blacklist_entry :=
  contributor ← contributors info;
  contribution ← locked_contributions contributor;
  let lock_dur := if hf22_sn_policy <=? hf_version then DEREGISTRATION_LOCK_DURATION_V2 netconf
                  else DEREGISTRATION_LOCK_DURATION netconf in
  [BlacklistEntry (key_image contribution) (u64 (block_height + BLOCKS_IN netconf lock_dur))
     (contribution_amount contribution)].

Section Handlers.
Context (fk : list hard_fork).
Context (cn_fast_hash : bytes -> bytes).
Context (check_signature : bytes -> bytes -> bytes -> bool).
(** [snpk_to_xpk]: the X25519 key derived from a node's Ed25519 key. *)
Context (snpk_to_xpk : bytes -> bytes).

Definition insert_info (st : state_t) (nl : option node_list) (pubkey : bytes)
    (info : service_node_info) : state_t :=
  let st := with_infos st (<[pubkey := info]> (service_nodes_infos st)) in
  match nl with
  | Some l =>
      if is_hard_fork_at_least fk (nl_nettype l) feature_SN_PK_IS_ED25519 (st_height st) then
        with_maps st (<[snpk_to_xpk pubkey := pubkey]> (x25519_map st))
          (<[bls_public_key info := pubkey]> (bls_map st))
      else st
  | None => st
  end.

Definition erase_info (st : state_t) (nl : option node_list) (snpk : bytes)
    (info : service_node_info) (exit_type : removed_type) : option state_t :=
  let nettype := from_option nl_nettype FAKECHAIN nl in
  st ←
    (if is_hard_fork_at_least fk nettype feature_ETH_BLS (st_height st) then
       if bool_decide (exit_type = purged) || bool_decide (bls_public_key info = null_bytes 64) then
         Some (with_maps st (delete (snpk_to_xpk snpk) (x25519_map st))
                 (delete (bls_public_key info) (bls_map st)))
       else
         let '(ip, port, version) :=
           match (l ← nl; pi ← proofs l !! snpk; pi_proof pi) with
           | Some proof => (p_public_ip proof, p_qnet_port proof, p_version proof)
           | None => (0, 0, (0, 0, 0))
           end in
         netconf ← get_config nettype;
         let exit_buffer := if bool_decide (exit_type = voluntary_exit)
                            then ETH_EXIT_BUFFER netconf else ETH_DEREG_BUFFER netconf in
         Some (with_removed st (recently_removed_nodes st ++
           [RemovedNode (st_height st) (u64 (st_height st + exit_buffer)) exit_type ip port version
              snpk info]))
     else Some st);
  Some (with_infos st (delete snpk (service_nodes_infos st))).

(** Verification against the obligations quorum of a quorum set. *)
Definition verify_with (sc : tx_state_change) (latest_height : Z) (hf_version : hf)
    (tvc : tx_verification_context) (m : quorum_manager)
    : option (bool * tx_verification_context) :=
  q ← qm_obligations m;
  verify_tx_state_change cn_fast_hash check_signature sc latest_height tvc q hf_version.

(** The loop over the alternative states, in the map's iteration order; [found] is the
    local [quorums] pointer. *)
Fixpoint alt_states_loop (sc : tx_state_change) (latest_height : Z) (hf_version : hf)
    (alts : list (bytes * state_t)) (tvc : tx_verification_context) (found : option quorum_manager)
    : option (option quorum_manager) :=
  match alts with
  | [] => Some found
  | (_, alt) :: rest =>
      if negb (st_height alt =? tsc_block_height sc) then
        alt_states_loop sc latest_height hf_version rest tvc found
      else
        '(ok, tvc) ← verify_with sc latest_height hf_version tvc (quorums alt);
        alt_states_loop sc latest_height hf_version rest tvc
          (if ok : bool then Some (quorums alt) else None)
  end.

Definition find_quorums (state_history state_archive : gmap Z state_t)
    (alt_states : list (bytes * state_t)) (sc : tx_state_change) (latest_height : Z)
    (hf_version : hf) : option (option quorum_manager) :=
  match (match state_history !! tsc_block_height sc with
         | Some s => Some s
         | None => state_archive !! tsc_block_height sc
         end) with
  | None => Some None
  | Some s =>
      '(ok, tvc) ← verify_with sc latest_height hf_version (Tvc false no_flags) (quorums s);
      if ok : bool then Some (Some (quorums s))
      else alt_states_loop sc latest_height hf_version alt_states tvc None
  end.

(** The [switch] on the voted state, for a registered node. *)
Definition apply_state_change (nettype : network_type) (b : block) (sc : tx_state_change)
    (key : bytes) (info : service_node_info) (st : state_t) (nl : option node_list)
    : option (bool * state_t * option node_list) :=
  let hf_version := major_version b in
  let block_height := b_height b in
  if tsc_state sc =? deregister then
    st' ← (if hf11_infinite_staking <=? hf_version then
             netconf ← get_config nettype;
             Some (with_blacklist st (key_image_blacklist st ++
                     deregister_entries netconf hf_version block_height info))
           else Some st);
    st'' ← erase_info st' nl key info removed_deregister;
    Some (true, st'', nl)
  else if tsc_state sc =? decommission then
    if hf_version <? hf12_checkpointing then Some (false, st, nl)
    else if is_decommissioned info then Some (false, st, nl)
    else
      Some (true,
        with_infos st (<[key := decommission_info hf_version block_height sc info]>
                         (service_nodes_infos st)),
        match nl with
        | Some l => Some (if m_rescanning l then l else store_proof l key)
        | None => None
        end)
  else if tsc_state sc =? recommission then
    if hf_version <? hf12_checkpointing then Some (false, st, nl)
    else if negb (is_decommissioned info) then Some (false, st, nl)
    else
      info' ← recommission_info nettype block_height info;
      Some (true, with_infos st (<[key := info']> (service_nodes_infos st)),
        match nl with
        | Some l => Some (with_proofs l
            (<[key := reset_conditions (proof_of l key) (b_timestamp b)]> (proofs l)))
        | None => None
        end)
  else if tsc_state sc =? ip_change_penalty then
    if hf_version <? hf12_checkpointing then Some (false, st, nl)
    else if is_decommissioned info then Some (false, st, nl)
    else Some (true, with_infos st (<[key := ip_change_info block_height info]>
                                      (service_nodes_infos st)), nl)
  else Some (false, st, nl).

Definition process_state_change_tx (state_history state_archive : gmap Z state_t)
    (alt_states : list (bytes * state_t)) (nettype : network_type) (b : block) (tx : transaction)
    (st : state_t) (nl : option node_list) : option (bool * state_t * option node_list) :=
  if negb (bool_decide (tx_type tx = txtype_state_change)) then Some (false, st, nl)
  else
    match extra_state_change (extra tx) (major_version b) with
    | None => Some (false, st, nl)
    | Some sc =>
        found ← find_quorums state_history state_archive alt_states sc (b_height b)
                  (major_version b);
        match found with
        | None => Some (false, st, nl)
        | Some m =>
            q ← qm_obligations m;
            match get_pubkey_from_quorum q group_worker (service_node_index sc) with
            | None => Some (false, st, nl)
            | Some key =>
                match service_nodes_infos st !! key with
                | None => Some (false, st, nl)
                | Some info => apply_state_change nettype b sc key info st nl
                end
            end
        end
    end.

(** The contribution of the unlock's key image: of the first contributor that has it. *)
Definition find_contribution (image : bytes) (cs : list contributor_t) : option contribution_t :=
  foldr (fun c rest =>
           match list_find (fun k => key_image k = image) (locked_contributions c) with
           | Some (_, k) => Some k
           | None => rest
           end) None cs.

Definition with_unlock (info : service_node_info) (height : Z) : service_node_info :=
  {| registration_height := registration_height info;
     requested_unlock_height := height;
     last_reward_block_height := last_reward_block_height info;
     last_reward_transaction_index := last_reward_transaction_index info;
     decommission_count := decommission_count info;
     active_since_height := active_since_height info;
     last_decommission_height := last_decommission_height info;
     last_decommission_reason_consensus_all := last_decommission_reason_consensus_all info;
     last_decommission_reason_consensus_any := last_decommission_reason_consensus_any info;
     recommission_credit := recommission_credit info;
     contributors := contributors info;
     total_contributed := total_contributed info;
     total_reserved := total_reserved info;
     staking_requirement := staking_requirement info;
     portions_for_operator := portions_for_operator info;
     swarm_id := swarm_id info;
     operator_address := operator_address info;
     operator_ethereum_address := operator_ethereum_address info;
     bls_public_key := bls_public_key info;
     last_ip_change_height := last_ip_change_height info;
     registration_hf_version := registration_hf_version info;
     pulse_sorter := pulse_sorter info |}.

Definition process_key_image_unlock_tx (nettype : network_type) (hf_version : hf)
    (block_height : Z) (tx : transaction) (st : state_t) : option (bool * state_t) :=
  if feature_ETH_BLS <=? hf_version then Some (false, st)
  else
    match extra_service_node_pubkey (extra tx) with
    | None => Some (false, st)
    | Some snode_key =>
        match service_nodes_infos st !! snode_key with
        | None => Some (false, st)
        | Some node_info =>
            if negb (requested_unlock_height node_info =? 0) then Some (false, st)
            else
              match extra_key_image_unlock (extra tx) with
              | None => Some (false, st)
              | Some unlock =>
                  netconf ← get_config nettype;
                  let unlock_height := u64 (block_height + BLOCKS_IN netconf (UNLOCK_DURATION netconf)) in
                  match find_contribution (u_key_image unlock) (contributors node_info) with
                  | None => Some (false, st)
                  | Some cit =>
                      if (hf_version =? hf19_reward_batching) && (contribution_amount cit <? 3749)
                         && (u64 (block_height - registration_height node_info)
                             <? u64 (BLOCKS_IN netconf SMALL_CONTRIBUTOR_UNLOCK_TIMER))
                      then Some (false, st)
                      else if check_signature (generate_request_stake_unlock_hash (u_nonce unlock))
                                (key_image_pub_key cit) (u_signature unlock)
                      then Some (true, with_infos st
                             (<[snode_key := with_unlock node_info unlock_height]>
                                (service_nodes_infos st)))
                      else Some (false, st)
                  end
              end
        end
    end.

Definition get_staking_requirement (nettype : network_type) (st : state_t) : Z :=
  if (feature_ETH_BLS <=? get_network_version fk nettype (st_height st))
     && (0 <? st_staking_requirement st)
  then st_staking_requirement st
  else get_default_staking_requirement_at fk nettype (st_height st).

Definition is_premature_unlock (nettype : network_type) (hf_version : hf) (block_height : Z)
    (tx : transaction) (st : state_t) : option bool :=
  if negb (hf_version =? hf19_reward_batching) then Some false
  else
    match extra_service_node_pubkey (extra tx) with
    | None => Some false
    | Some snode_key =>
        match service_nodes_infos st !! snode_key with
        | None => Some false
        | Some node_info =>
            match extra_key_image_unlock (extra tx) with
            | None => Some false
            | Some unlock =>
                netconf ← get_config nettype;
                let small_contributor_unlock_blocks :=
                  u64 (BLOCKS_IN netconf SMALL_CONTRIBUTOR_UNLOCK_TIMER) in
                let small_contributor_amount_threshold :=
                  Int128.mul128_div64 (get_staking_requirement nettype st) 2499 10000 in
                match find_contribution (u_key_image unlock) (contributors node_info) with
                | None => Some false
                | Some cit =>
                    Some ((contribution_amount cit <? small_contributor_amount_threshold)
                          && (u64 (block_height - registration_height node_info)
                              <? small_contributor_unlock_blocks))
                end
            end
        end
    end.

End Handlers.

(** ** What is recorded about the nodes *)

Definition is_registered (st : state_t) (pubkey : bytes) : bool :=
  bool_decide (is_Some (service_nodes_infos st !! pubkey)).

Definition set_proof (nl : node_list) (key : bytes) (pi : proof_info) : node_list :=
  with_proofs nl (<[key := pi]> (proofs nl)).

Definition with_participation (pi : proof_info)
    (pulse : participation_history pulse_participation_entry)
    (checkpoint : participation_history checkpoint_participation_entry)
    (timestamp : participation_history timestamp_participation_entry)
    (timesync : participation_history timesync_entry) : proof_info :=
  ProofInfo pulse checkpoint timestamp timesync (pi_timestamp pi)
    (pi_effective_timestamp pi) (pi_public_ips pi) (pi_ss_reachable pi) (pi_lokinet_reachable pi)
    (pi_sr_reachable pi) (pi_proof pi) (pi_pubkey_x25519 pi).

Definition record_checkpoint_participation (st : state_t) (nl : node_list) (pubkey : bytes)
    (height : Z) (participated : bool) : node_list :=
  if is_registered st pubkey then
    let pi := proof_of nl pubkey in
    set_proof nl pubkey (with_participation pi (pi_pulse_participation pi)
      (history_add (pi_checkpoint_participation pi) (CheckpointParticipation height participated))
      (pi_timestamp_participation pi) (pi_timesync_status pi))
  else nl.

Definition record_pulse_participation (st : state_t) (nl : node_list) (pubkey : bytes)
    (height round : Z) (participated : bool) : node_list :=
  if is_registered st pubkey then
    let pi := proof_of nl pubkey in
    set_proof nl pubkey (with_participation pi
      (history_add (pi_pulse_participation pi) (PulseEntry height round participated))
      (pi_checkpoint_participation pi) (pi_timestamp_participation pi) (pi_timesync_status pi))
  else nl.

Definition record_timestamp_participation (st : state_t) (nl : node_list) (pubkey : bytes)
    (participated : bool) : node_list :=
  if is_registered st pubkey then
    let pi := proof_of nl pubkey in
    set_proof nl pubkey (with_participation pi (pi_pulse_participation pi)
      (pi_checkpoint_participation pi)
      (history_add (pi_timestamp_participation pi) (TimestampEntry participated))
      (pi_timesync_status pi))
  else nl.

Definition record_timesync_status (st : state_t) (nl : node_list) (pubkey : bytes)
    (synced : bool) : node_list :=
  if is_registered st pubkey then
    let pi := proof_of nl pubkey in
    set_proof nl pubkey (with_participation pi (pi_pulse_participation pi)
      (pi_checkpoint_participation pi) (pi_timestamp_participation pi)
      (history_add (pi_timesync_status pi) (TimesyncEntry synced)))
  else nl.

Definition with_reachable (pi : proof_info) (ss lokinet sr : reachable_stats) : proof_info :=
  ProofInfo (pi_pulse_participation pi) (pi_checkpoint_participation pi)
    (pi_timestamp_participation pi) (pi_timesync_status pi) (pi_timestamp pi)
    (pi_effective_timestamp pi) (pi_public_ips pi) ss lokinet sr (pi_proof pi)
    (pi_pubkey_x25519 pi).

(** [set_peer_reachable] on one of the statistics of [proofs[pubkey]]; the caller's
    [proofs[pubkey]] creates the entry also for a key that is then dropped. *)
Definition set_peer_reachable (st : state_t) (nl : node_list) (pubkey : bytes)
    (reach : proof_info -> reachable_stats)
    (put : proof_info -> reachable_stats -> proof_info) (reachable : bool) (now : Z)
    : bool * node_list :=
  let pi := proof_of nl pubkey in
  if is_registered st pubkey
  then (true, set_proof nl pubkey (put pi (report_reachable (reach pi) reachable now)))
  else (false, set_proof nl pubkey pi).

Definition set_storage_server_peer_reachable (st : state_t) (nl : node_list) (pubkey : bytes)
    (reachable : bool) (now : Z) : bool * node_list :=
  set_peer_reachable st nl pubkey pi_ss_reachable
    (fun pi r => with_reachable pi r (pi_lokinet_reachable pi) (pi_sr_reachable pi)) reachable now.

Definition set_lokinet_peer_reachable (st : state_t) (nl : node_list) (pubkey : bytes)
    (reachable : bool) (now : Z) : bool * node_list :=
  set_peer_reachable st nl pubkey pi_lokinet_reachable
    (fun pi r => with_reachable pi (pi_ss_reachable pi) r (pi_sr_reachable pi)) reachable now.

Definition set_session_router_peer_reachable (st : state_t) (nl : node_list) (pubkey : bytes)
    (reachable : bool) (now : Z) : bool * node_list :=
  set_peer_reachable st nl pubkey pi_sr_reachable
    (fun pi r => with_reachable pi (pi_ss_reachable pi) (pi_lokinet_reachable pi) r) reachable now.

(** [proof_age] and the lag in nanoseconds. *)
Definition INFO_PRUNING_LAG : Z := seconds (6 * 3600).

Definition should_keep_info (st : state_t) (pubkey : bytes) (proof_age : Z) : bool :=
  (proof_age <? INFO_PRUNING_LAG) || is_registered st pubkey
  || existsb (fun r => bool_decide (rn_service_node_pubkey r = pubkey)) (recently_removed_nodes st).

Definition cleanup_proofs (st : state_t) (nl : node_list) (now : Z) : node_list :=
  if db_is_read_only nl then nl
  else
    let keep (kp : bytes * proof_info) :=
      should_keep_info st kp.1 (now - seconds (pi_timestamp kp.2)) = true in
    let kept := filter keep (proofs nl) in
    let removed := dom (proofs nl) ∖ dom kept in
    with_proof_db (with_proofs nl kept) (filter (fun kp => kp.1 ∉ removed) (proof_db nl)).

Definition find_public_key_bls (st : state_t) (bls_pubkey : bytes) : bytes :=
  default (null_bytes 32) (bls_map st !! bls_pubkey).

Definition find_public_key_registered (st : state_t) (bls_pubkey : bytes) : bytes :=
  let pk := find_public_key_bls st bls_pubkey in
  if negb (bool_decide (pk = null_bytes 32)) && negb (is_registered st pk)
  then null_bytes 32 else pk.

(** ** Uptime proofs *)

(** [std::array<uint16_t, 3>]'s lexicographic order. *)
Definition version_ltb (a b : version3) : bool :=
  let '(a1, a2, a3) := a in
  let '(b1, b2, b3) := b in
  (a1 <? b1) || ((a1 =? b1) && ((a2 <? b2) || ((a2 =? b2) && (a3 <? b3)))).

(** The loop over [MIN_UPTIME_PROOF_VERSIONS]; it returns [false] where the code rejects. *)
Definition proof_versions_ok (netconf : network_config) (vers : hf * Z) (proof : Proof)
    (mins : list proof_version) : bool :=
  forallb (fun min =>
    if pair_leb (hardfork_revision min) vers then
      if version_ltb (p_version proof) (pv_oxend min) then false
      else if HAVE_LOKINET netconf && version_ltb (p_lokinet_version proof) (pv_lokinet min)
      then false
      else if HAVE_STORAGE_SERVER netconf
              && version_ltb (p_storage_server_version proof) (pv_storage_server min) then false
      else negb (HAVE_SESSION_ROUTER netconf
                 && version_ltb (p_storage_server_version proof) (pv_session_router min))
    else true) mins.

Section UptimeProofs.
Context (fk : list hard_fork).
(** libsodium's key conversion and signature check, and the BLS verification. *)
Context (ed25519_pk_to_curve25519 : bytes -> option bytes).
Context (ed25519_verify : bytes -> bytes -> bytes -> bool).
Context (bls_verify : network_type -> bytes -> bytes -> bytes -> bool).
Context (debug_allow_local_ips : bool).

(** The checks on the proof alone: the derived X25519 key, or [None] where it is refused.
    [now] is the system clock in nanoseconds. *)
Definition check_proof (netconf : network_config) (nettype : network_type) (chain_height : Z)
    (now : Z) (proof : Proof) : option bytes :=
  let vers := get_network_version_revision fk nettype (u64 (chain_height - 1)) in
  let time_deviation := now - seconds (p_timestamp proof) in
  if bool_decide (p_pubkey_ed25519 proof = null_bytes 32) then None
  else if (seconds (UPTIME_PROOF_TOLERANCE netconf) <? time_deviation)
          || (time_deviation <? - seconds (UPTIME_PROOF_TOLERANCE netconf)) then None
  else if negb (proof_versions_ok netconf vers proof (MIN_UPTIME_PROOF_VERSIONS nettype)) then None
  else if negb debug_allow_local_ips && negb (is_ip_public (p_public_ip proof)) then None
  else
    match ed25519_pk_to_curve25519 (p_pubkey_ed25519 proof) with
    | None => None
    | Some derived =>
        if bool_decide (derived = null_bytes 32) then None
        else if negb (ed25519_verify (p_sig_ed25519 proof) (p_proof_hash proof)
                        (p_pubkey_ed25519 proof)) then None
        else if ((vers.1 =? feature_ETH_TRANSITION) || (hf22_eth_fixup <=? vers.1))
                && (bool_decide (p_pubkey_bls proof = null_bytes 64)
                    || bool_decide (p_pop_bls proof = null_bytes 128)
                    || negb (bls_verify nettype (p_pop_bls proof) (p_pubkey_bls proof)
                               (p_pubkey_bls proof ++ p_pubkey_ed25519 proof))) then None
        else if p_qnet_port proof =? 0 then None
        else Some derived
    end.

(** Whether a proof from this node comes too soon after the last one. *)
Definition proof_too_soon (netconf : network_config) (info : service_node_info)
    (iproof : proof_info) (proof : Proof) (now : Z) : bool :=
  (now <=? seconds (pi_timestamp iproof) + seconds (Z.quot (UPTIME_PROOF_FREQUENCY netconf) 2))
  && (if is_localdev (NETWORK_TYPE netconf)
      then negb (bool_decide (bls_public_key info = null_bytes 64)) && negb (p_qnet_port proof =? 0)
      else true).

(** What a call leaves behind: the verdict, the list, the [my_uptime_proof_confirmation] it
    assigned (if any) and whether the address-change notifier was called. *)
Record proof_outcome := ProofOutcome {
  po_accepted : bool;
  po_list : node_list;
  po_confirmation : option bool;
  po_notified : bool;
}.

Definition handle_uptime_proof (my_key : option bytes) (has_notifier : bool) (chain_height : Z)
    (now : Z) (proof : Proof) (st : state_t) (nl : node_list) : option proof_outcome :=
  netconf ← get_config (nl_nettype nl);
  match check_proof netconf (nl_nettype nl) chain_height now proof with
  | None => Some (ProofOutcome false nl None false)
  | Some derived =>
      let pubkey := p_pubkey_ed25519 proof in
      match service_nodes_infos st !! pubkey with
      | None => Some (ProofOutcome false nl None false)
      | Some info =>
          let iproof := proof_of nl pubkey in
          let nl := set_proof nl pubkey iproof in
          if proof_too_soon netconf info iproof proof now
          then Some (ProofOutcome false nl None false)
          else
            let time := now / 1000000000 in
            let '(iproof, (updated, contact_changed)) := update iproof time proof derived time in
            let nl := set_proof nl pubkey iproof in
            let nl := if updated : bool then store_proof nl pubkey else nl in
            let nl := with_x25519_to_pub nl (<[derived := (pubkey, time)]> (x25519_to_pub nl)) in
            Some (ProofOutcome true nl (Some (bool_decide (my_key = Some pubkey)))
                    (contact_changed && has_notifier))
      end
  end.

End UptimeProofs.

(** ** Refinement: a state change is a step of one node's life cycle *)

Definition abs (st : state_t) : gmap bytes node_status := status <$> service_nodes_infos st.

(** The life cycle: the new status ([None]: removed from the list) of a node to which the
    voted state is applied at height [h]; [None] where it does not apply. *)
Definition node_step (h new_state : Z) (s : node_status) : option (option node_status) :=
  if new_state =? deregister then Some None
  else if new_state =? decommission then
    match s with
    | Decommissioned _ _ => None
    | Active a => Some (Some (Decommissioned a h))
    | Funding => Some (Some Funding)
    end
  else if new_state =? recommission then
    match s with Decommissioned _ _ => Some (Some (Active h)) | _ => None end
  else if new_state =? ip_change_penalty then
    match s with Decommissioned _ _ => None | _ => Some (Some s) end
  else None.

(** A node of the list: the activation height is zero while the stake is collected and
    positive once it is active. *)
Record node_ok (now : Z) (info : service_node_info) : Prop := {
  node_info_ok : info_ok now info;
  node_funding : is_fully_funded info = false -> active_since_height info = 0;
  node_activated : is_active info = true -> 0 < active_since_height info;
}.

Definition list_ok (now : Z) (st : state_t) : Prop :=
  map_Forall (fun _ => node_ok now) (service_nodes_infos st).

Lemma status_decommissioned info :
  is_decommissioned info = true ->
  status info = Decommissioned (- active_since_height info) (last_decommission_height info).
Proof. unfold status. by intros ->. Qed.

Lemma decommission_node_ok v h sc info :
  node_ok h info -> is_decommissioned info = false ->
  node_ok h (decommission_info v h sc info) /\
  node_step h decommission (status info) = Some (Some (status (decommission_info v h sc info))).
Proof.
  intros [Hok Hf Ha] Hd. destruct (is_fully_funded info) eqn:Hfund.
  - assert (Hact : is_active info = true) by (unfold is_active; by rewrite Hfund, Hd).
    specialize (Ha Hact). destruct (decommissioned_sign v h sc info Hok Ha) as [Hd' Hs].
    rewrite (active_status _ Hact), (status_decommissioned _ Hd'), Hs. cbn -[decommission_info].
    rewrite Z.opp_involutive. split; [|done]. split.
    + by apply decommission_info_ok.
    + intros Hf'. unfold is_fully_funded in *. cbn in Hf'. congruence.
    + unfold is_active. rewrite Hd', andb_false_r. done.
  - specialize (Hf eq_refl). unfold status at 1. rewrite Hd, Hfund. cbn -[decommission_info].
    assert (Hd' : is_decommissioned (decommission_info v h sc info) = false)
      by (unfold is_decommissioned, decommission_info; cbn; by rewrite Hf).
    assert (Hfund' : is_fully_funded (decommission_info v h sc info) = false) by done.
    unfold status. rewrite Hd', Hfund'. split; [|done]. split.
    + destruct Hok. split; try (by rewrite Hd'); cbn; rewrite ?Hf; change (s64 (- 0)) with 0; lia.
    + intros _. cbn. by rewrite Hf.
    + unfold is_active. by rewrite Hfund'.
Qed.

Lemma recommission_node_ok nt conf h info :
  get_config nt = Some conf -> 0 < h -> node_ok h info -> is_decommissioned info = true ->
  exists info', recommission_info nt h info = Some info' /\ node_ok h info' /\
    node_step h recommission (status info) = Some (Some (status info')).
Proof.
  intros Hconf Hh [Hok _ _] Hd.
  destruct (recommission_info_ok nt conf info h Hconf Hok Hd) as (i & -> & Hok' & Hact & Hs & _).
  exists i. rewrite (status_decommissioned _ Hd), (active_status _ Hact), Hs. split; [done|].
  split; [|done]. split; [done| |by rewrite Hs].
  unfold is_active in Hact. bool_hyps. congruence.
Qed.

Lemma ip_change_node_ok h info :
  node_ok h info -> is_decommissioned info = false ->
  node_ok h (ip_change_info h info) /\
  node_step h ip_change_penalty (status info) = Some (Some (status (ip_change_info h info))).
Proof.
  intros [Hok Hf Ha] Hd. split; [split; [by apply ip_change_info_ok | done..]|].
  change (status (ip_change_info h info)) with (status info).
  unfold status. rewrite Hd. by destruct (is_fully_funded info).
Qed.

Lemma abs_with_infos_insert st key info :
  abs (with_infos st (<[key := info]> (service_nodes_infos st)))
  = partial_alter (fun _ => Some (status info)) key (abs st).
Proof. unfold abs. cbn. by rewrite fmap_insert. Qed.

Lemma list_ok_insert now st key info :
  list_ok now st -> node_ok now info ->
  list_ok now (with_infos st (<[key := info]> (service_nodes_infos st))).
Proof. intros Hst Hi. unfold list_ok. cbn. by apply map_Forall_insert_2. Qed.

Section Refinement.
Context (fk : list hard_fork).
Context (snpk_to_xpk : bytes -> bytes).
Context (nt : network_type) (conf : network_config) (nl : option node_list).
Context (Hconf : get_config nt = Some conf).
Context (Hlist : is_Some (get_config (from_option nl_nettype FAKECHAIN nl))).

Lemma erase_info_spec st key info t :
  exists st', erase_info fk snpk_to_xpk st nl key info t = Some st' /\
    service_nodes_infos st' = delete key (service_nodes_infos st) /\
    key_image_blacklist st' = key_image_blacklist st.
Proof using Hlist.
  clear nt conf Hconf. unfold erase_info. destruct Hlist as [c Hc]. rewrite Hc.
  destruct (is_hard_fork_at_least _ _ _ _); [|eexists; split; done].
  destruct (_ || _); [eexists; split; done|].
  destruct (l ← nl; pi ← proofs l !! key; pi_proof pi); eexists; split; done.
Qed.

Lemma apply_state_change_spec b sc key info st :
  hf12_checkpointing <= major_version b -> 0 < b_height b -> list_ok (b_height b) st ->
  service_nodes_infos st !! key = Some info ->
  exists ok st' nl',
    apply_state_change fk snpk_to_xpk nt b sc key info st nl = Some (ok, st', nl') /\
    list_ok (b_height b) st' /\
    match node_step (b_height b) (tsc_state sc) (status info) with
    | Some s' => ok = true /\ abs st' = partial_alter (fun _ => s') key (abs st)
    | None => ok = false /\ st' = st /\ nl' = nl
    end.
Proof using Hconf Hlist.
  intros Hv Hh Hst Hinfo. pose proof (Hst key info Hinfo) as Hn.
  unfold apply_state_change.
  rewrite (proj2 (Z.ltb_ge (major_version b) hf12_checkpointing) Hv).
  destruct (Z.eqb_spec (tsc_state sc) deregister) as [->|H0].
  { rewrite (proj2 (Z.leb_le hf11_infinite_staking (major_version b)))
      by (unfold hf12_checkpointing, hf11_infinite_staking in *; lia).
    rewrite Hconf. cbn [mbind option_bind].
    edestruct erase_info_spec as (st' & -> & Hi & _). cbn -[node_step].
    eexists _, st', _. split; [done|]. split; [|split; [done|]].
    - unfold list_ok. rewrite Hi. cbn. by apply map_Forall_delete.
    - unfold abs. rewrite Hi, fmap_delete. done. }
  destruct (Z.eqb_spec (tsc_state sc) decommission) as [->|H1].
  { destruct (is_decommissioned info) eqn:Hd.
    - rewrite (status_decommissioned _ Hd). cbn. eauto 10.
    - destruct (decommission_node_ok (major_version b) (b_height b) sc info Hn Hd) as [Hok ->].
      eexists _, _, _. split; [done|]. split; [by apply list_ok_insert|].
      split; [done | apply abs_with_infos_insert]. }
  destruct (Z.eqb_spec (tsc_state sc) recommission) as [->|H2].
  { destruct (is_decommissioned info) eqn:Hd; cbn [negb].
    - destruct (recommission_node_ok nt conf (b_height b) info Hconf Hh Hn Hd) as (i & -> & Hok & ->).
      cbn [mbind option_bind]. eexists _, _, _. split; [done|]. split; [by apply list_ok_insert|].
      split; [done | apply abs_with_infos_insert].
    - unfold status. rewrite Hd. cbn. destruct (is_fully_funded info); eauto 10. }
  destruct (Z.eqb_spec (tsc_state sc) ip_change_penalty) as [->|H3].
  { destruct (is_decommissioned info) eqn:Hd.
    - rewrite (status_decommissioned _ Hd). cbn. eauto 10.
    - destruct (ip_change_node_ok (b_height b) info Hn Hd) as [Hok ->].
      eexists _, _, _. split; [done|]. split; [by apply list_ok_insert|].
      split; [done | apply abs_with_infos_insert]. }
  unfold node_step. rewrite !(proj2 (Z.eqb_neq _ _)) by done. eauto 10.
Qed.

End Refinement.

Section Process.
Context (cn_fast_hash : bytes -> bytes).
Context (check_signature : bytes -> bytes -> bytes -> bool).

(** Every stored state has an obligations quorum of at most ten validators. *)
Definition quorums_ok (m : quorum_manager) : Prop :=
  exists q, qm_obligations m = Some q /\ (length (validators q) <= 10)%nat.

(** The ranges that the fields of a parsed state change have. *)
Definition state_change_typed (sc : tx_state_change) : Prop :=
  0 <= service_node_index sc /\ 0 <= tsc_block_height sc < 2 ^ 63 /\
  Forall (fun x => 0 <= validator_index x < 2 ^ 31) (tsc_votes sc).

(** What the votes of a state change have to be for a quorum: the conditions of
    [verify_tx_state_change]. *)
Definition votes_valid (sc : tx_state_change) (h : Z) (v : hf) (q : quorum) : Prop :=
  let hash := make_state_change_vote_hash cn_fast_hash (tsc_block_height sc) (service_node_index sc) (tsc_state sc) in
  (tsc_state sc <> deregister -> hf12_checkpointing <= v) /\ tsc_state sc < 4 /\
  7 <= Z.of_nat (length (tsc_votes sc)) <= 10 /\
  service_node_index sc < Z.of_nat (length (workers q)) /\
  tsc_block_height sc < h < tsc_block_height sc + 60 /\
  Forall (vote_ok check_signature q hash) (tsc_votes sc) /\
  NoDup (Z.to_nat ∘ validator_index <$> tsc_votes sc) /\
  (hf13_enforce_checkpoints <= v -> ascending (-1) (tsc_votes sc)).

(** The obligations quorum [q] of a set of quorums validates the votes. *)
Definition validates (sc : tx_state_change) (h : Z) (v : hf) (m : quorum_manager) (q : quorum) : Prop :=
  qm_obligations m = Some q /\ votes_valid sc h v q.

Lemma verify_with_spec sc h v tvc m :
  quorums_ok m -> state_change_typed sc -> 0 <= h < 2 ^ 63 ->
  exists ok tvc', verify_with cn_fast_hash check_signature sc h v tvc m = Some (ok, tvc') /\
    (ok = true <-> exists q, validates sc h v m q).
Proof.
  intros (q & Hq & Hlen) (_ & Hbh & Hv) Hh. unfold verify_with. rewrite Hq. cbn [mbind option_bind].
  pose proof (state_change_accepted_spec cn_fast_hash check_signature sc h tvc) as Hs.
  destruct (verify_tx_state_change cn_fast_hash check_signature sc h tvc q v) as [[ok tvc']|] eqn:E.
  2: by apply (Hs tvc q v) in E.
  exists ok, tvc'. split; [done|]. split.
  - intros ->. exists q. split; [done|]. by apply (Hs tvc' q v) in E as (_ & ?).
  - intros (q' & Hq' & Hval). assert (q' = q) as -> by congruence.
    assert (verify_tx_state_change cn_fast_hash check_signature sc h tvc q v = Some (true, tvc)) as E' by by apply Hs.
    congruence.
Qed.

(** The states of a height, in the order of the map of alternative states. *)
Definition alts_at (alts : list (bytes * state_t)) (h : Z) : list state_t :=
  filter (fun s => st_height s = h) alts.*2.

Lemma alts_at_cons hash s alts h :
  alts_at ((hash, s) :: alts) h = if decide (st_height s = h) then s :: alts_at alts h else alts_at alts h.
Proof. unfold alts_at. by rewrite fmap_cons, filter_cons. Qed.

(** The last state of the voted height decides. *)
Lemma alt_states_loop_spec sc h v alts tvc found :
  Forall (fun a => quorums_ok (quorums a.2)) alts -> state_change_typed sc -> 0 <= h < 2 ^ 63 ->
  exists r, alt_states_loop cn_fast_hash check_signature sc h v alts tvc found = Some r /\
    match last (alts_at alts (tsc_block_height sc)) with
    | None => r = found
    | Some s => ((exists q, validates sc h v (quorums s) q) /\ r = Some (quorums s)) \/
                (~ (exists q, validates sc h v (quorums s) q) /\ r = None)
    end.
Proof.
  intros Hall Hsc Hh. revert tvc found.
  induction Hall as [|[hash alt] alts Halt Hall IH]; intros tvc found; cbn [alt_states_loop]; [by exists found|].
  rewrite alts_at_cons.
  destruct (Z.eqb_spec (st_height alt) (tsc_block_height sc)) as [Heq|Hne]; cbn [negb].
  - rewrite decide_True by done.
    destruct (verify_with_spec sc h v tvc (quorums alt) Halt Hsc Hh) as (ok & tvc' & -> & Hok).
    cbn [mbind option_bind].
    destruct (IH tvc' (if ok then Some (quorums alt) else None)) as (r & -> & Hr).
    exists r. split; [done|]. rewrite last_cons. destruct (last _) as [s|]; [done|].
    destruct ok; [left|right]; (split; [|done]); [by apply Hok|]. by rewrite <- Hok.
  - rewrite decide_False by done. apply IH.
Qed.

(** The history, archive and alternative states that a state change can refer to. *)
Definition stored_ok (hist arch : gmap Z state_t) (alts : list (bytes * state_t)) : Prop :=
  map_Forall (fun _ s => quorums_ok (quorums s)) hist /\
  map_Forall (fun _ s => quorums_ok (quorums s)) arch /\
  Forall (fun a => quorums_ok (quorums a.2)) alts.

(** The quorum that decides on a state change: the one stored for the voted height, in the
    history or else in the archive, if it validates the votes; or else, if there is such a
    state, the one of the last alternative state of that height, if it does. *)
Definition deciding (hist arch : gmap Z state_t) (alts : list (bytes * state_t)) (sc : tx_state_change) (h : Z) (v : hf)
    (q : quorum) : Prop :=
  let at_height := tsc_block_height sc in
  exists s0, (hist !! at_height = Some s0 \/ hist !! at_height = None /\ arch !! at_height = Some s0) /\
    (validates sc h v (quorums s0) q \/
     ~ (exists q0, validates sc h v (quorums s0) q0) /\
     exists s, last (alts_at alts at_height) = Some s /\ validates sc h v (quorums s) q).

Lemma find_quorums_spec hist arch alts sc h v :
  stored_ok hist arch alts -> state_change_typed sc -> 0 <= h < 2 ^ 63 ->
  exists r, find_quorums cn_fast_hash check_signature hist arch alts sc h v = Some r /\
    (forall q, deciding hist arch alts sc h v q <-> exists m, r = Some m /\ qm_obligations m = Some q) /\
    (forall m, r = Some m -> is_Some (qm_obligations m)).
Proof.
  intros (Hh1 & Hh2 & Ha) Hsc Hh. unfold find_quorums, deciding.
  set (stored := match hist !! _ with Some s => Some s | None => _ end).
  assert (Hs : forall s, stored = Some s -> quorums_ok (quorums s)).
  { subst stored. intros s E. destruct (hist !! tsc_block_height sc) eqn:E1; simplify_eq.
    - by apply (Hh1 _ _ E1).
    - by apply (Hh2 _ _ E). }
  assert (Hst : forall s0, (hist !! tsc_block_height sc = Some s0 \/
      hist !! tsc_block_height sc = None /\ arch !! tsc_block_height sc = Some s0) <-> stored = Some s0).
  { subst stored. intros s0. destruct (hist !! _); naive_solver. }
  setoid_rewrite Hst. clearbody stored. clear Hst.
  destruct stored as [s|]; [|exists None; split_and!; [done|naive_solver|done]].
  destruct (verify_with_spec sc h v (Tvc false no_flags) (quorums s) (Hs s eq_refl) Hsc Hh)
    as (ok & tvc & -> & Hok); cbn [mbind option_bind]. destruct ok.
  - destruct (proj1 Hok eq_refl) as [q Hq]. exists (Some (quorums s)). split; [done|].
    split; [|intros m [= <-]; destruct Hq as [-> _]; done].
    intros q'. split; [intros (s0 & [= <-] & [[Hq' _]|[[] _]]); [by eexists|by exists q]|].
    intros (m & [= <-] & Hq'). exists s. split; [done|]. left. destruct Hq as [? ?]. split; [done|]. congruence.
  - assert (~ exists q, validates sc h v (quorums s) q) as Hno by by rewrite <- Hok.
    destruct (alt_states_loop_spec sc h v alts tvc None Ha Hsc Hh) as (r & -> & Hr).
    exists r. split; [done|]. destruct (last _) as [s'|]; [destruct Hr as [[[q Hq] ->]|[Hn ->]]|subst r].
    + split; [|intros m [= <-]; destruct Hq as [-> _]; done]. intros q'. split.
      * intros (s0 & [= <-] & [Hv|(_ & s1 & [= <-] & Hq' & _)]); [destruct Hno; by exists q'|by eexists].
      * intros (m & [= <-] & Hq'). exists s. split; [done|]. right. split; [done|]. exists s'. split; [done|].
        destruct Hq as [? ?]. split; [done|]. congruence.
    + split; [|done]. intros q'. split; [|naive_solver].
      intros (s0 & [= <-] & [Hv|(_ & s1 & [= <-] & Hq')]); [destruct Hno|destruct Hn]; by exists q'.
    + split; [|done]. intros q'. split; [|naive_solver].
      intros (s0 & [= <-] & [Hv|(_ & s1 & ? & _)]); [destruct Hno; by exists q'|done].
Qed.

End Process.

(** (C9) Processing a state change transaction never fails, keeps every node of the list
    well-formed, and refines the life cycle of one node.  The quorum that decides is the one
    stored for the voted height, in the history or else in the archive, if it validates the
    votes, and otherwise the one of the last alternative state of that height in the order of
    the (unordered) map, if that validates them ([deciding]; the order of the map matters,
    [alt_states_order_matters]).  The transaction is applied exactly when there is such a
    quorum, its worker with the given index is in the list and the life cycle allows the voted
    state in the node's status; then the status of that worker alone changes, to the one the
    life cycle prescribes, and otherwise nothing changes. *)
Theorem state_change_refinement fk cn_fast_hash check_signature snpk_to_xpk nt nl hist arch alts
    b tx st :
  is_Some (get_config nt) -> is_Some (get_config (from_option nl_nettype FAKECHAIN nl)) ->
  stored_ok hist arch alts ->
  (forall sc, extra_state_change (extra tx) (major_version b) = Some sc -> state_change_typed sc) ->
  hf12_checkpointing <= major_version b -> 0 < b_height b < 2 ^ 40 -> list_ok (b_height b) st ->
  let voted sc key s :=
    tx_type tx = txtype_state_change /\
    extra_state_change (extra tx) (major_version b) = Some sc /\
    exists q, deciding cn_fast_hash check_signature hist arch alts sc (b_height b) (major_version b) q /\
      workers q !! Z.to_nat (service_node_index sc) = Some key /\ abs st !! key = Some s in
  exists ok st' nl',
    process_state_change_tx fk cn_fast_hash check_signature snpk_to_xpk hist arch alts nt b tx st nl
    = Some (ok, st', nl') /\
    list_ok (b_height b) st' /\
    if ok : bool
    then exists sc key s s', voted sc key s /\
           node_step (b_height b) (tsc_state sc) s = Some s' /\
           abs st' = partial_alter (fun _ => s') key (abs st)
    else st' = st /\ nl' = nl /\
         forall sc key s, voted sc key s -> node_step (b_height b) (tsc_state sc) s = None.
Proof.
  intros [conf Hconf] Hlist Hstored Htyped Hv Hh Hst voted.
  unfold process_state_change_tx, voted.
  destruct (bool_decide_reflect (tx_type tx = txtype_state_change)) as [Htt|Htt]; cbn [negb].
  2: { exists false, st, nl. split_and!; try done. intros. naive_solver. }
  destruct (extra_state_change (extra tx) (major_version b)) as [sc|] eqn:Hsc.
  2: { exists false, st, nl. split_and!; try done. intros. naive_solver. }
  destruct (find_quorums_spec cn_fast_hash check_signature hist arch alts sc (b_height b)
              (major_version b) Hstored (Htyped sc eq_refl) ltac:(lia)) as (r & Hr & Hdec & Hval).
  rewrite Hr. cbn [mbind option_bind].
  destruct r as [m|].
  2: { exists false, st, nl. split_and!; try done. intros sc' key' s' (_ & [= <-] & q & (? & ? & _)%Hdec & _). done. }
  destruct (Hval m eq_refl) as [q Hqm]. rewrite Hqm. cbn [mbind option_bind].
  assert (deciding cn_fast_hash check_signature hist arch alts sc (b_height b) (major_version b) q) as Hq
    by (apply Hdec; by exists m).
  assert (Hdet : forall sc' key' s', voted sc' key' s' ->
    sc' = sc /\ workers q !! Z.to_nat (service_node_index sc) = Some key' /\ abs st !! key' = Some s').
  { unfold voted. intros sc' key' s' (_ & [= <-] & q' & (m' & [= <-] & Hq')%Hdec & Hk & Ha).
    assert (q' = q) as -> by congruence. done. }
  unfold voted in Hdet.
  unfold get_pubkey_from_quorum.
  change (group_worker =? group_validator) with false. change (group_worker =? group_worker) with true.
  cbv iota.
  destruct (workers q !! Z.to_nat (service_node_index sc)) as [key|] eqn:Hkey.
  2: { exists false, st, nl. split_and!; try done.
       intros sc' key' s' (_ & ? & _)%Hdet. congruence. }
  destruct (service_nodes_infos st !! key) as [info|] eqn:Hinfo.
  2: { exists false, st, nl. split_and!; try done.
       intros sc' key' s' (_ & ? & Ha)%Hdet. simplify_eq.
       unfold abs in Ha. by rewrite lookup_fmap, Hinfo in Ha. }
  assert (Habs : abs st !! key = Some (status info)) by (unfold abs; by rewrite lookup_fmap, Hinfo).
  destruct (apply_state_change_spec fk snpk_to_xpk nt conf nl Hconf Hlist b sc key info st Hv
              ltac:(lia) Hst Hinfo) as (ok & st' & nl' & -> & Hok & Hstep).
  exists ok, st', nl'. split; [done|]. split; [done|].
  destruct (node_step _ _ _) as [s'|] eqn:Hs.
  - destruct Hstep as [-> Habs']. exists sc, key, (status info), s'. split; [|done]. split_and!; [done|done|]. by exists q.
  - destruct Hstep as (-> & -> & ->). split_and!; try done.
    intros sc' key' s' (-> & ? & Ha)%Hdet. simplify_eq. congruence.
Qed.

Definition demo_quorums : quorum_manager :=
  QuorumManager (Some (Quorum (demo_keys 10) (demo_keys 3))) None None None.
Definition demo_state (h : Z) : state_t :=
  State {[ [2] := demo_info ]} [] ∅ ∅ h demo_quorums [] 0 [] [] [].
Definition demo_tx : transaction :=
  Transaction txtype_state_change [] no_outputs
    (TxExtra (fun _ => Some demo_state_change) None None None None None None None).

Lemma state_change_refinement_witness :
  exists st' nl',
    process_state_change_tx [] (fun m => m) demo_check (fun k => k)
      {[ 100 := demo_state 100 ]} ∅ [] MAINNET (plain_block hf22_sn_policy 150 1700000000) demo_tx
      (demo_state 150) None = Some (true, st', nl') /\
    list_ok 150 st' /\ abs st' !! [2] = Some (Decommissioned 120 150).
Proof.
  destruct (state_change_refinement [] (fun m => m) demo_check (fun k => k) MAINNET None
              {[ 100 := demo_state 100 ]} ∅ [] (plain_block hf22_sn_policy 150 1700000000) demo_tx
              (demo_state 150)) as (ok & st' & nl' & Hp & Hok & _).
  - by eexists.
  - by eexists.
  - split_and!; [|apply map_Forall_empty | constructor].
    intros k s [_ <-]%lookup_singleton_Some. eexists. split; [done|]. cbn; lia.
  - intros sc [= <-]. split_and!; [done..|]. repeat constructor; cbn; lia.
  - done.
  - done.
  - apply map_Forall_singleton. split; [apply demo_info_ok; cbn; lia | done..].
  - exists st', nl'.
    assert (ok = true /\ abs st' !! [2] = Some (Decommissioned 120 150)) as [-> ?]; [|done].
    vm_compute in Hp. by injection Hp as <- <- _.
Defined.

(** The loop over the alternative states keeps going after a match: a state of the same
    height that does not validate the votes, visited later, discards the quorums found. *)
Lemma alt_states_order_matters :
  let alt v := State ∅ [] ∅ ∅ 100 (QuorumManager (Some (Quorum v (demo_keys 3))) None None None) [] 0 [] [] [] in
  let run := fun alts => alt_states_loop (fun m => m) demo_check demo_state_change 150 hf22_sn_policy
                           alts (Tvc false no_flags) None in
  let good := alt (demo_keys 10) in
  let bad := alt ((fun k => 0 :: k) <$> demo_keys 10) in
  run [([0], bad); ([1], good)] = Some (Some (quorums good)) /\
  run [([1], good); ([0], bad)] = Some None.
Proof. split; vm_compute; reflexivity. Qed.

(** ** Deregistration *)

Definition all_contributions (info : service_node_info) : list contribution_t :=
  concat (locked_contributions <$> contributors info).

Lemma deregister_entries_spec netconf v h info :
  deregister_entries netconf v h info
  = (fun c => BlacklistEntry (key_image c)
       (u64 (h + BLOCKS_IN netconf (if hf22_sn_policy <=? v then DEREGISTRATION_LOCK_DURATION_V2 netconf
                                    else DEREGISTRATION_LOCK_DURATION netconf)))
       (contribution_amount c)) <$> all_contributions info.
Proof.
  unfold deregister_entries, all_contributions. induction (contributors info) as [|c cs IH]; [done|].
  cbn. rewrite fmap_app. cbn in IH. rewrite <- IH. clear IH. f_equal.
Qed.

(** A deregistration removes the node from the list and appends to the blacklist
    exactly one entry for each contribution locked in it, in order, with its key image and
    amount, locked for the network's deregistration period (the longer or shorter one
    according to the hard fork) from the block's height; earlier entries stay. *)
Theorem deregistration_blacklists fk snpk_to_xpk nt conf nl b sc key info st :
  get_config nt = Some conf -> is_Some (get_config (from_option nl_nettype FAKECHAIN nl)) ->
  tsc_state sc = deregister -> hf11_infinite_staking <= major_version b ->
  exists st' added,
    apply_state_change fk snpk_to_xpk nt b sc key info st nl = Some (true, st', nl) /\
    service_nodes_infos st' = delete key (service_nodes_infos st) /\
    key_image_blacklist st' = key_image_blacklist st ++ added /\
    be_key_image <$> added = key_image <$> all_contributions info /\
    be_amount <$> added = contribution_amount <$> all_contributions info /\
    Forall (fun e => be_unlock_height e
                     = u64 (b_height b + (if hf22_sn_policy <=? major_version b
                                          then DEREGISTRATION_LOCK_DURATION_V2 conf
                                          else DEREGISTRATION_LOCK_DURATION conf)
                                         ÷ TARGET_BLOCK_TIME conf)) added.
Proof.
  intros Hconf Hlist Hsc Hv. unfold apply_state_change. rewrite Hsc, Z.eqb_refl.
  rewrite (proj2 (Z.leb_le hf11_infinite_staking (major_version b)) Hv), Hconf.
  cbn [mbind option_bind].
  edestruct (erase_info_spec fk snpk_to_xpk nl Hlist) as (st' & -> & Hi & Hb).
  eexists st', _. split; [done|]. split; [exact Hi|]. split; [exact Hb|].
  rewrite deregister_entries_spec, <- !list_fmap_compose. split_and!; [done..|].
  apply Forall_fmap, Forall_true. intros c. cbn.
  by destruct (hf22_sn_policy <=? major_version b).
Qed.

Definition demo_deregister : tx_state_change := TxStateChange deregister 100 1 1 1 [].

Lemma deregistration_blacklists_witness :
  exists st',
    apply_state_change [] (fun k => k) MAINNET (plain_block hf19_reward_batching 1000 0) demo_deregister
      [2] demo_info (demo_state 999) None = Some (true, st', None) /\
    be_key_image <$> key_image_blacklist st' = [[10]; [11]; [12]].
Proof.
  destruct (deregistration_blacklists [] (fun k => k) MAINNET mainnet_config None
              (plain_block hf19_reward_batching 1000 0) demo_deregister [2] demo_info (demo_state 999))
    as (st' & added & Hp & _ & Hb & Hk & _); [done | by eexists | done | done |].
  exists st'. split; [exact Hp|]. rewrite Hb. exact Hk.
Defined.

(** ** Unlock requests *)

Section Unlock.
Context (check_signature : bytes -> bytes -> bytes -> bool).

Lemma find_contribution_elem image cs c :
  find_contribution image cs = Some c ->
  key_image c = image /\ exists who, who ∈ cs /\ c ∈ locked_contributions who.
Proof.
  induction cs as [|w cs IH]; cbn; [done|].
  destruct (list_find _ _) as [[i k]|] eqn:E.
  - intros [= ->]. apply list_find_Some in E as (Hk & Hp & _). split; [done|].
    exists w. split; [set_solver | by eapply list_elem_of_lookup_2].
  - intros H. destruct (IH H) as [? (who & ? & ?)]. split; [done|]. exists who. set_solver.
Qed.

(** An accepted unlock, as a relation between the states. *)
Definition unlocked (conf : network_config) (v : hf) (h : Z) (tx : transaction) (st st' : state_t)
    (key : bytes) : Prop :=
  exists info u c who,
    extra_service_node_pubkey (extra tx) = Some key /\ service_nodes_infos st !! key = Some info /\
    requested_unlock_height info = 0 /\ extra_key_image_unlock (extra tx) = Some u /\
    who ∈ contributors info /\ c ∈ locked_contributions who /\ key_image c = u_key_image u /\
    check_signature (generate_request_stake_unlock_hash (u_nonce u)) (key_image_pub_key c)
      (u_signature u) = true /\
    st' = with_infos st (<[key := with_unlock info (u64 (h + BLOCKS_IN conf (UNLOCK_DURATION conf)))]>
                           (service_nodes_infos st)).

Lemma unlock_accepted nt conf v h tx st st' :
  get_config nt = Some conf ->
  process_key_image_unlock_tx check_signature nt v h tx st = Some (true, st') ->
  v < feature_ETH_BLS /\ exists key, unlocked conf v h tx st st' key.
Proof.
  intros Hconf. unfold process_key_image_unlock_tx. rewrite Hconf.
  destruct (Z.leb_spec feature_ETH_BLS v); [done|].
  destruct (extra_service_node_pubkey (extra tx)) as [key|] eqn:Hk; [|done].
  destruct (service_nodes_infos st !! key) as [info|] eqn:Hi; [|done].
  destruct (Z.eqb_spec (requested_unlock_height info) 0); [cbn [negb]|done].
  destruct (extra_key_image_unlock (extra tx)) as [u|] eqn:Hu; [cbn [mbind option_bind]|done].
  destruct (find_contribution _ _) as [c|] eqn:Hc; [|done].
  destruct (_ && _ && _); [done|]. destruct (check_signature _ _ _) eqn:Hs; [|done].
  intros [= <-]. apply find_contribution_elem in Hc as [Hki (who & Hw & Hcw)].
  split; [done|]. exists key, info, u, c, who. done.
Qed.

End Unlock.

(** An accepted unlock request names a registered node without a pending unlock and is
    signed for a contribution of one of its contributors; it schedules the unlock after the
    network's unlock period and changes nothing else; and every later request for the same
    node, by any contributor, is refused and changes nothing. *)
Theorem unlock_once check_signature nt conf v h tx st st' :
  get_config nt = Some conf -> 0 < h < 2 ^ 40 ->
  process_key_image_unlock_tx check_signature nt v h tx st = Some (true, st') ->
  exists key,
    unlocked check_signature conf v h tx st st' key /\
    forall nt' v' h' tx', extra_service_node_pubkey (extra tx') = Some key ->
      process_key_image_unlock_tx check_signature nt' v' h' tx' st' = Some (false, st').
Proof.
  intros Hconf Hh Hp. destruct (unlock_accepted _ _ _ _ _ _ _ _ Hconf Hp) as [_ [key Hun]].
  exists key. split; [done|]. intros nt' v' h' tx' Hkey.
  destruct Hun as (info & u & c & who & _ & _ & _ & _ & _ & _ & _ & _ & ->).
  unfold process_key_image_unlock_tx. rewrite Hkey. cbn [service_nodes_infos with_infos].
  rewrite lookup_insert_eq. cbn [requested_unlock_height with_unlock].
  assert (Hpos : 0 <= BLOCKS_IN conf (UNLOCK_DURATION conf) < 2 ^ 40)
    by (clear - Hconf; destruct nt; inversion Hconf; subst; by vm_compute).
  rewrite u64_small by (unfold is_u64; lia).
  rewrite (proj2 (Z.eqb_neq _ _)) by lia. by destruct (_ <=? _).
Qed.

Definition demo_unlock_tx (image : Z) : transaction :=
  Transaction txtype_key_image_unlock [] no_outputs
    (TxExtra (fun _ => None) (Some [2])
       (Some (KeyImageUnlock [image] ([9] ++ generate_request_stake_unlock_hash 7) 7))
       None None None None None).

Lemma unlock_once_witness :
  exists st',
    process_key_image_unlock_tx demo_check MAINNET hf18 500 (demo_unlock_tx 11) (demo_state 499)
    = Some (true, st') /\
    process_key_image_unlock_tx demo_check MAINNET hf18 501 (demo_unlock_tx 10) st' = Some (false, st').
Proof.
  destruct (process_key_image_unlock_tx demo_check MAINNET hf18 500 (demo_unlock_tx 11)
              (demo_state 499)) as [[[] st']|] eqn:E; [|vm_compute in E; discriminate E..].
  exists st'. split; [done|].
  destruct (unlock_once demo_check MAINNET mainnet_config hf18 500 (demo_unlock_tx 11)
              (demo_state 499) st' ltac:(done) ltac:(lia) E) as (key & Hun & Hagain).
  apply Hagain. destruct Hun as (info & u & c & who & Hk & _). exact Hk.
Defined.

(** ** Uptime proofs *)

(** The session router's version never decides: the check reads the storage server's. *)
Lemma session_router_version_unread netconf vers p mins :
  proof_versions_ok netconf vers p mins
  = proof_versions_ok netconf vers
      (mkProof (p_version p) (p_storage_server_version p) (0, 0, 0) (p_lokinet_version p)
         (p_timestamp p) (p_pubkey_ed25519 p) (p_sig_ed25519 p) (p_pubkey_bls p) (p_pop_bls p)
         (p_l2_height p) (p_public_ip p) (p_storage_https_port p) (p_storage_omq_port p)
         (p_qnet_port p) (p_version_tag p) (p_proof_hash p)) mins.
Proof. done. Qed.

Section UptimeProofFacts.
Context (fk : list hard_fork).
Context (to_curve : bytes -> option bytes).
Context (ed_verify : bytes -> bytes -> bytes -> bool).
Context (bls_verify : network_type -> bytes -> bytes -> bytes -> bool).
Context (local_ips : bool).

Let handle := handle_uptime_proof fk to_curve ed_verify bls_verify local_ips.

Lemma store_proof_timestamp nl key pi :
  proofs nl !! key = Some pi -> pi_timestamp (proof_of (store_proof nl key) key) = pi_timestamp pi.
Proof.
  intros Hpi. unfold store_proof, proof_of. rewrite Hpi. cbn [default].
  cbn. destruct (db_is_read_only nl); cbn; rewrite lookup_insert_eq; cbn; by destruct (pi_proof pi).
Qed.

Lemma store_proof_nettype nl key : nl_nettype (store_proof nl key) = nl_nettype nl.
Proof.
  unfold store_proof. destruct (pi_proof _); cbn; by destruct (db_is_read_only nl).
Qed.

(** After an accepted proof, the node's entry carries the time of acceptance. *)
Lemma accepted_timestamp my_key notifier height now p st nl o :
  handle my_key notifier height now p st nl = Some o -> po_accepted o = true ->
  nl_nettype (po_list o) = nl_nettype nl /\
  is_Some (service_nodes_infos st !! p_pubkey_ed25519 p) /\
  pi_timestamp (proof_of (po_list o) (p_pubkey_ed25519 p)) = now / 1000000000.
Proof.
  unfold handle, handle_uptime_proof. destruct (get_config _) as [conf|]; [|done].
  cbn [mbind option_bind]. destruct (check_proof _ _ _ _ _ _ _ _ _ _) as [derived|]; [|by intros [= <-]].
  set (key := p_pubkey_ed25519 p).
  destruct (service_nodes_infos st !! key) as [info|] eqn:Hi; [|by intros [= <-]].
  destruct (proof_too_soon _ _ _ _ _); [by intros [= <-]|].
  destruct (update _ _ _ _ _) as [pi [updated contact]] eqn:Hu. intros [= <-] _. cbn [po_list].
  assert (Ht : pi_timestamp pi = now / 1000000000) by (unfold update in Hu; by inversion Hu).
  split_and!; [|by eexists|].
  - destruct updated; cbn; [by rewrite store_proof_nettype|done].
  - destruct updated.
    + rewrite <- Ht, <- (store_proof_timestamp (set_proof (set_proof nl key (proof_of nl key)) key pi)
                           key pi); [done | apply lookup_insert_eq].
    + unfold proof_of. cbn. by rewrite lookup_insert_eq.
Qed.

(** At most one uptime proof of a node is accepted per half proof period: once one is
    accepted at [now], every other proof with the same key that arrives until half the
    period has passed is refused (on every network but the local development one),
    whatever it contains, and neither the address notifier nor the database is touched. *)
Theorem uptime_proof_rate_limit my_key notifier height now p st nl o conf
    my_key' notifier' height' now' p' st' :
  get_config (nl_nettype nl) = Some conf -> is_localdev (NETWORK_TYPE conf) = false ->
  handle_uptime_proof fk to_curve ed_verify bls_verify local_ips my_key notifier height now p st nl
  = Some o -> po_accepted o = true ->
  p_pubkey_ed25519 p' = p_pubkey_ed25519 p ->
  now' <= seconds (now / 1000000000 + UPTIME_PROOF_FREQUENCY conf ÷ 2) ->
  exists o',
    handle_uptime_proof fk to_curve ed_verify bls_verify local_ips my_key' notifier' height' now' p'
      st' (po_list o) = Some o' /\
    po_accepted o' = false /\ po_notified o' = false /\ po_confirmation o' = None /\
    proof_db (po_list o') = proof_db (po_list o).
Proof.
  intros Hconf Hlocal Ho Hacc Hkey Hnow.
  destruct (accepted_timestamp _ _ _ _ _ _ _ _ Ho Hacc) as (Hnt & _ & Ht).
  unfold handle_uptime_proof at 1. rewrite Hnt, Hconf. cbn [mbind option_bind].
  destruct (check_proof _ _ _ _ _ _ _ _ _ _) as [derived|]; [|by eexists].
  rewrite Hkey. destruct (service_nodes_infos st' !! _) as [info|]; [|by eexists].
  unfold proof_too_soon. rewrite Hlocal, Ht, (proj2 (Z.leb_le now' _))
    by (unfold seconds in *; lia).
  cbn [andb]. by eexists.
Qed.

End UptimeProofFacts.

Definition demo_proof : Proof :=
  mkProof (11, 6, 0) (2, 11, 1) (1, 0, 0) (0, 9, 14) 1700000000 [2] [7] (replicate 64 1)
    (replicate 128 1) 0 (octets 8 8 8 8) 22021 22020 22025 [] [5].
Definition demo_list : node_list := NodeList TESTNET false false ∅ ∅ ∅.

Lemma uptime_proof_rate_limit_witness :
  exists o o',
    handle_uptime_proof [] Some (fun _ _ _ => true) (fun _ _ _ _ => true) false (Some [9]) true 200000
      (seconds 1700000000) demo_proof (demo_state 5000) demo_list = Some o /\ po_accepted o = true /\
    handle_uptime_proof [] Some (fun _ _ _ => true) (fun _ _ _ _ => true) false (Some [9]) true 200001
      (seconds 1700000060) demo_proof (demo_state 5001) (po_list o) = Some o' /\ po_accepted o' = false.
Proof.
  destruct (handle_uptime_proof [] Some (fun _ _ _ => true) (fun _ _ _ _ => true) false (Some [9]) true
    200000 (seconds 1700000000) demo_proof (demo_state 5000) demo_list) as [o|] eqn:E;
    [|vm_compute in E; discriminate E].
  assert (Hacc : po_accepted o = true).
  { vm_compute in E. by injection E as <-. }
  destruct (uptime_proof_rate_limit [] Some (fun _ _ _ => true) (fun _ _ _ _ => true) false (Some [9])
    true 200000 (seconds 1700000000) demo_proof (demo_state 5000) demo_list o testnet_config (Some [9])
    true 200001 (seconds 1700000060) demo_proof (demo_state 5001))
    as (o' & Ho' & Hr & _); [done | done | exact E | exact Hacc | done | by vm_compute |].
  by exists o, o'.
Defined.
