(* ===== verification/QuorumCop.v ===== *)
(** * The quorum cop

    [cryptonote_core/service_node_quorum_cop.{h,cpp}]: the tests a quorum member runs on
    the tested nodes, the vote each outcome leads to, the heights it votes on, and the
    state change transaction and checkpoint it assembles from the votes in the pool.  The
    clocks, the chain's block timestamps and the L2 height are arguments; logging and the
    report on one's own node are not modelled. *)
From S2P Require Import Prelude Hardfork Config Address Rules Voting Transactions VotingPool NodeProof ServiceNode NodeList.
From stdpp Require Import gmap.
#[local] Open Scope Z_scope.

(** ** Testing a node *)

Record service_node_test_results := TestResults {
  uptime_proved : bool;
  single_ip : bool;
  checkpoint_participation : bool;
  pulse_participation : bool;
  timestamp_participation : bool;
  timesync_status : bool;
  storage_server_reachable : bool;
  lokinet_reachable : bool;
  recent_l2_height : bool;
  failed_transition : bool;
}.

Definition passed (r : service_node_test_results) : bool :=
  negb (failed_transition r) && uptime_proved r && checkpoint_participation r
  && pulse_participation r && timestamp_participation r && timesync_status r
  && storage_server_reachable r && lokinet_reachable r && recent_l2_height r.

Definition IP_CHANGE_WINDOW : Z := 24 * 3600.
Definition IP_CHANGE_BUFFER : Z := 2 * 3600.
Definition L2_HEIGHT_DELAY_THRESHOLD : Z := 3600000 / 250.

(** What the checks read besides the node's record: [std::time] in seconds, the system and
    steady clocks in nanoseconds, the timestamps of the chain's blocks and the L2 height the
    tracker is synced to, if there is a tracker. *)
Record environment := Environment {
  env_time : Z;
  env_system_now : Z;
  env_steady_now : Z;
  env_block_timestamp : Z -> option Z;
  env_l2_synced : option Z;
}.

(** A participation history fails a node only when its window is full. *)
Definition history_fails {A} `{Passable A} (h : participation_history A) (missable : Z) : bool :=
  (history_max_size h <=? history_size h) && (missable <? history_failures h).

(** [check_service_node]; the proof record is [None] when nothing is known about the node,
    and the result is [None] where a record without a proof would be dereferenced. *)
Definition check_service_node (netconf : network_config) (env : environment) (hf_version : hf)
    (proof : option proof_info) (info : service_node_info) : option service_node_test_results :=
  let unreachable_threshold :=
    seconds (UPTIME_PROOF_VALIDITY netconf - UPTIME_PROOF_FREQUENCY netconf) in
  let failed_transition := (feature_ETH_BLS <=? hf_version) && (length (contributors info) =? 0)%nat in
  '(pi, l2_height, proof_age) ←
    match proof with
    | None => Some (None, 0, 0)
    | Some pi =>
        p ← pi_proof pi;
        let proof_timestamp := seconds (p_timestamp p) in
        Some (Some pi, p_l2_height p,
              if env_system_now env <? proof_timestamp then 0
              else Z.quot (env_system_now env - proof_timestamp) 1000000000)
    end;
  let get {B} (f : proof_info -> B) (d : B) : B := from_option f d pi in
  let ss_ok := get (fun p => negb (unreachable_for (pi_ss_reachable p) unreachable_threshold
                                     (env_steady_now env))) true in
  let lokinet_ok := get (fun p => negb (unreachable_for (pi_lokinet_reachable p)
                                          unreachable_threshold (env_steady_now env))) true in
  let timestamp := get (fun p => Z.max (pi_timestamp p) (pi_effective_timestamp p)) 0 in
  let '((ip0, t0), (ip1, t1)) := get pi_public_ips ((0, 0), (0, 0)) in
  let since_proof := s64 (u64 (env_time env - timestamp)) in
  let single_ip :=
    if negb (ip0 =? 0) && negb (ip1 =? 0) then
      match env_block_timestamp env (last_ip_change_height info) with
      | Some ts =>
          let find_ips_used_since :=
            Z.max (u64 (env_time env - IP_CHANGE_WINDOW)) (u64 (ts + IP_CHANGE_BUFFER)) in
          negb ((find_ips_used_since <? t0) && (find_ips_used_since <? t1))
      | None => true
      end
    else true in
  let recent_l2_height :=
    match env_l2_synced env with
    | Some synced =>
        if feature_ETH_BLS <=? hf_version then
          let m := synced - Z.min (u64 (Z.quot (proof_age * 1000) 250)) synced in
          let m := m - Z.min L2_HEIGHT_DELAY_THRESHOLD m in
          negb (l2_height <? m)
        else true
    | None => true
    end in
  let working := negb (is_decommissioned info) in
  let missed {A} `{Passable A} (f : proof_info -> participation_history A) missable :=
    working && get (fun p => history_fails (f p) missable) false in
  Some
    {| uptime_proved := negb (UPTIME_PROOF_VALIDITY netconf <? since_proof);
       single_ip := single_ip;
       checkpoint_participation := negb (missed pi_checkpoint_participation CHECKPOINT_MAX_MISSABLE_VOTES);
       pulse_participation := negb (missed pi_pulse_participation PULSE_MAX_MISSABLE_VOTES);
       timestamp_participation := negb (missed pi_timestamp_participation TIMESTAMP_MAX_MISSABLE_VOTES);
       timesync_status := negb (missed pi_timesync_status TIMESYNC_MAX_UNSYNCED_VOTES);
       storage_server_reachable := ss_ok || negb (HAVE_STORAGE_SERVER netconf);
       lokinet_reachable :=
         lokinet_ok || negb ((hf19_reward_batching <=? hf_version) && HAVE_LOKINET netconf);
       recent_l2_height := recent_l2_height;
       failed_transition := failed_transition |}.

(** ** The vote an outcome leads to *)

Definition missed_uptime_proof : Z := 1.
Definition missed_checkpoints : Z := 2.
Definition missed_pulse_participations : Z := 4.
Definition storage_server_unreachable : Z := 8.
Definition timestamp_response_unreachable : Z := 16.
Definition timesync_status_out_of_sync : Z := 32.
Definition lokinet_unreachable : Z := 64.
Definition l2_height_out_of_sync : Z := 128.
Definition reason_failed_transition : Z := 256.

Definition reason_bits (r : service_node_test_results) : Z :=
  let bit (failed : bool) (b : Z) (reason : Z) := if failed then Z.lor reason b else reason in
  bit (failed_transition r) reason_failed_transition
    (bit (negb (recent_l2_height r)) l2_height_out_of_sync
    (bit (negb (timesync_status r)) timesync_status_out_of_sync
    (bit (negb (timestamp_participation r)) timestamp_response_unreachable
    (bit (negb (lokinet_reachable r)) lokinet_unreachable
    (bit (negb (storage_server_reachable r)) storage_server_unreachable
    (bit (negb (pulse_participation r)) missed_pulse_participations
    (bit (negb (checkpoint_participation r)) missed_checkpoints
    (bit (negb (uptime_proved r)) missed_uptime_proof 0)))))))).

(** Lokinet reachability is tested but not held against the node. *)
Definition ignore_lokinet (r : service_node_test_results) : service_node_test_results :=
  TestResults (uptime_proved r) (single_ip r) (checkpoint_participation r) (pulse_participation r)
    (timestamp_participation r) (timesync_status r) (storage_server_reachable r) true
    (recent_l2_height r) (failed_transition r).

(** The state to vote for with its reason, or [None] to abstain; before the hard fork grace
    period and the cap on deactivations. *)
Definition choose_vote (nettype : network_type) (netconf : network_config) (latest_height : Z)
    (r : service_node_test_results) (info : service_node_info) : option (option (Z * Z)) :=
  if passed r then
    Some (if is_decommissioned info then Some (recommission, 0)
          else if negb (single_ip r) then Some (ip_change_penalty, 0)
          else None)
  else
    credit ← calculate_decommission_credit nettype info latest_height;
    Some (if is_decommissioned info then
            if 0 <=? credit then None else Some (deregister, reason_bits r)
          else if BLOCKS_IN netconf DECOMMISSION_MINIMUM <=? credit
          then Some (decommission, reason_bits r)
          else Some (deregister, reason_bits r)).

(** No deregistration shortly after the current hard fork began, except of a node without
    stake.  [fork_height] is the first height of the block's hard fork, which is
    dereferenced for deregistrations only. *)
Definition in_grace_period (netconf : network_config) (height : Z) (fork_height : option Z)
    (info : service_node_info) (state : Z) : option bool :=
  if state =? deregister then
    first ← fork_height;
    Some ((u64 (height - first) <? HARDFORK_DEREGISTRATION_GRACE_PERIOD netconf)
          && negb (staking_requirement info =? 0))
  else Some false.

Definition deactivates (info : service_node_info) (state : Z) : bool :=
  is_active info && ((state =? deregister) || (state =? decommission)).

(** A vote on the worker at an index of the quorum. *)
Record worker_vote := WorkerVote { wv_index : Z; wv_state : Z; wv_reason : Z; wv_info : service_node_info }.

Section Workers.
Context (nettype : network_type) (netconf : network_config) (fork_height : option Z).
Context (height latest_height obligations_height : Z).
(** [check_service_node] on the key and record of a worker. *)
Context (check : bytes -> service_node_info -> option service_node_test_results).

(** The body of the loop for one worker: its vote, if any, and the new count of
    deactivations. *)
Definition test_worker (index : Z) (key : bytes) (info : service_node_info) (deactivate_count : Z)
    : option (option worker_vote * Z) :=
  if negb (can_be_voted_on info obligations_height) then Some (None, deactivate_count)
  else
    r ← check key info;
    choice ← choose_vote nettype netconf latest_height (ignore_lokinet r) info;
    match choice with
    | None => Some (None, deactivate_count)
    | Some (state, reason) =>
        grace ← in_grace_period netconf height fork_height info state;
        Some (if grace : bool then (None, deactivate_count)
              else if deactivates info state then
                let deactivate_count := u64 (deactivate_count + 1) in
                if MAX_DEACTIVATE_PER_BLOCK netconf <? deactivate_count
                then (None, deactivate_count)
                else (Some (WorkerVote index state reason info), deactivate_count)
              else (Some (WorkerVote index state reason info), deactivate_count))
    end.

(** The loop over the quorum's workers (those from [index] on are [ws]) and the iterator over
    [states], the records of the workers that are still registered.  [seeking] tells that
    the inner [while] is skipping workers; [None] is reached where the code dereferences the
    end iterator or reads past the workers. *)
Fixpoint worker_loop (ws : list bytes) (index : Z) (states : list (bytes * service_node_info))
    (seeking : bool) (deactivate_count : Z) : option (list worker_vote) :=
  match ws with
  | [] => if seeking then None else Some []
  | w :: rest =>
      match states with
      | [] => None
      | (key, info) :: states' =>
          if bool_decide (key = w) then
            '(vote, deactivate_count) ← test_worker index key info deactivate_count;
            votes ← worker_loop rest (index + 1) states' false deactivate_count;
            Some (match vote with Some v => v :: votes | None => votes end)
          else worker_loop rest (index + 1) states true deactivate_count
      end
  end.

End Workers.

(** [get_service_node_list_state] for a non-empty list of keys. *)
Definition get_service_node_list_state (st : state_t) (keys : list bytes)
    : list (bytes * service_node_info) :=
  omap (fun k => (fun i => (k, i)) <$> service_nodes_infos st !! k) keys.

Definition find_index_in_quorum_group (group : list bytes) (my_pubkey : bytes) : Z :=
  match list_find (fun k => k = my_pubkey) group with
  | Some (i, _) => Z.of_nat i
  | None => -1
  end.

(** ** The loop over the workers *)

Section WorkerFacts.
Context (nettype : network_type) (netconf : network_config) (fork_height : option Z).
Context (height latest_height obligations_height : Z).
Context (check : bytes -> service_node_info -> option service_node_test_results).
Context (st : state_t).

Abbreviation test := (test_worker nettype netconf fork_height height latest_height obligations_height check).
Abbreviation loop := (worker_loop nettype netconf fork_height height latest_height obligations_height check).

Lemma states_cons_some w ws i :
  service_nodes_infos st !! w = Some i ->
  get_service_node_list_state st (w :: ws) = (w, i) :: get_service_node_list_state st ws.
Proof. intros E. unfold get_service_node_list_state. cbn. by rewrite E. Qed.

Lemma states_cons_none w ws :
  service_nodes_infos st !! w = None ->
  get_service_node_list_state st (w :: ws) = get_service_node_list_state st ws.
Proof. intros E. unfold get_service_node_list_state. cbn. by rewrite E. Qed.

Lemma states_registered ws k i :
  (k, i) ∈ get_service_node_list_state st ws -> k ∈ ws /\ service_nodes_infos st !! k = Some i.
Proof.
  unfold get_service_node_list_state. intros (k' & Hk & E)%list_elem_of_omap.
  destruct (service_nodes_infos st !! k') eqn:Hi; cbn in E; [|done]. by simplify_eq.
Qed.

Definition last_gone (ws : list bytes) : Prop :=
  exists w, last ws = Some w /\ service_nodes_infos st !! w = None.

Lemma states_nil_last_gone w ws :
  get_service_node_list_state st (w :: ws) = [] -> last_gone (w :: ws).
Proof.
  revert w. induction ws as [|w' ws IH]; intros w E.
  - exists w. split; [done|]. destruct (service_nodes_infos st !! w) eqn:Hw; [|done].
    by rewrite (states_cons_some _ _ _ Hw) in E.
  - destruct (service_nodes_infos st !! w) eqn:Hw; [by rewrite (states_cons_some _ _ _ Hw) in E|].
    rewrite (states_cons_none _ _ Hw) in E. destruct (IH _ E) as (x & Hx & Hg).
    exists x. split; [|done]. rewrite last_cons. by rewrite Hx.
Qed.

Lemma last_gone_cons w ws : ws <> [] -> last_gone (w :: ws) <-> last_gone ws.
Proof.
  intros Hne. unfold last_gone. rewrite last_cons.
  destruct (last ws) eqn:E; [done|]. by apply last_None in E.
Qed.

Lemma loop_gone ws index seeking dc :
  (forall k i n d, test n k i d <> None) ->
  loop ws index (get_service_node_list_state st ws) seeking dc = None <->
  (ws = [] /\ seeking = true) \/ last_gone ws.
Proof.
  intros Htest. revert index seeking dc.
  induction ws as [|w ws IH]; intros index seeking dc.
  { cbn. destruct seeking; [naive_solver|]. split; [done|]. intros [[_ ?]|(? & ? & _)]; done. }
  destruct (service_nodes_infos st !! w) as [i|] eqn:Hw.
  - rewrite (states_cons_some _ _ _ Hw). cbn [worker_loop]. rewrite bool_decide_eq_true_2 by done.
    destruct (test index w i dc) as [[v d]|] eqn:Ht; [|by apply Htest in Ht]. cbn [mbind option_bind].
    destruct (decide (ws = [])) as [->|Hne].
    { cbn. split; [done|]. intros [[? _]|(? & [= <-] & ?)]; congruence. }
    rewrite (last_gone_cons w ws Hne). specialize (IH (index + 1) false d).
    destruct (loop ws _ _ false d) as [votes|]; cbn [mbind option_bind]; naive_solver.
  - rewrite (states_cons_none _ _ Hw). cbn [worker_loop].
    destruct (get_service_node_list_state st ws) as [|[k i] states] eqn:Es.
    + split; [|done]. intros _. right. apply states_nil_last_gone. by rewrite states_cons_none.
    + destruct (states_registered ws k i) as [_ Hk]; [rewrite Es; set_solver|].
      rewrite bool_decide_eq_false_2 by congruence. rewrite <- Es in IH |- *.
      rewrite IH, last_gone_cons by (by intros ->). split; [|naive_solver].
      intros [[-> _]|?]; [done | by right].
Qed.

(** What each vote of the loop is about. *)
Definition vote_sound (ws : list bytes) (index : Z) (v : worker_vote) : Prop :=
  exists k, ws !! Z.to_nat (wv_index v - index) = Some k /\ index <= wv_index v /\
    service_nodes_infos st !! k = Some (wv_info v) /\
    can_be_voted_on (wv_info v) obligations_height = true /\
    forall h, node_step h (wv_state v) (status (wv_info v)) <> None.

Definition deactivations (votes : list worker_vote) : Z :=
  Z.of_nat (length (filter (fun v => deactivates (wv_info v) (wv_state v) = true) votes)).

Lemma choose_vote_applicable r info state reason :
  choose_vote nettype netconf latest_height r info = Some (Some (state, reason)) ->
  forall h, node_step h state (status info) <> None.
Proof.
  unfold choose_vote, status. intros E h.
  destruct (passed r); [|destruct (calculate_decommission_credit _ _ _); cbn in E; [|done]];
    destruct (is_decommissioned info); repeat case_match; simplify_eq; done.
Qed.

Lemma test_worker_spec index k info dc v dc' :
  0 <= dc < UINT64_MAX -> test index k info dc = Some (v, dc') ->
  dc <= dc' <= dc + 1 /\
  (forall w, v = Some w ->
     wv_index w = index /\ wv_info w = info /\ can_be_voted_on info obligations_height = true /\
     (forall h, node_step h (wv_state w) (status info) <> None) /\
     (deactivates info (wv_state w) = true -> dc' = dc + 1 /\ dc + 1 <= MAX_DEACTIVATE_PER_BLOCK netconf)).
Proof.
  unfold UINT64_MAX. intros Hdc. unfold test_worker.
  destruct (can_be_voted_on info obligations_height); cbn [negb];
    [|intros [= <- <-]; split; [lia | done]].
  destruct (check k info) as [r|]; [cbn [mbind option_bind]|done].
  destruct (choose_vote _ _ _ _ _) as [[[state reason]|]|] eqn:Hc; cbn [mbind option_bind];
    [|intros [= <- <-]; split; [lia | done]|done].
  pose proof (choose_vote_applicable _ _ _ _ Hc) as Happ.
  destruct (in_grace_period _ _ _ _ _) as [[]|]; cbn [mbind option_bind];
    [intros [= <- <-]; split; [lia | done]| |done].
  rewrite u64_small by (unfold is_u64; lia).
  destruct (deactivates info state) eqn:Hd.
  - destruct (Z.ltb_spec (MAX_DEACTIVATE_PER_BLOCK netconf) (dc + 1)); intros [= <- <-];
      (split; [lia|]); intros w; [done|]. intros [= <-]. cbn. done.
  - intros [= <- <-]. split; [lia|]. intros w [= <-]. cbn. split_and!; try done. congruence.
Qed.

Lemma vote_sound_cons w ws index v : vote_sound ws (index + 1) v -> vote_sound (w :: ws) index v.
Proof.
  intros (k & Hk & Hi & H). exists k. split_and!; try (apply H || lia).
  replace (Z.to_nat (wv_index v - index)) with (S (Z.to_nat (wv_index v - (index + 1)))) by lia. done.
Qed.

Lemma loop_sound ws index seeking dc votes :
  0 <= dc -> dc + Z.of_nat (length ws) < UINT64_MAX ->
  loop ws index (get_service_node_list_state st ws) seeking dc = Some votes ->
  Forall (vote_sound ws index) votes /\ StronglySorted Z.lt (wv_index <$> votes) /\
  deactivations votes <= Z.max 0 (MAX_DEACTIVATE_PER_BLOCK netconf - dc).
Proof.
  revert index seeking dc votes. induction ws as [|w ws IH]; intros index seeking dc votes Hdc Hlen.
  { cbn. destruct seeking; [done|]. intros [= <-]. split_and!; [constructor.. | unfold deactivations; cbn; lia]. }
  cbn [length] in Hlen. destruct (service_nodes_infos st !! w) as [i|] eqn:Hw.
  - rewrite (states_cons_some _ _ _ Hw). cbn [worker_loop]. rewrite bool_decide_eq_true_2 by done.
    destruct (test index w i dc) as [[v d]|] eqn:Ht; [cbn [mbind option_bind]|done].
    destruct (test_worker_spec index w i dc v d ltac:(lia) Ht) as [Hd Hv].
    destruct (loop ws (index + 1) _ false d) as [vs|] eqn:Hl; [cbn [mbind option_bind]|done].
    destruct (IH (index + 1) false d vs ltac:(lia) ltac:(lia) Hl) as (Hs & Hsort & Hcount).
    assert (Hs' : Forall (vote_sound (w :: ws) index) vs)
      by (eapply Forall_impl; [exact Hs | intros; by apply vote_sound_cons]).
    intros [= <-]. destruct v as [wv|]; [|split_and!; [done.. | lia]].
    destruct (Hv wv eq_refl) as (Hidx & Hinfo & Hcan & Happ & Hmax). split_and!.
    + constructor; [|done]. exists w. rewrite Hidx, Z.sub_diag, Hinfo. done.
    + cbn. constructor; [done|]. rewrite Forall_fmap. eapply Forall_impl; [exact Hs|].
      intros x (? & _ & ? & _). cbn. lia.
    + unfold deactivations in *. rewrite filter_cons. rewrite Hinfo.
      destruct (decide _) as [Hde|Hde]; cbn [length]; [specialize (Hmax Hde)|]; lia.
  - rewrite (states_cons_none _ _ Hw). cbn [worker_loop].
    destruct (get_service_node_list_state st ws) as [|[k i] states] eqn:Es; [done|].
    destruct (states_registered ws k i) as [_ Hk]; [rewrite Es; set_solver|].
    rewrite bool_decide_eq_false_2 by congruence. rewrite <- Es. intros Hl.
    rewrite <- Es in IH. destruct (IH (index + 1) true dc votes ltac:(lia) ltac:(lia) Hl) as (Hs & ? & ?).
    split_and!; try done. eapply Forall_impl; [exact Hs | intros; by apply vote_sound_cons].
Qed.

End WorkerFacts.

Lemma test_worker_total nettype netconf fork_height height latest oh check :
  get_config nettype = Some netconf -> is_Some fork_height -> (forall k i, check k i <> None) ->
  forall k i n d,
    test_worker nettype netconf fork_height height latest oh check n k i d <> None.
Proof.
  intros Hconf [f ->] Hcheck k i n d. unfold test_worker.
  destruct (can_be_voted_on i oh); cbn [negb]; [|done].
  destruct (check k i) as [r|] eqn:E; [cbn [mbind option_bind]|by apply Hcheck in E].
  destruct (choose_vote _ _ _ _ _) as [[[state reason]|]|] eqn:Ec; cbn [mbind option_bind]; [|done|].
  { unfold in_grace_period. by destruct (state =? deregister). }
  unfold choose_vote in Ec. destruct (passed _); [done|].
  unfold calculate_decommission_credit in Ec. by rewrite Hconf in Ec.
Qed.

(** (C33) A quorum member's votes on the tested nodes: each is on a worker that is still
    registered and may be voted on at the quorum's height, for a state its life cycle
    allows, in the order of the workers; and at most the network's maximum of them
    deactivate an active node.  The loop is defined exactly when the last worker of the
    quorum is still registered; otherwise it runs its iterator past the end. *)
Theorem worker_votes_sound nettype netconf fork_height height latest oh check st ws :
  get_config nettype = Some netconf -> is_Some fork_height -> (forall k i, check k i <> None) ->
  Z.of_nat (length ws) < UINT64_MAX ->
  let run := worker_loop nettype netconf fork_height height latest oh check ws 0
               (get_service_node_list_state st ws) false 0 in
  (run = None <-> last_gone st ws) /\
  (forall votes, run = Some votes ->
     Forall (vote_sound oh st ws 0) votes /\ StronglySorted Z.lt (wv_index <$> votes) /\
     deactivations votes <= MAX_DEACTIVATE_PER_BLOCK netconf).
Proof.
  intros Hconf Hfork Hcheck Hlen run. split.
  - unfold run. rewrite loop_gone by (by apply test_worker_total). naive_solver.
  - intros votes Hrun. apply loop_sound in Hrun as (Hs & Hsort & Hd); [|lia..]. split_and!; try done.
    assert (0 <= MAX_DEACTIVATE_PER_BLOCK netconf); [|lia].
    clear - Hconf. destruct nettype; inversion Hconf; by vm_compute.
Qed.

(** Three workers, of which the first has left; the others fail their tests, and only one of them may be deactivated. *)
Definition demo_results (proved : bool) : service_node_test_results :=
  TestResults proved true true true true true true true true false.
Definition demo_nodes : state_t :=
  State (<[[2] := demo_info]> {[ [3] := demo_info ]}) [] ∅ ∅ 5000 demo_quorums [] 0 [] [] [].

Lemma worker_votes_sound_witness :
  exists votes,
    worker_loop MAINNET mainnet_config (Some 0) 200000 200000 1000 (fun k _ => Some (demo_results false))
      (demo_keys 3) 0 (get_service_node_list_state demo_nodes (demo_keys 3)) false 0 = Some votes /\
    wv_index <$> votes = [1] /\ StronglySorted Z.lt (wv_index <$> votes).
Proof.
  destruct (worker_votes_sound MAINNET mainnet_config (Some 0) 200000 200000 1000
              (fun k _ => Some (demo_results false)) demo_nodes (demo_keys 3)) as [Hdef Hvotes];
    [done | done | done | by vm_compute |].
  destruct (worker_loop MAINNET mainnet_config (Some 0) 200000 200000 1000
              (fun k _ => Some (demo_results false)) (demo_keys 3) 0
              (get_service_node_list_state demo_nodes (demo_keys 3)) false 0) as [votes|] eqn:E.
  - destruct (Hvotes votes eq_refl) as (_ & Hsort & _). exists votes. split; [done|]. split; [|done].
    vm_compute in E. by injection E as <-.
  - vm_compute in E. discriminate E.
Defined.

(** On the test network the maximum is zero: an active node is never voted out. *)
Lemma testnet_never_deactivates fork_height height latest oh check st ws votes :
  Z.of_nat (length ws) < UINT64_MAX ->
  worker_loop TESTNET testnet_config fork_height height latest oh check ws 0
    (get_service_node_list_state st ws) false 0 = Some votes ->
  deactivations votes = 0.
Proof.
  intros Hlen Hrun. apply loop_sound in Hrun as (_ & _ & Hd); [|lia..].
  change (MAX_DEACTIVATE_PER_BLOCK testnet_config) with 0 in Hd. unfold deactivations in *. lia.
Qed.

(** ** The heights that are voted on *)

(** [for (; h < bound; h += step)]: the heights visited and the final value; [fuel] bounds
    the number of iterations. *)
Fixpoint count_up (fuel : nat) (step bound h : Z) : list Z * Z :=
  match fuel with
  | O => ([], h)
  | S fuel =>
      if h <? bound then
        let '(l, h') := count_up fuel step bound (u64 (h + step)) in (h :: l, h')
      else ([], h)
  end.

Definition enough (bound h : Z) : nat := Z.to_nat (bound - h).

Definition reorg_safety_buffer (hf_version : hf) : Z :=
  if hf12_checkpointing <=? hf_version then REORG_SAFETY_BUFFER_BLOCKS_POST_HF12
  else REORG_SAFETY_BUFFER_BLOCKS_PRE_HF12.

(** The members [m_obligations_height], [m_last_checkpointed_height] and [m_vote_pool]. *)
Record quorum_cop := QuorumCop {
  m_obligations_height : Z;
  m_last_checkpointed_height : Z;
  m_vote_pool : voting_pool;
}.

Definition obligations_heights (hf_version : hf) (height start m : Z) : list Z * Z :=
  let bound := u64 (height - reorg_safety_buffer hf_version) in
  let m := Z.max m start in
  count_up (enough bound m) 1 bound m.

Definition start_checkpointing_height (start : Z) : Z :=
  if 0 <? start mod CHECKPOINT_INTERVAL
  then u64 (start + (CHECKPOINT_INTERVAL - start mod CHECKPOINT_INTERVAL)) else start.

Definition checkpoint_heights (height start m : Z) : list Z * Z :=
  let m := Z.max (start_checkpointing_height start) m in
  count_up (enough height m) CHECKPOINT_INTERVAL height m.

(** The bounds of the loops of [process_quorums] for a block: the obligations heights and the
    checkpoint heights it goes through, and the cop with its two heights advanced. *)
Definition quorum_heights (hf_version : hf) (height latest_height : Z) (voting_enabled : bool)
    (cop : quorum_cop) : quorum_cop * (list Z * list Z) :=
  if (hf_version <? hf9_service_nodes) || (latest_height <? VOTE_LIFETIME) then (cop, ([], []))
  else
    let start := latest_height - VOTE_LIFETIME in
    if height <? start then (cop, ([], []))
    else
      let '(obl, m_obl) := obligations_heights hf_version height start (m_obligations_height cop) in
      let '(chk, m_chk) :=
        match max_quorum_type_for_hf hf_version with
        | obligations => ([], m_last_checkpointed_height cop)
        | _ => if voting_enabled
               then checkpoint_heights height start (m_last_checkpointed_height cop)
               else ([], m_last_checkpointed_height cop)
        end in
      (QuorumCop m_obl m_chk (m_vote_pool cop), (obl, chk)).

Definition blockchain_detached (hf_version : hf) (height : Z) (cop : quorum_cop) : quorum_cop :=
  QuorumCop
    (if height <=? m_obligations_height cop then height else m_obligations_height cop)
    (if u64 (height + reorg_safety_buffer hf_version) <=? m_last_checkpointed_height cop
     then height - height mod CHECKPOINT_INTERVAL else m_last_checkpointed_height cop)
    (remove_expired_votes (m_vote_pool cop) height).

(** ** What is assembled from the pool's votes *)

(** The state change of [handle_obligations_vote]. *)
Definition state_change_of_votes (vote : quorum_vote_t) (votes : list pool_vote_entry)
    : tx_state_change :=
  let reason := sc_reason (state_change vote) in
  TxStateChange (sc_state (state_change vote)) (block_height vote) (worker_index (state_change vote))
    (foldl (fun r e => Z.land r (sc_reason (state_change (pv_vote e)))) reason votes)
    (foldl (fun r e => Z.lor r (sc_reason (state_change (pv_vote e)))) reason votes)
    ((fun e => ScVote (vote_signature (pv_vote e)) (pv_index e)) <$> votes).

(** [handle_obligations_vote]: the transaction it submits, if any. *)
Definition handle_obligations_vote (net : hf) (st : state_t) (vote : quorum_vote_t)
    (votes : list pool_vote_entry) (q : quorum) : option tx_state_change :=
  if Z.of_nat (length votes) <? STATE_CHANGE_MIN_VOTES_TO_CHANGE_STATE then None
  else
    key ← workers q !! Z.to_nat (worker_index (state_change vote));
    info ← service_nodes_infos st !! key;
    if can_transition_to_state info net (block_height vote) (sc_state (state_change vote))
    then Some (state_change_of_votes vote votes) else None.

(** [lower_bound] by voter and insertion unless present; returns whether it inserted. *)
Fixpoint add_signature (sigs : list quorum_signature) (index : Z) (sig : bytes)
    : list quorum_signature * bool :=
  match sigs with
  | [] => ([QuorumSignature index sig], true)
  | s :: rest =>
      if voter_index s <? index then
        let '(rest, added) := add_signature rest index sig in (s :: rest, added)
      else if negb (index =? voter_index s) then (QuorumSignature index sig :: sigs, true)
      else (sigs, false)
  end.

Definition voter_le (a b : quorum_signature) : Prop := voter_index a <= voter_index b.
#[global] Instance voter_le_dec : RelDecision voter_le.
Proof. intros a b. unfold voter_le. apply _. Defined.

#[global] Instance voter_le_trans : Transitive voter_le.
Proof. intros a b c. unfold voter_le. lia. Qed.
#[global] Instance voter_le_total : Total voter_le.
Proof. intros a b. unfold voter_le. lia. Qed.

(** [handle_checkpoint_vote]: the checkpoint it stores, if any.  [stored] is the checkpoint
    at the vote's height. *)
Definition handle_checkpoint_vote (stored : option checkpoint_t) (chain_height : Z)
    (vote : quorum_vote_t) (votes : list pool_vote_entry) : option checkpoint_t :=
  if Z.of_nat (length votes) <? CHECKPOINT_MIN_VOTES then None
  else
    let fresh :=
      if block_height vote <? chain_height then
        let c := make_empty_service_node_checkpoint (checkpoint_block_hash vote) (block_height vote) in
        Some (Checkpoint (cp_type c) (cp_height c) (cp_block_hash c)
                ((fun e => QuorumSignature (pv_index e) (vote_signature (pv_vote e))) <$> votes))
      else None in
    match stored with
    | Some c =>
        if bool_decide (cp_block_hash c = checkpoint_block_hash vote) then
          if negb (Z.of_nat (length (cp_signatures c)) =? CHECKPOINT_QUORUM_SIZE) then
            let sigs := merge_sort voter_le (cp_signatures c) in
            let '(sigs, update) :=
              foldl (fun '(sigs, update) e =>
                       let '(sigs, added) := add_signature sigs (pv_index e) (vote_signature (pv_vote e)) in
                       (sigs, update || added)) (sigs, false) votes in
            if update : bool
            then Some (Checkpoint (cp_type c) (cp_height c) (cp_block_hash c) sigs)
            else None
          else None
        else fresh
    | None => fresh
    end.

(** ** From verified votes to accepted transactions and checkpoints *)

Lemma sorted_nodup_strict (l : list Z) : StronglySorted Z.le l -> NoDup l -> StronglySorted Z.lt l.
Proof.
  induction 1 as [|x l Hs IH Hall]; intros Hnd; constructor; apply NoDup_cons in Hnd as [Hni Hnd]; [auto|].
  rewrite Forall_forall in Hall |- *. intros y Hy. specialize (Hall y Hy).
  assert (x <> y) by (by intros ->). lia.
Qed.

Lemma strict_nodup (l : list Z) : StronglySorted Z.lt l -> NoDup l.
Proof.
  induction 1 as [|x l Hs IH Hall]; constructor; [|done].
  intros Hx. rewrite Forall_forall in Hall. specialize (Hall x Hx). lia.
Qed.

Lemma strict_to_nat (l : list Z) :
  StronglySorted Z.lt l -> Forall (fun i => 0 <= i) l -> NoDup (Z.to_nat <$> l).
Proof.
  intros Hs Hn. apply NoDup_fmap_2_strong; [|by apply strict_nodup].
  intros x y Hx Hy E. rewrite Forall_forall in Hn. pose proof (Hn x Hx). pose proof (Hn y Hy). lia.
Qed.

Lemma bounded_nodup_length (l : list nat) n : NoDup l -> Forall (fun i => (i < n)%nat) l -> (length l <= n)%nat.
Proof.
  intros Hnd Hb. assert (Hsub : l ⊆+ seq 0 n).
  { apply NoDup_submseteq; [done|]. intros x Hx. rewrite Forall_forall in Hb.
    apply elem_of_seq. specialize (Hb x Hx). lia. }
  apply submseteq_length in Hsub. by rewrite length_seq in Hsub.
Qed.

Section Assemble.
Context (cn_fast_hash : bytes -> bytes).
Context (check_signature : bytes -> bytes -> bytes -> bool).

(** The vote passed [verify_vote_signature] against [q], as every vote of the pool does. *)
Definition verified (v : hf) (q : quorum) (vote : quorum_vote_t) : Prop :=
  0 <= index_in_group vote < 65536 /\
  exists vvc vvc', verify_vote_signature cn_fast_hash check_signature v vote vvc q = (true, vvc').

Lemma verified_signed v q vote :
  verified v q vote ->
  group vote = group_validator /\ index_in_group vote < Z.of_nat (length (validators q)) /\
  (vote_type vote = vote_obligations ->
   worker_index (state_change vote) < Z.of_nat (length (workers q)) /\
   check_signature (make_state_change_vote_hash cn_fast_hash (block_height vote)
       (worker_index (state_change vote)) (sc_state (state_change vote)))
     (validators q !!! Z.to_nat (index_in_group vote)) (vote_signature vote) = true) /\
  (vote_type vote = vote_checkpointing ->
   check_signature (checkpoint_block_hash vote)
     (validators q !!! Z.to_nat (index_in_group vote)) (vote_signature vote) = true).
Proof.
  intros (Hi & vvc & vvc' & Hv). unfold verify_vote_signature in Hv.
  destruct (quorum_type_top <? vote_type vote).
  { destruct (_ || _); cbn in Hv; congruence. }
  destruct (_ || _) eqn:Hg; [cbn in Hv; congruence|]. cbn [negb] in Hv.
  destruct (Z.eqb_spec (group vote) group_validator) as [Hgv|Hgv]; cbn [negb] in Hv.
  2: { destruct (bounds_check_worker_index _ _ _) as [[] ?]; cbn [negb] in Hv; [|congruence].
       repeat (case_match; simplify_eq); done. }
  unfold bounds_check_validator_index in Hv.
  destruct (Z.leb_spec (Z.of_nat (length (validators q))) (index_in_group vote)) as [Hle|Hlt];
    [cbn in Hv; congruence|]. cbn [negb] in Hv.
  split; [done|]. split; [done|].
  destruct (Z.eqb_spec (vote_type vote) vote_obligations) as [Ho|Ho]; cbn [orb] in Hv.
  - split; [|rewrite Ho; done]. intros _. unfold bounds_check_worker_index in Hv.
    destruct (Z.leb_spec (Z.of_nat (length (workers q))) (worker_index (state_change vote)));
      cbn [negb] in Hv; [congruence|]. split; [done|].
    destruct (check_signature _ _ _); [done | congruence].
  - split; [done|]. intros Hc. rewrite Hc, Z.eqb_refl in Hv. cbn [negb] in Hv.
    destruct (check_signature _ _ _); [done | congruence].
Qed.

(** The pool's votes for the target of [vote]: verified, one per voter, in order. *)
Definition pool_group (v : hf) (q : quorum) (vote : quorum_vote_t) (votes : list pool_vote_entry)
    : Prop :=
  votes_sorted votes /\
  Forall (fun e => verified v q (pv_vote e) /\ same_target (pv_vote e) vote) votes.

Lemma same_obligation e vote :
  same_target e vote -> vote_type vote = vote_obligations ->
  vote_type e = vote_obligations /\ block_height e = block_height vote /\
  worker_index (state_change e) = worker_index (state_change vote) /\
  sc_state (state_change e) = sc_state (state_change vote).
Proof. intros (Ht & Ho & _) Hv. rewrite Hv in Ht. injection (Ho Ht) as ? ? ?. done. Qed.

Lemma same_checkpoint e vote :
  same_target e vote -> vote_type vote = vote_checkpointing ->
  vote_type e = vote_checkpointing /\ checkpoint_block_hash e = checkpoint_block_hash vote.
Proof. intros (Ht & _ & Hc) Hv. rewrite Hv in Ht. injection (Hc Ht) as ? ?. done. Qed.

Lemma pool_group_indices v q vote votes :
  pool_group v q vote votes ->
  Forall (fun i => 0 <= i < Z.of_nat (length (validators q))) (pv_index <$> votes).
Proof.
  intros [_ Hall]. apply Forall_fmap. eapply Forall_impl; [exact Hall|].
  intros e (Hv & _). destruct (verified_signed _ _ _ Hv) as (_ & Hlt & _). destruct Hv as [? _].
  unfold compose, pv_index. lia.
Qed.

Lemma assemble_state_change v net q st vote votes sc latest tvc :
  (length (validators q) <= 10)%nat -> vote_type vote = vote_obligations ->
  pool_group v q vote votes -> handle_obligations_vote net st vote votes q = Some sc ->
  0 <= sc_state (state_change vote) < new_state_count -> hf12_checkpointing <= v ->
  0 <= block_height vote < latest -> latest < block_height vote + VOTE_LIFETIME < 2 ^ 63 ->
  verify_tx_state_change cn_fast_hash check_signature sc latest tvc q v = Some (true, tvc).
Proof.
  unfold new_state_count, VOTE_LIFETIME.
  intros Hq Htype Hgroup Hsc Hst Hv Hbh Hlat. unfold handle_obligations_vote in Hsc.
  unfold STATE_CHANGE_MIN_VOTES_TO_CHANGE_STATE in Hsc.
  destruct (Z.ltb_spec (Z.of_nat (length votes)) 7) as [|Hlen]; [done|].
  destruct (workers q !! _) as [key|] eqn:Hkey; [cbn [mbind option_bind] in Hsc|done].
  destruct (service_nodes_infos st !! key); [cbn [mbind option_bind] in Hsc|done].
  destruct (can_transition_to_state _ _ _ _); [|done]. injection Hsc as <-.
  pose proof (pool_group_indices _ _ _ _ Hgroup) as Hidx. destruct Hgroup as [Hsort Hall].
  assert (Hnn : Forall (fun i => 0 <= i) (pv_index <$> votes))
    by (eapply Forall_impl; [exact Hidx | cbn; lia]).
  assert (Hnat : NoDup (Z.to_nat <$> (pv_index <$> votes))) by by apply strict_to_nat.
  assert (Hlen10 : (length votes <= 10)%nat).
  { rewrite <- (length_fmap pv_index), <- (length_fmap Z.to_nat).
    apply (Nat.le_trans _ (length (validators q))); [|done]. apply bounded_nodup_length; [done|].
    apply Forall_fmap. eapply Forall_impl; [exact Hidx|]. unfold compose. lia. }
  assert (Hvotes : validator_index <$> tsc_votes (state_change_of_votes vote votes) = pv_index <$> votes)
    by (unfold state_change_of_votes; cbn; by rewrite <- list_fmap_compose).
  apply state_change_accepted_spec; cbn [state_change_of_votes tsc_votes tsc_block_height]; try lia.
  { apply Forall_fmap. rewrite Forall_fmap in Hidx. eapply Forall_impl; [exact Hidx|].
    unfold compose. cbn. lia. }
  rewrite length_fmap. cbn [state_change_of_votes tsc_state service_node_index].
  split_and!; try (done || lia).
  - destruct votes as [|e votes]; [cbn in Hlen; lia|]. apply Forall_cons in Hall as [He _].
    destruct He as [Hv' (Ht & _ & Hw & _)%same_obligation]; [|done]. rewrite <- Hw.
    destruct (verified_signed _ _ _ Hv') as (_ & _ & Ho & _). by apply Ho.
  - apply Forall_fmap. rewrite Forall_fmap in Hidx. apply (Forall_impl _ _ _ (proj2 (Forall_and _ _) (conj Hall Hidx))).
    intros e [[Hv' (Ht & Hh & Hw & Hs)%same_obligation] Hi]; [|done]. unfold compose in *.
    split; [exact Hi|].
    destruct (verified_signed _ _ _ Hv') as (_ & _ & Ho & _). destruct Ho as [_ Hsig]; [done|].
    by rewrite Hh, Hw, Hs in Hsig.
  - rewrite <- list_fmap_compose. by rewrite <- list_fmap_compose in Hnat.
  - intros _. unfold ascending. rewrite <- list_fmap_compose. constructor.
    + by apply StronglySorted_Sorted.
    + change (validator_index ∘ _) with pv_index. destruct votes as [|e votes]; constructor.
      cbn in Hnn. apply Forall_cons in Hnn as [? _]. lia.
Qed.

(** (C32) As soon as the pool holds seven verified votes for the same change, the transaction
    assembled from them passes verification against the same quorum: the votes collected
    one by one are enough for every other node to accept the result, as long as the voted
    height has not expired. *)
Theorem assembled_state_change_accepted v net q st vote votes sc latest tvc :
  (length (validators q) <= 10)%nat -> vote_type vote = vote_obligations ->
  pool_group v q vote votes -> handle_obligations_vote net st vote votes q = Some sc ->
  0 <= sc_state (state_change vote) < new_state_count -> hf12_checkpointing <= v ->
  0 <= block_height vote < latest -> latest < block_height vote + VOTE_LIFETIME < 2 ^ 63 ->
  verify_tx_state_change cn_fast_hash check_signature sc latest tvc q v = Some (true, tvc).
Proof. apply assemble_state_change. Qed.

(** Signatures in strictly ascending order of voters, each by a member of the quorum. *)
Definition signatures_ok (q : quorum) (hash : bytes) (sigs : list quorum_signature) : Prop :=
  StronglySorted Z.lt (voter_index <$> sigs) /\ Forall (sig_ok check_signature q checkpointing hash None) sigs.

Lemma add_signature_spec q hash sigs i sig :
  signatures_ok q hash sigs -> sig_ok check_signature q checkpointing hash None (QuorumSignature i sig) ->
  let sigs' := (add_signature sigs i sig).1 in
  signatures_ok q hash sigs' /\ (length sigs <= length sigs')%nat /\
  (forall b, b < i -> Forall (Z.lt b) (voter_index <$> sigs) -> Forall (Z.lt b) (voter_index <$> sigs')).
Proof.
  intros [Hs Hok] Hi. induction sigs as [|s sigs IH]; cbn [add_signature].
  { cbn. split; [split; repeat constructor; apply Hi | split; [lia|]]. by repeat constructor. }
  cbn in Hs. apply StronglySorted_inv in Hs as [Hs Hall]. apply Forall_cons in Hok as [Hsok Hok].
  destruct (Z.ltb_spec (voter_index s) i) as [Hlt|Hge].
  - specialize (IH Hs Hok). destruct (add_signature sigs i sig) as [sigs' a]. cbn in *.
    destruct IH as ([Hs' Hok'] & Hlen & Hb). split_and!; [split| |].
    + constructor; [done | by apply Hb].
    + by constructor.
    + lia.
    + intros b Hb1 Hb2. apply Forall_cons in Hb2 as [? ?]. constructor; [done | by apply Hb].
  - destruct (Z.eqb_spec i (voter_index s)) as [->|Hne]; cbn.
    + split_and!; [split; by constructor | lia | done].
    + split_and!; [split| lia |].
      * constructor; [by constructor|]. constructor; [cbn; lia|].
        eapply Forall_impl; [exact Hall|]. cbn. lia.
      * by constructor; [|constructor].
      * intros b ? Hb. by constructor.
Qed.

Lemma add_signatures_spec q hash votes sigs u :
  signatures_ok q hash sigs ->
  Forall (fun e => sig_ok check_signature q checkpointing hash None
                     (QuorumSignature (pv_index e) (vote_signature (pv_vote e)))) votes ->
  let r := foldl (fun '(sigs, update) e =>
             let '(sigs, added) := add_signature sigs (pv_index e) (vote_signature (pv_vote e)) in
             (sigs, update || added)) (sigs, u) votes in
  signatures_ok q hash r.1 /\ (length sigs <= length r.1)%nat.
Proof.
  intros Hs Hall. revert sigs u Hs. induction Hall as [|e votes He Hall IH]; intros sigs u Hs; [done|].
  cbn [foldl]. pose proof (add_signature_spec q hash sigs _ _ Hs He) as (Hs' & Hlen & _).
  destruct (add_signature sigs _ _) as [sigs' a]. cbn in Hs', Hlen.
  destruct (IH sigs' (u || a) Hs') as [? ?]. split; [done | cbn in *; lia].
Qed.

Lemma sorted_signatures q hash sigs :
  NoDup (Z.to_nat ∘ voter_index <$> sigs) ->
  Forall (sig_ok check_signature q checkpointing hash None) sigs ->
  signatures_ok q hash (merge_sort voter_le sigs) /\ length (merge_sort voter_le sigs) = length sigs.
Proof.
  intros Hnd Hok. assert (Hp := merge_sort_Permutation voter_le sigs). split; [split|].
  - apply sorted_nodup_strict.
    + assert (Hs : StronglySorted voter_le (merge_sort voter_le sigs)).
      { apply (StronglySorted_merge_sort _). }
      clear Hp. induction Hs as [|s l Hs IH Hall]; cbn; constructor; [done|]. by apply Forall_fmap.
    + apply (NoDup_fmap_1 Z.to_nat). rewrite <- list_fmap_compose. by rewrite Hp.
  - by rewrite Hp.
  - by rewrite Hp.
Qed.

Lemma signatures_ok_bound q hash sigs :
  (length (validators q) <= 20)%nat -> signatures_ok q hash sigs ->
  NoDup (Z.to_nat ∘ voter_index <$> sigs) /\ (length sigs <= 20)%nat.
Proof.
  intros Hq [Hs Hok].
  assert (Hidx : Forall (fun i => 0 <= i < Z.of_nat (length (validators q))) (voter_index <$> sigs))
    by (apply Forall_fmap; eapply Forall_impl; [exact Hok|]; intros s [? _]; done).
  assert (Hnd : NoDup (Z.to_nat <$> (voter_index <$> sigs)))
    by (apply strict_to_nat; [done|]; eapply Forall_impl; [exact Hidx|]; cbn; lia).
  split; [by rewrite <- list_fmap_compose in Hnd|].
  rewrite <- (length_fmap voter_index), <- (length_fmap Z.to_nat).
  apply (Nat.le_trans _ (length (validators q))); [|done]. apply bounded_nodup_length; [done|].
  apply Forall_fmap. eapply Forall_impl; [exact Hidx|]. unfold compose. lia.
Qed.

Lemma signatures_ok_verify v q hash sigs :
  (length (validators q) <= 20)%nat -> signatures_ok q hash sigs -> (13 <= length sigs)%nat ->
  verify_quorum_signatures check_signature q checkpointing v hash sigs None = true.
Proof.
  intros Hq Hs Hlen. destruct (signatures_ok_bound _ _ _ Hq Hs) as [Hnd H20]. destruct Hs as [Hs Hok].
  apply quorum_signatures_accepted_spec; [by left | done | done | |].
  - eapply Forall_impl; [exact Hok|]. intros s [? _]. lia.
  - split_and!; try done. intros _. split; [lia|]. intros _. by apply StronglySorted_Sorted.
Qed.

Lemma assemble_checkpoint v q stored chain_height vote votes c :
  (length (validators q) <= 20)%nat -> vote_type vote = vote_checkpointing ->
  block_height vote mod CHECKPOINT_INTERVAL = 0 -> pool_group v q vote votes ->
  (forall c0, stored = Some c0 -> cp_type c0 = service_node /\ cp_height c0 = block_height vote /\
     Forall (fun s => 0 <= voter_index s) (cp_signatures c0) /\
     verify_checkpoint check_signature v c0 q = true) ->
  handle_checkpoint_vote stored chain_height vote votes = Some c ->
  cp_type c = service_node /\ cp_height c = block_height vote /\
  cp_block_hash c = checkpoint_block_hash vote /\
  Forall (fun s => 0 <= voter_index s) (cp_signatures c) /\
  verify_checkpoint check_signature v c q = true.
Proof.
  intros Hq Htype Hh Hgroup Hstored Hc. pose proof (pool_group_indices _ _ _ _ Hgroup) as Hidx.
  destruct Hgroup as [Hsort Hall].
  assert (Hnew : Forall (fun e => sig_ok check_signature q checkpointing (checkpoint_block_hash vote) None
                   (QuorumSignature (pv_index e) (vote_signature (pv_vote e)))) votes).
  { rewrite Forall_fmap in Hidx.
    apply (Forall_impl _ _ _ (proj2 (Forall_and _ _) (conj Hall Hidx))).
    intros e [[Hv' (Ht & Hhash)%same_checkpoint] Hi]; [|done]. unfold compose in Hi. split; [exact Hi|].
    destruct (verified_signed _ _ _ Hv') as (_ & _ & _ & Hsig). split; [|done].
    rewrite <- Hhash. by apply Hsig. }
  unfold handle_checkpoint_vote in Hc. unfold CHECKPOINT_MIN_VOTES in Hc.
  destruct (Z.ltb_spec (Z.of_nat (length votes)) 13) as [|Hlen]; [done|].
  assert (Hverify : forall sigs, signatures_ok q (checkpoint_block_hash vote) sigs -> (13 <= length sigs)%nat ->
    let c := Checkpoint service_node (block_height vote) (checkpoint_block_hash vote) sigs in
    Forall (fun s => 0 <= voter_index s) sigs /\ verify_checkpoint check_signature v c q = true).
  { intros sigs Hs Hl. split; [|].
    - destruct Hs as [_ Hs]. eapply Forall_impl; [exact Hs|]. intros s [? _]. lia.
    - unfold verify_checkpoint. cbn [cp_type cp_height cp_block_hash cp_signatures].
      rewrite Hh. cbn [Z.eqb negb]. by apply signatures_ok_verify. }
  assert (Hfresh : (if block_height vote <? chain_height then Some (Checkpoint service_node
      (block_height vote) (checkpoint_block_hash vote)
      ((fun e => QuorumSignature (pv_index e) (vote_signature (pv_vote e))) <$> votes)) else None) = Some c ->
    cp_type c = service_node /\ cp_height c = block_height vote /\
    cp_block_hash c = checkpoint_block_hash vote /\
    Forall (fun s => 0 <= voter_index s) (cp_signatures c) /\ verify_checkpoint check_signature v c q = true).
  { destruct (_ <? _); [|done]. intros [= <-]. do 3 (split; [done|]). cbn [cp_signatures].
    apply Hverify; [|rewrite length_fmap; lia].
    split; [by rewrite <- list_fmap_compose | by apply Forall_fmap]. }
  destruct stored as [c0|]; [|by apply Hfresh].
  destruct (bool_decide_reflect (cp_block_hash c0 = checkpoint_block_hash vote)) as [Hhash|_]; [|by apply Hfresh].
  destruct (negb _); [|done].
  destruct (Hstored c0 eq_refl) as (Hct & Hch & Hnn & Hver). unfold verify_checkpoint in Hver.
  rewrite Hct, Hch, Hh in Hver. cbn [Z.eqb negb] in Hver.
  apply quorum_signatures_accepted_spec in Hver as (Hok & Hnd & Hlen0 & _); [|by left|done|done|done].
  destruct (Hlen0 eq_refl) as [Hlen13 _].
  destruct (sorted_signatures q (cp_block_hash c0) (cp_signatures c0) Hnd Hok) as [Hs Hl].
  rewrite Hhash in Hs.
  destruct (add_signatures_spec q _ votes _ false Hs Hnew) as [Hs' Hl'].
  destruct (foldl _ _ votes) as [sigs []]; [|done]. injection Hc as <-.
  cbn [fst] in *. rewrite Hct, Hch, Hhash. do 3 (split; [done|]). apply Hverify; [exact Hs' | lia].
Qed.

(** A checkpoint assembled from the pool (new, or by adding the pool's signatures to the
    stored checkpoint of the same block) passes checkpoint verification, whenever the pool's
    votes were verified one by one and the stored checkpoint was itself a verified one. *)
Theorem assembled_checkpoint_verifies v q stored chain_height vote votes c :
  (length (validators q) <= 20)%nat -> vote_type vote = vote_checkpointing ->
  block_height vote mod CHECKPOINT_INTERVAL = 0 -> pool_group v q vote votes ->
  (forall c0, stored = Some c0 -> cp_type c0 = service_node /\ cp_height c0 = block_height vote /\
     Forall (fun s => 0 <= voter_index s) (cp_signatures c0) /\
     verify_checkpoint check_signature v c0 q = true) ->
  handle_checkpoint_vote stored chain_height vote votes = Some c ->
  cp_type c = service_node /\ cp_height c = block_height vote /\
  cp_block_hash c = checkpoint_block_hash vote /\
  Forall (fun s => 0 <= voter_index s) (cp_signatures c) /\
  verify_checkpoint check_signature v c q = true.
Proof. apply assemble_checkpoint. Qed.

End Assemble.

(** Votes of [n] validators, the first with index 2, on worker 1 ([demo_info], whose key is
    [[2]]) or on the block with hash [[9]]. *)
Definition demo_member_vote (height type : Z) (i : nat) : quorum_vote_t :=
  QuorumVote 0 type height group_validator (Z.of_nat i)
    ([Z.of_nat i + 1] ++ (if type =? vote_obligations
                          then state_change_message height 1 decommission else [9]))
    (StateChangeVote 1 decommission 3) [9].
Definition demo_pool (height type : Z) (n : nat) : list pool_vote_entry :=
  (fun i => PoolVoteEntry (demo_member_vote height type i) 0) <$> seq 2 n.

Ltac check_demo_pool :=
  split; [repeat constructor; reflexivity |];
  repeat constructor; cbn; try discriminate; try done; try (eexists no_flags, _; reflexivity).

Lemma assembled_state_change_accepted_witness :
  exists sc,
    handle_obligations_vote hf22_sn_policy (demo_state 4950) (demo_member_vote 4900 vote_obligations 2)
      (demo_pool 4900 vote_obligations 7) (Quorum (demo_keys 10) (demo_keys 3)) = Some sc /\
    verify_tx_state_change (fun m => m) demo_check sc 4950 (Tvc false no_flags)
      (Quorum (demo_keys 10) (demo_keys 3)) hf22_sn_policy = Some (true, Tvc false no_flags).
Proof.
  eexists. split; [vm_compute; reflexivity|].
  apply (assembled_state_change_accepted (fun m => m) demo_check hf22_sn_policy hf22_sn_policy
    (Quorum (demo_keys 10) (demo_keys 3)) (demo_state 4950) (demo_member_vote 4900 vote_obligations 2)
    (demo_pool 4900 vote_obligations 7)).
  - cbn. lia.
  - done.
  - check_demo_pool.
  - vm_compute. reflexivity.
  - done.
  - done.
  - done.
  - done.
Defined.

(** Fourteen stored signatures, to which the votes of the pool add that of voter 15. *)
Lemma assembled_checkpoint_verifies_witness :
  exists c,
    handle_checkpoint_vote
      (Some (Checkpoint service_node 4900 [9]
               ((fun i => QuorumSignature (Z.of_nat i) [Z.of_nat i + 1; 9]) <$> seq 1 14))) 4990
      (demo_member_vote 4900 vote_checkpointing 2) (demo_pool 4900 vote_checkpointing 14) = Some c /\
    length (cp_signatures c) = 15%nat /\
    verify_checkpoint demo_check hf22_sn_policy c (Quorum (demo_keys 20) []) = true.
Proof.
  eexists. split; [vm_compute; reflexivity|]. split; [reflexivity|].
  eapply (assembled_checkpoint_verifies (fun m => m) demo_check hf22_sn_policy
    (Quorum (demo_keys 20) []) (Some (Checkpoint service_node 4900 [9]
               ((fun i => QuorumSignature (Z.of_nat i) [Z.of_nat i + 1; 9]) <$> seq 1 14))) 4990
    (demo_member_vote 4900 vote_checkpointing 2) (demo_pool 4900 vote_checkpointing 14)).
  - cbn. lia.
  - done.
  - done.
  - check_demo_pool.
  - intros c0 [= <-]. split_and!; [done | done | repeat constructor; discriminate | vm_compute; reflexivity].
  - vm_compute. reflexivity.
Defined.

(** ** Each height is visited once *)

Lemma count_up_nil step bound h :
  0 < step -> bound <= h ->
  (forall x, x ∈ @nil Z <-> h <= x < bound /\ (x - h) mod step = 0) /\
  StronglySorted Z.lt [] /\ h <= h <= Z.max h (bound + step) /\
  (h - h) mod step = 0 /\ Forall (fun x => x < h) [].
Proof.
  intros Hs Hb. rewrite Z.sub_diag, Z.mod_0_l by lia. split.
  - intros x. split; [intros Hx; by apply not_elem_of_nil in Hx | lia].
  - split; [constructor|]. split; [lia|]. split; [done | constructor].
Qed.

Lemma count_up_spec fuel step bound h :
  0 < step <= 2 ^ 32 -> 0 <= h < 2 ^ 63 -> 0 <= bound < 2 ^ 62 -> bound - h <= Z.of_nat fuel ->
  let r := count_up fuel step bound h in
  (forall x, x ∈ r.1 <-> h <= x < bound /\ (x - h) mod step = 0) /\
  StronglySorted Z.lt r.1 /\ h <= r.2 <= Z.max h (bound + step) /\
  (r.2 - h) mod step = 0 /\ Forall (fun x => x < r.2) r.1.
Proof.
  intros Hstep. revert h. induction fuel as [|fuel IH]; intros h Hh Hb Hf; cbn [count_up].
  { apply count_up_nil; cbn [snd]; lia. }
  destruct (Z.ltb_spec h bound) as [Hlt|Hge]; [|apply count_up_nil; cbn [snd]; lia].
  rewrite u64_small by (unfold is_u64; lia).
  destruct (IH (h + step) ltac:(lia) Hb ltac:(lia)) as (Hin & Hs & Hr & Hm & Hall).
  destruct (count_up fuel step bound (h + step)) as [l h']. cbn [fst snd] in *.
  assert (Hmod : forall x, (x - (h + step)) mod step = (x - h) mod step).
  { intros x. replace (x - (h + step)) with (x - h + (-1) * step) by lia. by rewrite Z.mod_add by lia. }
  rewrite Hmod in Hm. split_and!; [|constructor; [done|] | lia | lia | done | constructor; [lia | done]].
  - intros x. rewrite elem_of_cons, Hin, Hmod. split.
    + intros [->|[? ?]]; [|lia]. rewrite Z.sub_diag, Z.mod_0_l; lia.
    + intros [Hx Hxm]. destruct (decide (x = h)) as [|Hne]; [by left|]. right. split; [|done].
      split; [|lia]. pose proof (Z.div_mod (x - h) step ltac:(lia)) as Hdm. rewrite Hxm in Hdm.
      set (k := (x - h) / step) in *. clearbody k.
      assert (0 < k) by (clear - Hdm Hx Hne Hstep; nia). clear - Hdm H Hstep. nia.
  - apply Forall_forall. intros x Hx. apply Hin in Hx. lia.
Qed.

Lemma checkpoint_heights_spec height start m :
  0 <= start <= height -> 0 <= m < 2 ^ 63 -> height < 2 ^ 62 -> m mod CHECKPOINT_INTERVAL = 0 ->
  let r := checkpoint_heights height start m in
  (forall x, x ∈ r.1 <-> x mod CHECKPOINT_INTERVAL = 0 /\ start <= x /\ m <= x < height) /\
  StronglySorted Z.lt r.1 /\ m <= r.2 < 2 ^ 63 /\ r.2 mod CHECKPOINT_INTERVAL = 0 /\
  Forall (fun x => x < r.2) r.1.
Proof.
  unfold checkpoint_heights, start_checkpointing_height, CHECKPOINT_INTERVAL. intros Hs Hm Hh Hmod.
  set (first := if 0 <? start mod 4 then u64 (start + (4 - start mod 4)) else start).
  assert (Hfirst : first mod 4 = 0 /\ start <= first < start + 4).
  { subst first. destruct (Z.ltb_spec 0 (start mod 4)); [rewrite u64_small by (unfold is_u64; lia)|]; lia. }
  clearbody first.
  destruct (count_up_spec (enough height (Z.max first m)) 4 height (Z.max first m)
              ltac:(lia) ltac:(lia) ltac:(lia) ltac:(unfold enough; lia)) as (Hin & Hsort & Hr & Hrm & Hall).
  split_and!; try done; try lia. intros x. rewrite Hin. lia.
Qed.

Lemma obligations_heights_spec v height start m :
  0 <= start <= height -> 0 <= m < 2 ^ 63 -> 20 <= height < 2 ^ 62 ->
  let r := obligations_heights v height start m in
  (forall x, x ∈ r.1 <-> start <= x /\ m <= x < height - reorg_safety_buffer v) /\
  StronglySorted Z.lt r.1 /\ m <= r.2 < 2 ^ 63 /\ Forall (fun x => x < r.2) r.1.
Proof.
  intros Hs Hm Hh. unfold obligations_heights.
  assert (Hbuf : 0 <= reorg_safety_buffer v <= 20)
    by (unfold reorg_safety_buffer; destruct (_ <=? _); by vm_compute).
  rewrite u64_small by (unfold is_u64; lia). set (b := height - reorg_safety_buffer v).
  destruct (count_up_spec (enough b (Z.max m start)) 1 b (Z.max m start)
              ltac:(lia) ltac:(lia) ltac:(lia) ltac:(unfold enough; lia)) as (Hin & Hsort & Hr & _ & Hall).
  split_and!; try done; try lia. intros x. rewrite Hin, Z.mod_1_r. lia.
Qed.

(** The blocks that are added, with the chain's latest height and whether we vote. *)
Record added_block := AddedBlock {
  ab_version : hf; ab_height : Z; ab_latest : Z; ab_voting : bool }.

Fixpoint run_blocks (cop : quorum_cop) (bs : list added_block) : quorum_cop * (list Z * list Z) :=
  match bs with
  | [] => (cop, ([], []))
  | b :: bs =>
      let '(cop, (obl, chk)) :=
        quorum_heights (ab_version b) (ab_height b) (ab_latest b) (ab_voting b) cop in
      let '(cop, (obl', chk')) := run_blocks cop bs in (cop, (obl ++ obl', chk ++ chk'))
  end.

Definition cop_ok (cop : quorum_cop) : Prop :=
  0 <= m_obligations_height cop < 2 ^ 63 /\ 0 <= m_last_checkpointed_height cop < 2 ^ 63 /\
  m_last_checkpointed_height cop mod CHECKPOINT_INTERVAL = 0.

Definition within (lo : Z) (l : list Z) (hi : Z) : Prop :=
  StronglySorted Z.lt l /\ Forall (fun x => lo <= x < hi) l.

Lemma quorum_heights_spec v height latest voting cop :
  cop_ok cop -> 20 <= height < 2 ^ 62 ->
  let '(cop', (obl, chk)) := quorum_heights v height latest voting cop in
  cop_ok cop' /\ m_obligations_height cop <= m_obligations_height cop' /\
  m_last_checkpointed_height cop <= m_last_checkpointed_height cop' /\
  within (m_obligations_height cop) obl (m_obligations_height cop') /\
  within (m_last_checkpointed_height cop) chk (m_last_checkpointed_height cop') /\
  Forall (fun x => x mod CHECKPOINT_INTERVAL = 0) chk.
Proof.
  intros (Ho & Hc & Hm) Hh. unfold quorum_heights.
  assert (Hnone : forall m, within m [] m) by (split; constructor).
  destruct ((v <? hf9_service_nodes) || (latest <? VOTE_LIFETIME)) eqn:E1; [cbn; split_and!; try lia; done|].
  destruct (Z.ltb_spec height (latest - VOTE_LIFETIME)) as [|Hst]; [cbn; split_and!; try lia; done|].
  bool_hyps. unfold VOTE_LIFETIME in *.
  destruct (obligations_heights_spec v height (latest - 60) (m_obligations_height cop)
    ltac:(lia) Ho Hh) as (Hoi & Hos & Hor & Hoa).
  destruct (obligations_heights _ _ _ _) as [obl mo]. cbn [fst snd] in *.
  destruct (checkpoint_heights_spec height (latest - 60) (m_last_checkpointed_height cop)
    ltac:(lia) Hc ltac:(lia) Hm) as (Hci & Hcs & Hcr & Hcm & Hca).
  destruct (checkpoint_heights _ _ _) as [chk mc]. cbn [fst snd] in *.
  assert (Hwo : within (m_obligations_height cop) obl mo).
  { split; [done|]. apply Forall_forall. intros x Hx. rewrite Forall_forall in Hoa.
    specialize (Hoa x Hx). apply Hoi in Hx. lia. }
  assert (Hwc : within (m_last_checkpointed_height cop) chk mc).
  { split; [done|]. apply Forall_forall. intros x Hx. rewrite Forall_forall in Hca.
    specialize (Hca x Hx). apply Hci in Hx. lia. }
  assert (Hmod : Forall (fun x => x mod CHECKPOINT_INTERVAL = 0) chk)
    by (apply Forall_forall; intros x Hx; apply Hci in Hx; tauto).
  destruct Hwo, Hwc. destruct (max_quorum_type_for_hf v), voting; unfold cop_ok; cbn; split_and!; try done; try lia; constructor.
Qed.

(** The heights visited are heights of the chain. *)
Lemma quorum_heights_below v height latest voting cop :
  cop_ok cop -> 20 <= height < 2 ^ 62 ->
  let '(_, (obl, chk)) := quorum_heights v height latest voting cop in
  Forall (fun h => 0 <= h < 2 ^ 62) obl /\ Forall (fun h => 0 <= h < 2 ^ 62) chk.
Proof.
  intros (Ho & Hc & Hm) Hh. unfold quorum_heights.
  destruct ((v <? hf9_service_nodes) || (latest <? VOTE_LIFETIME)) eqn:E1; [split; constructor|].
  destruct (Z.ltb_spec height (latest - VOTE_LIFETIME)) as [|Hst]; [split; constructor|].
  bool_hyps. unfold VOTE_LIFETIME in *.
  destruct (obligations_heights_spec v height (latest - 60) (m_obligations_height cop)
    ltac:(lia) Ho Hh) as (Hoi & _).
  destruct (obligations_heights _ _ _ _) as [obl mo]. cbn [fst] in *.
  destruct (checkpoint_heights_spec height (latest - 60) (m_last_checkpointed_height cop)
    ltac:(lia) Hc ltac:(lia) Hm) as (Hci & _).
  destruct (checkpoint_heights _ _ _) as [chk mc]. cbn [fst] in *.
  assert (Hbuf : 0 <= reorg_safety_buffer v)
    by (unfold reorg_safety_buffer; destruct (_ <=? _); by vm_compute).
  assert (Hfo : Forall (fun h => 0 <= h < 2 ^ 62) obl)
    by (apply Forall_forall; intros x Hx; apply Hoi in Hx; lia).
  assert (Hfc : Forall (fun h => 0 <= h < 2 ^ 62) chk)
    by (apply Forall_forall; intros x Hx; apply Hci in Hx; lia).
  destruct (max_quorum_type_for_hf v), voting; split; done || constructor.
Qed.

Lemma within_app lo l mid l' hi :
  lo <= mid -> mid <= hi -> within lo l mid -> within mid l' hi -> within lo (l ++ l') hi.
Proof.
  intros H1 H2 [Hs Ha] [Hs' Ha']. split.
  - apply StronglySorted_app_2; [|done..]. rewrite Forall_forall in Ha, Ha'.
    intros x y Hx Hy. specialize (Ha x Hx). specialize (Ha' y Hy). lia.
  - apply Forall_app. split; eapply Forall_impl; [exact Ha| |exact Ha'|]; cbn; lia.
Qed.

Lemma run_blocks_spec bs cop :
  cop_ok cop -> Forall (fun b => 20 <= ab_height b < 2 ^ 62) bs ->
  let '(cop', (obl, chk)) := run_blocks cop bs in
  cop_ok cop' /\ m_obligations_height cop <= m_obligations_height cop' /\
  m_last_checkpointed_height cop <= m_last_checkpointed_height cop' /\
  within (m_obligations_height cop) obl (m_obligations_height cop') /\
  within (m_last_checkpointed_height cop) chk (m_last_checkpointed_height cop') /\
  Forall (fun x => x mod CHECKPOINT_INTERVAL = 0) chk.
Proof.
  intros Hok Hall. revert cop Hok. induction Hall as [|b bs Hb Hall IH]; intros cop Hok; cbn [run_blocks].
  { assert (Hnone : forall m, within m [] m) by (split; constructor).
    split; [done|]. split; [lia|]. split; [lia|]. split; [done|]. split; [done | constructor]. }
  pose proof (quorum_heights_spec (ab_version b) _ (ab_latest b) (ab_voting b) cop Hok Hb) as H1.
  destruct (quorum_heights _ _ _ _ _) as [cop1 [obl chk]]. destruct H1 as (Hok1 & Ho1 & Hc1 & Hw1 & Hw2 & Hm1).
  specialize (IH cop1 Hok1). destruct (run_blocks cop1 bs) as [cop2 [obl' chk']].
  destruct IH as (Hok2 & Ho2 & Hc2 & Hw3 & Hw4 & Hm2).
  split; [done|]. split; [lia|]. split; [lia|].
  split; [by apply (within_app _ _ (m_obligations_height cop1))|].
  split; [by apply (within_app _ _ (m_last_checkpointed_height cop1)) | by apply Forall_app].
Qed.

(** Over any run of added blocks (above the reorganisation buffer) the heights at which
    obligations are tested are strictly increasing, and so are the heights at which
    checkpoints are voted for, all of them multiples of the checkpoint interval: no height
    is voted on twice. *)
Theorem heights_visited_once bs cop :
  cop_ok cop -> Forall (fun b => 20 <= ab_height b < 2 ^ 62) bs ->
  let '(cop', (obl, chk)) := run_blocks cop bs in
  cop_ok cop' /\ StronglySorted Z.lt obl /\ StronglySorted Z.lt chk /\
  Forall (fun x => x mod CHECKPOINT_INTERVAL = 0) chk.
Proof.
  intros Hok Hall. pose proof (run_blocks_spec bs cop Hok Hall) as H.
  destruct (run_blocks cop bs) as [cop' [obl chk]].
  destruct H as (Hok' & _ & _ & [Hs1 _] & [Hs2 _] & Hm). done.
Qed.

Definition demo_blocks : list added_block :=
  (fun i => AddedBlock hf22_sn_policy (5000 + Z.of_nat i) (5001 + Z.of_nat i) true) <$> seq 0 9.

Lemma heights_visited_once_witness :
  let r := run_blocks (QuorumCop 4985 4996 empty_pool) demo_blocks in
  r.2 = ([4985; 4986; 4987; 4988; 4989; 4990; 4991; 4992; 4993; 4994; 4995; 4996], [4996; 5000; 5004]) /\
  StronglySorted Z.lt r.2.2.
Proof.
  pose proof (heights_visited_once demo_blocks (QuorumCop 4985 4996 empty_pool)
    ltac:(by vm_compute) ltac:(repeat constructor; discriminate)) as H.
  split; [vm_compute; reflexivity|].
  destruct (run_blocks (QuorumCop 4985 4996 empty_pool) demo_blocks) as [cop' [obl chk]]. apply H.
Defined.

(** Below the buffer the bound of the obligations loop wraps around. *)
Lemma obligations_bound_wraps :
  u64 (5 - reorg_safety_buffer hf22_sn_policy) = 18446744073709551610.
Proof. reflexivity. Qed.

Lemma blockchain_detached_ok v height cop :
  cop_ok cop -> 0 <= height < 2 ^ 62 -> cop_ok (blockchain_detached v height cop).
Proof.
  intros (Ho & Hc & Hm) Hh. unfold blockchain_detached, cop_ok, CHECKPOINT_INTERVAL in *. cbn.
  destruct (Z.leb_spec height (m_obligations_height cop)), (_ <=? m_last_checkpointed_height cop);
    split_and!; lia.
Qed.
