(* ===== verification/VoteHandling.v ===== *)
(** * Handling votes and blocks

    The rest of [cryptonote_core/service_node_quorum_cop.cpp]: [handle_vote], which checks a
    vote (ours or a peer's), pools it and acts on the pool, and [process_quorums] and
    [block_add], which a new block triggers, composed from the parts in [Voting],
    [VotingPool], [NodeList] and [QuorumCop].  The world of these functions is the cop
    itself, the records about the nodes, the checkpoints of the database and the
    transactions handed to the core. *)
From S2P Require Import Prelude Hardfork Config Address Rules Voting VotingPool NodeProof.
From S2P Require Import ServiceNode NodeList QuorumCop.
From stdpp Require Import gmap.
#[local] Open Scope Z_scope.

(** ** Looking up a quorum *)

Definition offset_testing_quorum_height (type : quorum_type) (height : Z) : Z :=
  match type with
  | checkpointing =>
      if height <? REORG_SAFETY_BUFFER_BLOCKS_POST_HF12 then 0
      else height - REORG_SAFETY_BUFFER_BLOCKS_POST_HF12
  | _ => height
  end.

(** [lower_bound] by height in the sorted [old_quorum_states]. *)
Fixpoint old_quorums (old : list (Z * quorum_manager)) (height : Z) : option quorum_manager :=
  match old with
  | [] => None
  | (h, m) :: rest =>
      if h <? height then old_quorums rest height else if h =? height then Some m else None
  end.

(** [get_quorum] without the alternative quorums. *)
Definition get_quorum (st : state_t) (hist arch : gmap Z state_t) (old : list (Z * quorum_manager))
    (type : quorum_type) (height : Z) (include_old : bool) : option quorum :=
  let height := offset_testing_quorum_height type height in
  let quorums :=
    if height =? st_height st then Some (quorums st)
    else match hist !! height with
         | Some s => Some (quorums s)
         | None => quorums <$> arch !! height
         end in
  let quorums :=
    match quorums with
    | None => if include_old then old_quorums old height else None
    | Some m => Some m
    end in
  m ← quorums; qm_get m type.

Definition type_of_code (t : Z) : option quorum_type :=
  if t =? 0 then Some obligations else if t =? 1 then Some checkpointing
  else if t =? 2 then Some blink else if t =? 3 then Some pulse else None.

(** ** The world *)

Record world := World {
  w_cop : quorum_cop;
  w_list : node_list;
  w_checkpoints : gmap Z checkpoint_t;
  w_submitted : list tx_state_change;
}.

Definition with_vote_pool_of (w : world) (vp : voting_pool) : world :=
  World (QuorumCop (m_obligations_height (w_cop w)) (m_last_checkpointed_height (w_cop w)) vp)
    (w_list w) (w_checkpoints w) (w_submitted w).

(** [checkpoints::update_checkpoint]: a reader of a shared database does not write it. *)
Definition update_checkpoint (w : world) (c : checkpoint_t) : world :=
  if db_is_read_only (w_list w) then w
  else World (w_cop w) (w_list w) (<[cp_height c := c]> (w_checkpoints w)) (w_submitted w).

Section Handling.
Context (fk : list hard_fork) (nettype : network_type) (netconf : network_config).
Context (cn_fast_hash : bytes -> bytes).
Context (check_signature : bytes -> bytes -> bytes -> bool).
(** The node's quorums by vote type and height, and the state of the list. *)
Context (quorum_at : Z -> Z -> option quorum) (st : state_t).
Context (chain_height : Z).
(** What the core answers to a submitted transaction. *)
Context (accept_tx : tx_state_change -> bool).

(** [quorum_cop::handle_vote]: the verdict, the context and the new world. *)
Definition handle_vote (vote : quorum_vote_t) (w : world)
    : bool * vote_verification_context * world :=
  let '(ok, vvc) := verify_vote_age vote chain_height no_flags in
  if negb ok then (false, vvc, w)
  else
    match quorum_at (vote_type vote) (block_height vote) with
    | None => (false, set_flag m_invalid_block_height true vvc, w)
    | Some q =>
        let '(ok, vvc) := verify_vote_signature cn_fast_hash check_signature
                            (get_network_version fk nettype (block_height vote)) vote vvc q in
        if negb ok then (false, vvc, w)
        else
          let '(vp, votes, vvc) := add_pool_vote_if_unique (m_vote_pool (w_cop w)) vote vvc in
          let w := with_vote_pool_of w vp in
          if negb (vvc m_added_to_pool) then (true, vvc, w)
          else if vote_type vote =? vote_obligations then
            match handle_obligations_vote (get_network_version fk nettype chain_height)
                    st vote votes q with
            | Some sc => (accept_tx sc, vvc, World (w_cop w) (w_list w) (w_checkpoints w)
                                               (w_submitted w ++ [sc]))
            | None => (true, vvc, w)
            end
          else if vote_type vote =? vote_checkpointing then
            match handle_checkpoint_vote (w_checkpoints w !! block_height vote) chain_height vote votes with
            | Some c => (true, vvc, update_checkpoint w c)
            | None => (true, vvc, w)
            end
          else (false, vvc, w)
    end.

(** ** A new block *)

Context (keys : Type) (generate_signature : bytes -> keys -> bytes) (my_keys : keys).
Context (my_pub : bytes) (is_service_node : bool).
Context (env : environment) (start_time : Z) (block_hash_at : Z -> bytes).

(** Recording who of a checkpoint quorum voted at [h]. *)
Definition record_participation (h : Z) (w : world) : world :=
  match quorum_at vote_checkpointing h, env_block_timestamp env h with
  | Some q, Some ts =>
      if start_time <? s64 ts then
        let quorum_height := offset_testing_quorum_height checkpointing h in
        World (w_cop w)
          (foldl (fun nl '(i, key) =>
                    record_checkpoint_participation st nl key quorum_height
                      (received_checkpoint_vote (m_vote_pool (w_cop w)) h (Z.of_nat i)))
             (w_list w) (imap pair (validators q)))
          (w_checkpoints w) (w_submitted w)
      else w
  | _, _ => w
  end.

Definition handle_votes (votes : list quorum_vote_t) (w : world) : world :=
  foldl (fun w v => (handle_vote v w).2) w votes.

(** The votes on the workers of the obligations quorum of height [h]. *)
Definition vote_on_workers (height latest_height : Z) (fork_height : option Z) (voting_enabled : bool)
    (h : Z) (w : world) : option world :=
  match quorum_at vote_obligations h with
  | None => Some w
  | Some q =>
      let index_in_group :=
        if voting_enabled then find_index_in_quorum_group (validators q) my_pub else -1 in
      if (length (workers q) =? 0)%nat || (index_in_group <? 0) then Some w
      else
        let check k info :=
          check_service_node netconf env (get_network_version fk nettype h) (proofs (w_list w) !! k)
            info in
        votes ← worker_loop nettype netconf fork_height height latest_height h check (workers q) 0
                  (get_service_node_list_state st (workers q)) false 0;
        Some (handle_votes
          ((fun v => make_state_change_vote cn_fast_hash keys generate_signature h
                       (u16 index_in_group) (wv_index v) (wv_state v) (wv_reason v) my_keys) <$> votes) w)
  end.

Definition obligations_step (height latest_height : Z) (fork_height : option Z)
    (voting_enabled : bool) (w : option world) (h : Z) : option world :=
  w ← w;
  let v := get_network_version fk nettype h in
  if v <? hf9_service_nodes then Some w
  else
    let w := if hf12_checkpointing <=? v then record_participation h w else w in
    let live_time := env_time env - start_time in
    if live_time <? UPTIME_PROOF_VALIDITY netconf then Some w
    else if negb is_service_node then Some w
    else vote_on_workers height latest_height fork_height voting_enabled h w.

Definition checkpoint_step (buffer : Z) (w : world) (h : Z) : world :=
  let v := get_network_version fk nettype h in
  if v <=? hf11_infinite_staking then w
  else if h <? buffer then w
  else
    match quorum_at vote_checkpointing h with
    | None => w
    | Some q =>
        let index_in_group := find_index_in_quorum_group (validators q) my_pub in
        if index_in_group <=? -1 then w
        else (handle_vote (make_checkpointing_vote cn_fast_hash keys generate_signature v
                             (block_hash_at h) h (u16 index_in_group) my_keys) w).2
    end.

Definition voting_enabled : bool :=
  is_service_node &&
  match service_nodes_infos st !! my_pub with Some i => is_active i | None => false end.

(** [process_quorums]; [None] where the code dereferences an end iterator (see
    [worker_loop]) or a hard fork height that is not there. *)
Definition process_quorums (hf_version : hf) (height target_height : Z) (w : world) : option world :=
  let latest_height := Z.max chain_height target_height in
  let '(cop, (obl, chk)) := quorum_heights hf_version height latest_height voting_enabled (w_cop w) in
  let fork_height := (get_hard_fork_heights fk nettype hf_version).1 in
  w ← foldl (obligations_step height latest_height fork_height voting_enabled) (Some w) obl;
  let w := foldl (checkpoint_step (reorg_safety_buffer hf_version)) w chk in
  Some (World (QuorumCop (m_obligations_height cop) (m_last_checkpointed_height cop)
                 (m_vote_pool (w_cop w)))
          (w_list w) (w_checkpoints w) (w_submitted w)).

Definition block_add (hf_version : hf) (height target_height : Z) (txs : list pool_tx) (w : world)
    : option world :=
  w ← process_quorums hf_version height target_height w;
  let pool := remove_expired_votes (m_vote_pool (w_cop w)) (u64 (height + 1)) in
  Some (with_vote_pool_of w (remove_used_votes pool txs)).

End Handling.

(** ** The pool holds verified votes only *)

Section PoolForall.
Context {T : Type} `{PEL : PoolEntryLaws T}.
Context (P : pool_vote_entry -> Prop).

Definition pool_forall (pool : list T) : Prop := Forall (fun e => Forall P (entry_votes e)) pool.

Lemma with_vote_pool_forall {R} (pool : list T) vote create (f : _ -> _ * R) :
  pool_forall pool -> (forall l, Forall P l -> Forall P (f l).1) ->
  pool_forall (with_vote_pool pool vote create f).1.
Proof.
  intros Hall Hf. induction Hall as [|e rest He Hall IH]; cbn [with_vote_pool].
  - destruct create; [|constructor]. specialize (Hf (entry_votes (of_vote vote))).
    destruct (f _) as [l r]. cbn in *. constructor; [|constructor].
    rewrite votes_set_votes. apply Hf. rewrite votes_of_vote. constructor.
  - case_decide.
    + specialize (Hf _ He). destruct (f _) as [l r]. cbn in *. constructor; [|done].
      by rewrite votes_set_votes.
    + destruct (with_vote_pool rest vote create f) as [rest' r]. by constructor.
Qed.

Lemma group_of_forall (pool : list T) k : pool_forall pool -> Forall P (group_of pool k).
Proof.
  induction 1 as [|e rest He _ IH]; cbn [group_of]; [constructor|]. by case_decide.
Qed.

End PoolForall.

Lemma add_vote_forall (P : pool_vote_entry -> Prop) l v :
  P (PoolVoteEntry v 0) -> Forall P l -> Forall P (add_vote_to_pool_if_unique l v).1.
Proof.
  intros Hv. induction 1 as [|e l He Hl IH]; cbn [add_vote_to_pool_if_unique]; [by repeat constructor|].
  destruct (pv_index e <? index_in_group v).
  - destruct (add_vote_to_pool_if_unique l v) as [l' b]. by constructor.
  - destruct (negb _); by repeat constructor.
Qed.

Definition pool_all (P : pool_vote_entry -> Prop) (vp : voting_pool) : Prop :=
  pool_forall P (m_obligations_pool vp) /\ pool_forall P (m_checkpoint_pool vp).

Lemma add_to_pool_all P vp v vvc :
  P (PoolVoteEntry v 0) -> pool_all P vp -> pool_all P (add_pool_vote_if_unique vp v vvc).1.1.
Proof.
  intros Hv [Ho Hc].
  set (f := fun l => let '(l', added) := add_vote_to_pool_if_unique l v in (l', (l', added))).
  assert (Hf : forall l, Forall P l -> Forall P (f l).1).
  { intros l Hl. pose proof (add_vote_forall P l v Hv Hl) as H. unfold f.
    by destruct (add_vote_to_pool_if_unique l v). }
  unfold add_pool_vote_if_unique, with_pool. fold f.
  pose proof (with_vote_pool_forall P (m_obligations_pool vp) v true f Ho Hf) as H1.
  pose proof (with_vote_pool_forall P (m_checkpoint_pool vp) v true f Hc Hf) as H2.
  destruct (_ =? _); [destruct (with_vote_pool (m_obligations_pool vp) v true f) as [p [[l b]|]]; by split|].
  destruct (_ =? _); [destruct (with_vote_pool (m_checkpoint_pool vp) v true f) as [p [[l b]|]]; by split|].
  by split.
Qed.

Lemma Forall_sublist {A} (Q : A -> Prop) l l' : l `sublist_of` l' -> Forall Q l' -> Forall Q l.
Proof. intros Hs. rewrite !Forall_forall. intros H x Hx. apply H. by eapply elem_of_sublist in Hx. Qed.

Lemma expired_all P vp h : pool_all P vp -> pool_all P (remove_expired_votes vp h).
Proof.
  intros [Ho Hc]. split; (eapply Forall_sublist; [apply sublist_filter|done]).
Qed.

Lemma used_all P vp txs : pool_all P vp -> pool_all P (remove_used_votes vp txs).
Proof.
  intros [Ho Hc]. split; [|done]. cbn. revert Ho. generalize (m_obligations_pool vp).
  induction txs as [|tx txs IH]; intros p Hp; cbn; [done|]. apply IH.
  repeat case_match; try done. eapply Forall_sublist; [apply erase_first_sublist|done].
Qed.

(** The votes returned for a vote that was pooled: its group. *)
Lemma added_group P vp v vvc vp' l vvc' :
  vp_ok vp -> pool_all P vp -> P (PoolVoteEntry v 0) ->
  vote_type v = vote_obligations \/ vote_type v = vote_checkpointing ->
  add_pool_vote_if_unique vp v vvc = (vp', l, vvc') ->
  vp_ok vp' /\ pool_all P vp' /\ votes_sorted l /\
  Forall (fun e => P e /\ same_target (pv_vote e) v) l.
Proof.
  intros Hok Hall Hv Ht E. pose proof (add_step_ok vp v vvc Hok) as Hok'.
  pose proof (add_to_pool_all P vp v vvc Hv Hall) as Hall'. rewrite E in Hok', Hall'. cbn in Hok', Hall'.
  split; [done|]. split; [done|].
  destruct Hok as [Ho Hc], Hok' as [Ho' Hc'], Hall' as [Hpo Hpc].
  unfold add_pool_vote_if_unique, with_pool in E.
  destruct Ht as [Ht|Ht]; rewrite Ht in E; cbn [Z.eqb vote_obligations vote_checkpointing] in E.
  - destruct (add_in_pool _ _ v Ho Ht) as (p & l0 & b & E' & _ & _ & _ & _ & Hg).
    rewrite E' in E. injection E as <- <- <-. cbn [m_obligations_pool m_checkpoint_pool] in *.
    specialize (Hg (vote_key (T:=obligations_pool_entry) v)). rewrite decide_True in Hg by done. rewrite <- Hg.
    destruct (group_of_ok _ p (vote_key (T:=obligations_pool_entry) v) Ho') as [Hs Hall2].
    split; [done|]. apply Forall_and. split; [by apply group_of_forall|].
    eapply Forall_impl; [exact Hall2|]. intros e [Ht' Hk]. split; [congruence|]. split; [done|].
    intros Hx. rewrite Hx in Ht'. discriminate.
  - destruct (add_in_pool _ _ v Hc Ht) as (p & l0 & b & E' & _ & _ & _ & _ & Hg).
    rewrite E' in E. injection E as <- <- <-. cbn [m_obligations_pool m_checkpoint_pool] in *.
    specialize (Hg (vote_key (T:=checkpoint_pool_entry) v)). rewrite decide_True in Hg by done. rewrite <- Hg.
    destruct (group_of_ok _ p (vote_key (T:=checkpoint_pool_entry) v) Hc') as [Hs Hall2].
    split; [done|]. apply Forall_and. split; [by apply group_of_forall|].
    eapply Forall_impl; [exact Hall2|]. intros e [Ht' Hk]. split; [congruence|]. split; [|done].
    intros Hx. rewrite Hx in Ht'. discriminate.
Qed.

(** ** Safety of the whole *)

Definition quorums_by : Type := Z -> Z -> option quorum.
(** All quorums of one are the same in the other. *)
Definition known_of (known quorum_at : quorums_by) : Prop := forall t h q, known t h = Some q -> quorum_at t h = Some q.
(** The sizes of the quorums the list generates, and the heights that have a checkpoint
    quorum. *)
Definition sizes_ok (quorum_at : quorums_by) : Prop :=
  (forall h q, quorum_at vote_obligations h = Some q -> (length (validators q) <= 10)%nat) /\
  (forall h q, quorum_at vote_checkpointing h = Some q ->
     (length (validators q) <= 20)%nat /\ h mod CHECKPOINT_INTERVAL = 0).

(** The ranges of a vote's fields. *)
Definition vote_typed (v : quorum_vote_t) : Prop :=
  0 <= index_in_group v < 65536 /\ 0 <= block_height v < 2 ^ 62 /\ 0 <= sc_state (state_change v).

Section Safety.
Context (fk : list hard_fork) (nettype : network_type).
Context (cn_fast_hash : bytes -> bytes).
Context (check_signature : bytes -> bytes -> bytes -> bool).
(** The quorums of the current chain by vote type and height, those that the node can look up, and
    the heights to which the chain was detached. *)
Context (quorum_at known : quorums_by) (detached : list Z).
Context (Hsizes : sizes_ok quorum_at) (Hknown : known_of known quorum_at).

Abbreviation version_at h := (get_network_version fk nettype h).

(** A vote that its height's quorum verified; for an obligations vote at a height to which the chain
    was detached, the quorum may have been that of an abandoned block. *)
Definition pooled_ok (e : pool_vote_entry) : Prop :=
  (vote_type (pv_vote e) = vote_obligations /\ block_height (pv_vote e) ∈ detached) \/
  exists q, quorum_at (vote_type (pv_vote e)) (block_height (pv_vote e)) = Some q /\
    verified cn_fast_hash check_signature (version_at (block_height (pv_vote e))) q (pv_vote e).

(** A stored checkpoint that its height's quorum signed. *)
Definition checkpoint_ok (h : Z) (c : checkpoint_t) : Prop :=
  cp_type c = service_node /\ cp_height c = h /\
  Forall (fun s => 0 <= voter_index s) (cp_signatures c) /\
  exists q, quorum_at vote_checkpointing h = Some q /\
    verify_checkpoint check_signature (version_at h) c q = true.

(** What the database of checkpoints holds: at a height with a quorum, what that quorum signed. *)
Definition database_ok (cps : gmap Z checkpoint_t) : Prop :=
  map_Forall (fun h c => quorum_at vote_checkpointing h = None \/ checkpoint_ok h c) cps.

(** A submitted state change to one of the four states, which every node verifies while its height
    is recent. *)
Definition submitted_ok (sc : tx_state_change) : Prop :=
  tsc_block_height sc ∉ detached -> hf12_checkpointing <= version_at (tsc_block_height sc) -> tsc_state sc < new_state_count ->
  exists q, quorum_at vote_obligations (tsc_block_height sc) = Some q /\
    forall latest tvc,
      tsc_block_height sc < latest -> latest < tsc_block_height sc + VOTE_LIFETIME ->
      verify_tx_state_change cn_fast_hash check_signature sc latest tvc q
        (version_at (tsc_block_height sc)) = Some (true, tvc).

(** [before] is what was submitted earlier. *)
Context (before : list tx_state_change).
Definition world_ok (w : world) : Prop :=
  vp_ok (m_vote_pool (w_cop w)) /\ pool_all pooled_ok (m_vote_pool (w_cop w)) /\
  database_ok (w_checkpoints w) /\ exists new, w_submitted w = before ++ new /\ Forall submitted_ok new.

Lemma verified_type v q vote vvc vvc' :
  verify_vote_signature cn_fast_hash check_signature v vote vvc q = (true, vvc') ->
  vote_type vote = vote_obligations \/ vote_type vote = vote_checkpointing.
Proof.
  intros Hv. unfold verify_vote_signature in Hv.
  destruct (Z.eqb_spec (vote_type vote) vote_obligations); [by left|].
  destruct (Z.eqb_spec (vote_type vote) vote_checkpointing); [by right|]. cbn [orb] in Hv.
  exfalso. repeat (case_match; simplify_eq); try done.
Qed.

Lemma group_is_pool_group vote q votes :
  quorum_at (vote_type vote) (block_height vote) = Some q ->
  (vote_type vote = vote_obligations /\ block_height vote ∉ detached) \/ vote_type vote = vote_checkpointing ->
  votes_sorted votes -> Forall (fun e => pooled_ok e /\ same_target (pv_vote e) vote) votes ->
  pool_group cn_fast_hash check_signature (version_at (block_height vote)) q vote votes.
Proof.
  intros Hq Ht Hs Hall. split; [done|]. eapply Forall_impl; [exact Hall|].
  intros e [Hp Hsame]. split; [|done].
  assert (Hh : block_height (pv_vote e) = block_height vote).
  { destruct Hsame as (Htt & Ho & Hc). destruct Ht as [[Ht _]|Ht]; rewrite Ht in Htt.
    - injection (Ho Htt). done.
    - injection (Hc Htt). done. }
  destruct Hsame as [Htt _].
  destruct Hp as [[Hto Hst]|(q' & Hq' & Hv)]; [rewrite Hh in Hst; destruct Ht as [[_ ?]|Ht]; [done|by rewrite Htt, Ht in Hto]|]. rewrite Htt, Hh, Hq in Hq'. injection Hq' as ->. by rewrite Hh in Hv.
Qed.

Lemma handle_vote_ok st chain_height accept_tx vote w :
  vote_typed vote -> world_ok w ->
  world_ok (handle_vote fk nettype cn_fast_hash check_signature known st chain_height accept_tx
              vote w).2.
Proof using Hsizes Hknown.
  intros (Hi & Hbh & Hstate) Hw. pose proof Hw as (Hvp & Hpool & Hcps & Hsub). unfold handle_vote.
  destruct (verify_vote_age _ _ _) as [[] vvc]; cbn [negb]; [|done].
  destruct (known _ _) as [q|] eqn:Hq; [|done]. apply Hknown in Hq. destruct Hsizes as [Hobl Hchk].
  destruct (verify_vote_signature _ _ _ _ _ _) as [[] vvc'] eqn:Hver; cbn [negb]; [|done].
  pose proof (verified_type _ _ _ _ _ Hver) as Ht.
  assert (Hv : pooled_ok (PoolVoteEntry vote 0)).
  { right. exists q. split; [done|]. split; [done|]. by exists vvc, vvc'. }
  destruct (add_pool_vote_if_unique _ _ _) as [[vp votes] vvc2] eqn:Ha.
  destruct (added_group pooled_ok _ _ _ _ _ _ Hvp Hpool Hv Ht Ha) as (Hvp' & Hpool' & Hs & Hall).
  destruct (negb (vvc2 m_added_to_pool)); [by split_and!|].
  destruct (Z.eqb_spec (vote_type vote) vote_obligations) as [Hto|Hto].
  - destruct (handle_obligations_vote _ _ _ _ _) as [sc|] eqn:Hsc; [|by split_and!].
    split_and!; try done. destruct Hsub as (new & Hnew & Hsub). exists (new ++ [sc]). cbn [w_submitted with_vote_pool_of].
    split; [by rewrite Hnew, <- app_assoc|]. apply Forall_app. split; [done|]. constructor; [|constructor].
    assert (Hscv : sc = state_change_of_votes vote votes).
    { unfold handle_obligations_vote in Hsc. destruct (_ <? _); [done|].
      destruct (workers q !! _); [|done]. cbn in Hsc. destruct (service_nodes_infos st !! _); [|done].
      cbn in Hsc. destruct (can_transition_to_state _ _ _ _); congruence. }
    assert (Hh : tsc_block_height sc = block_height vote) by (by rewrite Hscv).
    intros Hns Hv12 Hst. rewrite Hh in Hns, Hv12 |- *.
    pose proof (group_is_pool_group vote q votes Hq (or_introl (conj Hto Hns)) Hs Hall) as Hgroup. rewrite Hto in Hq. exists q. split; [done|].
    assert (sc_state (state_change vote) < new_state_count) as Hst' by (by rewrite Hscv in Hst).
    intros latest tvc Hl1 Hl2.
    eapply (assemble_state_change cn_fast_hash check_signature);
      [by eapply Hobl | done | exact Hgroup | exact Hsc | done | done | lia |].
    unfold VOTE_LIFETIME in *. lia.
  - destruct Ht as [|Htc]; [done|]. rewrite Htc, Z.eqb_refl.
    pose proof (group_is_pool_group vote q votes Hq (or_intror Htc) Hs Hall) as Hgroup. rewrite Htc in Hq.
    destruct (handle_checkpoint_vote _ _ _ _) as [c|] eqn:Hc; [|by split_and!].
    destruct (Hchk _ _ Hq) as [Hq20 Hmod].
    eapply (assemble_checkpoint cn_fast_hash check_signature (version_at (block_height vote)) q) in Hc
      as (Hct & Hch & _ & Hnn & Hvc); [| exact Hq20 | exact Htc | exact Hmod | exact Hgroup |].
    2: { intros c0 Hc0. destruct (Hcps _ _ Hc0) as [Hnone|(? & ? & ? & q0 & Hq0 & ?)]; [congruence|].
      rewrite Hq in Hq0. by injection Hq0 as <-. }
    unfold update_checkpoint. cbn [w_list with_vote_pool_of].
    destruct (db_is_read_only (w_list w)); [by split_and!|].
    split_and!; try done. cbn [w_checkpoints]. apply map_Forall_insert_2; [|done].
    right. split_and!; try done. rewrite Hch. by exists q.
Qed.

Lemma worker_loop_states netconf fork height latest oh check ws index states seeking dc votes :
  worker_loop nettype netconf fork height latest oh check ws index states seeking dc = Some votes ->
  Forall (fun v => 0 <= wv_state v < new_state_count) votes.
Proof.
  revert index states seeking dc votes.
  induction ws as [|w ws IH]; intros index states seeking dc votes; cbn [worker_loop].
  { destruct seeking; [done|]. intros [= <-]. constructor. }
  destruct states as [|[k i] states]; [done|]. destruct (bool_decide _); [|apply IH].
  destruct (test_worker _ _ _ _ _ _ _ _ _ _ _) as [[v d]|] eqn:Ht; [cbn [mbind option_bind]|done].
  destruct (worker_loop _ _ _ _ _ _ _ ws _ _ _ _) as [vs|] eqn:Hl; [cbn [mbind option_bind]|done].
  apply IH in Hl. intros [= <-]. destruct v as [v|]; [|done]. constructor; [|done].
  unfold test_worker in Ht. destruct (negb _); [done|]. destruct (check k i) as [r|]; [|done].
  cbn [mbind option_bind] in Ht.
  destruct (choose_vote _ _ _ _ _) as [[[state reason]|]|] eqn:Hc; try done. cbn [mbind option_bind] in Ht.
  assert (0 <= state < new_state_count).
  { unfold choose_vote in Hc. destruct (passed _); [repeat case_match; by simplify_eq|].
    destruct (calculate_decommission_credit _ _ _); [|done]. cbn in Hc.
    repeat case_match; by simplify_eq. }
  destruct (in_grace_period _ _ _ _ _) as [g|]; [|done]. cbn [mbind option_bind] in Ht.
  repeat case_match; by simplify_eq.
Qed.

Section Block.
Context (netconf : network_config) (st : state_t) (chain_height : Z).
Context (accept_tx : tx_state_change -> bool).
Context (keys : Type) (generate_signature : bytes -> keys -> bytes) (my_keys : keys).
Context (my_pub : bytes) (is_service_node : bool).
Context (env : environment) (start_time : Z) (block_hash_at : Z -> bytes).

Abbreviation vote_on := (vote_on_workers fk nettype netconf cn_fast_hash check_signature known st
  chain_height accept_tx keys generate_signature my_keys my_pub env).
Abbreviation obl_step := (obligations_step fk nettype netconf cn_fast_hash check_signature known st
  chain_height accept_tx keys generate_signature my_keys my_pub is_service_node env start_time).
Abbreviation chk_step := (checkpoint_step fk nettype cn_fast_hash check_signature known st
  chain_height accept_tx keys generate_signature my_keys my_pub block_hash_at).

Lemma handle_votes_ok votes w :
  Forall vote_typed votes -> world_ok w ->
  world_ok (handle_votes fk nettype cn_fast_hash check_signature known st chain_height accept_tx votes w).
Proof using Hsizes Hknown.
  intros Hall. revert w. induction Hall as [|v votes Hv Hall IH]; intros w Hw; [done|].
  apply IH. by apply handle_vote_ok.
Qed.

Lemma vote_on_ok height latest fork enabled h w w' :
  0 <= h < 2 ^ 62 -> world_ok w -> vote_on height latest fork enabled h w = Some w' -> world_ok w'.
Proof using Hsizes Hknown.
  intros Hh Hw. unfold vote_on_workers. destruct (known _ _) as [q|]; [|by intros [= <-]].
  destruct (_ || _); [by intros [= <-]|].
  destruct (worker_loop _ _ _ _ _ _ _ _ _ _ _ _) as [votes|] eqn:Hl; [cbn [mbind option_bind]|done].
  intros [= <-]. apply handle_votes_ok; [|done]. apply Forall_fmap.
  eapply Forall_impl; [exact (worker_loop_states _ _ _ _ _ _ _ _ _ _ _ _ Hl)|].
  intros v Hv. unfold compose. split; [apply u16_range | split; [exact Hh | apply Hv]].
Qed.

Lemma obl_step_ok height latest fork enabled h w w' :
  0 <= h < 2 ^ 62 -> world_ok w ->
  obl_step height latest fork enabled (Some w) h = Some w' -> world_ok w'.
Proof using Hsizes Hknown.
  intros Hh Hw. unfold obligations_step. cbn [mbind option_bind].
  destruct (_ <? hf9_service_nodes); [by intros [= <-]|].
  set (w1 := if _ <=? _ then _ else w).
  assert (Hw1 : world_ok w1).
  { subst w1. destruct (_ <=? _); [|done]. unfold record_participation.
    destruct (known vote_checkpointing h); [|done]. destruct (env_block_timestamp env h); [|done].
    by destruct (_ <? _). }
  destruct (_ <? UPTIME_PROOF_VALIDITY netconf); [by intros [= <-]|].
  destruct (negb is_service_node); [by intros [= <-]|]. by apply vote_on_ok.
Qed.

Lemma obl_steps_ok height latest fork enabled hs w w' :
  Forall (fun h => 0 <= h < 2 ^ 62) hs -> world_ok w ->
  foldl (obl_step height latest fork enabled) (Some w) hs = Some w' -> world_ok w'.
Proof using Hsizes Hknown.
  intros Hall. revert w. induction Hall as [|h hs Hh Hall IH]; intros w Hw; cbn [foldl].
  { by intros [= <-]. }
  destruct (obl_step _ _ _ _ (Some w) h) as [w1|] eqn:E.
  - apply IH. by eapply obl_step_ok.
  - intros Hn. exfalso. clear - Hn. induction hs as [|x hs IHh]; [done | by apply IHh].
Qed.

Lemma chk_steps_ok buffer hs w :
  Forall (fun h => 0 <= h < 2 ^ 62) hs -> world_ok w -> world_ok (foldl (chk_step buffer) w hs).
Proof using Hsizes Hknown.
  intros Hall. revert w. induction Hall as [|h hs Hh Hall IH]; intros w Hw; cbn [foldl]; [done|].
  apply IH. unfold checkpoint_step. destruct (_ <=? hf11_infinite_staking); [done|].
  destruct (_ <? buffer); [done|]. destruct (known _ _) as [q|]; [|done].
  destruct (_ <=? -1); [done|]. apply handle_vote_ok; [|done].
  split; [apply u16_range | split; [exact Hh | done]].
Qed.

Lemma block_add_ok v height target txs w w' :
  cop_ok (w_cop w) -> 20 <= height < 2 ^ 62 -> world_ok w ->
  block_add fk nettype netconf cn_fast_hash check_signature known st chain_height accept_tx
    keys generate_signature my_keys my_pub is_service_node env start_time block_hash_at
    v height target txs w = Some w' ->
  cop_ok (w_cop w') /\ world_ok w'.
Proof using Hsizes Hknown.
  intros Hcop Hh Hw. unfold block_add, process_quorums.
  set (latest := Z.max chain_height target). set (enabled := voting_enabled st my_pub is_service_node).
  pose proof (quorum_heights_spec v height latest enabled (w_cop w) Hcop Hh) as Hspec.
  pose proof (quorum_heights_below v height latest enabled (w_cop w) Hcop Hh) as Hbelow.
  destruct (quorum_heights _ _ _ _ _) as [cop [obl chk]].
  destruct Hspec as (Hcop' & _ & _ & _ & _ & _). destruct Hbelow as [Hbo Hbc].
  destruct (foldl _ (Some w) obl) as [w1|] eqn:E1; [cbn [mbind option_bind]|done].
  intros [= <-]. pose proof (obl_steps_ok _ _ _ _ _ _ _ Hbo Hw E1) as Hw1.
  pose proof (chk_steps_ok (reorg_safety_buffer v) chk w1 Hbc Hw1) as (Hvp & Hall & Hcp & Hsub).
  split; [exact Hcop'|]. split_and!; try done.
  - apply used_step_ok. split; apply filter_pool_ok; by destruct Hvp.
  - by apply used_all, expired_all.
Qed.

End Block.

(** [set_votes_relayed] and [blockchain_detached] on the world. *)
Definition set_votes_relayed (votes : list quorum_vote_t) (now : Z) (w : world) : world :=
  with_vote_pool_of w (set_relayed (m_vote_pool (w_cop w)) votes now).

Definition detach (v : hf) (height : Z) (w : world) : world :=
  World (blockchain_detached v height (w_cop w)) (w_list w) (w_checkpoints w) (w_submitted w).

Lemma mark_relayed_all (P : pool_vote_entry -> Prop) l i now :
  (forall e t, P e -> P (PoolVoteEntry (pv_vote e) t)) -> Forall P l -> Forall P (mark_relayed l i now).
Proof.
  intros HP. induction 1 as [|e l He Hl IH]; cbn [mark_relayed]; [constructor|].
  destruct (_ =? _); constructor; auto.
Qed.

Lemma set_relayed_all (P : pool_vote_entry -> Prop) votes now vp :
  (forall e t, P e -> P (PoolVoteEntry (pv_vote e) t)) -> pool_all P vp ->
  pool_all P (set_relayed vp votes now).
Proof.
  intros HP. unfold set_relayed. revert vp. induction votes as [|v votes IH]; intros vp [Ho Hc]; [done|].
  cbn [foldl]. apply IH. unfold with_pool.
  set (f := fun l => (mark_relayed l (index_in_group v) now, ())).
  assert (Hf : forall l, Forall P l -> Forall P (f l).1) by (intros l Hl; by apply mark_relayed_all).
  pose proof (with_vote_pool_forall P (m_obligations_pool vp) v false f Ho Hf) as H1.
  pose proof (with_vote_pool_forall P (m_checkpoint_pool vp) v false f Hc Hf) as H2.
  destruct (_ =? _); [destruct (with_vote_pool (m_obligations_pool vp) v false f); by split|].
  destruct (_ =? _); [destruct (with_vote_pool (m_checkpoint_pool vp) v false f); by split|]. by split.
Qed.

End Safety.

(** What happens to the cop, with the quorums of the current chain and the heights to which it was
    detached: votes of peers arrive, blocks are added, votes are relayed; the chain gets new quorums;
    it is detached, which leaves the quorums below that height and the checkpoint quorum of that
    height, derived from an earlier block; and other parts change the list and the database of
    checkpoints.  The state of the list and what can be looked up are arbitrary at each step. *)
Section Runs.
Context (fk : list hard_fork) (nettype : network_type).
Context (cn_fast_hash : bytes -> bytes).
Context (check_signature : bytes -> bytes -> bytes -> bool).

Definition chain_view : Type := quorums_by * list Z.

Definition same_below (height : Z) (before after : quorums_by) : Prop :=
  (forall t h, h < height -> after t h = before t h) /\
  after vote_checkpointing height = before vote_checkpointing height.

Inductive world_step : chain_view * world -> chain_view * world -> Prop :=
  | step_vote quorum_at ds known st chain_height accept_tx vote w :
      known_of known quorum_at -> vote_typed vote ->
      world_step (quorum_at, ds, w)
        (quorum_at, ds, (handle_vote fk nettype cn_fast_hash check_signature known st chain_height accept_tx vote w).2)
  | step_block quorum_at ds known netconf st chain_height accept_tx keys generate_signature my_keys my_pub
      is_service_node env start_time block_hash_at v height target txs w w' :
      known_of known quorum_at -> 20 <= height < 2 ^ 62 ->
      block_add fk nettype netconf cn_fast_hash check_signature known st chain_height accept_tx
        keys generate_signature my_keys my_pub is_service_node env start_time block_hash_at
        v height target txs w = Some w' ->
      world_step (quorum_at, ds, w) (quorum_at, ds, w')
  | step_relay quorum_at ds votes now w : world_step (quorum_at, ds, w) (quorum_at, ds, set_votes_relayed votes now w)
  | step_quorums quorum_at quorum_at' ds w :
      known_of quorum_at quorum_at' -> sizes_ok quorum_at' ->
      database_ok fk nettype check_signature quorum_at' (w_checkpoints w) ->
      world_step (quorum_at, ds, w) (quorum_at', ds, w)
  | step_detach quorum_at quorum_at' ds v height cps w :
      0 <= height < 2 ^ 62 -> same_below height quorum_at quorum_at' -> sizes_ok quorum_at' ->
      database_ok fk nettype check_signature quorum_at' cps ->
      world_step (quorum_at, ds, w)
        (quorum_at', height :: ds, World (w_cop (detach v height w)) (w_list w) cps (w_submitted w))
  | step_others quorum_at ds nl cps w :
      database_ok fk nettype check_signature quorum_at cps ->
      world_step (quorum_at, ds, w) (quorum_at, ds, World (w_cop w) nl cps (w_submitted w)).

Abbreviation ok := (world_ok fk nettype cn_fast_hash check_signature).

(** After a detach only votes for heights up to it are left. *)
Lemma culled_votes {T} `{PEL : PoolEntryLaws T} (P : pool_vote_entry -> Prop) t (pool : list T) lo hi :
  pool_ok t pool -> pool_forall P pool -> pool_forall (fun e => P e /\ block_height (pv_vote e) <= hi) (cull_votes pool lo hi).
Proof using Type.
  intros [Hok _] Hall. unfold pool_forall in *. rewrite Forall_forall in Hok, Hall. apply Forall_forall.
  intros g [Hg Hin]%list_elem_of_filter. destruct (Hok g Hin) as (_ & _ & Hkeys). specialize (Hall g Hin). cbn beta in Hall.
  rewrite Forall_forall in Hkeys, Hall. apply Forall_forall. intros e He. split; [by apply Hall|].
  destruct (Hkeys e He) as [_ Hk]. symmetry in Hk. apply height_of_key in Hk. lia.
Qed.

Lemma detached_votes (P : pool_vote_entry -> Prop) vp height :
  vp_ok vp -> pool_all P vp -> pool_all (fun e => P e /\ block_height (pv_vote e) <= height) (remove_expired_votes vp height).
Proof using Type. intros [Hv1 Hv2] [Ho Hc]. split; by eapply culled_votes. Qed.

Lemma pool_all_impl (P Q : pool_vote_entry -> Prop) vp : (forall e, P e -> Q e) -> pool_all P vp -> pool_all Q vp.
Proof using Type.
  intros HPQ [Ho Hc]. split; (eapply Forall_impl; [eassumption|]); intros g Hg; exact (Forall_impl _ _ _ Hg HPQ).
Qed.

Lemma world_ok_now quorum_at ds before w : ok quorum_at ds before w -> ok quorum_at ds (w_submitted w) w.
Proof using Type. intros (H1 & H2 & H3 & _). split_and!; [done..|]. exists []. by rewrite app_nil_r. Qed.

Lemma detached_pooled G G' ds height e :
  same_below height G G' ->
  pooled_ok fk nettype cn_fast_hash check_signature G ds e /\ block_height (pv_vote e) <= height ->
  pooled_ok fk nettype cn_fast_hash check_signature G' (height :: ds) e.
Proof using Type.
  intros [Hlow Hcp] [[[Ht Hd]|(q & Hq & He)] Hle]; [left; split; [done|by right]|].
  destruct (Z.eq_dec (block_height (pv_vote e)) height) as [Heq|].
  - destruct He as (Hi & vvc & vvc' & He).
    destruct (verified_type _ _ _ _ _ _ _ He) as [Ht|Ht].
    + left. split; [done|]. rewrite Heq. by left.
    + right. exists q. split; [by rewrite Ht, Heq, Hcp, <- Heq, <- Ht|]. split; [done|by exists vvc, vvc'].
  - right. exists q. split; [|done]. rewrite Hlow; [done|lia].
Qed.

Abbreviation submissions s s' := (exists new, w_submitted s'.2 = w_submitted s.2 ++ new /\
  Forall (submitted_ok fk nettype cn_fast_hash check_signature s.1.1 s.1.2) new).

Lemma world_step_ok s s' :
  world_step s s' -> sizes_ok s.1.1 -> cop_ok (w_cop s.2) -> ok s.1.1 s.1.2 (w_submitted s.2) s.2 ->
  sizes_ok s'.1.1 /\ cop_ok (w_cop s'.2) /\ ok s'.1.1 s'.1.2 (w_submitted s'.2) s'.2 /\ submissions s s'.
Proof using Type.
  intros Hstep Hs Hcop Hw. destruct Hstep as [G ds known st ch acc vote w Hk Hv|G ds known ? ? ? ? ? ? ? ? ? ? ? ? v height tgt txs w w' Hk Hh Hb|
    G ds votes now w|G G' ds w Hk Hs' Hdb|G G' ds v height cps w Hh Hsame Hs' Hdb|G ds nl cps w Hdb]; cbn [fst snd] in *.
  - pose proof (handle_vote_ok _ _ _ _ _ _ _ Hs Hk _ st ch acc vote w Hv Hw) as Hw'.
    split_and!; [done| |by eapply world_ok_now|by apply Hw']. unfold handle_vote, update_checkpoint.
    repeat (case_match; simplify_eq); done.
  - destruct (block_add_ok _ _ _ _ _ _ _ Hs Hk _ _ _ _ _ _ _ _ _ _ _ _ _ _ _ _ _ _ _ Hcop Hh Hw Hb) as [Hcop' Hw'].
    split_and!; [done|done|by eapply world_ok_now|by apply Hw'].
  - destruct Hw as (Hvp & Hall & Hcp & _). split_and!; [done|done| |exists []; by rewrite app_nil_r].
    split_and!; [apply set_relayed_ok; exact Hvp|by apply set_relayed_all|done|exists []; by rewrite app_nil_r].
  - destruct Hw as (Hvp & Hall & Hcp & _). split_and!; [done|done| |exists []; by rewrite app_nil_r].
    split_and!; [done| |done|exists []; by rewrite app_nil_r].
    eapply pool_all_impl; [|exact Hall]. intros e [?|(q & Hq & He)]; [by left|right]. exists q. split; [by apply Hk|done].
  - unfold detach. destruct Hw as (Hvp & Hall & Hcp & _). split_and!; [done|by apply blockchain_detached_ok| |exists []; by rewrite app_nil_r].
    split_and!; [split; apply filter_pool_ok; by destruct Hvp| |done|exists []; by rewrite app_nil_r].
    eapply pool_all_impl; [|exact (detached_votes _ _ height Hvp Hall)].
    intros e He. by eapply detached_pooled.
  - destruct Hw as (Hvp & Hall & Hcp & _). split_and!; [done|done| |exists []; by rewrite app_nil_r].
    split_and!; [done|done|done|exists []; by rewrite app_nil_r].
Qed.

Lemma reachable_world_ok s s' :
  rtc world_step s s' -> sizes_ok s.1.1 -> cop_ok (w_cop s.2) -> ok s.1.1 s.1.2 (w_submitted s.2) s.2 ->
  sizes_ok s'.1.1 /\ cop_ok (w_cop s'.2) /\ ok s'.1.1 s'.1.2 (w_submitted s'.2) s'.2.
Proof using Type.
  induction 1 as [s|s1 s2 s3 Hstep _ IH]; intros Hs Hcop Hw; [done|].
  destruct (world_step_ok _ _ Hstep Hs Hcop Hw) as (? & ? & ? & _). by apply IH.
Qed.

Lemma votes_reachable G ds known st chain_height accept_tx votes w :
  known_of known G -> Forall vote_typed votes ->
  rtc world_step (G, ds, w) (G, ds, handle_votes fk nettype cn_fast_hash check_signature known st chain_height accept_tx votes w).
Proof using Type.
  intros Hk Hall. revert w. induction Hall as [|v votes Hv Hall IH]; intros w; [apply rtc_refl|].
  eapply rtc_l; [by apply step_vote | apply IH].
Qed.
End Runs.

(** The world of a daemon that has just started, with the checkpoints it has stored. *)
Definition initial_world (nl : node_list) (cps : gmap Z checkpoint_t) : world := World (QuorumCop 0 0 empty_pool) nl cps [].

(** (C8) In every run of the quorum cop (votes of peers arriving in any order, valid or not, blocks
    added from height 20 on, votes relayed, the chain growing and being detached, the database of
    checkpoints changed by other parts) the pool holds one vote per voter and target, and only
    votes that the quorum of their height on the current chain verified, but for obligations
    votes at a height to which the chain was detached: their quorum may have changed, and the
    code keeps them ([detached_height_votes_stay]).  Every stored checkpoint at a height with a
    quorum passes verification by it; and every state change transaction that a step submits, to
    one of the four states and for another height than those, passes verification by the quorum
    of its height at every height at which its votes are not expired.  The database of
    checkpoints that the cop starts with, and that the other parts leave when they change it or
    the chain changes, is assumed to hold, at heights with a quorum, checkpoints that pass. *)
Theorem quorum_cop_safe fk nettype cn_fast_hash check_signature start nl cps quorum_at detached w :
  sizes_ok start -> database_ok fk nettype check_signature start cps ->
  rtc (world_step fk nettype cn_fast_hash check_signature)
    (start, [], initial_world nl cps) (quorum_at, detached, w) ->
  vp_ok (m_vote_pool (w_cop w)) /\
  pool_all (pooled_ok fk nettype cn_fast_hash check_signature quorum_at detached) (m_vote_pool (w_cop w)) /\
  database_ok fk nettype check_signature quorum_at (w_checkpoints w) /\
  (forall next, world_step fk nettype cn_fast_hash check_signature (quorum_at, detached, w) next ->
     exists new, w_submitted next.2 = w_submitted w ++ new /\
       Forall (submitted_ok fk nettype cn_fast_hash check_signature quorum_at detached) new).
Proof.
  intros Hs Hdb Hrun.
  destruct (reachable_world_ok fk nettype cn_fast_hash check_signature _ _ Hrun Hs) as (Hs' & Hcop & Hw).
  - done.
  - split_and!; [repeat split; constructor|repeat split; constructor|exact Hdb|]. exists []. split; [done|constructor].
  - pose proof Hw as (Hvp & Hall & Hcp & _). split_and!; [done..|]. intros next Hstep.
    by destruct (world_step_ok _ _ _ _ _ _ Hstep Hs' Hcop Hw) as (_ & _ & _ & ?).
Qed.

Definition demo_quorum_at (t h : Z) : option quorum :=
  if t =? vote_obligations then Some (Quorum (demo_keys 10) (demo_keys 3))
  else if h mod CHECKPOINT_INTERVAL =? 0 then Some (Quorum (demo_keys 20) []) else None.

Lemma demo_sizes : sizes_ok demo_quorum_at.
Proof.
  split; intros h q Hq; unfold demo_quorum_at in Hq.
  - cbn in Hq. injection Hq as <-. cbn. lia.
  - cbn [Z.eqb vote_checkpointing vote_obligations] in Hq.
    destruct (Z.eqb_spec (h mod CHECKPOINT_INTERVAL) 0); [|done]. injection Hq as <-. cbn. split; [lia | done].
Qed.

(** Thirteen checkpoint votes and six decommission votes lead to a stored checkpoint; the seventh
    submits a transaction. *)
Lemma quorum_cop_safe_witness :
  exists w next,
    rtc (world_step [] MAINNET (fun m => m) demo_check) (demo_quorum_at, [], initial_world demo_list ∅) (demo_quorum_at, [], w) /\
    database_ok [] MAINNET demo_check demo_quorum_at (w_checkpoints w) /\ is_Some (w_checkpoints w !! 4900) /\
    world_step [] MAINNET (fun m => m) demo_check (demo_quorum_at, [], w) (demo_quorum_at, [], next) /\
    exists sc, w_submitted next = [sc] /\ submitted_ok [] MAINNET (fun m => m) demo_check demo_quorum_at [] sc.
Proof.
  set (votes := pv_vote <$> (demo_pool 4900 vote_checkpointing 13 ++ demo_pool 4900 vote_obligations 6)).
  set (w := handle_votes [] MAINNET (fun m => m) demo_check demo_quorum_at (demo_state 4950) 4950
              (fun _ => true) votes (initial_world demo_list ∅)).
  assert (Hrun : rtc (world_step [] MAINNET (fun m => m) demo_check) (demo_quorum_at, [], initial_world demo_list ∅) (demo_quorum_at, [], w)).
  { apply votes_reachable; [by intros t h q|]. unfold votes. repeat constructor; discriminate. }
  set (next := (handle_vote [] MAINNET (fun m => m) demo_check demo_quorum_at (demo_state 4950) 4950 (fun _ => true)
                  (demo_member_vote 4900 vote_obligations 8) w).2).
  assert (Hnext : world_step [] MAINNET (fun m => m) demo_check (demo_quorum_at, [], w) (demo_quorum_at, [], next)).
  { apply step_vote; [by intros t h q|]. repeat split; discriminate. }
  destruct (quorum_cop_safe [] MAINNET (fun m => m) demo_check demo_quorum_at demo_list ∅ demo_quorum_at [] w demo_sizes
    (map_Forall_empty _) Hrun) as (_ & _ & Hcp & Hsub).
  exists w, next. split; [exact Hrun|]. split; [exact Hcp|]. split; [eexists; vm_compute; reflexivity|]. split; [exact Hnext|].
  destruct (Hsub _ Hnext) as (new & Hnew & Hall). cbn [snd] in Hnew.
  assert (E : w_submitted w = [] /\ length (w_submitted next) = 1%nat) by (split; vm_compute; reflexivity).
  destruct E as [E1 E2]. rewrite E1 in Hnew. cbn [app] in Hnew. rewrite Hnew in E2 |- *.
  destruct new as [|sc [|? ?]]; [discriminate E2| |discriminate E2]. exists sc. split; [reflexivity|].
  by apply Forall_cons in Hall as [? _].
Defined.

(** Another block at the detached height has another quorum: six votes of the old one are still there,
    and with one vote of the new one they make a transaction that the new one does not verify. *)
Lemma detached_height_votes_stay :
  let other := Quorum ((fun k => 0 :: k) <$> demo_keys 10) (demo_keys 3) in
  let votes := pv_vote <$> demo_pool 4900 vote_obligations 6 in
  let w := handle_votes [] MAINNET (fun m => m) demo_check demo_quorum_at (demo_state 4950) 4950 (fun _ => true) votes
             (initial_world demo_list ∅) in
  let w := World (blockchain_detached hf22_sn_policy 4900 (w_cop w)) (w_list w) ∅ [] in
  let vote := demo_member_vote 4900 vote_obligations 8 in
  let vote := QuorumVote 0 vote_obligations 4900 group_validator 8 (0 :: vote_signature vote) (state_change vote) [9] in
  let w := (handle_vote [] MAINNET (fun m => m) demo_check (fun _ _ => Some other) (demo_state 4950) 4950 (fun _ => true) vote w).2 in
  match w_submitted w with
  | [sc] => fst <$> verify_tx_state_change (fun m => m) demo_check sc 4950 (Tvc false no_flags) other hf22_sn_policy
  | _ => None
  end = Some false.
Proof. vm_compute. reflexivity. Qed.
