(* ===== verification/Random.v ===== *)
(** * Deterministic random numbers

    [common/random.{h,cpp}]: [uniform_distribution_portable] and [shuffle_portable], over the
    generator interface of the C++ library ([Engine]), of which [std::mt19937_64] is an
    instance.  The rejection loop of [uniform_distribution_portable] has no bound in the
    code; here it has [fuel] rounds, and [post] says that a computation meets a
    postcondition unless the engine rejects that many draws in a row. *)
From S2P Require Import Prelude.

(** ** Engines *)

(** A 64-bit generator: an output and the next state. *)
Class Engine (G : Type) := next : G -> Z * G.

(** What the C++ library promises of a [uint64_t] generator. *)
Class EngineLaws (G : Type) `{Engine G} := {
  next_range (g : G) : is_u64 (next g).1;
}.

(** [std::mt19937_64], as the standard defines it: the last [n] words of the recurrence, the
    oldest first. *)
Module Mt19937_64.

Definition n : nat := 312.
Definition m : nat := 156.
Definition a : Z := 0xb5026f5aa96619e9.
Definition f : Z := 6364136223846793005.
Definition lower_mask : Z := 0x7fffffff.
Definition upper_mask : Z := 0xffffffff80000000.
Definition default_seed : Z := 5489.

Record t := Mt { words : list Z }.

Fixpoint seed_words (fuel : nat) (i x : Z) : list Z :=
  match fuel with
  | O => []
  | S fuel => let x := u64 (f * Z.lxor x (Z.shiftr x 62) + i) in x :: seed_words fuel (i + 1) x
  end.

Definition seed (value : Z) : t := Mt (u64 value :: seed_words (n - 1) 1 (u64 value)).

Definition twist (ws : list Z) : Z :=
  let y := Z.lor (Z.land (nth 0 ws 0) upper_mask) (Z.land (nth 1 ws 0) lower_mask) in
  u64 (Z.lxor (Z.lxor (nth m ws 0) (Z.shiftr y 1)) (if Z.odd y then a else 0)).

Definition temper (z : Z) : Z :=
  let z := Z.lxor z (Z.land (Z.shiftr z 29) 0x5555555555555555) in
  let z := Z.lxor z (Z.land (Z.shiftl z 17) 0x71d67fffeda60000) in
  let z := Z.lxor z (Z.land (Z.shiftl z 37) 0xfff7eee000000000) in
  u64 (Z.lxor z (Z.shiftr z 43)).

Definition generate (g : t) : Z * t :=
  let x := twist (words g) in
  (temper x, Mt (tail (words g) ++ [x])).

#[global] Instance engine : Engine t := generate.
#[global] Instance engine_laws : EngineLaws t.
Proof. constructor. intros g. apply u64_range. Qed.

(** The value the C++ standard requires of the 10000th output of a default engine. *)
Example tenth_thousandth :
  (generate (Nat.iter (Z.to_nat 9999) (fun g => (generate g).2) (seed default_seed))).1 = 9981545732273789042.
Proof. vm_compute. reflexivity. Qed.

End Mt19937_64.

(** ** Computations that draw numbers *)

(** A rejection loop may run out of fuel, and a standard container may throw. *)
Inductive outcome (A : Type) := Returned (x : A) | Stalled | Thrown.
Arguments Returned {A} x.
Arguments Stalled {A}.
Arguments Thrown {A}.

#[export] Instance outcome_ret : MRet outcome := fun A x => Returned x.
#[export] Instance outcome_bind : MBind outcome :=
  fun A B f o => match o with Returned x => f x | Stalled => Stalled | Thrown => Thrown end.

Definition rand (G A : Type) : Type := G -> outcome (A * G).

#[export] Instance rand_ret {G} : MRet (rand G) := fun A x g => Returned (x, g).
#[export] Instance rand_bind {G} : MBind (rand G) :=
  fun A B f m g => match m g with
                   | Returned (x, g') => f x g'
                   | Stalled => Stalled
                   | Thrown => Thrown
                   end.

Lemma ret_bind {G A B} (x : A) (f : A -> rand G B) : mret x ≫= f = f x.
Proof. reflexivity. Qed.

(** [std::out_of_range]. *)
Definition throw {G A} : rand G A := fun _ => Thrown.

(** A computation from a given engine, which is then discarded. *)
Definition run {G A} (m : rand G A) (g : G) : outcome A :=
  match m g with Returned (x, _) => Returned x | Stalled => Stalled | Thrown => Thrown end.

(** An outcome that is a value meeting [P], or a stall that [S] explains. *)
Definition ends {A} (o : outcome A) (P : A -> Prop) (S : Prop) : Prop :=
  match o with Returned x => P x | Stalled => S | Thrown => False end.

Lemma ends_ret {A} (x : A) (P : A -> Prop) S : P x -> ends (mret x) P S.
Proof. done. Qed.

Lemma ends_bind {A B} (o : outcome A) (f : A -> outcome B) (P : A -> Prop) (Q : B -> Prop) S :
  ends o P S -> (forall x, P x -> ends (f x) Q S) -> ends (o ≫= f) Q S.
Proof. intros Ho Hf. destruct o; cbn in *; auto. Qed.

Lemma ends_mono {A} (o : outcome A) (P Q : A -> Prop) (S T : Prop) :
  ends o P S -> (forall x, P x -> Q x) -> (S -> T) -> ends o Q T.
Proof. intros Ho HP HS. destruct o; cbn in *; auto. Qed.

(** The value returned, without the engine. *)
Definition value {G A} (o : outcome (A * G)) : option A :=
  match o with Returned (x, _) => Some x | _ => None end.

Section Draw.
Context {G : Type} `{Engine G} (fuel : nat).

(** The [do ... while] loop. *)
Fixpoint draw_below (rounds : nat) (secure_max : Z) : rand G Z := fun g =>
  match rounds with
  | O => Stalled
  | S rounds =>
      let '(x, g) := next g in
      if secure_max <=? x then draw_below rounds secure_max g else Returned (x, g)
  end.

Definition uniform_distribution_portable (n : Z) : rand G Z :=
  let secure_max := UINT64_MAX - UINT64_MAX mod n in
  x ← draw_below fuel secure_max; mret (x / (secure_max / n)).

(** [std::swap] of two elements of a sequence. *)
Definition swap {A} (i j : nat) (l : list A) : list A :=
  match l !! i, l !! j with
  | Some x, Some y => <[j := x]> (<[i := y]> l)
  | _, _ => l
  end.

(** The loop of [shuffle_portable] from index [i] on, [k] rounds before the end. *)
Fixpoint shuffle_from {A} (k i : nat) (l : list A) : rand G (list A) :=
  match k with
  | O => mret l
  | S k =>
      j ← uniform_distribution_portable (Z.of_nat i + 1);
      shuffle_from k (S i) (swap i (Z.to_nat j) l)
  end.

Definition shuffle_portable {A} (l : list A) : rand G (list A) :=
  if (length l <=? 1)%nat then mret l else shuffle_from (length l - 1) 1 l.

(** ** Postconditions *)

Definition advance (k : nat) (g : G) : G := Nat.iter k (fun g => (next g).2) g.

(** The next [fuel] outputs are all in the upper half of the range, where alone a draw is
    ever rejected. *)
Definition stalls_at (g : G) : Prop :=
  forall k, (k < fuel)%nat -> 2 ^ 63 <= (next (advance k g)).1.

Definition stalls (g : G) : Prop := exists k, stalls_at (advance k g).

(** From every state the computation returns a value that meets [P], or throws where [T]
    holds, unless the engine stalls somewhere in the sequence from that state. *)
Definition triple {A} (m : rand G A) (P : A -> Prop) (T : Prop) : Prop :=
  forall g, match m g with
            | Returned (x, g') => P x /\ exists k, g' = advance k g
            | Stalled => stalls g
            | Thrown => T
            end.

(** It does not throw. *)
Definition post {A} (m : rand G A) (P : A -> Prop) : Prop := triple m P False.

Lemma advance_add j k g : advance j (advance k g) = advance (j + k) g.
Proof. unfold advance. by rewrite Nat.iter_add. Qed.

Lemma triple_ret {A} (x : A) (P : A -> Prop) T : P x -> triple (mret x) P T.
Proof. intros Hx g. split; [done|]. by exists 0%nat. Qed.

Lemma triple_throw {A} (P : A -> Prop) (T : Prop) : T -> triple throw P T.
Proof. by intros HT g. Qed.

Lemma triple_bind {A B} (m : rand G A) (f : A -> rand G B) (P : A -> Prop) (Q : B -> Prop) T :
  triple m P T -> (forall x, P x -> triple (f x) Q T) -> triple (m ≫= f) Q T.
Proof.
  intros Hm Hf g. specialize (Hm g). unfold mbind, rand_bind.
  destruct (m g) as [[x g']| |]; [|done..]. destruct Hm as [Hx [k ->]].
  specialize (Hf x Hx (advance k g)). destruct (f x (advance k g)) as [[y g'']| |]; [| |done].
  - destruct Hf as [Hy [j ->]]. split; [done|]. exists (j + k)%nat. apply advance_add.
  - destruct Hf as [j Hj]. exists (j + k)%nat. by rewrite <- advance_add.
Qed.

Lemma triple_mono {A} (m : rand G A) (P Q : A -> Prop) (T T' : Prop) :
  triple m P T -> (forall x, P x -> Q x) -> (T -> T') -> triple m Q T'.
Proof.
  intros Hm HPQ HT g. specialize (Hm g). destruct (m g) as [[x g']| |]; [|done | auto].
  destruct Hm as [Hx Hk]. auto.
Qed.

Lemma post_ret {A} (x : A) (P : A -> Prop) : P x -> post (mret x) P.
Proof. apply triple_ret. Qed.

Lemma post_bind {A B} (m : rand G A) (f : A -> rand G B) (P : A -> Prop) (Q : B -> Prop) :
  post m P -> (forall x, P x -> post (f x) Q) -> post (m ≫= f) Q.
Proof. apply triple_bind. Qed.

Lemma post_mono {A} (m : rand G A) (P Q : A -> Prop) :
  post m P -> (forall x, P x -> Q x) -> post m Q.
Proof. intros Hm HPQ. by eapply triple_mono. Qed.

Lemma post_triple {A} (m : rand G A) (P : A -> Prop) T : post m P -> triple m P T.
Proof. intros Hm. by eapply triple_mono. Qed.

Lemma post_run {A} (m : rand G A) (P : A -> Prop) g : post m P -> ends (run m g) P (stalls g).
Proof.
  intros Hm. specialize (Hm g). unfold run. destruct (m g) as [[x g']| |]; [apply Hm | done | done].
Qed.

(** A result of the computation meets its postcondition. *)
Lemma post_value {A} (m : rand G A) (P : A -> Prop) g x :
  post m P -> value (m g) = Some x -> P x.
Proof.
  intros Hm E. specialize (Hm g). destruct (m g) as [[y g']| |]; cbn in E; [|done..].
  injection E as <-. apply Hm.
Qed.

(** ** The uniform distribution *)

Lemma secure_max_spec n :
  1 <= n <= UINT64_MAX ->
  let q := UINT64_MAX / n in
  UINT64_MAX - UINT64_MAX mod n = q * n /\ (UINT64_MAX - UINT64_MAX mod n) / n = q /\ 1 <= q /\
  2 ^ 63 <= q * n.
Proof.
  intros Hn q. pose proof (Z.div_mod UINT64_MAX n ltac:(lia)) as E.
  pose proof (Z.mod_pos_bound UINT64_MAX n ltac:(lia)) as Hr. fold q in E.
  assert (Hq : 1 <= q) by (unfold q; apply Z.div_le_lower_bound; lia).
  assert (Hs : UINT64_MAX - UINT64_MAX mod n = q * n) by lia.
  split; [done|]. rewrite Hs, Z.div_mul by lia. split_and!; [done..|].
  unfold UINT64_MAX in *. clearbody q. nia.
Qed.

Lemma draw_below_post `{!EngineLaws G} secure_max :
  2 ^ 63 <= secure_max -> post (draw_below fuel secure_max) (fun x => 0 <= x < secure_max).
Proof.
  intros Hmax g. unfold stalls, stalls_at.
  cut (match draw_below fuel secure_max g with
       | Returned (x, g') => 0 <= x < secure_max /\ exists k, g' = advance k g
       | Stalled => forall k, (k < fuel)%nat -> 2 ^ 63 <= (next (advance k g)).1
       | Thrown => False
       end).
  { destruct (draw_below fuel secure_max g) as [[x g']| |]; [done| |done]. by exists 0%nat. }
  revert g. induction fuel as [|r IH]; intros g; cbn [draw_below]; [lia|].
  pose proof (next_range g) as Hr. destruct (next g) as [x g1] eqn:E. cbn in Hr.
  assert (Hadv : forall k, advance k g1 = advance (S k) g).
  { intros k. replace (S k) with (k + 1)%nat by lia. rewrite <- advance_add. cbn. by rewrite E. }
  destruct (Z.leb_spec secure_max x) as [Hx|Hx].
  - specialize (IH g1). destruct (draw_below r secure_max g1) as [[y g2]| |]; [| |done].
    + destruct IH as [Hy [k ->]]. split; [done|]. eauto.
    + intros [|k] Hk; [cbn; rewrite E; cbn; lia|]. rewrite <- Hadv. apply IH. lia.
  - split; [width|]. exists 1%nat. cbn. by rewrite E.
Qed.

Lemma uniform_post `{!EngineLaws G} n :
  1 <= n <= UINT64_MAX -> post (uniform_distribution_portable n) (fun x => 0 <= x < n).
Proof.
  intros Hn. destruct (secure_max_spec n Hn) as (Hs & Hq & Hq1 & Hbig).
  eapply post_bind; [apply draw_below_post; by rewrite Hs|]. intros x Hx. apply post_ret.
  rewrite Hq. rewrite Hs in Hx. split; [apply Z.div_pos; lia|].
  apply Z.div_lt_upper_bound; lia.
Qed.

End Draw.

(** The uniform distribution is exact: a draw is rejected from the largest multiple of
    [n] below [2^64] on, and each value below [n] is the result of the same number of
    accepted draws, an interval of that length. *)
Theorem uniform_distribution_exact {G} `{Engine G} fuel n (g : G) x g' :
  1 <= n <= UINT64_MAX -> next g = (x, g') ->
  let q := UINT64_MAX / n in
  uniform_distribution_portable (S fuel) n g =
    (if q * n <=? x then uniform_distribution_portable fuel n g' else Returned (x / q, g')) /\
  2 ^ 63 <= q * n /\
  (forall v y, 0 <= v < n -> y < q * n /\ y / q = v <-> v * q <= y < (v + 1) * q).
Proof.
  intros Hn E q. destruct (secure_max_spec n Hn) as (Hs & Hq & Hq1 & Hbig). fold q in Hs, Hq, Hq1, Hbig.
  split_and!; [|done|].
  - unfold uniform_distribution_portable, mbind, rand_bind. cbn [draw_below]. rewrite E, Hq, Hs.
    by destruct (q * n <=? x).
  - intros v y Hv. split.
    + intros [Hy <-]. pose proof (Z.div_mod y q ltac:(lia)). pose proof (Z.mod_pos_bound y q ltac:(lia)). lia.
    + intros Hy. split; [nia|]. symmetry. apply (Z.div_unique y q v (y - v * q)); lia.
Qed.

Lemma uniform_distribution_exact_witness :
  let g := Mt19937_64.seed 1 in
  uniform_distribution_portable 2 10 g = Returned (1, (next g).2) /\ 2 ^ 63 <= UINT64_MAX / 10 * 10.
Proof.
  destruct (uniform_distribution_exact 1 10 (Mt19937_64.seed 1) (next (Mt19937_64.seed 1)).1
              (next (Mt19937_64.seed 1)).2) as (_ & Hbig & _);
    [unfold UINT64_MAX; lia | vm_compute; reflexivity | split; [vm_compute; reflexivity | exact Hbig]].
Defined.

(** ** Shuffling *)

Section Swap.
Context {A : Type}.
Implicit Types l : list A.

Lemma swap_same i l : swap i i l = l.
Proof.
  unfold swap. destruct (l !! i) as [x|] eqn:E; [|done]. rewrite list_insert_insert_eq. by apply list_insert_id.
Qed.

Lemma length_swap i j l : length (swap i j l) = length l.
Proof. unfold swap. destruct (l !! i), (l !! j); rewrite ?length_insert; done. Qed.

Lemma swap_perm i j l : swap i j l ≡ₚ l.
Proof.
  unfold swap. destruct (l !! i) as [x|] eqn:Ei; [|done]. destruct (l !! j) as [y|] eqn:Ej; [|done].
  destruct (decide (i = j)) as [<-|Hne].
  { simplify_eq. rewrite list_insert_insert_eq. by rewrite list_insert_id. }
  apply Permutation_inj. split; [by rewrite !length_insert|].
  set (f := fun k => if decide (k = i) then j else if decide (k = j) then i else k).
  exists f. split.
  - intros a b. unfold f. repeat case_decide; congruence.
  - intros k. pose proof (lookup_lt_Some _ _ _ Ei). pose proof (lookup_lt_Some _ _ _ Ej). unfold f.
    destruct (decide (k = j)) as [->|Hj].
    + rewrite list_lookup_insert_eq by (by rewrite length_insert). by rewrite decide_False by done.
    + rewrite list_lookup_insert_ne by done. destruct (decide (k = i)) as [->|Hi].
      * by rewrite list_lookup_insert_eq.
      * by rewrite list_lookup_insert_ne.
Qed.

Lemma swap_app_l i j l l' :
  (i < length l)%nat -> (j < length l)%nat -> swap i j (l ++ l') = swap i j l ++ l'.
Proof.
  intros Hi Hj. unfold swap. rewrite !lookup_app_l by done.
  destruct (lookup_lt_is_Some_2 _ _ Hi) as [x ->], (lookup_lt_is_Some_2 _ _ Hj) as [y ->].
  rewrite insert_app_l by done. by rewrite insert_app_l by (by rewrite length_insert).
Qed.

(** The rounds of the shuffle for given draws, from index [i] on. *)
Fixpoint apply_draws (i : nat) (js : list nat) (l : list A) : list A :=
  match js with
  | [] => l
  | j :: js => apply_draws (S i) js (swap i j l)
  end.

(** The draw of round [k] chooses among the first [k + 2] elements. *)
Definition draws (js : list nat) : Prop := forall k j, js !! k = Some j -> (j <= S k)%nat.

Lemma length_apply_draws i js l : length (apply_draws i js l) = length l.
Proof. revert i l. induction js as [|j js IH]; intros i l; [done|]. cbn. by rewrite IH, length_swap. Qed.

Lemma apply_draws_perm i js l : apply_draws i js l ≡ₚ l.
Proof. revert i l. induction js as [|j js IH]; intros i l; [done|]. cbn. by rewrite IH, swap_perm. Qed.

Lemma apply_draws_snoc i js j l :
  apply_draws i (js ++ [j]) l = swap (i + length js) j (apply_draws i js l).
Proof.
  revert i l. induction js as [|j' js IH]; intros i l; cbn [apply_draws app length]; [by rewrite Nat.add_0_r|].
  rewrite IH. f_equal. lia.
Qed.

Lemma apply_draws_app_l js l l' :
  draws js -> (length js < length l)%nat -> apply_draws 1 js (l ++ l') = apply_draws 1 js l ++ l'.
Proof.
  intros Hjs Hlen. induction js as [|j js IH] using rev_ind; [done|].
  rewrite length_app in Hlen. cbn in Hlen.
  rewrite !apply_draws_snoc, IH; [|intros k x Hk; apply Hjs; by apply lookup_app_l_Some | lia].
  apply swap_app_l; rewrite length_apply_draws; [lia|].
  assert (j <= S (length js))%nat; [|lia]. apply Hjs. rewrite lookup_app_r by lia. by rewrite Nat.sub_diag.
Qed.

Lemma swap_lookup_r i j l x : (j < length l)%nat -> l !! i = Some x -> swap i j l !! j = Some x.
Proof.
  intros Hj Hi. unfold swap. rewrite Hi. destruct (lookup_lt_is_Some_2 _ _ Hj) as [y ->].
  by rewrite list_lookup_insert_eq by (by rewrite length_insert).
Qed.

Lemma swap_lookup_l i j l y : (i < length l)%nat -> l !! j = Some y -> swap i j l !! i = Some y.
Proof.
  intros Hi Hj. unfold swap. destruct (lookup_lt_is_Some_2 _ _ Hi) as [x E]. rewrite E, Hj.
  destruct (decide (i = j)) as [<-|].
  - rewrite list_lookup_insert_eq by (by rewrite length_insert). congruence.
  - rewrite list_lookup_insert_ne by done. by rewrite list_lookup_insert_eq.
Qed.

Lemma swap_lookup_ne i j k l : k <> i -> k <> j -> swap i j l !! k = l !! k.
Proof. intros Hi Hj. unfold swap. destruct (l !! i), (l !! j); by rewrite ?list_lookup_insert_ne by done. Qed.

Lemma swap_swap i j l : (i < length l)%nat -> (j < length l)%nat -> swap i j (swap i j l) = l.
Proof.
  intros Hi Hj. destruct (lookup_lt_is_Some_2 _ _ Hi) as [x Ex], (lookup_lt_is_Some_2 _ _ Hj) as [y Ey].
  apply list_eq. intros k. destruct (decide (k = j)) as [->|Hkj].
  { rewrite Ey. apply swap_lookup_r; [by rewrite length_swap | by apply swap_lookup_l]. }
  destruct (decide (k = i)) as [->|Hki].
  { rewrite Ex. apply swap_lookup_l; [by rewrite length_swap | by apply swap_lookup_r]. }
  by rewrite !swap_lookup_ne.
Qed.

Lemma split_last l n x : length l = S n -> l !! n = Some x -> l = take n l ++ [x].
Proof.
  intros Hlen Hx. rewrite <- (take_drop n l) at 1. f_equal. apply list_eq. intros [|k].
  - by rewrite lookup_drop, Nat.add_0_r.
  - rewrite lookup_drop. by rewrite !lookup_ge_None_2 by (cbn; lia).
Qed.

(** Exchanging the last element with the one at [j] is undone by exchanging them again. *)
Lemma swap_last_inv j l l' x :
  l' !! j = Some x -> l' ≡ₚ l ++ [x] ->
  exists l1, l1 ≡ₚ l /\ swap (length l) j (l1 ++ [x]) = l'.
Proof.
  intros Hj Hp. assert (Hlen : length l' = S (length l)) by (rewrite Hp, length_app; cbn; lia).
  pose proof (lookup_lt_Some _ _ _ Hj) as Hjl.
  pose proof (split_last (swap (length l) j l') (length l) x) as Hs.
  rewrite length_swap in Hs. specialize (Hs Hlen (swap_lookup_l (length l) j l' x ltac:(lia) Hj)).
  exists (take (length l) (swap (length l) j l')). split.
  - apply (Permutation_app_inv_r [x]). rewrite <- Hs. by rewrite swap_perm.
  - rewrite <- Hs. apply swap_swap; lia.
Qed.

Lemma draws_app js js' : draws (js ++ js') -> draws js.
Proof. intros H k j Hk. apply H. by apply lookup_app_l_Some. Qed.

Lemma draws_snoc js j : draws js -> (j <= S (length js))%nat -> draws (js ++ [j]).
Proof.
  intros H Hj k x Hk. apply lookup_app_Some in Hk as [Hk|[Hk Hx]]; [by apply H|].
  destruct (k - length js)%nat as [|d] eqn:E; [|done]. injection Hx as <-. lia.
Qed.

Lemma draws_last js j : draws (js ++ [j]) -> (j <= S (length js))%nat.
Proof. intros H. apply H. rewrite lookup_app_r by lia. by rewrite Nat.sub_diag. Qed.

(** Every order of the elements comes from exactly one sequence of draws. *)
Lemma apply_draws_bijective l l' :
  NoDup l -> l' ≡ₚ l ->
  exists js, (length js = length l - 1)%nat /\ draws js /\ apply_draws 1 js l = l' /\
    forall js', (length js' = length l - 1)%nat -> draws js' -> apply_draws 1 js' l = l' -> js' = js.
Proof.
  revert l'. induction l as [|x l IH] using rev_ind; intros l' Hnd Hp.
  { apply Permutation_nil_r in Hp as ->. exists []. split_and!; [done|by intros ? ? ?|done|].
    intros js' Hjs' _ _. by apply nil_length_inv. }
  destruct (decide (l = [])) as [->|Hne].
  { apply Permutation_singleton_r in Hp as ->. exists []. split_and!; [done|by intros ? ? ?|done|].
    intros js' Hjs' _ _. by apply nil_length_inv. }
  assert (Hlen : (1 <= length l)%nat) by (destruct l; [done|cbn; lia]).
  assert (Hnd' : NoDup l') by (by rewrite Hp).
  destruct (list_elem_of_lookup_1 l' x) as [j Hj]; [rewrite Hp; set_solver|].
  destruct (swap_last_inv j l l' x Hj Hp) as (l1 & Hp1 & Hs).
  apply NoDup_app in Hnd as (Hndl & _ & _).
  destruct (IH l1 Hndl Hp1) as (js & Hjl & Hd & Ha & Huniq).
  assert (Hjb : (j < S (length l))%nat).
  { apply lookup_lt_Some in Hj. rewrite Hp, length_app in Hj. cbn in Hj. lia. }
  rewrite length_app. cbn [length]. replace (length l + 1 - 1)%nat with (length l) by lia.
  exists (js ++ [j]). split_and!.
  - rewrite length_app. cbn. lia.
  - apply draws_snoc; [done | lia].
  - rewrite apply_draws_snoc, apply_draws_app_l, Ha, Hjl by (done || lia).
    by replace (1 + (length l - 1))%nat with (length l) by lia.
  - intros js' Hl' Hd' Ha'. destruct js' as [|j' js' _] using rev_ind; [cbn in Hl'; lia|].
    rewrite length_app in Hl'. cbn in Hl'. pose proof (draws_app _ _ Hd') as Hd1.
    pose proof (draws_last _ _ Hd') as Hj'.
    rewrite apply_draws_snoc, apply_draws_app_l in Ha' by (done || lia).
    replace (1 + length js')%nat with (length l) in Ha' by lia.
    set (l1' := apply_draws 1 js' l) in *.
    assert (Hl1' : length l1' = length l) by apply length_apply_draws.
    assert (Hx : (l1' ++ [x]) !! length l = Some x) by (rewrite lookup_app_r, Hl1', Nat.sub_diag by lia; done).
    assert (j' = j) as ->.
    { apply (NoDup_lookup l' j' j x Hnd'); [|done]. rewrite <- Ha'.
      apply swap_lookup_r; [rewrite length_app; cbn; lia | done]. }
    f_equal. apply Huniq; [lia | done |]. fold l1'.
    assert (E : l1' ++ [x] = l1 ++ [x]).
    { rewrite <- (swap_swap (length l) j (l1' ++ [x])), Ha', <- Hs;
        [apply swap_swap|..]; rewrite length_app, ?(Permutation_length Hp1), ?Hl1'; cbn; lia. }
    by apply app_inj_tail in E as [].
Qed.

End Swap.

Lemma shuffle_from_post {G A} `{EngineLaws G} fuel k i (l : list A) :
  Z.of_nat (i + k) <= UINT64_MAX ->
  post fuel (shuffle_from fuel k i l) (fun l' =>
    exists js, length js = k /\ (forall d j, js !! d = Some j -> (j <= i + d)%nat) /\
      l' = apply_draws i js l).
Proof.
  revert i l. induction k as [|k IH]; intros i l Hk; cbn [shuffle_from].
  - apply post_ret. exists []. done.
  - assert (Hi : 1 <= Z.of_nat i + 1 <= UINT64_MAX) by (clear IH; width).
    eapply post_bind; [by apply uniform_post|]. cbv beta. intros j Hj.
    eapply post_mono; [apply IH; width|]. intros l' (js & Hl & Hd & ->).
    exists (Z.to_nat j :: js). split_and!; [cbn; congruence| |done].
    intros [|d] j'; cbn; [intros [= <-]; clear - Hj; lia|]. intros Hdj. specialize (Hd _ _ Hdj).
    clear - Hd. lia.
Qed.

Lemma shuffle_draws {G A} `{EngineLaws G} fuel (l : list A) :
  Z.of_nat (length l) <= UINT64_MAX ->
  post fuel (shuffle_portable fuel l) (fun l' =>
    exists js, (length js = length l - 1)%nat /\ draws js /\ l' = apply_draws 1 js l).
Proof.
  intros Hl. unfold shuffle_portable. destruct (Nat.leb_spec (length l) 1) as [H1|H1].
  - apply post_ret. exists []. cbn. split_and!; [lia | by intros ? ? ? | done].
  - apply shuffle_from_post. lia.
Qed.

Lemma shuffle_perm {G A} `{EngineLaws G} fuel (l : list A) :
  Z.of_nat (length l) <= UINT64_MAX ->
  post fuel (shuffle_portable fuel l) (fun l' => l' ≡ₚ l).
Proof.
  intros Hl. eapply post_mono; [by apply shuffle_draws|]. intros l' (js & _ & _ & ->).
  apply apply_draws_perm.
Qed.

(** The [k]-th word of the engine from now on, and the number of words that stand for each value of a draw below [n]. *)
Definition word {G} `{Engine G} (g : G) (k : nat) : Z := (next (advance k g)).1.
Definition share (n : Z) : Z := UINT64_MAX / n.
(** The draw of round [k] among [k + 2] elements does not reject the word. *)
Definition accepted_words {G} `{Engine G} (g : G) (i k : nat) : Prop :=
  forall d, (d < k)%nat -> 0 <= word g d < share (Z.of_nat (i + d) + 1) * (Z.of_nat (i + d) + 1).

Lemma shuffle_from_words {G A} `{Engine G} fuel k : forall i (l : list A) (g : G),
  Z.of_nat (i + k) <= UINT64_MAX -> accepted_words g i k ->
  shuffle_from (S fuel) k i l g =
    Returned (apply_draws i ((fun d => Z.to_nat (word g d / share (Z.of_nat (i + d) + 1))) <$> seq 0 k) l, advance k g).
Proof.
  induction k as [|k IH]; intros i l g Hk Hw; [done|]. cbn [shuffle_from]. unfold mbind, rand_bind.
  destruct (next g) as [x g'] eqn:E. pose proof (Hw 0%nat ltac:(lia)) as H0. unfold word in H0. cbn in H0. rewrite E in H0. cbn in H0.
  replace (Z.of_nat (i + 0)) with (Z.of_nat i) in H0 by lia.
  destruct (uniform_distribution_exact fuel (Z.of_nat i + 1) g x g') as (Hu & _); [lia|done|].
  rewrite Hu. unfold share in H0. destruct (Z.leb_spec (UINT64_MAX / (Z.of_nat i + 1) * (Z.of_nat i + 1)) x) as [|_]; [lia|].
  assert (forall d, advance d g' = advance (S d) g) as Hadv.
  { intros d. replace (S d) with (d + 1)%nat by lia. rewrite <- advance_add. cbn. by rewrite E. }
  assert (forall d, word g' d = word g (S d)) as Hword by (intros d; unfold word; by rewrite Hadv).
  rewrite IH; [|lia|].
  - rewrite Hadv. cbn [seq]. rewrite fmap_cons. cbn [apply_draws]. do 3 f_equal.
    + rewrite <- fmap_S_seq, <- list_fmap_compose. apply list_fmap_ext. intros _ d _. cbn. rewrite Hword.
      by replace (i + S d)%nat with (S (i + d)) by lia.
    + f_equal. unfold word. cbn. rewrite E. cbn. unfold share. by replace (Z.of_nat (i + 0)) with (Z.of_nat i) by lia.
  - intros d Hd. rewrite Hword. replace (S i + d)%nat with (i + S d)%nat by lia. apply Hw. lia.
Qed.

Lemma share_interval n v y : 1 <= n <= UINT64_MAX -> 0 <= v < n -> 0 <= y < share n * n -> y / share n = v <-> v * share n <= y < (v + 1) * share n.
Proof.
  intros Hn Hv Hy. unfold share in *. assert (1 <= UINT64_MAX / n) by (apply Z.div_le_lower_bound; lia). split.
  - intros <-. pose proof (Z.div_mod y (UINT64_MAX / n) ltac:(lia)). pose proof (Z.mod_pos_bound y (UINT64_MAX / n) ltac:(lia)). lia.
  - intros H'. symmetry. apply (Z.div_unique y _ v (y - v * (UINT64_MAX / n))); lia.
Qed.

(** Which words shuffle a sequence into a given order of it. *)
Lemma shuffle_words {A} (l l' : list A) :
  Z.of_nat (length l) <= UINT64_MAX -> NoDup l -> l' ≡ₚ l ->
  exists js, (length js = length l - 1)%nat /\ draws js /\
    forall G (HG : Engine G) fuel (g : G), accepted_words g 1 (length l - 1) ->
      value (shuffle_portable (S fuel) l g) = Some l' <->
      forall k j, js !! k = Some j ->
        Z.of_nat j * share (Z.of_nat k + 2) <= word g k < (Z.of_nat j + 1) * share (Z.of_nat k + 2).
Proof.
  intros Hl Hnd Hp. destruct (apply_draws_bijective l l' Hnd Hp) as (js & Hlen & Hd & Ha & Hu). exists js. split_and!; [done..|].
  intros G HG fuel g Hw. set (js' := (fun d => Z.to_nat (word g d / share (Z.of_nat (1 + d) + 1))) <$> seq 0 (length l - 1)).
  assert (value (shuffle_portable (S fuel) l g) = Some (apply_draws 1 js' l)) as ->.
  { unfold shuffle_portable. destruct (Nat.leb_spec (length l) 1) as [H1|H1].
    - subst js'. replace (length l - 1)%nat with 0%nat by lia. done.
    - rewrite shuffle_from_words; [done|lia|done]. }
  assert (length js' = length l - 1)%nat as Hlen' by (subst js'; by rewrite length_fmap, length_seq).
  assert (forall k, (k < length l - 1)%nat -> let n := Z.of_nat k + 2 in
    1 <= n <= UINT64_MAX /\ 0 <= word g k < share n * n /\ 1 <= share n /\ js' !! k = Some (Z.to_nat (word g k / share n))) as Hk.
  { intros k Hk. cbv zeta. pose proof (Hw k Hk) as Hwk. replace (Z.of_nat (1 + k) + 1) with (Z.of_nat k + 2) in Hwk by lia.
    split_and!; [lia|lia|lia|lia|unfold share; apply Z.div_le_lower_bound; lia|]. subst js'. rewrite list_lookup_fmap, lookup_seq_lt by done. cbn [fmap option_fmap option_map].
    do 2 f_equal. replace (0 + k)%nat with k by lia. by replace (Z.of_nat (1 + k) + 1) with (Z.of_nat k + 2) by lia. }
  assert (draws js') as Hd'.
  { intros k j Hj. assert (k < length l - 1)%nat as Hlt by (rewrite <- Hlen'; by eapply lookup_lt_Some).
    destruct (Hk k Hlt) as (H1 & H2 & H3 & H4). assert (j = Z.to_nat (word g k / share (Z.of_nat k + 2))) as -> by congruence.
    assert (word g k / share (Z.of_nat k + 2) < Z.of_nat k + 2) by (apply Z.div_lt_upper_bound; lia). lia. }
  split.
  - intros [= E]. assert (js' = js) as E' by (by apply Hu). intros k j Hj. rewrite <- E' in Hj.
    assert (k < length l - 1)%nat as Hlt by (rewrite <- Hlen'; by eapply lookup_lt_Some).
    destruct (Hk k Hlt) as (H1 & H2 & H3 & H4). assert (j = Z.to_nat (word g k / share (Z.of_nat k + 2))) as -> by congruence.
    assert (0 <= word g k / share (Z.of_nat k + 2)) by (apply Z.div_pos; lia). rewrite Z2Nat.id by done.
    apply share_interval; [done| |done|done]. split; [done|]. apply Z.div_lt_upper_bound; lia.
  - intros Hj. f_equal. rewrite <- Ha. f_equal. apply list_eq_same_length with (length l - 1)%nat; [done|done|]. intros k j' j Hlt E1 E2.
    destruct (Hk k Hlt) as (H1 & H2 & H3 & H4). specialize (Hj k j E2). apply share_interval in Hj; [|done| |done].
    + rewrite H4 in E1. injection E1 as <-. lia.
    + specialize (Hd k j E2). lia.
Qed.

(** (C35) A shuffle returns an order of its sequence and never fails, unless the engine only gives words that a draw rejects.  For distinct
    elements every order is the result for a box of words: round [k] takes one word, and the words with which the shuffle
    returns that order are those that lie, for each [k], in an interval of exactly [share (k + 2)] words.  So all orders come
    from equally many sequences of accepted words: the shuffle is uniform if the engine is. *)
Theorem shuffle_portable_uniform {A} (l : list A) :
  Z.of_nat (length l) <= UINT64_MAX ->
  (forall G (HG : Engine G) (HL : EngineLaws G) fuel, post fuel (shuffle_portable (G := G) fuel l) (fun l' => l' ≡ₚ l)) /\
  (NoDup l -> forall l', l' ≡ₚ l ->
     exists js, (length js = length l - 1)%nat /\ (forall k j, js !! k = Some j -> (j < k + 2)%nat) /\
       forall G (HG : Engine G) fuel (g : G), accepted_words g 1 (length l - 1) ->
         value (shuffle_portable (S fuel) l g) = Some l' <->
         forall k j, js !! k = Some j ->
           Z.of_nat j * share (Z.of_nat k + 2) <= word g k < (Z.of_nat j + 1) * share (Z.of_nat k + 2)).
Proof.
  intros Hl. split; [intros G HG HL fuel; by apply shuffle_perm|]. intros Hnd l' Hp.
  destruct (shuffle_words l l' Hl Hnd Hp) as (js & H1 & H2 & H3). exists js. split_and!; [done| |done].
  intros k j Hj. specialize (H2 k j Hj). lia.
Qed.

Lemma shuffle_portable_uniform_witness :
  value (shuffle_portable 64 [1; 2; 3; 4; 5] (Mt19937_64.seed 7)) = Some [4; 2; 3; 1; 5] /\
  exists js, length js = 4%nat /\
    forall k j, js !! k = Some j ->
      Z.of_nat j * share (Z.of_nat k + 2) <= word (Mt19937_64.seed 7) k < (Z.of_nat j + 1) * share (Z.of_nat k + 2).
Proof.
  assert (E : value (shuffle_portable 64 [1; 2; 3; 4; 5] (Mt19937_64.seed 7)) = Some [4; 2; 3; 1; 5])
    by (vm_compute; reflexivity).
  assert (Hn : NoDup [1; 2; 3; 4; 5]) by (apply (bool_decide_eq_true _); vm_compute; reflexivity).
  split; [exact E|].
  destruct (shuffle_portable_uniform [1; 2; 3; 4; 5] ltac:(unfold UINT64_MAX; cbn; lia)) as [Hpost Hu].
  pose proof (post_value _ _ _ _ _ (Hpost Mt19937_64.t _ _ 64%nat) E) as Hp.
  destruct (Hu Hn _ Hp) as (js & Hl & _ & Hw). exists js. split; [exact Hl|]. apply (Hw _ _ 63%nat); [|exact E].
  intros d Hd. assert (d = 0 \/ d = 1 \/ d = 2 \/ d = 3)%nat as H by (cbn in Hd; lia).
  destruct H as [-> | [-> | [-> | ->]]]; (split; [apply Z.leb_le | apply Z.ltb_lt]; vm_compute; reflexivity).
Defined.
