(* ===== verification/Swarm.v ===== *)
(** * Storage swarms

    [cryptonote_core/service_node_swarm.{h,cpp}]: the assignment of the active service nodes
    to storage swarms, recomputed from the block hash whenever the list changes.  A
    [std::map] from swarm ids to their nodes is the list of its entries in the order of the
    ids.  [std::sort] by size promises no order among swarms of equal size, so it is an
    argument of the model; the theorems hold for every sort. *)
From S2P Require Import Prelude Hardfork Config Rules Voting Random.

Definition MAX_ID : Z := UNASSIGNED_SWARM_ID - 1.
Definition MIN_SWARM_SIZE : Z := 5.
Definition IDEAL_SWARM_MARGIN : Z := 2.
Definition IDEAL_SWARM_SIZE : Z := MIN_SWARM_SIZE + IDEAL_SWARM_MARGIN.
Definition EXCESS_BASE : Z := MIN_SWARM_SIZE.
Definition NEW_SWARM_SIZE : Z := IDEAL_SWARM_SIZE.
Definition FILL_SWARM_LOWER_PERCENTILE : Z := 25.
Definition DECOMMISSIONED_REDISTRIBUTION_LOWER_PERCENTILE : Z := 0.
Definition STEALING_SWARM_UPPER_PERCENTILE : Z := 75.

Abbreviation swarm_snode_map := (list (Z * list bytes)).
Record swarm_size := SwarmSize { ss_id : Z; ss_size : Z }.
Record excess_pool_snode := ExcessSnode { es_key : bytes; es_swarm : Z }.

Definition ids (m : swarm_snode_map) : list Z := m.*1.
Definition size_of (l : list bytes) : Z := Z.of_nat (length l).

(** ** The map *)

Definition swarm_find (id : Z) (m : swarm_snode_map) : option (list bytes) :=
  snd <$> (head (filter (fun e => e.1 = id) m)).

Definition swarm_alter (id : Z) (f : list bytes -> list bytes) (m : swarm_snode_map) : swarm_snode_map :=
  (fun '(i, l) => if i =? id then (i, f l) else (i, l)) <$> m.

(** [map::emplace]: an existing entry stays as it is. *)
Fixpoint swarm_emplace (id : Z) (l : list bytes) (m : swarm_snode_map) : swarm_snode_map :=
  match m with
  | [] => [(id, l)]
  | (i, l') :: rest =>
      if id <? i then (id, l) :: m
      else if id =? i then m else (i, l') :: swarm_emplace id l rest
  end.

Definition swarm_erase (id : Z) (m : swarm_snode_map) : swarm_snode_map :=
  filter (fun e => e.1 <> id) m.

(** ** A new swarm id *)

(** The widest gap between neighbouring ids and the index of its left end. *)
Fixpoint gap_loop (idx : nat) (max_dist : Z) (best_idx : nat) (all_ids : list Z) : Z * nat :=
  match all_ids with
  | a :: ((b :: _) as rest) =>
      let dist := u64 (b - a) in
      if max_dist <? dist then gap_loop (S idx) dist idx rest
      else gap_loop (S idx) max_dist best_idx rest
  | _ => (max_dist, best_idx)
  end.

Definition get_new_swarm_id (m : swarm_snode_map) : Z :=
  let all_ids := ids m in
  match all_ids with
  | [] => 0
  | front :: _ =>
      let '(max_dist, best_idx) := gap_loop 0 0 0 all_ids in
      let back := List.last all_ids 0 in
      let dist := u64 (MAX_ID - back + front + 1) in
      let '(max_dist, best_idx) :=
        if max_dist <? dist then (dist, (length all_ids - 1)%nat) else (max_dist, best_idx) in
      let base := nth best_idx all_ids 0 in
      let diff := max_dist / 2 in
      let to_max := u64 (MAX_ID - base) in
      if to_max <? diff then u64 (diff - to_max - 1) else u64 (base + diff)
  end.

(** ** Excess nodes *)

Definition calc_excess (m : swarm_snode_map) : Z :=
  foldl (fun result e => result + Z.max (size_of e.2 - EXCESS_BASE) 0) 0 m.

Definition calc_threshold (m : swarm_snode_map) : Z :=
  NEW_SWARM_SIZE + Z.of_nat (length m) * IDEAL_SWARM_MARGIN.

Definition starving (e : Z * list bytes) : bool := size_of e.2 <? MIN_SWARM_SIZE.

(** The pool and its excess, which stays unset below the minimum size. *)
Definition get_excess_pool (threshold : Z) (m : swarm_snode_map) : list excess_pool_snode * option Z :=
  if threshold <? MIN_SWARM_SIZE then ([], None)
  else
    let rich := filter (fun e => threshold < size_of e.2) m in
    (concat ((fun e : Z * list bytes => (fun pk => ExcessSnode pk e.1) <$> e.2) <$> rich),
     Some (foldl (fun excess e => excess + (size_of e.2 - MIN_SWARM_SIZE)) 0 rich)).

Section Changes.
Context {G : Type} `{Engine G} (fuel : nat).
(** [std::sort] by size. *)
Context (sort_sizes : list swarm_size -> list swarm_size).

(** A loop that ran out of the rounds the model gives it. *)
Definition out_of_rounds {A} : rand G A := fun _ => Stalled.

Definition pick_from_excess_pool (pool : list excess_pool_snode) : rand G excess_pool_snode :=
  idx ← uniform_distribution_portable fuel (Z.of_nat (length pool));
  match pool !! Z.to_nat idx with Some s => mret s | None => throw end.

Definition remove_excess_snode_from_swarm (s : excess_pool_snode) (m : swarm_snode_map)
    : rand G swarm_snode_map :=
  match swarm_find (es_swarm s) m with
  | None => throw
  | Some _ => mret (swarm_alter (es_swarm s) (filter (fun pk => pk <> es_key s)) m)
  end.

Definition push_back (id : Z) (pk : bytes) (m : swarm_snode_map) : rand G swarm_snode_map :=
  match swarm_find id m with
  | None => throw
  | Some _ => mret (swarm_alter id (fun l => l ++ [pk]) m)
  end.

(** The inner loop: the map and the nodes of the new swarm, or [None] where it returns early. *)
Fixpoint take_new_swarm (missing : nat) (m : swarm_snode_map) (new_swarm_snodes : list bytes)
    : rand G (swarm_snode_map * option (list bytes)) :=
  match missing with
  | O => mret (m, Some new_swarm_snodes)
  | S missing =>
      let pool := (get_excess_pool EXCESS_BASE m).1 in
      if (length pool =? 0)%nat then mret (m, None)
      else
        s ← pick_from_excess_pool pool;
        m ← remove_excess_snode_from_swarm s m;
        take_new_swarm missing m (new_swarm_snodes ++ [es_key s])
  end.

Fixpoint create_loop (rounds : nat) (m : swarm_snode_map) : rand G swarm_snode_map :=
  match rounds with
  | O => out_of_rounds
  | S rounds =>
      if calc_excess m <? calc_threshold m then mret m
      else
        '(m, new) ← take_new_swarm (Z.to_nat NEW_SWARM_SIZE) m [];
        match new with
        | None => mret m
        | Some new_swarm_snodes =>
            create_loop rounds (swarm_emplace (get_new_swarm_id m) new_swarm_snodes m)
        end
  end.

(** Each round leaves five nodes less of excess. *)
Definition create_new_swarm_from_excess (m : swarm_snode_map) : rand G swarm_snode_map :=
  if existsb starving m then mret m
  else create_loop (S (Z.to_nat (calc_excess m))) m.

(** ** Assigning nodes *)

Definition calc_swarm_sizes (m : swarm_snode_map) : list swarm_size :=
  sort_sizes ((fun e => SwarmSize e.1 (size_of e.2)) <$> m).

(** The first index from [i] on of a size above [value]. *)
Fixpoint first_above (value i : Z) (l : list swarm_size) : option Z :=
  match l with
  | [] => None
  | s :: l => if value <? ss_size s then Some i else first_above value (i + 1) l
  end.

Fixpoint assign_snodes (snode_pubkeys : list bytes) (percentile : Z) (m : swarm_snode_map)
    : rand G swarm_snode_map :=
  match snode_pubkeys with
  | [] => mret m
  | sn_pk :: rest =>
      let sorted := calc_swarm_sizes m in
      let count := Z.of_nat (length sorted) in
      let percentile_index := u64 (percentile * u64 (count - 1)) / 100 in
      match sorted !! Z.to_nat percentile_index with
      | None => throw
      | Some s =>
          let upper_index :=
            match first_above (ss_size s) percentile_index (drop (Z.to_nat percentile_index) sorted) with
            | Some i => i - 1
            | None => count - 1
            end in
          random_idx ← uniform_distribution_portable fuel (upper_index + 1);
          match sorted !! Z.to_nat random_idx with
          | None => throw
          | Some s =>
              m ← push_back (ss_id s) sn_pk m;
              m ← create_new_swarm_from_excess m;
              assign_snodes rest percentile m
          end
      end
  end.

(** ** The robin hood round *)

(** The [do ... while] for one poor swarm; the flag is [insufficient_excess]. *)
Fixpoint steal_loop (rounds : nat) (sorted : list swarm_size) (id : Z) (m : swarm_snode_map)
    : rand G (swarm_snode_map * bool) :=
  match rounds with
  | O => out_of_rounds
  | S rounds =>
      let percentile_index :=
        u64 (STEALING_SWARM_UPPER_PERCENTILE * u64 (Z.of_nat (length sorted) - 1)) / 100 in
      match sorted !! Z.to_nat percentile_index, swarm_find id m with
      | Some s, Some poor =>
          let percentile_value := Z.max MIN_SWARM_SIZE (u64 (ss_size s - 1)) in
          let '(pool, excess) := get_excess_pool percentile_value m in
          let deficit := u64 (MIN_SWARM_SIZE - size_of poor) in
          match excess with
          | None => throw
          | Some excess =>
              if excess <? deficit then mret (m, true)
              else
                s ← pick_from_excess_pool pool;
                m ← remove_excess_snode_from_swarm s m;
                m ← push_back id (es_key s) m;
                if size_of poor + 1 <? MIN_SWARM_SIZE then steal_loop rounds sorted id m
                else mret (m, false)
          end
      | _, _ => throw
      end
  end.

Fixpoint robin_hood (sorted todo : list swarm_size) (m : swarm_snode_map) : rand G swarm_snode_map :=
  match todo with
  | [] => mret m
  | s :: todo =>
      if MIN_SWARM_SIZE <=? ss_size s then mret m
      else
        '(m, insufficient_excess) ← steal_loop (Z.to_nat MIN_SWARM_SIZE) sorted (ss_id s) m;
        if insufficient_excess : bool then mret m else robin_hood sorted todo m
  end.

(** ** Decommissioning small swarms *)

Fixpoint decommission_loop (rounds : nat) (m : swarm_snode_map) : rand G swarm_snode_map :=
  match rounds with
  | O => out_of_rounds
  | S rounds =>
      match head (filter (fun e => starving e = true) m) with
      | None => mret m
      | Some (id, decommissioned_snodes) =>
          m ← assign_snodes decommissioned_snodes DECOMMISSIONED_REDISTRIBUTION_LOWER_PERCENTILE
                (swarm_erase id m);
          decommission_loop rounds m
      end
  end.

Definition swarm_changes (m : swarm_snode_map) : rand G swarm_snode_map :=
  match m with
  | [] => mret m
  | _ =>
      let unassigned_snodes := default [] (swarm_find UNASSIGNED_SWARM_ID m) in
      let m := swarm_erase UNASSIGNED_SWARM_ID m in
      let m := if (length m =? 0)%nat then [(get_new_swarm_id [], [])] else m in
      m ← assign_snodes unassigned_snodes FILL_SWARM_LOWER_PERCENTILE m;
      let sorted := calc_swarm_sizes m in
      m ← robin_hood sorted sorted m;
      m ← create_new_swarm_from_excess m;
      if (1 <? length m)%nat then decommission_loop (S (length m)) m else mret m
  end.

End Changes.

(** [calc_swarm_changes], with the engine it seeds. *)
Definition calc_swarm_changes (fuel : nat) (sort_sizes : list swarm_size -> list swarm_size)
    (m : swarm_snode_map) (seed : Z) : outcome (swarm_snode_map * Mt19937_64.t) :=
  swarm_changes fuel sort_sizes m (Mt19937_64.seed seed).

(** ** The new id is fresh *)

Definition sorted_ids (m : swarm_snode_map) : Prop :=
  StronglySorted Z.lt (ids m) /\ Forall (fun i => 0 <= i <= MAX_ID) (ids m).

Lemma gap_loop_cons idx d i a b rest :
  gap_loop idx d i (a :: b :: rest) =
  if d <? u64 (b - a) then gap_loop (S idx) (u64 (b - a)) idx (b :: rest)
  else gap_loop (S idx) d i (b :: rest).
Proof. reflexivity. Qed.

Lemma gap_loop_spec idx d0 b0 all_ids :
  StronglySorted Z.lt all_ids -> Forall (fun i => 0 <= i <= MAX_ID) all_ids -> 0 <= d0 ->
  let '(d, b) := gap_loop idx d0 b0 all_ids in
  d0 <= d /\ (all_ids <> [] -> List.last all_ids 0 - nth 0 all_ids 0 <= d * (Z.of_nat (length all_ids) - 1)) /\
  ((d = d0 /\ b = b0) \/
   exists k a, b = (idx + k)%nat /\ all_ids !! k = Some a /\ all_ids !! S k = Some (a + d)).
Proof.
  revert idx d0 b0. induction all_ids as [|a rest IH]; intros idx d0 b0 Hs Hr Hd0.
  { cbn. split_and!; [lia | done | by left]. }
  destruct rest as [|b rest]; [cbn; split_and!; [lia.. | by left]|].
  inversion_clear Hs as [|? ? Hs' Hlt]. inversion_clear Hr as [|? ? Ha Hr'].
  pose proof (Forall_inv Hlt) as Hab. pose proof (Forall_inv Hr') as Hb.
  rewrite gap_loop_cons. unfold MAX_ID, UNASSIGNED_SWARM_ID in *. rewrite u64_small by width.
  assert (Hstep : forall d b', 0 <= d -> b - a <= d -> (d = b - a /\ b' = idx \/ d = d0 /\ b' = b0) ->
    let '(d', b'') := gap_loop (S idx) d b' (b :: rest) in
    d0 <= d -> d0 <= d' /\
    (List.last (a :: b :: rest) 0 - nth 0 (a :: b :: rest) 0
       <= d' * (Z.of_nat (length (a :: b :: rest)) - 1)) /\
    ((d' = d0 /\ b'' = b0) \/
     exists k x, b'' = (idx + k)%nat /\ (a :: b :: rest) !! k = Some x /\
       (a :: b :: rest) !! S k = Some (x + d'))).
  { intros d b' Hd Hle Hwhich. specialize (IH (S idx) d b' Hs' Hr' Hd).
    destruct (gap_loop (S idx) d b' (b :: rest)) as [d' b'']. destruct IH as (H1 & H2 & H3).
    specialize (H2 ltac:(done)). intros Hdd. split; [lia|]. split.
    - change (List.last (a :: b :: rest) 0) with (List.last (b :: rest) 0). cbn [nth] in *.
      cbn [length] in H2 |- *. rewrite Nat2Z.inj_succ in H2 |- *. clear - H2 H1 Hle. nia.
    - destruct H3 as [[-> ->]|(k & x & -> & Hx & Hy)].
      + destruct Hwhich as [[-> ->]|[-> ->]]; [|by left].
        right. exists 0%nat, a. split_and!; [lia | done | cbn; f_equal; lia].
      + right. exists (S k), x. split_and!; [lia | done..]. }
  destruct (Z.ltb_spec d0 (b - a)) as [Hd|Hd]; cbv iota.
  - specialize (Hstep (b - a) idx ltac:(lia) ltac:(lia) ltac:(by left)).
    destruct (gap_loop (S idx) (b - a) idx (b :: rest)) as [d' b'].
    destruct (Hstep ltac:(lia)) as (? & ? & ?). split; [done|]. by split.
  - specialize (Hstep d0 b0 ltac:(lia) ltac:(lia) ltac:(by right)).
    destruct (gap_loop (S idx) d0 b0 (b :: rest)) as [d' b'].
    destruct (Hstep ltac:(lia)) as (? & ? & ?). split; [done|]. by split.
Qed.

(** No id lies strictly between neighbours. *)
Lemma sorted_between l k a b x :
  StronglySorted Z.lt l -> l !! k = Some a -> l !! S k = Some b -> x ∈ l -> ~ (a < x < b).
Proof.
  intros Hs Ha Hb [j Hj]%list_elem_of_lookup_1 Hx.
  assert (Hmono : forall i j x y, l !! i = Some x -> l !! j = Some y -> (i < j)%nat -> x < y).
  { clear - Hs. induction Hs as [|z l Hs IH Hall]; intros i j x y Hi Hj Hij; [done|].
    destruct j as [|j]; [lia|]. destruct i as [|i]; cbn in Hi, Hj.
    - injection Hi as <-. rewrite Forall_forall in Hall. apply Hall. by eapply list_elem_of_lookup_2.
    - eapply IH; [done..|lia]. }
  destruct (lt_eq_lt_dec j k) as [[Hjk|Hjk]|Hjk].
  - pose proof (Hmono _ _ _ _ Hj Ha Hjk). lia.
  - subst. rewrite Ha in Hj. injection Hj as ->. lia.
  - destruct (decide (j = S k)) as [->|]; [rewrite Hb in Hj; injection Hj as ->; lia|].
    pose proof (Hmono _ _ _ _ Hb Hj ltac:(lia)). lia.
Qed.

Lemma sorted_bounds x l y : StronglySorted Z.lt (x :: l) -> y ∈ x :: l -> x <= y <= List.last (x :: l) 0.
Proof.
  revert x y. induction l as [|z l IH]; intros x y Hs Hy.
  - apply list_elem_of_singleton in Hy as ->. cbn. lia.
  - inversion_clear Hs as [|? ? Hs' Hall]. change (List.last (x :: z :: l) 0) with (List.last (z :: l) 0).
    pose proof (Forall_inv Hall) as Hxz. pose proof (IH z z Hs' (list_elem_of_here _ _)).
    apply elem_of_cons in Hy as [->|Hy]; [lia|]. specialize (IH z y Hs' Hy). lia.
Qed.

Lemma nth_last_eq (x : Z) l : nth (length (x :: l) - 1) (x :: l) 0 = List.last (x :: l) 0.
Proof.
  revert x. induction l as [|y l IH]; intros x; [done|].
  change (List.last (x :: y :: l) 0) with (List.last (y :: l) 0). rewrite <- (IH y). cbn [length].
  by replace (S (S (length l)) - 1)%nat with (S (S (length l) - 1)) by lia.
Qed.

(** The new id lies in the middle of the widest gap of the ring of ids, which is not empty. *)
Lemma new_swarm_id_fresh m :
  sorted_ids m -> Z.of_nat (length m) < MAX_ID ->
  (get_new_swarm_id m ∉ ids m) /\ 0 <= get_new_swarm_id m <= MAX_ID.
Proof.
  intros [Hs Hr] Hlen. rewrite <- (length_fmap fst) in Hlen. change (m.*1) with (ids m) in Hlen.
  unfold get_new_swarm_id. destruct (ids m) as [|front rest] eqn:E.
  { split; [set_solver | unfold MAX_ID, UNASSIGNED_SWARM_ID, UINT64_MAX; lia]. }
  pose proof (gap_loop_spec 0 0 0 (front :: rest) Hs Hr ltac:(lia)) as Hg.
  destruct (gap_loop 0 0 0 (front :: rest)) as [d b]. destruct Hg as (Hd0 & Hspan & Hgap).
  specialize (Hspan ltac:(done)). cbn [nth] in Hspan.
  set (back := List.last (front :: rest) 0) in *.
  assert (Hback : front <= back <= MAX_ID /\ 0 <= front).
  { assert (Hin : back ∈ front :: rest).
    { unfold back. rewrite <- nth_last_eq. apply list_elem_of_In, nth_In. cbn. lia. }
    pose proof (sorted_bounds _ _ _ Hs Hin). rewrite Forall_forall in Hr.
    pose proof (Hr back Hin). pose proof (Hr front ltac:(set_solver)). lia. }
  unfold MAX_ID, UNASSIGNED_SWARM_ID in *.
  set (wrap := UINT64_MAX - 1 - back + front + 1).
  rewrite (u64_small wrap) by (unfold wrap; width).
  assert (Hwide : 2 <= Z.max d wrap).
  { unfold wrap. unfold UINT64_MAX in *. clear - Hspan Hd0 Hlen Hback. clearbody back.
    destruct (Z.le_gt_cases 2 d); [lia|]. cbn [length] in *.
    assert (d = 0 \/ d = 1) as [-> | ->] by lia; lia. }
  destruct (Z.ltb_spec d wrap) as [Hw|Hw]; cbv iota beta.
  - rewrite nth_last_eq. fold back. rewrite (u64_small (UINT64_MAX - 1 - back)) by width.
    assert (Hwb : 2 <= wrap) by lia. pose proof (Z.div_mod wrap 2 ltac:(lia)).
    pose proof (Z.mod_pos_bound wrap 2 ltac:(lia)).
    destruct (Z.ltb_spec (UINT64_MAX - 1 - back) (wrap / 2)) as [Ho|Ho].
    + rewrite u64_small by (unfold wrap in *; width). split; [|unfold wrap in *; width].
      intros Hin. pose proof (sorted_bounds _ _ _ Hs Hin). unfold wrap in *. lia.
    + rewrite u64_small by (unfold wrap in *; width). split; [|unfold wrap in *; width].
      intros Hin. pose proof (sorted_bounds _ _ _ Hs Hin). fold back in H1. lia.
  - destruct Hgap as [[-> ->]|(k & a & -> & Ha & Hb)]; [lia|].
    cbn [Nat.add]. rewrite (nth_lookup_Some _ _ _ _ Ha).
    assert (Hra : 0 <= a /\ a + d <= UINT64_MAX - 1).
    { rewrite Forall_forall in Hr. pose proof (Hr a ltac:(by eapply list_elem_of_lookup_2)).
      pose proof (Hr (a + d) ltac:(by eapply list_elem_of_lookup_2)). lia. }
    rewrite (u64_small (UINT64_MAX - 1 - a)) by width.
    pose proof (Z.div_mod d 2 ltac:(lia)). pose proof (Z.mod_pos_bound d 2 ltac:(lia)).
    destruct (Z.ltb_spec (UINT64_MAX - 1 - a) (d / 2)) as [Ho|Ho]; [lia|].
    rewrite u64_small by width. split; [|width].
    intros Hin. apply (sorted_between _ _ _ _ _ Hs Ha Hb Hin). lia.
Qed.

(** ** Maps with one entry changed *)

Definition nodes (m : swarm_snode_map) : list bytes := concat (m.*2).

(** The sum of a weight of the swarms' sizes. *)
Definition tally (w : nat -> nat) (m : swarm_snode_map) : nat := sum_list_with (fun e => w (length e.2)) m.

Definition surplus (n : nat) : nat := (n - 5)%nat.
Definition deficient (n : nat) : nat := if (n <? 5)%nat then 1%nat else 0%nat.

Lemma calc_excess_tally m : calc_excess m = Z.of_nat (tally surplus m).
Proof.
  unfold calc_excess, tally.
  cut (forall z, foldl (fun result e => result + Z.max (size_of e.2 - EXCESS_BASE) 0) z m
                 = z + Z.of_nat (sum_list_with (fun e => surplus (length e.2)) m)); [intros ->; lia|].
  induction m as [|[i l] m IH]; intros z; cbn [foldl sum_list_with snd]; [lia|].
  rewrite IH. unfold size_of, EXCESS_BASE, MIN_SWARM_SIZE, surplus. lia.
Qed.

Lemma existsb_starving m : existsb starving m = negb (tally deficient m =? 0)%nat.
Proof.
  induction m as [|[i l] m IH]; [done|]. cbn [existsb]. rewrite IH. unfold tally. cbn [sum_list_with snd].
  unfold starving, deficient, size_of, MIN_SWARM_SIZE. cbn [snd].
  destruct (Z.ltb_spec (Z.of_nat (length l)) 5), (Nat.ltb_spec (length l) 5); try lia; done.
Qed.

Lemma tally_deficient_0 m : tally deficient m = 0%nat <-> Forall (fun e => MIN_SWARM_SIZE <= size_of e.2) m.
Proof.
  unfold tally, size_of, MIN_SWARM_SIZE. induction m as [|[i l] m IH]; cbn [sum_list_with snd]; [done|].
  rewrite Forall_cons, <- IH. unfold deficient at 1. cbn [snd]. destruct (Nat.ltb_spec (length l) 5); lia.
Qed.

Lemma length_nodes m : length (nodes m) = tally id m.
Proof.
  unfold nodes, tally. induction m as [|[i l] m IH]; [done|]. cbn. by rewrite length_app, IH.
Qed.

Lemma tally_app w m1 m2 : tally w (m1 ++ m2) = (tally w m1 + tally w m2)%nat.
Proof. apply sum_list_with_app. Qed.

Lemma nodes_app m1 m2 : nodes (m1 ++ m2) = nodes m1 ++ nodes m2.
Proof. unfold nodes. by rewrite fmap_app, concat_app. Qed.

Lemma ids_app m1 m2 : ids (m1 ++ m2) = ids m1 ++ ids m2.
Proof. apply fmap_app. Qed.

Lemma sorted_NoDup l : StronglySorted Z.lt l -> NoDup l.
Proof.
  induction 1 as [|x l Hs IH Hall]; constructor; [|done].
  intros Hx. rewrite Forall_forall in Hall. specialize (Hall x Hx). lia.
Qed.

(** An entry of a map, and the map around it. *)
Lemma entry_split m id l :
  sorted_ids m -> (id, l) ∈ m -> exists m1 m2, m = m1 ++ (id, l) :: m2 /\ (id ∉ ids m1) /\ (id ∉ ids m2).
Proof.
  intros [Hs _] (m1 & m2 & ->)%list_elem_of_split. exists m1, m2. split; [done|].
  apply sorted_NoDup in Hs. rewrite ids_app in Hs. apply NoDup_app in Hs as (_ & Hd & Hn).
  split; [intros Hin; apply (Hd id Hin); left|]. by apply NoDup_cons in Hn as [? _].
Qed.

Lemma filter_none {A} (P : A -> Prop) `{!forall x, Decision (P x)} l :
  Forall (fun x => ~ P x) l -> filter P l = [].
Proof. induction 1 as [|x l Hx _ IH]; [done|]. by rewrite filter_cons_False. Qed.

Lemma filter_all {A} (P : A -> Prop) `{!forall x, Decision (P x)} l : Forall P l -> filter P l = l.
Proof. induction 1 as [|x l Hx _ IH]; [done|]. by rewrite filter_cons_True, IH. Qed.

Lemma filter_ids_none m id : id ∉ ids m -> filter (fun e : Z * list bytes => e.1 = id) m = [].
Proof.
  intros Hn. apply filter_none. rewrite Forall_forall. intros e He Hid. apply Hn. rewrite <- Hid. by apply list_elem_of_fmap_2.
Qed.

Lemma find_entry m1 id l m2 : id ∉ ids m1 -> swarm_find id (m1 ++ (id, l) :: m2) = Some l.
Proof.
  intros Hn. unfold swarm_find. rewrite filter_app, (filter_ids_none m1) by done. cbn [app].
  by rewrite filter_cons_True.
Qed.

Lemma alter_none id f m : id ∉ ids m -> swarm_alter id f m = m.
Proof.
  intros Hn. unfold swarm_alter. rewrite <- (list_fmap_id m) at 2. apply list_fmap_ext.
  intros k [i l] Hk. destruct (Z.eqb_spec i id) as [->|]; [|done].
  exfalso. apply Hn. apply list_elem_of_lookup_2 in Hk. by apply (list_elem_of_fmap_2 fst) in Hk.
Qed.

Lemma alter_entry m1 id l m2 f :
  id ∉ ids m1 -> id ∉ ids m2 -> swarm_alter id f (m1 ++ (id, l) :: m2) = m1 ++ (id, f l) :: m2.
Proof.
  intros H1 H2. unfold swarm_alter. rewrite fmap_app, fmap_cons. rewrite Z.eqb_refl.
  pose proof (alter_none id f m1 H1) as E1. pose proof (alter_none id f m2 H2) as E2.
  unfold swarm_alter in E1, E2. by rewrite E1, E2.
Qed.

Lemma erase_none id m : id ∉ ids m -> swarm_erase id m = m.
Proof.
  intros Hn. apply filter_all. rewrite Forall_forall. intros e He Hid. apply Hn. rewrite <- Hid. by apply list_elem_of_fmap_2.
Qed.

Lemma erase_entry m1 id l m2 :
  id ∉ ids m1 -> id ∉ ids m2 -> swarm_erase id (m1 ++ (id, l) :: m2) = m1 ++ m2.
Proof.
  intros H1 H2. unfold swarm_erase. rewrite filter_app, filter_cons_False by (cbn; tauto).
  pose proof (erase_none id m1 H1) as E1. pose proof (erase_none id m2 H2) as E2.
  unfold swarm_erase in E1, E2. by rewrite E1, E2.
Qed.

Lemma find_entry_in id l m : swarm_find id m = Some l -> (id, l) ∈ m.
Proof.
  unfold swarm_find. intros E. destruct (head _) as [[i l']|] eqn:Hh; [|done]. injection E as <-.
  apply head_Some_elem_of in Hh. apply list_elem_of_filter in Hh as [Hi Hin]. cbn in Hi. by subst.
Qed.

(** [m'] is [m] with the node [pk] taken out of swarm [id]. *)
Definition taken (id : Z) (pk : bytes) (m m' : swarm_snode_map) : Prop :=
  exists m1 l l' m2, m = m1 ++ (id, l) :: m2 /\ m' = m1 ++ (id, l') :: m2 /\ l ≡ₚ pk :: l' /\
    (id ∉ ids m1) /\ (id ∉ ids m2).

Lemma taken_ids id pk m m' : taken id pk m m' -> ids m' = ids m.
Proof. intros (m1 & l & l' & m2 & -> & -> & _). by rewrite !ids_app. Qed.

Lemma taken_nodes id pk m m' : taken id pk m m' -> nodes m ≡ₚ pk :: nodes m'.
Proof.
  intros (m1 & l & l' & m2 & -> & -> & Hl & _). rewrite !nodes_app.
  change (nodes ((id, l) :: m2)) with (l ++ nodes m2). change (nodes ((id, l') :: m2)) with (l' ++ nodes m2).
  rewrite Hl. cbn [app]. by rewrite <- Permutation_middle.
Qed.

Lemma taken_tally w id pk m m' :
  taken id pk m m' ->
  exists n r l, (id, l) ∈ m /\ length l = S n /\ tally w m = (r + w (S n))%nat /\ tally w m' = (r + w n)%nat.
Proof.
  intros (m1 & l & l' & m2 & -> & -> & Hl & _). exists (length l'), (tally w m1 + tally w m2)%nat, l.
  assert (Hlen : length l = S (length l')) by (by rewrite Hl).
  rewrite !tally_app. change (tally w ((id, l) :: m2)) with (w (length l) + tally w m2)%nat.
  change (tally w ((id, l') :: m2)) with (w (length l') + tally w m2)%nat. rewrite Hlen.
  split_and!; [set_solver | done | lia..].
Qed.

Lemma taken_length id pk m m' : taken id pk m m' -> length m' = length m.
Proof. intros (m1 & l & l' & m2 & -> & -> & _). by rewrite !length_app. Qed.

(** Entries of other swarms are untouched. *)
Lemma taken_other id pk m m' i l : taken id pk m m' -> i <> id -> (i, l) ∈ m <-> (i, l) ∈ m'.
Proof. intros (m1 & l1 & l2 & m2 & -> & -> & _) Hne. rewrite !elem_of_app, !elem_of_cons. naive_solver. Qed.

Lemma taken_sorted id pk m m' : taken id pk m m' -> sorted_ids m <-> sorted_ids m'.
Proof. intros Ht. unfold sorted_ids. by rewrite (taken_ids _ _ _ _ Ht). Qed.

Lemma filter_ne_perm (pk : bytes) l :
  NoDup l -> pk ∈ l -> l ≡ₚ pk :: filter (fun x => x <> pk) l.
Proof.
  intros Hnd Hin. apply NoDup_Permutation; [done| |].
  - apply NoDup_cons. split; [|by apply NoDup_filter]. rewrite list_elem_of_filter. tauto.
  - intros x. rewrite elem_of_cons, list_elem_of_filter. destruct (decide (x = pk)); naive_solver.
Qed.

Lemma nodes_entry_NoDup m id l : NoDup (nodes m) -> (id, l) ∈ m -> NoDup l.
Proof.
  intros Hnd (m1 & m2 & ->)%list_elem_of_split. rewrite nodes_app in Hnd.
  apply NoDup_app in Hnd as (_ & _ & Hnd). unfold nodes in Hnd. cbn in Hnd.
  by apply NoDup_app in Hnd as (? & _ & _).
Qed.

Section MapOps.
Context {G : Type} `{Engine G}.

Lemma remove_taken s m l :
  sorted_ids m -> NoDup (nodes m) -> (es_swarm s, l) ∈ m -> es_key s ∈ l ->
  exists m', @remove_excess_snode_from_swarm G s m = mret m' /\ taken (es_swarm s) (es_key s) m m'.
Proof.
  intros Hs Hnd Hin Hpk. destruct (entry_split m _ _ Hs Hin) as (m1 & m2 & Em & H1 & H2).
  pose proof (nodes_entry_NoDup _ _ _ Hnd Hin) as Hl. unfold remove_excess_snode_from_swarm. rewrite Em.
  rewrite find_entry by done. eexists. split; [done|]. rewrite alter_entry by done.
  exists m1, l, (filter (fun pk => pk <> es_key s) l), m2. split_and!; [done..| |done|done].
  by apply filter_ne_perm.
Qed.

Lemma push_taken id pk m :
  sorted_ids m -> id ∈ ids m -> exists m', @push_back G id pk m = mret m' /\ taken id pk m' m /\
    (forall l, (id, l) ∈ m -> (id, l ++ [pk]) ∈ m').
Proof.
  intros Hs ([i l] & -> & Hin)%list_elem_of_fmap_1. cbn [fst].
  destruct (entry_split m _ _ Hs Hin) as (m1 & m2 & Em & H1 & H2). unfold push_back. rewrite Em.
  rewrite find_entry by done. eexists. split; [done|]. rewrite alter_entry by done. split.
  - exists m1, (l ++ [pk]), l, m2. split_and!; [done..| |done|done]. by rewrite Permutation_app_comm.
  - intros l0. rewrite !elem_of_app, !elem_of_cons. intros [Hl|[[= ->]|Hl]]; [|by right; left|].
    + exfalso. apply H1. by apply (list_elem_of_fmap_2 fst) in Hl.
    + exfalso. apply H2. by apply (list_elem_of_fmap_2 fst) in Hl.
Qed.

End MapOps.

(** ** The excess pool *)

Lemma pool_in threshold m s :
  s ∈ (get_excess_pool threshold m).1 ->
  exists l, (es_swarm s, l) ∈ m /\ es_key s ∈ l /\ threshold < size_of l /\ MIN_SWARM_SIZE < size_of l.
Proof.
  unfold get_excess_pool. destruct (Z.ltb_spec threshold MIN_SWARM_SIZE) as [Ht|Ht]; cbn [fst]; [set_solver|].
  intros (x & Hx & Hs)%list_elem_of_In%in_concat.
  apply list_elem_of_In in Hx. apply list_elem_of_In in Hs. apply list_elem_of_fmap_1 in Hx as ([i l] & -> & Hin).
  apply list_elem_of_filter in Hin as [Hsz Hin]. cbn in Hsz.
  apply list_elem_of_fmap_1 in Hs as (pk & -> & Hpk). cbn in Hpk |- *. exists l. split_and!; try done. lia.
Qed.

(** A positive excess comes from a pool that is not empty. *)
Lemma pool_nonempty threshold m e :
  MIN_SWARM_SIZE <= threshold -> (get_excess_pool threshold m).2 = Some e -> 0 < e ->
  (get_excess_pool threshold m).1 <> [].
Proof.
  intros Ht. unfold get_excess_pool. destruct (Z.ltb_spec threshold MIN_SWARM_SIZE); [lia|]. cbn [fst snd].
  intros [= <-] He Hnil. destruct (filter _ m) as [|[i l] rich] eqn:E; [cbn in He; lia|].
  assert (Hin : (i, l) ∈ filter (fun e : Z * list bytes => threshold < size_of e.2) m) by (rewrite E; left).
  apply list_elem_of_filter in Hin as [Hl _]. unfold size_of, MIN_SWARM_SIZE in *. cbn in Hl.
  destruct l as [|pk l]; [cbn in Hl; lia|]. done.
Qed.

Lemma surplus_pool m : (0 < tally surplus m)%nat -> (get_excess_pool EXCESS_BASE m).1 <> [].
Proof.
  intros Ht Hnil. induction m as [|[i l] m IH]; [cbn in Ht; lia|].
  change (tally surplus ((i, l) :: m)) with (surplus (length l) + tally surplus m)%nat in Ht.
  unfold get_excess_pool, EXCESS_BASE in *. rewrite Z.ltb_irrefl in *. cbn [fst] in *.
  unfold MIN_SWARM_SIZE, size_of, surplus in *.
  destruct (decide (5 < Z.of_nat (length l))) as [Hl|Hl].
  - rewrite filter_cons_True in Hnil by done. cbn in Hnil. apply app_eq_nil in Hnil as [Hn _].
    apply fmap_nil_inv in Hn. subst. cbn in Hl. lia.
  - rewrite filter_cons_False in Hnil by done. apply IH; [lia | done].
Qed.

Lemma perm_length_le (l1 l2 l3 : list bytes) : l1 ++ l2 ≡ₚ l3 -> (length l2 <= length l3)%nat.
Proof. intros E. rewrite <- E, length_app. lia. Qed.

Lemma length_pool threshold m : (length (get_excess_pool threshold m).1 <= length (nodes m))%nat.
Proof.
  unfold get_excess_pool. destruct (_ <? _); cbn [fst]; [cbn; lia|].
  induction m as [|[i l] m IH]; [done|].
  change (nodes ((i, l) :: m)) with (l ++ nodes m). rewrite length_app.
  rewrite filter_cons. case_decide; [|lia]. cbn. rewrite length_app, length_fmap. lia.
Qed.

(** Taking a node from a swarm above the minimum size. *)
Lemma taken_rich id pk m m' l :
  taken id pk m m' -> sorted_ids m -> (id, l) ∈ m -> MIN_SWARM_SIZE < size_of l ->
  (tally surplus m' + 1 = tally surplus m)%nat /\ tally deficient m' = tally deficient m.
Proof.
  intros Ht Hs Hin Hl.
  assert (Hlen : forall l0, (id, l0) ∈ m -> l0 = l).
  { intros l0 Hl0. destruct (entry_split m id l Hs Hin) as (m1 & m2 & -> & H1 & H2).
    apply elem_of_app in Hl0 as [Hl0|Hl0]; [by apply (list_elem_of_fmap_2 fst) in Hl0|].
    apply elem_of_cons in Hl0 as [[= ->]|Hl0]; [done|by apply (list_elem_of_fmap_2 fst) in Hl0]. }
  unfold size_of, MIN_SWARM_SIZE in Hl.
  destruct (taken_tally surplus _ _ _ _ Ht) as (n & r & l1 & Hl1 & Hn & -> & ->).
  destruct (taken_tally deficient _ _ _ _ Ht) as (n' & r' & l2 & Hl2 & Hn' & -> & ->).
  apply Hlen in Hl1, Hl2. subst l1 l2. assert (n' = n) as -> by lia. unfold surplus, deficient.
  destruct (Nat.ltb_spec (S n) 5), (Nat.ltb_spec n 5); lia.
Qed.

Lemma emplace_fresh id l m :
  sorted_ids m -> id ∉ ids m -> 0 <= id <= MAX_ID ->
  exists m1 m2, m = m1 ++ m2 /\ swarm_emplace id l m = m1 ++ (id, l) :: m2 /\
    sorted_ids (swarm_emplace id l m).
Proof.
  intros [Hs Hr] Hn Hid. unfold sorted_ids. induction m as [|[i l'] m IH].
  { exists [], []. split; [done|]. split; [done|]. cbn. split; repeat constructor; lia. }
  change (ids ((i, l') :: m)) with (i :: ids m) in *. inversion_clear Hs as [|? ? Hs' Hall].
  inversion_clear Hr as [|? ? Hi Hr']. apply not_elem_of_cons in Hn as [Hni Hn].
  cbn [swarm_emplace]. destruct (Z.ltb_spec id i) as [Hlt|Hge].
  - exists [], ((i, l') :: m). split; [done|]. split; [done|].
    change (ids ((id, l) :: (i, l') :: m)) with (id :: i :: ids m). split.
    + constructor; [by constructor|]. constructor; [done|]. eapply Forall_impl; [exact Hall|]. cbn. lia.
    + constructor; [done|]. by constructor.
  - destruct (Z.eqb_spec id i) as [->|Hne]; [done|].
    destruct (IH Hs' Hr' Hn) as (m1 & m2 & Em & Ee & Hs1 & Hr1).
    exists ((i, l') :: m1), m2. split; [by rewrite Em|]. split; [by rewrite Ee|].
    change (ids ((i, l') :: swarm_emplace id l m)) with (i :: ids (swarm_emplace id l m)).
    split; [|by constructor]. constructor; [done|]. rewrite Ee, ids_app. rewrite Em, ids_app in Hall.
    apply Forall_app in Hall as [Ha Hb]. apply Forall_app. split; [done|]. constructor; [cbn; lia | done].
Qed.

Lemma no_deficient_length m : tally deficient m = 0%nat -> (5 * length m <= length (nodes m))%nat.
Proof.
  rewrite length_nodes. unfold tally. induction m as [|[i l] m IH]; cbn [sum_list_with snd length]; [lia|].
  unfold deficient at 1, id at 1. destruct (Nat.ltb_spec (length l) 5); lia.
Qed.

Section Posts.
Context {G : Type} `{EngineLaws G} (fuel : nat).
Context (sort_sizes : list swarm_size -> list swarm_size).
(** The nodes to distribute. *)
Context (N : list bytes) (HN : NoDup N) (HNlen : Z.of_nat (length N) < 2 ^ 32).

Definition holds (m : swarm_snode_map) : Prop :=
  sorted_ids m /\ nodes m ≡ₚ N /\ Z.of_nat (length m) <= 2 ^ 32.

Lemma nodes_NoDup acc m : acc ++ nodes m ≡ₚ N -> NoDup (nodes m).
Proof using HN. intros Hp. rewrite <- Hp in HN. by apply NoDup_app in HN as (_ & _ & ?). Qed.

(** A pick from a pool that is not empty. *)
Lemma pick_post pool :
  pool <> [] -> Z.of_nat (length pool) <= UINT64_MAX ->
  post fuel (pick_from_excess_pool fuel pool) (fun s => s ∈ pool).
Proof.
  intros Hne Hlen. unfold pick_from_excess_pool.
  assert (1 <= Z.of_nat (length pool) <= UINT64_MAX) by (destruct pool; [done|cbn [length] in *; lia]).
  eapply post_bind; [by apply uniform_post|].
  cbv beta. intros idx Hidx. destruct (pool !! Z.to_nat idx) as [s|] eqn:E.
  - apply post_ret. by eapply list_elem_of_lookup_2.
  - apply lookup_ge_None in E. lia.
Qed.

Lemma pick_pool_post threshold acc m :
  (get_excess_pool threshold m).1 <> [] -> acc ++ nodes m ≡ₚ N ->
  post fuel (pick_from_excess_pool fuel (get_excess_pool threshold m).1)
    (fun s => exists l, (es_swarm s, l) ∈ m /\ es_key s ∈ l /\ MIN_SWARM_SIZE < size_of l).
Proof using HNlen H0.
  intros Hne Hp. eapply post_mono; [apply pick_post; [done|]|].
  - pose proof (length_pool threshold m). pose proof (perm_length_le _ _ _ Hp). unfold UINT64_MAX. lia.
  - cbv beta. intros s (l & ? & ? & _ & ?)%pool_in. eauto.
Qed.

Lemma take_new_swarm_post missing m acc :
  sorted_ids m -> acc ++ nodes m ≡ₚ N -> (missing <= tally surplus m)%nat ->
  post fuel (take_new_swarm fuel missing m acc) (fun r =>
    exists m' new, r = (m', Some new) /\ length new = (length acc + missing)%nat /\
      ids m' = ids m /\ new ++ nodes m' ≡ₚ N /\ (tally surplus m' + missing = tally surplus m)%nat /\
      tally deficient m' = tally deficient m).
Proof using HN HNlen H0.
  revert m acc. induction missing as [|missing IH]; intros m acc Hs Hp Hm; cbn [take_new_swarm].
  { apply post_ret. exists m, acc. split_and!; try done; lia. }
  assert (Hpool : (get_excess_pool EXCESS_BASE m).1 <> []) by (apply surplus_pool; lia).
  destruct (Nat.eqb_spec (length (get_excess_pool EXCESS_BASE m).1) 0) as [E|_]; [by apply nil_length_inv in E|].
  eapply post_bind; [by eapply pick_pool_post|]. cbv beta. intros s (l & Hin & Hpk & Hl).
  destruct (remove_taken (G:=G) s m l Hs (nodes_NoDup _ _ Hp) Hin Hpk) as (m1 & -> & Ht).
  destruct (taken_rich _ _ _ _ _ Ht Hs Hin Hl) as [Hsur Hdef].
  rewrite ret_bind.
  eapply post_mono; [apply IH|].
  - by apply (taken_sorted _ _ _ _ Ht).
  - rewrite <- Hp, (taken_nodes _ _ _ _ Ht), <- app_assoc. done.
  - lia.
  - cbv beta. intros r (m' & new & -> & Hlen & Hids & Hnew & Hsur' & Hdef'). exists m', new.
    rewrite length_app in Hlen. cbn in Hlen. rewrite (taken_ids _ _ _ _ Ht) in Hids.
    split_and!; try done; lia.
Qed.

Definition improved (m m' : swarm_snode_map) : Prop :=
  holds m' /\ (tally deficient m' <= tally deficient m)%nat /\ (length m <= length m')%nat.

Lemma create_loop_post rounds m :
  holds m -> tally deficient m = 0%nat -> (tally surplus m < rounds)%nat ->
  post fuel (create_loop fuel rounds m) (improved m).
Proof using HN HNlen H0.
  revert m. induction rounds as [|rounds IH]; intros m (Hs & Hp & Hlen) Hd Hr; [lia|]. cbn [create_loop].
  destruct (Z.ltb_spec (calc_excess m) (calc_threshold m)) as [Hlt|Hge].
  { apply post_ret. by repeat split; try apply Hs. }
  rewrite calc_excess_tally in Hge. unfold calc_threshold, NEW_SWARM_SIZE, IDEAL_SWARM_SIZE,
    MIN_SWARM_SIZE, IDEAL_SWARM_MARGIN in *.
  assert (H7 : (7 <= tally surplus m)%nat) by (clear IH; lia).
  eapply post_bind; [by apply (take_new_swarm_post 7 m [])|]. cbv beta.
  intros r (m' & new & -> & Hnew & Hids & Hnp & Hsur & Hdef). cbn in Hnew.
  assert (Hs' : sorted_ids m') by (unfold sorted_ids; by rewrite Hids).
  pose proof (no_deficient_length m' ltac:(by rewrite Hdef)) as H5.
  pose proof (perm_length_le _ _ _ Hnp) as HlenN.
  assert (Hml : length m' = length m) by (rewrite <- !(length_fmap fst); change (length (ids m') = length (ids m)); by rewrite Hids).
  destruct (new_swarm_id_fresh m' Hs') as [Hfresh Hid].
  { unfold MAX_ID, UNASSIGNED_SWARM_ID, UINT64_MAX. lia. }
  destruct (emplace_fresh (get_new_swarm_id m') new m' Hs' Hfresh Hid) as (m1 & m2 & Em & Ee & Hs2).
  generalize dependent (get_new_swarm_id m'). intros id Hfresh Hid Ee Hs2.
  assert (Htally : forall w, tally w (swarm_emplace id new m') = (w 7 + tally w m')%nat).
  { intros w. rewrite Ee, Em, !tally_app.
    change (tally w ((id, new) :: m2)) with (w (length new) + tally w m2)%nat. rewrite Hnew. lia. }
  assert (Hl2 : length (swarm_emplace id new m') = S (length m)).
  { rewrite Ee, <- Hml, Em, !length_app. cbn. lia. }
  eapply post_mono; [apply IH|].
  - split; [done|]. split; [|rewrite Hl2; lia]. rewrite Ee, nodes_app.
    change (nodes ((id, new) :: m2)) with (new ++ nodes m2).
    rewrite <- Hnp, Em, nodes_app. by rewrite Permutation_app_swap_app.
  - rewrite Htally, Hdef. done.
  - rewrite Htally. cbn. lia.
  - intros m3 (Hh & Hd3 & Hl3). rewrite Htally, Hdef in Hd3. rewrite Hl2 in Hl3. cbn in Hd3.
    split_and!; [apply Hh.. | lia | lia].
Qed.

Lemma create_post m : holds m -> post fuel (create_new_swarm_from_excess fuel m) (improved m).
Proof using HN HNlen H0.
  intros Hh. unfold create_new_swarm_from_excess. rewrite existsb_starving.
  destruct (Nat.eqb_spec (tally deficient m) 0) as [E|E]; cbn [negb].
  - apply create_loop_post; [done..|]. rewrite calc_excess_tally. lia.
  - apply post_ret. by split_and!; try apply Hh.
Qed.

Context (Hsort : forall l, sort_sizes l ≡ₚ l).

Lemma sizes_entry m s :
  s ∈ calc_swarm_sizes sort_sizes m -> exists l, (ss_id s, l) ∈ m /\ ss_size s = size_of l.
Proof using Hsort.
  unfold calc_swarm_sizes. rewrite Hsort. intros ([i l] & -> & Hin)%list_elem_of_fmap_1. by exists l.
Qed.

Lemma length_sizes m : length (calc_swarm_sizes sort_sizes m) = length m.
Proof using Hsort. unfold calc_swarm_sizes. by rewrite Hsort, length_fmap. Qed.

End Posts.

Lemma first_above_bounds value i l j :
  first_above value i l = Some j ->
  i <= j < i + Z.of_nat (length l) /\ (forall s l', l = s :: l' -> ss_size s <= value -> i < j).
Proof.
  revert i. induction l as [|s l IH]; intros i; cbn [first_above length]; [done|].
  destruct (Z.ltb_spec value (ss_size s)) as [Hs|Hs].
  - intros [= <-]. split; [lia|]. intros s' l' [= <- _]. lia.
  - intros Hj. destruct (IH _ Hj) as [Hb _]. split; [lia|]. lia.
Qed.

(** The index below which a percentile lies. *)
Lemma percentile_bound percentile (count : nat) :
  0 <= percentile <= 100 -> (0 < count)%nat -> Z.of_nat count <= 2 ^ 32 ->
  (Z.to_nat (u64 (percentile * u64 (Z.of_nat count - 1)) / 100) < count)%nat /\
  0 <= u64 (percentile * u64 (Z.of_nat count - 1)) / 100.
Proof.
  intros Hp Hc Hb. rewrite (u64_small (Z.of_nat count - 1)) by width.
  set (c := Z.of_nat count - 1). assert (Hc' : 0 <= c < 2 ^ 32) by lia.
  rewrite u64_small by (clearbody c; unfold is_u64; nia).
  assert (0 <= percentile * c / 100 <= c).
  { split; [apply Z.div_pos; nia|]. apply Z.div_le_upper_bound; nia. }
  lia.
Qed.

Lemma grown_improved id pk m m' :
  taken id pk m' m -> (tally deficient m' <= tally deficient m)%nat.
Proof.
  intros Ht. destruct (taken_tally deficient _ _ _ _ Ht) as (n & r & l & _ & _ & -> & ->).
  unfold deficient. destruct (Nat.ltb_spec (S n) 5), (Nat.ltb_spec n 5); lia.
Qed.

Section Assign.
Context {G : Type} `{EngineLaws G} (fuel : nat).
Context (sort_sizes : list swarm_size -> list swarm_size) (Hsort : forall l, sort_sizes l ≡ₚ l).

(** The index drawn for a node names a swarm. *)
Lemma assign_index_post percentile m :
  m <> [] -> Z.of_nat (length m) <= 2 ^ 32 -> 0 <= percentile <= 100 ->
  let sorted := calc_swarm_sizes sort_sizes m in
  let pi := u64 (percentile * u64 (Z.of_nat (length sorted) - 1)) / 100 in
  exists s, sorted !! Z.to_nat pi = Some s /\
    post fuel (uniform_distribution_portable (G:=G) fuel
      (match first_above (ss_size s) pi (drop (Z.to_nat pi) sorted) with
       | Some i => i - 1
       | None => Z.of_nat (length sorted) - 1
       end + 1)) (fun i => exists s', sorted !! Z.to_nat i = Some s' /\ ss_id s' ∈ ids m).
Proof using Hsort H0.
  intros Hne Hlen Hp sorted pi. assert (Hl : length sorted = length m) by (by apply length_sizes).
  assert (Hpos : (0 < length sorted)%nat) by (rewrite Hl; destruct m; [done | cbn; lia]).
  destruct (percentile_bound percentile (length sorted) Hp Hpos) as [Hpi Hpi0]; [by rewrite Hl|].
  fold pi in Hpi, Hpi0. destruct (lookup_lt_is_Some_2 sorted (Z.to_nat pi) Hpi) as [s Hs].
  exists s. split; [done|].
  set (u := match first_above _ _ _ with Some i => i - 1 | None => _ end).
  assert (Hu : 0 <= u <= Z.of_nat (length sorted) - 1).
  { unfold u. destruct (first_above _ _ _) as [j|] eqn:E; [|lia].
    apply first_above_bounds in E as [Hj Hj']. rewrite length_drop in Hj.
    rewrite (drop_S _ _ _ Hs) in Hj'. specialize (Hj' _ _ eq_refl ltac:(lia)). lia. }
  assert (Hr : 1 <= u + 1 <= UINT64_MAX) by (unfold UINT64_MAX; lia).
  eapply post_mono; [by apply uniform_post|]. cbv beta. intros i Hi.
  destruct (lookup_lt_is_Some_2 sorted (Z.to_nat i)) as [s' Hs']; [lia|]. exists s'. split; [done|].
  destruct (sizes_entry sort_sizes Hsort m s') as (l & Hin & _); [by eapply list_elem_of_lookup_2|].
  by apply (list_elem_of_fmap_2 fst) in Hin.
Qed.

Lemma assign_post percentile pks N' m :
  NoDup N' -> Z.of_nat (length N') < 2 ^ 32 -> 0 <= percentile <= 100 ->
  m <> [] -> sorted_ids m -> Z.of_nat (length m) <= 2 ^ 32 -> pks ++ nodes m ≡ₚ N' ->
  post fuel (assign_snodes fuel sort_sizes pks percentile m) (improved N' m).
Proof using Hsort H0.
  intros Hnd HN' Hperc. revert m. induction pks as [|pk pks IH]; intros m Hne Hs Hlen Hp; cbn [assign_snodes].
  { apply post_ret. by split_and!. }
  destruct (assign_index_post percentile m Hne Hlen Hperc) as (s & -> & Hpick).
  eapply post_bind; [exact Hpick|]. cbv beta. intros i (s' & -> & Hid).
  destruct (push_taken (G:=G) (ss_id s') pk m Hs Hid) as (m1 & -> & Ht & _). rewrite ret_bind.
  assert (Hnd1 : NoDup (nodes m1)).
  { apply (nodes_NoDup N' Hnd pks). rewrite (taken_nodes _ _ _ _ Ht). rewrite <- Hp. by rewrite <- Permutation_middle. }
  assert (Hp1 : pks ++ nodes m1 ≡ₚ N') by (rewrite (taken_nodes _ _ _ _ Ht), <- Hp; by rewrite <- Permutation_middle).
  pose proof (taken_length _ _ _ _ Ht) as Hl1. pose proof (grown_improved _ _ _ _ Ht) as Hd1.
  eapply post_bind; [apply (create_post fuel (nodes m1)); [done| |split_and!; try done]|].
  - pose proof (perm_length_le _ _ _ Hp1). lia.
  - by apply (taken_sorted _ _ _ _ Ht).
  - lia.
  - intros m2 ((Hs2 & Hn2 & Hl2) & Hd2 & Hle2).
    eapply post_mono; [apply IH; [|done..|]|].
    + intros ->. cbn in Hle2. destruct m; [done|]. cbn in *. lia.
    + by rewrite Hn2.
    + intros m3 (Hh3 & Hd3 & Hle3). split_and!; [apply Hh3..|lia|lia].
Qed.

(** Small swarms other than [id] stay as they are. *)
Definition keeps_small (id : Z) (m m' : swarm_snode_map) : Prop :=
  forall i l, i <> id -> size_of l <= MIN_SWARM_SIZE -> (i, l) ∈ m -> (i, l) ∈ m'.

Lemma find_entry_of m id l : sorted_ids m -> (id, l) ∈ m -> swarm_find id m = Some l.
Proof.
  intros Hs Hin. destruct (entry_split m id l Hs Hin) as (m1 & m2 & -> & H1 & _). by apply find_entry.
Qed.

Lemma steal_post N rounds sorted id l m :
  NoDup N -> Z.of_nat (length N) < 2 ^ 32 -> holds N m ->
  (0 < length sorted)%nat -> Z.of_nat (length sorted) <= 2 ^ 32 ->
  (id, l) ∈ m -> (length l < 5)%nat -> (5 <= rounds + length l)%nat ->
  post fuel (steal_loop fuel rounds sorted id m) (fun r => improved N m r.1 /\ keeps_small id m r.1).
Proof using H0.
  intros Hnd HNl. revert l m. induction rounds as [|rounds IH]; intros l m (Hs & Hp & Hlen) Hpos Hsl Hin Hl Hr;
    [lia|]. cbn [steal_loop].
  destruct (percentile_bound STEALING_SWARM_UPPER_PERCENTILE (length sorted)) as [Hpi _];
    [unfold STEALING_SWARM_UPPER_PERCENTILE; lia | done | done |].
  destruct (lookup_lt_is_Some_2 sorted _ Hpi) as [s0 ->]. rewrite (find_entry_of m id l Hs Hin).
  set (pv := Z.max MIN_SWARM_SIZE _). assert (Hpv : MIN_SWARM_SIZE <= pv) by (unfold pv; lia). clearbody pv.
  destruct (get_excess_pool pv m) as [pool [excess|]] eqn:Epool.
  2: { unfold get_excess_pool in Epool. by destruct (Z.ltb_spec pv MIN_SWARM_SIZE); [lia|]. }
  assert (Hdef : u64 (MIN_SWARM_SIZE - size_of l) = MIN_SWARM_SIZE - size_of l)
    by (apply u64_small; unfold MIN_SWARM_SIZE, size_of; width).
  rewrite Hdef. unfold MIN_SWARM_SIZE, size_of in Hdef |- *.
  destruct (Z.ltb_spec excess (5 - Z.of_nat (length l))) as [He|He].
  { apply post_ret. split; [|by intros ? ? ? ? ?]. cbn [fst]. by repeat split; try apply Hs. }
  assert (Hpool : (get_excess_pool pv m).1 <> []).
  { apply (pool_nonempty pv m excess Hpv); [by rewrite Epool | lia]. }
  change pool with (pool, Some excess).1. rewrite <- Epool.
  eapply post_bind; [by apply (pick_pool_post fuel N HNl pv [])|]. cbv beta. intros s (l1 & Hin1 & Hpk & Hl1).
  destruct (remove_taken (G:=G) s m l1 Hs (nodes_NoDup N Hnd [] m Hp) Hin1 Hpk) as (m1 & -> & Ht1).
  rewrite ret_bind. destruct (taken_rich _ _ _ _ _ Ht1 Hs Hin1 Hl1) as [_ Hd1].
  assert (Hne : id <> es_swarm s).
  { intros ->. pose proof (find_entry_of _ _ _ Hs Hin) as E. rewrite (find_entry_of _ _ _ Hs Hin1) in E.
    injection E as ->. unfold size_of, MIN_SWARM_SIZE in Hl1. lia. }
  assert (Hs1 : sorted_ids m1) by (by apply (taken_sorted _ _ _ _ Ht1)).
  assert (Hin1' : (id, l) ∈ m1) by (by apply (taken_other _ _ _ _ _ _ Ht1)).
  destruct (push_taken (G:=G) id (es_key s) m1 Hs1) as (m2 & -> & Ht2 & Hpush).
  { by apply (list_elem_of_fmap_2 fst) in Hin1'. }
  rewrite ret_bind. pose proof (grown_improved _ _ _ _ Ht2) as Hd2.
  assert (Hh2 : holds N m2).
  { split_and!.
    - by apply (taken_sorted _ _ _ _ Ht2).
    - rewrite (taken_nodes _ _ _ _ Ht2), <- (taken_nodes _ _ _ _ Ht1). done.
    - rewrite <- (taken_length _ _ _ _ Ht2), (taken_length _ _ _ _ Ht1). done. }
  assert (Hk2 : keeps_small id m m2).
  { intros i l2 Hi Hl2 Hin2. apply (taken_other _ _ _ _ _ _ Ht2 Hi), (taken_other _ _ _ _ _ _ Ht1); [|done].
    intros ->. pose proof (find_entry_of _ _ _ Hs Hin2) as E. rewrite (find_entry_of _ _ _ Hs Hin1) in E.
    injection E as ->. lia. }
  assert (Hi2 : improved N m m2).
  { split_and!; [apply Hh2.. | lia |]. rewrite <- (taken_length _ _ _ _ Ht2), (taken_length _ _ _ _ Ht1). lia. }
  destruct (Z.ltb_spec (Z.of_nat (length l) + 1) 5) as [Hm|Hm]; [|by apply post_ret].
  eapply post_mono; [apply (IH (l ++ [es_key s]) m2); try done; [by apply Hpush|rewrite length_app; cbn; lia..]|].
  intros r ((Hh3 & Hd3 & Hl3) & Hk3). destruct Hi2 as (_ & Hd2' & Hl2'). split.
  - split_and!; [apply Hh3.. | lia | lia].
  - intros i l3 Hi Hl3' Hin3. apply Hk3; [done..|]. by apply Hk2.
Qed.

(** The sizes recorded for the starving swarms still to be served are their present ones. *)
Definition recorded (todo : list swarm_size) (m : swarm_snode_map) : Prop :=
  NoDup (ss_id <$> todo) /\
  forall s, s ∈ todo -> ss_size s < MIN_SWARM_SIZE -> exists l, (ss_id s, l) ∈ m /\ size_of l = ss_size s.

Lemma improved_trans N m1 m2 m3 : improved N m1 m2 -> improved N m2 m3 -> improved N m1 m3.
Proof. intros (_ & H1 & H2) (? & H3 & H4). split_and!; [done | lia | lia]. Qed.

Lemma robin_hood_post N sorted todo m :
  NoDup N -> Z.of_nat (length N) < 2 ^ 32 -> holds N m ->
  (0 < length sorted)%nat -> Z.of_nat (length sorted) <= 2 ^ 32 -> recorded todo m ->
  post fuel (robin_hood fuel sorted todo m) (improved N m).
Proof using H0.
  intros Hnd HNl. revert m. induction todo as [|s todo IH]; intros m Hh Hpos Hsl [Hids Hrec]; cbn [robin_hood].
  { apply post_ret. by split_and!; try apply Hh. }
  destruct (Z.leb_spec MIN_SWARM_SIZE (ss_size s)) as [Hbig|Hsmall].
  { apply post_ret. by split_and!; try apply Hh. }
  destruct (Hrec s ltac:(left) Hsmall) as (l & Hin & Hl). rewrite fmap_cons in Hids.
  apply NoDup_cons in Hids as [Hnin Hids].
  unfold size_of, MIN_SWARM_SIZE in Hl, Hsmall.
  eapply post_bind; [apply (steal_post N (Z.to_nat MIN_SWARM_SIZE) sorted (ss_id s) l m);
    try done; unfold MIN_SWARM_SIZE; lia|]. cbv beta.
  intros [m1 insufficient] [Hi Hk]. cbn [fst] in Hi, Hk.
  destruct insufficient; [by apply post_ret|].
  eapply post_mono; [apply IH; try done; [apply Hi|]|].
  - split; [done|]. intros s' Hs' Hsm. destruct (Hrec s' ltac:(by right) Hsm) as (l' & Hin' & Hl').
    exists l'. split; [|done]. apply Hk; [|lia|done].
    intros E. apply Hnin. rewrite <- E. by apply list_elem_of_fmap_2.
  - intros m2. by apply improved_trans.
Qed.

Lemma sizes_recorded m : sorted_ids m -> recorded (calc_swarm_sizes sort_sizes m) m.
Proof using Hsort.
  intros [Hs _]. split.
  - unfold calc_swarm_sizes. rewrite Hsort. rewrite <- list_fmap_compose.
    change (NoDup (ids m)). by apply sorted_NoDup.
  - intros s Hin _. destruct (sizes_entry sort_sizes Hsort m s Hin) as (l & ? & ->). by exists l.
Qed.

Lemma sorted_ids_sub m1 id l m2 : sorted_ids (m1 ++ (id, l) :: m2) -> sorted_ids (m1 ++ m2).
Proof.
  unfold sorted_ids. rewrite !ids_app. change (ids ((id, l) :: m2)) with (id :: ids m2).
  intros [Hs Hr]. split.
  - revert Hs. generalize (ids m1), (ids m2). clear. intros l1 l2.
    induction l1 as [|x l1 IH]; cbn; intros Hs; inversion_clear Hs as [|? ? Hs' Hall]; [done|].
    constructor; [by apply IH|]. apply Forall_app in Hall as [? Hall]. apply Forall_app.
    split; [done|]. by inversion Hall.
  - apply Forall_app in Hr as [? Hr]. apply Forall_app. split; [done|]. by inversion Hr.
Qed.

Lemma first_starving m id l :
  sorted_ids m -> head (filter (fun e => starving e = true) m) = Some (id, l) ->
  exists m1 m2, m = m1 ++ (id, l) :: m2 /\ swarm_erase id m = m1 ++ m2 /\ sorted_ids (m1 ++ m2) /\
    nodes m ≡ₚ l ++ nodes (m1 ++ m2) /\ tally deficient m = S (tally deficient (m1 ++ m2)) /\
    (length l < 5)%nat.
Proof.
  intros Hs Hh. apply head_Some_elem_of, list_elem_of_filter in Hh as [Hst Hin].
  destruct (entry_split m id l Hs Hin) as (m1 & m2 & -> & H1 & H2). exists m1, m2.
  assert (Hl : (length l < 5)%nat).
  { unfold starving, size_of, MIN_SWARM_SIZE in Hst. cbn in Hst. bool_hyps. lia. }
  split_and!; try done.
  - by apply erase_entry.
  - apply (sorted_ids_sub m1 id l m2 Hs).
  - rewrite !nodes_app. change (nodes ((id, l) :: m2)) with (l ++ nodes m2). by rewrite Permutation_app_swap_app.
  - rewrite !tally_app. change (tally deficient ((id, l) :: m2)) with (deficient (length l) + tally deficient m2)%nat.
    unfold deficient at 2. destruct (Nat.ltb_spec (length l) 5); lia.
Qed.

Lemma decommission_post N rounds m :
  NoDup N -> Z.of_nat (length N) < 2 ^ 32 -> (5 <= length N)%nat -> holds N m ->
  (tally deficient m < rounds)%nat ->
  post fuel (decommission_loop fuel sort_sizes rounds m) (fun m' => holds N m' /\ tally deficient m' = 0%nat).
Proof using Hsort H0.
  intros Hnd HNl H5. revert m. induction rounds as [|rounds IH]; intros m Hh Hr; [lia|]. cbn [decommission_loop].
  destruct (head _) as [[id l]|] eqn:E.
  - destruct Hh as (Hs & Hp & Hlen).
    destruct (first_starving m id l Hs E) as (m1 & m2 & Em & -> & Hs' & Hp' & Hd & Hl).
    assert (Hlen' : Z.of_nat (length (m1 ++ m2)) <= 2 ^ 32).
    { rewrite Em, length_app in Hlen. rewrite length_app. cbn [length] in Hlen. clear IH. lia. }
    eapply post_bind; [apply (assign_post _ _ N); try done|].
    + intros En. rewrite En, Hp in Hp'. cbn in Hp'. rewrite app_nil_r in Hp'.
      apply Permutation_length in Hp'. lia.
    + by rewrite <- Hp'.
    + intros m3 (Hh3 & Hd3 & _). apply IH; [done|lia].
  - apply post_ret. split; [done|].
    destruct (tally deficient m) eqn:Ed; [done|]. exfalso.
    assert (Hex : existsb starving m = true) by (rewrite existsb_starving, Ed; done).
    apply existsb_exists in Hex as (x & Hx%list_elem_of_In & Hst).
    assert (x ∈ filter (fun e => starving e = true) m) by (by apply list_elem_of_filter).
    destruct (filter _ m); [set_solver | done].
Qed.

(** The part of the map that [calc_swarm_changes] starts from. *)
Definition valid_swarms (m : swarm_snode_map) : Prop :=
  StronglySorted Z.lt (ids m) /\ Forall (fun i => 0 <= i <= UNASSIGNED_SWARM_ID) (ids m) /\
  NoDup (nodes m) /\ Z.of_nat (length (nodes m)) < 2 ^ 32 /\ Z.of_nat (length m) <= 2 ^ 32.

Lemma sorted_sublist l1 l2 : l1 `sublist_of` l2 -> StronglySorted Z.lt l2 -> StronglySorted Z.lt l1.
Proof.
  induction 1 as [|x l1 l2 Hs IH|x l1 l2 Hs IH]; intros Hl; [done|..]; inversion_clear Hl as [|? ? Hl' Hall].
  - constructor; [by apply IH|]. rewrite Forall_forall in *. intros y Hy. apply Hall. by eapply elem_of_sublist.
  - by apply IH.
Qed.

(** Taking the unassigned nodes out. *)
Lemma unassigned_split m :
  valid_swarms m ->
  let m' := swarm_erase UNASSIGNED_SWARM_ID m in
  sorted_ids m' /\ (length m' <= length m)%nat /\
  default [] (swarm_find UNASSIGNED_SWARM_ID m) ++ nodes m' ≡ₚ nodes m.
Proof.
  intros (Hs & Hr & _) m'.
  assert (Hsub : m' `sublist_of` m) by apply sublist_filter. split; [split|split].
  - eapply sorted_sublist; [|exact Hs]. unfold ids. by apply (fmap_sublist fst).
  - rewrite Forall_forall in Hr |- *. intros i (e & -> & He)%list_elem_of_fmap_1.
    apply list_elem_of_filter in He as [Hne He]. pose proof (Hr e.1 ltac:(by apply list_elem_of_fmap_2)).
    unfold MAX_ID. lia.
  - by apply sublist_length.
  - unfold m'. clear Hr Hsub m'. destruct (decide (UNASSIGNED_SWARM_ID ∈ ids m)) as [Hin|Hn].
    + apply list_elem_of_fmap_1 in Hin as ([i l] & Ei & Hin). cbn in Ei. subst i.
      apply list_elem_of_split in Hin as (m1 & m2 & ->). apply sorted_NoDup in Hs. rewrite ids_app in Hs.
      apply NoDup_app in Hs as (_ & Hd & Hn). apply NoDup_cons in Hn as [Hn _].
      assert (Hm1 : UNASSIGNED_SWARM_ID ∉ ids m1) by (intros Hin; apply (Hd _ Hin); left).
      rewrite find_entry, erase_entry by done. cbn [default from_option]. unfold id. rewrite !nodes_app.
      change (nodes ((UNASSIGNED_SWARM_ID, l) :: m2)) with (l ++ nodes m2). by rewrite Permutation_app_swap_app.
    + rewrite erase_none by done. unfold swarm_find. by rewrite filter_ids_none.
Qed.

Lemma swarm_changes_post m :
  valid_swarms m -> (5 <= length (nodes m))%nat ->
  post fuel (swarm_changes fuel sort_sizes m) (fun m' =>
    sorted_ids m' /\ nodes m' ≡ₚ nodes m /\ Forall (fun e => MIN_SWARM_SIZE <= size_of e.2) m').
Proof using Hsort H0.
  intros Hv H5. pose proof (unassigned_split m Hv) as Hu. destruct Hv as (_ & _ & Hnd & Hn & Hml).
  unfold swarm_changes. destruct m as [|e0 m0] eqn:Em; [cbn in H5; lia|]. rewrite <- Em in *.
  destruct Hu as (Hs & Hle & Hp). set (m1 := swarm_erase UNASSIGNED_SWARM_ID m) in *.
  set (m2 := if (length m1 =? 0)%nat then _ else m1).
  assert (Hm2 : m2 <> [] /\ sorted_ids m2 /\ Z.of_nat (length m2) <= 2 ^ 32 /\ nodes m2 = nodes m1).
  { unfold m2. destruct (Nat.eqb_spec (length m1) 0) as [E|E].
    - apply nil_length_inv in E. rewrite E. split; [done|]. split; [|split; [cbn; lia | done]].
      split; (constructor; [|constructor]); [constructor|]. unfold MAX_ID, UNASSIGNED_SWARM_ID, UINT64_MAX. cbn. lia.
    - split; [by intros -> |]. split; [done|]. split; [lia | done]. }
  clearbody m2. destruct Hm2 as (Hne2 & Hs2 & Hl2 & Hnodes).
  eapply post_bind; [apply (assign_post _ _ (nodes m)); try done; by rewrite Hnodes|].
  intros m3 (Hh3 & _ & Hl3). cbv zeta.
  assert (H1 : (1 <= length m3)%nat) by (destruct m2; [done | cbn in Hl3; lia]).
  eapply post_bind; [apply (robin_hood_post (nodes m)); try done|].
  { by rewrite length_sizes. }
  { rewrite length_sizes by done. apply Hh3. }
  { apply sizes_recorded, Hh3. }
  intros m4 (Hh4 & _ & Hl4). eapply post_bind; [by apply (create_post fuel (nodes m))|].
  intros m5 (Hh5 & _ & Hl5). destruct (Nat.ltb_spec 1 (length m5)) as [Hmany|Hone].
  - eapply post_mono; [apply (decommission_post (nodes m)); try done|].
    + assert (Hd : forall m, (tally deficient m <= length m)%nat).
      { clear. unfold tally. induction m as [|e m IH]; cbn [sum_list_with length]; [lia|].
        assert (deficient (length e.2) <= 1)%nat by (unfold deficient; destruct (_ <? _)%nat; lia). lia. }
      specialize (Hd m5). lia.
    + cbv beta. intros m6 [(Hs6 & Hp6 & _) Hd6]. split_and!; [apply Hs6..|done|]. by apply tally_deficient_0.
  - apply post_ret. destruct Hh5 as (Hs5 & Hp5 & _). split_and!; [apply Hs5..|done|].
    destruct m5 as [|[i l] [|? ?]]; [cbn in Hl5; lia| |cbn in Hone; lia].
    constructor; [|constructor]. change (nodes [(i, l)]) with (l ++ []) in Hp5. rewrite app_nil_r in Hp5.
    apply Permutation_length in Hp5. unfold MIN_SWARM_SIZE, size_of. cbn [snd]. lia.
Qed.

End Assign.

(** ** Too few nodes *)

Section TooFew.
Context {G : Type} `{EngineLaws G} (fuel : nat).
Context (sort_sizes : list swarm_size -> list swarm_size) (Hsort : forall l, sort_sizes l ≡ₚ l).

Lemma entry_length m e : e ∈ m -> (length e.2 <= length (nodes m))%nat.
Proof.
  intros (m1 & m2 & ->)%list_elem_of_split. rewrite nodes_app. destruct e as [i l].
  change (nodes ((i, l) :: m2)) with (l ++ nodes m2). rewrite !length_app. cbn. lia.
Qed.

Lemma few_starving m e : (length (nodes m) < 5)%nat -> e ∈ m -> starving e = true.
Proof.
  intros Hn He. apply entry_length in He. unfold starving, size_of, MIN_SWARM_SIZE. apply Z.ltb_lt. lia.
Qed.

Lemma few_create m : m <> [] -> (length (nodes m) < 5)%nat -> @create_new_swarm_from_excess G _ fuel m = mret m.
Proof.
  intros Hne Hn. unfold create_new_swarm_from_excess. destruct m as [|e m]; [done|].
  assert (Hs : starving e = true) by (apply (few_starving (e :: m)); [done | left]).
  cbn [existsb]. by rewrite Hs.
Qed.

Lemma few_assign pks m :
  sorted_ids m -> m <> [] -> Z.of_nat (length m) <= 2 ^ 32 -> (length (pks ++ nodes m) < 5)%nat ->
  post (G:=G) fuel (assign_snodes fuel sort_sizes pks 0 m)
    (fun m' => ids m' = ids m /\ nodes m' ≡ₚ pks ++ nodes m).
Proof using Hsort H0.
  revert m. induction pks as [|pk pks IH]; intros m Hs Hne Hlen Hn; cbn [assign_snodes].
  { by apply post_ret. }
  destruct (assign_index_post (G:=G) fuel sort_sizes Hsort 0 m Hne Hlen ltac:(lia)) as (s & -> & Hpick).
  eapply post_bind; [exact Hpick|]. cbv beta. intros i (s' & -> & Hid).
  destruct (push_taken (G:=G) (ss_id s') pk m Hs Hid) as (m1 & -> & Ht & _). rewrite ret_bind.
  assert (Hp1 : pks ++ nodes m1 ≡ₚ (pk :: pks) ++ nodes m)
    by (rewrite (taken_nodes _ _ _ _ Ht); by rewrite <- Permutation_middle).
  pose proof (taken_ids _ _ _ _ Ht) as Hi1. pose proof (taken_length _ _ _ _ Ht) as Hl1.
  pose proof (Permutation_length Hp1) as Hpl.
  assert (Hne1 : m1 <> []) by (intros ->; destruct m; [done|]; cbn in Hl1; lia).
  rewrite few_create, ret_bind; [|done|rewrite length_app in Hpl; lia].
  eapply post_mono; [apply IH; [|done|lia|lia]|].
  - by apply (taken_sorted _ _ _ _ Ht).
  - cbv beta. intros m' [Hi Hp]. split; [congruence|]. by rewrite Hp.
Qed.

Lemma few_robin_hood sorted todo m :
  sorted_ids m -> (length (nodes m) < 5)%nat -> (0 < length sorted)%nat -> Z.of_nat (length sorted) <= 2 ^ 32 ->
  recorded todo m -> @robin_hood G _ fuel sorted todo m = mret m.
Proof.
  intros Hs Hn Hpos Hsl [_ Hrec]. destruct todo as [|s todo]; [done|]. cbn [robin_hood].
  destruct (Z.leb_spec MIN_SWARM_SIZE (ss_size s)) as [|Hsmall]; [done|].
  destruct (Hrec s ltac:(left) Hsmall) as (l & Hin & Hl).
  change (Z.to_nat MIN_SWARM_SIZE) with 5%nat. cbn [steal_loop].
  destruct (percentile_bound STEALING_SWARM_UPPER_PERCENTILE (length sorted)) as [Hpi _];
    [unfold STEALING_SWARM_UPPER_PERCENTILE; lia | done | done |].
  destruct (lookup_lt_is_Some_2 sorted _ Hpi) as [s0 ->]. rewrite (find_entry_of m _ l Hs Hin).
  set (pv := Z.max MIN_SWARM_SIZE _). assert (Hpv : MIN_SWARM_SIZE <= pv) by (unfold pv; lia). clearbody pv.
  unfold get_excess_pool. destruct (Z.ltb_spec pv MIN_SWARM_SIZE); [lia|].
  rewrite filter_none.
  2: { rewrite Forall_forall. intros e He. apply entry_length in He.
       unfold size_of, MIN_SWARM_SIZE in *. lia. }
  cbn [foldl]. pose proof (entry_length _ _ Hin) as Hlen. cbn in Hlen.
  rewrite u64_small by (unfold size_of, MIN_SWARM_SIZE; width).
  destruct (Z.ltb_spec 0 (MIN_SWARM_SIZE - size_of l)) as [_|Hge]; [done|].
  unfold size_of, MIN_SWARM_SIZE in *. lia.
Qed.

Lemma few_decommission rounds m :
  sorted_ids m -> m <> [] -> Z.of_nat (length m) <= 2 ^ 32 -> (0 < length (nodes m) < 5)%nat ->
  (length m <= rounds)%nat ->
  triple (G:=G) fuel (decommission_loop fuel sort_sizes rounds m) (fun _ => False) True.
Proof using Hsort H0.
  revert m. induction rounds as [|rounds IH]; intros m Hs Hne Hlen Hn Hr.
  { destruct m; [done | cbn in Hr; lia]. }
  cbn [decommission_loop]. destruct (head _) as [[id l]|] eqn:E.
  2: { destruct m as [|e m]; [done|].
       assert (Hst : starving e = true) by (apply (few_starving (e :: m)); [lia | left]).
       by rewrite filter_cons_True in E by done. }
  destruct (first_starving m id l Hs E) as (m1 & m2 & Em & -> & Hs' & Hp & _ & _).
  pose proof (Permutation_length Hp) as Hpl.
  assert (Hml : length m = S (length (m1 ++ m2))) by (rewrite Em, !length_app; cbn; lia).
  destruct (decide (m1 ++ m2 = [])) as [En|En].
  - rewrite En in *. rewrite app_nil_r in Hpl. destruct l as [|pk l]; [cbn in Hpl; lia|].
    unfold DECOMMISSIONED_REDISTRIBUTION_LOWER_PERCENTILE. cbn [assign_snodes].
    assert (Enil : calc_swarm_sizes sort_sizes [] = []) by (apply nil_length_inv; by rewrite length_sizes).
    rewrite Enil. done.
  - eapply triple_bind; [apply post_triple, few_assign; [done|done|lia|lia]|]. cbv beta. intros m3 [Hi Hp3].
    assert (Hl3 : length m3 = length (m1 ++ m2)).
    { rewrite <- !(length_fmap fst). change (length (ids m3) = length (ids (m1 ++ m2))). by rewrite Hi. }
    pose proof (Permutation_length Hp3). apply IH; [unfold sorted_ids; by rewrite Hi| |lia|lia|lia].
    intros ->. destruct (m1 ++ m2); [done | cbn in Hl3; lia].
Qed.

Lemma few_changes m :
  sorted_ids m -> (2 <= length m)%nat -> Z.of_nat (length m) <= 2 ^ 32 -> (0 < length (nodes m) < 5)%nat ->
  triple (G:=G) fuel (swarm_changes fuel sort_sizes m) (fun _ => False) True.
Proof using Hsort H0.
  intros Hs H2 Hlen Hn. unfold swarm_changes.
  assert (Hun : UNASSIGNED_SWARM_ID ∉ ids m).
  { intros Hin. destruct Hs as [_ Hr]. rewrite Forall_forall in Hr. specialize (Hr _ Hin). unfold MAX_ID in Hr. lia. }
  rewrite (erase_none _ m Hun). unfold swarm_find. rewrite (filter_ids_none m _ Hun). cbn [head fmap option_fmap option_map default].
  destruct m as [|e m0] eqn:Em; [cbn in H2; lia|]. rewrite <- Em in *.
  destruct (Nat.eqb_spec (length m) 0) as [|_]; [lia|]. cbn [assign_snodes from_option]. rewrite ret_bind.
  assert (Hls : length (calc_swarm_sizes sort_sizes m) = length m) by (by apply length_sizes).
  rewrite few_robin_hood, ret_bind; [|done|lia|lia|lia|by apply sizes_recorded].
  assert (Hne : m <> []) by (by rewrite Em).
  rewrite few_create, ret_bind by (done || lia).
  destruct (Nat.ltb_spec 1 (length m)) as [_|]; [|lia]. apply few_decommission; (done || lia).
Qed.

End TooFew.

(** ** The claims *)

(** The id of a new swarm is none of the existing ids and not the id of unassigned
    nodes. *)
Theorem new_swarm_id_unused m :
  sorted_ids m -> Z.of_nat (length m) < MAX_ID ->
  (get_new_swarm_id m ∉ ids m) /\ 0 <= get_new_swarm_id m <= MAX_ID.
Proof. apply new_swarm_id_fresh. Qed.

(** (C29) Recomputing the swarms, whatever the seed and the order of swarms of equal size:
    with at least five active nodes every node ends in exactly one swarm, no node is
    unassigned, the swarm ids are distinct and every swarm has at least the minimum of five
    nodes.  It ends and does not throw, unless the engine stalls. *)
Theorem swarm_changes_healthy fuel sort_sizes m seed :
  (forall l, sort_sizes l ≡ₚ l) -> valid_swarms m -> (5 <= length (nodes m))%nat ->
  match calc_swarm_changes fuel sort_sizes m seed with
  | Returned (m', _) =>
      sorted_ids m' /\ nodes m' ≡ₚ nodes m /\ Forall (fun e => MIN_SWARM_SIZE <= size_of e.2) m'
  | Stalled => stalls fuel (Mt19937_64.seed seed)
  | Thrown => False
  end.
Proof.
  intros Hsort Hv H5. pose proof (swarm_changes_post (G:=Mt19937_64.t) fuel sort_sizes Hsort m Hv H5
    (Mt19937_64.seed seed)) as Hpost. unfold calc_swarm_changes.
  destruct (swarm_changes _ _ _ _) as [[m' g']| |]; [apply Hpost | done..].
Qed.

(** (C36) With fewer than five active nodes in two or more swarms the last swarm is
    decommissioned as well, and its nodes are assigned to the empty map: the function
    throws, for every seed. *)
Theorem swarm_changes_throws fuel sort_sizes m seed :
  (forall l, sort_sizes l ≡ₚ l) -> sorted_ids m -> (2 <= length m)%nat -> Z.of_nat (length m) <= 2 ^ 32 ->
  (0 < length (nodes m) < 5)%nat ->
  match calc_swarm_changes fuel sort_sizes m seed with
  | Returned _ => False
  | Stalled => stalls fuel (Mt19937_64.seed seed)
  | Thrown => True
  end.
Proof.
  intros Hsort Hs H2 Hl Hn. pose proof (few_changes (G:=Mt19937_64.t) fuel sort_sizes Hsort m Hs H2 Hl Hn
    (Mt19937_64.seed seed)) as Hpost. unfold calc_swarm_changes.
  destruct (swarm_changes _ _ _ _) as [[m' g']| |]; [apply Hpost | done..].
Qed.

(** *** Witnesses *)

Definition le_size (a b : swarm_size) : Prop := ss_size a <= ss_size b.
#[export] Instance le_size_dec : RelDecision le_size.
Proof. intros a b. unfold le_size. apply _. Defined.

Definition stable_sort (l : list swarm_size) : list swarm_size := merge_sort le_size l.
(** Another sort, that reverses swarms of equal size. *)
Definition reversing_sort (l : list swarm_size) : list swarm_size := merge_sort le_size (reverse l).

Lemma stable_sort_perm l : stable_sort l ≡ₚ l.
Proof. apply merge_sort_Permutation. Qed.
Lemma reversing_sort_perm l : reversing_sort l ≡ₚ l.
Proof. unfold reversing_sort. by rewrite merge_sort_Permutation, reverse_Permutation. Qed.

Definition demo_nodes (start count : nat) : list bytes := (fun n => [Z.of_nat n]) <$> seq start count.

Lemma new_swarm_id_unused_witness :
  get_new_swarm_id [(0, []); (1000, [])] = 9223372036854776307 /\ 0 <= 9223372036854776307 <= MAX_ID.
Proof.
  destruct (new_swarm_id_unused [(0, []); (1000, [])]) as [_ Hr].
  - split; repeat constructor; unfold MAX_ID, UNASSIGNED_SWARM_ID, UINT64_MAX; cbn; lia.
  - unfold MAX_ID, UNASSIGNED_SWARM_ID, UINT64_MAX. cbn. lia.
  - split; [vm_compute; reflexivity|]. vm_compute in Hr |- *. exact Hr.
Defined.

Lemma swarm_changes_healthy_witness :
  exists m', value (calc_swarm_changes 64 stable_sort [(7, demo_nodes 20 3); (100, demo_nodes 30 8);
                      (UNASSIGNED_SWARM_ID, demo_nodes 0 10)] 5) = Some m' /\
    Forall (fun e => MIN_SWARM_SIZE <= size_of e.2) m'.
Proof.
  set (m := [(7, demo_nodes 20 3); (100, demo_nodes 30 8); (UNASSIGNED_SWARM_ID, demo_nodes 0 10)]).
  assert (Hv : valid_swarms m).
  { split_and!; [repeat constructor; cbn; unfold UNASSIGNED_SWARM_ID, UINT64_MAX; lia
      | repeat constructor; cbn; unfold UNASSIGNED_SWARM_ID, UINT64_MAX; lia | | cbn; lia | cbn; lia].
    apply (bool_decide_unpack _). vm_compute. exact I. }
  pose proof (swarm_changes_healthy 64 stable_sort m 5 stable_sort_perm Hv ltac:(cbn; lia)) as H.
  assert (E : is_Some (value (calc_swarm_changes 64 stable_sort m 5))) by (eexists; vm_compute; reflexivity).
  revert E H. generalize (calc_swarm_changes 64 stable_sort m 5). clear. intros o [m' E] H.
  exists m'. split; [exact E|]. destruct o as [[m2 g]| |]; [|discriminate E..].
  injection E as <-. apply H.
Defined.

Lemma swarm_changes_throws_witness :
  let r := calc_swarm_changes 64 stable_sort [(3, demo_nodes 0 1); (9, demo_nodes 1 2)] 5 in
  r = Thrown /\
  match r with
  | Returned _ => False
  | Stalled => stalls 64 (Mt19937_64.seed 5)
  | Thrown => True
  end.
Proof.
  cbv zeta. split; [vm_compute; reflexivity|].
  apply (swarm_changes_throws 64 stable_sort [(3, demo_nodes 0 1); (9, demo_nodes 1 2)] 5
    stable_sort_perm); [|cbn; lia..].
  split; repeat constructor; unfold MAX_ID, UNASSIGNED_SWARM_ID, UINT64_MAX; cbn; lia.
Defined.

(** The result depends on the order [std::sort] gives to swarms of equal size, which the
    standard leaves open. *)
Lemma swarm_changes_depend_on_sort :
  let m := [(7, demo_nodes 20 5); (100, demo_nodes 30 5); (UNASSIGNED_SWARM_ID, demo_nodes 0 1)] in
  value (calc_swarm_changes 64 stable_sort m 5) <> value (calc_swarm_changes 64 reversing_sort m 5).
Proof. vm_compute. discriminate. Qed.
