(* ===== verification/Quorums.v ===== *)
(** * Quorum generation

    The quorums of [cryptonote_core/service_node_list.cpp]: [quorum_rng],
    [generate_shuffled_service_node_index_list], the pulse quorum of a round
    ([generate_pulse_quorum] and [generate_pulse_quorum_with_candidates]) and the
    obligations, checkpointing and blink quorums of a block ([generate_other_quorums]), with
    the rule of hard fork 22 of one seat per operator.  Boost's generator and its seeding
    are parameters.  An index outside of its list is [Thrown]. *)
From S2P Require Import Prelude Order Hardfork Config Address Rules Voting Random Swarm ServiceNode NodeList.
From stdpp Require Import gmap.
#[local] Open Scope Z_scope.

Definition quorum_type_value (type : quorum_type) : Z :=
  match type with obligations => 0 | checkpointing => 1 | blink => 2 | pulse => 3 end.

Definition PULSE_MIN_UNIQUE_OPERATORS : Z := PULSE_QUORUM_SIZE.

(** A node with its record. *)
Abbreviation entry := (bytes * service_node_info)%type.
Definition operator_of (e : entry) : account_public_address := operator_address e.2.

(** ** Orders *)

Definition pulse_key_eqb (a b : pulse_sort_key) : bool :=
  (last_height_validating_in_quorum a =? last_height_validating_in_quorum b)
  && (quorum_index a =? quorum_index b).

Definition pulse_key_ltb (a b : pulse_sort_key) : bool :=
  if last_height_validating_in_quorum a =? last_height_validating_in_quorum b
  then quorum_index a <? quorum_index b
  else last_height_validating_in_quorum a <? last_height_validating_in_quorum b.

Definition pulse_candidates_sorter (a b : entry) : bool :=
  if pulse_key_eqb (pulse_sorter a.2) (pulse_sorter b.2) then bytes_ltb a.1 b.1
  else pulse_key_ltb (pulse_sorter a.2) (pulse_sorter b.2).

(** ** Seats *)

(** The entries whose operator has not been seen, [unordered_set::insert] by [insert]. *)
Fixpoint dedup (seen : list account_public_address) (l : list entry) : list entry :=
  match l with
  | [] => []
  | e :: l =>
      if bool_decide (operator_of e ∈ seen) then dedup seen l
      else e :: dedup (operator_of e :: seen) l
  end.

(** The loop over the shuffled indices that fills [need] seats: the validators, and for each
    index whether it was used. *)
Fixpoint pick_validators (active : list entry) (need : nat) (seen : list account_public_address)
    (indexes : list nat) : list bytes * list bool :=
  match indexes, need with
  | [], _ => ([], [])
  | _ :: _, O => ([], replicate (length indexes) false)
  | j :: indexes, S need' =>
      match active !! j with
      | None => let '(vs, used) := pick_validators active need seen indexes in (vs, false :: used)
      | Some e =>
          if bool_decide (operator_of e ∈ seen) then
            let '(vs, used) := pick_validators active need seen indexes in (vs, false :: used)
          else
            let '(vs, used) := pick_validators active need' (operator_of e :: seen) indexes in
            (e.1 :: vs, true :: used)
      end
  end.

(** A tested node: active or decommissioned. *)
Definition worker_key (active : list entry) (decomm : list bytes) (j : nat) : option bytes :=
  match active !! j with
  | Some e => Some e.1
  | None => decomm !! (j - length active)%nat
  end.

(** The tested nodes among the indices after the validators that were not promoted. *)
Definition spare_indexes (num_validators : nat) (indexes : list nat) (used : list bool) : list nat :=
  (filter (fun p => p.2 = false) (zip (drop num_validators indexes) (drop num_validators used))).*1.

Definition of_option {A} (o : option A) : outcome A :=
  match o with Some x => Returned x | None => Thrown end.

Definition seat_quorum (hf_version : hf) (active : list entry) (decomm : list bytes)
    (indexes : list nat) (num_validators num_workers : nat) : outcome quorum :=
  if (hf22_sn_policy <=? hf_version) && negb (num_validators =? 0)%nat then
    let '(vs, used) := pick_validators active num_validators [] indexes in
    ws ← of_option (mapM (worker_key active decomm)
                      (take num_workers (spare_indexes num_validators indexes used)));
    mret (Quorum vs ws)
  else if (length indexes <? num_validators + num_workers)%nat then Thrown
  else
    vs ← of_option (mapM (fun j => fst <$> active !! j) (take num_validators indexes));
    ws ← of_option (mapM (worker_key active decomm) (take num_workers (drop num_validators indexes)));
    mret (Quorum vs ws).

Section Generate.
Context {G : Type} `{Engine G} (fuel : nat).
(** [boost::random::mt19937_64] seeded by a number and by a [seed_seq]. *)
Context (seed_number : Z -> G) (seed_sequence : list Z -> G).

(** The little-endian 32-bit words of a hash. *)
Definition hash_words (hash : bytes) : list Z :=
  (fun i => load_le (take 4 (drop (4 * i) hash))) <$> seq 0 8.

Definition quorum_rng (hf_version : hf) (hash : bytes) (type : quorum_type) : G :=
  if hf16_pulse <=? hf_version then seed_sequence (quorum_type_value type :: hash_words hash)
  else seed_number (u64 (load_le (take 8 hash) + quorum_type_value type)).

Definition generate_shuffled_service_node_index_list (hf_version : hf) (list_size : nat)
    (block_hash : bytes) (type : quorum_type) (sublist_size sublist_up_to : nat) : outcome (list nat) :=
  let result := seq 0 list_size in
  let rng := quorum_rng hf_version block_hash type in
  if (0 <? sublist_size)%nat && (sublist_size <? list_size)%nat
     && (0 <? sublist_up_to)%nat && (sublist_up_to <? list_size)%nat then
    front ← run (shuffle_portable fuel (take sublist_up_to result)) rng;
    let result := front ++ drop sublist_up_to result in
    back ← run (shuffle_portable fuel (drop sublist_size result)) rng;
    mret (take sublist_size result ++ back)
  else run (shuffle_portable fuel result) rng.

(** ** The quorums of a block *)

Section Others.
Context (nettype : network_type) (hf_version : hf) (height : Z) (block_hash : bytes).
Context (active : list entry) (decomm : list bytes).

Definition obligations_quorum : outcome quorum :=
  let total_nodes := (length active + length decomm)%nat in
  let num_validators := Nat.min (length active) (Z.to_nat STATE_CHANGE_QUORUM_SIZE) in
  indexes ← generate_shuffled_service_node_index_list hf_version total_nodes block_hash obligations
              num_validators (length active);
  let num_remaining_nodes := (total_nodes - num_validators)%nat in
  let num_workers :=
    Nat.min num_remaining_nodes
      (Nat.max (Z.to_nat STATE_CHANGE_MIN_NODES_TO_TEST)
         (num_remaining_nodes / Z.to_nat STATE_CHANGE_NTH_OF_THE_NETWORK_TO_TEST)) in
  seat_quorum hf_version active decomm indexes num_validators num_workers.

(** [None] where the block defines no quorum of the type. *)
Definition checkpointing_quorum : outcome (option quorum) :=
  if negb (u64 (height + REORG_SAFETY_BUFFER_BLOCKS_POST_HF12) mod CHECKPOINT_INTERVAL =? 0)
  then mret None
  else
    let total_nodes :=
      if bool_decide (nettype = TESTNET) && (height <? 85357)
      then (length active + length decomm)%nat else length active in
    if (Z.to_nat CHECKPOINT_QUORUM_SIZE <=? total_nodes)%nat then
      indexes ← generate_shuffled_service_node_index_list hf_version total_nodes block_hash
                  checkpointing 0 0;
      let num_validators := Nat.min (length indexes) (Z.to_nat CHECKPOINT_QUORUM_SIZE) in
      q ← seat_quorum hf_version active decomm indexes num_validators 0;
      mret (Some q)
    else mret (Some (Quorum [] [])).

Definition blink_candidates : list nat :=
  let active_until := u64 (height + BLINK_EXPIRY_BUFFER) in
  (filter (fun p : nat * entry => requested_unlock_height p.2.2 = 0
                                 \/ active_until < requested_unlock_height p.2.2)
     (imap pair active)).*1.

Definition blink_quorum : outcome (option quorum) :=
  if negb (height mod BLINK_QUORUM_INTERVAL =? 0) then mret None
  else if (Z.to_nat BLINK_MIN_VOTES <=? length blink_candidates)%nat then
    indexes ← run (shuffle_portable fuel blink_candidates) (quorum_rng hf_version block_hash blink);
    let num_validators := Nat.min (length indexes) (Z.to_nat BLINK_SUBQUORUM_SIZE) in
    q ← seat_quorum hf_version active decomm indexes num_validators 0;
    mret (Some q)
  else mret (Some (Quorum [] [])).

(** The new quorums of the state; a type that the block does not define keeps its quorum. *)
Definition generate_other_quorums (qm : quorum_manager) : outcome quorum_manager :=
  let max_type := quorum_type_value (max_quorum_type_for_hf hf_version) in
  o ← obligations_quorum;
  c ← (if quorum_type_value checkpointing <=? max_type then checkpointing_quorum else mret None);
  b ← (if quorum_type_value blink <=? max_type then blink_quorum else mret None);
  mret (QuorumManager (Some o)
          (match c with Some q => Some q | None => qm_checkpointing qm end)
          (match b with Some q => Some q | None => qm_blink qm end) (qm_pulse qm)).

End Others.

(** ** The pulse quorum *)

(** The loop that moves a validator of round [i] to the front. *)
Fixpoint pick_pulse (hf_version : hf) (pulse_entropy : list bytes) (partition_index : Z)
    (rounds i : nat) (candidates : list entry) : outcome (list entry) :=
  match rounds with
  | O => mret candidates
  | S rounds =>
      let available := (length candidates - i)%nat in
      match pulse_entropy !! S i with
      | None => Thrown
      | Some entropy =>
          if (available =? 0)%nat then Thrown
          else
            swap_index ← run (uniform_distribution_portable fuel
                                (Z.min partition_index (Z.of_nat available)))
                           (quorum_rng hf_version entropy pulse);
            pick_pulse hf_version pulse_entropy partition_index rounds (S i)
              (swap i (i + Z.to_nat swap_index) candidates)
      end
  end.

Definition generate_pulse_quorum_with_candidates (nettype : network_type) (block_leader : bytes)
    (hf_version : hf) (active_snode_list_size : nat) (pulse_candidates : list entry)
    (pulse_entropy : list bytes) (pulse_round : Z) : outcome quorum :=
  netconf ← of_option (get_config nettype);
  if Z.of_nat active_snode_list_size <? PULSE_MIN_SERVICE_NODES netconf then mret (Quorum [] [])
  else if negb (Z.of_nat (length pulse_entropy) =? PULSE_QUORUM_SIZE) then mret (Quorum [] [])
  else if (hf22_sn_policy <=? hf_version)
          && (Z.of_nat (length pulse_candidates) <? PULSE_MIN_UNIQUE_OPERATORS)
  then mret (Quorum [] [])
  else
    '(block_producer, pulse_candidates) ←
      (if pulse_round =? 0 then mret (block_leader, pulse_candidates)
       else
         entropy ← of_option (pulse_entropy !! 0%nat);
         if (length pulse_candidates =? 0)%nat then Thrown
         else
           producer_index ← run (uniform_distribution_portable fuel (Z.of_nat (length pulse_candidates)))
                              (quorum_rng hf_version entropy pulse);
           e ← of_option (pulse_candidates !! Z.to_nat producer_index);
           mret (e.1, delete (Z.to_nat producer_index) pulse_candidates));
    let num_validators := Z.to_nat PULSE_QUORUM_NUM_VALIDATORS in
    let partition_index := u64 (Z.of_nat (length pulse_candidates) - 1) / 2 in
    pulse_candidates ←
      (if partition_index =? 0 then mret pulse_candidates
       else pick_pulse hf_version pulse_entropy partition_index num_validators 0 pulse_candidates);
    if (length pulse_candidates <? num_validators)%nat then Thrown
    else mret (Quorum ((take num_validators pulse_candidates).*1) [block_producer]).

Definition generate_pulse_quorum (nettype : network_type) (block_leader : bytes) (hf_version : hf)
    (active_snode_list : list entry) (pulse_entropy : list bytes) (pulse_round : Z) : outcome quorum :=
  let candidates := filter (fun e => e.1 <> block_leader \/ 0 < pulse_round) active_snode_list in
  let candidates := sort_by pulse_candidates_sorter candidates in
  let candidates := if hf22_sn_policy <=? hf_version then dedup [] candidates else candidates in
  generate_pulse_quorum_with_candidates nettype block_leader hf_version (length active_snode_list)
    candidates pulse_entropy pulse_round.

End Generate.

(** ** Keys by index *)

Definition all_keys (active : list entry) (decomm : list bytes) : list bytes := active.*1 ++ decomm.

Lemma worker_key_lookup active decomm j : worker_key active decomm j = all_keys active decomm !! j.
Proof.
  unfold worker_key, all_keys. destruct (active !! j) as [e|] eqn:E.
  - rewrite lookup_app_l by (rewrite length_fmap; by eapply lookup_lt_Some). by rewrite list_lookup_fmap, E.
  - rewrite lookup_app_r by (rewrite length_fmap; by apply lookup_ge_None). by rewrite length_fmap.
Qed.

(** Looking up distinct indices in a list of distinct keys. *)
Lemma lookups_spec {A} (K : list A) js ks :
  mapM (K !!.) js = Some ks -> NoDup K -> NoDup js -> NoDup ks /\ ks ⊆ K /\ length ks = length js.
Proof.
  intros E%mapM_Some HK Hjs. split_and!; [|intros x Hx|by symmetry; eapply Forall2_length].
  - apply NoDup_alt. intros i1 i2 x H1 H2.
    destruct (Forall2_lookup_r _ _ _ _ _ E H1) as (j1 & Hj1 & K1).
    destruct (Forall2_lookup_r _ _ _ _ _ E H2) as (j2 & Hj2 & K2).
    pose proof (NoDup_lookup _ _ _ _ HK K1 K2) as ->. by eapply (NoDup_lookup js).
  - apply list_elem_of_lookup_1 in Hx as [i Hi].
    destruct (Forall2_lookup_r _ _ _ _ _ E Hi) as (j & _ & Hj). by eapply list_elem_of_lookup_2.
Qed.

Lemma lookups_total {A} (K : list A) js :
  Forall (fun j => (j < length K)%nat) js -> exists ks, mapM (K !!.) js = Some ks.
Proof.
  intros Hall. apply mapM_is_Some. eapply Forall_impl; [exact Hall|]. intros j Hj. by apply lookup_lt_is_Some_2.
Qed.

(** ** One seat per operator *)

Lemma dedup_sublist seen l : dedup seen l `sublist_of` l.
Proof.
  revert seen. induction l as [|e l IH]; intros seen; cbn [dedup]; [done|].
  destruct (bool_decide _); [by apply sublist_cons | by apply sublist_skip].
Qed.

Lemma dedup_operators seen l :
  NoDup (operator_of <$> dedup seen l) /\
  (forall a, a ∈ operator_of <$> dedup seen l <-> a ∈ operator_of <$> l /\ a ∉ seen).
Proof.
  revert seen. induction l as [|e l IH]; intros seen; cbn [dedup].
  { split; [constructor|]. cbn. set_solver. }
  destruct (bool_decide_reflect (operator_of e ∈ seen)) as [Hin|Hn].
  - destruct (IH seen) as [Hnd Hin']. split; [done|]. intros a. rewrite Hin', fmap_cons, elem_of_cons.
    split; [tauto|]. intros [[->|Ha] Hs]; done.
  - destruct (IH (operator_of e :: seen)) as [Hnd Hin']. rewrite !fmap_cons. split.
    + constructor; [|done]. rewrite Hin'. set_solver.
    + intros a. rewrite !elem_of_cons, Hin', not_elem_of_cons. destruct (decide (a = operator_of e)); naive_solver.
Qed.

Definition operators (l : list entry) : nat := length (remove_dups (operator_of <$> l)).

Lemma same_elements_length {A} (l l' : list A) :
  NoDup l -> NoDup l' -> (forall x, x ∈ l <-> x ∈ l') -> length l = length l'.
Proof. intros H1 H2 Hx. apply Permutation_length. by apply NoDup_Permutation. Qed.

Lemma length_dedup l l' : l' ≡ₚ l -> length (dedup [] l') = operators l.
Proof.
  intros Hp. destruct (dedup_operators [] l') as [Hnd Hin]. unfold operators.
  rewrite <- (length_fmap operator_of). apply same_elements_length; [done|apply NoDup_remove_dups|].
  intros a. rewrite Hin, elem_of_remove_dups, Hp. set_solver.
Qed.

Definition chosen (indexes : list nat) (used : list bool) : list nat :=
  (filter (fun p => p.2 = true) (zip indexes used)).*1.

Lemma chosen_cons j indexes b used :
  chosen (j :: indexes) (b :: used) = if b : bool then j :: chosen indexes used else chosen indexes used.
Proof. unfold chosen. cbn [zip zip_with]. destruct b; [by rewrite filter_cons_True | by rewrite filter_cons_False]. Qed.

Lemma chosen_none indexes n : chosen indexes (replicate n false) = [].
Proof.
  revert n. induction indexes as [|j indexes IH]; intros [|n]; [done..|].
  cbn [replicate]. by rewrite chosen_cons.
Qed.

Lemma pick_validators_spec active need seen indexes :
  let '(vs, used) := pick_validators active need seen indexes in
  length used = length indexes /\
  mapM (fun j => fst <$> active !! j) (chosen indexes used) = Some vs /\
  vs = (take need (dedup seen (omap (active !!.) indexes))).*1.
Proof.
  revert need seen. induction indexes as [|j indexes IH]; intros need seen; [by destruct need|].
  destruct need as [|need].
  { cbn [pick_validators]. rewrite length_replicate, chosen_none. done. }
  cbn [pick_validators omap list_omap]. destruct (active !! j) as [e|] eqn:Ej.
  - cbn [dedup]. destruct (bool_decide (operator_of e ∈ seen)).
    + specialize (IH (S need) seen). destruct (pick_validators _ _ _ _) as [vs used].
      destruct IH as (Hl & Hm & ->). rewrite chosen_cons. cbn. split; [by rewrite Hl | done].
    + specialize (IH need (operator_of e :: seen)). destruct (pick_validators _ _ _ _) as [vs used].
      destruct IH as (Hl & Hm & ->). rewrite chosen_cons. cbn. split; [by rewrite Hl|]. rewrite Ej. cbn.
      by rewrite Hm.
  - specialize (IH (S need) seen). destruct (pick_validators _ _ _ _) as [vs used].
    destruct IH as (Hl & Hm & ->). rewrite chosen_cons. cbn. split; [by rewrite Hl | done].
Qed.

(** The promoted indices and the spare ones are different positions. *)
Lemma chosen_spare_NoDup num indexes used :
  NoDup indexes -> length used = length indexes -> NoDup (chosen indexes used ++ spare_indexes num indexes used).
Proof.
  intros Hnd Hlen. unfold chosen, spare_indexes.
  assert (Hz : (zip indexes used).*1 = indexes) by (apply fst_zip; lia).
  assert (Hd : zip (drop num indexes) (drop num used) = drop num (zip indexes used)).
  { revert indexes used Hlen Hnd Hz. clear. induction num as [|num IH]; intros [|j indexes] [|b used] Hlen Hnd Hz; try done.
    cbn. apply IH; cbn in *; [lia | by inversion Hnd | by injection Hz]. }
  rewrite Hd. rewrite <- Hz in Hnd. revert Hnd. generalize (zip indexes used). clear. intros z Hnd.
  assert (Hsub : forall P `{!forall x, Decision (P x)} (z' : list (nat * bool)),
    z' `sublist_of` z -> (filter P z').*1 `sublist_of` z.*1).
  { intros P ? z' Hz'. apply fmap_sublist. etrans; [apply sublist_filter | done]. }
  apply NoDup_app. split_and!.
  - eapply sublist_NoDup; [exact Hnd | by apply Hsub].
  - intros x H1 H2. apply list_elem_of_fmap_1 in H1 as ([x1 b1] & -> & [Hb1 H1]%list_elem_of_filter).
    apply list_elem_of_fmap_1 in H2 as ([x2 b2] & Hx & [Hb2 H2]%list_elem_of_filter). cbn in *. subst.
    pose proof (elem_of_sublist _ _ _ H2 (sublist_drop z num)) as H3. clear H2. rename H3 into H2.
    apply list_elem_of_lookup_1 in H1 as [i1 H1], H2 as [i2 H2].
    assert (i1 = i2) as ->; [|by rewrite H1 in H2].
    apply (NoDup_lookup (z.*1) i1 i2 x2 Hnd); by rewrite list_lookup_fmap, ?H1, ?H2.
  - eapply sublist_NoDup; [exact Hnd | apply Hsub, sublist_drop].
Qed.

Lemma sublist_subseteq {A} (l l' : list A) : l `sublist_of` l' -> l ⊆ l'.
Proof. intros Hs x Hx. by eapply elem_of_sublist. Qed.

(** Positions in a list and in its marks. *)
Lemma elem_of_marked {A} (l : list A) (marks : list bool) b x :
  x ∈ (filter (fun p => p.2 = b) (zip l marks)).*1 <-> (exists i, l !! i = Some x /\ marks !! i = Some b).
Proof.
  rewrite list_elem_of_fmap. split.
  - intros ([y c] & -> & [Hb [i Hi]%list_elem_of_lookup_1]%list_elem_of_filter). cbn in Hb. subst c. exists i.
    by apply lookup_zip_Some in Hi.
  - intros (i & Hi & Hb). exists (x, b). split; [done|]. apply list_elem_of_filter. split; [done|].
    apply (list_elem_of_lookup_2 _ i). by apply lookup_zip_Some.
Qed.

(** The spare indices are those after the first [num] that no validator has. *)
Lemma elem_of_spare num indexes used j :
  NoDup indexes -> length used = length indexes ->
  j ∈ spare_indexes num indexes used <-> j ∈ indexes /\ j ∉ take num indexes /\ j ∉ chosen indexes used.
Proof.
  intros Hnd Hl. unfold spare_indexes, chosen. rewrite !elem_of_marked. setoid_rewrite lookup_drop. split.
  - intros (i & Hi & Hu). split_and!; [by eapply list_elem_of_lookup_2| |].
    + intros [k Hk]%list_elem_of_lookup_1. apply lookup_take_Some in Hk as [Hk Hlt]. pose proof (NoDup_lookup _ _ _ _ Hnd Hi Hk). lia.
    + intros (k & Hk & Hc). pose proof (NoDup_lookup _ _ _ _ Hnd Hi Hk) as <-. congruence.
  - intros ([i Hi]%list_elem_of_lookup_1 & Ht & Hc). destruct (lookup_lt_is_Some_2 used i) as [b Hb]; [rewrite Hl; by eapply lookup_lt_Some|].
    assert (num <= i)%nat.
    { destruct (Nat.le_gt_cases num i) as [|Hlt]; [done|]. exfalso. apply Ht. apply (list_elem_of_lookup_2 _ i). by apply lookup_take_Some. }
    exists (i - num)%nat. replace (num + (i - num))%nat with i by lia. split; [done|]. destruct b; [|done]. exfalso. apply Hc. eauto.
Qed.

Lemma chosen_subset indexes used : chosen indexes used ⊆ indexes.
Proof. intros j. unfold chosen. rewrite elem_of_marked. intros (i & Hi & _). by eapply list_elem_of_lookup_2. Qed.

Lemma spare_count num indexes used :
  NoDup indexes -> length used = length indexes ->
  (length (spare_indexes num indexes used) + length (remove_dups (take num indexes ++ chosen indexes used)) = length indexes)%nat.
Proof.
  intros Hnd Hl. pose proof (chosen_spare_NoDup num indexes used Hnd Hl) as Hjs.
  rewrite <- length_app. apply Permutation_length, NoDup_Permutation; [|done|].
  - apply NoDup_app. split_and!; [by apply NoDup_app in Hjs as (_ & _ & ?)| |apply NoDup_remove_dups].
    intros j Hj. rewrite elem_of_remove_dups, elem_of_app. apply elem_of_spare in Hj as (_ & ? & ?); [tauto|done|done].
  - intros j. rewrite elem_of_app, elem_of_remove_dups, elem_of_app, elem_of_spare by done.
    pose proof (chosen_subset indexes used j). pose proof (sublist_subseteq _ _ (sublist_take indexes num) j).
    destruct (decide (j ∈ take num indexes)), (decide (j ∈ chosen indexes used)); tauto.
Qed.

Lemma elem_of_lookups {A} (K : list A) js ks k : mapM (K !!.) js = Some ks -> k ∈ ks <-> exists j, j ∈ js /\ K !! j = Some k.
Proof.
  intros E%mapM_Some. split.
  - intros [i Hi]%list_elem_of_lookup_1. destruct (Forall2_lookup_r _ _ _ _ _ E Hi) as (j & Hj & Hk). exists j.
    split; [by eapply list_elem_of_lookup_2|done].
  - intros (j & [i Hi]%list_elem_of_lookup_1 & Hk). destruct (Forall2_lookup_l _ _ _ _ _ E Hi) as (k' & Hk' & E').
    cbn in E'. assert (k' = k) as -> by congruence. by eapply list_elem_of_lookup_2.
Qed.

(** ** Seating a quorum *)

(** Where the code seats [num] validators, how many it finds. *)
Definition seats (hf_version : hf) (l : list entry) (num : nat) : nat :=
  if hf22_sn_policy <=? hf_version then Nat.min num (operators l) else num.

(** Distinct keys, validators that are entries of [pool] with distinct operators from hard
    fork 22 on, and tested nodes among all the keys. *)
Definition well_seated (hf_version : hf) (pool : list entry) (keys : list bytes) (q : quorum) : Prop :=
  NoDup (validators q ++ workers q) /\ workers q ⊆ keys /\
  exists es, validators q = es.*1 /\ es ⊆ pool /\
    (hf22_sn_policy <= hf_version -> NoDup (operator_of <$> es)).

(** How many nodes are tested: [num_workers], if that many of the [n] nodes drawn are neither among the first [num], the seats before
    duplicate operators are passed over, nor validators. *)
Definition tested_exactly (active : list entry) (n num num_workers : nat) (q : quorum) : Prop :=
  exists drawn, NoDup drawn /\ drawn ⊆ active.*1 /\ length drawn = num /\ (forall k, k ∈ workers q -> k ∉ drawn) /\
    length (workers q) = Nat.min num_workers (n - length (remove_dups (drawn ++ validators q))).

Lemma tested_bounds active n num num_workers q :
  tested_exactly active n num num_workers q -> (length (validators q) <= num)%nat -> 
  (Nat.min num_workers (n - 2 * num) <= length (workers q) <= num_workers)%nat.
Proof.
  intros (drawn & _ & _ & Hd & _ & ->) Hv.
  assert (length (remove_dups (drawn ++ validators q)) <= num + num)%nat; [|lia].
  etrans; [apply submseteq_length|rewrite length_app; apply Nat.add_le_mono; [by rewrite Hd|exact Hv]].
  apply NoDup_submseteq; [apply NoDup_remove_dups|]. intros x. by rewrite elem_of_remove_dups.
Qed.

Lemma lookup_entries active js es :
  mapM (active !!.) js = Some es -> mapM (fun j => fst <$> (active : list entry) !! j) js = Some es.*1.
Proof.
  revert es. induction js as [|j js IH]; intros es; cbn; [by intros [= <-]|].
  destruct (active !! j) as [e|]; cbn; [|done]. destruct (mapM (active !!.) js) as [es'|] eqn:E; cbn; [|done].
  intros [= <-]. by rewrite (IH es').
Qed.

Lemma keys_lookup active decomm js ks :
  mapM (fun j => fst <$> (active : list entry) !! j) js = Some ks ->
  mapM (all_keys active decomm !!.) js = Some ks.
Proof.
  rewrite !mapM_Some. intros E. eapply Forall2_impl; [exact E|]. intros j k Hj. cbn in Hj.
  rewrite <- worker_key_lookup. unfold worker_key. by destruct (active !! j).
Qed.

Lemma worker_lookup active decomm js : mapM (worker_key active decomm) js = mapM (all_keys active decomm !!.) js.
Proof. apply mapM_ext. intros j. apply worker_key_lookup. Qed.

Lemma lookups_app {A} (K : list A) js js' ks ks' :
  mapM (K !!.) js = Some ks -> mapM (K !!.) js' = Some ks' -> mapM (K !!.) (js ++ js') = Some (ks ++ ks').
Proof. rewrite !mapM_Some. apply Forall2_app. Qed.

Lemma entries_lookup active js ks :
  mapM (fun j => fst <$> (active : list entry) !! j) js = Some ks ->
  exists es, ks = es.*1 /\ es = omap (active !!.) js.
Proof.
  intros E. exists (omap (active !!.) js). split; [|done]. revert ks E.
  induction js as [|j js IH]; intros ks; cbn; [by intros [= <-]|].
  destruct (active !! j) as [e|]; cbn; [|done].
  destruct (mapM (fun j => fst <$> active !! j) js) as [ks'|]; cbn; [|done].
  intros [= <-]. cbn. by rewrite (IH ks').
Qed.

Section Seats.
Context (hf_version : hf) (active pool : list entry) (decomm : list bytes) (indexes : list nat).
Context (HK : NoDup (all_keys active decomm)) (Hnd : NoDup indexes).
Context (Hrange : Forall (fun j => (j < length (all_keys active decomm))%nat) indexes).
(** The indexed entries, in any order. *)
Context (Hpool : omap (active !!.) indexes ≡ₚ pool).

Lemma subset_total js : js ⊆ indexes -> exists ks, mapM (all_keys active decomm !!.) js = Some ks.
Proof using Hrange.
  intros Hsub. apply lookups_total. rewrite Forall_forall in *. intros j Hj. by apply Hrange, Hsub.
Qed.

Lemma omap_subset js : js ⊆ indexes -> omap (active !!.) js ⊆ pool.
Proof using Hpool.
  intros Hsub e (j & Hj & E)%list_elem_of_omap. rewrite <- Hpool. apply list_elem_of_omap. eauto.
Qed.

(** Before hard fork 22 the first indices are the validators. *)
Lemma seat_first num_validators num_workers :
  hf_version < hf22_sn_policy \/ num_validators = 0%nat ->
  Forall (fun j => (j < length active)%nat) (take num_validators indexes) ->
  (num_validators + num_workers <= length indexes)%nat ->
  ends (seat_quorum hf_version active decomm indexes num_validators num_workers)
    (fun q => well_seated hf_version pool (all_keys active decomm) q /\
       length (validators q) = num_validators /\ length (workers q) = num_workers /\
       tested_exactly active (length indexes) num_validators num_workers q) False.
Proof using HK Hnd Hrange Hpool.
  intros Hold Hact Hlen. unfold seat_quorum.
  replace ((hf22_sn_policy <=? hf_version) && negb (num_validators =? 0)%nat) with false.
  2: { symmetry. destruct Hold as [?| ->]; [|apply andb_false_r]. apply andb_false_iff. left. by apply Z.leb_gt. }
  destruct (Nat.ltb_spec (length indexes) (num_validators + num_workers)) as [|_]; [lia|].
  set (js := take num_validators indexes) in *. set (js' := take num_workers (drop num_validators indexes)).
  destruct (lookups_total active js Hact) as [es Hes].
  rewrite (lookup_entries active js es Hes). cbn [of_option mbind outcome_bind]. rewrite worker_lookup.
  assert (Hsub' : js' ⊆ indexes).
  { intros j Hj. apply (sublist_subseteq _ _ (sublist_drop indexes num_validators)).
    by apply (sublist_subseteq _ _ (sublist_take _ num_workers)). }
  destruct (subset_total js' Hsub') as [ws Hws]. rewrite Hws. cbn.
  pose proof (keys_lookup active decomm js _ (lookup_entries active js es Hes)) as Hvs.
  pose proof (lookups_app _ _ _ _ _ Hvs Hws) as Happ.
  assert (Hjs : NoDup (js ++ js')).
  { eapply sublist_NoDup; [exact Hnd|]. unfold js, js'. rewrite <- (take_drop num_validators indexes) at 3.
    apply sublist_app; [done | apply sublist_take]. }
  destruct (lookups_spec _ _ _ Happ HK Hjs) as (HNd & _ & _).
  destruct (lookups_spec _ _ _ Hws HK (proj2 (proj2 (proj1 (NoDup_app _ _) Hjs)))) as (_ & Hsubk & Hlw).
  assert (Hlv : length es.*1 = num_validators).
  { rewrite length_fmap. apply length_mapM in Hes. rewrite <- Hes. unfold js. rewrite length_take. lia. }
  assert (Hlw' : length ws = num_workers) by (rewrite Hlw; unfold js'; rewrite length_take, length_drop; lia).
  split; [split_and!; [done..|]|split_and!; [done|done|]].
  - exists es. split; [done|]. split.
    + destruct (entries_lookup active js _ (lookup_entries active js es Hes)) as (es' & Ees & ->).
      intros e He. apply (omap_subset js); [apply sublist_subseteq, sublist_take|].
      apply mapM_Some in Hes. apply list_elem_of_lookup_1 in He as [i Hi].
      destruct (Forall2_lookup_r _ _ _ _ _ Hes Hi) as (j & Hj & Hej). apply list_elem_of_omap.
      exists j. split; [by eapply list_elem_of_lookup_2 | done].
    + intros Hhf. destruct Hold as [?|Hz]; [lia|]. unfold js in Hes. rewrite Hz in Hes.
      injection Hes as <-. constructor.
  - apply NoDup_app in HNd as (HNd1 & Hdis & _). exists es.*1. cbn. split_and!; [done| |done| |].
    + intros k (e & -> & He)%list_elem_of_fmap. apply list_elem_of_fmap_2. apply mapM_Some in Hes.
      apply list_elem_of_lookup_1 in He as [i Hi]. destruct (Forall2_lookup_r _ _ _ _ _ Hes Hi) as (j & _ & Hej).
      by eapply list_elem_of_lookup_2.
    + intros k Hk Hv. by apply (Hdis k).
    + assert (length (remove_dups (es.*1 ++ es.*1)) = num_validators) as ->; [|lia].
      rewrite <- Hlv. apply same_elements_length; [apply NoDup_remove_dups|done|]. intros x. rewrite elem_of_remove_dups, elem_of_app. tauto.
Qed.

(** From hard fork 22 on each operator has one seat. *)
Lemma seat_operators num_validators num_workers :
  hf22_sn_policy <= hf_version -> (0 < num_validators)%nat ->
  Forall (fun j => (j < length active)%nat) (take num_validators indexes) -> (num_validators <= length indexes)%nat ->
  ends (seat_quorum hf_version active decomm indexes num_validators num_workers)
    (fun q => well_seated hf_version pool (all_keys active decomm) q /\
       length (validators q) = Nat.min num_validators (operators pool) /\
       tested_exactly active (length indexes) num_validators num_workers q) False.
Proof using HK Hnd Hrange Hpool.
  intros Hhf Hnv Hact Hle. unfold seat_quorum. rewrite (proj2 (Z.leb_le _ _) Hhf).
  destruct (Nat.eqb_spec num_validators 0) as [|_]; [lia|]. cbn [andb negb].
  pose proof (pick_validators_spec active num_validators [] indexes) as Hpick.
  destruct (pick_validators active num_validators [] indexes) as [vs used].
  destruct Hpick as (Hused & Hvs & Evs). rewrite worker_lookup.
  pose proof (chosen_spare_NoDup num_validators indexes used Hnd Hused) as Hjs.
  set (spare := spare_indexes num_validators indexes used) in *.
  assert (Hspare : spare ⊆ indexes).
  { intros j (p & -> & [_ Hp]%list_elem_of_filter)%list_elem_of_fmap_1. destruct p as [j b].
    apply elem_of_zip_l in Hp. by apply (sublist_subseteq _ _ (sublist_drop indexes num_validators)). }
  set (js' := take num_workers spare). assert (Hsub' : js' ⊆ indexes).
  { intros j Hj. apply Hspare. by apply (sublist_subseteq _ _ (sublist_take _ num_workers)). }
  destruct (subset_total js' Hsub') as [ws Hws]. rewrite Hws. cbn [of_option mbind outcome_bind].
  pose proof (keys_lookup active decomm _ _ Hvs) as Hvk. pose proof (lookups_app _ _ _ _ _ Hvk Hws) as Happ.
  assert (Hjs' : NoDup (chosen indexes used ++ js')).
  { eapply sublist_NoDup; [exact Hjs|]. apply sublist_app; [done | apply sublist_take]. }
  destruct (lookups_spec _ _ _ Happ HK Hjs') as (HNd & _ & _).
  destruct (lookups_spec _ _ _ Hws HK (proj2 (proj2 (proj1 (NoDup_app _ _) Hjs')))) as (_ & Hsubk & Hlw).
  pose proof (length_dedup _ _ Hpool) as Hld.
  set (d := dedup [] (omap (active !!.) indexes)) in *.
  apply ends_ret. split; [split_and!; [done..|]|split].
  - exists (take num_validators d). split; [done|]. split.
    + intros e He. apply (omap_subset indexes); [done|].
      apply (sublist_subseteq _ _ (sublist_take _ _)) in He. by apply (sublist_subseteq _ _ (dedup_sublist [] _)) in He.
    + intros _. eapply sublist_NoDup; [apply (proj1 (dedup_operators [] (omap (active !!.) indexes)))|].
      apply fmap_sublist, sublist_take.
  - cbn [validators]. rewrite Evs, length_fmap, length_take, Hld. done.
  - destruct (lookups_total active _ Hact) as [es Hes]. pose proof (keys_lookup active decomm _ _ (lookup_entries _ _ _ Hes)) as Hdk.
    assert (Hndt : NoDup (take num_validators indexes)) by (eapply sublist_NoDup; [exact Hnd|apply sublist_take]).
    destruct (lookups_spec _ _ _ Hdk HK Hndt) as (Hndd & _ & Hld'). exists es.*1. cbn [workers validators].
    assert (Hinj : forall j j' k, all_keys active decomm !! j = Some k -> all_keys active decomm !! j' = Some k -> j = j')
      by (intros j j' k; by apply NoDup_lookup).
    split_and!; [done| |rewrite Hld', length_take; lia| |].
    + intros k (e & -> & [i Hi]%list_elem_of_lookup_1)%list_elem_of_fmap. apply list_elem_of_fmap_2. apply mapM_Some in Hes.
      destruct (Forall2_lookup_r _ _ _ _ _ Hes Hi) as (j & _ & Hej). by eapply list_elem_of_lookup_2.
    + intros k Hk Hd. apply (elem_of_lookups _ _ _ _ Hws) in Hk as (j & Hj & Ej). apply (elem_of_lookups _ _ _ _ Hdk) in Hd as (j' & Hj' & Ej').
      rewrite (Hinj _ _ _ Ej' Ej) in Hj'. apply (sublist_subseteq _ _ (sublist_take _ num_workers)), elem_of_spare in Hj as (_ & Hn & _); done.
    + rewrite Hlw. unfold js'. rewrite length_take. f_equal.
      pose proof (spare_count num_validators indexes used Hnd Hused) as Hall. fold spare in Hall.
      destruct (subset_total (remove_dups (take num_validators indexes ++ chosen indexes used))) as [us Hus].
      { intros j. rewrite elem_of_remove_dups, elem_of_app. 
        intros [?|?]; [by apply (sublist_subseteq _ _ (sublist_take indexes num_validators))|by eapply chosen_subset]. }
      destruct (lookups_spec _ _ _ Hus HK (NoDup_remove_dups _)) as (Hndu & _ & Hlu).
      assert (length (remove_dups (es.*1 ++ vs)) = length us) as ->; [|lia].
      apply same_elements_length; [apply NoDup_remove_dups|done|]. intros k. rewrite elem_of_remove_dups, elem_of_app.
      rewrite (elem_of_lookups _ _ _ _ Hus), (elem_of_lookups _ _ _ _ Hdk), (elem_of_lookups _ _ _ _ Hvk). setoid_rewrite elem_of_remove_dups. setoid_rewrite elem_of_app. naive_solver.
Qed.

End Seats.

Lemma seat_spec hf_version active pool decomm indexes num_validators num_workers :
  NoDup (all_keys active decomm) -> NoDup indexes ->
  Forall (fun j => (j < length (all_keys active decomm))%nat) indexes ->
  omap (active !!.) indexes ≡ₚ pool ->
  Forall (fun j => (j < length active)%nat) (take num_validators indexes) ->
  (num_validators + num_workers <= length indexes)%nat ->
  ends (seat_quorum hf_version active decomm indexes num_validators num_workers)
    (fun q => well_seated hf_version pool (all_keys active decomm) q /\
       length (validators q) = seats hf_version pool num_validators /\
       (length (workers q) <= num_workers)%nat /\
       (hf_version < hf22_sn_policy -> length (workers q) = num_workers) /\
       tested_exactly active (length indexes) num_validators num_workers q) False.
Proof.
  intros HK Hnd Hr Hpool Hact Hlen. unfold seats.
  destruct (Z.leb_spec hf22_sn_policy hf_version) as [Hhf|Hhf]; [destruct (decide (num_validators = 0%nat)) as [Hz|Hz]|].
  - eapply ends_mono; [apply (seat_first hf_version active pool decomm indexes HK Hnd Hr Hpool); auto| |done].
    cbv beta. intros q (Hw & Hv & Hwk & Ht). rewrite Hz in *. split_and!; [done|lia|lia|lia|done].
  - eapply ends_mono; [apply (seat_operators hf_version active pool decomm indexes HK Hnd Hr Hpool); [done|lia|done|lia]| |done].
    cbv beta. intros q (Hw & Hv & Ht). split_and!; [done|done| |lia|done]. eapply tested_bounds; [exact Ht|lia].
  - eapply ends_mono; [apply (seat_first hf_version active pool decomm indexes HK Hnd Hr Hpool); auto| |done].
    cbv beta. intros q (Hw & Hv & Hwk & Ht). split_and!; [done|lia|lia|lia|done].
Qed.

Lemma omap_fmap {A B C} (f : B -> option C) (g : A -> B) (l : list A) : omap f (g <$> l) = omap (f ∘ g) l.
Proof. induction l as [|x l IH]; [done|]. cbn. by rewrite IH. Qed.

Lemma omap_none {A B} (f : A -> option B) (l : list A) : Forall (fun x => f x = None) l -> omap f l = [].
Proof. induction 1 as [|x l Hx _ IH]; [done|]. cbn. by rewrite Hx. Qed.

Lemma omap_seq {A} (l : list A) n : (length l <= n)%nat -> omap (l !!.) (seq 0 n) = l.
Proof.
  revert n. induction l as [|e l IH]; intros n Hn.
  { apply omap_none, Forall_true. intros j. apply lookup_nil. }
  destruct n as [|n]; [cbn in Hn; lia|]. cbn [seq]. rewrite <- (fmap_S_seq 0 n). cbn. f_equal.
  rewrite omap_fmap. apply (IH n). cbn in Hn. lia.
Qed.

Section Quorum.
Context {G : Type} `{EngineLaws G} (fuel : nat) (seed_number : Z -> G) (seed_sequence : list Z -> G).
Context (hf_version : hf).

(** One of the engines seeded for the quorums of the hard fork stalls. *)
Definition rng_stalls : Prop :=
  exists hash type, stalls fuel (quorum_rng seed_number seed_sequence hf_version hash type).

Abbreviation shuffled := (generate_shuffled_service_node_index_list fuel seed_number seed_sequence hf_version).

Lemma shuffle_run {A} (l : list A) hash type :
  Z.of_nat (length l) <= UINT64_MAX ->
  ends (run (shuffle_portable fuel l) (quorum_rng seed_number seed_sequence hf_version hash type))
    (fun l' => l' ≡ₚ l) rng_stalls.
Proof using H0.
  intros Hl. eapply ends_mono; [apply post_run; by apply shuffle_perm|done|]. intros Hs. by exists hash, type.
Qed.

Lemma in_seq_lt n j : j ∈ seq 0 n -> (j < n)%nat.
Proof. intros Hj%elem_of_seq. lia. Qed.

Lemma shuffled_spec n hash type sub up_to :
  Z.of_nat n <= UINT64_MAX -> (sub <= up_to <= n)%nat ->
  ends (shuffled n hash type sub up_to)
    (fun l => l ≡ₚ seq 0 n /\ Forall (fun j => (j < up_to)%nat) (take sub l)) rng_stalls.
Proof using H0.
  intros Hn Hsub. unfold generate_shuffled_service_node_index_list.
  destruct (_ && _ && _ && _) eqn:Hc.
  - rewrite !andb_true_iff, !Nat.ltb_lt in Hc. destruct Hc as [[[Hs1 Hs2] Hu1] Hu2].
    eapply ends_bind; [apply shuffle_run; rewrite length_take, length_seq; lia|]. cbv beta. intros front Hf.
    rewrite take_seq, Nat.min_l in Hf by lia.
    set (r := front ++ _). assert (Hr : r ≡ₚ seq 0 n).
    { unfold r. rewrite Hf. rewrite <- (take_drop up_to (seq 0 n)) at 2. by rewrite take_seq, Nat.min_l by lia. }
    assert (Hlr : length r = n) by (by rewrite Hr, length_seq).
    eapply ends_bind; [apply shuffle_run; rewrite length_drop, Hlr; lia|]. cbv beta. intros back Hb.
    apply ends_ret. split.
    + rewrite Hb. by rewrite take_drop.
    + rewrite take_app_le by (rewrite length_take; lia). rewrite take_take, Nat.min_id.
      unfold r. rewrite take_app_le by (rewrite Hf, length_seq; lia).
      rewrite Forall_forall. intros j Hj. apply in_seq_lt. rewrite <- Hf.
      by apply (sublist_subseteq _ _ (sublist_take _ sub)).
  - eapply ends_mono; [apply shuffle_run; rewrite length_seq; lia| |done]. intros l Hl. split; [done|].
    destruct (decide (sub = 0%nat)) as [->|Hz]; [constructor|].
    assert (Heq : up_to = n).
    { rewrite !andb_false_iff, !Nat.ltb_ge in Hc. lia. }
    subst. rewrite Forall_forall. intros j Hj. apply in_seq_lt. rewrite <- Hl.
    by apply (sublist_subseteq _ _ (sublist_take _ sub)).
Qed.

Context (block_hash : bytes) (active : list entry) (decomm : list bytes).
Context (HK : NoDup (all_keys active decomm)).
Context (Hlen : Z.of_nat (length (all_keys active decomm)) <= UINT64_MAX).

Lemma length_all_keys : length (all_keys active decomm) = (length active + length decomm)%nat.
Proof. unfold all_keys. by rewrite length_app, length_fmap. Qed.

(** The indices of all the nodes, or of the active ones. *)
Lemma indexes_spec n l :
  l ≡ₚ seq 0 n -> (length active <= n <= length active + length decomm)%nat ->
  NoDup l /\ Forall (fun j => (j < length (all_keys active decomm))%nat) l /\
  omap (active !!.) l ≡ₚ active /\ length l = n.
Proof.
  intros Hl Hn. split_and!.
  - rewrite Hl. apply NoDup_seq.
  - rewrite Forall_forall. intros j Hj. rewrite Hl in Hj. apply in_seq_lt in Hj. rewrite length_all_keys. lia.
  - rewrite Hl. rewrite omap_seq by lia. done.
  - by rewrite Hl, length_seq.
Qed.

(** The number of nodes to test. *)
Definition num_tested (remaining : nat) : nat :=
  Nat.min remaining (Nat.max 50 (remaining / 100)).

Lemma obligations_spec :
  ends (obligations_quorum fuel seed_number seed_sequence hf_version block_hash active decomm)
    (fun q =>
       let num := Nat.min (length active) 10 in
       let tested := num_tested (length active + length decomm - num) in
       well_seated hf_version active (all_keys active decomm) q /\
       length (validators q) = seats hf_version active num /\
       (length (workers q) <= tested)%nat /\
       (hf_version < hf22_sn_policy -> length (workers q) = tested) /\
       tested_exactly active (length active + length decomm) num tested q) rng_stalls.
Proof using HK Hlen H0.
  unfold obligations_quorum. change (Z.to_nat STATE_CHANGE_QUORUM_SIZE) with 10%nat.
  change (Z.to_nat STATE_CHANGE_MIN_NODES_TO_TEST) with 50%nat.
  change (Z.to_nat STATE_CHANGE_NTH_OF_THE_NETWORK_TO_TEST) with 100%nat. rewrite length_all_keys in Hlen.
  eapply ends_bind; [apply shuffled_spec; lia|]. cbv beta zeta. intros l [Hl Hact].
  destruct (indexes_spec _ _ Hl ltac:(lia)) as (Hnd & Hr & Hpool & Hln).
  eapply ends_mono; [apply (seat_spec hf_version active active decomm l); try done| |done].
  - rewrite Hln. lia.
  - cbv beta. rewrite Hln. intros q Hq. exact Hq.
Qed.

Context (nettype : network_type) (height : Z).

(** Quorums of [num] of the nodes of a pool, without tested nodes. *)
Definition voters_only (pool : list entry) (num : nat) (q : quorum) : Prop :=
  well_seated hf_version pool (all_keys active decomm) q /\ workers q = [] /\
  length (validators q) = seats hf_version pool num.

Lemma voters_of_spec pool num q :
  well_seated hf_version pool (all_keys active decomm) q /\
  length (validators q) = seats hf_version pool num /\ (length (workers q) <= 0)%nat -> voters_only pool num q.
Proof. intros (Hw & Hv & Hz). split_and!; try done. apply nil_length_inv. lia. Qed.

Lemma checkpointing_spec :
  nettype <> TESTNET \/ 85357 <= height ->
  ends (checkpointing_quorum fuel seed_number seed_sequence nettype hf_version height block_hash active decomm)
    (fun o =>
       match o with
       | None => u64 (height + 11) mod 4 <> 0
       | Some q =>
           u64 (height + 11) mod 4 = 0 /\
           (if (20 <=? length active)%nat then voters_only active 20 q else q = Quorum [] [])
       end) rng_stalls.
Proof using HK Hlen H0.
  intros Hnet. unfold checkpointing_quorum. rewrite length_all_keys in Hlen.
  change REORG_SAFETY_BUFFER_BLOCKS_POST_HF12 with 11. change CHECKPOINT_INTERVAL with 4.
  change (Z.to_nat CHECKPOINT_QUORUM_SIZE) with 20%nat.
  destruct (Z.eqb_spec (u64 (height + 11) mod 4) 0) as [Hh|Hh]; cbn [negb]; [|by apply ends_ret].
  replace (bool_decide (nettype = TESTNET) && (height <? 85357)) with false.
  2: { symmetry. apply andb_false_iff. destruct Hnet; [left; by apply bool_decide_eq_false_2 | right; by apply Z.ltb_ge]. }
  destruct (Nat.leb_spec 20 (length active)) as [Hn|Hn]; [|by apply ends_ret].
  eapply ends_bind; [apply (shuffled_spec _ _ _ 0 0); lia|]. cbv beta zeta. intros l [Hl _].
  destruct (indexes_spec _ _ Hl ltac:(lia)) as (Hnd & Hr & Hpool & Hln).
  rewrite Hln, Nat.min_r by lia.
  eapply ends_bind; [eapply ends_mono; [apply (seat_spec hf_version active active decomm l 20 0); try done| |done]|].
  - rewrite Forall_forall. intros j Hj. apply in_seq_lt. rewrite <- Hl.
    by apply (sublist_subseteq _ _ (sublist_take _ 20)).
  - lia.
  - cbv beta. intros q Hq. exact Hq.
  - cbv beta. intros q (Hw & Hv & Hz & _). apply ends_ret. split; [done|]. by apply voters_of_spec.
Qed.

Definition blink_pool : list entry := omap (active !!.) (blink_candidates height active).

Lemma blink_candidates_spec :
  NoDup (blink_candidates height active) /\
  Forall (fun j => (j < length active)%nat) (blink_candidates height active) /\
  (forall e, e ∈ blink_pool <-> e ∈ active /\
     (requested_unlock_height e.2 = 0 \/ u64 (height + BLINK_EXPIRY_BUFFER) < requested_unlock_height e.2)).
Proof.
  assert (Himap : (imap pair active).*1 = seq 0 (length active)).
  { clear. apply list_eq. intros i. rewrite list_lookup_fmap, list_lookup_imap.
    destruct (active !! i) as [e|] eqn:E; cbn.
    - symmetry. apply lookup_seq. split; [done|]. by eapply lookup_lt_Some.
    - symmetry. apply lookup_seq_ge. by apply lookup_ge_None in E. }
  assert (Hsub : blink_candidates height active `sublist_of` seq 0 (length active)).
  { rewrite <- Himap. apply fmap_sublist, sublist_filter. }
  split_and!.
  - eapply sublist_NoDup; [apply NoDup_seq | done].
  - rewrite Forall_forall. intros j Hj. apply in_seq_lt. by eapply elem_of_sublist.
  - intros e. unfold blink_pool. rewrite list_elem_of_omap. unfold blink_candidates. split.
    + intros (j & (p & -> & [HP Hp]%list_elem_of_filter)%list_elem_of_fmap_1 & He).
      apply elem_of_lookup_imap_1 in Hp as (i & x & -> & Hx). cbn in *. rewrite Hx in He. injection He as ->.
      split; [by eapply list_elem_of_lookup_2 | done].
    + intros [[j Hj]%list_elem_of_lookup_1 HP]. exists j. split; [|done].
      apply list_elem_of_fmap. exists (j, e). split; [done|]. apply list_elem_of_filter. split; [done|].
      apply elem_of_lookup_imap. eauto.
Qed.

Lemma blink_spec :
  ends (blink_quorum fuel seed_number seed_sequence hf_version height block_hash active decomm)
    (fun o =>
       match o with
       | None => height mod 5 <> 0
       | Some q =>
           height mod 5 = 0 /\
           (if (7 <=? length blink_pool)%nat then voters_only blink_pool (Nat.min (length blink_pool) 10) q
            else q = Quorum [] [])
       end) rng_stalls.
Proof using HK Hlen H0.
  unfold blink_quorum. rewrite length_all_keys in Hlen.
  change BLINK_QUORUM_INTERVAL with 5. change (Z.to_nat BLINK_MIN_VOTES) with 7%nat.
  change (Z.to_nat BLINK_SUBQUORUM_SIZE) with 10%nat.
  destruct (Z.eqb_spec (height mod 5) 0) as [Hh|Hh]; cbn [negb]; [|by apply ends_ret].
  destruct blink_candidates_spec as (Hnd & Hr & _).
  assert (Hlp : length blink_pool = length (blink_candidates height active)).
  { unfold blink_pool. clear - Hr. induction Hr as [|j l Hj Hr IH]; [done|]. cbn.
    destruct (lookup_lt_is_Some_2 _ _ Hj) as [e ->]. cbn. by rewrite IH. }
  assert (Hle : (length (blink_candidates height active) <= length active)%nat).
  { unfold blink_candidates. rewrite length_fmap. etrans; [apply length_filter|]. by rewrite length_imap. }
  rewrite Hlp. destruct (Nat.leb_spec 7 (length (blink_candidates height active))) as [Hn|Hn]; [|by apply ends_ret].
  eapply ends_bind; [apply shuffle_run; lia|]. cbv beta zeta. intros l Hl.
  pose proof (Permutation_length Hl) as Hll. rewrite Hll.
  assert (Hrl : Forall (fun j => (j < length active)%nat) l) by (by rewrite Hl).
  eapply ends_bind; [eapply ends_mono; [apply (seat_spec hf_version active blink_pool decomm l _ 0); try done| |done]|].
  - by rewrite Hl.
  - rewrite length_all_keys. eapply Forall_impl; [exact Hrl|]. cbn. lia.
  - unfold blink_pool. by rewrite Hl.
  - by apply Forall_take.
  - lia.
  - cbv beta. intros q Hq. exact Hq.
  - cbv beta. intros q (Hw & Hv & Hz & _). apply ends_ret. split; [done|]. by apply voters_of_spec.
Qed.

End Quorum.

(** ** The pulse quorum *)

Section Pulse.
Context {G : Type} `{EngineLaws G} (fuel : nat) (seed_number : Z -> G) (seed_sequence : list Z -> G).
Context (hf_version : hf).

Abbreviation stalled := (rng_stalls fuel seed_number seed_sequence hf_version).

Lemma uniform_run n hash type :
  1 <= n <= UINT64_MAX ->
  ends (run (uniform_distribution_portable fuel n) (quorum_rng seed_number seed_sequence hf_version hash type))
    (fun x => 0 <= x < n) stalled.
Proof using H0.
  intros Hn. eapply ends_mono; [apply post_run; by apply uniform_post|done|]. intros Hs. by exists hash, type.
Qed.

Lemma pick_pulse_spec entropy partition rounds i (c : list entry) :
  (i + rounds <= length c)%nat -> (i + rounds < length entropy)%nat -> 1 <= partition ->
  Z.of_nat (length c) <= UINT64_MAX ->
  ends (pick_pulse fuel seed_number seed_sequence hf_version entropy partition rounds i c)
    (fun c' => c' ≡ₚ c) stalled.
Proof using H0.
  revert i c. induction rounds as [|rounds IH]; intros i c Hc He Hp Hl; cbn [pick_pulse]; [by apply ends_ret|].
  destruct (lookup_lt_is_Some_2 entropy (S i)) as [h ->]; [lia|].
  destruct (Nat.eqb_spec (length c - i) 0) as [|_]; [lia|].
  assert (Hn : 1 <= Z.min partition (Z.of_nat (length c - i)) <= UINT64_MAX) by (clear IH; lia).
  eapply ends_bind; [by apply uniform_run|]. cbv beta. intros x _.
  eapply ends_mono; [apply IH; rewrite ?length_swap; lia| |done].
  cbv beta. intros c' ->. apply swap_perm.
Qed.

Context (nettype : network_type) (netconf : network_config) (leader : bytes).
Context (active : list entry) (entropy : list bytes) (round : Z).
Context (Hconf : get_config nettype = Some netconf) (Hnd : NoDup active.*1) (Hround : 0 <= round).
Context (Hlen : Z.of_nat (length active) <= UINT64_MAX).

Definition round_candidates : list entry := filter (fun e => e.1 <> leader \/ 0 < round) active.

(** Enough nodes, enough entropy and, from hard fork 22 on, enough operators. *)
Definition pulse_possible : Prop :=
  PULSE_MIN_SERVICE_NODES netconf <= Z.of_nat (length active) /\ length entropy = 12%nat /\
  (hf22_sn_policy <= hf_version -> (12 <= operators round_candidates)%nat).

Definition pulse_seated (q : quorum) : Prop :=
  exists producer es, workers q = [producer] /\ validators q = es.*1 /\ length es = 11%nat /\
    es ⊆ active /\ NoDup (producer :: es.*1) /\
    (round = 0 -> producer = leader) /\
    (round <> 0 -> exists e, e ∈ active /\ e.1 = producer /\
       (hf22_sn_policy <= hf_version -> operator_of e ∉ operator_of <$> es)) /\
    (hf22_sn_policy <= hf_version -> NoDup (operator_of <$> es)).

Lemma candidates_length : (length active <= S (length round_candidates))%nat /\
  (round <> 0 -> round_candidates = active).
Proof using Hnd Hround.
  split.
  - unfold round_candidates. clear - Hnd. induction active as [|e l IH]; [cbn; lia|].
    rewrite fmap_cons in Hnd. apply NoDup_cons in Hnd as [Hn Hnd']. specialize (IH Hnd').
    destruct (decide (e.1 <> leader \/ 0 < round)) as [Hd|Hd];
      [rewrite filter_cons_True by done; cbn [length]; lia | rewrite filter_cons_False by done]. apply le_n_S.
    apply Decidable.not_or in Hd as [Hd _]. assert (He : e.1 = leader) by (by apply dec_stable).
    rewrite filter_all; [done|]. rewrite Forall_forall. intros e' He'. left. intros Hl. apply Hn.
    rewrite He, <- Hl. by apply list_elem_of_fmap_2.
  - intros Hr. unfold round_candidates. clear - Hr Hround. induction active as [|e l IH]; [done|].
    rewrite filter_cons_True by (right; lia). by rewrite IH.
Qed.

Lemma get_config_pulse_min : 12 <= PULSE_MIN_SERVICE_NODES netconf.
Proof using Hconf. clear - Hconf. destruct nettype; cbn in Hconf; simplify_eq; cbn; lia. Qed.

(** Choosing producer and validators from enough distinct candidates. *)
Lemma with_candidates_spec (c : list entry) :
  c ⊆ active -> NoDup c.*1 -> (round = 0 -> leader ∉ c.*1) -> Z.of_nat (length c) <= UINT64_MAX ->
  (hf22_sn_policy <= hf_version -> NoDup (operator_of <$> c)) ->
  (hf22_sn_policy <= hf_version -> length c = operators round_candidates) ->
  (hf_version < hf22_sn_policy -> (length active <= S (length c))%nat /\ (round <> 0 -> length c = length active)) ->
  ends (generate_pulse_quorum_with_candidates fuel seed_number seed_sequence nettype leader hf_version
          (length active) c entropy round)
    (fun q => (pulse_possible -> pulse_seated q) /\ (~ pulse_possible -> q = Quorum [] [])) stalled.
Proof using Hconf H0 Hnd Hround Hlen.
  intros Hsub Hndc Hlead Hlc Hops Hcount Hold. unfold generate_pulse_quorum_with_candidates. rewrite Hconf.
  cbn [of_option mbind outcome_bind]. unfold pulse_possible. pose proof get_config_pulse_min as Hmin.
  destruct (Z.ltb_spec (Z.of_nat (length active)) (PULSE_MIN_SERVICE_NODES netconf)) as [Hf|Hn].
  { apply ends_ret. split; [lia | done]. }
  unfold PULSE_QUORUM_SIZE, PULSE_MIN_UNIQUE_OPERATORS, PULSE_QUORUM_NUM_VALIDATORS.
  destruct (Z.eqb_spec (Z.of_nat (length entropy)) (11 + 1)) as [He|He]; cbn [negb].
  2: { apply ends_ret. split; [lia | done]. }
  destruct ((hf22_sn_policy <=? hf_version) && (Z.of_nat (length c) <? PULSE_QUORUM_SIZE)) eqn:Hfew.
  { apply ends_ret. split; [|done]. intros (_ & _ & Hc). bool_hyps. specialize (Hc ltac:(done)).
    specialize (Hcount ltac:(done)). unfold PULSE_QUORUM_SIZE, PULSE_QUORUM_NUM_VALIDATORS in *. lia. }
  assert (Hc12 : (11 <= length c)%nat /\ (round <> 0 -> (12 <= length c)%nat)).
  { unfold PULSE_QUORUM_SIZE, PULSE_QUORUM_NUM_VALIDATORS in Hfew.
    apply andb_false_iff in Hfew as [Hf|Hf]; [|apply Z.ltb_ge in Hf; lia].
    apply Z.leb_gt in Hf. destruct (Hold Hf) as [Ho1 Ho2].
    split; [lia|]. intros Hr. specialize (Ho2 Hr). lia. }
  destruct Hc12 as [Hc11 Hc12].
  eapply (ends_bind _ _ (fun r : bytes * list entry =>
    (11 <= length r.2 <= length c)%nat /\ r.2 ⊆ c /\ NoDup (r.1 :: r.2.*1) /\
    (hf22_sn_policy <= hf_version -> NoDup (operator_of <$> r.2)) /\ (round = 0 -> r.1 = leader) /\
    (round <> 0 -> exists e, e ∈ active /\ e.1 = r.1 /\
       (hf22_sn_policy <= hf_version -> operator_of e ∉ operator_of <$> r.2)))).
  - destruct (Z.eqb_spec round 0) as [Hr|Hr].
    + apply ends_ret. cbn [fst snd]. split_and!; try done. constructor; auto.
    + destruct (lookup_lt_is_Some_2 entropy 0) as [h ->]; [lia|]. cbn [of_option mbind outcome_bind].
      destruct (Nat.eqb_spec (length c) 0) as [|_]; [lia|].
      eapply ends_bind; [apply uniform_run; lia|]. cbv beta. intros x Hx.
      destruct (lookup_lt_is_Some_2 c (Z.to_nat x)) as [e Hce]; [lia|]. rewrite Hce.
      cbn [of_option mbind outcome_bind]. apply ends_ret. cbn [fst snd].
      pose proof (delete_Permutation _ _ _ Hce) as Hp. specialize (Hc12 Hr).
      assert (Hld : length c = S (length (delete (Z.to_nat x) c))) by (by rewrite Hp at 1).
      assert (Hfm : NoDup ((e :: delete (Z.to_nat x) c).*1)) by (by rewrite <- Hp).
      assert (Hop : hf22_sn_policy <= hf_version -> NoDup (operator_of <$> (e :: delete (Z.to_nat x) c)))
        by (intros Hh; rewrite <- Hp; auto).
      split_and!; [lia|lia| | | | |].
      * intros y Hy. rewrite Hp. by right.
      * done.
      * intros Hh. specialize (Hop Hh). by inversion Hop.
      * done.
      * intros _. exists e. split; [apply Hsub; by eapply list_elem_of_lookup_2|]. split; [done|].
        intros Hh. specialize (Hop Hh). by inversion Hop.
  - intros [producer c'] (Hl' & Hsub' & Hndp & Hop' & Hlead' & Hprod). cbn [fst snd] in *.
    assert (Hpart : 1 <= u64 (Z.of_nat (length c') - 1) / 2).
    { rewrite u64_small by width. apply Z.div_le_lower_bound; lia. }
    destruct (Z.eqb_spec (u64 (Z.of_nat (length c') - 1) / 2) 0) as [|_]; [lia|].
    change (Z.to_nat 11) with 11%nat.
    eapply ends_bind; [apply pick_pulse_spec; lia|]. cbv beta. intros c2 Hc2.
    pose proof (Permutation_length Hc2) as Hl2. rewrite Hl2.
    destruct (Nat.ltb_spec (length c') 11) as [|_]; [lia|]. apply ends_ret. split.
    2: { intros Hno. exfalso. apply Hno. split_and!; [done|lia|]. intros Hh. rewrite <- Hcount by done.
         apply andb_false_iff in Hfew as [Hf|Hf]; [apply Z.leb_gt in Hf; lia|].
         apply Z.ltb_ge in Hf. unfold PULSE_QUORUM_SIZE, PULSE_QUORUM_NUM_VALIDATORS in Hf. lia. }
    intros _. exists producer, (take 11 c2). cbn [workers validators].
    assert (Hts : take 11 c2 `sublist_of` c2) by apply sublist_take.
    assert (Hin : forall e, e ∈ take 11 c2 -> e ∈ c') by (intros e Hx; rewrite <- Hc2; by eapply elem_of_sublist).
    inversion_clear Hndp as [|? ? Hpn Hndp'].
    split_and!; try done.
    + rewrite length_take. lia.
    + intros e Hx. by apply Hsub, Hsub', Hin.
    + constructor.
      * intros (e & -> & Hx)%list_elem_of_fmap_1. apply Hpn, list_elem_of_fmap_2. by apply Hin.
      * eapply sublist_NoDup; [|by apply fmap_sublist]. by rewrite Hc2.
    + intros Hr. destruct (Hprod Hr) as (e & ? & ? & Hno). exists e. split_and!; try done.
      intros Hh (y & Hy & Hyt)%list_elem_of_fmap_1. apply (Hno Hh). rewrite Hy. apply list_elem_of_fmap_2. by apply Hin.
    + intros Hh. eapply sublist_NoDup; [|by apply fmap_sublist]. rewrite Hc2. by apply Hop'.
Qed.

Lemma pulse_spec :
  ends (generate_pulse_quorum fuel seed_number seed_sequence nettype leader hf_version active entropy round)
    (fun q => (pulse_possible -> pulse_seated q) /\ (~ pulse_possible -> q = Quorum [] [])) stalled.
Proof using Hconf H0 Hnd Hround Hlen.
  unfold generate_pulse_quorum. fold round_candidates.
  set (sorted := sort_by pulse_candidates_sorter round_candidates).
  assert (Hp : sorted ≡ₚ round_candidates) by apply merge_sort_Permutation.
  set (c := if hf22_sn_policy <=? hf_version then dedup [] sorted else sorted).
  assert (Hsub : c `sublist_of` sorted).
  { unfold c. destruct (_ <=? _); [apply dedup_sublist | done]. }
  assert (Hin : c ⊆ round_candidates) by (intros e He; rewrite <- Hp; by eapply elem_of_sublist).
  assert (Hrs : round_candidates `sublist_of` active) by apply sublist_filter.
  assert (Hlc : (length c <= length active)%nat).
  { apply sublist_length in Hsub, Hrs. rewrite (Permutation_length Hp) in Hsub. lia. }
  destruct candidates_length as [Hcl1 Hcl2].
  apply with_candidates_spec.
  - intros e He. eapply elem_of_sublist; [by apply Hin | done].
  - eapply sublist_NoDup; [|by apply fmap_sublist]. rewrite Hp. eapply sublist_NoDup; [exact Hnd|]. by apply fmap_sublist.
  - intros Hr (e & -> & He)%list_elem_of_fmap_1. apply Hin, list_elem_of_filter in He as [[Hne|?] _]; [done | lia].
  - lia.
  - intros Hh. unfold c. rewrite (proj2 (Z.leb_le _ _) Hh). apply dedup_operators.
  - intros Hh. unfold c. rewrite (proj2 (Z.leb_le _ _) Hh). by apply length_dedup.
  - intros Hh. unfold c. rewrite (proj2 (Z.leb_gt _ _) Hh). rewrite (Permutation_length Hp). split; [done|].
    intros Hr. by rewrite Hcl2.
Qed.

End Pulse.

(** ** The claims *)

(** (C30) The obligations quorum of a block, as the code makes it.  Its validators are distinct active nodes: ten, or all if there are
    fewer, before hard fork 22; from then on with distinct operators, and as many as there are operators up to that number, so that
    with fewer than ten operators the quorum is smaller, although the comment in the code says it keeps its full size.  The tested
    nodes are distinct active or decommissioned nodes, none of them a validator; their number is what the rules ask for, or all the
    nodes that are left when those drawn first for the seats and the validators are set apart: never less than the number
    asked for if [2 * num] more nodes remain, and exactly that number before hard fork 22.  No index is out of range; the generation
    returns unless an engine stalls. *)
Theorem obligations_quorum_sound {G} `{EngineLaws G} fuel (seed_number : Z -> G) seed_sequence hf_version
    block_hash active decomm :
  NoDup (all_keys active decomm) -> Z.of_nat (length (all_keys active decomm)) <= UINT64_MAX ->
  ends (obligations_quorum fuel seed_number seed_sequence hf_version block_hash active decomm)
    (fun q =>
       let total := (length active + length decomm)%nat in
       let num := Nat.min (length active) 10 in
       let tested := num_tested (total - num) in
       well_seated hf_version active (all_keys active decomm) q /\
       length (validators q) = (if hf22_sn_policy <=? hf_version then Nat.min num (operators active) else num) /\
       tested_exactly active total num tested q /\
       (Nat.min tested (total - 2 * num) <= length (workers q) <= tested)%nat /\
       (hf_version < hf22_sn_policy -> length (workers q) = tested))
    (rng_stalls fuel seed_number seed_sequence hf_version).
Proof.
  intros HK Hl. eapply ends_mono; [by apply obligations_spec| |done]. cbv beta zeta. intros q (Hw & Hv & _ & Ho & Ht).
  unfold seats in Hv. split_and!; [done|done|done| | |done].
  - eapply tested_bounds; [exact Ht|]. rewrite Hv. destruct (_ <=? _); lia.
  - eapply tested_bounds; [exact Ht|]. rewrite Hv. destruct (_ <=? _); lia.
Qed.

(** The checkpointing quorum is defined for the heights whose voting height is a
    multiple of four (the old soft fork of the testnet aside), and then has twenty distinct
    active validators, or as many as there are operators from hard fork 22 on, if there are
    twenty active nodes, and none otherwise; likewise the blink quorum every five blocks
    from the active nodes that do not unlock soon. *)
Theorem voter_quorums_sound {G} `{EngineLaws G} fuel (seed_number : Z -> G) seed_sequence nettype
    hf_version height block_hash active decomm :
  NoDup (all_keys active decomm) -> Z.of_nat (length (all_keys active decomm)) <= UINT64_MAX ->
  nettype <> TESTNET \/ 85357 <= height ->
  ends (checkpointing_quorum fuel seed_number seed_sequence nettype hf_version height block_hash active decomm)
    (fun o => match o with
              | None => u64 (height + 11) mod 4 <> 0
              | Some q => u64 (height + 11) mod 4 = 0 /\
                  (if (20 <=? length active)%nat then voters_only hf_version active decomm active 20 q
                   else q = Quorum [] [])
              end) (rng_stalls fuel seed_number seed_sequence hf_version) /\
  ends (blink_quorum fuel seed_number seed_sequence hf_version height block_hash active decomm)
    (fun o => match o with
              | None => height mod 5 <> 0
              | Some q => height mod 5 = 0 /\
                  let pool := blink_pool active height in
                  (if (7 <=? length pool)%nat
                   then voters_only hf_version active decomm pool (Nat.min (length pool) 10) q
                   else q = Quorum [] [])
              end) (rng_stalls fuel seed_number seed_sequence hf_version).
Proof. intros HK Hl Hnet. split; [by apply checkpointing_spec | by apply blink_spec]. Qed.

(** (C31) The pulse quorum of a round: with enough active nodes, entropy and (from hard fork 22 on) operators it has a producer
    and eleven other distinct active validators, and otherwise it is empty.  From hard fork 22 on the validators have distinct
    operators.  In later rounds the producer is an active node whose operator has no validator's seat; in round 0 it is the block
    leader, and only its own node is kept from the seats: another node of its operator can be one of the validators (see
    [leader_operator_validates]).  No draw is from an empty range and no index is out of range. *)
Theorem pulse_quorum_sound {G} `{EngineLaws G} fuel (seed_number : Z -> G) seed_sequence hf_version nettype
    netconf leader active entropy round :
  get_config nettype = Some netconf -> NoDup active.*1 -> 0 <= round ->
  Z.of_nat (length active) <= UINT64_MAX ->
  ends (generate_pulse_quorum fuel seed_number seed_sequence nettype leader hf_version active entropy round)
    (fun q =>
       (pulse_possible hf_version netconf leader active entropy round ->
        pulse_seated hf_version leader active round q) /\
       (~ pulse_possible hf_version netconf leader active entropy round -> q = Quorum [] []))
    (rng_stalls fuel seed_number seed_sequence hf_version).
Proof. intros Hconf Hnd Hr Hl. by apply pulse_spec. Qed.

(** *** Witnesses *)

Definition demo_operator (n : nat) : service_node_info :=
  let info := demo_info in
  {| registration_height := registration_height info; requested_unlock_height := requested_unlock_height info;
     last_reward_block_height := last_reward_block_height info;
     last_reward_transaction_index := last_reward_transaction_index info;
     decommission_count := decommission_count info; active_since_height := active_since_height info;
     last_decommission_height := last_decommission_height info;
     last_decommission_reason_consensus_all := last_decommission_reason_consensus_all info;
     last_decommission_reason_consensus_any := last_decommission_reason_consensus_any info;
     recommission_credit := recommission_credit info; contributors := contributors info;
     total_contributed := total_contributed info; total_reserved := total_reserved info;
     staking_requirement := staking_requirement info; portions_for_operator := portions_for_operator info;
     swarm_id := swarm_id info; operator_address := AccountAddress [Z.of_nat n] [];
     operator_ethereum_address := operator_ethereum_address info; bls_public_key := bls_public_key info;
     last_ip_change_height := last_ip_change_height info;
     registration_hf_version := registration_hf_version info; pulse_sorter := PulseSortKey (Z.of_nat n) 0 |}.

(** Nodes of the given operators. *)
Definition demo_active (ops : list nat) : list entry := imap (fun i n => ([Z.of_nat i], demo_operator n)) ops.
Definition demo_seq (l : list Z) : Mt19937_64.t := Mt19937_64.seed (foldl Z.lxor 0 l).

Lemma ends_returned {A} (o : outcome A) P S : ends o P S -> (exists x, o = Returned x) -> exists x, o = Returned x /\ P x.
Proof. intros Ho [x ->]. by exists x. Qed.

Definition demo_block_hash : bytes := replicate 32 7.

(** Thirteen nodes of six operators: the quorum has six validators, which is not enough for
    the seven votes a state change needs. *)
Lemma obligations_quorum_sound_witness :
  let active := demo_active [0; 1; 2; 3; 4; 5; 0; 1; 2; 3; 4; 5; 0]%nat in
  exists q, obligations_quorum 64 Mt19937_64.seed demo_seq hf22_sn_policy demo_block_hash active [[100]]
              = Returned q /\
    length (validators q) = 6%nat /\ well_seated hf22_sn_policy active (all_keys active [[100]]) q.
Proof.
  intros active.
  pose proof (obligations_quorum_sound 64 Mt19937_64.seed demo_seq hf22_sn_policy demo_block_hash active [[100]])
    as Hs.
  assert (E : exists q, obligations_quorum 64 Mt19937_64.seed demo_seq hf22_sn_policy demo_block_hash active
                          [[100]] = Returned q) by (eexists; vm_compute; reflexivity).
  destruct (ends_returned _ _ _ (Hs ltac:(apply (bool_decide_unpack _); vm_compute; exact I)
              ltac:(vm_compute; discriminate)) E) as (q & Eq & Hw & Hv & _).
  exists q. split; [exact Eq|]. split; [|exact Hw]. rewrite Hv. vm_compute. reflexivity.
Defined.

Lemma voter_quorums_sound_witness :
  let active := demo_active (seq 0 20) in
  exists q b, checkpointing_quorum 64 Mt19937_64.seed demo_seq MAINNET hf22_sn_policy 105 demo_block_hash active []
              = Returned (Some q) /\ length (validators q) = 20%nat /\
    blink_quorum 64 Mt19937_64.seed demo_seq hf22_sn_policy 105 demo_block_hash active [] = Returned (Some b) /\
    length (validators b) = 10%nat.
Proof.
  intros active.
  destruct (voter_quorums_sound 64 Mt19937_64.seed demo_seq MAINNET hf22_sn_policy 105 demo_block_hash active [])
    as [Hc Hb]; [apply (bool_decide_unpack _); vm_compute; exact I | vm_compute; discriminate | by left |].
  assert (Ec : exists q, checkpointing_quorum 64 Mt19937_64.seed demo_seq MAINNET hf22_sn_policy 105 demo_block_hash
                           active [] = Returned (Some q)) by (eexists; vm_compute; reflexivity).
  assert (Eb : exists q, blink_quorum 64 Mt19937_64.seed demo_seq hf22_sn_policy 105 demo_block_hash active []
                         = Returned (Some q)) by (eexists; vm_compute; reflexivity).
  destruct Ec as [q Ec], Eb as [b Eb]. rewrite Ec in Hc. rewrite Eb in Hb. exists q, b.
  destruct Hc as [_ Hc]. destruct Hb as [_ Hb].
  assert (E20 : (20 <=? length active)%nat = true) by (vm_compute; reflexivity). rewrite E20 in Hc.
  assert (E7 : (7 <=? length (blink_pool active 105))%nat = true) by (vm_compute; reflexivity).
  cbv zeta in Hb. rewrite E7 in Hb. destruct Hc as (_ & _ & Hc). destruct Hb as (_ & _ & Hb).
  split_and!; [exact Ec | rewrite Hc; vm_compute; reflexivity | exact Eb | rewrite Hb; vm_compute; reflexivity].
Defined.

Lemma pulse_quorum_sound_witness :
  let active := demo_active (seq 0 14) in
  exists q, generate_pulse_quorum 64 Mt19937_64.seed demo_seq MAINNET [3] hf22_sn_policy active
              (replicate 12 demo_block_hash) 1 = Returned q /\
    pulse_seated hf22_sn_policy [3] active 1 q.
Proof.
  intros active.
  pose proof (pulse_quorum_sound 64 Mt19937_64.seed demo_seq hf22_sn_policy MAINNET mainnet_config [3] active
    (replicate 12 demo_block_hash) 1) as Hs.
  assert (E : exists q, generate_pulse_quorum 64 Mt19937_64.seed demo_seq MAINNET [3] hf22_sn_policy active
              (replicate 12 demo_block_hash) 1 = Returned q) by (eexists; vm_compute; reflexivity).
  destruct (ends_returned _ _ _ (Hs ltac:(reflexivity) ltac:(apply (bool_decide_unpack _); vm_compute; exact I)
              ltac:(lia) ltac:(vm_compute; discriminate)) E) as (q & Eq & Hw & _).
  exists q. split; [exact Eq|]. apply Hw. split; [vm_compute; discriminate|]. split; [reflexivity|].
  intros _. vm_compute. lia.
Defined.

(** In round 0 the leader's operator can hold a second seat of the quorum. *)
Lemma leader_operator_validates :
  let active := demo_active (3%nat :: seq 0 14) in
  exists q e l, generate_pulse_quorum 64 Mt19937_64.seed demo_seq MAINNET [0] hf22_sn_policy active (replicate 12 demo_block_hash) 0 = Returned q /\
    workers q = [l.1] /\ l ∈ active /\ e ∈ active /\ e.1 ∈ validators q /\ operator_of e = operator_of l.
Proof.
  intros active. eexists _, ([4], demo_operator 3), ([0], demo_operator 3). split; [vm_compute; reflexivity|].
  split_and!; [done|by left|apply (list_elem_of_lookup_2 _ 4%nat); done| |done]. apply (bool_decide_unpack _). by vm_compute.
Qed.
