(* ===== verification/Staking.v ===== *)
(** * Registrations and contributions

    How a service node is registered and funded
    ([cryptonote_core/service_node_list.cpp]): the stake a transaction carries
    ([tx_get_staking_components_and_amounts]), registration details and their validation,
    [is_registration_tx], [process_registration_tx] and [process_contribution_tx].  The
    curve and ring-signature primitives are parameters.  The outer [option] of a handler is
    [None] where the code throws. *)
From stdpp Require Import gmap.
From S2P Require Import Prelude IntUtil Hardfork Config Address Rules Voting Transactions NodeProof ServiceNode.
From S2P Require Import NodeList.
#[local] Open Scope Z_scope.

Definition MAX_BLOCK_NUMBER : Z := 500000000.
Definition v3_per_output_unlock_times : Z := 3.

(** ** Data *)

Record staking_components := StakingComponents {
  sc_service_node_pubkey : bytes;
  sc_address : account_public_address;
  sc_transferred : Z;
  sc_tx_key : bytes;
  sc_locked_contributions : list contribution_t;
}.

Record registration_details := RegistrationDetails {
  rd_service_node_pubkey : bytes;
  rd_reserved : list (account_public_address * Z);
  rd_fee : Z;
  rd_hf : Z;
  rd_uses_portions : bool;
  rd_signature : bytes;
  rd_eth_contributions : list contributor_v2;
  rd_bls_pubkey : bytes;
}.

(** A default-constructed [service_node_info]. *)
Definition empty_info : service_node_info := {|
  registration_height := 0; requested_unlock_height := 0; last_reward_block_height := 0;
  last_reward_transaction_index := 0; decommission_count := 0; active_since_height := 0;
  last_decommission_height := 0; last_decommission_reason_consensus_all := 0;
  last_decommission_reason_consensus_any := 0; recommission_credit := 0; contributors := [];
  total_contributed := 0; total_reserved := 0; staking_requirement := 0;
  portions_for_operator := 0; swarm_id := 0;
  operator_address := AccountAddress (null_bytes 32) (null_bytes 32);
  operator_ethereum_address := null_bytes 20; bls_public_key := null_bytes 64;
  last_ip_change_height := 0; registration_hf_version := 0; pulse_sorter := PulseSortKey 0 0 |}.

(** ** Registration details *)

Definition zip_reserved (r : tx_extra_service_node_register) : list (account_public_address * Z) :=
  zip_with (fun k a => (k, a))
    (zip_with AccountAddress (public_spend_keys r) (public_view_keys r)) (reg_tx_amounts r).

Definition reg_tx_extract_fields (tx : transaction) : option registration_details :=
  registration ← extra_register (extra tx);
  if negb (length (public_spend_keys registration) =? length (public_view_keys registration))%nat
     || negb (length (reg_tx_amounts registration) =? length (public_spend_keys registration))%nat
  then None
  else
    key ← extra_service_node_pubkey (extra tx);
    Some (RegistrationDetails key (zip_reserved registration) (reg_tx_fee registration)
            (hf_or_expiration registration) (negb (hf_or_expiration registration <=? 255))
            (reg_tx_signature registration) [] (null_bytes 64)).

Definition eth_reg_v2_details (hf_version : hf) (registration : new_service_node_v2)
    : registration_details :=
  RegistrationDetails (nsn_pubkey registration) [] (nsn_fee registration) hf_version false
    (nsn_ed_signature registration) (nsn_contributors registration) (nsn_bls_pubkey registration).

(** [validate_registration] returns ([true]) or throws [invalid_registration] ([false]). *)
Definition validate_registration (hf_version : hf) (nettype : network_type)
    (staking_requirement block_timestamp : Z) (reg : registration_details) : bool :=
  if hf_version =? feature_ETH_TRANSITION then false
  else if (if rd_uses_portions reg then hf19_reward_batching <=? hf_version
           else negb (rd_hf reg =? hf_version) && negb (rd_hf reg =? hf19_reward_batching))
  then false
  else
    let max_contributors := if hf19_reward_batching <=? hf_version then MAX_CONTRIBUTORS_HF19
                            else MAX_CONTRIBUTORS_V1 in
    let extracted_amounts :=
      if (feature_ETH_BLS <=? hf_version) && negb (bool_decide (nettype = FAKECHAIN)) then
        if bool_decide (rd_eth_contributions reg = []) then None
        else if negb (bool_decide (rd_reserved reg = [])) then None
        else if max_contributors <? Z.of_nat (length (rd_eth_contributions reg)) then None
        else Some (c2_amount <$> rd_eth_contributions reg)
      else
        if bool_decide (rd_reserved reg = []) then None
        else if max_contributors <? Z.of_nat (length (rd_reserved reg)) then None
        else Some (snd <$> rd_reserved reg) in
    match extracted_amounts with
    | None => false
    | Some amounts =>
        let '(valid_stakes, valid_fee) :=
          if rd_uses_portions reg then
            (check_service_node_portions hf_version (snd <$> rd_reserved reg),
             rd_fee reg <=? STAKING_PORTIONS)
          else
            (check_service_node_stakes hf_version staking_requirement amounts,
             rd_fee reg <=? STAKING_FEE_BASIS) in
        if negb valid_fee then false
        else if negb valid_stakes then false
        else negb (rd_uses_portions reg && (rd_hf reg <? block_timestamp))
    end.

Definition get_eth_registration_message_for_signing (reg : registration_details) : bytes :=
  rd_service_node_pubkey reg ++ rd_bls_pubkey reg.

(** The bytes hashed by [get_registration_hash]. *)
Definition registration_buffer (reg : registration_details) : bytes :=
  store_le 8 (rd_fee reg) ++
  concat ((fun r : account_public_address * Z =>
             m_spend_public_key r.1 ++ m_view_public_key r.1 ++ store_le 8 r.2) <$> rd_reserved reg) ++
  store_le 8 (rd_hf reg).

(** ** Contributors of a new registration *)

Definition new_contributor_entry (reserved : Z) (address : account_public_address) : contributor_t :=
  Contributor 0 reserved address (null_bytes 20) (null_bytes 20) [].

(** The loop over the reserved spots; [None] on a duplicate address. *)
Fixpoint reserve_contributors (uses_portions : bool) (requirement : Z)
    (reserved : list (account_public_address * Z)) (total : Z)
    : option (list contributor_t * Z) :=
  match reserved with
  | [] => Some ([], total)
  | (addr, amount) :: rest =>
      if bool_decide (addr ∈ rest.*1) then None
      else
        let r := if uses_portions then Int128.mul128_div64 amount requirement STAKING_PORTIONS
                 else amount in
        '(cs, total) ← reserve_contributors uses_portions requirement rest (u64 (total + r));
        Some (new_contributor_entry r addr :: cs, total)
  end.

Definition registered_info (netconf : network_config) (hf_version : hf) (block_height index : Z)
    (requirement : Z) (reg : registration_details) (operator : account_public_address)
    (cs : list contributor_t) (total : Z) : service_node_info := {|
  registration_height := block_height;
  requested_unlock_height := 0;
  last_reward_block_height := block_height;
  last_reward_transaction_index := index;
  decommission_count := 0;
  active_since_height := 0;
  last_decommission_height := 0;
  last_decommission_reason_consensus_all := 0;
  last_decommission_reason_consensus_any := 0;
  recommission_credit := BLOCKS_IN netconf DECOMMISSION_INITIAL_CREDIT;
  contributors := cs;
  total_contributed := 0;
  total_reserved := total;
  staking_requirement := requirement;
  portions_for_operator :=
    if rd_uses_portions reg then rd_fee reg
    else Int128.mul128_div64 (rd_fee reg) STAKING_PORTIONS STAKING_FEE_BASIS;
  swarm_id := UNASSIGNED_SWARM_ID;
  operator_address := operator;
  operator_ethereum_address := null_bytes 20;
  bls_public_key := null_bytes 64;
  last_ip_change_height := block_height;
  registration_hf_version := hf_version;
  pulse_sorter := PulseSortKey 0 0 |}.

(** ** Contributions *)

Record scan := Scan {
  new_contributor : bool;
  contributor_position : nat;
  contr_unfilled_reserved : Z;
  other_reservations : Z;
}.

(** The loop over the contributors that looks for the staker's own entry. *)
Fixpoint scan_contributors (address : account_public_address) (i : nat) (cs : list contributor_t)
    (s : scan) : scan :=
  match cs with
  | [] => s
  | c :: cs =>
      scan_contributors address (S i) cs
        (if bool_decide (contributor_address c = address) then
           Scan false i
             (if contributor_amount c <? contributor_reserved c
              then u64 (contributor_reserved c - contributor_amount c)
              else contr_unfilled_reserved s)
             (other_reservations s)
         else if contributor_amount c <? contributor_reserved c then
           Scan (new_contributor s) (contributor_position s) (contr_unfilled_reserved s)
             (u64 (other_reservations s + 1))
         else s)
  end.

Definition too_many_contributions (hf_version : hf) (existing : Z) (s : scan)
    (locked num_contributors : Z) : bool :=
  if hf19_reward_batching <=? hf_version then
    MAX_CONTRIBUTORS_HF19 <? u64 (existing + other_reservations s + 1)
  else if hf16_pulse <=? hf_version then
    MAX_CONTRIBUTORS_V1 <? u64 (existing + other_reservations s + 1)
  else if hf11_infinite_staking <=? hf_version then
    MAX_CONTRIBUTORS_V1 <? u64 (existing + locked)
  else new_contributor s && (MAX_CONTRIBUTORS_V1 <=? num_contributors).

Definition min_contribution (hf_version : hf) (existing : Z) (s : scan) (info : service_node_info)
    : Z :=
  if negb (new_contributor s) && (hf_version <? hf11_infinite_staking) then 1
  else if hf_version <? hf16_pulse then
    get_min_node_contribution hf_version (staking_requirement info) (total_reserved info) existing
  else if 0 <? contr_unfilled_reserved s then contr_unfilled_reserved s
  else get_min_node_contribution hf_version (staking_requirement info) (total_reserved info)
         (u64 (existing + other_reservations s)).

Definition with_stake (info : service_node_info) (cs : list contributor_t)
    (contributed reserved height index active_since : Z) : service_node_info := {|
  registration_height := registration_height info;
  requested_unlock_height := requested_unlock_height info;
  last_reward_block_height := height;
  last_reward_transaction_index := index;
  decommission_count := decommission_count info;
  active_since_height := active_since;
  last_decommission_height := last_decommission_height info;
  last_decommission_reason_consensus_all := last_decommission_reason_consensus_all info;
  last_decommission_reason_consensus_any := last_decommission_reason_consensus_any info;
  recommission_credit := recommission_credit info;
  contributors := cs;
  total_contributed := contributed;
  total_reserved := reserved;
  staking_requirement := staking_requirement info;
  portions_for_operator := portions_for_operator info;
  swarm_id := swarm_id info;
  operator_address := operator_address info;
  operator_ethereum_address := operator_ethereum_address info;
  bls_public_key := bls_public_key info;
  last_ip_change_height := last_ip_change_height info;
  registration_hf_version := registration_hf_version info;
  pulse_sorter := pulse_sorter info |}.

(** The changes made once a contribution has been validated; [None] if the position were
    out of range. *)
Definition apply_contribution (hf_version : hf) (block_height index : Z)
    (stake : staking_components) (s : scan) (info : service_node_info)
    : option service_node_info :=
  let '(cs, position) :=
    if new_contributor s then
      (contributors info ++ [new_contributor_entry 0 (sc_address stake)], length (contributors info))
    else (contributors info, contributor_position s) in
  contributor ← cs !! position;
  let can_increase_reserved_by := u64 (staking_requirement info - total_reserved info) in
  let max_amount := u64 (contributor_reserved contributor + can_increase_reserved_by) in
  let transferred := Z.min (u64 (max_amount - contributor_amount contributor)) (sc_transferred stake) in
  let amount := u64 (contributor_amount contributor + transferred) in
  let contributed := u64 (total_contributed info + transferred) in
  let '(reserved, total) :=
    if contributor_reserved contributor <? amount then
      (amount, u64 (total_reserved info + u64 (amount - contributor_reserved contributor)))
    else (contributor_reserved contributor, total_reserved info) in
  let locked := if hf11_infinite_staking <=? hf_version
                then locked_contributions contributor ++ sc_locked_contributions stake
                else locked_contributions contributor in
  let contributor := Contributor amount reserved (contributor_address contributor)
                       (ethereum_address contributor) (ethereum_beneficiary contributor) locked in
  Some (with_stake info (<[position := contributor]> cs) contributed total block_height index
          (if staking_requirement info <=? contributed then s64 block_height
           else active_since_height info)).

(** The validation and application of a stake to a node that is not fully funded; [None]
    when it is refused. *)
Definition contribute (hf_version : hf) (block_height index : Z) (stake : staking_components)
    (curinfo : service_node_info) : option service_node_info :=
  let existing_contributions := total_num_locked_contributions curinfo in
  let s := scan_contributors (sc_address stake) 0 (contributors curinfo) (Scan true 0 0 0) in
  let num_locked := Z.of_nat (length (sc_locked_contributions stake)) in
  if is_fully_funded curinfo then None
  else if (hf16_pulse <=? hf_version) && negb (num_locked =? 1) then None
  else if too_many_contributions hf_version existing_contributions s num_locked
            (Z.of_nat (length (contributors curinfo))) then None
  else if sc_transferred stake <? min_contribution hf_version existing_contributions s curinfo then None
  else if get_max_node_contribution hf_version (staking_requirement curinfo)
            (u64 (total_reserved curinfo - contr_unfilled_reserved s)) <? sc_transferred stake then None
  else apply_contribution hf_version block_height index stake s curinfo.

Section Handlers.
Context (fk : list hard_fork).
Context (cn_fast_hash : bytes -> bytes).
(** Message, public key, signature. *)
Context (check_signature : bytes -> bytes -> bytes -> bool).
Context (check_key : bytes -> bool).
Context (ed25519_verify : bytes -> bytes -> bytes -> bool).
Context (snpk_to_xpk : bytes -> bytes).
(** [generate_key_derivation view_key tx_key], [derive_public_key derivation index spend_key]
    and [derivation_to_scalar]; the decoding of a ring-confidential amount throws with
    [None]; [check_key_image_signature image key signature]. *)
Context (generate_key_derivation : bytes -> bytes -> option bytes).
Context (derive_public_key : bytes -> Z -> bytes -> option bytes).
Context (derivation_to_scalar : bytes -> Z -> bytes).
Context (decodeRctSimple decodeRct : bytes -> bytes -> Z -> option Z).
Context (check_key_image_signature : bytes -> bytes -> bytes -> bool).

Definition get_registration_hash (reg : registration_details) : bytes :=
  cn_fast_hash (registration_buffer reg).

(** [true] when it returns, [false] when it throws [invalid_registration]. *)
Definition validate_registration_signature (reg : registration_details) : bool :=
  if rd_uses_portions reg || (rd_hf reg <? feature_ETH_BLS) then
    if negb (check_key (rd_service_node_pubkey reg)) then false
    else check_signature (get_registration_hash reg) (rd_service_node_pubkey reg) (rd_signature reg)
  else
    ed25519_verify (rd_signature reg) (get_eth_registration_message_for_signing reg)
      (rd_service_node_pubkey reg).

(** *** The stake of a transaction *)

Definition get_staking_output_contribution (tx : transaction) (i : nat) (derivation : bytes) : Z :=
  match vout (tx_out tx) !! i with
  | Some (Some _) =>
      let scalar1 := derivation_to_scalar derivation (Z.of_nat i) in
      match rct_sig_type (tx_out tx) with
      | RctSimple | RctBulletproof | RctBulletproof2 | RctCLSAG =>
          default 0 (decodeRctSimple (rct_signatures (tx_out tx)) scalar1 (Z.of_nat i))
      | RctFull => default 0 (decodeRct (rct_signatures (tx_out tx)) scalar1 (Z.of_nat i))
      | RctNull => 0
      end
  | _ => 0
  end.

(** Node key, contributor address and transaction key packed into [tx_extra]. *)
Definition tx_get_staking_components (tx : transaction)
    : option (bytes * account_public_address * bytes) :=
  pubkey ← extra_service_node_pubkey (extra tx);
  address ← extra_contributor (extra tx);
  tx_key ← extra_tx_secret_key (extra tx);
  Some (pubkey, address, tx_key).

(** The first proof whose signature is valid, and the proofs without it. *)
Fixpoint take_proof (key : bytes) (proofs : list key_image_proof)
    : option (key_image_proof * list key_image_proof) :=
  match proofs with
  | [] => None
  | p :: rest =>
      if check_key_image_signature (kp_key_image p) key (kp_signature p) then Some (p, rest)
      else '(q, rest) ← take_proof key rest; Some (q, p :: rest)
  end.

(** The loop over the outputs from HF11 on: locked contributions and the total. *)
Fixpoint stake_outputs (tx : transaction) (derivation spend_key : bytes) (indexes : list nat)
    (proofs : list key_image_proof) (transferred : Z) (locked : list contribution_t)
    : Z * list contribution_t :=
  match indexes with
  | [] => (transferred, locked)
  | i :: rest =>
      let amount := get_staking_output_contribution tx i derivation in
      if amount =? 0 then stake_outputs tx derivation spend_key rest proofs transferred locked
      else
        match derive_public_key derivation (Z.of_nat i) spend_key with
        | None => stake_outputs tx derivation spend_key rest proofs transferred locked
        | Some ephemeral =>
            if negb (bool_decide (vout (tx_out tx) !! i = Some (Some ephemeral))) then
              stake_outputs tx derivation spend_key rest proofs transferred locked
            else
              match take_proof ephemeral proofs with
              | None => stake_outputs tx derivation spend_key rest proofs transferred locked
              | Some (p, proofs) =>
                  stake_outputs tx derivation spend_key rest proofs (u64 (transferred + amount))
                    (locked ++ [Contribution ephemeral (kp_key_image p) amount])
              end
        end
  end.

(** Before HF11: the outputs locked for long enough; [None] when [get_config] throws, or
    out of range. *)
Fixpoint locked_outputs (nettype : network_type) (block_height : Z) (tx : transaction)
    (derivation : bytes) (indexes : list nat) (transferred : Z) : option Z :=
  match indexes with
  | [] => Some transferred
  | i :: rest =>
      unlock_time ← (if v3_per_output_unlock_times <=? tx_version (tx_out tx)
                     then output_unlock_times (tx_out tx) !! i
                     else Some (tx_unlock_time (tx_out tx)));
      lock ← staking_num_lock_blocks nettype;
      let min_height := u64 (block_height + lock) in
      if (unlock_time <? MAX_BLOCK_NUMBER) && (min_height <=? unlock_time) then
        locked_outputs nettype block_height tx derivation rest
          (u64 (transferred + get_staking_output_contribution tx i derivation))
      else locked_outputs nettype block_height tx derivation rest transferred
  end.

Definition tx_get_staking_components_and_amounts (nettype : network_type) (hf_version : hf)
    (tx : transaction) (block_height : Z) : option (option staking_components) :=
  match tx_get_staking_components tx with
  | None => Some None
  | Some (pubkey, address, tx_key) =>
      match generate_key_derivation (m_view_public_key address) tx_key with
      | None => Some None
      | Some derivation =>
          let indexes := seq 0 (length (vout (tx_out tx))) in
          if hf11_infinite_staking <=? hf_version then
            match extra_key_image_proofs (extra tx) with
            | None => Some None
            | Some proofs =>
                let '(transferred, locked) :=
                  stake_outputs tx derivation (m_spend_public_key address) indexes proofs 0 [] in
                Some (Some (StakingComponents pubkey address transferred tx_key locked))
            end
          else
            transferred ← locked_outputs nettype block_height tx derivation indexes 0;
            Some (Some (StakingComponents pubkey address transferred tx_key []))
      end
  end.

(** *** Registrations *)

(** The checks of the stake that comes with a registration, before and after HF16. *)
Definition registration_stake_ok (hf_version : hf) (requirement : Z) (stake : staking_components)
    (reserved : list (account_public_address * Z)) (operator : account_public_address) : bool :=
  if hf16_pulse <=? hf_version then
    (length (sc_locked_contributions stake) =? 1)%nat && bool_decide (sc_address stake = operator)
  else
    let min_transfer := get_min_node_contribution hf_version requirement 0 0 in
    let total_num_of_addr :=
      if bool_decide (sc_address stake ∈ reserved.*1) then Z.of_nat (length reserved)
      else Z.of_nat (length reserved) + 1 in
    negb (sc_transferred stake <? min_transfer) && negb (MAX_CONTRIBUTORS_V1 <? total_num_of_addr).

(** The key and record of a valid registration; inner [None] when it is not one. *)
Definition is_registration_tx (nettype : network_type) (hf_version : hf) (tx : transaction)
    (block_timestamp block_height index requirement : Z)
    : option (option (bytes * service_node_info)) :=
  match reg_tx_extract_fields tx with
  | None => Some None
  | Some reg =>
      if feature_ETH_TRANSITION <=? hf_version then Some None
      else if negb (validate_registration hf_version nettype requirement block_timestamp reg) then
        Some None
      else if negb (validate_registration_signature reg) then Some None
      else
        stake ← tx_get_staking_components_and_amounts nettype hf_version tx block_height;
        match stake with
        | None => Some None
        | Some stake =>
            '(operator, _) ← head (rd_reserved reg);
            if negb (registration_stake_ok hf_version requirement stake (rd_reserved reg) operator)
            then Some None
            else
              netconf ← get_config nettype;
              match reserve_contributors (rd_uses_portions reg) requirement (rd_reserved reg) 0 with
              | None => Some None
              | Some (cs, total) =>
                  c0 ← head cs;
                  if (hf16_pulse <=? hf_version) && (sc_transferred stake <? contributor_reserved c0)
                  then Some None
                  else Some (Some (rd_service_node_pubkey reg,
                         registered_info netconf hf_version block_height index requirement reg
                           operator cs total))
              end
        end
  end.

Definition process_registration_tx (nettype : network_type) (b : block) (tx : transaction)
    (index : Z) (st : state_t) (nl : option node_list)
    : option (bool * state_t * option node_list) :=
  let hf_version := major_version b in
  reg ← is_registration_tx nettype hf_version tx (b_timestamp b) (b_height b) index
          (get_staking_requirement fk nettype st);
  match reg with
  | None => Some (false, st, nl)
  | Some (key, info) =>
      if hf11_infinite_staking <=? hf_version then
        match service_nodes_infos st !! key with
        | Some _ => Some (false, st, nl)
        | None =>
            let nl := match nl with
                      | Some l => Some (if m_rescanning l then l
                                        else store_proof (set_proof l key new_proof_info) key)
                      | None => None
                      end in
            Some (true, insert_info fk snpk_to_xpk st nl key info, nl)
        end
      else
        match service_nodes_infos st !! key with
        | Some old_info =>
            if hf10_bulletproofs <=? hf_version then
              lock ← staking_num_lock_blocks nettype;
              if b_height b <? u64 (registration_height old_info + lock) then Some (false, st, nl)
              else
                let info := with_stake info (contributors info) (total_contributed info)
                              (total_reserved info) (last_reward_block_height old_info)
                              (last_reward_transaction_index old_info) (active_since_height info) in
                Some (true, insert_info fk snpk_to_xpk st nl key info, nl)
            else Some (false, st, nl)
        | None => Some (true, insert_info fk snpk_to_xpk st nl key info, nl)
        end
  end.

(** The result says whether the node became fully funded. *)
Definition process_contribution_tx (nettype : network_type) (b : block) (tx : transaction)
    (index : Z) (st : state_t) : option (bool * state_t) :=
  let hf_version := major_version b in
  if feature_ETH_BLS <=? hf_version then Some (false, st)
  else
    stake ← tx_get_staking_components_and_amounts nettype hf_version tx (b_height b);
    match stake with
    | None => Some (false, st)
    | Some stake =>
        match service_nodes_infos st !! sc_service_node_pubkey stake with
        | None => Some (false, st)
        | Some curinfo =>
            match contribute hf_version (b_height b) index stake curinfo with
            | None => Some (false, st)
            | Some info =>
                Some (is_fully_funded info,
                  with_infos st (<[sc_service_node_pubkey stake := info]> (service_nodes_infos st)))
            end
        end
    end.

End Handlers.
