(* ===== verification/Funding.v ===== *)
(** * Funding of service nodes

    The accounting of [Staking]: what a registration and the contributions after it leave in
    a node's record.  The books are balanced in every reachable state, a funded node holds
    exactly its requirement, and from HF19 on the contribution slots never run out before
    the stake is complete, so that every registered node can be funded. *)
From stdpp Require Import gmap.
From S2P Require Import Prelude IntUtil Hardfork Config Address Rules Voting Transactions NodeProof ServiceNode.
From S2P Require Import NodeList Staking Reward.
#[local] Open Scope Z_scope.

(** ** The books of a node *)

Definition reserved_of (cs : list contributor_t) : list Z := contributor_reserved <$> cs.

(** The totals kept beside the contributors of a node with requirement [req]. *)
Record books (req contributed reserved : Z) (cs : list contributor_t) : Prop := {
  bk_amounts : Forall (fun c => 0 <= contributor_amount c <= contributor_reserved c) cs;
  bk_contributed : contributed = zsum (amounts_of cs);
  bk_reserved : reserved = zsum (reserved_of cs);
  bk_limit : reserved <= req;
  bk_addresses : NoDup (addresses_of cs);
}.

Record stakes_ok (info : service_node_info) : Prop := {
  so_requirement : 0 < staking_requirement info < 2 ^ 64;
  so_books : books (staking_requirement info) (total_contributed info) (total_reserved info)
               (contributors info);
  so_operator : operator_address info ∈ addresses_of (contributors info);
  so_fee : 0 <= portions_for_operator info <= STAKING_PORTIONS;
}.

(** ** Sums over contributors *)

Section Sums.
Context {A : Type} (f : A -> Z).

Lemma zsum_app l k : zsum (f <$> l ++ k) = zsum (f <$> l) + zsum (f <$> k).
Proof. unfold zsum. induction l as [|x l IH]; cbn in *; lia. Qed.

Lemma zsum_insert l i x y :
  l !! i = Some x -> zsum (f <$> <[i := y]> l) = zsum (f <$> l) + f y - f x.
Proof.
  intros Hi. rewrite <- (take_drop_middle l i x Hi) at 2.
  rewrite insert_take_drop by by eapply lookup_lt_Some. rewrite !zsum_app. cbn. lia.
Qed.

Lemma zsum_lookup_le l i x :
  Forall (fun a => 0 <= f a) l -> l !! i = Some x -> 0 <= f x <= zsum (f <$> l).
Proof.
  intros Hl. revert i. induction Hl as [|a l Ha Hl IH]; intros i Hi; [done|].
  assert (0 <= zsum (f <$> l)) as Hz.
  { clear -Hl. unfold zsum. induction Hl; cbn in *; lia. }
  unfold zsum in *. destruct i as [|i]; cbn in *; [injection Hi as ->; lia|].
  specialize (IH i Hi). lia.
Qed.
End Sums.

Lemma zsum_le_mono {A} (f g : A -> Z) l :
  Forall (fun a => f a <= g a) l -> zsum (f <$> l) <= zsum (g <$> l).
Proof. unfold zsum. induction 1; cbn in *; lia. Qed.

Lemma zsum_open (l : list contributor_t) :
  zsum ((fun x => contributor_reserved x - contributor_amount x) <$> l) =
  zsum (reserved_of l) - zsum (amounts_of l).
Proof. unfold zsum, reserved_of, amounts_of. induction l; cbn in *; lia. Qed.

Lemma books_entry req t r cs p c :
  books req t r cs -> cs !! p = Some c ->
  0 <= contributor_amount c <= contributor_reserved c /\ contributor_reserved c <= r.
Proof.
  intros H Hc. pose proof (bk_amounts _ _ _ _ H) as Ha. split.
  - rewrite Forall_lookup in Ha. by eapply Ha.
  - rewrite (bk_reserved _ _ _ _ H). apply (zsum_lookup_le contributor_reserved cs p c); [|done].
    eapply Forall_impl; [exact Ha|]. intros x Hx. cbn in *. lia.
Qed.

Lemma books_contributed req t r cs : books req t r cs -> 0 <= t <= r.
Proof.
  intros [Ha -> -> _ _]. split.
  - clear -Ha. unfold zsum, amounts_of. induction Ha; cbn in *; lia.
  - apply zsum_le_mono. eapply Forall_impl; [exact Ha|]. intros c Hc. cbn in *. lia.
Qed.

(** A node is fully funded exactly when it holds its requirement. *)
Lemma funded_exactly info :
  stakes_ok info -> is_fully_funded info = true ->
  zsum (amounts_of (contributors info)) = staking_requirement info.
Proof.
  intros [_ H _ _] Hf%Z.leb_le. pose proof (books_contributed _ _ _ _ H).
  destruct H as [_ <- _ Hl _]. lia.
Qed.

(** ** The scan for the staker's own entry *)

Definition unfilled (c : contributor_t) : Prop := contributor_amount c < contributor_reserved c.
#[global] Instance unfilled_dec c : Decision (unfilled c).
Proof. unfold unfilled. apply _. Defined.
Definition num_unfilled (cs : list contributor_t) : Z := Z.of_nat (length (filter unfilled cs)).

Lemma num_unfilled_app l k : num_unfilled (l ++ k) = num_unfilled l + num_unfilled k.
Proof. unfold num_unfilled. rewrite filter_app, length_app. lia. Qed.

Lemma num_unfilled_cons c l :
  num_unfilled (c :: l) = (if decide (unfilled c) then 1 else 0) + num_unfilled l.
Proof. unfold num_unfilled. rewrite filter_cons. destruct (decide _); cbn [length]; lia. Qed.

Lemma unfilled_ltb c : (contributor_amount c <? contributor_reserved c) = bool_decide (unfilled c).
Proof.
  unfold unfilled. destruct (Z.ltb_spec (contributor_amount c) (contributor_reserved c));
    [by rewrite bool_decide_eq_true_2|rewrite bool_decide_eq_false_2; [done|lia]].
Qed.

Lemma scan_app a i l k s :
  scan_contributors a i (l ++ k) s = scan_contributors a (i + length l) k (scan_contributors a i l s).
Proof.
  revert i s. induction l as [|c l IH]; intros i s; cbn; [by rewrite Nat.add_0_r|].
  rewrite IH. f_equal. lia.
Qed.

Lemma u64_add_u64 x y : u64 (u64 x + y) = u64 (x + y).
Proof. unfold u64. by rewrite Zplus_mod_idemp_l. Qed.

Lemma scan_absent a i l s :
  a ∉ addresses_of l -> is_u64 (other_reservations s) ->
  scan_contributors a i l s =
    Scan (new_contributor s) (contributor_position s) (contr_unfilled_reserved s)
      (u64 (other_reservations s + num_unfilled l)).
Proof.
  revert i s. induction l as [|c l IH]; intros i s Ha H0.
  { cbn. destruct s; cbn in *. rewrite Z.add_0_r, u64_small by done. done. }
  cbn [addresses_of fmap list_fmap] in Ha. apply not_elem_of_cons in Ha as [Hc Ha].
  cbn [scan_contributors] in *. rewrite bool_decide_eq_false_2 by congruence.
  rewrite unfilled_ltb, num_unfilled_cons.
  destruct (bool_decide_reflect (unfilled c)) as [Hu|Hu];
    [rewrite decide_True by done|rewrite decide_False by done].
  - rewrite IH; [|done|cbn; apply u64_range]. cbn [new_contributor contributor_position
      contr_unfilled_reserved other_reservations]. rewrite u64_add_u64. do 2 f_equal. lia.
  - rewrite IH by done. done.
Qed.

(** The staker's entry and what the scan finds out about it. *)
Definition scan_of (a : account_public_address) (cs : list contributor_t) : scan :=
  scan_contributors a 0 cs (Scan true 0 0 0).

Lemma scan_new a cs :
  a ∉ addresses_of cs -> scan_of a cs = Scan true 0 0 (u64 (num_unfilled cs)).
Proof. intros Ha. unfold scan_of. rewrite scan_absent by (done || by cbn). done. Qed.

Lemma scan_existing a cs p c :
  NoDup (addresses_of cs) -> cs !! p = Some c -> contributor_address c = a ->
  0 <= contributor_amount c <= contributor_reserved c -> contributor_reserved c < 2 ^ 64 ->
  scan_of a cs =
    Scan false p (contributor_reserved c - contributor_amount c)
      (u64 (num_unfilled cs - (if decide (unfilled c) then 1 else 0))).
Proof.
  intros Hnd Hp Ha Hc Hr. pose proof (lookup_lt_Some _ _ _ Hp) as Hlt.
  rewrite <- (take_drop_middle cs p c Hp) in Hnd |- *. unfold addresses_of in Hnd.
  rewrite fmap_app, fmap_cons in Hnd. apply NoDup_app in Hnd as (_ & Hx & [Hy _]%NoDup_cons).
  assert (a ∉ addresses_of (take p cs)) as H1.
  { intros Hin. apply (Hx _ Hin). rewrite Ha. apply elem_of_cons. by left. }
  assert (a ∉ addresses_of (drop (S p) cs)) as H2 by by rewrite <- Ha.
  unfold scan_of. rewrite scan_app, (scan_absent a 0 (take p cs)) by (done || by cbn).
  cbn [scan_contributors]. rewrite bool_decide_eq_true_2 by done. rewrite unfilled_ltb.
  rewrite scan_absent by (cbn; try done; apply u64_range).
  cbn -[u64]. rewrite num_unfilled_app, num_unfilled_cons, length_take, u64_add_u64.
  replace (p `min` length cs)%nat with p by lia.
  destruct (bool_decide_reflect (unfilled c)) as [Hu|Hu];
    [rewrite decide_True by done; rewrite u64_small by (unfold is_u64; lia)
    |rewrite decide_False by done; unfold unfilled in Hu]; f_equal; try lia; f_equal; lia.
Qed.

(** ** One contribution *)

(** The contributors with the staker's entry, added when there is none yet. *)
Definition with_entry (a : account_public_address) (cs : list contributor_t) : list contributor_t :=
  if bool_decide (a ∈ addresses_of cs) then cs else cs ++ [new_contributor_entry 0 a].

Lemma new_entry_filled a : ~ unfilled (new_contributor_entry 0 a).
Proof. unfold unfilled. cbn. lia. Qed.

Lemma books_with_entry req t r cs a : books req t r cs -> books req t r (with_entry a cs).
Proof.
  intros H. unfold with_entry. destruct (bool_decide_reflect (a ∈ addresses_of cs)) as [|Ha]; [done|].
  destruct H as [H1 -> -> H4 H5]. split.
  - apply Forall_app. split; [done|]. repeat constructor; cbn; lia.
  - unfold amounts_of. rewrite zsum_app. cbn. lia.
  - unfold reserved_of. rewrite zsum_app. cbn. lia.
  - done.
  - unfold addresses_of in *. rewrite fmap_app. apply NoDup_app. split; [done|]. split; [|apply NoDup_singleton].
    intros x Hx Hn. apply list_elem_of_singleton in Hn. cbn in Hn. by subst.
Qed.

(** What the scan finds, and where the entry is. *)
Lemma scan_spec req t r cs a :
  books req t r cs -> req < 2 ^ 64 ->
  exists p c,
    (if new_contributor (scan_of a cs) then (cs ++ [new_contributor_entry 0 a], length cs)
     else (cs, contributor_position (scan_of a cs))) = (with_entry a cs, p) /\
    with_entry a cs !! p = Some c /\ contributor_address c = a /\
    contr_unfilled_reserved (scan_of a cs) = contributor_reserved c - contributor_amount c /\
    other_reservations (scan_of a cs) =
      u64 (num_unfilled cs - (if decide (unfilled c) then 1 else 0)) /\
    num_unfilled (with_entry a cs) = num_unfilled cs.
Proof.
  intros H Hreq. unfold with_entry.
  destruct (bool_decide_reflect (a ∈ addresses_of cs)) as [Hin|Hout].
  - apply list_elem_of_fmap in Hin as (c & Hc & (p & Hp)%list_elem_of_lookup).
    destruct (books_entry _ _ _ _ _ _ H Hp) as [Hc1 Hc2]. pose proof (bk_limit _ _ _ _ H).
    rewrite (scan_existing a cs p c) by (try apply H; try done; lia). cbn. by exists p, c.
  - rewrite scan_new by done. cbn -[u64]. eexists _, _. split; [done|].
    rewrite list_lookup_middle by done. split; [done|]. cbn -[u64].
    rewrite decide_False by apply new_entry_filled.
    rewrite num_unfilled_app, num_unfilled_cons, decide_False by apply new_entry_filled.
    change (num_unfilled []) with 0. rewrite !Z.sub_0_r, !Z.add_0_r. done.
Qed.

(** The staker's entry after [t] more is credited to it. *)
Definition credited (hf_version : hf) (stake : staking_components) (c : contributor_t) (t : Z)
    : contributor_t :=
  Contributor (contributor_amount c + t) (Z.max (contributor_reserved c) (contributor_amount c + t))
    (contributor_address c) (ethereum_address c) (ethereum_beneficiary c)
    (if hf11_infinite_staking <=? hf_version
     then locked_contributions c ++ sc_locked_contributions stake else locked_contributions c).

(** Without wrap-around: what is credited is what was sent, capped by what is still open. *)
Lemma apply_contribution_exact v h i stake info :
  stakes_ok info -> is_u64 (sc_transferred stake) ->
  0 <= h < 2 ^ 62 ->
  let s := scan_of (sc_address stake) (contributors info) in
  let cs := with_entry (sc_address stake) (contributors info) in
  let open_ := staking_requirement info - total_reserved info in
  exists p c t, cs !! p = Some c /\ contributor_address c = sc_address stake /\
    t = Z.min (contributor_reserved c - contributor_amount c + open_) (sc_transferred stake) /\
    contr_unfilled_reserved s = contributor_reserved c - contributor_amount c /\
    other_reservations s =
      u64 (num_unfilled (contributors info) - (if decide (unfilled c) then 1 else 0)) /\
    num_unfilled cs = num_unfilled (contributors info) /\
    apply_contribution v h i stake s info =
      Some (with_stake info (<[p := credited v stake c t]> cs) (total_contributed info + t)
              (total_reserved info + Z.max 0 (contributor_amount c + t - contributor_reserved c)) h i
              (if staking_requirement info <=? total_contributed info + t then h
               else active_since_height info)).
Proof.
  intros H Ht Hh s cs open_. pose proof (so_books _ H) as Hb. pose proof (so_requirement _ H) as Hr.
  destruct (scan_spec _ _ _ _ (sc_address stake) Hb ltac:(lia)) as (p & c & Hp & Hc & Ha & Hu & Ho & Hn).
  pose proof (books_with_entry _ _ _ _ (sc_address stake) Hb) as Hb'.
  destruct (books_entry _ _ _ _ _ _ Hb' Hc) as [Hc1 Hc2].
  pose proof (bk_limit _ _ _ _ Hb) as Hlim. pose proof (books_contributed _ _ _ _ Hb) as Htc.
  exists p, c, (Z.min (contributor_reserved c - contributor_amount c + open_) (sc_transferred stake)).
  split_and!; [done..|]. unfold apply_contribution. fold s in Hp. rewrite Hp.
  cbv beta iota zeta. rewrite Hc. cbn [mbind option_bind]. fold open_.
  assert (0 <= open_ < 2 ^ 64) as Hopen by (unfold open_; lia).
  assert (contributor_reserved c + open_ < 2 ^ 64) by (unfold open_; lia).
  unfold is_u64 in Ht. set (t := Z.min (contributor_reserved c - contributor_amount c + open_) (sc_transferred stake)).
  rewrite (u64_small open_), (u64_small (contributor_reserved c + open_)),
    (u64_small (contributor_reserved c + open_ - contributor_amount c)) by (unfold is_u64; lia).
  replace (Z.min (contributor_reserved c + open_ - contributor_amount c) (sc_transferred stake)) with t
    by (unfold t; f_equal; lia).
  assert (0 <= t <= contributor_reserved c - contributor_amount c + open_) as Ht' by (unfold t; lia).
  clearbody t. unfold open_ in *. clear open_.
  assert (contributor_reserved c - contributor_amount c + total_contributed info <= total_reserved info) as Hsum.
  { destruct Hb' as [A1 A2 A3 _ _]. rewrite A2, A3.
    pose proof (zsum_lookup_le (fun x => contributor_reserved x - contributor_amount x) _ _ _
      ltac:(eapply Forall_impl; [exact A1|]; intros x Hx; cbn in *; lia) Hc) as [_ Hz].
    rewrite zsum_open in Hz. unfold cs. lia. }
  rewrite (u64_small (contributor_amount c + t)), (u64_small (total_contributed info + t))
    by (unfold is_u64; lia).
  rewrite (s64_small h) by (unfold is_s64; lia).
  destruct (Z.ltb_spec (contributor_reserved c) (contributor_amount c + t)) as [Hlt|Hge].
  - rewrite (u64_small (contributor_amount c + t - contributor_reserved c)) by (unfold is_u64; lia).
    rewrite (u64_small (total_reserved info + _)) by (unfold is_u64; lia).
    unfold credited. rewrite !Z.max_r by lia. done.
  - unfold credited. rewrite !Z.max_l by lia. by rewrite Z.add_0_r.
Qed.

Lemma books_credit v stake req t r cs p c x :
  books req t r cs -> cs !! p = Some c ->
  0 <= x <= contributor_reserved c - contributor_amount c + (req - r) ->
  books req (t + x) (r + Z.max 0 (contributor_amount c + x - contributor_reserved c))
    (<[p := credited v stake c x]> cs).
Proof.
  intros H Hc Hx. destruct (books_entry _ _ _ _ _ _ H Hc) as [Hc1 _].
  destruct H as [H1 H2 H3 H4 H5]. split.
  - apply Forall_insert; [done|]. unfold credited. cbn. lia.
  - unfold amounts_of in *. rewrite (zsum_insert _ _ _ _ _ Hc). unfold credited. cbn. lia.
  - unfold reserved_of in *. rewrite (zsum_insert _ _ _ _ _ Hc). unfold credited. cbn. lia.
  - lia.
  - unfold addresses_of in *. rewrite list_fmap_insert.
    by rewrite list_insert_id by (rewrite list_lookup_fmap, Hc; done).
Qed.

Lemma addresses_with_entry a cs : addresses_of cs ⊆ addresses_of (with_entry a cs).
Proof. unfold with_entry, addresses_of. case_bool_decide; [done|]. rewrite fmap_app. set_solver. Qed.

Lemma addresses_credited v stake cs p c x :
  cs !! p = Some c -> addresses_of (<[p := credited v stake c x]> cs) = addresses_of cs.
Proof.
  intros Hc. unfold addresses_of. rewrite list_fmap_insert.
  by rewrite list_insert_id by (rewrite list_lookup_fmap, Hc; done).
Qed.

(** An accepted contribution keeps the books. *)
Lemma contribute_stakes_ok v h i stake info info' :
  stakes_ok info -> is_u64 (sc_transferred stake) -> 0 <= h < 2 ^ 62 ->
  contribute v h i stake info = Some info' -> stakes_ok info'.
Proof.
  intros H Ht Hh. unfold contribute. do 5 (case_match; [done|]). fold (scan_of (sc_address stake) (contributors info)).
  destruct (apply_contribution_exact v h i stake info H Ht Hh)
    as (p & c & t & Hc & Ha & Htt & _ & _ & _ & ->). intros [= <-].
  pose proof (books_with_entry _ _ _ _ (sc_address stake) (so_books _ H)) as Hb.
  destruct (books_entry _ _ _ _ _ _ Hb Hc) as [Hc1 _]. pose proof (bk_limit _ _ _ _ Hb).
  unfold is_u64 in Ht. split; cbn; [apply H| |  |apply H].
  - apply books_credit; [done..|]. lia.
  - rewrite addresses_credited by done. apply addresses_with_entry. apply H.
Qed.

(** ** Registrations *)

(** The integers of a registration are 64-bit. *)
Definition registration_typed (tx : transaction) : Prop :=
  forall r, extra_register (extra tx) = Some r -> Forall is_u64 (reg_tx_amounts r) /\ is_u64 (reg_tx_fee r).

Definition reserve_of (uses_portions : bool) (req amount : Z) : Z :=
  if uses_portions then amount * req / STAKING_PORTIONS else amount.

Lemma check_portions_total v i reserved remaining portions :
  Forall is_u64 portions -> is_u64 remaining ->
  check_portions_loop v i reserved remaining portions = true -> zsum portions <= remaining.
Proof.
  intros Hp. revert i reserved remaining. induction Hp as [|p l Hp Hl IH]; intros i r m Hm H.
  { cbn. width. }
  cbn [check_portions_loop] in H. do 2 (case_match; [done|]). bool_hyps.
  apply IH in H; [|apply u64_range]. rewrite u64_small in H by width. cbn. fold (zsum l). lia.
Qed.

Lemma reserve_contributors_spec up req reserved total cs total' :
  Forall (fun r => 0 <= reserve_of up req r < 2 ^ 64) reserved.*2 -> 0 <= total ->
  total + zsum (reserve_of up req <$> reserved.*2) < 2 ^ 64 ->
  reserve_contributors up req reserved total = Some (cs, total') ->
  cs = (fun r => new_contributor_entry (reserve_of up req r.2) r.1) <$> reserved /\
  NoDup reserved.*1 /\ total' = total + zsum (reserve_of up req <$> reserved.*2).
Proof.
  revert total cs total'. induction reserved as [|[a x] l IH]; intros total cs total' Hr H0 Hs H.
  { injection H as <- <-. cbn. split_and!; [done|constructor|lia]. }
  cbn [fmap list_fmap snd fst] in *. inversion_clear Hr as [|? ? Hx Hl].
  cbn [zsum foldr] in Hs. fold (zsum (reserve_of up req <$> l.*2)) in Hs.
  assert (0 <= zsum (reserve_of up req <$> l.*2)).
  { clear -Hl. unfold zsum. induction Hl; cbn in *; lia. }
  cbn [reserve_contributors] in H. case_bool_decide as Hin; [done|].
  replace (if up then Int128.mul128_div64 x req STAKING_PORTIONS else x) with (reserve_of up req x) in H
    by (unfold reserve_of, Int128.mul128_div64 in *; destruct up; [by rewrite u64_small by (unfold is_u64; lia)|done]).
  rewrite u64_small in H by (unfold is_u64; lia).
  destruct (reserve_contributors up req l _) as [[cs2 t2]|] eqn:E; cbn in H; [|done].
  injection H as <- <-. destruct (IH (total + reserve_of up req x) _ _ Hl ltac:(lia) ltac:(lia) E) as (-> & Hnd & ->).
  cbn [zsum foldr]. fold (zsum (reserve_of up req <$> l.*2)).
  split_and!; [done|by constructor|lia].
Qed.

(** What the validation establishes of the reserved amounts. *)
Lemma validate_registration_total v nt req ts reg :
  0 < req < 2 ^ 64 -> v < feature_ETH_TRANSITION -> Forall is_u64 (rd_reserved reg).*2 -> is_u64 (rd_fee reg) ->
  validate_registration v nt req ts reg = true ->
  rd_reserved reg <> [] /\
  Forall (fun r => 0 <= reserve_of (rd_uses_portions reg) req r < 2 ^ 64) (rd_reserved reg).*2 /\
  zsum (reserve_of (rd_uses_portions reg) req <$> (rd_reserved reg).*2) <= req /\
  (hf19_reward_batching <= v ->
     rd_uses_portions reg = false /\ check_service_node_stakes v req (rd_reserved reg).*2 = true) /\
  (if rd_uses_portions reg then rd_fee reg <= STAKING_PORTIONS else rd_fee reg <= STAKING_FEE_BASIS).
Proof.
  intros Hreq Hv Hall Hfee. unfold validate_registration.
  destruct (Z.eqb_spec v feature_ETH_TRANSITION); [lia|].
  destruct (if rd_uses_portions reg then _ else _) eqn:Hhf; [done|].
  rewrite (proj2 (Z.leb_gt feature_ETH_BLS v)) by (unfold feature_ETH_TRANSITION, hf20_eth_transition, feature_ETH_BLS, hf21_eth in *; lia).
  cbn [andb]. case_bool_decide as Hne; [done|]. destruct (_ <? _) eqn:Hlen; [done|].
  unfold reserve_of. destruct (rd_uses_portions reg) eqn:Hup.
  - destruct (Z.leb_spec (rd_fee reg) STAKING_PORTIONS) as [Hf|]; [|done]. cbn [negb].
    destruct (check_service_node_portions _ _) eqn:Hck; [|done]. cbn [negb]. intros _.
    assert (zsum (rd_reserved reg).*2 <= STAKING_PORTIONS) as Hsum.
    { unfold check_service_node_portions in Hck. do 2 (case_match; [done|]).
      eapply check_portions_total; [exact Hall| |exact Hck]. cbv; split; congruence. }
    split; [done|]. split; [|split].
    + apply Forall_forall. intros x Hx.
      pose proof (amount_le_sum x _ Hall Hx) as Hxs.
      assert (0 <= x * req / STAKING_PORTIONS <= req); [|lia].
      unfold STAKING_PORTIONS in *. split; [apply Z.div_pos; nia|]. apply Z.div_le_upper_bound; nia.
    + pose proof (floors_sum req STAKING_PORTIONS (rd_reserved reg).*2 eq_refl ltac:(lia) Hall) as [Hfl _].
      unfold floors in Hfl. unfold STAKING_PORTIONS in *. nia.
    + split; [|done]. intros H19. bool_hyps. lia.
  - destruct (Z.leb_spec (rd_fee reg) STAKING_FEE_BASIS) as [Hf|]; [|done]. cbn [negb].
    destruct (check_service_node_stakes _ _ _) eqn:Hck; [|done]. cbn [negb]. intros _.
    pose proof (check_service_node_stakes_total v req (rd_reserved reg).*2 Hall ltac:(unfold is_u64; lia) Hck) as Hsum.
    split; [done|]. split; [|split; [|split; [|done]]].
    + eapply Forall_impl; [exact Hall|]. intros x Hx. width.
    + change (fun amount : Z => amount) with (@id Z). by rewrite list_fmap_id.
    + done.
Qed.

Lemma extracted_typed tx reg :
  registration_typed tx -> reg_tx_extract_fields tx = Some reg ->
  Forall is_u64 (rd_reserved reg).*2 /\ is_u64 (rd_fee reg).
Proof.
  unfold reg_tx_extract_fields, registration_typed. intros Ht H.
  destruct (extra_register _) as [r|]; cbn in H; [|done]. case_match; [done|].
  destruct (extra_service_node_pubkey _) as [k|]; cbn in H; [|done]. injection H as <-. cbn.
  destruct (Ht r eq_refl) as [Ha Hf]. split; [|done]. unfold zip_reserved.
  apply Forall_forall. intros x Hx. rewrite Forall_forall in Ha. apply Ha.
  apply list_elem_of_fmap in Hx as ([a y] & -> & Hin). cbn. change y with (a, y).2.
  by eapply elem_of_zip_r.
Qed.

Lemma registered_stakes_ok netconf v h i req reg operator x :
  0 < req < 2 ^ 64 -> head (rd_reserved reg) = Some (operator, x) -> NoDup (rd_reserved reg).*1 ->
  Forall (fun r => 0 <= reserve_of (rd_uses_portions reg) req r < 2 ^ 64) (rd_reserved reg).*2 ->
  zsum (reserve_of (rd_uses_portions reg) req <$> (rd_reserved reg).*2) <= req -> is_u64 (rd_fee reg) ->
  (if rd_uses_portions reg then rd_fee reg <= STAKING_PORTIONS else rd_fee reg <= STAKING_FEE_BASIS) ->
  stakes_ok (registered_info netconf v h i req reg operator
    ((fun r => new_contributor_entry (reserve_of (rd_uses_portions reg) req r.2) r.1) <$> rd_reserved reg)
    (zsum (reserve_of (rd_uses_portions reg) req <$> (rd_reserved reg).*2))).
Proof.
  intros Hreq Hop Hnd Hr Hsum Hu Hfee.
  split; cbn [staking_requirement contributors total_contributed total_reserved operator_address
    portions_for_operator registered_info]; [done| | |].
  - split; [| | |done|].
    + apply Forall_forall. intros c (r & -> & Hin)%list_elem_of_fmap. cbn.
      rewrite Forall_forall in Hr. specialize (Hr r.2 ltac:(by apply list_elem_of_fmap_2)). lia.
    + unfold amounts_of. rewrite <- list_fmap_compose. clear. unfold zsum. by induction (rd_reserved reg).
    + unfold reserved_of. by rewrite <- !list_fmap_compose.
    + unfold addresses_of. by rewrite <- list_fmap_compose.
  - apply head_Some_elem_of in Hop. unfold addresses_of. rewrite <- list_fmap_compose.
    change operator with (operator, x).1. by apply list_elem_of_fmap_2.
  - unfold is_u64, STAKING_PORTIONS, STAKING_FEE_BASIS, Int128.mul128_div64 in *.
    destruct (rd_uses_portions reg); [lia|]. rewrite u64_small by (unfold is_u64; lia). lia.
Qed.

Section Handlers.
Context (fk : list hard_fork).
Context (cn_fast_hash : bytes -> bytes).
Context (check_signature : bytes -> bytes -> bytes -> bool).
Context (check_key : bytes -> bool).
Context (ed25519_verify : bytes -> bytes -> bytes -> bool).
Context (snpk_to_xpk : bytes -> bytes).
Context (generate_key_derivation : bytes -> bytes -> option bytes).
Context (derive_public_key : bytes -> Z -> bytes -> option bytes).
Context (derivation_to_scalar : bytes -> Z -> bytes).
Context (decodeRctSimple decodeRct : bytes -> bytes -> Z -> option Z).
Context (check_key_image_signature : bytes -> bytes -> bytes -> bool).

Abbreviation stake_of_tx := (tx_get_staking_components_and_amounts generate_key_derivation
  derive_public_key derivation_to_scalar decodeRctSimple decodeRct check_key_image_signature).
Abbreviation registration_of_tx := (is_registration_tx cn_fast_hash check_signature check_key
  ed25519_verify generate_key_derivation derive_public_key derivation_to_scalar decodeRctSimple
  decodeRct check_key_image_signature).
Abbreviation register_tx := (process_registration_tx fk cn_fast_hash check_signature check_key
  ed25519_verify snpk_to_xpk generate_key_derivation derive_public_key derivation_to_scalar
  decodeRctSimple decodeRct check_key_image_signature).
Abbreviation contribute_tx := (process_contribution_tx generate_key_derivation derive_public_key
  derivation_to_scalar decodeRctSimple decodeRct check_key_image_signature).

Lemma stake_outputs_u64 tx d k indexes proofs transferred locked :
  is_u64 transferred ->
  is_u64 (stake_outputs derive_public_key derivation_to_scalar decodeRctSimple decodeRct
            check_key_image_signature tx d k indexes proofs transferred locked).1.
Proof using Type.
  revert proofs transferred locked. induction indexes as [|i l IH]; intros ps t locked Ht; cbn; [done|].
  repeat case_match; apply IH; done || apply u64_range.
Qed.

Lemma locked_outputs_u64 nt h tx d indexes transferred t :
  is_u64 transferred ->
  locked_outputs derivation_to_scalar decodeRctSimple decodeRct nt h tx d indexes transferred = Some t ->
  is_u64 t.
Proof using Type.
  revert transferred. induction indexes as [|i l IH]; intros t0 Ht H; cbn in H; [by injection H as <-|].
  destruct (if _ <=? _ then _ else _) as [u|]; cbn in H; [|done].
  destruct (staking_num_lock_blocks nt) as [lock|]; cbn in H; [|done].
  case_match; (eapply IH; [|exact H]); done || apply u64_range.
Qed.

Lemma stake_of_tx_u64 nt v tx h stake :
  stake_of_tx nt v tx h = Some (Some stake) -> is_u64 (sc_transferred stake).
Proof using Type.
  unfold tx_get_staking_components_and_amounts. intros H.
  destruct (tx_get_staking_components tx) as [[[pk a] key]|]; [|done].
  destruct (generate_key_derivation _ _) as [d|]; [|done]. case_match.
  - destruct (extra_key_image_proofs _) as [ps|]; [|done].
    destruct (stake_outputs _ _ _ _ _ _ _ _ _ _ _ _) as [t locked] eqn:E. injection H as <-. cbn.
    change t with (t, locked).1. rewrite <- E. apply stake_outputs_u64. done.
  - destruct (locked_outputs _ _ _ _ _ _ _ _ _) as [t|] eqn:E; cbn in H; [|done].
    injection H as <-. cbn. by eapply locked_outputs_u64; [|exact E].
Qed.

(** The record of a valid registration. *)
Lemma registration_record nt v tx ts h i req key info :
  0 < req < 2 ^ 64 -> registration_typed tx ->
  registration_of_tx nt v tx ts h i req = Some (Some (key, info)) ->
  stakes_ok info /\
  exists reg netconf operator,
    reg_tx_extract_fields tx = Some reg /\ validate_registration v nt req ts reg = true /\
    v < feature_ETH_TRANSITION /\ Forall is_u64 (rd_reserved reg).*2 /\ is_u64 (rd_fee reg) /\
    info = registered_info netconf v h i req reg operator
      ((fun r => new_contributor_entry (reserve_of (rd_uses_portions reg) req r.2) r.1) <$> rd_reserved reg)
      (zsum (reserve_of (rd_uses_portions reg) req <$> (rd_reserved reg).*2)).
Proof using Type.
  clear fk snpk_to_xpk.
  intros Hreq Ht. unfold is_registration_tx.
  destruct (reg_tx_extract_fields tx) as [reg|] eqn:Ereg; [|done].
  destruct (extracted_typed _ _ Ht Ereg) as [Ha Hf].
  destruct (Z.leb_spec feature_ETH_TRANSITION v) as [|Hv]; [done|].
  destruct (validate_registration v nt req ts reg) eqn:Hval; [|done]. cbn [negb].
  destruct (validate_registration_signature _ _ _ _ reg); [|done]. cbn [negb].
  destruct (stake_of_tx nt v tx h) as [[stake|]|]; cbn [mbind option_bind]; [|done..].
  destruct (validate_registration_total _ _ _ _ _ Hreq Hv Ha Hf Hval) as (Hne & Hr & Hsum & _ & Hfee).
  destruct (head (rd_reserved reg)) as [[operator x]|] eqn:Eop; cbn [mbind option_bind]; [|done].
  destruct (registration_stake_ok _ _ _ _ _); cbn [negb]; [|done].
  destruct (get_config nt) as [netconf|]; cbn [mbind option_bind]; [|done].
  destruct (reserve_contributors _ _ _ _) as [[cs total]|] eqn:Ecs; [|done].
  apply reserve_contributors_spec in Ecs as (-> & Hnd & ->); [|done|lia|lia].
  destruct (head (_ <$> _)) as [c0|]; cbn [mbind option_bind]; [|done].
  destruct (_ && _); [done|]. intros [= <- <-]. rewrite Z.add_0_l. split.
  - by eapply registered_stakes_ok.
  - by exists reg, netconf, operator.
Qed.

(** ** Transactions on the whole list *)

(** State changes and unlocks leave the stakes of the nodes alone. *)
Definition same_stakes (info info' : service_node_info) : Prop :=
  contributors info' = contributors info /\ total_contributed info' = total_contributed info /\
  total_reserved info' = total_reserved info /\ staking_requirement info' = staking_requirement info /\
  operator_address info' = operator_address info /\
  portions_for_operator info' = portions_for_operator info.

Definition stakes_kept (st st' : state_t) : Prop :=
  st_staking_requirement st' = st_staking_requirement st /\
  forall key info', service_nodes_infos st' !! key = Some info' ->
    exists info, service_nodes_infos st !! key = Some info /\ same_stakes info info'.

Lemma stakes_kept_refl st : stakes_kept st st.
Proof using Type. split; [done|]. intros key info H. exists info. by repeat split. Qed.

Lemma stakes_kept_update st key info info' :
  service_nodes_infos st !! key = Some info -> same_stakes info info' ->
  stakes_kept st (with_infos st (<[key := info']> (service_nodes_infos st))).
Proof using Type.
  intros Hi Hs. split; [done|]. intros k x Hx. cbn in Hx.
  apply lookup_insert_Some in Hx as [[<- <-]|[_ Hx]]; [by exists info|].
  exists x. by repeat split.
Qed.

Lemma erase_info_kept st nl key info t st' :
  erase_info fk snpk_to_xpk st nl key info t = Some st' -> stakes_kept st st'.
Proof using Type.
  unfold erase_info. intros H.
  destruct (if is_hard_fork_at_least _ _ _ _ then _ else _) as [st1|] eqn:E; [|done].
  cbn [mbind option_bind] in H. injection H as <-.
  assert (service_nodes_infos st1 = service_nodes_infos st /\
    st_staking_requirement st1 = st_staking_requirement st) as [E1 E2].
  { destruct (is_hard_fork_at_least _ _ _ _); [|by injection E as <-].
    destruct (_ || _); [by injection E as <-|].
    destruct (match _ with Some _ => _ | None => _ end) as [[ip port] version].
    destruct (get_config _); cbn in E; [|done]. by injection E as <-. }
  split; [done|]. cbn. rewrite E1. intros k x Hx.
  apply lookup_delete_Some in Hx as [_ Hx]. exists x. by repeat split.
Qed.

Lemma apply_state_change_kept nt b sc key info st nl r st' nl' :
  service_nodes_infos st !! key = Some info ->
  apply_state_change fk snpk_to_xpk nt b sc key info st nl = Some (r, st', nl') -> stakes_kept st st'.
Proof using Type.
  intros Hi. unfold apply_state_change. case_match.
  { destruct (if _ <=? _ then _ else _) as [s1|] eqn:E1; cbn [mbind option_bind]; [|done].
    destruct (erase_info _ _ s1 _ _ _ _) as [s2|] eqn:E2; cbn [mbind option_bind]; [|done].
    intros [= _ <- _]. apply erase_info_kept in E2.
    assert (service_nodes_infos s1 = service_nodes_infos st /\
      st_staking_requirement s1 = st_staking_requirement st) as [Ea Eb].
    { case_match; [|by injection E1 as <-].
      destruct (get_config nt); cbn in E1; [|done]. by injection E1 as <-. }
    unfold stakes_kept in *. by rewrite <- Ea, <- Eb. }
  repeat (case_match; try (by intros [= _ <- _]; apply stakes_kept_refl);
    try (intros [= _ <- _]; by eapply stakes_kept_update)).
  all: unfold recommission_info; destruct (calculate_decommission_credit _ _ _); cbn [mbind option_bind]; try done.
  all: try (intros [= _ <- _]; by eapply stakes_kept_update).
Qed.

Lemma state_change_kept hist arch alts nt b tx st nl r st' nl' :
  process_state_change_tx fk cn_fast_hash check_signature snpk_to_xpk hist arch alts nt b tx st nl
    = Some (r, st', nl') -> stakes_kept st st'.
Proof using Type.
  unfold process_state_change_tx. case_match; [by intros [= _ <- _]; apply stakes_kept_refl|].
  destruct (extra_state_change _ _) as [sc|]; [|by intros [= _ <- _]; apply stakes_kept_refl].
  destruct (find_quorums _ _ _ _ _ _ _ _) as [[m|]|]; cbn [mbind option_bind]; [| |done].
  2: by intros [= _ <- _]; apply stakes_kept_refl.
  destruct (qm_obligations m) as [q|]; cbn [mbind option_bind]; [|done].
  destruct (get_pubkey_from_quorum _ _ _) as [key|]; [|by intros [= _ <- _]; apply stakes_kept_refl].
  destruct (service_nodes_infos st !! key) as [info|] eqn:Ei;
    [|by intros [= _ <- _]; apply stakes_kept_refl].
  by apply apply_state_change_kept.
Qed.

Lemma unlock_kept nt v h tx st r st' :
  process_key_image_unlock_tx check_signature nt v h tx st = Some (r, st') -> stakes_kept st st'.
Proof using Type.
  unfold process_key_image_unlock_tx. case_match; [by intros [= _ <-]; apply stakes_kept_refl|].
  destruct (extra_service_node_pubkey _) as [key|]; [|by intros [= _ <-]; apply stakes_kept_refl].
  destruct (service_nodes_infos st !! key) as [info|] eqn:Ei; [|by intros [= _ <-]; apply stakes_kept_refl].
  case_match; [by intros [= _ <-]; apply stakes_kept_refl|].
  destruct (extra_key_image_unlock _) as [u|]; [|by intros [= _ <-]; apply stakes_kept_refl].
  destruct (get_config nt); cbn [mbind option_bind]; [|done].
  destruct (find_contribution _ _) as [cit|]; [|by intros [= _ <-]; apply stakes_kept_refl].
  destruct (_ && _); [by intros [= _ <-]; apply stakes_kept_refl|].
  destruct (check_signature _ _ _); intros [= _ <-]; [|apply stakes_kept_refl].
  by eapply stakes_kept_update.
Qed.

Lemma same_stakes_ok info info' : same_stakes info info' -> stakes_ok info -> stakes_ok info'.
Proof using Type.
  intros (E1 & E2 & E3 & E4 & E5 & E6) [S1 S2 S3 S4]. split; rewrite ?E1, ?E2, ?E3, ?E4, ?E5, ?E6; done.
Qed.

Lemma staking_requirement_range nt st limit :
  OXEN_STAKING_REQUIREMENT < limit -> 0 <= st_staking_requirement st < limit ->
  0 < get_staking_requirement fk nt st < limit.
Proof using Type.
  clear derive_public_key derivation_to_scalar decodeRctSimple decodeRct.
  intros Hl H. unfold get_staking_requirement. destruct (_ && _) eqn:E; [bool_hyps; lia|].
  assert (0 < get_default_staking_requirement_at fk nt (st_height st) <= OXEN_STAKING_REQUIREMENT); [|lia].
  unfold get_default_staking_requirement_at, get_default_staking_requirement.
  repeat case_match; vm_compute; split; congruence.
Qed.

Lemma insert_info_infos st nl key info :
  service_nodes_infos (insert_info fk snpk_to_xpk st nl key info) = <[key := info]> (service_nodes_infos st) /\
  st_staking_requirement (insert_info fk snpk_to_xpk st nl key info) = st_staking_requirement st.
Proof using Type. unfold insert_info. destruct nl; [|done]. by case_match. Qed.

(** One transaction of a block whose version satisfies [vok], or bookkeeping that touches
    neither nodes nor requirement. *)
Inductive tx_step (vok : hf -> Prop) (st st' : state_t) : Prop :=
| step_registration nt b tx i nl r nl' :
    vok (major_version b) -> registration_typed tx ->
    register_tx nt b tx i st nl = Some (r, st', nl') -> tx_step vok st st'
| step_contribution nt b tx i r :
    vok (major_version b) -> 0 <= b_height b < 2 ^ 62 ->
    contribute_tx nt b tx i st = Some (r, st') -> tx_step vok st st'
| step_state_change hist arch alts nt b tx nl r nl' :
    process_state_change_tx fk cn_fast_hash check_signature snpk_to_xpk hist arch alts nt b tx st nl
      = Some (r, st', nl') -> tx_step vok st st'
| step_unlock nt v h tx r :
    process_key_image_unlock_tx check_signature nt v h tx st = Some (r, st') -> tx_step vok st st'
| step_block :
    service_nodes_infos st' = service_nodes_infos st ->
    st_staking_requirement st' = st_staking_requirement st -> tx_step vok st st'.

(** A further property [Q] of the nodes that registrations establish and contributions keep
    holds in every reachable state. *)
Section Invariant.
Context (vok : hf -> Prop) (limit : Z) (Q : service_node_info -> Prop).
Context (Hlimit : OXEN_STAKING_REQUIREMENT < limit <= 2 ^ 64).
Context (HQ_registration : forall nt v tx ts h i req key info,
  vok v -> 0 < req < limit -> registration_typed tx ->
  registration_of_tx nt v tx ts h i req = Some (Some (key, info)) -> Q info).
Context (HQ_contribution : forall v h i stake info info',
  vok v -> 0 <= h < 2 ^ 62 -> is_u64 (sc_transferred stake) -> v < feature_ETH_BLS ->
  stakes_ok info -> Q info -> contribute v h i stake info = Some info' -> Q info').
Context (HQ_same : forall info info', same_stakes info info' -> Q info -> Q info').

Definition node_funds (info : service_node_info) : Prop := stakes_ok info /\ Q info.

Record funds_ok (st : state_t) : Prop := {
  fo_nodes : map_Forall (fun _ info => node_funds info) (service_nodes_infos st);
  fo_requirement : 0 <= st_staking_requirement st < limit;
}.

Lemma funds_ok_insert st st' key info :
  funds_ok st -> node_funds info -> service_nodes_infos st' = <[key := info]> (service_nodes_infos st) ->
  st_staking_requirement st' = st_staking_requirement st -> funds_ok st'.
Proof using Type.
  intros [H1 H2] Hi E1 E2. split; [|by rewrite E2]. rewrite E1. by apply map_Forall_insert_2.
Qed.

Lemma node_funds_same info info' : same_stakes info info' -> node_funds info -> node_funds info'.
Proof using HQ_same. intros Hs [H1 H2]. split; [by eapply same_stakes_ok|by eapply HQ_same]. Qed.

Lemma stakes_kept_funds_ok st st' : stakes_kept st st' -> funds_ok st -> funds_ok st'.
Proof using HQ_same.
  intros [Hr Hk] [H1 H2]. split; [|by rewrite Hr]. intros key info' Hi.
  destruct (Hk key info' Hi) as (info & Hinfo & Hs). eapply node_funds_same; [done|by eapply H1].
Qed.

Lemma register_funds_ok nt b tx i st nl r st' nl' :
  funds_ok st -> vok (major_version b) -> registration_typed tx ->
  register_tx nt b tx i st nl = Some (r, st', nl') -> funds_ok st'.
Proof using Hlimit HQ_registration HQ_same.
  intros H Hv Ht. unfold process_registration_tx.
  destruct (registration_of_tx _ _ _ _ _ _ _) as [[[key info]|]|] eqn:E; cbn [mbind option_bind];
    [|by intros [= _ <- _]|done].
  pose proof (staking_requirement_range nt st limit ltac:(lia) (fo_requirement _ H)) as Hr.
  assert (node_funds info) as Hok.
  { split; [|by eapply HQ_registration].
    apply registration_record in E as [Hok _]; [done|lia|done]. }
  assert (forall nl2 info', node_funds info' -> funds_ok (insert_info fk snpk_to_xpk st nl2 key info')) as Hins.
  { intros nl2 info' Hi. destruct (insert_info_infos st nl2 key info'). by eapply funds_ok_insert. }
  case_match.
  - destruct (service_nodes_infos st !! key); intros [= _ <- _]; [done|by apply Hins].
  - destruct (service_nodes_infos st !! key) as [old|]; [|intros [= _ <- _]; by apply Hins].
    case_match; [|by intros [= _ <- _]].
    destruct (staking_num_lock_blocks nt) as [lock|]; cbn [mbind option_bind]; [|done].
    case_match; intros [= _ <- _]; [done|]. apply Hins. by eapply node_funds_same; [|exact Hok].
Qed.

Lemma contribute_funds_ok nt b tx i st r st' :
  funds_ok st -> vok (major_version b) -> 0 <= b_height b < 2 ^ 62 ->
  contribute_tx nt b tx i st = Some (r, st') -> funds_ok st'.
Proof using HQ_contribution.
  intros H Hv Hh. unfold process_contribution_tx.
  destruct (Z.leb_spec feature_ETH_BLS (major_version b)); [by intros [= _ <-]|].
  destruct (stake_of_tx _ _ _ _) as [[stake|]|] eqn:E; cbn [mbind option_bind];
    [|by intros [= _ <-]|done].
  apply stake_of_tx_u64 in E.
  destruct (service_nodes_infos st !! _) as [info|] eqn:Ei; [|by intros [= _ <-]].
  destruct (contribute _ _ _ _ _) as [info'|] eqn:Ec; intros [= _ <-]; [|done].
  eapply funds_ok_insert; [done| |done..]. apply (fo_nodes _ H) in Ei as [Hi1 Hi2].
  split; [by eapply contribute_stakes_ok|by eapply HQ_contribution].
Qed.

Lemma reachable_funds_ok st st' : rtc (tx_step vok) st st' -> funds_ok st -> funds_ok st'.
Proof using Hlimit HQ_registration HQ_contribution HQ_same.
  induction 1 as [|st st1 st2 Hs _ IH]; [done|]. intros H. apply IH.
  destruct Hs as [????????? | | | |E1 E2].
  - by eapply register_funds_ok.
  - by eapply contribute_funds_ok.
  - eapply stakes_kept_funds_ok; [by eapply state_change_kept|done].
  - eapply stakes_kept_funds_ok; [by eapply unlock_kept|done].
  - destruct H as [H1 H2]. split; [by rewrite E1|by rewrite E2].
Qed.
End Invariant.

End Handlers.

(** From HF19 up to the transition to the L2: amount-based registrations with 11 slots. *)
Definition modern (v : hf) : Prop := hf19_reward_batching <= v < feature_ETH_TRANSITION.

(** ** Concrete transactions *)

(** Ring signatures that list the amounts, and keys derived from the output's index. *)
Definition demo_decode (sig _ : bytes) (i : Z) : option Z := sig !! Z.to_nat i.
Definition demo_derive (_ : bytes) (i : Z) (_ : bytes) : option bytes := Some [i].
Definition demo_address (i : Z) : account_public_address := AccountAddress [i] [i].

Definition demo_stake_tx (staker amount image : Z) (reg : option tx_extra_service_node_register)
    : transaction :=
  Transaction txtype_stake [image] (TxOutputs 4 0 [] [Some [0]] RctCLSAG [amount])
    (TxExtra (fun _ => None) (Some [2]) None reg (Some (demo_address staker)) (Some [])
       (Some [KeyImageProof [image] []]) None).

(** The operator reserves 120000 and a partner 40000 of the requirement of 200000. *)
Definition demo_registration : tx_extra_service_node_register :=
  SnRegister [[1]; [2]] [[1]; [2]] 500 [120000 * COIN; 40000 * COIN] 22 [].

Abbreviation demo_register := (process_registration_tx [] (fun b => b) (fun _ _ _ => true)
  (fun _ => true) (fun _ _ _ => true) (fun k => k) (fun _ _ => Some []) demo_derive (fun _ _ => [])
  demo_decode demo_decode (fun _ _ _ => true)).
Abbreviation demo_contribute := (process_contribution_tx (fun _ _ => Some []) demo_derive
  (fun _ _ => []) demo_decode demo_decode (fun _ _ _ => true)).
Abbreviation demo_step := (tx_step [] (fun b => b) (fun _ _ _ => true) (fun _ => true)
  (fun _ _ _ => true) (fun k => k) (fun _ _ => Some []) demo_derive (fun _ _ => []) demo_decode
  demo_decode (fun _ _ _ => true) modern).

Definition no_nodes : state_t :=
  State ∅ [] ∅ ∅ 99 (QuorumManager None None None None) [] 0 [] [] [].
Definition demo_block : block := plain_block hf22_sn_policy 100 0.

(** The operator's registration and stake, the partner's reserved stake, and an open
    contribution of more than is left. *)
Definition demo_reg_tx : transaction := demo_stake_tx 1 (120000 * COIN) 1 (Some demo_registration).
Definition demo_registered : state_t :=
  from_option (fun r => r.1.2) no_nodes (demo_register MAINNET demo_block demo_reg_tx 0 no_nodes None).
Definition demo_contributed (staker amount index : Z) (st : state_t) : state_t :=
  from_option snd st
    (demo_contribute MAINNET demo_block (demo_stake_tx staker (amount * COIN) index None) index st).
Definition demo_half : state_t := demo_contributed 2 40000 2 (demo_contributed 1 120000 1 demo_registered).
Definition demo_funded : state_t := demo_contributed 3 40100 3 demo_half.

Example demo_funded_node :
  (fun i => (is_active i, amounts_of (contributors i), total_contributed i)) <$>
    (service_nodes_infos demo_funded !! [2]) =
  Some (true, [120000 * COIN; 40000 * COIN; 40000 * COIN], 200000 * COIN).
Proof. vm_compute. reflexivity. Qed.

Lemma demo_register_step : demo_step no_nodes demo_registered.
Proof.
  apply (step_registration _ _ _ _ _ _ _ _ _ _ _ _ _ _ _ MAINNET demo_block demo_reg_tx 0 None true None).
  - by vm_compute.
  - intros r [= <-]. cbn. split; [repeat constructor; by vm_compute|by vm_compute].
  - vm_compute. reflexivity.
Qed.

Lemma demo_contribute_step staker amount index st :
  is_Some (demo_contribute MAINNET demo_block (demo_stake_tx staker (amount * COIN) index None) index st) ->
  demo_step st (demo_contributed staker amount index st).
Proof.
  intros [[r st'] H]. unfold demo_contributed. rewrite H.
  by eapply (step_contribution _ _ _ _ _ _ _ _ _ _ _ _ _ _ _ MAINNET demo_block).
Qed.

Lemma demo_half_run : rtc demo_step no_nodes demo_half.
Proof.
  eapply rtc_l; [exact demo_register_step|]. unfold demo_half.
  eapply rtc_l; [apply (demo_contribute_step 1 120000 1); vm_compute; by eexists|].
  apply rtc_once, (demo_contribute_step 2 40000 2). vm_compute. by eexists.
Qed.

Lemma demo_funding_run : rtc demo_step no_nodes demo_funded.
Proof.
  eapply rtc_r; [exact demo_half_run|]. apply demo_contribute_step. vm_compute. by eexists.
Qed.

Lemma reachable_payouts info :
  stakes_ok info -> is_fully_funded info = true ->
  STAKING_PORTIONS - Z.of_nat (length (contributors info))
    < zsum (snd <$> service_node_payout_portions info) <= STAKING_PORTIONS.
Proof.
  intros H Hf. pose proof (funded_exactly info H Hf) as Hs. destruct H as [H1 H2 H3 H4].
  apply payout_total; try done; try lia; [|apply H2].
  apply Forall_forall. intros x (c & -> & (p & Hp)%list_elem_of_lookup)%list_elem_of_fmap.
  pose proof (books_entry _ _ _ _ _ _ H2 Hp). pose proof (bk_limit _ _ _ _ H2). unfold is_u64. lia.
Qed.

(** (C21) The stake records are well-formed in every state reached by registrations,
    contributions, state changes and unlock requests from an empty list: each contributor's
    amount is within its reservation, the two totals are the sums over the contributors
    without overflow, reservations never exceed the requirement, no address appears twice
    and the operator is a contributor.  Hence a fully funded node holds exactly its
    requirement and its payout portions add up to the whole, less than one portion per
    contributor lost to rounding. *)
Theorem stakes_well_formed fk cn_fast_hash check_signature check_key ed25519_verify snpk_to_xpk
    derivation derive scalar decode_simple decode check_image vok st0 st key info :
  service_nodes_infos st0 = ∅ -> is_u64 (st_staking_requirement st0) ->
  rtc (tx_step fk cn_fast_hash check_signature check_key ed25519_verify snpk_to_xpk derivation
         derive scalar decode_simple decode check_image vok) st0 st ->
  service_nodes_infos st !! key = Some info ->
  stakes_ok info /\
  (is_fully_funded info = true ->
    zsum (amounts_of (contributors info)) = staking_requirement info /\
    STAKING_PORTIONS - Z.of_nat (length (contributors info))
      < zsum (snd <$> service_node_payout_portions info) <= STAKING_PORTIONS).
Proof.
  intros H0 Hr Hs Hi.
  assert (funds_ok (2 ^ 64) (fun _ => True) st0) as Hf by (split; [by rewrite H0|done]).
  eapply (reachable_funds_ok _ _ _ _ _ _ _ _ _ _ _ _ vok (2 ^ 64) (fun _ => True)) in Hs as [Hn _];
    [|split; [reflexivity|lia]|intros; exact I..|exact Hf].
  destruct (Hn key info Hi) as [Hok _]. split; [done|]. intros Hfull.
  split; [by apply funded_exactly|by apply reachable_payouts].
Qed.

Lemma stakes_well_formed_witness :
  exists info, service_nodes_infos demo_funded !! [2] = Some info /\
    zsum (amounts_of (contributors info)) = staking_requirement info /\
    STAKING_PORTIONS - Z.of_nat (length (contributors info))
      < zsum (snd <$> service_node_payout_portions info) <= STAKING_PORTIONS.
Proof.
  destruct (service_nodes_infos demo_funded !! [2]) as [info|] eqn:E; [|vm_compute in E; discriminate E].
  exists info. split; [reflexivity|].
  refine (proj2 (stakes_well_formed _ _ _ _ _ _ _ _ _ _ _ _ _ no_nodes demo_funded [2] info
    eq_refl _ demo_funding_run E) _).
  - split; vm_compute; congruence.
  - vm_compute in E. injection E as <-. reflexivity.
Defined.

(** ** Contribution slots *)

Definition locked_count (cs : list contributor_t) : Z :=
  zsum ((fun c => Z.of_nat (length (locked_contributions c))) <$> cs).

(** Slots taken by stakes made and by reservations still to be filled. *)
Definition used_slots (cs : list contributor_t) : Z := locked_count cs + num_unfilled cs.

Record slots_ok (info : service_node_info) : Prop := {
  sl_requirement : 101 * staking_requirement info < 2 ^ 64;
  sl_used : used_slots (contributors info) <= MAX_CONTRIBUTORS_HF19;
  sl_full : used_slots (contributors info) = MAX_CONTRIBUTORS_HF19 ->
            total_reserved info = staking_requirement info;
}.

Definition indicator (c : contributor_t) : Z := if decide (unfilled c) then 1 else 0.

Lemma num_unfilled_zsum cs : num_unfilled cs = zsum (indicator <$> cs).
Proof. induction cs as [|c cs IH]; [done|]. rewrite num_unfilled_cons, IH. done. Qed.

Lemma locked_count_nonneg cs : 0 <= locked_count cs.
Proof. unfold locked_count, zsum. induction cs; cbn in *; lia. Qed.
Lemma num_unfilled_nonneg cs : 0 <= num_unfilled cs.
Proof. unfold num_unfilled. lia. Qed.

Lemma total_locked_exact info :
  locked_count (contributors info) < 2 ^ 64 ->
  total_num_locked_contributions info = locked_count (contributors info).
Proof.
  unfold total_num_locked_contributions. set (cs := contributors info). clearbody cs. clear info.
  assert (forall acc, 0 <= acc -> acc + locked_count cs < 2 ^ 64 ->
    foldl (fun result c => u64 (result + Z.of_nat (length (locked_contributions c)))) acc cs =
    acc + locked_count cs) as H; [|intros Hl; rewrite H; lia].
  induction cs as [|c cs IH]; intros acc H0 Hl; [cbn; lia|].
  change (locked_count (c :: cs)) with (Z.of_nat (length (locked_contributions c)) + locked_count cs) in *.
  cbn [foldl]. pose proof (locked_count_nonneg cs).
  rewrite u64_small by (unfold is_u64; lia). rewrite IH by lia. lia.
Qed.

Lemma num_unfilled_with_entry a cs : num_unfilled (with_entry a cs) = num_unfilled cs.
Proof.
  unfold with_entry. case_bool_decide; [done|].
  rewrite num_unfilled_app, num_unfilled_cons, decide_False by apply new_entry_filled.
  change (num_unfilled []) with 0. lia.
Qed.

Lemma used_with_entry a cs : used_slots (with_entry a cs) = used_slots cs.
Proof.
  unfold used_slots. rewrite num_unfilled_with_entry. f_equal. unfold with_entry.
  case_bool_decide; [done|]. unfold locked_count. rewrite zsum_app. cbn. lia.
Qed.

Lemma indicator_range c : 0 <= indicator c <= 1.
Proof. unfold indicator. destruct (decide _); lia. Qed.

Lemma indicator_le a cs p c : with_entry a cs !! p = Some c -> indicator c <= num_unfilled cs.
Proof.
  intros Hc. rewrite <- (num_unfilled_with_entry a), num_unfilled_zsum.
  apply (zsum_lookup_le indicator _ _ _ ltac:(apply Forall_forall; intros x _; apply indicator_range) Hc).
Qed.

(** What [contribute] asks of a stake for the entry [c], from HF19 on. *)
Record acceptable (stake : staking_components) (c : contributor_t) (info : service_node_info) : Prop := {
  acc_open : is_fully_funded info = false;
  acc_single : length (sc_locked_contributions stake) = 1%nat;
  acc_slot : used_slots (contributors info) - indicator c + 1 <= MAX_CONTRIBUTORS_HF19;
  acc_min : (if decide (unfilled c) then contributor_reserved c - contributor_amount c
             else (staking_requirement info - total_reserved info)
                  / (MAX_CONTRIBUTORS_HF19 - used_slots (contributors info))) <= sc_transferred stake;
  acc_max : sc_transferred stake <=
    (staking_requirement info - total_reserved info
     + (contributor_reserved c - contributor_amount c)) * 101 / 100;
}.

(** The two limits, without wrap-around. *)
Lemma min_contribution_modern v sc info unf n :
  modern v -> 0 <= total_reserved info <= staking_requirement info -> staking_requirement info < 2 ^ 64 ->
  contr_unfilled_reserved sc = unf -> 0 <= unf ->
  0 <= other_reservations sc -> 0 <= n -> n + other_reservations sc < MAX_CONTRIBUTORS_HF19 ->
  min_contribution v n sc info =
    if 0 <? unf then unf
    else (staking_requirement info - total_reserved info)
         / (MAX_CONTRIBUTORS_HF19 - (n + other_reservations sc)).
Proof.
  unfold modern, hf19_reward_batching, feature_ETH_TRANSITION, hf20_eth_transition, MAX_CONTRIBUTORS_HF19.
  intros Hv Ht Hr <- Hu Ho Hn Hsl. unfold min_contribution, hf11_infinite_staking, hf16_pulse.
  rewrite (proj2 (Z.ltb_ge v 11)), andb_false_r, (proj2 (Z.ltb_ge v 16)) by lia.
  destruct (0 <? contr_unfilled_reserved sc); [done|]. rewrite u64_small by (unfold is_u64; lia).
  unfold get_min_node_contribution, hf11_infinite_staking, hf19_reward_batching,
    MAX_CONTRIBUTORS_HF19, feature_ETH_BLS, hf21_eth.
  rewrite (proj2 (Z.ltb_ge v 11)), (proj2 (Z.leb_le 19 v)) by lia.
  rewrite (proj2 (Z.leb_gt 11 _)), (proj2 (Z.leb_gt 24 v)) by lia.
  by rewrite u64_small by (unfold is_u64; lia).
Qed.

Lemma max_contribution_modern v req reserved unf :
  modern v -> 0 <= unf <= reserved -> reserved <= req -> 101 * req < 2 ^ 64 ->
  get_max_node_contribution v req (u64 (reserved - unf)) = (req - reserved + unf) * 101 / 100.
Proof.
  unfold modern, hf19_reward_batching, feature_ETH_TRANSITION. intros Hv Hu Hr Hq.
  unfold get_max_node_contribution, hf16_pulse. rewrite (proj2 (Z.leb_le 16 v)) by lia.
  rewrite (u64_small (reserved - _)) by (unfold is_u64; lia).
  rewrite (u64_small (req - _)), (u64_small (_ * 101)) by (unfold is_u64; lia). f_equal. lia.
Qed.

Lemma contribute_modern v h i stake info :
  modern v -> stakes_ok info -> slots_ok info -> is_u64 (sc_transferred stake) -> 0 <= h < 2 ^ 62 ->
  let cs := with_entry (sc_address stake) (contributors info) in
  let open_ := staking_requirement info - total_reserved info in
  exists p c, cs !! p = Some c /\ contributor_address c = sc_address stake /\
    let t := Z.min (contributor_reserved c - contributor_amount c + open_) (sc_transferred stake) in
    let info' := with_stake info (<[p := credited v stake c t]> cs) (total_contributed info + t)
                   (total_reserved info + Z.max 0 (contributor_amount c + t - contributor_reserved c)) h i
                   (if staking_requirement info <=? total_contributed info + t then h
                    else active_since_height info) in
    (contribute v h i stake info = Some info' /\ acceptable stake c info) \/
    (contribute v h i stake info = None /\ ~ acceptable stake c info).
Proof.
  intros Hv H [Hr Hused Hfull] Ht Hh. cbv zeta.
  destruct (apply_contribution_exact v h i stake info H Ht Hh)
    as (p & c & t & Hc & Ha & -> & Hu & Ho & _ & Happ).
  exists p, c. split; [done|]. split; [done|].
  pose proof (books_with_entry _ _ _ _ (sc_address stake) (so_books _ H)) as Hb.
  destruct (books_entry _ _ _ _ _ _ Hb Hc) as [Hc1 Hc2].
  pose proof (bk_limit _ _ _ _ Hb). pose proof (books_contributed _ _ _ _ Hb).
  pose proof (so_requirement _ H) as Hreq. pose proof (indicator_le _ _ _ _ Hc) as Hn.
  pose proof (indicator_range c) as Hi. pose proof (locked_count_nonneg (contributors info)).
  unfold MAX_CONTRIBUTORS_HF19, used_slots in *. fold (indicator c) in Ho.
  rewrite (u64_small (num_unfilled _ - _)) in Ho by (unfold is_u64; lia).
  unfold contribute. fold (scan_of (sc_address stake) (contributors info)).
  rewrite total_locked_exact, Happ by lia. clear Happ.
  destruct (is_fully_funded info) eqn:Hf; [right; split; [done|]; intros []; congruence|].
  pose proof (proj1 Hv) as Hv19. unfold hf19_reward_batching in Hv19.
  rewrite (proj2 (Z.leb_le hf16_pulse v)) by (unfold hf16_pulse; lia). cbn [andb].
  destruct (Z.eqb_spec (Z.of_nat (length (sc_locked_contributions stake))) 1) as [Hone|Hone]; cbn [negb];
    [|right; split; [done|]; intros []; lia].
  unfold too_many_contributions, hf19_reward_batching, MAX_CONTRIBUTORS_HF19.
  rewrite (proj2 (Z.leb_le 19 v)) by lia. rewrite Ho, u64_small by (unfold is_u64; lia).
  destruct (Z.ltb_spec 11 (locked_count (contributors info) + (num_unfilled (contributors info) - indicator c) + 1))
    as [Hslot|Hslot].
  { right. split; [done|]. intros [_ _ Hx _ _]. unfold used_slots, MAX_CONTRIBUTORS_HF19 in *. lia. }
  rewrite (min_contribution_modern v _ info _ _ Hv) by (exact Hu || (unfold MAX_CONTRIBUTORS_HF19; lia)).
  rewrite Hu, (max_contribution_modern v _ _ _ Hv) by lia.
  assert ((if 0 <? contributor_reserved c - contributor_amount c
           then contributor_reserved c - contributor_amount c
           else (staking_requirement info - total_reserved info)
             / (MAX_CONTRIBUTORS_HF19 - (locked_count (contributors info) + other_reservations (scan_of (sc_address stake) (contributors info))))) =
    if decide (unfilled c) then contributor_reserved c - contributor_amount c
    else (staking_requirement info - total_reserved info)
         / (MAX_CONTRIBUTORS_HF19 - used_slots (contributors info))) as ->.
  { rewrite Ho. unfold indicator, unfilled, used_slots in *.
    destruct (Z.ltb_spec 0 (contributor_reserved c - contributor_amount c));
      [rewrite decide_True by lia; done|rewrite !decide_False by lia]. f_equal. lia. }
  match goal with |- context [?a <? ?b] => destruct (Z.ltb_spec a b) as [Hmn|Hmn] end.
  { right. split; [done|]. intros [_ _ _ Hx _]. lia. }
  match goal with |- context [?a <? ?b] => destruct (Z.ltb_spec a b) as [Hmx|Hmx] end.
  { right. split; [done|]. intros [_ _ _ _ Hx]. lia. }
  left. split; [done|]. split; try done; unfold used_slots, MAX_CONTRIBUTORS_HF19 in *; lia.
Qed.

(** ** The slots last until the stake is complete *)

Lemma credited_used v stake c x cs p :
  hf11_infinite_staking <= v -> length (sc_locked_contributions stake) = 1%nat ->
  cs !! p = Some c -> contributor_reserved c <= contributor_amount c + x ->
  used_slots (<[p := credited v stake c x]> cs) = used_slots cs + 1 - indicator c /\
  num_unfilled (<[p := credited v stake c x]> cs) = num_unfilled cs - indicator c.
Proof.
  intros Hv Hl Hc Hx. unfold used_slots, locked_count. rewrite !num_unfilled_zsum.
  rewrite !(zsum_insert _ _ _ _ _ Hc).
  assert (indicator (credited v stake c x) = 0) as ->.
  { unfold indicator. rewrite decide_False; [done|]. unfold unfilled, credited. cbn. lia. }
  unfold credited. cbn [locked_contributions]. rewrite (proj2 (Z.leb_le _ _) Hv), length_app, Hl. lia.
Qed.

(** What an accepted stake credits fills the reservation it was made for. *)
Lemma acceptable_fills stake c info :
  acceptable stake c info -> total_reserved info <= staking_requirement info ->
  contributor_amount c <= contributor_reserved c -> is_u64 (sc_transferred stake) ->
  let open_ := staking_requirement info - total_reserved info in
  contributor_reserved c <= contributor_amount c +
    Z.min (contributor_reserved c - contributor_amount c + open_) (sc_transferred stake).
Proof.
  intros [_ _ _ Hmin _] Hr Ha Ht. cbv zeta. unfold unfilled, is_u64 in *.
  destruct (decide (contributor_amount c < contributor_reserved c)); lia.
Qed.

Lemma contribute_slots v h i stake info info' :
  modern v -> stakes_ok info -> slots_ok info -> is_u64 (sc_transferred stake) -> 0 <= h < 2 ^ 62 ->
  contribute v h i stake info = Some info' -> slots_ok info'.
Proof.
  intros Hv H Hs Ht Hh Hc.
  destruct (contribute_modern v h i stake info Hv H Hs Ht Hh) as (p & c & Hp & Ha & [[E Hacc]|[E _]]);
    rewrite E in Hc; [|done]. injection Hc as <-.
  pose proof (books_with_entry _ _ _ _ (sc_address stake) (so_books _ H)) as Hb.
  destruct (books_entry _ _ _ _ _ _ Hb Hp) as [Hc1 Hc2]. pose proof (bk_limit _ _ _ _ Hb) as Hl.
  pose proof (acceptable_fills _ _ _ Hacc Hl ltac:(lia) Ht) as Hfill. cbv zeta in Hfill.
  set (t := Z.min _ (sc_transferred stake)) in *.
  destruct (credited_used v stake c t _ p ltac:(destruct Hv; unfold hf19_reward_batching, hf11_infinite_staking in *; lia)
    (acc_single _ _ _ Hacc) Hp Hfill) as [Hu _].
  rewrite used_with_entry in Hu. destruct Hs as [S1 S2 S3]. destruct Hacc as [_ _ Hslot Hmin _].
  pose proof (indicator_range c).
  split; cbn [staking_requirement contributors total_reserved with_stake]; [done|lia|].
  rewrite Hu. intros H11. unfold indicator, unfilled in *. unfold MAX_CONTRIBUTORS_HF19, is_u64 in *.
  destruct (decide (contributor_amount c < contributor_reserved c)).
  - specialize (S3 ltac:(lia)). unfold t in *. lia.
  - replace (11 - used_slots (contributors info)) with 1 in Hmin by lia. rewrite Z.div_1_r in Hmin.
    unfold t in *. lia.
Qed.

(** A registration that takes all eleven slots reserves the whole requirement. *)
Lemma meets_minimums_full v req i reserved stakes :
  modern v -> is_u64 req -> Forall is_u64 stakes -> 1 <= i -> i + Z.of_nat (length stakes) = 11 ->
  stakes <> [] -> 0 <= reserved -> reserved + zsum stakes <= req ->
  meets_minimums v req i reserved stakes -> reserved + zsum stakes = req.
Proof.
  intros Hv Hreq Hs. revert i reserved. induction Hs as [|s rest Hs1 Hrest IH]; intros i r Hi Hl Hne H0 Hle Hm;
    [done|]. destruct Hm as [Hmin Hm]. cbn [length] in Hl. cbn in Hle |- *. fold (zsum rest) in *.
  pose proof (zsum_nonneg rest Hrest). rewrite (proj2 (Z.eqb_neq i 0)) in Hmin by lia.
  destruct rest as [|s2 rest].
  - unfold get_min_node_contribution, modern, hf19_reward_batching, hf11_infinite_staking, feature_ETH_BLS,
      feature_ETH_TRANSITION, hf20_eth_transition, hf21_eth, MAX_CONTRIBUTORS_HF19 in *.
    cbn in Hl, Hle |- *. rewrite (proj2 (Z.ltb_ge v 11)), (proj2 (Z.leb_le 19 v)) in Hmin by lia.
    rewrite (proj2 (Z.leb_gt 11 i)), (proj2 (Z.leb_gt 24 v)) in Hmin by lia.
    replace (11 - i) with 1 in Hmin by lia. rewrite Z.div_1_r, u64_small in Hmin by width. lia.
  - rewrite Z.add_assoc. apply (IH (i + 1)); try done; try lia; width.
Qed.

Lemma accepted_full v req stakes :
  modern v -> is_u64 req -> Forall is_u64 stakes -> check_service_node_stakes v req stakes = true ->
  (length stakes <= 11)%nat /\ (length stakes = 11%nat -> zsum stakes = req).
Proof.
  intros Hv Hreq Hs H. apply (stakes_accepted v req stakes Hs Hreq) in H as (_ & Hl & Hm & Hsum & _).
  split; [done|]. intros H11. destruct stakes as [|op rest]; [done|]. cbn [meets_minimums] in Hm.
  destruct Hm as [_ Hm]. inversion_clear Hs as [|? ? Ho Hr]. cbn in Hsum, H11 |- *. fold (zsum rest) in *.
  rewrite <- (meets_minimums_full v req 1 op rest); try done; try width.
  intros ->. done.
Qed.

Lemma registration_slots cn check_signature check_key ed25519_verify derivation derive scalar
    decode_simple decode check_image nt v tx ts h i req key info :
  modern v -> 0 < req /\ 101 * req < 2 ^ 64 -> registration_typed tx ->
  is_registration_tx cn check_signature check_key ed25519_verify derivation derive scalar
    decode_simple decode check_image nt v tx ts h i req = Some (Some (key, info)) ->
  slots_ok info.
Proof.
  intros Hv [Hr1 Hr2] Ht E.
  apply registration_record in E as [_ (reg & conf & op & _ & Hval & Htr & Ha & Hf & ->)]; [|lia|done].
  apply validate_registration_total in Hval as (_ & _ & _ & H19 & _); [|lia|done..].
  destruct (H19 (proj1 Hv)) as [Hup Hck]. rewrite Hup.
  destruct (accepted_full v req _ Hv ltac:(unfold is_u64; lia) Ha Hck) as [Hlen Hfull].
  rewrite length_fmap in Hlen, Hfull.
  assert (used_slots ((fun r => new_contributor_entry (reserve_of false req r.2) r.1) <$> rd_reserved reg)
          <= Z.of_nat (length (rd_reserved reg))) as Hused.
  { unfold used_slots, num_unfilled, locked_count. rewrite <- list_fmap_compose.
    pose proof (length_filter unfilled ((fun r => new_contributor_entry (reserve_of false req r.2) r.1) <$> rd_reserved reg)) as Hfl.
    rewrite length_fmap in Hfl.
    assert (zsum (((fun c => Z.of_nat (length (locked_contributions c))) ∘
      (fun r => new_contributor_entry (reserve_of false req r.2) r.1)) <$> rd_reserved reg) = 0) as ->; [|lia].
    clear. unfold zsum. by induction (rd_reserved reg). }
  unfold MAX_CONTRIBUTORS_HF19.
  split; cbn [staking_requirement contributors total_reserved registered_info]; unfold MAX_CONTRIBUTORS_HF19; [lia..|].
  intros H11. unfold reserve_of. change (fun amount : Z => amount) with (@id Z). rewrite list_fmap_id.
  apply Hfull. lia.
Qed.

(** ** Completing the stake *)

(** Contributions made one after the other in a block. *)
Fixpoint contributions (v : hf) (h i : Z) (stakes : list staking_components) (info : service_node_info)
    : option service_node_info :=
  match stakes with
  | [] => Some info
  | stake :: rest => info ← contribute v h i stake info; contributions v h i rest info
  end.

(** A stake of one output. *)
Definition single_stake (a : account_public_address) (amount : Z) : staking_components :=
  StakingComponents (null_bytes 32) a amount (null_bytes 32)
    [Contribution (null_bytes 32) (null_bytes 32) amount].

Section Completing.
Context (v : hf) (h i : Z) (Hv : modern v) (Hh : 0 <= h < 2 ^ 62).

Lemma fill_reservation info p c :
  stakes_ok info -> slots_ok info -> contributors info !! p = Some c -> unfilled c ->
  exists info', contribute v h i
      (single_stake (contributor_address c) (contributor_reserved c - contributor_amount c)) info = Some info' /\
    num_unfilled (contributors info') = num_unfilled (contributors info) - 1 /\
    (is_fully_funded info' = true -> active_since_height info' = h).
Proof using Hv Hh.
  intros H Hs Hp Hun. set (stake := single_stake _ _).
  pose proof (so_books _ H) as Hb. destruct (books_entry _ _ _ _ _ _ Hb Hp) as [Hc1 Hc2].
  pose proof (bk_limit _ _ _ _ Hb) as Hl. pose proof (so_requirement _ H) as Hr.
  assert (is_u64 (sc_transferred stake)) as Ht by (cbn; unfold is_u64; lia).
  assert (with_entry (sc_address stake) (contributors info) = contributors info) as Hw.
  { unfold with_entry. rewrite bool_decide_eq_true_2; [done|]. cbn. apply list_elem_of_fmap_2.
    by eapply list_elem_of_lookup_2. }
  destruct (contribute_modern v h i stake info Hv H Hs Ht Hh) as (q & c' & Hq & Ha & Hres).
  rewrite Hw in Hq, Hres.
  assert (q = p) as ->.
  { pose proof (bk_addresses _ _ _ _ Hb) as Hnd. unfold addresses_of in Hnd. rewrite NoDup_alt in Hnd.
    apply (Hnd _ _ (contributor_address c)); rewrite list_lookup_fmap; [by rewrite Hq; cbn; rewrite Ha|by rewrite Hp]. }
  rewrite Hp in Hq. injection Hq as <-.
  assert (acceptable stake c info) as Hacc.
  { pose proof Hs as [_ S2 _]. split; [|done| | |].
    - apply Z.leb_gt. pose proof (zsum_lookup_le (fun x => contributor_reserved x - contributor_amount x) _ _ _
        ltac:(eapply Forall_impl; [exact (bk_amounts _ _ _ _ Hb)|]; intros x Hx; cbn in *; lia) Hp) as [_ Hz].
      rewrite zsum_open in Hz. rewrite <- (bk_reserved _ _ _ _ Hb), <- (bk_contributed _ _ _ _ Hb) in Hz.
      unfold unfilled in Hun. lia.
    - unfold indicator. rewrite decide_True by done. lia.
    - rewrite decide_True by done. cbn. lia.
    - cbn. apply Z.div_le_lower_bound; [lia|]. unfold unfilled in Hun. lia. }
  destruct Hres as [[E _]|[_ Hn]]; [|done]. eexists. split; [exact E|].
  set (t := Z.min _ _) in *. assert (contributor_reserved c <= contributor_amount c + t) by (subst t; cbn; lia).
  split.
  - cbn [contributors with_stake].
    destruct (credited_used v stake c t _ p ltac:(destruct Hv; unfold hf19_reward_batching, hf11_infinite_staking in *; lia)
      eq_refl Hp ltac:(done)) as [_ ->]. unfold indicator. by rewrite decide_True by done.
  - unfold is_fully_funded. cbn [staking_requirement total_contributed with_stake active_since_height].
    by intros ->.
Qed.

Lemma fill_open info a :
  stakes_ok info -> slots_ok info -> num_unfilled (contributors info) = 0 -> is_fully_funded info = false ->
  a ∉ addresses_of (contributors info) ->
  exists info', contribute v h i
      (single_stake a (staking_requirement info - total_reserved info)) info = Some info' /\
    is_fully_funded info' = true /\ active_since_height info' = h.
Proof using Hv Hh.
  intros H Hs Hun Hf Ha. set (stake := single_stake _ _).
  pose proof (so_books _ H) as Hb. pose proof (books_contributed _ _ _ _ Hb) as Htc.
  pose proof (bk_limit _ _ _ _ Hb) as Hl. pose proof (so_requirement _ H) as Hr.
  assert (total_contributed info = total_reserved info) as Hall.
  { destruct Hb as [B1 -> -> _ _]. unfold num_unfilled in Hun.
    assert (Forall (fun c => ~ unfilled c) (contributors info)) as Hfil.
    { apply Forall_forall. intros c Hc Hu.
      assert (c ∈ filter unfilled (contributors info)) as Hin by by apply list_elem_of_filter.
      destruct (filter unfilled (contributors info)); [by apply elem_of_nil in Hin|cbn in Hun; lia]. }
    unfold zsum, amounts_of, reserved_of. clear -B1 Hfil. unfold unfilled in Hfil.
    induction B1 as [|c l Hc _ IH]; [done|]. inversion_clear Hfil. cbn in *. rewrite IH by done. lia. }
  apply Z.leb_gt in Hf.
  assert (is_u64 (sc_transferred stake)) as Ht by (cbn; unfold is_u64; lia).
  destruct (contribute_modern v h i stake info Hv H Hs Ht Hh) as (p & c & Hp & Hca & Hres).
  assert (c = new_contributor_entry 0 a) as ->.
  { unfold with_entry in Hp. rewrite bool_decide_eq_false_2 in Hp by done.
    apply lookup_app_Some in Hp as [Hp|[_ Hp]].
    - exfalso. apply Ha. change a with (sc_address stake). rewrite <- Hca. apply list_elem_of_fmap_2.
      by eapply list_elem_of_lookup_2.
    - apply list_lookup_singleton_Some in Hp as [_ <-]. done. }
  destruct Hres as [[E _]|[_ Hn]].
  - eexists. split; [exact E|]. unfold is_fully_funded.
    cbn [staking_requirement total_contributed with_stake active_since_height new_contributor_entry
      contributor_reserved contributor_amount stake single_stake sc_transferred].
    assert (staking_requirement info <= total_contributed info +
      Z.min (0 - 0 + (staking_requirement info - total_reserved info)) (staking_requirement info - total_reserved info))
      as ->%Z.leb_le by lia. done.
  - exfalso. apply Hn. destruct Hs as [S1 S2 S3]. unfold MAX_CONTRIBUTORS_HF19 in *.
    assert (used_slots (contributors info) < 11) by (destruct (decide (used_slots (contributors info) = 11)); [|lia];
      specialize (S3 ltac:(done)); lia).
    split; [by apply Z.leb_gt|done| | |].
    + unfold indicator. rewrite decide_False by apply new_entry_filled. unfold MAX_CONTRIBUTORS_HF19. lia.
    + rewrite decide_False by apply new_entry_filled. cbn. apply Z.div_le_upper_bound; unfold MAX_CONTRIBUTORS_HF19; nia.
    + cbn. apply Z.div_le_lower_bound; lia.
Qed.

(** Fewer stakes than there are slots complete any node. *)
Lemma completing n info a :
  num_unfilled (contributors info) = Z.of_nat n -> stakes_ok info -> slots_ok info ->
  a ∉ addresses_of (contributors info) -> is_fully_funded info = false ->
  exists stakes info', (length stakes <= S n)%nat /\ contributions v h i stakes info = Some info' /\
    is_fully_funded info' = true /\ active_since_height info' = h.
Proof using Hv Hh.
  revert info. induction n as [|n IH]; intros info Hn H Hs Ha Hf.
  { destruct (fill_open info a H Hs Hn Hf Ha) as (info' & E & H1 & H2).
    exists [single_stake a (staking_requirement info - total_reserved info)], info'.
    split; [cbn; lia|]. cbn [contributions]. rewrite E. done. }
  assert (exists p c, contributors info !! p = Some c /\ unfilled c) as (p & c & Hp & Hu).
  { unfold num_unfilled in Hn. destruct (filter unfilled (contributors info)) as [|c l] eqn:E; [done|].
    assert (c ∈ filter unfilled (contributors info)) as Hin by (rewrite E; apply elem_of_cons; by left).
    apply list_elem_of_filter in Hin as [Hu (p & Hp)%list_elem_of_lookup]. by exists p, c. }
  destruct (fill_reservation info p c H Hs Hp Hu) as (info1 & E & Hn1 & Hact).
  set (stake := single_stake _ _) in *.
  destruct (books_entry _ _ _ _ _ _ (so_books _ H) Hp) as [Hc1 Hc2].
  assert (is_u64 (sc_transferred stake)) as Ht.
  { pose proof (bk_limit _ _ _ _ (so_books _ H)). pose proof (so_requirement _ H). cbn. unfold is_u64. lia. }
  pose proof (contribute_stakes_ok _ _ _ _ _ _ H Ht Hh E) as H1.
  pose proof (contribute_slots _ _ _ _ _ _ Hv H Hs Ht Hh E) as Hs1.
  destruct (is_fully_funded info1) eqn:Hf1.
  { exists [stake], info1. split; [cbn; lia|]. cbn [contributions]. rewrite E.
    split_and!; [done..|]. by apply Hact. }
  destruct (IH info1 ltac:(lia) H1 Hs1) as (stakes & info' & Hl & Hrun & Hfull & Hsince); [|done|].
  { destruct (contribute_modern v h i stake info Hv H Hs Ht Hh) as (q & c' & Hq & Ha' & [[E' _]|[E' _]]);
      rewrite E in E'; [|done]. injection E' as ->. cbn [contributors with_stake].
    rewrite addresses_credited by done. unfold with_entry.
    rewrite bool_decide_eq_true_2; [done|]. cbn. apply list_elem_of_fmap_2. by eapply list_elem_of_lookup_2. }
  exists (stake :: stakes), info'. split; [cbn; lia|]. cbn [contributions]. rewrite E. done.
Qed.
End Completing.

(** An address that no contributor has. *)
Lemma fresh_address (l : list account_public_address) : exists a, a ∉ l.
Proof.
  set (w := concat (map m_spend_public_key l)). exists (AccountAddress (w ++ [0]) []). intros Hin.
  assert (forall x, x ∈ l -> length (m_spend_public_key x) <= length w)%nat as Hle.
  { subst w. clear. intros x. induction l as [|y l IH]; [by intros []%elem_of_nil|].
    cbn. rewrite length_app. intros [->|Hx]%elem_of_cons; [lia|]. specialize (IH Hx). lia. }
  specialize (Hle _ Hin). cbn in Hle. rewrite length_app in Hle. cbn in Hle. lia.
Qed.

(** (C22) No node gets stuck: from HF19 up to the L2 transition, in every state reached by
    registrations, contributions, state changes and unlock requests, a node's stakes and
    open reservations never take more than the eleven slots, and there are at most twelve
    further contributions, all accepted by the contribution rules in this order, after
    which the node is fully funded and active from that block on. *)
Theorem funding_completes fk cn_fast_hash check_signature check_key ed25519_verify snpk_to_xpk
    derivation derive scalar decode_simple decode check_image st0 st key info v h i :
  service_nodes_infos st0 = ∅ -> 0 <= st_staking_requirement st0 < 2 ^ 57 ->
  rtc (tx_step fk cn_fast_hash check_signature check_key ed25519_verify snpk_to_xpk derivation
         derive scalar decode_simple decode check_image modern) st0 st ->
  service_nodes_infos st !! key = Some info -> modern v -> 0 <= h < 2 ^ 62 ->
  used_slots (contributors info) <= MAX_CONTRIBUTORS_HF19 /\
  (is_fully_funded info = false ->
   exists stakes info', (length stakes <= 12)%nat /\ contributions v h i stakes info = Some info' /\
     is_fully_funded info' = true /\ active_since_height info' = h /\ is_active info' = true).
Proof.
  intros H0 Hr Hs Hi Hv Hh.
  assert (funds_ok (2 ^ 57) slots_ok st0) as Hf by (split; [by rewrite H0|done]).
  eapply (reachable_funds_ok _ _ _ _ _ _ _ _ _ _ _ _ modern (2 ^ 57) slots_ok) in Hs as [Hn _];
    [|split; [reflexivity|lia]| | |by intros ? ? (E1 & _ & E2 & E3 & _) [S1 S2 S3]; split; rewrite ?E1, ?E2, ?E3
     |exact Hf].
  - destruct (Hn key info Hi) as [Hok Hsl]. pose proof Hsl as [_ Hused _]. split; [done|]. intros Hnf.
    destruct (fresh_address (addresses_of (contributors info))) as [a Ha].
    pose proof (num_unfilled_nonneg (contributors info)). pose proof (locked_count_nonneg (contributors info)).
    destruct (completing v h i Hv Hh (Z.to_nat (num_unfilled (contributors info))) info a ltac:(lia) Hok Hsl Ha Hnf)
      as (stakes & info' & Hl & Hrun & Hfull & Hsince).
    exists stakes, info'. unfold used_slots, MAX_CONTRIBUTORS_HF19 in Hused. split; [lia|].
    split_and!; [done..|]. unfold is_active, is_decommissioned. rewrite Hfull, Hsince, (proj2 (Z.ltb_ge h 0)) by lia. done.
  - intros nt v' tx ts h' i' req k inf Hv' Hreq Ht E. refine (registration_slots _ _ _ _ _ _ _ _ _ _ nt v' tx ts h' i' req k inf Hv' _ Ht E). lia.
  - intros v' h' i' stake inf inf' Hv' Hh' Ht _ Hok Hsl E. by eapply contribute_slots.
Qed.

Lemma funding_completes_witness :
  exists info, service_nodes_infos demo_half !! [2] = Some info /\ is_fully_funded info = false /\
    exists stakes info', (length stakes <= 12)%nat /\
      contributions hf22_sn_policy 100 3 stakes info = Some info' /\
      is_fully_funded info' = true /\ active_since_height info' = 100 /\ is_active info' = true.
Proof.
  destruct (service_nodes_infos demo_half !! [2]) as [info|] eqn:E; [|vm_compute in E; discriminate E].
  assert (is_fully_funded info = false) as Hf by (vm_compute in E; injection E as <-; reflexivity).
  exists info. split; [reflexivity|]. split; [exact Hf|].
  refine (proj2 (funding_completes _ _ _ _ _ _ _ _ _ _ _ _ no_nodes demo_half [2] info hf22_sn_policy 100 3
    eq_refl _ demo_half_run E _ _) Hf); split; vm_compute; congruence.
Defined.
