(* ===== verification/Events.v ===== *)
(** * Confirmed L2 events

    What a confirmed L2 transaction does to the service node list
    ([process_confirmed_event] and [validate_ethereum_registration] of
    [cryptonote_core/service_node_list.cpp]), and the loop of [update_from_block] that counts
    the votes of a block and applies the events they confirm.  The blockchain database is
    given by the functions that look up a block and a transaction; delayed payments are
    recorded as the calls of [add_delayed_payments]. *)
From stdpp Require Import gmap.
From S2P Require Import Prelude IntUtil Hardfork Config Address Rules Voting Transactions L2Votes NodeProof.
From S2P Require Import ServiceNode NodeList Staking.
#[local] Open Scope Z_scope.

(** ** Data *)

Record reward_money := RewardMoney { atomic : Z; subatomic : Z }.
Definition from_coin (amount : Z) : reward_money := RewardMoney (s64 amount) 0.
Definition to_coin (m : reward_money) : Z := u64 (atomic m).

Record eth_stake := EthStake {
  es_sn : bytes;
  es_addr : bytes;
  es_amount : reward_money;
  es_liquidation : reward_money;
  es_block_height : Z;
  es_tx_index : Z;
  es_contributor_index : Z;
}.

Record confirm_metadata := ConfirmMetadata {
  cm_nettype : network_type;
  cm_hf_version : hf;
  cm_height : Z;
  cm_confirmed_height : Z;
  cm_vote_index : Z;
  cm_tx_index : Z;
}.

Record confirm_result := ConfirmResult {
  cr_success : bool;
  cr_need_swarm_update : bool;
  cr_exit_stakes : list eth_stake;
}.
Definition no_result : confirm_result := ConfirmResult false false [].

(** A call of [add_delayed_payments]: stakes, height, block delay. *)
Record delayed_payments := DelayedPayments {
  dp_stakes : list eth_stake;
  dp_height : Z;
  dp_delay : Z;
}.

(** What the handlers change: the state, the owning list, the payments queued. *)
Record world := World {
  w_state : state_t;
  w_list : option node_list;
  w_payments : list delayed_payments;
}.
Definition with_state (w : world) (st : state_t) : world := World st (w_list w) (w_payments w).

Definition with_requirement (st : state_t) (req : Z) : state_t :=
  State (service_nodes_infos st) (key_image_blacklist st) (x25519_map st) (bls_map st) (st_height st)
    (quorums st) (recently_removed_nodes st) req (unconfirmed_l2_txes st) (block_hash st)
    (block_leader st).
Definition with_pending (st : state_t) (m : pending_map) : state_t :=
  State (service_nodes_infos st) (key_image_blacklist st) (x25519_map st) (bls_map st) (st_height st)
    (quorums st) (recently_removed_nodes st) (st_staking_requirement st) m (block_hash st)
    (block_leader st).

(** ** Registration from an event *)

(** The contributors of the registration; [None] on a duplicate address, which throws. *)
Fixpoint eth_contributors (cs : list contributor_v2) : option (list contributor_t) :=
  match cs with
  | [] => Some []
  | c :: rest =>
      if bool_decide (c2_address c ∈ c2_address <$> rest) then None
      else
        cons (Contributor (c2_amount c) (c2_amount c)
                (AccountAddress (null_bytes 32) (null_bytes 32)) (c2_address c) (c2_beneficiary c) [])
        <$> eth_contributors rest
  end.

Definition eth_info (netconf : network_config) (hf_version : hf) (block_height index requirement : Z)
    (reg : registration_details) (operator : bytes) (cs : list contributor_t) : service_node_info :=
  let total := foldl (fun t c => u64 (t + contributor_reserved c)) 0 cs in {|
  registration_height := block_height;
  requested_unlock_height := 0;
  last_reward_block_height := block_height;
  last_reward_transaction_index := index;
  decommission_count := 0;
  active_since_height := s64 block_height;
  last_decommission_height := 0;
  last_decommission_reason_consensus_all := 0;
  last_decommission_reason_consensus_any := 0;
  recommission_credit := BLOCKS_IN netconf DECOMMISSION_INITIAL_CREDIT;
  contributors := cs;
  total_contributed := total;
  total_reserved := total;
  staking_requirement := requirement;
  portions_for_operator := Int128.mul128_div64 (rd_fee reg) STAKING_PORTIONS STAKING_FEE_BASIS;
  swarm_id := UNASSIGNED_SWARM_ID;
  operator_address := AccountAddress (null_bytes 32) (null_bytes 32);
  operator_ethereum_address := operator;
  bls_public_key := rd_bls_pubkey reg;
  last_ip_change_height := block_height;
  registration_hf_version := hf_version;
  pulse_sorter := PulseSortKey 0 0 |}.

Section Handlers.
Context (fk : list hard_fork).
Context (cn_fast_hash : bytes -> bytes).
Context (check_signature : bytes -> bytes -> bytes -> bool).
Context (check_key : bytes -> bool).
Context (ed25519_verify : bytes -> bytes -> bytes -> bool).
Context (snpk_to_xpk : bytes -> bytes).

(** [None] when it throws. *)
Definition validate_ethereum_registration (new_sn : new_service_node_v2) (nettype : network_type)
    (hf_version : hf) (block_height index requirement : Z) : option (bytes * service_node_info) :=
  let reg := eth_reg_v2_details hf_version new_sn in
  if negb (validate_registration hf_version nettype requirement 0 reg) then None
  else if negb (validate_registration_signature cn_fast_hash check_signature check_key ed25519_verify reg)
  then None
  else
    netconf ← get_config nettype;
    operator ← head (rd_eth_contributions reg);
    cs ← eth_contributors (rd_eth_contributions reg);
    Some (rd_service_node_pubkey reg,
          eth_info netconf hf_version block_height index requirement reg (c2_address operator) cs).

(** ** The events *)

(** A registration that throws is caught and ignored. *)
Definition confirm_new_service_node (new_sn : new_service_node_v2) (confirm : confirm_metadata)
    (w : world) : confirm_result * world :=
  let st := w_state w in
  if bool_decide (is_Some (service_nodes_infos st !! nsn_pubkey new_sn)) then (no_result, w)
  else if existsb (fun p => bool_decide (bls_public_key p.2 = nsn_bls_pubkey new_sn))
            (map_to_list (service_nodes_infos st))
  then (no_result, w)
  else
    match validate_ethereum_registration new_sn (cm_nettype confirm) (cm_hf_version confirm)
            (cm_confirmed_height confirm) (cm_vote_index confirm)
            (get_staking_requirement fk (cm_nettype confirm) st) with
    | None => (no_result, w)
    | Some (key, info) =>
        let nl := match w_list w with
                  | Some l => Some (if m_rescanning l then l
                                    else store_proof (set_proof l key new_proof_info) key)
                  | None => None
                  end in
        (ConfirmResult true true [],
         World (insert_info fk snpk_to_xpk st nl key info) nl (w_payments w))
    end.

Definition confirm_exit_request (bls_pubkey : bytes) (confirm : confirm_metadata) (w : world)
    : option (confirm_result * world) :=
  let st := w_state w in
  let snode_pk := find_public_key_bls st bls_pubkey in
  if bool_decide (snode_pk = null_bytes 32) then Some (no_result, w)
  else
    match service_nodes_infos st !! snode_pk with
    | None => Some (no_result, w)
    | Some info =>
        if negb (requested_unlock_height info =? 0) then Some (no_result, w)
        else
          netconf ← get_config (cm_nettype confirm);
          let unlock_height := u64 (st_height st + BLOCKS_IN netconf (UNLOCK_DURATION netconf)) in
          Some (ConfirmResult true false [],
            with_state w (with_infos st (<[snode_pk := with_unlock info unlock_height]>
                                           (service_nodes_infos st))))
    end.

(** The stakes returned to the contributors that have an Ethereum address. *)
Definition exit_stakes (node : recently_removed_node) (confirm : confirm_metadata) : list eth_stake :=
  omap (fun ic : nat * contributor_t =>
          if bool_decide (ethereum_address ic.2 = null_bytes 20) then None
          else Some (EthStake (rn_service_node_pubkey node) (ethereum_address ic.2)
                       (from_coin (contributor_amount ic.2)) (RewardMoney 0 0)
                       (u32 (cm_height confirm)) (u32 (cm_tx_index confirm)) (Z.of_nat ic.1)))
    (imap pair (contributors (rn_info node))).

Definition with_liquidation (s : eth_stake) (m : reward_money) : eth_stake :=
  EthStake (es_sn s) (es_addr s) (es_amount s) m (es_block_height s) (es_tx_index s)
    (es_contributor_index s).

(** How long the funds of a node that did not leave voluntarily stay locked. *)
Definition exit_delay (nettype : network_type) (node : recently_removed_node) (height : Z) : option Z :=
  if bool_decide (rn_type node = voluntary_exit) then Some 0
  else
    netconf ← get_config nettype;
    let unlocked_at := u64 (rn_height node + BLOCKS_IN netconf (DEREGISTRATION_LOCK_DURATION netconf)) in
    Some (if height <=? unlocked_at then u64 (unlocked_at - height) else 0).

(** [None] when [get_config] throws or the state has no owning list. *)
Definition confirm_exit (bls_pubkey : bytes) (returned : Z) (confirm : confirm_metadata) (w : world)
    : option (confirm_result * world) :=
  let st := w_state w in
  match list_find (fun n => bls_public_key (rn_info n) = bls_pubkey) (recently_removed_nodes st) with
  | None => Some (no_result, w)
  | Some (position, node) =>
      let staked := staking_requirement (rn_info node) in
      let returned_amount := Z.min staked returned in
      let slash_amount := u64 (staked - returned_amount) in
      if (0 <? slash_amount) && (st_height st <? rn_liquidation_height node) then Some (no_result, w)
      else
        block_delay ← exit_delay (cm_nettype confirm) node (st_height st);
        let stakes := exit_stakes node confirm in
        let st' := with_removed
                     (with_maps st (delete (snpk_to_xpk (rn_service_node_pubkey node)) (x25519_map st))
                        (delete bls_pubkey (bls_map st)))
                     (delete position (recently_removed_nodes st)) in
        match stakes with
        | [] =>
            l ← w_list w;
            match hard_fork_begins fk (nl_nettype l) hf21_eth with
            | None => Some (no_result, w)
            | Some hf21_height =>
                if hf21_height <=? registration_height (rn_info node) then Some (no_result, w)
                else Some (ConfirmResult true false [], with_state w st')
            end
        | operator :: rest =>
            if to_coin (es_amount operator) <? slash_amount then
              Some (ConfirmResult false false stakes, w)
            else
              let stakes := with_liquidation operator (from_coin slash_amount) :: rest in
              _ ← w_list w;
              Some (ConfirmResult true false stakes,
                World st' (w_list w)
                  (w_payments w ++ [DelayedPayments stakes (st_height st) block_delay]))
        end
  end.

Definition confirm_requirement (req : Z) (w : world) : confirm_result * world :=
  (ConfirmResult true false [], with_state w (with_requirement (w_state w) req)).

Definition purge_stakes (pk : bytes) (info : service_node_info) (confirm : confirm_metadata)
    : list eth_stake :=
  imap (fun i c => EthStake pk (ethereum_address c) (from_coin (contributor_amount c)) (RewardMoney 0 0)
                     (u32 (cm_height confirm)) (u32 (cm_tx_index confirm)) (Z.of_nat i))
    (contributors info).

Definition confirm_purge (bls_pubkey : bytes) (confirm : confirm_metadata) (w : world)
    : option (confirm_result * world) :=
  let st := w_state w in
  let pk := find_public_key_bls st bls_pubkey in
  if bool_decide (pk = null_bytes 32) then Some (no_result, w)
  else
    match service_nodes_infos st !! pk with
    | None => Some (no_result, w)
    | Some info =>
        st' ← erase_info fk snpk_to_xpk st (w_list w) pk info purged;
        Some (ConfirmResult true true (purge_stakes pk info confirm), with_state w st')
    end.

(** The overloads of [process_confirmed_event]. *)
Definition process_confirmed_event (e : event) (confirm : confirm_metadata) (w : world)
    : option (confirm_result * world) :=
  match e with
  | NewServiceNode new_sn => Some (confirm_new_service_node new_sn confirm w)
  | ServiceNodeExitRequest bls => confirm_exit_request bls confirm w
  | ServiceNodeExit bls returned => confirm_exit bls returned confirm w
  | StakingRequirementUpdated req => Some (confirm_requirement req w)
  | ServiceNodePurge bls => confirm_purge bls confirm w
  end.

(** ** The votes of a block *)

Definition event_txtype (e : event) : txtype :=
  match e with
  | NewServiceNode _ => txtype_ethereum_new_service_node_v2
  | ServiceNodeExitRequest _ => txtype_ethereum_service_node_exit_request
  | ServiceNodeExit _ _ => txtype_ethereum_service_node_exit
  | StakingRequirementUpdated _ => txtype_ethereum_staking_requirement_updated
  | ServiceNodePurge _ => txtype_ethereum_purge_missing_service_node
  end.

(** [eth::extract_event]: the event of the transaction's type. *)
Definition extract_event (tx : transaction) : option event :=
  e ← extra_event (extra tx);
  if bool_decide (tx_type tx = event_txtype e) then Some e else None.

(** The blockchain database; [None] when a lookup throws. *)
Context (get_tx : bytes -> option transaction).
Context (get_block_from_height : Z -> option block).

(** The stakes recorded in the result of the block. *)
Record block_stakes := BlockStakes {
  locked_stakes : list eth_stake;
  purged_stakes : list eth_stake;
}.

Definition new_locked (e : event) (mined_height tx_index : Z) : list eth_stake :=
  match e with
  | NewServiceNode new_sn =>
      imap (fun i c => EthStake (nsn_pubkey new_sn) (c2_address c) (from_coin (c2_amount c))
                         (RewardMoney 0 0) (u32 mined_height) (u32 tx_index) (Z.of_nat i))
        (nsn_contributors new_sn)
  | _ => []
  end.

Definition is_purge (e : event) : bool := match e with ServiceNodePurge _ => true | _ => false end.

(** A resolved transaction: [None] when the code throws.  The inner [block] of the code is
    the one that mined the transaction, and so is the height recorded in the stakes. *)
Definition resolve_event (nettype : network_type) (hf_version : hf) (height i : Z)
    (r : resolution) (w : world) (stakes : block_stakes) : option (bool * world * block_stakes) :=
  tx ← get_tx (r_hash r);
  e ← extract_event tx;
  mined ← get_block_from_height (height_added (r_counts r));
  '(index, _) ← list_find (fun k => k = r_hash r) (tx_hashes mined);
  let tx_index := u16 (Z.of_nat index) in
  '(result, w) ←
    (if r_accepted r then
       process_confirmed_event e
         (ConfirmMetadata nettype hf_version (height_added (r_counts r)) height i tx_index) w
     else Some (no_result, w));
  let stakes :=
    if cr_success result then
      BlockStakes (locked_stakes stakes ++ new_locked e (b_height mined) tx_index)
        (purged_stakes stakes ++ (if is_purge e then cr_exit_stakes result else []))
    else stakes in
  Some (cr_need_swarm_update result, w, stakes).

(** The loop over the votes: what stays pending, whether swarms change, the world. *)
Fixpoint l2_vote_loop (nettype : network_type) (hf_version : hf) (weight height i : Z)
    (votes : list bool) (m : pending_map) (need_swarm_update : bool) (w : world) (stakes : block_stakes)
    : option (pending_map * bool * world * block_stakes) :=
  match votes, m with
  | vote :: votes, (k, u) :: rest =>
      let u := count_vote weight vote u in
      match confirmed u height with
      | None =>
          '(rest, swarm, w, stakes) ←
            l2_vote_loop nettype hf_version weight height (i + 1) votes rest need_swarm_update w stakes;
          Some ((k, u) :: rest, swarm, w, stakes)
      | Some done =>
          '(swarm, w, stakes) ← resolve_event nettype hf_version height i (Resolution k u height done) w stakes;
          l2_vote_loop nettype hf_version weight height (i + 1) votes rest (need_swarm_update || swarm)
            w stakes
      end
  | _, _ => Some (m, need_swarm_update, w, stakes)
  end.

(** The step of [update_from_block]; [None] when the code throws. *)
Definition process_l2_votes (nettype : network_type) (b : block) (height : Z) (need_swarm_update : bool)
    (w : world) (stakes : block_stakes) : option (bool * world * block_stakes) :=
  let hf_version := major_version b in
  if feature_ETH_BLS <=? hf_version then
    let m := unconfirmed_l2_txes (w_state w) in
    if negb (length (l2_votes b) =? length m)%nat then None
    else
      '(m, swarm, w, stakes) ←
        l2_vote_loop nettype hf_version (vote_weight b) height 0 (l2_votes b) m need_swarm_update w stakes;
      Some (swarm, with_state w (with_pending (w_state w) m), stakes)
  else Some (need_swarm_update, w, stakes).

(** [process_new_ethereum_tx]; [tx_exists] is the database. *)
Definition process_new_ethereum_tx (b : block) (tx : transaction) (st : state_t) : option state_t :=
  _ ← get_tx (tx_hash tx);
  m ← emplace (tx_hash tx) (new_unconfirmed (b_height b) (b_pulse b)) (unconfirmed_l2_txes st);
  Some (with_pending st m).

End Handlers.

(** ** The vote loop counts as the vote rules say *)

Section Votes.
Context (fk : list hard_fork).
Context (cn_fast_hash : bytes -> bytes).
Context (check_signature : bytes -> bytes -> bytes -> bool).
Context (check_key : bytes -> bool).
Context (ed25519_verify : bytes -> bytes -> bytes -> bool).
Context (snpk_to_xpk : bytes -> bytes).
Context (get_tx : bytes -> option transaction).
Context (get_block_from_height : Z -> option block).

Abbreviation vote_loop := (l2_vote_loop fk cn_fast_hash check_signature check_key ed25519_verify
  snpk_to_xpk get_tx get_block_from_height).
Abbreviation resolve := (resolve_event fk cn_fast_hash check_signature check_key ed25519_verify
  snpk_to_xpk get_tx get_block_from_height).

(** The events of a list of resolutions, applied in order, each with its vote index. *)
Fixpoint apply_resolutions (nettype : network_type) (hf_version : hf) (height : Z)
    (rs : list (Z * resolution)) (swarm : bool) (w : world) (stakes : block_stakes)
    : option (bool * world * block_stakes) :=
  match rs with
  | [] => Some (swarm, w, stakes)
  | (i, r) :: rs =>
      '(s, w, stakes) ← resolve nettype hf_version height i r w stakes;
      apply_resolutions nettype hf_version height rs (swarm || s) w stakes
  end.

(** The loop is the abstract tally followed by the events it accepts. *)
Lemma vote_loop_tally nettype v weight height i votes m swarm w stakes :
  exists idx, length idx = length (tally weight height votes m).2 /\
    vote_loop nettype v weight height i votes m swarm w stakes =
      '(swarm, w, stakes) ← apply_resolutions nettype v height
                              (zip idx (tally weight height votes m).2) swarm w stakes;
      Some ((tally weight height votes m).1, swarm, w, stakes).
Proof.
  revert i m swarm w stakes. induction votes as [|vote votes IH]; intros i m swarm w stakes.
  { exists []. by destruct m. }
  destruct m as [|[k u] rest]; [by exists []|]. cbn [tally l2_vote_loop].
  destruct (tally weight height votes rest) as [m' out] eqn:E.
  destruct (confirmed (count_vote weight vote u) height) as [done_|] eqn:Ec.
  - destruct (resolve nettype v height i (Resolution k (count_vote weight vote u) height done_) w stakes)
      as [[[s w'] stakes']|] eqn:Er.
    + destruct (IH (i + 1) rest (swarm || s) w' stakes') as (idx & Hl & Heq). rewrite E in Hl, Heq.
      exists (i :: idx). cbn in *. split; [lia|]. rewrite Er. cbn. exact Heq.
    + exists (replicate (S (length out)) i). split; [by rewrite length_replicate|].
      cbn. rewrite Er. done.
  - destruct (IH (i + 1) rest swarm w stakes) as (idx & Hl & Heq). rewrite E in Hl, Heq.
    exists idx. cbn in *. split; [done|]. rewrite Heq.
    destruct (apply_resolutions _ _ _ _ _ _ _) as [[[s w'] stakes']|]; done.
Qed.
End Votes.

(** ** Exits *)

(** The entries of the staging area with a BLS key.  There can be several: a registration looks
    only at the nodes of the list, and a removal stages the node whatever is staged already. *)
Definition staged (bls_pubkey : bytes) (w : world) : list recently_removed_node :=
  filter (fun n => bls_public_key (rn_info n) = bls_pubkey) (recently_removed_nodes (w_state w)).

Definition slashed (node : recently_removed_node) (returned : Z) : Z :=
  Z.max 0 (staking_requirement (rn_info node) - returned).

(** The rules of an exit.  What is not returned is taken from the first contributor that has an
    Ethereum address, which is the operator if the operator has one; a node without any such
    contributor leaves only if it was registered before the L2 network. *)
Definition may_settle (fk : list hard_fork) (returned : Z) (confirm : confirm_metadata) (node : recently_removed_node)
    (l : node_list) (w : world) : Prop :=
  (0 < slashed node returned -> rn_liquidation_height node <= st_height (w_state w)) /\
  match exit_stakes node confirm with
  | [] => exists hf21_height, hard_fork_begins fk (nl_nettype l) hf21_eth = Some hf21_height /\
            registration_height (rn_info node) < hf21_height
  | first :: _ => slashed node returned <= to_coin (es_amount first)
  end.

(** What a settled exit leaves behind: the entry is gone and its stakes are queued. *)
Definition settled (bls_pubkey : bytes) (returned : Z) (confirm : confirm_metadata)
    (node : recently_removed_node) (w w' : world) : Prop :=
  let height := st_height (w_state w) in
  head (staged bls_pubkey w) = Some node /\ staged bls_pubkey w' = tail (staged bls_pubkey w) /\
  recently_removed_nodes (w_state w) ≡ₚ node :: recently_removed_nodes (w_state w') /\
  match exit_stakes node confirm with
  | [] => w_payments w' = w_payments w
  | first :: rest =>
      exists delay, exit_delay (cm_nettype confirm) node height = Some delay /\
        w_payments w' = w_payments w ++
          [DelayedPayments (with_liquidation first (from_coin (slashed node returned)) :: rest) height delay]
  end.

Lemma find_head {A} (P : A -> Prop) `{forall x, Decision (P x)} l i x :
  list_find P l = Some (i, x) -> filter P l = x :: filter P (delete i l).
Proof.
  revert i. induction l as [|y l IH]; intros i E; cbn in E; [done|].
  rewrite filter_cons. destruct (decide (P y)) as [Hy|Hy].
  - injection E as <- <-. done.
  - destruct (list_find P l) as [[k z]|]; cbn in E; [|done]. injection E as <- <-. cbn [delete list_delete].
    rewrite filter_cons_False by done. by apply IH.
Qed.

Definition staged_typed (w : world) : Prop :=
  Forall (fun n => is_u64 (staking_requirement (rn_info n))) (recently_removed_nodes (w_state w)).

(** An exit event, on every branch. *)
Lemma confirm_exit_spec fk snpk_to_xpk bls returned confirm w l :
  w_list w = Some l -> staged_typed w -> is_u64 returned -> is_Some (get_config (cm_nettype confirm)) ->
  exists r w', confirm_exit fk snpk_to_xpk bls returned confirm w = Some (r, w') /\ w_list w' = Some l /\
    if cr_success r
    then exists node, may_settle fk returned confirm node l w /\ settled bls returned confirm node w w'
    else w' = w /\ forall node, head (staged bls w) = Some node -> ~ may_settle fk returned confirm node l w.
Proof.
  intros Hl Hall Hret [conf Hconf]. unfold confirm_exit.
  destruct (list_find _ _) as [[i node]|] eqn:E.
  2: { exists no_result, w. split_and!; [done..|]. cbn [cr_success no_result]. split; [done|].
       intros node Hn. apply list_find_None in E. rewrite Forall_forall in E.
       apply head_Some_elem_of, list_elem_of_filter in Hn as [Hp Hin]. by apply (E node) in Hin. }
  pose proof (find_head _ _ _ _ E) as Hhd. apply list_find_Some in E as (Hi & Hbls & _).
  pose proof (delete_Permutation _ _ _ Hi) as Hp.
  assert (head (staged bls w) = Some node) as Hnode by (unfold staged; by rewrite Hhd).
  assert (is_u64 (staking_requirement (rn_info node))) as Hreq.
  { unfold staged_typed in Hall. rewrite Forall_forall in Hall. apply Hall. by eapply list_elem_of_lookup_2. }
  replace (u64 (staking_requirement (rn_info node) - Z.min (staking_requirement (rn_info node)) returned))
    with (slashed node returned) by (unfold slashed; rewrite u64_small by width; width).
  assert (forall r, cr_success r = false -> ~ may_settle fk returned confirm node l w ->
    exists r' w', Some (r, w) = Some (r', w') /\ w_list w' = Some l /\
      if cr_success r'
      then exists node, may_settle fk returned confirm node l w /\ settled bls returned confirm node w w'
      else w' = w /\ forall node, head (staged bls w) = Some node -> ~ may_settle fk returned confirm node l w) as Hno.
  { intros r Er Hn. exists r, w. split_and!; [done..|]. rewrite Er. split; [done|]. rewrite Hnode. by intros ? [= <-]. }
  destruct ((0 <? slashed node returned) && _) eqn:Hliq.
  { apply Hno; [done|]. intros [H0 _]. bool_hyps. lia. }
  assert (0 < slashed node returned -> rn_liquidation_height node <= st_height (w_state w)) as Hlate by (intros; bool_hyps; lia).
  assert (exists delay, exit_delay (cm_nettype confirm) node (st_height (w_state w)) = Some delay) as [delay Hd].
  { unfold exit_delay. case_bool_decide; [by eexists|]. rewrite Hconf. by eexists. }
  rewrite Hd, Hl. cbn [mbind option_bind]. unfold may_settle, settled in *.
  destruct (exit_stakes node confirm) as [|first rest] eqn:Es.
  - destruct (hard_fork_begins _ _ _) as [h|] eqn:Eh; [|apply Hno; [done|]; by intros (_ & ? & ? & _)].
    destruct (Z.leb_spec h (registration_height (rn_info node))).
    { apply Hno; [done|]. intros (_ & ? & [= <-] & ?). lia. }
    eexists _, _. split_and!; [done|done|]. cbn [cr_success]. exists node. rewrite Es. split_and!; [done|by exists h|done| |done|done].
    unfold staged. rewrite Hhd. done.
  - destruct (Z.ltb_spec (to_coin (es_amount first)) (slashed node returned)).
    { apply Hno; [done|]. intros [_ ?]. lia. }
    eexists _, _. split_and!; [done|done|]. cbn [cr_success]. exists node. rewrite Es. split_and!; [done|done|done| |done|by exists delay].
    unfold staged. rewrite Hhd. done.
Qed.

(** Exit events for one key, one after the other, and how many of them were settled. *)
Fixpoint run_exits (fk : list hard_fork) (snpk_to_xpk : bytes -> bytes) (bls : bytes) (events : list (Z * confirm_metadata))
    (w : world) : option (nat * world) :=
  match events with
  | [] => Some (0%nat, w)
  | (returned, confirm) :: events =>
      '(r, w) ← confirm_exit fk snpk_to_xpk bls returned confirm w;
      '(n, w) ← run_exits fk snpk_to_xpk bls events w;
      Some ((if cr_success r then S n else n)%nat, w)
  end.

Lemma run_exits_spec fk snpk_to_xpk bls events w l :
  w_list w = Some l -> staged_typed w ->
  Forall (fun e => is_u64 e.1 /\ is_Some (get_config (cm_nettype e.2))) events ->
  exists n w', run_exits fk snpk_to_xpk bls events w = Some (n, w') /\ staged bls w' = drop n (staged bls w) /\
    (n <= length (staged bls w))%nat.
Proof.
  intros Hl Ht Hev. revert w Hl Ht. induction Hev as [|[returned confirm] events [Hr Hc] _ IH]; intros w Hl Ht; cbn [run_exits].
  { exists 0%nat, w. split_and!; [done..|lia]. }
  destruct (confirm_exit_spec fk snpk_to_xpk bls returned confirm w l Hl Ht Hr Hc) as (r & w1 & -> & Hl1 & Hs). cbn [mbind option_bind].
  assert (staged_typed w1 /\ staged bls w1 = drop (if cr_success r then 1 else 0) (staged bls w) /\
    ((if cr_success r then 1 else 0) <= length (staged bls w))%nat) as (Ht1 & Es & Hle).
  { destruct (cr_success r); [|destruct Hs as [-> _]; split_and!; [done|done|lia]].
    destruct Hs as (node & _ & Hh & Et & Hp & _). split_and!.
    - unfold staged_typed in *. rewrite Hp in Ht. by apply Forall_cons in Ht as [_ ?].
    - by destruct (staged bls w).
    - destruct (staged bls w); [done|cbn; lia]. }
  destruct (IH w1 Hl1 Ht1) as (n & w' & -> & E & Hn). cbn [mbind option_bind]. eexists _, w'. split; [done|].
  rewrite E, Es, drop_drop. rewrite Es, length_drop in Hn.
  destruct (cr_success r); (split; [f_equal|]; lia).
Qed.

(** (C23) Exits are settled only as the rules allow, and each staged node once.  In a state
    that belongs to a list an exit event for a key never throws; it is settled exactly if a node with the key is staged and the rules
    hold for the first such entry: the part of the stake that is not returned is covered by the
    first contributor with an Ethereum address and, if there is such a part, the entry's
    liquidation height is reached.  Then that entry alone leaves the staging area and the
    stakes of all its contributors with an Ethereum address are queued, with the delay that is
    left of the deregistration lock; otherwise nothing changes.  A sequence of such events
    settles one entry of the key after the other, so a second exit does nothing once no entry of
    the key is left; but the code allows several entries of one key ([stale_entry_settled]). *)
Theorem exit_settles_once fk snpk_to_xpk bls w l :
  w_list w = Some l -> staged_typed w ->
  (forall returned confirm, is_u64 returned -> is_Some (get_config (cm_nettype confirm)) ->
   exists r w', confirm_exit fk snpk_to_xpk bls returned confirm w = Some (r, w') /\
     if cr_success r
     then exists node, may_settle fk returned confirm node l w /\ settled bls returned confirm node w w'
     else w' = w /\ forall node, head (staged bls w) = Some node -> ~ may_settle fk returned confirm node l w) /\
  (forall events, Forall (fun e => is_u64 e.1 /\ is_Some (get_config (cm_nettype e.2))) events ->
   exists n w', run_exits fk snpk_to_xpk bls events w = Some (n, w') /\
     staged bls w' = drop n (staged bls w) /\ (n <= length (staged bls w))%nat).
Proof.
  intros Hl Ht. split.
  - intros returned confirm Hr Hc.
    destruct (confirm_exit_spec fk snpk_to_xpk bls returned confirm w l Hl Ht Hr Hc) as (r & w' & E & _ & Hs). by exists r, w'.
  - intros events. by apply (run_exits_spec fk snpk_to_xpk bls events w l).
Qed.

(** A deregistered node whose operator staked 60 and a partner 40: the contract returns 90,
    so 10 are slashed from the operator. *)
Definition demo_contributor (a x : Z) : contributor_t :=
  Contributor x x (AccountAddress [] []) (replicate 20 a) (replicate 20 a) [].
Definition demo_removed (cs : list contributor_t) : recently_removed_node :=
  RemovedNode 1000 1500 removed_deregister 0 0 (0, 0, 0) [2]
    {| registration_height := 100; requested_unlock_height := 0; last_reward_block_height := 0;
       last_reward_transaction_index := 0; decommission_count := 0; active_since_height := 100;
       last_decommission_height := 0; last_decommission_reason_consensus_all := 0;
       last_decommission_reason_consensus_any := 0; recommission_credit := 0;
       contributors := cs; total_contributed := 100;
       total_reserved := 100; staking_requirement := 100; portions_for_operator := 0; swarm_id := 0;
       operator_address := AccountAddress [] []; operator_ethereum_address := replicate 20 1;
       bls_public_key := [7]; last_ip_change_height := 0; registration_hf_version := hf21_eth;
       pulse_sorter := PulseSortKey 0 0 |}.
Definition demo_removed_node : recently_removed_node := demo_removed [demo_contributor 1 60; demo_contributor 2 40].
Definition demo_exit_world : world :=
  World (State ∅ [] ∅ ∅ 2000 (QuorumManager None None None None) [demo_removed_node] 0 [] [] [])
    (Some demo_list) [].
Definition demo_confirm : confirm_metadata := ConfirmMetadata MAINNET hf21_eth 1990 2000 0 0.

Lemma exit_settles_once_witness :
  (exists r w', confirm_exit [] (fun k => k) [7] 90 demo_confirm demo_exit_world = Some (r, w') /\
    (to_coin ∘ es_liquidation) <$> cr_exit_stakes r = [10; 0] /\
    settled [7] 90 demo_confirm demo_removed_node demo_exit_world w') /\
  exists w', run_exits [] (fun k => k) [7] [(90, demo_confirm); (90, demo_confirm)] demo_exit_world = Some (1%nat, w') /\
    staged [7] w' = [].
Proof.
  destruct (exit_settles_once [] (fun k => k) [7] demo_exit_world demo_list eq_refl) as [Hone Hrun].
  { repeat constructor; vm_compute; congruence. }
  split.
  - destruct (Hone 90 demo_confirm) as (r & w' & E & Hs); [split; vm_compute; congruence|by eexists|].
    exists r, w'. split; [exact E|]. vm_compute in E. injection E as <- <-. split; [reflexivity|].
    cbn [cr_success] in Hs. destruct Hs as (node & _ & Hs). pose proof Hs as (Hh & _).
    vm_compute in Hh. injection Hh as <-. exact Hs.
  - destruct (Hrun [(90, demo_confirm); (90, demo_confirm)]) as (n & w' & E & Es & Hn).
    { repeat constructor; vm_compute; try congruence; by eexists. }
    exists w'. vm_compute in E. injection E as <- <-. split; reflexivity.
Defined.

(** A staging area with two entries of one key, as after an exit that was denied and a second
    life of the node: an exit settles the entry of the first life. *)
Lemma stale_entry_settled :
  let second := RemovedNode 1900 1950 voluntary_exit 0 0 (0, 0, 0) [9] (rn_info demo_removed_node) in
  let w := with_state demo_exit_world (with_removed (w_state demo_exit_world) [demo_removed_node; second]) in
  exists w', confirm_exit [] (fun k => k) [7] 100 demo_confirm w = Some (ConfirmResult true false (exit_stakes demo_removed_node demo_confirm), w') /\
    recently_removed_nodes (w_state w') = [second].
Proof. eexists. split; vm_compute; reflexivity. Qed.

(** An operator without an Ethereum address: the partner is slashed. *)
Lemma partner_slashed :
  let partner := demo_contributor 2 40 in
  let operator := Contributor 60 60 (AccountAddress [] []) (null_bytes 20) (null_bytes 20) [] in
  let node := demo_removed [operator; partner] in
  exists r w', confirm_exit [] (fun k => k) [7] 90 demo_confirm
      (with_state demo_exit_world (with_removed (w_state demo_exit_world) [node])) = Some (r, w') /\
    cr_success r = true /\ ((fun s => (es_addr s, to_coin (es_liquidation s))) <$> cr_exit_stakes r) = [(replicate 20 2, 10)].
Proof. eexists _, _. split; [vm_compute; reflexivity|]. split; vm_compute; reflexivity. Qed.
