(* ===== verification/PulseEntropy.v ===== *)
(** * Entropy of the pulse quorums

    The hashes from which the pulse quorum of a block is drawn, of
    [cryptonote_core/service_node_list.cpp] and [service_node_list.h]: computed from the
    database ([get_pulse_entropy_for_next_block]) or kept in a window that moves with the
    chain ([pulse_entropy_feeder]).  The two agree after any sequence of added blocks, in
    which blocks of other branches, other rounds and older versions may be mixed. *)
From stdpp Require Import gmap.
From S2P Require Import Prelude Hardfork Rules Voting Transactions NodeProof.
#[local] Open Scope Z_scope.

(** A database: the block of a hash, of the main chain or of an alternative one. *)
Abbreviation database := (bytes -> option block).

Section Entropy.
Context (cn_fast_hash : bytes -> bytes).

Definition pulse_entropy (round : Z) (b : block) : bytes :=
  if has_pulse b then cn_fast_hash (u8 round :: random_value (b_pulse b))
  else cn_fast_hash (u8 round :: b_hash b).

Definition make_pulse_entropy_from_blocks (blocks : list block) (round : Z) : list bytes :=
  pulse_entropy round <$> blocks.

(** ** From the database *)

Definition find_block_in_db (get_block get_alt_block : database) : database :=
  fun hash => match get_block hash with Some b => Some b | None => get_alt_block hash end.

Section Database.
Context (find : database).

(** The loop [while (prev_height > start_height)], the blocks in the order they are pushed. *)
Fixpoint collect_blocks (n : nat) (start_height end_height : Z) (prev_hash : bytes)
    : option (list block) :=
  match n with
  | O => Some []
  | S n' =>
      let prev_height := start_height + Z.of_nat n in
      b ← find prev_hash;
      rest ← collect_blocks n' start_height end_height (b_prev_id b);
      Some (if (start_height <=? prev_height) && (prev_height <=? end_height) then b :: rest else rest)
  end.

(** No hashes where the code logs an error. *)
Definition entropy_after (top_block : block) (round : Z) : list bytes :=
  let top_height := b_height top_block in
  if top_height <? PULSE_QUORUM_ENTROPY_LAG then []
  else
    let start_height := top_height - PULSE_QUORUM_ENTROPY_LAG in
    let end_height := start_height + PULSE_QUORUM_SIZE in
    match collect_blocks (Z.to_nat (top_height - start_height)) start_height end_height
            (b_prev_id top_block) with
    | None => []
    | Some blocks => make_pulse_entropy_from_blocks (reverse blocks) round
    end.

Definition get_pulse_entropy_for_next_block (top_hash : bytes) (round : Z) : list bytes :=
  match find top_hash with
  | None => []
  | Some top_block => entropy_after top_block round
  end.

End Database.

(** ** The window *)

Definition WINDOW_SIZE : nat := Z.to_nat (PULSE_QUORUM_ENTROPY_LAG + 2).

Record pulse_entropy_feeder := Feeder {
  init : bool;
  feeder_round : Z;
  last_hash : bytes;
  data : list bytes;
}.
Definition empty_feeder : pulse_entropy_feeder :=
  Feeder false 0 (null_bytes 32) (replicate WINDOW_SIZE (null_bytes 32)).

(** The loop that fills [data] from its end. *)
Fixpoint seed_window (find : database) (round : Z) (n : nat) (prev_id : bytes) : option (list bytes) :=
  match n with
  | O => Some []
  | S n =>
      b ← find prev_id;
      front ← seed_window find round n (b_prev_id b);
      Some (front ++ [pulse_entropy round b])
  end.

Definition add_block (find : database) (f : pulse_entropy_feeder) (b : block)
    : bool * pulse_entropy_feeder :=
  let round := pulse_round (b_pulse b) in
  if major_version b <? hf16_pulse then (false, f)
  else if bool_decide (b_hash b = last_hash f) then (true, f)
  else if negb (init f) || negb (feeder_round f =? round) || bool_decide (last_hash f <> b_prev_id b)
  then
    match seed_window find round WINDOW_SIZE (b_hash b) with
    | None => (false, empty_feeder)
    | Some data => (true, Feeder true round (b_hash b) data)
    end
  else (true, Feeder true round (b_hash b) (drop 1 (data f) ++ [pulse_entropy round b])).

Definition get_window (f : pulse_entropy_feeder) : list bytes :=
  if init f then take (Z.to_nat PULSE_QUORUM_SIZE) (data f) else [].

(** Blocks added one after the other, each with the database of its time. *)
Definition add_blocks (f : pulse_entropy_feeder) (history : list (database * block))
    : pulse_entropy_feeder :=
  foldl (fun f h => (add_block h.1 f h.2).2) f history.

(** ** Chains of blocks *)

(** The [n] blocks that end at a hash, the latest first. *)
Fixpoint chain (find : database) (n : nat) (hash : bytes) : option (list block) :=
  match n with
  | O => Some []
  | S n => b ← find hash; cons b <$> chain find n (b_prev_id b)
  end.

Lemma length_chain find n hash l : chain find n hash = Some l -> length l = n.
Proof.
  revert hash l. induction n as [|n IH]; intros hash l E; cbn in E; [by simplify_eq|].
  destruct (find hash) as [b|]; [|done]. cbn in E. apply fmap_Some in E as (l' & E & ->).
  cbn. f_equal. by eapply IH.
Qed.

Lemma seed_window_chain find round n hash :
  seed_window find round n hash
  = (fun l => make_pulse_entropy_from_blocks (reverse l) round) <$> chain find n hash.
Proof.
  revert hash. induction n as [|n IH]; intros hash; [done|]. cbn [seed_window chain].
  destruct (find hash) as [b|]; [|done]. cbn [mbind option_bind]. rewrite IH.
  destruct (chain find n (b_prev_id b)) as [l|]; [|done].
  cbn [mbind option_bind fmap option_fmap option_map]. unfold make_pulse_entropy_from_blocks. by rewrite reverse_cons, fmap_app.
Qed.

Lemma chain_prefix find n hash l :
  chain find (S n) hash = Some l -> chain find n hash = Some (take n l).
Proof.
  revert hash l. induction n as [|n IH]; intros hash l E; [done|].
  cbn [chain] in *. destruct (find hash) as [b|]; [|done].
  cbn in E. apply fmap_Some in E as (l' & E & ->). cbn. by rewrite (IH _ _ E).
Qed.

(** The loop keeps the blocks of the last [end_height - start_height] steps. *)
Lemma collect_blocks_chain find n start (keep : nat) hash :
  collect_blocks find n start (start + Z.of_nat keep) hash = drop (n - keep) <$> chain find n hash.
Proof.
  revert hash. induction n as [|n IH]; intros hash; [done|]. cbn [collect_blocks chain].
  destruct (find hash) as [b|]; [|done]. cbn [mbind option_bind]. rewrite IH.
  destruct (chain find n (b_prev_id b)) as [l|] eqn:E; [|done]. cbn [fmap option_fmap option_map mbind option_bind].
  f_equal. rewrite (proj2 (Z.leb_le _ _)) by lia. cbn [andb].
  destruct (Z.leb_spec (start + Z.of_nat (S n)) (start + Z.of_nat keep)).
  - replace (n - keep)%nat with 0%nat by lia. by replace (S n - keep)%nat with 0%nat by lia.
  - replace (S n - keep)%nat with (S (n - keep)) by lia. done.
Qed.

(** ** The blocks that a hash can name *)

(** What hashes stand for, over all branches: a block and its parent have consecutive
    heights. *)
Record content_ok (content : database) : Prop := {
  content_hash hash b : content hash = Some b -> b_hash b = hash;
  content_height hash b : content hash = Some b -> 0 <= b_height b;
  content_parent hash b p :
    content hash = Some b -> content (b_prev_id b) = Some p -> b_height b = b_height p + 1;
}.

(** A database holds such blocks, each with its ancestors. *)
Record db_ok (content find : database) : Prop := {
  db_content hash b : find hash = Some b -> content hash = Some b;
  db_closed hash b : find hash = Some b -> 0 < b_height b -> is_Some (find (b_prev_id b));
}.

Section Content.
Context (content : database) (Hc : content_ok content).

Lemma chain_height n hash b l :
  content hash = Some b -> chain content n hash = Some l -> Z.of_nat n <= b_height b + 1.
Proof.
  revert hash b l. induction n as [|n IH]; intros hash b l Hb E.
  { pose proof (content_height _ Hc _ _ Hb). lia. }
  cbn [chain] in E. rewrite Hb in E. cbn in E. apply fmap_Some in E as (l' & E & ->).
  pose proof (content_height _ Hc _ _ Hb). destruct n as [|n]; [lia|].
  cbn [chain] in E. destruct (content (b_prev_id b)) as [p|] eqn:Hp; [|done].
  pose proof (content_parent _ Hc _ _ _ Hb Hp). assert (Z.of_nat (S n) <= b_height p + 1); [|lia].
  eapply (IH _ p); [done|]. cbn [chain]. rewrite Hp. exact E.
Qed.

(** A database has every chain that ends at one of its blocks. *)
Lemma chain_db find n hash b :
  db_ok content find -> find hash = Some b -> chain find n hash = chain content n hash.
Proof.
  intros Hd. revert hash b. induction n as [|n IH]; intros hash b Hb; [done|].
  cbn [chain]. pose proof (db_content _ _ Hd _ _ Hb) as Hb'. rewrite Hb, Hb'. cbn.
  destruct (find (b_prev_id b)) as [p|] eqn:Hp; [by erewrite IH|].
  destruct n as [|n]; [done|]. cbn [chain]. rewrite Hp. cbn.
  destruct (content (b_prev_id b)) as [p|] eqn:Hp'; [|done].
  pose proof (content_parent _ Hc _ _ _ Hb' Hp'). pose proof (content_height _ Hc _ _ Hp').
  destruct (db_closed _ _ Hd _ _ Hb) as [q Hq]; [lia|congruence].
Qed.

(** ** The window holds the chain of the last block *)

Definition feeder_ok (f : pulse_entropy_feeder) : Prop :=
  if init f then
    exists b l, content (last_hash f) = Some b /\ feeder_round f = pulse_round (b_pulse b) /\
      chain content WINDOW_SIZE (last_hash f) = Some l /\
      data f = make_pulse_entropy_from_blocks (reverse l) (feeder_round f)
  else last_hash f = null_bytes 32.

(** The window that belongs to a block. *)
Definition window_at (b : block) : list bytes :=
  match chain content WINDOW_SIZE (b_hash b) with
  | Some l => take (Z.to_nat PULSE_QUORUM_SIZE)
                (make_pulse_entropy_from_blocks (reverse l) (pulse_round (b_pulse b)))
  | None => []
  end.

Lemma window_at_entropy find b :
  db_ok content find -> find (b_hash b) = Some b ->
  window_at b = get_pulse_entropy_for_next_block find (b_prev_id b) (pulse_round (b_pulse b)).
Proof.
  intros Hd Hb. unfold window_at, get_pulse_entropy_for_next_block, entropy_after.
  rewrite <- (chain_db find _ _ b Hd Hb). change WINDOW_SIZE with (2 + 21)%nat.
  cbn [Nat.add chain]. rewrite Hb. cbn [mbind option_bind].
  destruct (find (b_prev_id b)) as [top|] eqn:Ht; [|done]. cbn [mbind option_bind].
  pose proof (db_content _ _ Hd _ _ Ht) as Ht'. change PULSE_QUORUM_ENTROPY_LAG with 21.
  change PULSE_QUORUM_SIZE with (Z.of_nat 12).
  set (c := b ← find (b_prev_id top); _). replace c with (chain find 21 (b_prev_id top)) by reflexivity.
  clear c. destruct (chain find 21 (b_prev_id top)) as [l|] eqn:El; cbn [fmap option_fmap option_map].
  - pose proof (length_chain _ _ _ _ El) as Hl.
    assert (22 <= b_height top + 1) as Hh.
    { apply (chain_height 22 (b_prev_id b) top (top :: l)); [done|]. rewrite <- (chain_db find _ _ top Hd Ht).
      change 22%nat with (S 21). cbn [chain]. rewrite Ht. cbn [mbind option_bind].
      change (cons top <$> chain find 21 (b_prev_id top) = Some (top :: l)). by rewrite El. }
    destruct (Z.ltb_spec (b_height top) 21); [lia|].
    replace (Z.to_nat (b_height top - _)) with 21%nat by lia. rewrite collect_blocks_chain, El. cbn [fmap option_fmap option_map].
    unfold make_pulse_entropy_from_blocks. rewrite <- fmap_take, !reverse_cons, <- !app_assoc. f_equal.
    rewrite take_app_le by (rewrite length_reverse; cbn; lia).
    change (Z.to_nat (Z.of_nat 12)) with 12%nat. change (21 - 12)%nat with 9%nat.
    rewrite <- (reverse_involutive (take 12 _)). f_equal.
    rewrite <- (take_drop 9 l) at 1. rewrite reverse_app.
    rewrite take_app_length' by (rewrite length_reverse, length_drop; lia). by rewrite reverse_involutive.
  - destruct (Z.ltb_spec (b_height top) 21); [done|].
    replace (Z.to_nat (b_height top - _)) with 21%nat by lia. rewrite collect_blocks_chain, El. done.
Qed.

Lemma empty_feeder_ok : feeder_ok empty_feeder.
Proof. done. Qed.

(** Appending a block moves the window of its parent. *)
Lemma shift_window b l :
  content (b_hash b) = Some b -> chain content WINDOW_SIZE (b_prev_id b) = Some l ->
  exists l', chain content WINDOW_SIZE (b_hash b) = Some l' /\
    forall round, drop 1 (make_pulse_entropy_from_blocks (reverse l) round) ++ [pulse_entropy round b]
                  = make_pulse_entropy_from_blocks (reverse l') round.
Proof using Type.
  intros Hb El. pose proof (length_chain _ _ _ _ El) as Hl. apply (chain_prefix _ 22) in El.
  exists (b :: take 22 l). change WINDOW_SIZE with (S 22). split.
  { cbn [chain]. rewrite Hb. cbn [mbind option_bind].
    change (cons b <$> chain content 22 (b_prev_id b) = Some (b :: take 22 l)). by rewrite El. }
  intros round. unfold make_pulse_entropy_from_blocks.
  rewrite reverse_cons, fmap_app, <- fmap_drop. f_equal. f_equal.
  rewrite <- (take_drop 22 l) at 1. rewrite reverse_app.
  by rewrite drop_app_length' by (rewrite length_reverse, length_drop, Hl; reflexivity).
Qed.

(** A block of the pulse versions leaves its window, and the invariant holds. *)
Lemma add_block_window find f b :
  db_ok content find -> find (b_hash b) = Some b -> b_hash b <> null_bytes 32 -> feeder_ok f ->
  feeder_ok (add_block find f b).2 /\
  (hf16_pulse <= major_version b -> get_window (add_block find f b).2 = window_at b).
Proof.
  intros Hd Hb Hnull Hf. pose proof (db_content _ _ Hd _ _ Hb) as Hb'. unfold add_block.
  destruct (Z.ltb_spec (major_version b) hf16_pulse); [by split; [|lia]|].
  destruct (bool_decide_reflect (b_hash b = last_hash f)) as [Heq|Hne].
  { split; [done|]. intros _. unfold feeder_ok, get_window, window_at in *. cbn.
    destruct (init f); [|congruence]. destruct Hf as (b' & l & Hb0 & Hr & Hl & Hdata).
    assert (b' = b) as -> by congruence. by rewrite Heq, Hl, Hdata, Hr. }
  destruct (_ || _) eqn:Eseed.
  - rewrite seed_window_chain, (chain_db find _ _ b Hd Hb). unfold get_window, window_at.
    destruct (chain content WINDOW_SIZE (b_hash b)) as [l|] eqn:El; cbn; [|done].
    split; [|done]. by exists b, l.
  - apply orb_false_iff in Eseed as [[Hinit%negb_false_iff Hr%negb_false_iff%Z.eqb_eq]%orb_false_iff Hlast].
    apply bool_decide_eq_false, dec_stable in Hlast. unfold feeder_ok in Hf. rewrite Hinit in Hf.
    destruct Hf as (b' & l & _ & _ & Hl & Hdata). rewrite Hlast in Hl.
    destruct (shift_window b l Hb' Hl) as (l' & Hl' & Hshift). rewrite Hdata, Hr, Hshift.
    unfold get_window, window_at. cbn. rewrite Hl'. split; [|done]. by exists b, l'.
Qed.

Definition history_ok (history : list (database * block)) : Prop :=
  Forall (fun h => db_ok content h.1 /\ h.1 (b_hash h.2) = Some h.2 /\ b_hash h.2 <> null_bytes 32) history.

Lemma add_blocks_ok f history : feeder_ok f -> history_ok history -> feeder_ok (add_blocks f history).
Proof.
  intros Hf Hh. revert f Hf. induction Hh as [|[find b] history (Hd & Hb & Hn) _ IH]; intros f Hf; [done|].
  cbn. apply IH. by apply add_block_window.
Qed.

Lemma feeder_window history find b :
  history_ok (history ++ [(find, b)]) -> hf16_pulse <= major_version b ->
  get_window (add_blocks empty_feeder (history ++ [(find, b)]))
  = get_pulse_entropy_for_next_block find (b_prev_id b) (pulse_round (b_pulse b)).
Proof.
  intros [Hh (Hd & Hb & Hn)%Forall_singleton]%Forall_app Hv. cbn in Hd, Hb, Hn.
  unfold add_blocks. rewrite foldl_app. cbn [foldl fst snd].
  rewrite <- (window_at_entropy find b Hd Hb).
  apply add_block_window; [done..| |done]. by apply (add_blocks_ok empty_feeder).
Qed.
End Content.

(** (C24) The window is a sound cache: after any sequence of blocks, with reorganisations,
    repeated blocks, changing rounds and blocks before pulse in between, the window for the
    block added last is the entropy computed from the database for a block on top of its
    parent, also where there are too few blocks for it. *)
Theorem pulse_entropy_feeder_exact content history find b :
  content_ok content -> history_ok content (history ++ [(find, b)]) -> hf16_pulse <= major_version b ->
  get_window (add_blocks empty_feeder (history ++ [(find, b)]))
  = get_pulse_entropy_for_next_block find (b_prev_id b) (pulse_round (b_pulse b)).
Proof. intros Hc. by apply feeder_window. Qed.

End Entropy.

(** ** A chain with a fork *)

Definition lookup_block (blocks : list block) (hash : bytes) : option block :=
  snd <$> list_find (fun b => b_hash b = hash) blocks.

Definition linked (blocks : list block) (b : block) : bool :=
  (0 <=? b_height b) &&
  match lookup_block blocks (b_prev_id b) with
  | Some p => b_height b =? b_height p + 1
  | None => b_height b =? 0
  end.

Lemma lookup_block_Some blocks hash b :
  lookup_block blocks hash = Some b -> b ∈ blocks /\ b_hash b = hash.
Proof.
  intros ([i b'] & (Hi & Hb & _)%list_find_Some & ->)%fmap_Some. split; [|done].
  by eapply list_elem_of_lookup_2.
Qed.

Lemma linked_blocks_ok blocks :
  forallb (linked blocks) blocks = true ->
  content_ok (lookup_block blocks) /\ db_ok (lookup_block blocks) (lookup_block blocks).
Proof.
  intros Hall. assert (forall hash b, lookup_block blocks hash = Some b -> linked blocks b = true) as Hl.
  { intros hash b [Hin _]%lookup_block_Some. eapply forallb_forall in Hall; [done|].
    by apply list_elem_of_In. }
  split; split.
  - intros hash b [_ Hb]%lookup_block_Some. done.
  - intros hash b [Hh%Z.leb_le _]%Hl%andb_true_iff. done.
  - intros hash b p [_ Hp]%Hl%andb_true_iff Hpp. rewrite Hpp in Hp. by apply Z.eqb_eq.
  - done.
  - intros hash b [_ Hp]%Hl%andb_true_iff Hpos. destruct (lookup_block blocks (b_prev_id b)); [done|].
    apply Z.eqb_eq in Hp. lia.
Qed.

(** The main chain is branch 0 up to height 30; branch 1 leaves it after height 28. *)
Definition demo_pulse_block (branch round h : Z) : block :=
  Block hf16_pulse h 0 [branch; h] [if h <=? 29 then 0 else branch; h - 1] 0
    (PulseHeader (replicate 16 (h + branch)) round 1) [] [] [] 0 0.
Definition demo_chain : list block :=
  (demo_pulse_block 0 0 <$> seqZ 0 31) ++ (demo_pulse_block 1 2 <$> seqZ 29 3).
Definition demo_history : list (database * block) :=
  pair (lookup_block demo_chain) <$>
    (demo_pulse_block 0 0 <$> [28; 29; 29; 30]) ++ (demo_pulse_block 1 2 <$> [29; 30]).

Lemma pulse_entropy_feeder_exact_witness :
  let b := demo_pulse_block 1 2 31 in
  let w := get_window (add_blocks id empty_feeder (demo_history ++ [(lookup_block demo_chain, b)])) in
  w = get_pulse_entropy_for_next_block id (lookup_block demo_chain) [1; 30] 2 /\
  head w = Some (2 :: replicate 16 9) /\ length w = 12%nat.
Proof.
  intros b w. split; [|split; vm_compute; reflexivity].
  destruct (linked_blocks_ok demo_chain) as [Hc Hd]; [vm_compute; reflexivity|].
  apply (pulse_entropy_feeder_exact id (lookup_block demo_chain) demo_history (lookup_block demo_chain) b Hc);
    [|vm_compute; discriminate].
  repeat (apply Forall_cons; split;
    [split; [exact Hd | split; [vm_compute; reflexivity | vm_compute; discriminate]]|]).
  apply Forall_nil. exact I.
Defined.
