(* ===== verification/BlockUpdate.v ===== *)
(** * Adding a block to the service node list

    [state_t::update_from_block] and [get_next_block_leader] of
    [cryptonote_core/service_node_list.cpp]: who leads the block, the pulse quorum, expiry,
    the transactions of the block, the swarms and the quorums that the new state defines.
    The list of nodes is an unordered map in the code, so every walk over it is over a
    listing [order] of the map.  The migrations that run once, at the first blocks of
    [hf21_eth] and [hf22_eth_fixup], are parameters; the hooks of the mock network are left
    out. *)
From stdpp Require Import gmap.
From S2P Require Import Prelude Order Hardfork Config Address Rules Voting Transactions L2Votes NodeProof.
From S2P Require Import ServiceNode NodeList Random Swarm Quorums Staking Events PulseEntropy.
#[local] Open Scope Z_scope.

Definition STAKING_REQUIREMENT_LOCK_BLOCKS_EXCESS : Z := 20.

(** ** Setters *)

Definition with_quorums (st : state_t) (q : quorum_manager) : state_t :=
  State (service_nodes_infos st) (key_image_blacklist st) (x25519_map st) (bls_map st) (st_height st)
    q (recently_removed_nodes st) (st_staking_requirement st) (unconfirmed_l2_txes st) (block_hash st)
    (block_leader st).
Definition with_position (st : state_t) (height : Z) (hash : bytes) : state_t :=
  State (service_nodes_infos st) (key_image_blacklist st) (x25519_map st) (bls_map st) height
    (quorums st) (recently_removed_nodes st) (st_staking_requirement st) (unconfirmed_l2_txes st) hash
    (block_leader st).
Definition with_leader (st : state_t) (leader : bytes) : state_t :=
  State (service_nodes_infos st) (key_image_blacklist st) (x25519_map st) (bls_map st) (st_height st)
    (quorums st) (recently_removed_nodes st) (st_staking_requirement st) (unconfirmed_l2_txes st)
    (block_hash st) leader.

Definition with_sorter_and_swarm (info : service_node_info) (k : pulse_sort_key) (swarm : Z)
    : service_node_info := {|
  registration_height := registration_height info;
  requested_unlock_height := requested_unlock_height info;
  last_reward_block_height := last_reward_block_height info;
  last_reward_transaction_index := last_reward_transaction_index info;
  decommission_count := decommission_count info;
  active_since_height := active_since_height info;
  last_decommission_height := last_decommission_height info;
  last_decommission_reason_consensus_all := last_decommission_reason_consensus_all info;
  last_decommission_reason_consensus_any := last_decommission_reason_consensus_any info;
  recommission_credit := recommission_credit info;
  contributors := contributors info;
  total_contributed := total_contributed info;
  total_reserved := total_reserved info;
  staking_requirement := staking_requirement info;
  portions_for_operator := portions_for_operator info;
  swarm_id := swarm;
  operator_address := operator_address info;
  operator_ethereum_address := operator_ethereum_address info;
  bls_public_key := bls_public_key info;
  last_ip_change_height := last_ip_change_height info;
  registration_hf_version := registration_hf_version info;
  pulse_sorter := k |}.

(** ** The block leader *)

Definition waiting_since (e : entry) : Z * Z * bytes :=
  (last_reward_block_height e.2, last_reward_transaction_index e.2, e.1).

(** The walk keeps the entry that waits longest and its tuple. *)
Definition longer_waiting (best : option entry * (Z * Z * bytes)) (e : entry)
    : option entry * (Z * Z * bytes) :=
  if triple_ltb (waiting_since e) best.2 then (Some e, waiting_since e) else best.

Definition oldest_waiting (active : list entry) : option entry * (Z * Z * bytes) :=
  foldl longer_waiting (None, (UINT64_MAX, UINT32_MAX, null_bytes 32)) active.

(** The leader found by the walk of [update_from_block]; the null key if there is none. *)
Definition next_leader (active : list entry) : bytes :=
  from_option fst (null_bytes 32) (oldest_waiting active).1.

Definition active_of (l : list entry) : list entry := filter (fun e => is_active e.2 = true) l.

(** [get_next_block_leader] when nothing is cached: the key of the final tuple. *)
Definition get_next_block_leader (l : list entry) : bytes := (oldest_waiting (active_of l)).2.2.

(** ** Pulse candidates *)

(** [erase] of the first entry with the key. *)
Fixpoint remove_first (key : bytes) (l : list entry) : list entry :=
  match l with
  | [] => []
  | e :: l => if bool_decide (e.1 = key) then l else e :: remove_first key l
  end.

Definition pulse_candidates (hf_version : hf) (round : Z) (leader : bytes) (active : list entry)
    : list entry :=
  let candidates := sort_by pulse_candidates_sorter active in
  let candidates := if round =? 0 then remove_first leader candidates else candidates in
  if hf22_sn_policy <=? hf_version then dedup [] candidates else candidates.

(** The validators go to the back of the list of candidates. *)
Fixpoint send_to_back (height i : Z) (keys : list bytes) (infos : gmap bytes service_node_info)
    : option (gmap bytes service_node_info) :=
  match keys with
  | [] => Some infos
  | key :: keys =>
      info ← infos !! key;
      send_to_back height (i + 1) keys
        (<[key := with_sorter_and_swarm info (PulseSortKey height (u8 i)) (swarm_id info)]> infos)
  end.

(** ** Expiry *)

(** [None] when [get_config] throws. *)
Definition is_expired_node_hf10_onwards (nettype : network_type) (hf_version : hf) (block_height : Z)
    (info : service_node_info) : option bool :=
  if hf_version <? hf10_bulletproofs then Some false
  else if hf11_infinite_staking <=? registration_hf_version info then
    Some (negb (requested_unlock_height info =? 0) && (requested_unlock_height info <? block_height))
  else
    lock_blocks ← staking_num_lock_blocks nettype;
    Some (u64 (registration_height info + lock_blocks + STAKING_REQUIREMENT_LOCK_BLOCKS_EXCESS)
          <? block_height).

(** The keys for which a test holds, in order. *)
Fixpoint keys_where (test : service_node_info -> option bool) (l : list entry) : option (list bytes) :=
  match l with
  | [] => Some []
  | e :: l =>
      t ← test e.2;
      keys ← keys_where test l;
      Some (if t : bool then e.1 :: keys else keys)
  end.

Definition expire_blacklist (hf_version : hf) (height : Z) (l : list key_image_blacklist_entry)
    : list key_image_blacklist_entry :=
  if (hf11_infinite_staking <=? hf_version) && (hf_version <? hf21_eth) then
    filter (fun e => height < be_unlock_height e) l
  else l.

(** ** Swarms *)

(** [existing_swarms[id].push_back(key)]. *)
Fixpoint swarm_push (id : Z) (key : bytes) (m : swarm_snode_map) : swarm_snode_map :=
  match m with
  | [] => [(id, [key])]
  | (i, l) :: rest =>
      if id <? i then (id, [key]) :: m
      else if id =? i then (i, l ++ [key]) :: rest
      else (i, l) :: swarm_push id key rest
  end.

Definition existing_swarms (active : list entry) : swarm_snode_map :=
  foldl (fun m e => swarm_push (swarm_id e.2) e.1 m) [] active.

(** The loop that writes the new swarm of each node; [at] throws on an unknown key. *)
Fixpoint apply_swarms (assignments : list (Z * bytes)) (infos : gmap bytes service_node_info)
    : option (gmap bytes service_node_info) :=
  match assignments with
  | [] => Some infos
  | (id, key) :: rest =>
      info ← infos !! key;
      apply_swarms rest
        (if swarm_id info =? id then infos
         else <[key := with_sorter_and_swarm info (pulse_sorter info) id]> infos)
  end.

Definition assignments (m : swarm_snode_map) : list (Z * bytes) :=
  e ← m; (fun key => (e.1, key)) <$> e.2.

Definition key_ltb (a b : entry) : bool := bytes_ltb a.1 b.1.

Section Update.
Context (fk : list hard_fork).
Context (cn_fast_hash : bytes -> bytes).
Context (check_signature : bytes -> bytes -> bytes -> bool).
Context (check_key : bytes -> bool).
Context (ed25519_verify : bytes -> bytes -> bytes -> bool).
Context (snpk_to_xpk : bytes -> bytes).
Context (generate_key_derivation : bytes -> bytes -> option bytes).
Context (derive_public_key : bytes -> Z -> bytes -> option bytes).
Context (derivation_to_scalar : bytes -> Z -> bytes).
Context (decodeRctSimple decodeRct : bytes -> bytes -> Z -> option Z).
Context (check_key_image_signature : bytes -> bytes -> bytes -> bool).
(** The blockchain database. *)
Context (get_tx : bytes -> option transaction).
Context (get_block_from_height : Z -> option block).
Context (find_block : bytes -> option block).
(** The migrations [apply_fixups] and [oxen::sesh::transition], each for its own block. *)
Context (apply_fixups transition : block -> state_t -> state_t).
(** Iteration of the unordered map, [std::sort] of swarm sizes, Boost's engine. *)
Context (order : gmap bytes service_node_info -> list entry).
Context (fuel : nat) (sort_sizes : list swarm_size -> list swarm_size).
Context {G : Type} `{Engine G} (seed_number : Z -> G) (seed_sequence : list Z -> G).

Abbreviation registration_of_tx := (is_registration_tx cn_fast_hash check_signature check_key
  ed25519_verify generate_key_derivation derive_public_key derivation_to_scalar decodeRctSimple
  decodeRct check_key_image_signature).

(** *** Nodes that expire with the block *)

Fixpoint registered_keys (nettype : network_type) (b : block) (height : Z) (hashes : list bytes)
    : option (list bytes) :=
  match hashes with
  | [] => Some []
  | hash :: hashes =>
      match get_tx hash with
      | None => registered_keys nettype b height hashes
      | Some tx =>
          reg ← registration_of_tx nettype hf9_service_nodes tx (b_timestamp b) height 0
                  (get_default_staking_requirement_at fk nettype height);
          keys ← registered_keys nettype b height hashes;
          Some (match reg with Some (key, _) => key :: keys | None => keys end)
      end
  end.

Definition get_expired_nodes_for_hf9 (nettype : network_type) (block_height : Z) : option (list bytes) :=
  lock_blocks ← staking_num_lock_blocks nettype;
  if block_height <=? lock_blocks then Some []
  else
    match get_block_from_height (block_height - lock_blocks) with
    | None => Some []
    | Some b =>
        if major_version b <? hf9_service_nodes then Some []
        else registered_keys nettype b (block_height - lock_blocks) (tx_hashes b)
    end.

Definition expired_nodes (nettype : network_type) (b : block) (l : list entry) : option (list bytes) :=
  let hf_version := major_version b in
  hf9 ← (if hf_version =? hf9_service_nodes then get_expired_nodes_for_hf9 nettype (b_height b)
         else Some []);
  later ← (if hf10_bulletproofs <=? hf_version
           then keys_where (is_expired_node_hf10_onwards nettype hf_version (b_height b)) l
           else Some []);
  Some (hf9 ++ later).

(** Erasing nodes one after the other; a node that is gone is skipped.  The result says
    whether an active one was among them. *)
Fixpoint erase_nodes (type : removed_type) (keys : list bytes) (need_swarm_update : bool)
    (st : state_t) (nl : option node_list) : option (bool * state_t) :=
  match keys with
  | [] => Some (need_swarm_update, st)
  | key :: keys =>
      match service_nodes_infos st !! key with
      | None => erase_nodes type keys need_swarm_update st nl
      | Some info =>
          st' ← erase_info fk snpk_to_xpk st nl key info type;
          erase_nodes type keys (need_swarm_update || is_active info) st' nl
      end
  end.

(** The incomplete registrations removed at the first block of the L2 transition. *)
Definition remove_unfunded (nettype : network_type) (st : state_t) (nl : option node_list)
    : option state_t :=
  if bool_decide (hard_fork_begins fk nettype hf20_eth_transition = Some (st_height st)) then
    snd <$> erase_nodes removed_deregister
              (filter (fun e => is_fully_funded e.2 = false) (order (service_nodes_infos st))).*1
              false st nl
  else Some st.

(** The winner goes to the back of the queue. *)
Definition advance_winner (winner : bytes) (st : state_t) : state_t :=
  match service_nodes_infos st !! winner with
  | None => st
  | Some info =>
      with_infos st (<[winner := with_reward_position info (st_height st)]> (service_nodes_infos st))
  end.

Definition initialize_alt_pk_maps (st : state_t) (nl : option node_list) : state_t :=
  match nl with
  | Some l =>
      if is_hard_fork_at_least fk (nl_nettype l) feature_ETH_BLS (st_height st) then
        let nodes := ((fun e : entry => (e.1, bls_public_key e.2)) <$> order (service_nodes_infos st)) ++
                     ((fun n => (rn_service_node_pubkey n, bls_public_key (rn_info n)))
                        <$> recently_removed_nodes st) in
        let add f (m : gmap bytes bytes) (n : bytes * bytes) :=
          match m !! (f n) with Some _ => m | None => <[f n := n.1]> m end in
        with_maps st (foldl (add (fun n => snpk_to_xpk n.1)) (x25519_map st) nodes)
          (foldl (add snd) (bls_map st) nodes)
      else st
  | None => st
  end.

(** *** Transactions *)

Definition staking_tx_type (hf_version : hf) : txtype :=
  if txtype_value (get_max_type_for_hf hf_version) <? txtype_value txtype_stake then txtype_standard
  else txtype_stake.

Definition process_stake (nettype : network_type) (b : block) (tx : transaction) (index : Z) (w : world)
    : option (bool * world) :=
  '(_, st, nl) ← process_registration_tx fk cn_fast_hash check_signature check_key ed25519_verify
                   snpk_to_xpk generate_key_derivation derive_public_key derivation_to_scalar
                   decodeRctSimple decodeRct check_key_image_signature nettype b tx index
                   (w_state w) (w_list w);
  '(swarm, st) ← process_contribution_tx generate_key_derivation derive_public_key
                   derivation_to_scalar decodeRctSimple decodeRct check_key_image_signature
                   nettype b tx index st;
  Some (swarm, World st nl (w_payments w)).

(** What one transaction does: whether swarms change, and the new state. *)
Definition process_tx (state_history state_archive : gmap Z state_t) (alt_states : list (bytes * state_t))
    (nettype : network_type) (b : block) (tx : transaction) (index : Z) (w : world)
    : option (bool * world) :=
  match tx_type tx with
  | txtype_standard | txtype_stake =>
      if bool_decide (tx_type tx = staking_tx_type (major_version b))
      then process_stake nettype b tx index w
      else Some (false, w)
  | txtype_state_change =>
      '(swarm, st, nl) ← process_state_change_tx fk cn_fast_hash check_signature snpk_to_xpk
                           state_history state_archive alt_states nettype b tx (w_state w) (w_list w);
      Some (swarm, World st nl (w_payments w))
  | txtype_key_image_unlock =>
      '(_, st) ← process_key_image_unlock_tx check_signature nettype (major_version b)
                   (st_height (w_state w)) tx (w_state w);
      Some (false, with_state w st)
  | txtype_oxen_name_system => Some (false, w)
  | _ =>
      st ← process_new_ethereum_tx get_tx b tx (w_state w);
      Some (false, with_state w st)
  end.

Fixpoint process_txs (state_history state_archive : gmap Z state_t) (alt_states : list (bytes * state_t))
    (nettype : network_type) (b : block) (txs : list transaction) (index : Z) (need_swarm_update : bool)
    (w : world) : option (bool * world) :=
  match txs with
  | [] => Some (need_swarm_update, w)
  | tx :: txs =>
      '(swarm, w) ← process_tx state_history state_archive alt_states nettype b tx index w;
      process_txs state_history state_archive alt_states nettype b txs (index + 1)
        (need_swarm_update || swarm) w
  end.

(** *** The steps of the update *)

(** The walk over the list before the block: candidates, expired nodes, leader, counts. *)
Record pre_block := PreBlock {
  pre_candidates : list entry;
  pre_expired : list bytes;
  pre_leader : bytes;
  pre_active_size : nat;
}.

Definition precompute (nettype : network_type) (b : block) (st : state_t) : option pre_block :=
  let l := order (service_nodes_infos st) in
  let active := active_of l in
  expired ← expired_nodes nettype b l;
  Some (PreBlock
    (if hf16_pulse <=? major_version b
     then pulse_candidates (major_version b) (pulse_round (b_pulse b)) (next_leader active) active
     else [])
    expired (next_leader active) (length active)).

(** The pulse quorum, and its validators sent to the back. *)
Definition update_pulse (nettype : network_type) (b : block) (feed : option pulse_entropy_feeder)
    (pre : pre_block) (st : state_t) : outcome state_t :=
  if major_version b <? hf16_pulse then mret st
  else
    let entropy :=
      match feed with
      | Some f => get_window f
      | None => get_pulse_entropy_for_next_block cn_fast_hash find_block (block_hash st)
                  (pulse_round (b_pulse b))
      end in
    q ← generate_pulse_quorum_with_candidates fuel seed_number seed_sequence nettype (pre_leader pre)
          (major_version b) (pre_active_size pre) (pre_candidates pre) entropy
          (pulse_round (b_pulse b));
    if verify_pulse_quorum_sizes q then
      infos ← of_option (send_to_back (u64 (st_height st + 1)) 0 (validators q) (service_nodes_infos st));
      mret (with_quorums (with_infos st infos)
              (QuorumManager (qm_obligations (quorums st)) (qm_checkpointing (quorums st))
                 (qm_blink (quorums st)) (Some q)))
    else mret st.

Definition no_quorums : quorum_manager := QuorumManager None None None None.

(** From the new height to the transactions. *)
Definition update_list (state_history state_archive : gmap Z state_t)
    (alt_states : list (bytes * state_t)) (nettype : network_type) (b : block)
    (txs : list transaction) (pre : pre_block) (w : world)
    : option (bool * world * block_stakes) :=
  let height := u64 (st_height (w_state w) + 1) in
  let st := with_position (w_state w) height (b_hash b) in
  st ← remove_unfunded nettype st (w_list w);
  let st := if bool_decide (hard_fork_begins fk nettype hf21_eth = Some height) then transition b st
            else st in
  let st := with_blacklist st (expire_blacklist (major_version b) height (key_image_blacklist st)) in
  '(swarm, st) ← erase_nodes voluntary_exit (pre_expired pre) false st (w_list w);
  let st := advance_winner (pre_leader pre) st in
  '(swarm, w, stakes) ← process_l2_votes fk cn_fast_hash check_signature check_key ed25519_verify
                          snpk_to_xpk get_tx get_block_from_height nettype b height swarm
                          (with_state w st) (BlockStakes [] []);
  let st := w_state w in
  let st := if bool_decide (x25519_map st = ∅) && bool_decide (bls_map st = ∅)
            then initialize_alt_pk_maps st (w_list w) else st in
  '(swarm, w) ← process_txs state_history state_archive alt_states nettype b txs 0 swarm
                  (with_state w st);
  Some (swarm, w, stakes).

(** The lists after the block. *)
Definition active_snode_list (st : state_t) : list entry :=
  sort_by key_ltb (active_of (order (service_nodes_infos st))).
Definition decomm_snode_list (hf_version : hf) (st : state_t) : list bytes :=
  if hf12_checkpointing <=? hf_version then
    sort_by bytes_ltb
      (filter (fun e => is_decommissioned e.2 && is_fully_funded e.2 = true)
         (order (service_nodes_infos st))).*1
  else [].
Definition payable_nodes (nettype : network_type) (b : block) (st : state_t) : option (list bytes) :=
  if hf19_reward_batching <=? major_version b
  then keys_where (fun info => is_payable info (b_height b) nettype) (order (service_nodes_infos st))
  else Some [].

(** [need_swarm_update]: the first eight bytes of the hash seed the assignment. *)
Definition update_swarms (b : block) (active : list entry) (st : state_t) : outcome state_t :=
  '(swarms, _) ← calc_swarm_changes fuel sort_sizes (existing_swarms active) (load_le (take 8 (b_hash b)));
  infos ← of_option (apply_swarms (assignments swarms) (service_nodes_infos st));
  mret (with_infos st infos).

Record block_add_result := BlockAddResult {
  ba_stakes : block_stakes;
  payable_nodes_hf19_onwards : list bytes;
}.

Definition update_from_block (state_history state_archive : gmap Z state_t)
    (alt_states : list (bytes * state_t)) (nettype : network_type) (b : block)
    (txs : list transaction) (feed : option pulse_entropy_feeder) (w : world)
    : outcome (world * block_add_result) :=
  let hf_version := major_version b in
  let st := with_quorums (w_state w) no_quorums in
  let st := if (hf_version =? hf22_eth_fixup)
               && bool_decide (hard_fork_begins fk nettype hf22_eth_fixup = Some (b_height b))
            then apply_fixups b st else st in
  pre ← of_option (precompute nettype b st);
  st ← update_pulse nettype b feed pre st;
  '(swarm, w, stakes) ← of_option (update_list state_history state_archive alt_states nettype b txs pre
                                     (with_state w st));
  payable ← of_option (payable_nodes nettype b (w_state w));
  let active := active_snode_list (w_state w) in
  let decomm := decomm_snode_list hf_version (w_state w) in
  st ← (if swarm : bool then update_swarms b active (w_state w) else mret (w_state w));
  qm ← generate_other_quorums fuel seed_number seed_sequence nettype hf_version (st_height st)
         (block_hash st) active decomm (quorums st);
  mret (with_state w (with_leader (with_quorums st qm) (pre_leader pre)), BlockAddResult stakes payable).

End Update.

(** ** The precomputed candidates give the quorum of the reference *)

Definition pulse_order_key (e : entry) : Z * Z * bytes :=
  (last_height_validating_in_quorum (pulse_sorter e.2), quorum_index (pulse_sorter e.2), e.1).

Lemma pulse_candidates_sorter_key a b :
  pulse_candidates_sorter a b = by_key pulse_order_key triple_ltb a b.
Proof.
  unfold pulse_candidates_sorter, pulse_key_eqb, pulse_key_ltb, by_key, triple_ltb, pulse_order_key. cbn.
  by destruct (_ =? _), (_ =? _).
Qed.

Lemma NoDup_by_last {A B C} (f : A -> B) (g : A -> C) (h : C -> B) (l : list A) :
  (forall a, f a = h (g a)) -> NoDup (f <$> l) -> NoDup (g <$> l).
Proof.
  intros Hfg Hnd. apply (NoDup_fmap_1 h). rewrite <- list_fmap_compose.
  erewrite list_fmap_ext; [exact Hnd|]. intros i x _. cbn. by rewrite Hfg.
Qed.

Lemma NoDup_pulse_keys l : NoDup l.*1 -> NoDup (pulse_order_key <$> l).
Proof. by apply (NoDup_by_last _ _ snd). Qed.

Lemma pulse_sort_unique l l' :
  NoDup l.*1 -> l ≡ₚ l' -> sort_by pulse_candidates_sorter l = sort_by pulse_candidates_sorter l'.
Proof.
  intros Hnd Hp.
  rewrite !(sort_by_as_key pulse_order_key triple_ltb _ _ pulse_candidates_sorter_key);
    [|apply NoDup_pulse_keys; by rewrite <- ?Hp..].
  apply (sort_by_key_unique _ _); [by apply NoDup_pulse_keys|done].
Qed.

Lemma pulse_sort_filter (P : entry -> Prop) `{forall e, Decision (P e)} l :
  NoDup l.*1 ->
  filter P (sort_by pulse_candidates_sorter l) = sort_by pulse_candidates_sorter (filter P l).
Proof.
  intros Hnd.
  rewrite !(sort_by_as_key pulse_order_key triple_ltb _ _ pulse_candidates_sorter_key).
  - apply (filter_sort_by _ _). by apply NoDup_pulse_keys.
  - apply NoDup_pulse_keys. eapply sublist_NoDup; [exact Hnd|]. apply fmap_sublist, sublist_filter.
  - by apply NoDup_pulse_keys.
Qed.

Lemma remove_first_filter key l :
  NoDup l.*1 -> remove_first key l = filter (fun e : entry => e.1 <> key) l.
Proof.
  induction l as [|e l IH]; intros Hnd; [done|]. cbn in Hnd. apply NoDup_cons in Hnd as [Hn Hnd].
  cbn [remove_first]. destruct (bool_decide_reflect (e.1 = key)) as [<-|Hne].
  - rewrite filter_cons_False by tauto. symmetry. apply filter_all, Forall_forall.
    intros e' He' Heq. apply Hn. rewrite <- Heq. by apply list_elem_of_fmap_2.
  - rewrite filter_cons_True by done. f_equal. by apply IH.
Qed.

(** The candidates, from any listing of the active nodes. *)
Lemma pulse_candidates_spec v round leader active active' :
  NoDup active.*1 -> active ≡ₚ active' -> 0 <= round ->
  pulse_candidates v round leader active
  = (let candidates := sort_by pulse_candidates_sorter
                         (filter (fun e : entry => e.1 <> leader \/ 0 < round) active') in
     if hf22_sn_policy <=? v then dedup [] candidates else candidates).
Proof.
  intros Hnd Hp Hr. unfold pulse_candidates. cbn zeta.
  assert ((if round =? 0 then remove_first leader (sort_by pulse_candidates_sorter active)
           else sort_by pulse_candidates_sorter active)
          = sort_by pulse_candidates_sorter
              (filter (fun e : entry => e.1 <> leader \/ 0 < round) active')) as ->; [|done].
  destruct (Z.eqb_spec round 0) as [->|].
  - rewrite remove_first_filter by by rewrite sort_by_Permutation. rewrite pulse_sort_filter by done.
    transitivity (sort_by pulse_candidates_sorter (filter (fun e : entry => e.1 <> leader) active')).
    + apply pulse_sort_unique; [|by rewrite Hp].
      eapply sublist_NoDup; [exact Hnd|]. apply fmap_sublist, sublist_filter.
    + f_equal. apply list_filter_iff. intros e. split; [by left|]. intros [?|?]; [done|lia].
  - rewrite filter_all by (apply Forall_forall; intros e _; right; lia).
    by apply pulse_sort_unique.
Qed.

(** ** The leader waits longest *)

Definition never_waiting : Z * Z * bytes := (UINT64_MAX, UINT32_MAX, null_bytes 32).

(** The walk keeps the least tuple. *)
Definition least_of (l : list entry) (best : option entry * (Z * Z * bytes)) : Prop :=
  match best.1 with
  | Some e => e ∈ l /\ best.2 = waiting_since e /\ triple_ltb best.2 never_waiting = true
  | None => best.2 = never_waiting
  end /\
  forall e, e ∈ l -> triple_ltb (waiting_since e) best.2 = false.

Lemma oldest_waiting_least l : least_of l (oldest_waiting l).
Proof.
  unfold oldest_waiting. induction l as [|e l IH] using rev_ind.
  { split; [done|]. intros e He. by apply elem_of_nil in He. }
  rewrite foldl_app. cbn [foldl]. set (best := foldl _ _ l) in *. destruct IH as [IH1 IH2].
  unfold longer_waiting. destruct (triple_ltb (waiting_since e) best.2) eqn:E.
  - split; cbn.
    + split_and!; [by rewrite elem_of_app, list_elem_of_singleton; right|done|].
      destruct best.1 as [e0|]; [|by rewrite IH1 in E]. destruct IH1 as (_ & _ & Hlt).
      by eapply lt_trans.
    + intros e' [He'|He'%list_elem_of_singleton]%elem_of_app; [|subst; apply lt_irrefl].
      destruct (triple_ltb (waiting_since e') (waiting_since e)) eqn:E'; [|done].
      pose proof (lt_trans _ _ _ E' E) as Hc. by rewrite IH2 in Hc.
  - split.
    + destruct best.1; [|done]. destruct IH1 as (? & ? & ?). split_and!; [|done..]. apply elem_of_app. by left.
    + intros e' [He'|He'%list_elem_of_singleton]%elem_of_app; [by apply IH2|by subst].
Qed.

Lemma least_of_unique l l' best best' :
  l ≡ₚ l' -> least_of l best -> least_of l' best' -> best.2 = best'.2.
Proof.
  intros Hp [H1 H2] [H1' H2']. apply (lt_total (lt:=triple_ltb)).
  - destruct best.1 as [e|]; [destruct H1 as (Hin & -> & _); apply H2'; by rewrite <- Hp|].
    rewrite H1. destruct best'.1 as [e'|]; [|rewrite H1'; apply lt_irrefl].
    destruct H1' as (_ & _ & Hlt). by apply (lt_asym triple_ltb).
  - destruct best'.1 as [e|]; [destruct H1' as (Hin & -> & _); apply H2; by rewrite Hp|].
    rewrite H1'. destruct best.1 as [e'|]; [|rewrite H1; apply lt_irrefl].
    destruct H1 as (_ & _ & Hlt). by apply (lt_asym triple_ltb).
Qed.

(** The leader is the key of the least tuple. *)
Lemma next_leader_key l : next_leader l = (oldest_waiting l).2.2.
Proof.
  unfold next_leader. destruct (oldest_waiting_least l) as [H1 _].
  destruct (oldest_waiting l).1 as [e|]; [by destruct H1 as (_ & -> & _)|by rewrite H1].
Qed.

Lemma next_leader_unique l l' : l ≡ₚ l' -> next_leader l = next_leader l'.
Proof.
  intros Hp. rewrite !next_leader_key. f_equal.
  by apply (least_of_unique l l' _ _ Hp (oldest_waiting_least l)), oldest_waiting_least.
Qed.

Lemma precompute_spec fk cn check_signature check_key ed25519_verify derivation derive scalar
    decode_simple decode check_image get_tx get_block order nettype b st pre :
  hf16_pulse <= major_version b ->
  precompute fk cn check_signature check_key ed25519_verify derivation derive scalar decode_simple decode
    check_image get_tx get_block order nettype b st = Some pre ->
  let active := active_of (order (service_nodes_infos st)) in
  pre_leader pre = next_leader active /\
  pre_candidates pre
  = pulse_candidates (major_version b) (pulse_round (b_pulse b)) (next_leader active) active /\
  pre_active_size pre = length active.
Proof.
  intros Hv E. unfold precompute in E. rewrite (proj2 (Z.leb_le _ _) Hv) in E. by simplify_option_eq.
Qed.

(** (C25) The walk of [update_from_block] over the unordered list, with its own sorting,
    removal of the leader and one-candidate-per-operator rule, yields the leader that
    [get_next_block_leader] finds and the quorum that [generate_pulse_quorum] computes, from
    any listing of the nodes: blocks are checked against the quorum that is stored, whatever
    the iteration order of the map. *)
Theorem precomputed_pulse_quorum fk cn check_signature check_key ed25519_verify derivation derive scalar
    decode_simple decode check_image get_tx get_block {G} `{Engine G} fuel
    (seed_number : Z -> G) (seed_sequence : list Z -> G) order nettype b st pre l entropy :
  order (service_nodes_infos st) ≡ₚ map_to_list (service_nodes_infos st) ->
  hf16_pulse <= major_version b -> 0 <= pulse_round (b_pulse b) ->
  precompute fk cn check_signature check_key ed25519_verify derivation derive scalar decode_simple decode
    check_image get_tx get_block order nettype b st = Some pre ->
  l ≡ₚ map_to_list (service_nodes_infos st) ->
  pre_leader pre = get_next_block_leader l /\
  generate_pulse_quorum_with_candidates fuel seed_number seed_sequence nettype (pre_leader pre)
    (major_version b) (pre_active_size pre) (pre_candidates pre) entropy (pulse_round (b_pulse b))
  = generate_pulse_quorum fuel seed_number seed_sequence nettype (get_next_block_leader l)
      (major_version b) (active_of l) entropy (pulse_round (b_pulse b)).
Proof.
  intros Ho Hv Hr E Hl. apply precompute_spec in E as (-> & Hc & ->); [|done].
  assert (active_of (order (service_nodes_infos st)) ≡ₚ active_of l) as Hp.
  { unfold active_of. by rewrite Ho, Hl. }
  assert (next_leader (active_of (order (service_nodes_infos st))) = get_next_block_leader l) as Hlead.
  { unfold get_next_block_leader. rewrite <- next_leader_key. by apply next_leader_unique. }
  rewrite Hlead in *. split; [done|]. unfold generate_pulse_quorum. rewrite (Permutation_length Hp), Hc.
  rewrite (pulse_candidates_spec _ _ _ _ (active_of l)); [done| |done..].
  eapply sublist_NoDup; [|apply fmap_sublist, sublist_filter]. rewrite Ho. apply NoDup_fst_map_to_list.
Qed.

(** ** Fourteen nodes *)

Definition demo_snode_state : state_t :=
  State (list_to_map (demo_active (seq 0 14))) [] ∅ ∅ 149 no_quorums [] 0 [] [] [].

Lemma precomputed_pulse_quorum_witness :
  let b := plain_block hf22_sn_policy 150 0 in
  let infos := service_nodes_infos demo_snode_state in
  exists pre q,
    precompute [] id (fun _ _ _ => true) (fun _ => true) (fun _ _ _ => true) (fun _ _ => None)
      (fun _ _ _ => None) (fun _ _ => []) (fun _ _ _ => None) (fun _ _ _ => None) (fun _ _ _ => true)
      (fun _ => None) (fun _ => None) map_to_list MAINNET b demo_snode_state = Some pre /\
    pre_leader pre = get_next_block_leader (reverse (map_to_list infos)) /\
    generate_pulse_quorum_with_candidates 64 Mt19937_64.seed demo_seq MAINNET (pre_leader pre)
      hf22_sn_policy (pre_active_size pre) (pre_candidates pre) (replicate 12 demo_block_hash) 0
    = Returned q /\
    length (validators q) = 11%nat.
Proof.
  intros b infos.
  destruct (precompute [] id (fun _ _ _ => true) (fun _ => true) (fun _ _ _ => true) (fun _ _ => None)
      (fun _ _ _ => None) (fun _ _ => []) (fun _ _ _ => None) (fun _ _ _ => None) (fun _ _ _ => true)
      (fun _ => None) (fun _ => None) map_to_list MAINNET b demo_snode_state) as [pre|] eqn:E;
    [|vm_compute in E; discriminate E].
  destruct (precomputed_pulse_quorum [] id (fun _ _ _ => true) (fun _ => true) (fun _ _ _ => true)
      (fun _ _ => None) (fun _ _ _ => None) (fun _ _ => []) (fun _ _ _ => None) (fun _ _ _ => None)
      (fun _ _ _ => true) (fun _ => None) (fun _ => None) 64 Mt19937_64.seed demo_seq map_to_list MAINNET b
      demo_snode_state pre (reverse (map_to_list infos)) (replicate 12 demo_block_hash)) as [Hl Hq];
    [reflexivity|vm_compute; discriminate|vm_compute; discriminate|exact E|apply reverse_Permutation|].
  exists pre. change (major_version b) with hf22_sn_policy in Hq. change (pulse_round (b_pulse b)) with 0 in Hq.
  rewrite Hq. eexists. split; [reflexivity|]. split; [exact Hl|]. split; vm_compute; reflexivity.
Defined.
