(* ===== verification/Rotation.v ===== *)
(** * Rotation of the block leader

    What [update_from_block] ([cryptonote_core/service_node_list.cpp]) does to the queue in
    which nodes wait to lead a block.  A block moves nodes of that queue only to its end, and
    its leader among them, so a node that stays active is reached after the nodes that are
    ahead of it. *)
From stdpp Require Import gmap.
From S2P Require Import Prelude Order Hardfork Config Address Rules Voting Transactions L2Votes NodeProof.
From S2P Require Import ServiceNode NodeList Random Swarm Quorums Staking Events PulseEntropy BlockUpdate.
#[local] Open Scope Z_scope.

(** ** What a step may do to the queue *)

Definition position (info : service_node_info) : Z * Z :=
  (last_reward_block_height info, last_reward_transaction_index info).

(** Every node keeps its position or moves to the height of the block. *)
Definition moved (h : Z) (st st' : state_t) : Prop :=
  st_height st' = st_height st /\
  map_Forall (fun key info' =>
    last_reward_block_height info' = h \/
    exists info, service_nodes_infos st !! key = Some info /\ position info' = position info)
    (service_nodes_infos st').

#[global] Instance moved_refl h : Reflexive (moved h).
Proof. intros st. split; [done|]. intros key info Hi. right. by exists info. Qed.

#[global] Instance moved_trans h : Transitive (moved h).
Proof.
  intros st1 st2 st3 [Hh1 H1] [Hh2 H2]. split; [congruence|]. intros key info Hi.
  destruct (H2 key info Hi) as [|(info2 & Hi2 & E2)]; [by left|].
  destruct (H1 key info2 Hi2) as [E|(info1 & Hi1 & E1)].
  - left. unfold position in E2. congruence.
  - right. exists info1. split; [done|congruence].
Qed.

Create HintDb queue.

Lemma moved_same h st st' :
  st_height st' = st_height st -> service_nodes_infos st' = service_nodes_infos st -> moved h st st'.
Proof. intros Hh Hi. split; [done|]. rewrite Hi. intros key info Hk. right. by exists info. Qed.

Lemma moved_keep h st key info info' :
  service_nodes_infos st !! key = Some info -> position info' = position info ->
  moved h st (with_infos st (<[key := info']> (service_nodes_infos st))).
Proof.
  intros Hi Hp. split; [done|]. intros k x Hx. cbn in Hx.
  apply lookup_insert_Some in Hx as [[<- <-]|[_ Hx]]; right; [by exists info|by exists x].
Qed.

Lemma moved_keep_in h st infos key info info' :
  infos !! key = Some info -> position info' = position info ->
  moved h (with_infos st infos) (with_infos st (<[key := info']> infos)).
Proof. apply (moved_keep h (with_infos st infos)). Qed.

Lemma moved_now h st st' key info :
  st_height st' = st_height st ->
  service_nodes_infos st' = <[key := info]> (service_nodes_infos st) ->
  last_reward_block_height info = h -> moved h st st'.
Proof.
  intros He Hi Hh. split; [done|]. rewrite Hi. intros k x Hx.
  apply lookup_insert_Some in Hx as [[<- <-]|[_ Hx]]; [by left|right; by exists x].
Qed.

Lemma moved_delete h st st' key :
  st_height st' = st_height st ->
  service_nodes_infos st' = delete key (service_nodes_infos st) -> moved h st st'.
Proof.
  intros He Hi. split; [done|]. rewrite Hi. intros k x Hx.
  apply lookup_delete_Some in Hx as [_ Hx]. right. by exists x.
Qed.

#[export] Hint Resolve moved_refl moved_same moved_keep moved_delete : queue.

Section Steps.
Context (fk : list hard_fork).
Context (cn_fast_hash : bytes -> bytes).
Context (check_signature : bytes -> bytes -> bytes -> bool).
Context (check_key : bytes -> bool).
Context (ed25519_verify : bytes -> bytes -> bytes -> bool).
Context (snpk_to_xpk : bytes -> bytes).
Context (generate_key_derivation : bytes -> bytes -> option bytes).
Context (derive_public_key : bytes -> Z -> bytes -> option bytes).
Context (derivation_to_scalar : bytes -> Z -> bytes).
Context (decodeRctSimple decodeRct : bytes -> bytes -> Z -> option Z).
Context (check_key_image_signature : bytes -> bytes -> bytes -> bool).
Context (get_tx : bytes -> option transaction).
Context (get_block_from_height : Z -> option block).

Lemma erase_info_moved h st nl key info t st' :
  erase_info fk snpk_to_xpk st nl key info t = Some st' -> moved h st st'.
Proof using Type.
  unfold erase_info. intros H. simplify_option_eq.
  all: repeat case_match; simplify_option_eq; by eapply moved_delete.
Qed.

Lemma insert_info_moved h st nl key info :
  last_reward_block_height info = h -> moved h st (insert_info fk snpk_to_xpk st nl key info).
Proof using Type. intros Hh. unfold insert_info. repeat case_match; by eapply (moved_now h _ _ key info). Qed.

Lemma insert_info_kept h st nl key info old :
  service_nodes_infos st !! key = Some old -> position info = position old ->
  moved h st (insert_info fk snpk_to_xpk st nl key info).
Proof using Type.
  intros Ho Hp. etransitivity; [by eapply moved_keep|]. unfold insert_info. repeat case_match; by apply moved_same.
Qed.

Lemma state_change_moved h hist arch alts nt b tx st nl r st' nl' :
  b_height b = h ->
  process_state_change_tx fk cn_fast_hash check_signature snpk_to_xpk hist arch alts nt b tx st nl
    = Some (r, st', nl') -> moved h st st'.
Proof using Type.
  intros Hh E. unfold process_state_change_tx in E.
  repeat (case_match; simplify_option_eq; try reflexivity).
  unfold apply_state_change, recommission_info in E.
  repeat (case_match; simplify_option_eq; try reflexivity).
  all: try by eapply moved_keep.
  all: try (eapply moved_now; reflexivity).
  all: etransitivity; [|by eapply erase_info_moved]; by apply moved_same.
Qed.

Lemma registration_info_moved nt v tx ts h i req key info :
  is_registration_tx cn_fast_hash check_signature check_key ed25519_verify generate_key_derivation
    derive_public_key derivation_to_scalar decodeRctSimple decodeRct check_key_image_signature
    nt v tx ts h i req = Some (Some (key, info)) -> last_reward_block_height info = h.
Proof using Type.
  intros E. unfold is_registration_tx in E. by repeat (case_match; simplify_option_eq).
Qed.

Lemma registration_moved h nt b tx i st nl r st' nl' :
  b_height b = h ->
  process_registration_tx fk cn_fast_hash check_signature check_key ed25519_verify snpk_to_xpk
    generate_key_derivation derive_public_key derivation_to_scalar decodeRctSimple decodeRct
    check_key_image_signature nt b tx i st nl = Some (r, st', nl') -> moved h st st'.
Proof using Type.
  intros Hh E. unfold process_registration_tx in E.
  destruct (is_registration_tx _ _ _ _ _ _ _ _ _ _ _ _ _ _ _ _ _) as [[[key info]|]|] eqn:Er;
    cbn [mbind option_bind] in E; [|by simplify_eq|done].
  apply registration_info_moved in Er.
  repeat (case_match; simplify_option_eq; try reflexivity).
  all: first [by eapply insert_info_kept | exact (insert_info_moved _ _ _ _ _ Er)
             | eapply moved_now; [reflexivity..|exact Er]].
Qed.

Lemma contribution_moved h nt b tx i st r st' :
  b_height b = h ->
  process_contribution_tx generate_key_derivation derive_public_key derivation_to_scalar
    decodeRctSimple decodeRct check_key_image_signature nt b tx i st = Some (r, st') -> moved h st st'.
Proof using Type.
  intros Hh E. unfold process_contribution_tx in E.
  repeat (case_match; simplify_option_eq; try reflexivity).
  eapply moved_now; [reflexivity..|]. unfold contribute in *.
  repeat (case_match; simplify_option_eq; try done).
  unfold apply_contribution in *. by repeat (case_match; simplify_option_eq).
Qed.

Lemma unlock_moved h nt v bh tx st r st' :
  process_key_image_unlock_tx check_signature nt v bh tx st = Some (r, st') -> moved h st st'.
Proof using Type.
  intros E. unfold process_key_image_unlock_tx in E.
  repeat (case_match; simplify_option_eq; try reflexivity). by eapply moved_keep.
Qed.

Lemma new_ethereum_tx_moved h b tx st st' :
  process_new_ethereum_tx get_tx b tx st = Some st' -> moved h st st'.
Proof using Type. intros E. unfold process_new_ethereum_tx in E. simplify_option_eq. by apply moved_same. Qed.

Lemma confirmed_event_moved h e confirm w r w' :
  cm_confirmed_height confirm = h ->
  process_confirmed_event fk cn_fast_hash check_signature check_key ed25519_verify snpk_to_xpk e confirm w
    = Some (r, w') -> moved h (w_state w) (w_state w').
Proof using Type.
  intros Hh E. destruct e as [new_sn|bls|bls amount|req|bls]; cbn [process_confirmed_event] in E.
  - injection E as E. unfold confirm_new_service_node in E. do 2 (case_match; [by simplify_eq|]).
    destruct (validate_ethereum_registration _ _ _ _ _ _ _ _ _ _) as [[key info]|] eqn:Er; [|by simplify_eq].
    injection E as _ <-. apply insert_info_moved. unfold validate_ethereum_registration in Er.
    by repeat (case_match; simplify_option_eq).
  - unfold confirm_exit_request in E. repeat (case_match; simplify_option_eq; try reflexivity).
    by eapply moved_keep.
  - unfold confirm_exit in E.
    repeat (case_match; simplify_option_eq; try reflexivity; try by apply moved_same).
    destruct (w_list w); cbn [mbind option_bind] in E; [|done]. injection E as _ <-. by apply moved_same.
  - injection E as _ <-. by apply moved_same.
  - unfold confirm_purge in E. repeat (case_match; simplify_option_eq; try reflexivity).
    by eapply erase_info_moved.
Qed.

Abbreviation resolve := (resolve_event fk cn_fast_hash check_signature check_key ed25519_verify
  snpk_to_xpk get_tx get_block_from_height).

Lemma resolve_event_moved h nt v i r w stakes s w' stakes' :
  resolve nt v h i r w stakes = Some (s, w', stakes') -> moved h (w_state w) (w_state w').
Proof using Type.
  intros E. unfold resolve_event in E.
  destruct (get_tx _) as [tx|]; cbn [mbind option_bind] in E; [|done].
  destruct (extract_event tx) as [e|]; cbn [mbind option_bind] in E; [|done].
  destruct (get_block_from_height _) as [mined|]; cbn [mbind option_bind] in E; [|done].
  destruct (list_find _ _) as [[index k]|]; cbn [mbind option_bind] in E; [|done].
  destruct (r_accepted r).
  - destruct (process_confirmed_event _ _ _ _ _ _ _ _ _) as [[res w1]|] eqn:Ep; cbn [mbind option_bind] in E; [|done].
    injection E as _ <- _. by eapply confirmed_event_moved in Ep.
  - cbn [mbind option_bind] in E. by injection E as _ <- _.
Qed.

Lemma l2_vote_loop_moved h nt v weight i votes m s w stakes m' s' w' stakes' :
  l2_vote_loop fk cn_fast_hash check_signature check_key ed25519_verify snpk_to_xpk get_tx
    get_block_from_height nt v weight h i votes m s w stakes = Some (m', s', w', stakes') ->
  moved h (w_state w) (w_state w').
Proof using Type.
  revert i m s w stakes m'. induction votes as [|vote votes IH]; intros i m s w stakes m' E.
  { destruct m; injection E as _ _ <- _; reflexivity. }
  destruct m as [|[k u] rest]; [injection E as _ _ <- _; reflexivity|]. cbn [l2_vote_loop] in E.
  destruct (confirmed _ h) as [fin|].
  - destruct (resolve nt v h i _ w stakes) as [[[s1 w1] stakes1]|] eqn:Er; cbn [mbind option_bind] in E; [|done].
    apply resolve_event_moved in Er. apply IH in E. by transitivity (w_state w1).
  - destruct (l2_vote_loop _ _ _ _ _ _ _ _ _ _ _ _ _ _ _ _ _ _) as [[[[m1 s1] w1] stakes1]|] eqn:Er;
      cbn [mbind option_bind] in E; [|done].
    injection E as _ -> -> ->. by eapply IH.
Qed.

Lemma l2_votes_moved h nt b s w stakes s' w' stakes' :
  process_l2_votes fk cn_fast_hash check_signature check_key ed25519_verify snpk_to_xpk get_tx
    get_block_from_height nt b h s w stakes = Some (s', w', stakes') ->
  moved h (w_state w) (w_state w').
Proof using Type.
  intros E. unfold process_l2_votes in E. case_match; [|by simplify_eq]. case_match; [done|].
  destruct (l2_vote_loop _ _ _ _ _ _ _ _ _ _ _ _ _ _ _ _ _ _) as [[[[m1 s1] w1] stakes1]|] eqn:Er;
    cbn [mbind option_bind] in E; [|done].
  injection E as _ <- _. apply l2_vote_loop_moved in Er.
  etransitivity; [exact Er|]. by apply moved_same.
Qed.

Abbreviation handle_txs := (process_txs fk cn_fast_hash check_signature check_key ed25519_verify
  snpk_to_xpk generate_key_derivation derive_public_key derivation_to_scalar decodeRctSimple decodeRct
  check_key_image_signature get_tx).
Abbreviation handle_tx := (process_tx fk cn_fast_hash check_signature check_key ed25519_verify
  snpk_to_xpk generate_key_derivation derive_public_key derivation_to_scalar decodeRctSimple decodeRct
  check_key_image_signature get_tx).

Lemma process_tx_moved h hist arch alts nt b tx i w s w' :
  b_height b = h -> handle_tx hist arch alts nt b tx i w = Some (s, w') ->
  moved h (w_state w) (w_state w').
Proof using Type.
  intros Hh E.
  assert (forall s w', process_stake fk cn_fast_hash check_signature check_key ed25519_verify
    snpk_to_xpk generate_key_derivation derive_public_key derivation_to_scalar decodeRctSimple decodeRct
    check_key_image_signature nt b tx i w = Some (s, w') -> moved h (w_state w) (w_state w')) as Hstake.
  { clear s w' E. intros s w' E. unfold process_stake in E.
    destruct (process_registration_tx _ _ _ _ _ _ _ _ _ _ _ _ _ _ _ _ _ _) as [[[r1 st1] nl1]|] eqn:E1;
      cbn [mbind option_bind] in E; [|done].
    destruct (process_contribution_tx _ _ _ _ _ _ _ _ _ _ _) as [[r2 st2]|] eqn:E2;
      cbn [mbind option_bind] in E; [|done].
    injection E as _ <-. apply (registration_moved h) in E1; [|done]. apply (contribution_moved h) in E2; [|done].
    by transitivity st1. }
  assert (forall s w', (st ← process_new_ethereum_tx get_tx b tx (w_state w);
      Some (false, with_state w st)) = Some (s, w') -> moved h (w_state w) (w_state w')) as Heth.
  { clear s w' E. intros s w' E. destruct (process_new_ethereum_tx _ _ _ _) as [st1|] eqn:E1;
      cbn [mbind option_bind] in E; [|done].
    injection E as _ <-. by eapply new_ethereum_tx_moved. }
  unfold process_tx in E. destruct (tx_type tx); try by eapply Heth.
  - case_match; [by eapply Hstake|]. by simplify_eq.
  - destruct (process_state_change_tx _ _ _ _ _ _ _ _ _ _ _ _) as [[[r1 st1] nl1]|] eqn:E1;
      cbn [mbind option_bind] in E; [|done].
    injection E as _ <-. by eapply state_change_moved.
  - destruct (process_key_image_unlock_tx _ _ _ _ _ _) as [[r1 st1]|] eqn:E1;
      cbn [mbind option_bind] in E; [|done].
    injection E as _ <-. by eapply unlock_moved.
  - case_match; [by eapply Hstake|]. by simplify_eq.
  - by simplify_eq.
Qed.

Lemma process_txs_moved h hist arch alts nt b txs i s w s' w' :
  b_height b = h -> handle_txs hist arch alts nt b txs i s w = Some (s', w') ->
  moved h (w_state w) (w_state w').
Proof using Type.
  intros Hh. revert i s w. induction txs as [|tx txs IH]; intros i s w E; cbn [process_txs] in E.
  { by simplify_eq. }
  destruct (handle_tx hist arch alts nt b tx i w) as [[s1 w1]|] eqn:E1; cbn [mbind option_bind] in E; [|done].
  apply (process_tx_moved h) in E1; [|done]. apply IH in E. by transitivity (w_state w1).
Qed.

(** ** The whole block *)

Context (find_block : bytes -> option block).
Context (apply_fixups transition : block -> state_t -> state_t).
Context (order : gmap bytes service_node_info -> list entry).
Context (fuel : nat) (sort_sizes : list swarm_size -> list swarm_size).
Context {G : Type} `{Engine G} (seed_number : Z -> G) (seed_sequence : list Z -> G).

Lemma moved_position h height hash st st' :
  moved h st st' -> moved h (with_position st height hash) (with_position st' height hash).
Proof using Type. intros [_ Hm]. by split. Qed.

Lemma send_to_back_moved h bh i keys infos infos' :
  send_to_back bh i keys infos = Some infos' ->
  forall st, moved h (with_infos st infos) (with_infos st infos').
Proof using Type.
  revert i infos. induction keys as [|key keys IH]; intros i infos E st; cbn [send_to_back] in E.
  { by simplify_eq. }
  destruct (infos !! key) as [info|] eqn:Ei; cbn [mbind option_bind] in E; [|done].
  etransitivity; [|by eapply IH]. by apply (moved_keep_in h st infos key info).
Qed.

Lemma apply_swarms_moved h assigned infos infos' :
  apply_swarms assigned infos = Some infos' ->
  forall st, moved h (with_infos st infos) (with_infos st infos').
Proof using Type.
  revert infos. induction assigned as [|[id key] rest IH]; intros infos E st; cbn [apply_swarms] in E.
  { by simplify_eq. }
  destruct (infos !! key) as [info|] eqn:Ei; cbn [mbind option_bind] in E; [|done].
  destruct (swarm_id info =? id); [by apply IH|].
  etransitivity; [|by eapply IH]. by apply (moved_keep_in h st infos key info).
Qed.

Lemma erase_nodes_moved h t keys s st nl s' st' :
  erase_nodes fk snpk_to_xpk t keys s st nl = Some (s', st') -> moved h st st'.
Proof using Type.
  revert s st. induction keys as [|key keys IH]; intros s st E; cbn [erase_nodes] in E; [by simplify_eq|].
  destruct (service_nodes_infos st !! key) as [info|]; [|by eapply IH].
  destruct (erase_info _ _ _ _ _ _ _) as [st1|] eqn:E1; cbn [mbind option_bind] in E; [|done].
  apply (erase_info_moved h) in E1. apply IH in E. by transitivity st1.
Qed.

Lemma with_infos_id st : with_infos st (service_nodes_infos st) = st.
Proof using Type. by destruct st. Qed.

Lemma update_pulse_moved h nt b feed pre st st' :
  update_pulse cn_fast_hash find_block fuel seed_number seed_sequence nt b feed pre st = Returned st' ->
  moved h st st'.
Proof using Type.
  unfold update_pulse. case_match; [by intros [= <-]|].
  destruct (generate_pulse_quorum_with_candidates _ _ _ _ _ _ _ _ _ _) as [q| |]; [|done..].
  cbn [mbind outcome_bind]. case_match; [|by intros [= <-]].
  destruct (send_to_back _ _ _ _) as [infos|] eqn:E; [|done]. intros [= <-].
  apply (send_to_back_moved h) with (st := st) in E. rewrite with_infos_id in E.
  etransitivity; [exact E|]. by apply moved_same.
Qed.

Lemma update_swarms_moved h b active st st' :
  update_swarms fuel sort_sizes b active st = Returned st' -> moved h st st'.
Proof using Type.
  unfold update_swarms. destruct (calc_swarm_changes _ _ _ _) as [[swarms g]| |]; [|done..].
  cbn [mbind outcome_bind]. destruct (apply_swarms _ _) as [infos|] eqn:E; [|done]. intros [= <-].
  apply (apply_swarms_moved h) with (st := st) in E. by rewrite with_infos_id in E.
Qed.

Abbreviation update := (update_from_block fk cn_fast_hash check_signature check_key ed25519_verify
  snpk_to_xpk generate_key_derivation derive_public_key derivation_to_scalar decodeRctSimple decodeRct
  check_key_image_signature get_tx get_block_from_height find_block apply_fixups transition order fuel
  sort_sizes seed_number seed_sequence).
Abbreviation update_nodes := (update_list fk cn_fast_hash check_signature check_key ed25519_verify
  snpk_to_xpk generate_key_derivation derive_public_key derivation_to_scalar decodeRctSimple decodeRct
  check_key_image_signature get_tx get_block_from_height transition order).

(** The winner is gone or at the end of the queue. *)
Definition sent_to_end (h : Z) (key : bytes) (st : state_t) : Prop :=
  forall info, service_nodes_infos st !! key = Some info -> last_reward_block_height info = h.

Lemma sent_to_end_moved h key st st' : moved h st st' -> sent_to_end h key st -> sent_to_end h key st'.
Proof using Type.
  intros [_ Hm] Hs info Hi. destruct (Hm key info Hi) as [|(info0 & Hi0 & Hp)]; [done|].
  apply Hs in Hi0. unfold position in Hp. congruence.
Qed.

Lemma advance_winner_queue h key st :
  st_height st = h -> moved h st (advance_winner key st) /\ sent_to_end h key (advance_winner key st).
Proof using Type.
  intros Hh. unfold advance_winner, sent_to_end. destruct (service_nodes_infos st !! key) as [info|] eqn:E.
  - split; [by eapply moved_now|]. cbn. rewrite lookup_insert_eq. by intros ? [= <-].
  - split; [reflexivity|]. rewrite E. done.
Qed.

(** A block that is not the first of [hf21_eth] or [hf22_eth_fixup], on top of the state. *)
Definition ordinary_block (nt : network_type) (b : block) (st : state_t) : Prop :=
  b_height b = u64 (st_height st + 1) /\
  hard_fork_begins fk nt hf21_eth <> Some (b_height b) /\
  hard_fork_begins fk nt hf22_eth_fixup <> Some (b_height b).

Lemma update_list_queue hist arch alts nt b txs pre w s w' stakes :
  ordinary_block nt b (w_state w) ->
  update_nodes hist arch alts nt b txs pre w = Some (s, w', stakes) ->
  moved (b_height b) (with_position (w_state w) (b_height b) (b_hash b)) (w_state w') /\
  sent_to_end (b_height b) (pre_leader pre) (w_state w').
Proof using Type.
  intros (Hh & Hmig & _). unfold update_list. rewrite <- Hh.
  set (st0 := with_position (w_state w) (b_height b) (b_hash b)).
  destruct (remove_unfunded _ _ _ _ _ _) as [st1|] eqn:E1; cbn [mbind option_bind]; [|done].
  assert (moved (b_height b) st0 st1) as M1.
  { unfold remove_unfunded in E1. case_match; [|by simplify_eq].
    apply fmap_Some in E1 as ([s1 st1'] & E1 & ->). by eapply erase_nodes_moved. }
  rewrite bool_decide_eq_false_2 by done.
  set (st2 := with_blacklist _ _).
  destruct (erase_nodes _ _ _ _ _ _ _) as [[s3 st3]|] eqn:E3; cbn [mbind option_bind]; [|done].
  apply (erase_nodes_moved (b_height b)) in E3.
  assert (moved (b_height b) st0 st3) as M3.
  { etransitivity; [exact M1|]. etransitivity; [|exact E3]. by apply moved_same. }
  destruct (advance_winner_queue (b_height b) (pre_leader pre) st3) as [M4 S4]; [apply M3|].
  destruct (process_l2_votes _ _ _ _ _ _ _ _ _ _ _ _ _ _) as [[[s5 w5] stakes5]|] eqn:E5;
    cbn [mbind option_bind]; [|done]. apply l2_votes_moved in E5. cbn [w_state with_state] in E5.
  set (st6 := if _ && _ then _ else _).
  assert (moved (b_height b) (w_state w5) st6) as M6.
  { subst st6. destruct (_ && _); [|reflexivity]. unfold initialize_alt_pk_maps.
    destruct (w_list w5); [|reflexivity]. case_match; [|reflexivity]. by apply moved_same. }
  destruct (handle_txs _ _ _ _ _ _ _ _ _) as [[s7 w7]|] eqn:E7; cbn [mbind option_bind]; [|done].
  apply (process_txs_moved (b_height b)) in E7; [|done]. cbn [w_state with_state] in E7.
  intros [= _ <- _].
  assert (moved (b_height b) (advance_winner (pre_leader pre) st3) (w_state w7)) as M7.
  { etransitivity; [exact E5|]. by etransitivity. }
  split; [|by eapply sent_to_end_moved]. etransitivity; [exact M3|]. by etransitivity.
Qed.

Lemma update_queue hist arch alts nt b txs feed w w' res :
  ordinary_block nt b (w_state w) ->
  update hist arch alts nt b txs feed w = Returned (w', res) ->
  let leader := next_leader (active_of (order (service_nodes_infos (w_state w)))) in
  moved (b_height b) (with_position (w_state w) (b_height b) (b_hash b)) (w_state w') /\
  sent_to_end (b_height b) leader (w_state w') /\ block_leader (w_state w') = leader.
Proof using Type.
  intros Hb. pose proof Hb as (_ & _ & Hfix). unfold update_from_block.
  rewrite (bool_decide_eq_false_2 (hard_fork_begins fk nt hf22_eth_fixup = _)) by done. rewrite andb_false_r.
  destruct (precompute _ _ _ _ _ _ _ _ _ _ _ _ _ _ _ _ _) as [pre|] eqn:Epre; cbn [of_option mbind outcome_bind]; [|done].
  assert (pre_leader pre = next_leader (active_of (order (service_nodes_infos (w_state w))))) as <-.
  { unfold precompute in Epre. by simplify_option_eq. }
  destruct (update_pulse _ _ _ _ _ _ _ _ _ _) as [st1| |] eqn:E1; cbn [mbind outcome_bind]; [|done..].
  apply (update_pulse_moved (b_height b)) in E1.
  destruct (update_nodes _ _ _ _ _ _ _ _) as [[[s2 w2] stakes]|] eqn:E2; cbn [of_option mbind outcome_bind]; [|done].
  apply update_list_queue in E2 as [M2 S2].
  2: { cbn [w_state with_state]. destruct E1 as [Eh _]. cbn in Eh. unfold ordinary_block in *. by rewrite Eh. }
  cbn [w_state with_state] in M2.
  assert (moved (b_height b) (with_position (w_state w) (b_height b) (b_hash b)) (w_state w2)) as M.
  { etransitivity; [|exact M2]. by apply (moved_position _ (b_height b) (b_hash b)) in E1. }
  destruct (payable_nodes _ _ _ _) as [payable|]; cbn [of_option mbind outcome_bind]; [|done].
  destruct (if s2 then _ else _) as [st3| |] eqn:E3; cbn [mbind outcome_bind]; [|done..].
  assert (moved (b_height b) (w_state w2) st3) as M3.
  { destruct s2; [by eapply update_swarms_moved|by injection E3 as <-]. }
  destruct (generate_other_quorums _ _ _ _ _ _ _ _ _ _) as [qm| |]; cbn [mbind outcome_bind]; [|done..].
  intros [= <- _]. cbn [w_state with_state].
  assert (moved (b_height b) st3 (with_leader (with_quorums st3 qm) (pre_leader pre))) as M4 by by apply moved_same.
  split_and!; [by repeat (etransitivity; [eassumption|])| |done].
  eapply sent_to_end_moved; [|exact S2]. by etransitivity.
Qed.

End Steps.

(** ** Waiting for a turn *)

(** The node is active and waits at a position. *)
Definition waiting (key : bytes) (p : Z * Z) (st : state_t) : Prop :=
  exists info, service_nodes_infos st !! key = Some info /\ is_active info = true /\ position info = p.

(** The nodes, active or not, whose turn would come earlier. *)
Definition ahead (key : bytes) (p : Z * Z) (st : state_t) : gset bytes :=
  dom (filter (fun e : entry => triple_ltb (waiting_since e) (p, key) = true) (service_nodes_infos st)).

Lemma elem_of_ahead key p st k :
  k ∈ ahead key p st <->
  exists info, service_nodes_infos st !! k = Some info /\ triple_ltb (position info, k) (p, key) = true.
Proof.
  unfold ahead. rewrite elem_of_dom. split.
  - intros [info Hi]. apply map_lookup_filter_Some in Hi as [Hi Hlt]. by exists info.
  - intros (info & Hi & Hlt). exists info. by apply map_lookup_filter_Some.
Qed.

Lemma triple_ltb_height (p : Z * Z) k (q : Z * Z) k' : q.1 < p.1 -> triple_ltb (p, k) (q, k') = false.
Proof. intros Hlt. unfold triple_ltb. cbn. by rewrite (proj2 (Z.eqb_neq p.1 q.1)), (proj2 (Z.ltb_ge _ _)) by lia. Qed.

(** The leader that the walk finds is the waiting node or one ahead of it. *)
Lemma leader_ahead key p st l :
  l ≡ₚ map_to_list (service_nodes_infos st) -> waiting key p st -> p.1 < UINT64_MAX ->
  next_leader (active_of l) = key \/ next_leader (active_of l) ∈ ahead key p st.
Proof.
  intros Hl (info & Hi & Ha & Hp) Hlt.
  assert ((key, info) ∈ active_of l) as Hin.
  { apply list_elem_of_filter. split; [done|]. rewrite Hl. by apply elem_of_map_to_list. }
  destruct (oldest_waiting_least (active_of l)) as [H1 H2]. specialize (H2 _ Hin). cbn in H2.
  unfold next_leader. destruct (oldest_waiting (active_of l)).1 as [e|].
  - destruct H1 as (He & Hw & _). rewrite Hw in H2. cbn [from_option].
    destruct (decide (e.1 = key)) as [|Hne]; [by left|right].
    apply list_elem_of_filter in He as [_ He]. rewrite Hl in He. destruct e as [k ei]. cbn in Hne.
    apply elem_of_map_to_list in He. apply elem_of_ahead. exists ei. split; [done|]. rewrite <- Hp.
    destruct (lt_cases triple_ltb (position ei, k) (position info, key)) as [|[E|E]]; [done|congruence|].
    unfold waiting_since in H2. cbn in H2. unfold position in E. congruence.
  - exfalso. rewrite H1 in H2. rewrite <- Hp in Hlt. unfold waiting_since, triple_ltb, never_waiting in H2.
    cbn in H2. rewrite (proj2 (Z.eqb_neq _ _)) in H2 by (unfold position in Hlt; cbn in Hlt; lia).
    apply Z.ltb_ge in H2. unfold position in Hlt. cbn in Hlt. lia.
Qed.

(** A block led by another node leaves fewer nodes ahead. *)
Lemma ahead_decreases h key p st0 st st' leader :
  service_nodes_infos st0 = service_nodes_infos st -> moved h st0 st' -> p.1 < h ->
  sent_to_end h leader st' -> leader ∈ ahead key p st -> ahead key p st' ⊂ ahead key p st.
Proof.
  intros E0 [_ Hm] Hp Hend Hin. rewrite E0 in Hm. split.
  - intros k (info' & Hi' & Hlt)%elem_of_ahead. apply elem_of_ahead.
    destruct (Hm k info' Hi') as [Hh|(info & Hi & Hpos)].
    + rewrite triple_ltb_height in Hlt; [done|]. unfold position. cbn. lia.
    + exists info. by rewrite <- Hpos.
  - intros Hsub. apply Hsub, elem_of_ahead in Hin as (info' & Hi' & Hlt).
    apply Hend in Hi'. rewrite triple_ltb_height in Hlt; [done|]. unfold position. cbn. lia.
Qed.

Section Turn.
Context (fk : list hard_fork).
Context (cn_fast_hash : bytes -> bytes).
Context (check_signature : bytes -> bytes -> bytes -> bool).
Context (check_key : bytes -> bool).
Context (ed25519_verify : bytes -> bytes -> bytes -> bool).
Context (snpk_to_xpk : bytes -> bytes).
Context (generate_key_derivation : bytes -> bytes -> option bytes).
Context (derive_public_key : bytes -> Z -> bytes -> option bytes).
Context (derivation_to_scalar : bytes -> Z -> bytes).
Context (decodeRctSimple decodeRct : bytes -> bytes -> Z -> option Z).
Context (check_key_image_signature : bytes -> bytes -> bytes -> bool).
Context (apply_fixups transition : block -> state_t -> state_t).
Context (fuel : nat) (sort_sizes : list swarm_size -> list swarm_size).
Context {G : Type} `{Engine G} (seed_number : Z -> G) (seed_sequence : list Z -> G).

(** One more block, with the database of its time and any listing of the nodes. *)
Definition block_step (w w' : world) : Prop :=
  exists get_tx get_block find_block order hist arch alts nt b txs feed res,
    (forall m, order m ≡ₚ map_to_list m) /\ ordinary_block fk nt b (w_state w) /\
    update_from_block fk cn_fast_hash check_signature check_key ed25519_verify snpk_to_xpk
      generate_key_derivation derive_public_key derivation_to_scalar decodeRctSimple decodeRct
      check_key_image_signature get_tx get_block find_block apply_fixups transition order fuel
      sort_sizes seed_number seed_sequence hist arch alts nt b txs feed w = Returned (w', res).

(** Until it leads a block, the node stays active at its position. *)
Fixpoint undisturbed (key : bytes) (p : Z * Z) (ws : list world) : Prop :=
  match ws with
  | [] => True
  | w :: ws => block_leader (w_state w) = key \/ waiting key p (w_state w) /\ undisturbed key p ws
  end.

Inductive block_run : world -> list world -> Prop :=
| run_nil w : block_run w []
| run_cons w w' ws : block_step w w' -> block_run w' ws -> block_run w (w' :: ws).

Lemma block_step_queue key p w w' :
  block_step w w' -> waiting key p (w_state w) -> 0 <= p.1 ->
  p.1 <= st_height (w_state w) < UINT64_MAX ->
  st_height (w_state w') = st_height (w_state w) + 1 /\
  (block_leader (w_state w') = key \/ ahead key p (w_state w') ⊂ ahead key p (w_state w)).
Proof using Type.
  intros (get_tx & get_block & find_block & order & hist & arch & alts & nt & b & txs & feed & res & Ho & Hb & E)
    Hw Hp0 Hp.
  apply update_queue in E as (M & S & L); [|done]. pose proof Hb as (Hh & _ & _).
  assert (b_height b = st_height (w_state w) + 1) as Hb'.
  { rewrite Hh. unfold UINT64_MAX in Hp. apply u64_small. unfold is_u64. lia. }
  split; [destruct M as [-> _]; done|]. rewrite L.
  destruct (leader_ahead key p (w_state w) (order (service_nodes_infos (w_state w)))) as [|Hin];
    [apply Ho|done|lia|by left|right].
  eapply ahead_decreases; [|exact M|lia|exact S|exact Hin]. done.
Qed.

Lemma leads_in_turn key p ws w :
  block_run w ws -> undisturbed key p ws -> waiting key p (w_state w) -> 0 <= p.1 <= st_height (w_state w) ->
  st_height (w_state w) + Z.of_nat (length ws) <= UINT64_MAX ->
  (size (ahead key p (w_state w)) < length ws)%nat ->
  exists i w', ws !! i = Some w' /\ block_leader (w_state w') = key /\ (i <= size (ahead key p (w_state w)))%nat.
Proof using Type.
  intros Hrun. induction Hrun as [w|w w' ws Hs _ IH]; intros Hu Hw Hp Hmax Hlen; cbn [length] in *; [lia|].
  destruct (block_step_queue key p w w' Hs Hw) as [Hh [Hl|Hlt]]; [lia|lia| |].
  { exists 0%nat, w'. split; [done|]. split; [done|lia]. }
  destruct Hu as [Hl|[Hw' Hu]]; [exists 0%nat, w'; split; [done|]; split; [done|lia]|].
  apply subset_size in Hlt. destruct IH as (i & x & Hi & Hx & Hle); [done|done|lia|lia|lia|].
  exists (S i), x. split; [done|]. split; [done|lia].
Qed.

End Turn.

(** (C20) Every node gets its turn: over blocks added by [update_from_block], a node that
    stays active and is not sent back by a penalty leads one of the next blocks, at most as
    many blocks later as there are nodes ahead of it in the queue, whatever registrations,
    state changes, L2 events and expiries the blocks contain. *)
Theorem leader_rotation fk cn_fast_hash check_signature check_key ed25519_verify snpk_to_xpk derivation
    derive scalar decode_simple decode check_image apply_fixups transition fuel sort_sizes
    {G} `{Engine G} (seed_number : Z -> G) (seed_sequence : list Z -> G) key p ws w :
  block_run fk cn_fast_hash check_signature check_key ed25519_verify snpk_to_xpk derivation derive scalar
    decode_simple decode check_image apply_fixups transition fuel sort_sizes seed_number seed_sequence w ws ->
  undisturbed key p ws -> waiting key p (w_state w) ->
  0 <= p.1 <= st_height (w_state w) -> st_height (w_state w) + Z.of_nat (length ws) <= UINT64_MAX ->
  (size (ahead key p (w_state w)) < length ws)%nat ->
  exists i w', ws !! i = Some w' /\ block_leader (w_state w') = key /\
    (i <= size (ahead key p (w_state w)))%nat.
Proof. apply leads_in_turn. Qed.

(** ** Three nodes *)

Definition demo_queue : gmap bytes service_node_info :=
  {[ [1] := with_reward_position demo_info 101; [2] := with_reward_position demo_info 102;
     [3] := with_reward_position demo_info 103 ]}.
Definition demo_queue_world : world :=
  World (State demo_queue [] ∅ ∅ 150 no_quorums [] 0 [] [] []) None [].

Definition demo_update (h : Z) (w : world) : outcome (world * block_add_result) :=
  update_from_block [] id (fun _ _ _ => true) (fun _ => true) (fun _ _ _ => true) id (fun _ _ => None)
    (fun _ _ _ => None) (fun _ _ => []) (fun _ _ _ => None) (fun _ _ _ => None) (fun _ _ _ => true)
    (fun _ => None) (fun _ => None) (fun _ => None) (fun _ st => st) (fun _ st => st) map_to_list 64 id
    Mt19937_64.seed demo_seq ∅ ∅ [] MAINNET (plain_block hf19_reward_batching h 0) [] None w.
Definition demo_next (h : Z) (w : world) : world :=
  match demo_update h w with Returned (w', _) => w' | _ => w end.
Definition demo_w1 : world := demo_next 151 demo_queue_world.
Definition demo_w2 : world := demo_next 152 demo_w1.
Definition demo_w3 : world := demo_next 153 demo_w2.

Lemma demo_block_step h w :
  h = u64 (st_height (w_state w) + 1) ->
  (exists res, demo_update h w = Returned (demo_next h w, res)) ->
  block_step [] id (fun _ _ _ => true) (fun _ => true) (fun _ _ _ => true) id (fun _ _ => None)
    (fun _ _ _ => None) (fun _ _ => []) (fun _ _ _ => None) (fun _ _ _ => None) (fun _ _ _ => true)
    (fun _ st => st) (fun _ st => st) 64 id Mt19937_64.seed demo_seq w (demo_next h w).
Proof.
  intros Hh [res E].
  exists (fun _ => None), (fun _ => None), (fun _ => None), map_to_list, ∅, ∅, [], MAINNET,
    (plain_block hf19_reward_batching h 0), [], None, res.
  split; [done|]. split; [|exact E]. split; [exact Hh|done].
Qed.

Lemma leader_rotation_witness :
  (exists i w', [demo_w1; demo_w2; demo_w3] !! i = Some w' /\ block_leader (w_state w') = [3%Z] /\
    (i <= size (ahead [3%Z] (103%Z, UINT32_MAX) (w_state demo_queue_world)))%nat) /\
  block_leader (w_state demo_w2) = [2%Z].
Proof.
  split; [|vm_compute; reflexivity].
  eapply (leader_rotation [] id (fun _ _ _ => true) (fun _ => true) (fun _ _ _ => true) id (fun _ _ => None)
    (fun _ _ _ => None) (fun _ _ => []) (fun _ _ _ => None) (fun _ _ _ => None) (fun _ _ _ => true)
    (fun _ st => st) (fun _ st => st) 64 id Mt19937_64.seed demo_seq [3] (103, UINT32_MAX)
    [demo_w1; demo_w2; demo_w3] demo_queue_world).
  - repeat (apply run_cons; [apply demo_block_step; [vm_compute; reflexivity|eexists; vm_compute; reflexivity]|]).
    apply run_nil.
  - right. split; [eexists; vm_compute; done|]. right. split; [eexists; vm_compute; done|].
    left. vm_compute. reflexivity.
  - eexists. vm_compute. done.
  - vm_compute. split; discriminate.
  - vm_compute. discriminate.
  - vm_compute. lia.
Defined.
