(* ===== verification/Pulse.v ===== *)
(** * Pulse: blocks made by quorums

    The state machine of [cryptonote_core/pulse.cpp]: in each round the validators of a
    quorum agree on who takes part, receive a block from its producer, commit to and reveal
    random values and sign the block ([pulse_impl::handle_message] for what arrives from
    others, one function per stage, [check_state] that runs them), with the timing of rounds.

    Times are in nanoseconds.  Each stage is given an [environment]: the chain as it is, the
    readings of the clock and fresh random bytes.  Messages relayed to the quorum and blocks
    handed to the core are collected in the state. *)
From stdpp Require Import gmap.
From S2P Require Import Prelude Hardfork Config Address Rules Voting Transactions NodeProof.
From S2P Require Import ServiceNode NodeList Random Quorums Events PulseEntropy.
#[local] Open Scope Z_scope.

Definition seconds (s : Z) : Z := s * 1000000000.

(** ** Messages *)

(** A [message_type] with the payload that belongs to it. *)
Inductive content :=
| Invalid
| Handshake
| HandshakeBitset (bitset : Z)
| BlockTemplate (blob : bytes) (txs : list bytes)
| RandomValueHash (hash : bytes)
| RandomValue (value : bytes)
| BlockSignature (signature : bytes).

Record message := Message {
  m_content : content;
  m_position : N;
  m_round : Z;
  m_signature : bytes;
}.
Definition quorum_position (m : message) : Z := Z.of_N (m_position m).

Definition message_type_value (c : content) : Z :=
  match c with
  | Invalid => 0 | Handshake => 1 | HandshakeBitset _ => 2 | BlockTemplate _ _ => 3
  | RandomValueHash _ => 4 | RandomValue _ => 5 | BlockSignature _ => 6
  end.

(** ** State *)

Inductive round_state :=
| st_null | st_wait_for_next_block | st_prepare_for_round | st_wait_for_round
| st_send_and_wait_for_handshakes | st_send_handshake_bitsets | st_wait_for_handshake_bitsets
| st_send_block_template | st_wait_for_block_template | st_send_and_wait_for_random_value_hashes
| st_send_and_wait_for_random_value | st_send_and_wait_for_block_signatures.
#[global] Instance round_state_eq_dec : EqDecision round_state.
Proof. solve_decision. Defined.

Definition round_state_value (s : round_state) : Z :=
  match s with
  | st_null => 0 | st_wait_for_next_block => 1 | st_prepare_for_round => 2 | st_wait_for_round => 3
  | st_send_and_wait_for_handshakes => 4 | st_send_handshake_bitsets => 5
  | st_wait_for_handshake_bitsets => 6 | st_send_block_template => 7 | st_wait_for_block_template => 8
  | st_send_and_wait_for_random_value_hashes => 9 | st_send_and_wait_for_random_value => 10
  | st_send_and_wait_for_block_signatures => 11
  end.
Definition before (s s' : round_state) : bool := round_state_value s <? round_state_value s'.

Inductive sn_type := sn_none | sn_producer | sn_validator.
#[global] Instance sn_type_eq_dec : EqDecision sn_type.
Proof. solve_decision. Defined.

(** A slot of a queue, by its [queueing_state]. *)
Inductive slot := slot_empty | slot_received (m : message) | slot_processed (m : message).

Definition NUM : nat := Z.to_nat PULSE_QUORUM_NUM_VALIDATORS.

Record pulse_wait_stage := Stage {
  queue : list slot;
  queue_count : Z;
  bitset : Z;
  msgs_received : Z;
  end_time : Z;
}.
Definition new_stage : pulse_wait_stage := Stage (replicate NUM slot_empty) 0 0 0 0.

(** Data sent once, and what the others sent. *)
Record send_and_wait := SendAndWait {
  to_send : option bytes;
  wait_data : list (option bytes);
  wait_stage : pulse_wait_stage;
}.
Definition new_send_and_wait : send_and_wait := SendAndWait None (replicate NUM None) new_stage.

Record transient_t := Transient {
  handshakes_sent : bool;
  handshakes : list bool;
  handshakes_stage : pulse_wait_stage;
  bitsets : list (option Z);
  bitsets_stage : pulse_wait_stage;
  best_bitset : Z;
  best_count : Z;
  template_stage : pulse_wait_stage;
  t_block : block;
  state_change_txs : list (bytes * bytes);
  random_value_hashes : send_and_wait;
  random_values : send_and_wait;
  block_signatures : send_and_wait;
}.
Definition new_transient : transient_t :=
  Transient false (replicate NUM false) new_stage (replicate NUM None) new_stage 0 0 new_stage
    (plain_block 0 0 0) [] new_send_and_wait new_send_and_wait new_send_and_wait.

Record round_data := RoundData {
  queue_for_next_round : bool;
  number : Z;
  r_quorum : quorum;
  participant : sn_type;
  my_quorum_position : Z;
  start_time : Z;
  round_end_time : Z;
}.
Definition new_round : round_data := RoundData false 0 (Quorum [] []) sn_none 0 0 0.

Record pulse_impl := Pulse {
  curr_height : Z;
  curr_top_hash : bytes;
  round_0_start_time : Z;
  round : round_data;
  transient : transient_t;
  state : round_state;
  (** What was relayed to the quorum and handed to [handle_block_found], in order. *)
  relayed : list message;
  found : list block;
}.

(** *** Setters *)

Definition with_state_ (p : pulse_impl) (s : round_state) : pulse_impl :=
  Pulse (curr_height p) (curr_top_hash p) (round_0_start_time p) (round p) (transient p) s (relayed p)
    (found p).
Definition with_transient (p : pulse_impl) (t : transient_t) : pulse_impl :=
  Pulse (curr_height p) (curr_top_hash p) (round_0_start_time p) (round p) t (state p) (relayed p)
    (found p).
Definition with_round (p : pulse_impl) (r : round_data) : pulse_impl :=
  Pulse (curr_height p) (curr_top_hash p) (round_0_start_time p) r (transient p) (state p) (relayed p)
    (found p).
Definition with_relayed (p : pulse_impl) (m : message) : pulse_impl :=
  Pulse (curr_height p) (curr_top_hash p) (round_0_start_time p) (round p) (transient p) (state p)
    (relayed p ++ [m]) (found p).
Definition with_found (p : pulse_impl) (b : block) : pulse_impl :=
  Pulse (curr_height p) (curr_top_hash p) (round_0_start_time p) (round p) (transient p) (state p)
    (relayed p) (found p ++ [b]).

Definition with_queue_flag (r : round_data) (flag : bool) : round_data :=
  RoundData flag (number r) (r_quorum r) (participant r) (my_quorum_position r) (start_time r)
    (round_end_time r).
Definition with_end_time (s : pulse_wait_stage) (t : Z) : pulse_wait_stage :=
  Stage (queue s) (queue_count s) (bitset s) (msgs_received s) t.
Definition with_queue (s : pulse_wait_stage) (q : list slot) (n : Z) : pulse_wait_stage :=
  Stage q n (bitset s) (msgs_received s) (end_time s).
(** [stage->bitset |= validator_bit; stage->msgs_received++]. *)
Definition count_message (s : pulse_wait_stage) (bit : Z) : pulse_wait_stage :=
  Stage (queue s) (queue_count s) (Z.lor (bitset s) bit) (u16 (msgs_received s + 1)) (end_time s).

Definition with_wait_stage (w : send_and_wait) (s : pulse_wait_stage) : send_and_wait :=
  SendAndWait (to_send w) (wait_data w) s.
Definition with_wait_data (w : send_and_wait) (i : nat) (x : bytes) : send_and_wait :=
  SendAndWait (to_send w) (<[i := Some x]> (wait_data w)) (wait_stage w).
Definition with_to_send (w : send_and_wait) (x : option bytes) : send_and_wait :=
  SendAndWait x (wait_data w) (wait_stage w).

Definition with_sent (t : transient_t) : transient_t :=
  Transient true (handshakes t) (handshakes_stage t) (bitsets t) (bitsets_stage t) (best_bitset t)
    (best_count t) (template_stage t) (t_block t) (state_change_txs t) (random_value_hashes t)
    (random_values t) (block_signatures t).
Definition with_handshake (t : transient_t) (i : nat) : transient_t :=
  Transient (handshakes_sent t) (<[i := true]> (handshakes t)) (handshakes_stage t) (bitsets t)
    (bitsets_stage t) (best_bitset t) (best_count t) (template_stage t) (t_block t)
    (state_change_txs t) (random_value_hashes t) (random_values t) (block_signatures t).
Definition with_bitset (t : transient_t) (i : nat) (b : Z) : transient_t :=
  Transient (handshakes_sent t) (handshakes t) (handshakes_stage t) (<[i := Some b]> (bitsets t))
    (bitsets_stage t) (best_bitset t) (best_count t) (template_stage t) (t_block t)
    (state_change_txs t) (random_value_hashes t) (random_values t) (block_signatures t).
Definition with_best (t : transient_t) (best count : Z) : transient_t :=
  Transient (handshakes_sent t) (handshakes t) (handshakes_stage t) (bitsets t) (bitsets_stage t)
    best count (template_stage t) (t_block t) (state_change_txs t) (random_value_hashes t)
    (random_values t) (block_signatures t).
Definition with_block (t : transient_t) (b : block) (txs : list (bytes * bytes)) : transient_t :=
  Transient (handshakes_sent t) (handshakes t) (handshakes_stage t) (bitsets t) (bitsets_stage t)
    (best_bitset t) (best_count t) (template_stage t) b txs (random_value_hashes t) (random_values t)
    (block_signatures t).
Definition with_late (t : transient_t) (hashes values sigs : send_and_wait) : transient_t :=
  Transient (handshakes_sent t) (handshakes t) (handshakes_stage t) (bitsets t) (bitsets_stage t)
    (best_bitset t) (best_count t) (template_stage t) (t_block t) (state_change_txs t) hashes values sigs.
Definition with_early_stages (t : transient_t) (hs hb bt : pulse_wait_stage) : transient_t :=
  Transient (handshakes_sent t) (handshakes t) hs (bitsets t) hb (best_bitset t) (best_count t) bt
    (t_block t) (state_change_txs t) (random_value_hashes t) (random_values t) (block_signatures t).

Definition with_pulse_header (b : block) (h : pulse_header) : block :=
  Block (major_version b) (b_height b) (b_timestamp b) (b_hash b) (b_prev_id b) (b_nonce b) h
    (b_signatures b) (tx_hashes b) (l2_votes b) (tx_eth_count b) (l2_height b).
Definition with_signatures (b : block) (sigs : list quorum_signature) : block :=
  Block (major_version b) (b_height b) (b_timestamp b) (b_hash b) (b_prev_id b) (b_nonce b) (b_pulse b)
    sigs (tx_hashes b) (l2_votes b) (tx_eth_count b) (l2_height b).
Definition with_validator_bitset (b : block) (bits : Z) : block :=
  with_pulse_header b (PulseHeader (random_value (b_pulse b)) (pulse_round (b_pulse b)) bits).
Definition with_random_value (b : block) (v : bytes) : block :=
  with_pulse_header b (PulseHeader v (pulse_round (b_pulse b)) (validator_bitset (b_pulse b))).
Definition participants (t : transient_t) : Z := validator_bitset (b_pulse (t_block t)).

(** The stage that a state waits in. *)
Definition stage_of (s : round_state) (t : transient_t) : option pulse_wait_stage :=
  match s with
  | st_send_and_wait_for_handshakes => Some (handshakes_stage t)
  | st_wait_for_handshake_bitsets => Some (bitsets_stage t)
  | st_wait_for_block_template => Some (template_stage t)
  | st_send_and_wait_for_random_value_hashes => Some (wait_stage (random_value_hashes t))
  | st_send_and_wait_for_random_value => Some (wait_stage (random_values t))
  | st_send_and_wait_for_block_signatures => Some (wait_stage (block_signatures t))
  | _ => None
  end.
Definition set_stage (s : round_state) (t : transient_t) (g : pulse_wait_stage) : transient_t :=
  match s with
  | st_send_and_wait_for_handshakes => with_early_stages t g (bitsets_stage t) (template_stage t)
  | st_wait_for_handshake_bitsets => with_early_stages t (handshakes_stage t) g (template_stage t)
  | st_wait_for_block_template => with_early_stages t (handshakes_stage t) (bitsets_stage t) g
  | st_send_and_wait_for_random_value_hashes =>
      with_late t (with_wait_stage (random_value_hashes t) g) (random_values t) (block_signatures t)
  | st_send_and_wait_for_random_value =>
      with_late t (random_value_hashes t) (with_wait_stage (random_values t) g) (block_signatures t)
  | st_send_and_wait_for_block_signatures =>
      with_late t (random_value_hashes t) (random_values t) (with_wait_stage (block_signatures t) g)
  | _ => t
  end.

(** The stage in which a message is handled. *)
Definition stage_for (c : content) : option round_state :=
  match c with
  | Invalid => None
  | Handshake => Some st_send_and_wait_for_handshakes
  | HandshakeBitset _ => Some st_wait_for_handshake_bitsets
  | BlockTemplate _ _ => Some st_wait_for_block_template
  | RandomValueHash _ => Some st_send_and_wait_for_random_value_hashes
  | RandomValue _ => Some st_send_and_wait_for_random_value
  | BlockSignature _ => Some st_send_and_wait_for_block_signatures
  end.

(** ** The machine *)

Section Machine.
Context (fk : list hard_fork) (nettype : network_type) (conf : network_config).
(** Hashes: [blake2b_hash], and libsodium's keyed hash of the concatenated random values. *)
Context (blake2b : bytes -> bytes) (generichash : list bytes -> bytes).
Context (check_signature : bytes -> bytes -> bytes -> bool).
(** Our key, and signing with it. *)
Context (my_pub : bytes) (generate_signature : bytes -> bytes).
Context (parse_block : bytes -> option block) (parse_tx : bytes -> option transaction).
Context (get_block_hash : block -> bytes).
(** Whether quorumnet is up. *)
Context (quorumnet : bool).

Definition msg_signature_hash (top_block_hash : bytes) (msg : message) : bytes :=
  let position := store_le 2 (quorum_position msg) in
  let rnd := store_le 1 (m_round msg) in
  match m_content msg with
  | Invalid => null_bytes 32
  | Handshake => blake2b (top_block_hash ++ position ++ rnd)
  | HandshakeBitset b => blake2b (store_le 2 b ++ top_block_hash ++ position ++ rnd)
  | BlockTemplate blob _ => blake2b (rnd ++ blake2b blob)
  | RandomValueHash h => blake2b (top_block_hash ++ position ++ rnd ++ h)
  | RandomValue v => blake2b (top_block_hash ++ position ++ rnd ++ v)
  | BlockSignature s => blake2b (top_block_hash ++ position ++ rnd ++ s)
  end.

Definition message_key (msg : message) (q : quorum) : option bytes :=
  match m_content msg with
  | Invalid => None
  | BlockTemplate _ _ => if negb (quorum_position msg =? 0) then None else workers q !! 0%nat
  | _ => validators q !! Z.to_nat (quorum_position msg)
  end.

Definition msg_signature_check (msg : message) (top_block_hash : bytes) (q : quorum) : bool :=
  match message_key msg q with
  | Some key => check_signature (msg_signature_hash top_block_hash msg) key (m_signature msg)
  | None => false
  end.

Definition validator_bit (position : Z) : Z := u16 (Z.shiftl 1 position).

(** The state change transactions sent with a template, by hash; [None] refuses them. *)
Fixpoint supplemental_txs (hashes : list bytes) (blobs : list bytes) (acc : list (bytes * bytes))
    : option (list (bytes * bytes)) :=
  match blobs with
  | [] => Some acc
  | blob :: blobs =>
      tx ← parse_tx blob;
      if negb (bool_decide (tx_type tx = txtype_state_change)) then None
      else if negb (bool_decide (tx_hash tx ∈ hashes)) then None
      else supplemental_txs hashes blobs
             (if bool_decide (tx_hash tx ∈ acc.*1) then acc else acc ++ [(tx_hash tx, blob)])
  end.

Definition accept_template (p : pulse_impl) (blob : bytes) (txs : list bytes) : option transient_t :=
  let t := transient p in
  if msgs_received (template_stage t) =? 1 then None
  else
    b ← parse_block blob;
    if negb (pulse_round (b_pulse b) =? number (round p)) then None
    else if negb (validator_bitset (b_pulse b) =? best_bitset t) then None
    else
      supp ← supplemental_txs (tx_hashes b) txs [];
      Some (with_block t b supp).

(** The data of a message is recorded; [None] when it is dropped. *)
Definition record_content (p : pulse_impl) (c : content) (i : nat) : option transient_t :=
  let t := transient p in
  match c with
  | Invalid => None
  | Handshake => if (handshakes t !!! i : bool) then None else Some (with_handshake t i)
  | HandshakeBitset b =>
      match (bitsets t !!! i : option Z) with Some _ => None | None => Some (with_bitset t i b) end
  | BlockTemplate blob txs => accept_template p blob txs
  | RandomValueHash h =>
      match (wait_data (random_value_hashes t) !!! i : option bytes) with
      | Some _ => None
      | None => Some (with_late t (with_wait_data (random_value_hashes t) i h) (random_values t)
                        (block_signatures t))
      end
  | RandomValue v =>
      match (wait_data (random_values t) !!! i : option bytes) with
      | Some _ => None
      | None =>
          let matches :=
            match (wait_data (random_value_hashes t) !!! i : option bytes) with
            | Some h => bool_decide (blake2b v = h)
            | None => true
            end in
          if matches then
            Some (with_late t (random_value_hashes t) (with_wait_data (random_values t) i v)
                    (block_signatures t))
          else None
      end
  | BlockSignature s =>
      match (wait_data (block_signatures t) !!! i : option bytes) with
      | Some _ => None
      | None =>
          if check_signature (get_block_hash (t_block t)) (validators (r_quorum (round p)) !!! i) s then
            Some (with_late t (random_value_hashes t) (random_values t)
                    (with_wait_data (block_signatures t) i s))
          else None
      end
  end.

(** A message for a later stage waits in its queue; late signatures of the last round are
    ignored. *)
Definition enqueue (p : pulse_impl) (msg : message) (s : round_state) : pulse_impl :=
  match stage_of s (transient p) with
  | None => p
  | Some g =>
      let i := Z.to_nat (quorum_position msg) in
      match queue g !! i with
      | Some slot_empty =>
          if negb (before st_wait_for_round (state p)) && (message_type_value (m_content msg) =? 6) then p
          else with_transient p (set_stage s (transient p)
                 (with_queue g (<[i := slot_received msg]> (queue g)) (queue_count g + 1)))
      | _ => p
      end
  end.

Definition dropped_validator (p : pulse_impl) (msg : message) : bool :=
  before st_wait_for_block_template (state p)
  && (message_type_value (BlockTemplate [] []) <? message_type_value (m_content msg))
  && (Z.land (participants (transient p)) (validator_bit (quorum_position msg)) =? 0).

Definition handle_message (p : pulse_impl) (msg : message) : pulse_impl :=
  if before (state p) st_wait_for_round then p
  else if negb (msg_signature_check msg (curr_top_hash p) (r_quorum (round p))) then p
  else
    match stage_for (m_content msg) with
    | None => p
    | Some s =>
        if PULSE_QUORUM_NUM_VALIDATORS <=? quorum_position msg then p
        else if before (state p) s then enqueue p msg s
        else if dropped_validator p msg then p
        else
          match record_content p (m_content msg) (Z.to_nat (quorum_position msg)) with
          | None => p
          | Some t =>
              match stage_of s t with
              | None => p
              | Some g =>
                  let p := with_transient p
                             (set_stage s t (count_message g (validator_bit (quorum_position msg)))) in
                  if quorumnet then with_relayed p msg else p
              end
          end
    end.

(** *** Helpers of the stages *)

Definition msg_init (p : pulse_impl) (c : content) : message :=
  let msg := Message c (Z.to_N (u16 (my_quorum_position (round p)))) (number (round p)) (null_bytes 64) in
  Message c (m_position msg) (m_round msg)
    (generate_signature (msg_signature_hash (curr_top_hash p) msg)).

(** One slot of the queue of a stage. *)
Definition handle_slot (s : round_state) (p : pulse_impl) (i : nat) : pulse_impl :=
  match stage_of s (transient p) with
  | Some g =>
      match queue g !! i with
      | Some (slot_received m) =>
          let p := handle_message p m in
          match stage_of s (transient p) with
          | Some g => with_transient p (set_stage s (transient p)
                        (with_queue g (<[i := slot_processed m]> (queue g)) (queue_count g)))
          | None => p
          end
      | _ => p
      end
  | None => p
  end.

Definition handle_messages_received_early_for (s : round_state) (p : pulse_impl) : pulse_impl :=
  match stage_of s (transient p) with
  | Some g => if queue_count g =? 0 then p else foldl (handle_slot s) p (seq 0 NUM)
  | None => p
  end.

(** The bit set of the validators for which a test holds. *)
Definition bits_of (l : list bool) : Z :=
  foldl (fun bits '(i, b) => if b : bool then Z.lor bits (validator_bit (Z.of_nat i)) else bits) 0
    (imap pair l).

Definition relay_validator_handshake_bit_or_bitset (sending_bitset : bool) (p : pulse_impl) : pulse_impl :=
  handle_message p
    (msg_init p (if sending_bitset then HandshakeBitset (bits_of (handshakes (transient p)))
                 else Handshake)).

Definition begin_stage_timer (s : round_state) (now : Z) (p : pulse_impl) : pulse_impl :=
  if get_network_version fk nettype (curr_height p) <? hf21_eth then p
  else
    match stage_of s (transient p) with
    | Some g =>
        let deadline := Z.min (now + seconds (PULSE_STAGE_TIMEOUT conf))
                          (start_time (round p) + seconds (PULSE_ROUND_TIMEOUT conf)) in
        with_transient p (set_stage s (transient p) (with_end_time g deadline))
    | None => p
    end.

Definition popcount (x : Z) : Z :=
  foldr (fun i n => b2z (Z.testbit x (Z.of_nat i)) + n) 0 (seq 0 16).

(** *** The world around *)

Context (cn_fast_hash : bytes -> bytes).
Context (fuel : nat) {G : Type} `{Engine G} (seed_number : Z -> G) (seed_sequence : list Z -> G).
Context (block_to_blob : block -> bytes).

Record environment := Env {
  (** Readings of the clock: at the start of a timer, for a time out, for a retry. *)
  now_timer : Z;
  now_check : Z;
  now_retry : Z;
  (** The chain. *)
  chain_height : Z;
  top_hash : bytes;
  top_height : Z;
  top_timestamp : Z;
  block_timestamp : Z -> option Z;
  find_block : bytes -> option block;
  (** The service node list. *)
  active_nodes : list entry;
  next_block_leader : bytes;
  own_info : option service_node_info;
  my_l2_votes : list bool;
  (** The core: block templates by round and bitset, the mempool, the L2 tracker. *)
  create_template : Z -> Z -> option (block * Z * list bytes);
  load_transactions : list bytes -> list (option transaction);
  l2_synced : Z;
  l2_vote : event -> bool;
  accept_tx : bytes -> bool;
  accept_block : block -> bool;
  fresh_random : bytes;
}.

(** *** Timing *)

Definition max_rounds (hf_version : hf) (snode_revision : Z) : Z :=
  if pulse_recovery hf_version snode_revision then 4
  else if hf22_sn_policy <=? hf_version then PULSE_MINER_FALLBACK_ROUNDS conf else 255.

Definition time_since (time r0_timestamp : Z) : Z :=
  if time <=? r0_timestamp then 0 else time - r0_timestamp.

Definition convert_time_to_round (hf_version : hf) (snode_revision time r0_timestamp : Z) : bool * Z :=
  let rounds := time_since time r0_timestamp / seconds (PULSE_ROUND_TIMEOUT conf) in
  (rounds <? max_rounds hf_version snode_revision, u8 (Z.min rounds 255)).

Record timings := Timings {
  genesis_timestamp : Z;
  prev_timestamp : Z;
  ideal_timestamp : Z;
  r0_timestamp : Z;
  miner_fallback_timestamp : Z;
}.

Definition clamp (v lo hi : Z) : Z := if v <? lo then lo else if hi <? v then hi else v.

Definition get_round_timings (height : Z) (timestamp_of : Z -> option Z) (block_height prev : Z)
    : option timings :=
  hf16 ← hard_fork_begins fk nettype hf16_pulse;
  if height <? hf16 then None
  else
    let genesis_height := u64 (hf16 - 1) in
    genesis ← timestamp_of genesis_height;
    let delta_height := u64 (block_height - genesis_height) in
    let ideal := seconds genesis + seconds (TARGET_BLOCK_TIME conf) * delta_height in
    let next := seconds prev + seconds (TARGET_BLOCK_TIME conf) in
    let r0 := clamp ideal (next - seconds (PULSE_MAX_START_ADJUSTMENT conf))
                (next + seconds (PULSE_MAX_START_ADJUSTMENT conf)) in
    let '(version, revision) := get_network_version_revision fk nettype block_height in
    Some (Timings (seconds genesis) (seconds prev) ideal r0
            (r0 + seconds (PULSE_ROUND_TIMEOUT conf) * max_rounds version revision)).

(** *** The stages: the new data and the next state *)

Definition goto_preparing_for_next_round (p : pulse_impl) : pulse_impl * round_state :=
  (with_round p (with_queue_flag (round p) true), st_prepare_for_round).

Definition clear_round_data (p : pulse_impl) : pulse_impl :=
  with_round (with_transient p new_transient) new_round.

Definition goto_wait_for_next_block_and_clear_round_data (p : pulse_impl) : pulse_impl * round_state :=
  (clear_round_data p, st_wait_for_next_block).

Definition wait_for_next_block (e : environment) (p : pulse_impl) : pulse_impl * round_state :=
  if bool_decide (curr_top_hash p = top_hash e) then (p, st_wait_for_next_block)
  else
    let height := u64 (top_height e + 1) in
    match get_round_timings (chain_height e) (block_timestamp e) height (top_timestamp e) with
    | None => (p, st_wait_for_next_block)
    | Some times =>
        (Pulse height (top_hash e) (r0_timestamp times) new_round (transient p) (state p) (relayed p)
           (found p), st_prepare_for_round)
    end.

(** Every stage ends one stage timeout after the one before. *)
Definition initial_stages (start : Z) (t : transient_t) : transient_t :=
  let at_stage (k : Z) (g : pulse_wait_stage) :=
    with_end_time g (start + k * seconds (PULSE_STAGE_TIMEOUT conf)) in
  with_late
    (with_early_stages t (at_stage 1 (handshakes_stage t)) (at_stage 2 (bitsets_stage t))
       (at_stage 3 (template_stage t)))
    (with_wait_stage (random_value_hashes t) (at_stage 4 (wait_stage (random_value_hashes t))))
    (with_wait_stage (random_values t) (at_stage 5 (wait_stage (random_values t))))
    (with_wait_stage (block_signatures t) (at_stage 6 (wait_stage (block_signatures t)))).

Definition participation (q : quorum) : sn_type * Z :=
  if bool_decide (workers q !! 0%nat = Some my_pub) then (sn_producer, 0)
  else
    match list_find (fun k => k = my_pub) (validators q) with
    | Some (i, _) => (sn_validator, Z.of_nat i)
    | None => (sn_none, 0)
    end.

(** The round to prepare: [None] if the machine has to wait for the next block. *)
Definition next_round (e : environment) (p : pulse_impl) : option Z :=
  let '(version, revision) := get_network_version_revision fk nettype (chain_height e) in
  let max_round_count := max_rounds version revision in
  let current := number (round p) in
  requested ←
    (if queue_for_next_round (round p) then
       if max_round_count <=? current + 1 then None
       else if negb (bool_decide (curr_top_hash p = top_hash e)) then None
       else Some (u8 (current + 1))
     else Some current);
  let by_clock := time_since (now_check e) (round_0_start_time p) / seconds (PULSE_ROUND_TIMEOUT conf) in
  if max_round_count <=? by_clock then None
  else Some (Z.max requested (u8 by_clock)).

Definition prepare_for_round (e : environment) (p : pulse_impl) : outcome (pulse_impl * round_state) :=
  let clear := clear_round_data p in
  match next_round e p with
  | None => mret (clear, st_wait_for_next_block)
  | Some n =>
      let start := round_0_start_time p + n * seconds (PULSE_ROUND_TIMEOUT conf) in
      let entropy := get_pulse_entropy_for_next_block cn_fast_hash (find_block e) (curr_top_hash p) n in
      q ← generate_pulse_quorum fuel seed_number seed_sequence nettype (next_block_leader e)
            (get_network_version fk nettype (chain_height e)) (active_nodes e) entropy n;
      if negb (verify_pulse_quorum_sizes q) then mret (clear, st_wait_for_next_block)
      else
        let '(part, position) := participation q in
        mret (with_round (with_transient clear (initial_stages start (transient clear)))
                (RoundData false n q part position start (start + seconds (PULSE_ROUND_TIMEOUT conf))),
              st_wait_for_round)
  end.

Definition wait_for_round (e : environment) (p : pulse_impl) : pulse_impl * round_state :=
  if negb (bool_decide (curr_top_hash p = top_hash e)) then goto_wait_for_next_block_and_clear_round_data p
  else if now_check e <? start_time (round p) then (p, st_wait_for_round)
  else
    match participant (round p) with
    | sn_validator => (p, st_send_and_wait_for_handshakes)
    | sn_producer => (p, st_wait_for_handshake_bitsets)
    | sn_none => goto_preparing_for_next_round p
    end.

Definition send_and_wait_for_handshakes (e : environment) (p : pulse_impl) : pulse_impl * round_state :=
  let p := if handshakes_sent (transient p) then p
           else relay_validator_handshake_bit_or_bitset false
                  (with_transient p (with_sent (transient p))) in
  let p := handle_messages_received_early_for st_send_and_wait_for_handshakes p in
  let g := handshakes_stage (transient p) in
  if (msgs_received g =? PULSE_QUORUM_NUM_VALIDATORS) || (end_time g <=? now_check e)
  then (p, st_send_handshake_bitsets)
  else (p, st_send_and_wait_for_handshakes).

Definition send_handshake_bitsets (e : environment) (p : pulse_impl) : pulse_impl * round_state :=
  let p := relay_validator_handshake_bit_or_bitset true p in
  (begin_stage_timer st_wait_for_handshake_bitsets (now_timer e) p, st_wait_for_handshake_bitsets).

(** The bit set most validators sent, the first to reach its count; with the count. *)
Definition count_bitset (acc : gmap Z Z * Z * Z) (b : option Z) : gmap Z Z * Z * Z :=
  match b with
  | None => acc
  | Some b =>
      let '(counts, best, count) := acc in
      let num := default 0 (counts !! b) + 1 in
      let counts := <[b := num]> counts in
      if count <? u16 num then (counts, b, u16 num) else (counts, best, count)
  end.
Definition most_common (l : list (option Z)) : Z * Z :=
  let '(_, best, count) := foldl count_bitset (∅, 0, 0) l in (best, count).

Definition wait_for_handshake_bitsets (e : environment) (p : pulse_impl) : pulse_impl * round_state :=
  let p := handle_messages_received_early_for st_wait_for_handshake_bitsets p in
  let g := bitsets_stage (transient p) in
  if (end_time g <=? now_check e) || (msgs_received g =? PULSE_QUORUM_NUM_VALIDATORS) then
    let '(best, count) := most_common (bitsets (transient p)) in
    let not_participating :=
      negb (best =? 0) && bool_decide (participant (round p) = sn_validator)
      && (Z.land best (Z.shiftl 1 (my_quorum_position (round p))) =? 0) in
    if (count <? PULSE_BLOCK_REQUIRED_SIGNATURES) || (best =? 0) || not_participating
    then goto_preparing_for_next_round p
    else
      let p := with_transient p (with_best (transient p) best (u16 count)) in
      if bool_decide (participant (round p) = sn_producer) then (p, st_send_block_template)
      else (begin_stage_timer st_wait_for_block_template (now_timer e) p, st_wait_for_block_template)
  else (p, st_wait_for_handshake_bitsets).

Definition send_block_template (e : environment) (p : pulse_impl) : pulse_impl * round_state :=
  match own_info e with
  | None => goto_preparing_for_next_round p
  | Some info =>
      if negb (is_active info) then goto_preparing_for_next_round p
      else
        match create_template e (number (round p)) (best_bitset (transient p)) with
        | None => goto_preparing_for_next_round p
        | Some (b, height, txs) =>
            if negb (curr_height p =? height) then goto_wait_for_next_block_and_clear_round_data p
            else goto_preparing_for_next_round
                   (with_relayed p (msg_init p (BlockTemplate (block_to_blob b) txs)))
        end
  end.

(** We support the L2 transactions that the block votes for. *)
Fixpoint l2_txs_supported (e : environment) (n : nat) (txs : list (option transaction)) : bool :=
  match n, txs with
  | O, _ => true
  | S n, Some tx :: txs =>
      is_l2_event_tx (tx_type tx)
      && match extract_event tx with Some ev => l2_vote e ev | None => false end
      && l2_txs_supported e n txs
  | S _, _ => false
  end.

Definition template_acceptable (e : environment) (b : block) : bool :=
  (if feature_ETH_BLS <=? major_version b then
     negb (l2_synced e <? l2_height b)
     && negb (Z.of_nat (length (tx_hashes b)) <? tx_eth_count b)
     && l2_txs_supported e (Z.to_nat (tx_eth_count b)) (load_transactions e (tx_hashes b))
     && bool_decide (l2_votes b = my_l2_votes e)
   else true)
  && (length (b_signatures b) =? 0)%nat.

Definition generate_random_value (value : bytes) (t : transient_t) : transient_t :=
  with_late t (with_to_send (random_value_hashes t) (Some (blake2b value)))
    (with_to_send (random_values t) (Some value)) (block_signatures t).

Definition wait_for_block_template (e : environment) (p : pulse_impl) : pulse_impl * round_state :=
  let p := handle_messages_received_early_for st_wait_for_block_template p in
  let g := template_stage (transient p) in
  if msgs_received g =? 1 then
    if template_acceptable e (t_block (transient p)) then
      (with_transient p (generate_random_value (fresh_random e) (transient p)),
       st_send_and_wait_for_random_value_hashes)
    else goto_preparing_for_next_round p
  else if end_time g <=? now_check e then goto_preparing_for_next_round p
  else (p, st_wait_for_block_template).

Definition reset_late_stages (value : bytes) (t : transient_t) : transient_t :=
  generate_random_value value
    (with_late t new_send_and_wait new_send_and_wait new_send_and_wait).

(** [None] if every participant has answered; otherwise whether to retry without the others. *)
Definition reset_for_missing_validators (e : environment) (g : pulse_wait_stage) (p : pulse_impl)
    : option bool * pulse_impl :=
  let t := transient p in
  if bitset g =? participants t then (None, p)
  else if negb (Z.lor (bitset g) (participants t) =? participants t) then (Some false, p)
  else if (PULSE_BLOCK_REQUIRED_SIGNATURES <=? popcount (bitset g))
          && (now_retry e <? round_end_time (round p))
          && (hf21_eth <=? get_network_version fk nettype (chain_height e)) then
    (Some true,
     with_transient p (reset_late_stages (fresh_random e)
       (with_block t (with_validator_bitset (t_block t) (bitset g)) (state_change_txs t))))
  else (Some false, p).

(** The late stage of a state, and what is sent in it. *)
Definition late_stage (s : round_state) (t : transient_t) : send_and_wait :=
  match s with
  | st_send_and_wait_for_random_value_hashes => random_value_hashes t
  | st_send_and_wait_for_random_value => random_values t
  | _ => block_signatures t
  end.
Definition set_late_stage (s : round_state) (t : transient_t) (w : send_and_wait) : transient_t :=
  match s with
  | st_send_and_wait_for_random_value_hashes => with_late t w (random_values t) (block_signatures t)
  | st_send_and_wait_for_random_value => with_late t (random_value_hashes t) w (block_signatures t)
  | _ => with_late t (random_value_hashes t) (random_values t) w
  end.

Definition start_send (e : environment) (s : round_state) (make : bytes -> content) (p : pulse_impl)
    : pulse_impl :=
  match to_send (late_stage s (transient p)) with
  | None => p
  | Some x =>
      let p := begin_stage_timer s (now_timer e) p in
      let msg := msg_init p (make x) in
      handle_message
        (with_transient p (set_late_stage s (transient p) (with_to_send (late_stage s (transient p)) None)))
        msg
  end.

(** Before HF21 the network goes on without the validators that are late. *)
Definition hf20_compat_mode (e : environment) : bool :=
  match hard_fork_begins fk nettype hf21_eth with
  | None => true
  | Some h => chain_height e <? h
  end.

Definition retry_or_give_up (e : environment) (g : pulse_wait_stage) (p : pulse_impl)
    (go_on : pulse_impl -> pulse_impl * round_state) : pulse_impl * round_state :=
  match reset_for_missing_validators e g p with
  | (None, p) => go_on p
  | (Some true, p) => (p, st_send_and_wait_for_random_value_hashes)
  | (Some false, p) => goto_preparing_for_next_round p
  end.

Definition send_and_wait_for_random_value_hashes (e : environment) (p : pulse_impl)
    : pulse_impl * round_state :=
  let here := st_send_and_wait_for_random_value_hashes in
  let p := start_send e here RandomValueHash p in
  let p := handle_messages_received_early_for here p in
  let g := wait_stage (random_value_hashes (transient p)) in
  let all_hashes := bitset g =? participants (transient p) in
  if (end_time g <=? now_check e) || all_hashes then
    if negb all_hashes && hf20_compat_mode e then
      if popcount (bitset g) <? PULSE_BLOCK_REQUIRED_SIGNATURES then goto_preparing_for_next_round p
      else (p, st_send_and_wait_for_random_value)
    else retry_or_give_up e g p (fun p => (p, st_send_and_wait_for_random_value))
  else (p, here).

(** The final random value goes into the block, which we sign. *)
Definition finish_random_value (e : environment) (p : pulse_impl) : pulse_impl * round_state :=
  let t := transient p in
  let value := take 16 (generichash (omap id (wait_data (random_values t)))) in
  let b := with_random_value (t_block t) value in
  let b := if hf20_compat_mode e
           then with_validator_bitset b (bitset (wait_stage (random_value_hashes t))) else b in
  let t := with_block t b (state_change_txs t) in
  (with_transient p (with_late t (random_value_hashes t) (random_values t)
     (with_to_send (block_signatures t) (Some (generate_signature (get_block_hash b))))),
   st_send_and_wait_for_block_signatures).

Definition send_and_wait_for_random_value (e : environment) (p : pulse_impl) : pulse_impl * round_state :=
  let here := st_send_and_wait_for_random_value in
  let p := start_send e here RandomValue p in
  let p := handle_messages_received_early_for here p in
  let t := transient p in
  let g := wait_stage (random_values t) in
  let all_values := bitset g =? (if hf20_compat_mode e then bitset (wait_stage (random_value_hashes t))
                                 else participants t) in
  if (end_time g <=? now_check e) || all_values then
    if negb all_values && hf20_compat_mode e then
      if popcount (bitset g) <? PULSE_BLOCK_REQUIRED_SIGNATURES then goto_preparing_for_next_round p
      else finish_random_value e p
    else retry_or_give_up e g p (finish_random_value e)
  else (p, here).

(** The loop that adds the signatures, up to the number a block needs. *)
Fixpoint add_signatures (i : Z) (sigs : list (option bytes)) (acc : list quorum_signature)
    : list quorum_signature :=
  match sigs with
  | [] => acc
  | None :: sigs => add_signatures (i + 1) sigs acc
  | Some s :: sigs =>
      let acc := acc ++ [QuorumSignature i s] in
      if Z.of_nat (length acc) =? PULSE_BLOCK_REQUIRED_SIGNATURES then acc
      else add_signatures (i + 1) sigs acc
  end.

Definition finish_block (e : environment) (p : pulse_impl) : pulse_impl * round_state :=
  let t := transient p in
  let b := with_signatures (t_block t)
             (add_signatures 0 (wait_data (block_signatures t)) (b_signatures (t_block t))) in
  let p := with_transient p (with_block t b (state_change_txs t)) in
  if negb (forallb (fun tx => accept_tx e tx.2) (state_change_txs t)) then goto_preparing_for_next_round p
  else
    let p := with_found p b in
    if accept_block e b then goto_wait_for_next_block_and_clear_round_data p
    else goto_preparing_for_next_round p.

Definition send_and_wait_for_block_signatures (e : environment) (p : pulse_impl) : pulse_impl * round_state :=
  let here := st_send_and_wait_for_block_signatures in
  let p := start_send e here BlockSignature p in
  let p := handle_messages_received_early_for here p in
  let t := transient p in
  let g := wait_stage (block_signatures t) in
  let all_sigs := bitset g =? (if hf20_compat_mode e then bitset (wait_stage (random_values t))
                               else participants t) in
  if (end_time g <=? now_check e) || all_sigs then retry_or_give_up e g p (finish_block e)
  else (p, here).

(** ** Running the stages *)

Definition run_stage (e : environment) (p : pulse_impl) : outcome (pulse_impl * round_state) :=
  match state p with
  | st_null => mret (p, st_wait_for_next_block)
  | st_wait_for_next_block => mret (wait_for_next_block e p)
  | st_prepare_for_round => prepare_for_round e p
  | st_wait_for_round => mret (wait_for_round e p)
  | st_send_and_wait_for_handshakes => mret (send_and_wait_for_handshakes e p)
  | st_send_handshake_bitsets => mret (send_handshake_bitsets e p)
  | st_wait_for_handshake_bitsets => mret (wait_for_handshake_bitsets e p)
  | st_send_block_template => mret (send_block_template e p)
  | st_wait_for_block_template => mret (wait_for_block_template e p)
  | st_send_and_wait_for_random_value_hashes => mret (send_and_wait_for_random_value_hashes e p)
  | st_send_and_wait_for_random_value => mret (send_and_wait_for_random_value e p)
  | st_send_and_wait_for_block_signatures => mret (send_and_wait_for_block_signatures e p)
  end.

(** The loop of [check_state], one environment per turn; [None] when [turns] is too small. *)
Fixpoint run_stages (turns : nat) (envs : nat -> environment) (p : pulse_impl)
    : outcome (option pulse_impl) :=
  match turns with
  | O => mret None
  | S turns =>
      '(p', s) ← run_stage (envs 0%nat) p;
      let p' := with_state_ p' s in
      if bool_decide (s = state p) then mret (Some p') else run_stages turns (fun i => envs (S i)) p'
  end.

Definition check_state (turns : nat) (envs : nat -> environment) (p : pulse_impl)
    : outcome (option pulse_impl) :=
  match hard_fork_begins fk nettype hf16_pulse with
  | None => mret (Some p)
  | Some hf16 =>
      if negb (before st_wait_for_next_block (state p)) && (chain_height (envs 0%nat) <? hf16)
      then mret (Some p)
      else run_stages turns envs p
  end.

End Machine.
