(* ===== verification/PulseSafety.v ===== *)
(** * What a pulse round keeps

    The invariant of the machine of [Pulse.v]: values answer commitments, signatures sign the
    block, each stage adds to what the ones before it settled; and that every message and every
    stage preserves it, with the rules of HF21 ([strict]) or with those before it. *)
From stdpp Require Import gmap.
From S2P Require Import Prelude Hardfork Config Address Rules Voting Transactions NodeProof.
From S2P Require Import ServiceNode NodeList Random Quorums Events PulseEntropy Pulse.
#[local] Open Scope Z_scope.

(** ** Bits *)

Lemma validator_bit_pow i : 0 <= i < 11 -> validator_bit i = 2 ^ i.
Proof.
  intros Hi. unfold validator_bit, u16. rewrite Z.shiftl_1_l. apply Z.mod_small. split; [lia|].
  assert (2 ^ i <= 2 ^ 10) by (apply Z.pow_le_mono_r; lia). change (2 ^ 10) with 1024 in *. lia.
Qed.

Lemma validator_bit_testbit i j : 0 <= i < 11 -> Z.testbit (validator_bit i) j = (i =? j).
Proof. intros Hi. rewrite validator_bit_pow by done. apply Z.pow2_bits_eqb. lia. Qed.

(** The bit set says where data was received. *)
Definition tracks {A} (data : list (option A)) (bits : Z) : Prop :=
  length data = NUM /\ forall j, 0 <= j -> Z.testbit bits j = bool_decide (is_Some (data !!! Z.to_nat j)).

Lemma lookup_total_insert_opt {A} (l : list (option A)) i j x :
  (i < length l)%nat -> <[i := x]> l !!! j = if bool_decide (i = j) then x else l !!! j.
Proof.
  intros Hi. rewrite !list_lookup_total_alt. case_bool_decide as E.
  - subst. by rewrite list_lookup_insert_eq.
  - by rewrite list_lookup_insert_ne.
Qed.

Lemma tracks_insert {A} (data : list (option A)) bits i x :
  tracks data bits -> 0 <= i < 11 ->
  tracks (<[Z.to_nat i := Some x]> data) (Z.lor bits (validator_bit i)).
Proof.
  intros [Hl Ht] Hi. split; [by rewrite length_insert|]. intros j Hj.
  rewrite Z.lor_spec, Ht, validator_bit_testbit by done.
  rewrite lookup_total_insert_opt by (rewrite Hl; unfold NUM, PULSE_QUORUM_NUM_VALIDATORS; lia).
  destruct (Z.eqb_spec i j) as [<-|Hne].
  - rewrite (bool_decide_eq_true_2 (Z.to_nat i = _)) by done. rewrite orb_true_r.
    symmetry. by apply bool_decide_eq_true_2.
  - rewrite (bool_decide_eq_false_2 (Z.to_nat i = _)) by lia. by rewrite orb_false_r.
Qed.

Lemma tracks_new {A} : tracks (replicate NUM (@None A)) 0.
Proof.
  split; [by rewrite length_replicate|]. intros j Hj. rewrite Z.bits_0. symmetry. apply bool_decide_eq_false_2.
  rewrite list_lookup_total_alt. destruct (replicate NUM None !! Z.to_nat j) as [y|] eqn:E; cbn.
  - apply lookup_replicate in E as [-> _]. by intros [? ?].
  - by intros [? ?].
Qed.

Lemma tracks_none {A} (data : list (option A)) bits i :
  tracks data bits -> 0 <= i -> data !!! Z.to_nat i = None -> Z.testbit bits i = false.
Proof. intros [_ Ht] Hi Hn. rewrite Ht, Hn by done. apply bool_decide_eq_false_2. by intros [? ?]. Qed.

Lemma tracks_some {A} (data : list (option A)) bits i :
  tracks data bits -> 0 <= i -> Z.testbit bits i = true -> is_Some (data !!! Z.to_nat i).
Proof. intros [_ Ht] Hi. rewrite Ht by done. by apply bool_decide_eq_true_1. Qed.

(** ** The part of the state that matters after the template *)

Record core_t := Core {
  c_state : Z;
  c_quorum : quorum;
  c_number : Z;
  c_block : block;
  c_templates : Z;
  c_hashes : list (option bytes) * Z;
  c_values : list (option bytes) * Z;
  c_sigs : list (option bytes) * Z;
}.
Definition data_of (w : send_and_wait) : list (option bytes) * Z := (wait_data w, bitset (wait_stage w)).
Definition core_of (r : round_data) (s : round_state) (t : transient_t) : core_t :=
  Core (round_state_value s) (r_quorum r) (number r) (t_block t) (msgs_received (template_stage t))
    (data_of (random_value_hashes t)) (data_of (random_values t)) (data_of (block_signatures t)).
Definition core (p : pulse_impl) : core_t := core_of (round p) (state p) (transient p).
Definition c_participants (c : core_t) : Z := validator_bitset (b_pulse (c_block c)).
Definition nothing : list (option bytes) * Z := (replicate NUM None, 0).

Lemma nothing_lookup (c : list (option bytes) * Z) j x : c = nothing -> c.1 !!! j = Some x -> False.
Proof.
  intros ->. cbn -[replicate]. rewrite list_lookup_total_alt. destruct (replicate NUM None !! j) eqn:E; [|done].
  by apply lookup_replicate in E as [-> _].
Qed.

(** *** The signatures of a block *)

Fixpoint listing (i : Z) (sigs : list (option bytes)) : list quorum_signature :=
  match sigs with
  | [] => []
  | None :: sigs => listing (i + 1) sigs
  | Some s :: sigs => QuorumSignature i s :: listing (i + 1) sigs
  end.

Lemma add_signatures_listing sigs i acc :
  (length acc < 7)%nat -> add_signatures i sigs acc = take 7 (acc ++ listing i sigs).
Proof.
  revert i acc. induction sigs as [|[s|] sigs IH]; intros i acc Hl; cbn -[take].
  - rewrite app_nil_r, take_ge by lia. done.
  - unfold PULSE_BLOCK_REQUIRED_SIGNATURES. destruct (Z.eqb_spec (Z.of_nat (length (acc ++ [QuorumSignature i s]))) 7) as [E|E];
      rewrite length_app in E; cbn in E.
    + symmetry. change (QuorumSignature i s :: listing (i + 1) sigs) with ([QuorumSignature i s] ++ listing (i + 1) sigs).
      rewrite app_assoc, take_app_length' by (rewrite length_app; cbn; lia). done.
    + rewrite IH by (rewrite length_app; cbn; lia). by rewrite <- app_assoc.
  - by apply IH.
Qed.

Lemma elem_of_listing x i sigs :
  x ∈ listing i sigs -> exists k : nat, voter_index x = i + Z.of_nat k /\ sigs !! k = Some (Some (qs_signature x)).
Proof.
  revert i. induction sigs as [|[s|] sigs IH]; intros i; cbn; [by intros ?%elem_of_nil| |].
  - intros [-> | Hx]%elem_of_cons; [exists 0%nat; cbn; split; [lia|done]|].
    destruct (IH _ Hx) as (k & Hk & Hs). exists (S k). split; [lia|done].
  - intros Hx. destruct (IH _ Hx) as (k & Hk & Hs). exists (S k). split; [lia|done].
Qed.

Lemma listing_sorted i sigs : StronglySorted Z.lt (voter_index <$> listing i sigs).
Proof.
  revert i. induction sigs as [|[s|] sigs IH]; intros i; cbn; [constructor| |apply IH].
  constructor; [apply IH|]. apply Forall_fmap, Forall_forall. intros x (k & Hk & _)%elem_of_listing. cbn. lia.
Qed.

Lemma voters_NoDup (l : list Z) : StronglySorted Z.lt l -> Forall (Z.le 0) l -> NoDup (Z.to_nat <$> l).
Proof.
  induction 1 as [|x l Hs IH Hx]; intros Hn; cbn; [constructor|]. apply Forall_cons in Hn as [Hn Hns].
  constructor; [|by apply IH]. intros (y & E & Hy)%list_elem_of_fmap.
  rewrite Forall_forall in Hx, Hns. specialize (Hx y Hy). specialize (Hns y Hy). lia.
Qed.

Lemma listing_length sigs i n :
  (length sigs <= n)%nat ->
  foldr (fun k c => b2z (bool_decide (is_Some (sigs !!! k))) + c) 0 (seq 0 n) = Z.of_nat (length (listing i sigs)).
Proof.
  revert i n. induction sigs as [|x sigs IH]; intros i n Hn.
  - cbn. induction (seq 0 n) as [|k l IHl]; [done|]. cbn. rewrite IHl.
    rewrite bool_decide_eq_false_2; [done|]. by intros [? ?].
  - destruct n as [|n]; [cbn in Hn; lia|]. cbn [seq foldr]. rewrite <- fmap_S_seq, foldr_fmap. cbn in Hn.
    specialize (IH (i + 1) n ltac:(lia)).
    replace (foldr _ 0 (seq 0 n)) with (Z.of_nat (length (listing (i + 1) sigs))) by (rewrite <- IH; done).
    destruct x as [s|]; cbn -[Z.of_nat]; lia.
Qed.

Lemma tracks_popcount (sigs : list (option bytes)) bits i :
  tracks sigs bits -> popcount bits = Z.of_nat (length (listing i sigs)).
Proof.
  intros [Hl Ht]. rewrite <- (listing_length sigs i 16) by (rewrite Hl; unfold NUM, PULSE_QUORUM_NUM_VALIDATORS; lia).
  unfold popcount. induction (seq 0 16) as [|k l IH]; [done|]. cbn [foldr]. rewrite IH, Ht, Nat2Z.id by lia. done.
Qed.

Lemma tracks_bound (sigs : list (option bytes)) bits : tracks sigs bits -> bits < 2 ^ 11.
Proof.
  intros [Hl Ht]. destruct (Z.le_gt_cases 0 bits) as [H0|]; [|lia].
  apply Z.bounded_iff_bits_nonneg; [lia..|]. intros j Hj. rewrite Ht by lia. apply bool_decide_eq_false_2.
  rewrite list_lookup_total_alt, lookup_ge_None_2; [by intros [? ?]|].
  rewrite Hl. unfold NUM, PULSE_QUORUM_NUM_VALIDATORS. lia.
Qed.

Section Safety.
Context (blake2b : bytes -> bytes) (generichash : list bytes -> bytes).
Context (check_signature : bytes -> bytes -> bytes -> bool).
Context (parse_block : bytes -> option block) (parse_tx : bytes -> option transaction).
Context (get_block_hash : block -> bytes).
Context (quorumnet : bool).
(** Where the quorum of a round comes from. *)
Context (origin : quorum -> Z -> Prop).
(** Whether only the rules of HF21 are used. *)
Context (strict : Prop).

Abbreviation receive := (handle_message blake2b check_signature parse_block parse_tx get_block_hash quorumnet).
Abbreviation receive_early := (handle_messages_received_early_for blake2b check_signature parse_block parse_tx
  get_block_hash quorumnet).

(** Values answer the commitments, signatures sign the block. *)
Record collected (c : core_t) : Prop := {
  co_validators : length (validators (c_quorum c)) = NUM;
  co_origin : origin (c_quorum c) (c_number c);
  co_hashes : tracks (c_hashes c).1 (c_hashes c).2;
  co_values : tracks (c_values c).1 (c_values c).2;
  co_sigs : tracks (c_sigs c).1 (c_sigs c).2;
  co_committed i v : strict -> (c_values c).1 !!! i = Some v -> (c_hashes c).1 !!! i = Some (blake2b v);
  co_signed i s : (c_sigs c).1 !!! i = Some s ->
    check_signature (get_block_hash (c_block c)) (validators (c_quorum c) !!! i) s = true;
}.

(** ... and each stage adds to the ones before it. *)
Record staged (c : core_t) : Prop := {
  sg_round : c_templates c = 1 -> pulse_round (b_pulse (c_block c)) = c_number c;
  sg_template : 9 <= c_state c -> c_templates c = 1 /\ b_signatures (c_block c) = [];
  sg_hashes_early : c_state c <= 8 -> c_hashes c = nothing;
  sg_values_early : c_state c <= 9 -> c_values c = nothing;
  sg_sigs_early : c_state c <= 10 -> c_sigs c = nothing;
  sg_all_hashes : strict -> 10 <= c_state c -> (c_hashes c).2 = c_participants c;
  sg_all_values : strict -> 11 <= c_state c -> (c_values c).2 = c_participants c;
  sg_random : strict -> 11 <= c_state c ->
    random_value (b_pulse (c_block c)) = take 16 (generichash (omap id (c_values c).1));
}.

Definition round_ok (c : core_t) : Prop := collected c /\ staged c.

(** *** Messages *)

Definition with_hash (c : core_t) (i : Z) (x : bytes) : core_t :=
  Core (c_state c) (c_quorum c) (c_number c) (c_block c) (c_templates c)
    (<[Z.to_nat i := Some x]> (c_hashes c).1, Z.lor (c_hashes c).2 (validator_bit i)) (c_values c) (c_sigs c).
Definition with_value (c : core_t) (i : Z) (x : bytes) : core_t :=
  Core (c_state c) (c_quorum c) (c_number c) (c_block c) (c_templates c) (c_hashes c)
    (<[Z.to_nat i := Some x]> (c_values c).1, Z.lor (c_values c).2 (validator_bit i)) (c_sigs c).
Definition with_sig (c : core_t) (i : Z) (x : bytes) : core_t :=
  Core (c_state c) (c_quorum c) (c_number c) (c_block c) (c_templates c) (c_hashes c) (c_values c)
    (<[Z.to_nat i := Some x]> (c_sigs c).1, Z.lor (c_sigs c).2 (validator_bit i)).

(** What a message can do. *)
Inductive received (c : core_t) : core_t -> Prop :=
| received_nothing : received c c
| received_template b n :
    8 <= c_state c -> c_templates c <> 1 -> pulse_round (b_pulse b) = c_number c ->
    received c (Core (c_state c) (c_quorum c) (c_number c) b n (c_hashes c) (c_values c) (c_sigs c))
| received_hash i x :
    9 <= c_state c -> 0 <= i < 11 -> Z.testbit (c_participants c) i = true ->
    (c_hashes c).1 !!! Z.to_nat i = None -> received c (with_hash c i x)
| received_value i x :
    10 <= c_state c -> 0 <= i < 11 -> Z.testbit (c_participants c) i = true ->
    (c_values c).1 !!! Z.to_nat i = None ->
    (forall h, (c_hashes c).1 !!! Z.to_nat i = Some h -> blake2b x = h) -> received c (with_value c i x)
| received_sig i x :
    11 <= c_state c -> 0 <= i < 11 -> Z.testbit (c_participants c) i = true ->
    (c_sigs c).1 !!! Z.to_nat i = None ->
    check_signature (get_block_hash (c_block c)) (validators (c_quorum c) !!! Z.to_nat i) x = true ->
    received c (with_sig c i x).

Lemma enqueue_core p m s : core (enqueue p m s) = core p.
Proof using Type.
  unfold enqueue. destruct (stage_of s (transient p)) as [g|] eqn:E; [|done].
  destruct (queue g !! _) as [[]|]; try done. destruct (_ && _); [done|].
  destruct s; cbn in E; try done; injection E as <-; done.
Qed.

Lemma handle_message_received p m : received (core p) (core (receive p m)).
Proof using Type.
  assert (Hpos : 0 <= quorum_position m) by (unfold quorum_position; lia). unfold handle_message. destruct (before (state p) _) eqn:E1; [constructor|].
  destruct (msg_signature_check _ _ _ _ _); cbn [negb]; [|constructor].
  destruct (stage_for (m_content m)) as [s|] eqn:Es; [|constructor].
  destruct (Z.leb_spec PULSE_QUORUM_NUM_VALIDATORS (quorum_position m)) as [|Hp]; [constructor|].
  destruct (before (state p) s) eqn:E2; [rewrite enqueue_core; constructor|].
  destruct (dropped_validator p m) eqn:E3; [constructor|].
  assert (Hi : 0 <= quorum_position m < 11) by (unfold PULSE_QUORUM_NUM_VALIDATORS in Hp; lia).
  assert (Hpart : 9 <= round_state_value (state p) -> 3 < message_type_value (m_content m) ->
    Z.testbit (participants (transient p)) (quorum_position m) = true).
  { intros Hs Hm. unfold dropped_validator in E3. unfold validator_bit in E3. rewrite land_bit_zero in E3 by lia. unfold before in E3.
    rewrite (proj2 (Z.ltb_lt _ _)) in E3 by (cbn; lia).
    rewrite (proj2 (Z.ltb_lt _ _)) in E3 by (cbn; lia). cbn in E3. by destruct (Z.testbit _ _). }
  assert (Hrel : forall p', core (if quorumnet then with_relayed p' m else p') = core p') by (by destruct quorumnet).
  unfold before in E2. apply Z.ltb_ge in E2.
  destruct (m_content m) as [| |b|blob txs|h|v|sg] eqn:Ec; cbn in Es; try discriminate Es; injection Es as <-; cbn [record_content stage_of];
    cbn [round_state_value] in E2.
  - destruct (handshakes _ !!! _); [constructor|]. cbn [stage_of]. rewrite Hrel. constructor.
  - destruct (bitsets _ !!! _); [constructor|]. cbn [stage_of]. rewrite Hrel. constructor.
  - unfold accept_template. destruct (Z.eqb_spec (msgs_received (template_stage (transient p))) 1) as [|Hm]; [constructor|].
    destruct (parse_block blob) as [b|]; cbn [mbind option_bind]; [|constructor].
    destruct (Z.eqb_spec (pulse_round (b_pulse b)) (number (round p))) as [Eb|]; cbn [negb]; [|constructor].
    destruct (negb _); [constructor|].
    destruct (supplemental_txs _ _ _ _) as [supp|]; cbn [mbind option_bind]; [|constructor].
    cbn [stage_of]. rewrite Hrel. apply (received_template (core p) b); done.
  - destruct (wait_data _ !!! _) as [y|] eqn:Ed; [constructor|]. cbn [stage_of]. rewrite Hrel.
    apply (received_hash (core p)); [done|done|by apply Hpart|done].
  - destruct (wait_data (random_values _) !!! _) as [y|] eqn:Ed; [constructor|].
    destruct (match wait_data (random_value_hashes _) !!! _ with Some _ => _ | None => _ end) eqn:Eh; [|constructor].
    cbn [stage_of]. rewrite Hrel. apply (received_value (core p)); [done|done|apply Hpart; [lia|done]|done|].
    intros x Hx. cbn in Hx. rewrite Hx in Eh. by apply bool_decide_eq_true_1 in Eh.
  - destruct (wait_data (block_signatures _) !!! _) as [y|] eqn:Ed; [constructor|].
    destruct (check_signature _ _ _) eqn:Eg; [|constructor].
    cbn [stage_of]. rewrite Hrel. apply (received_sig (core p)); [done|done|apply Hpart; [lia|done]|done|done].
Qed.

(** A field that did not change. *)
Ltac keep := try match goal with HC : _ |- _ => exact HC end.

Lemma received_round_ok c c' : 3 <= c_state c -> received c c' -> round_ok c -> round_ok c'.
Proof using Type.
  clear parse_tx parse_block. intros H3 Hr [[C1 C0 C2 C3 C4 C5 C6] [S0 S1 S2 S3 S4 S8 S9 S10]].
  destruct Hr as [|b n Hst Hn Hb|i x Hst Hi Hp Hd|i x Hst Hi Hp Hd Hh|i x Hst Hi Hp Hd Hg].
  - split; split; assumption.
  - assert (c_state c = 8) as E8. { destruct (Z.le_gt_cases 9 (c_state c)) as [H9|]; [|lia]. by destruct (S1 H9). }
    split; split; keep; try (cbn; intros; lia).
    intros j s Hs. by destruct (nothing_lookup _ _ _ (S4 ltac:(lia)) Hs).
  - assert (Hbad : strict -> 10 <= c_state c -> False).
    { intros Hstrict H10. rewrite <- (S8 Hstrict H10) in Hp. apply (tracks_none _ _ _ C2) in Hd; [congruence|lia]. }
    split; split; keep; try (cbn; intros; lia).
    + by apply tracks_insert.
    + intros j v Hstrict Hv. destruct (Z.le_gt_cases 10 (c_state c)) as [H10|H10]; [by destruct Hbad|].
      by destruct (nothing_lookup _ _ _ (S3 ltac:(lia)) Hv).
  - assert (Hbad : strict -> 11 <= c_state c -> False).
    { intros Hstrict H11. rewrite <- (S9 Hstrict H11) in Hp. apply (tracks_none _ _ _ C3) in Hd; [congruence|lia]. }
    split; split; keep; try (cbn; intros; lia); try (intros Hstrict H11; by destruct Hbad).
    + by apply tracks_insert.
    + intros j v Hstrict. cbn. rewrite lookup_total_insert_opt by (destruct C3 as [-> _]; unfold NUM, PULSE_QUORUM_NUM_VALIDATORS; lia).
      case_bool_decide as Ej; [|by apply C5]. intros [= <-]. subst j.
      rewrite <- (S8 Hstrict ltac:(lia)) in Hp. destruct (tracks_some _ _ i C2 (proj1 Hi) Hp) as [h Eh].
      rewrite Eh. f_equal. symmetry. by apply Hh.
  - split; split; keep; try (cbn; intros; lia).
    + by apply tracks_insert.
    + intros j s. cbn. rewrite lookup_total_insert_opt by (destruct C4 as [-> _]; unfold NUM, PULSE_QUORUM_NUM_VALIDATORS; lia).
      case_bool_decide as Ej; [|apply C6]. intros [= <-]. by subst j.
Qed.

(** What a stage has settled does not change in the next ones. *)
Definition frozen (c c' : core_t) : Prop :=
  (9 <= c_state c -> c_block c' = c_block c) /\
  (strict -> 10 <= c_state c -> c_hashes c' = c_hashes c) /\
  (strict -> 11 <= c_state c -> c_values c' = c_values c).

Lemma frozen_trans c1 c2 c3 : c_state c2 = c_state c1 -> frozen c1 c2 -> frozen c2 c3 -> frozen c1 c3.
Proof using Type.
  intros E (A1 & B1 & C1) (A2 & B2 & C2). rewrite E in *.
  split; [|split].
  - intros Hs. by rewrite A2, A1.
  - intros Hm Hs. by rewrite B2, B1.
  - intros Hm Hs. by rewrite C2, C1.
Qed.

Lemma received_frozen c c' : received c c' -> round_ok c -> frozen c c'.
Proof using Type.
  clear parse_tx parse_block. intros Hr [Hc Hs]. destruct Hr as [|b n _ Hn|i x H9 Hi Hp Hd|i x H10 Hi Hp Hd _| ]; try done.
  - split; [|done]. intros H9. by destruct (sg_template _ Hs H9).
  - split; [done|]. split; [|done]. intros Hm H10. exfalso. rewrite <- (sg_all_hashes _ Hs Hm H10) in Hp.
    apply (tracks_none _ _ _ (co_hashes _ Hc)) in Hd; [congruence|lia].
  - split; [done|]. split; [done|]. intros Hm H11. exfalso. rewrite <- (sg_all_values _ Hs Hm H11) in Hp.
    apply (tracks_none _ _ _ (co_values _ Hc)) in Hd; [congruence|lia].
Qed.

(** A message, or the messages that came early, keep what holds; the rest of the machine does
    not move. *)
Definition same_place (p p' : pulse_impl) : Prop :=
  state p' = state p /\ round p' = round p /\ found p' = found p /\
  curr_top_hash p' = curr_top_hash p /\ curr_height p' = curr_height p /\
  round_0_start_time p' = round_0_start_time p.

#[local] Instance same_place_refl : Reflexive same_place.
Proof using Type. by intros p. Qed.
#[local] Instance same_place_trans : Transitive same_place.
Proof using Type. unfold same_place. intros p1 p2 p3. naive_solver congruence. Qed.

Definition keeps (p p' : pulse_impl) : Prop :=
  same_place p p' /\
  (3 <= round_state_value (state p) -> round_ok (core p) ->
   round_ok (core p') /\ frozen (core p) (core p')).

#[global] Instance keeps_refl : Reflexive keeps.
Proof using Type. by intros p. Qed.
#[global] Instance keeps_trans : Transitive keeps.
Proof using Type.
  intros p1 p2 p3 [S1 K1] [S2 K2]. split; [by transitivity p2|]. intros H3 Hok.
  destruct S1 as [Est _]. rewrite Est in K2. destruct (K1 H3 Hok) as [Ok2 F1], (K2 H3 Ok2) as [Ok3 F2].
  split; [done|]. by eapply frozen_trans; [|exact F1|exact F2]; cbn; rewrite Est.
Qed.

Lemma keeps_core p p' : same_place p p' -> core p' = core p -> keeps p p'.
Proof using Type. intros Hs He. split; [done|]. intros _ Hok. by rewrite He.
Qed.

Lemma enqueue_place p m s : same_place p (enqueue p m s).
Proof using Type. unfold enqueue. repeat case_match; by repeat split. Qed.

Lemma receive_keeps p m : keeps p (receive p m).
Proof using Type.
  split; [|intros H3 Hok; pose proof (handle_message_received p m) as Hr; split;
           [exact (received_round_ok (core p) _ H3 Hr Hok)|exact (received_frozen (core p) _ Hr Hok)]].
  unfold handle_message. repeat (case_match; try reflexivity; try apply enqueue_place).
  all: by repeat split.
Qed.

Lemma set_stage_core s g g' t :
  stage_of s t = Some g -> bitset g' = bitset g -> msgs_received g' = msgs_received g ->
  forall r st, core_of r st (set_stage s t g') = core_of r st t.
Proof using Type.
  intros E Hb Hm r st. destruct s; cbn in E; try done; injection E as <-;
    unfold core_of, data_of; cbn; by rewrite ?Hb, ?Hm.
Qed.

Lemma set_stage_keeps s p g g' :
  stage_of s (transient p) = Some g -> bitset g' = bitset g -> msgs_received g' = msgs_received g ->
  keeps p (with_transient p (set_stage s (transient p) g')).
Proof using Type.
  intros E Hb Hm. apply keeps_core; [by repeat split|]. unfold core. cbn. by eapply set_stage_core.
Qed.

Lemma handle_slot_keeps s p i :
  keeps p (handle_slot blake2b check_signature parse_block parse_tx get_block_hash quorumnet s p i).
Proof using Type.
  unfold handle_slot. destruct (stage_of s (transient p)) as [g|]; [|reflexivity].
  destruct (queue g !! i) as [[]|]; try reflexivity.
  etransitivity; [apply receive_keeps|]. destruct (stage_of _ _) as [g'|] eqn:E; [|reflexivity].
  by eapply set_stage_keeps.
Qed.

Lemma receive_early_keeps s p : keeps p (receive_early s p).
Proof using Type.
  unfold handle_messages_received_early_for. destruct (stage_of s (transient p)) as [g|]; [|reflexivity].
  destruct (_ =? 0); [reflexivity|]. generalize (seq 0 NUM). intros l. revert p.
  induction l as [|i l IH]; intros p; [reflexivity|]. cbn [foldl]. etransitivity; [apply handle_slot_keeps|apply IH].
Qed.

(** *** Moving from stage to stage *)

Definition at_state (c : core_t) (s : Z) : core_t :=
  Core s (c_quorum c) (c_number c) (c_block c) (c_templates c) (c_hashes c) (c_values c) (c_sigs c).

Lemma round_ok_early c s : round_ok c -> c_state c <= 8 -> s <= 8 -> round_ok (at_state c s).
Proof using Type.
  clear parse_tx parse_block.
  intros [C [S0 S1 S2 S3 S4 S8 S9 S10]] Hc Hs. split; [by destruct C|].
  split; cbn; intros; try lia; [by apply S2|by apply S3; lia|by apply S4; lia].
Qed.

Lemma round_ok_template c :
  round_ok c -> c_state c = 8 -> c_templates c = 1 -> b_signatures (c_block c) = [] -> round_ok (at_state c 9).
Proof using Type.
  clear parse_tx parse_block.
  intros [C [S0 S1 S2 S3 S4 S8 S9 S10]] Hc Ht Hb. split; [by destruct C|].
  assert (c_hashes c = nothing) as Eh by (apply S2; lia). assert (c_values c = nothing) as Ev by (apply S3; lia).
  assert (c_sigs c = nothing) as Es by (apply S4; lia).
  split; cbn; intros; try lia; rewrite ?Eh, ?Ev, ?Es; done.
Qed.

Lemma round_ok_hashes c :
  round_ok c -> c_state c = 9 -> (strict -> (c_hashes c).2 = c_participants c) -> round_ok (at_state c 10).
Proof using Type.
  clear parse_tx parse_block.
  intros [C [S0 S1 S2 S3 S4 S8 S9 S10]] Hc Ha. split; [by destruct C|].
  split; cbn; intros; try lia; [apply S1; lia|apply S4; lia|by apply Ha].
Qed.

(** The random value enters the block: nobody has signed it before. *)
Lemma round_ok_values c b :
  round_ok c -> c_state c = 10 ->
  (strict -> (c_values c).2 = c_participants c /\ validator_bitset (b_pulse b) = c_participants c) ->
  pulse_round (b_pulse b) = pulse_round (b_pulse (c_block c)) -> b_signatures b = b_signatures (c_block c) ->
  random_value (b_pulse b) = take 16 (generichash (omap id (c_values c).1)) ->
  round_ok (Core 11 (c_quorum c) (c_number c) b (c_templates c) (c_hashes c) (c_values c) (c_sigs c)).
Proof using Type.
  clear parse_tx parse_block.
  intros [[C1 C0 C2 C3 C4 C5 C6] [S0 S1 S2 S3 S4 S8 S9 S10]] Hc Ha Hn Hs Hr.
  assert (Es : c_sigs c = nothing) by (apply S4; lia).
  split; split; keep; cbn -[c_participants]; intros; try lia.
  - by destruct (nothing_lookup _ _ _ Es H).
  - rewrite Hs. apply S1. lia.
  - destruct (Ha H) as [_ Hb]. change ((c_hashes c).2 = validator_bitset (b_pulse b)). rewrite Hb. apply S8; [done|lia].
  - destruct (Ha H) as [Hv Hb]. change ((c_values c).2 = validator_bitset (b_pulse b)). by rewrite Hb.
  - done.
Qed.

(** A retry starts the late stages over. *)
Lemma round_ok_retry c b :
  round_ok c -> 9 <= c_state c ->
  pulse_round (b_pulse b) = pulse_round (b_pulse (c_block c)) -> b_signatures b = b_signatures (c_block c) ->
  round_ok (Core 9 (c_quorum c) (c_number c) b (c_templates c) nothing nothing nothing).
Proof using Type.
  clear parse_tx parse_block.
  intros [[C1 C0 _ _ _ _ _] [S0 S1 _ _ _ _ _ _]] Hc Hn Hb. specialize (S1 Hc) as [St Ss].
  split; split; keep; cbn -[replicate]; intros; try lia; try apply tracks_new; try done.
  - by destruct (nothing_lookup _ _ _ eq_refl H0).
  - by destruct (nothing_lookup _ _ _ eq_refl H).
  - by rewrite Hb.
Qed.

(** A round begins with nothing. *)
Lemma round_ok_new q n b :
  length (validators q) = NUM -> origin q n -> round_ok (Core 3 q n b 0 nothing nothing nothing).
Proof using Type.
  clear parse_tx parse_block.
  intros Hq Ho. split; split; cbn -[replicate]; intros; try lia; try apply tracks_new; try done.
  - by destruct (nothing_lookup _ _ _ eq_refl H0).
  - by destruct (nothing_lookup _ _ _ eq_refl H).
Qed.

(** ** Blocks that were found *)

(** The signatures are of different participants, in order, for the block's hash. *)
Record block_evidence (q : quorum) (sigs : list (option bytes)) (b : block) : Prop := {
  gb_origin : origin q (pulse_round (b_pulse b));
  gb_size : length (validators q) = NUM;
  gb_signed : tracks sigs (validator_bitset (b_pulse b));
  gb_valid i s : sigs !!! i = Some s ->
    check_signature (get_block_hash b) (validators q !!! i) s = true;
  gb_signatures : b_signatures b = add_signatures 0 sigs [];
}.
Definition good_block (b : block) : Prop :=
  exists q sigs, block_evidence q sigs b.

Definition inv (p : pulse_impl) : Prop :=
  (round_state_value (state p) < 3 \/ round_ok (core p)) /\ Forall good_block (found p).
Definition next_inv (r : pulse_impl * round_state) : Prop := inv (with_state_ r.1 r.2).

Lemma core_state p p' s : keeps p p' -> state p = s -> c_state (core p') = round_state_value s.
Proof using Type. intros [(Hst & _) _] <-. by rewrite <- Hst. Qed.

Lemma core_at p s : core (with_state_ p s) = at_state (core p) (round_state_value s).
Proof using Type. done. Qed.

Lemma idle_inv p s : round_state_value s < 3 -> Forall good_block (found p) -> next_inv (p, s).
Proof using Type. intros Hs Hf. split; [by left|done]. Qed.

Lemma give_up_inv p : Forall good_block (found p) -> next_inv (goto_preparing_for_next_round p).
Proof using Type. intros Hf. split; [by left|done]. Qed.
Lemma next_block_inv p : Forall good_block (found p) -> next_inv (goto_wait_for_next_block_and_clear_round_data p).
Proof using Type. intros Hf. split; [by left|done]. Qed.

(** Staying or moving on among the stages up to the template. *)
Lemma early_inv p p' s :
  inv p -> keeps p p' -> 3 <= round_state_value (state p) <= 8 -> round_state_value s <= 8 -> next_inv (p', s).
Proof using Type.
  clear parse_tx parse_block.
  intros [[Hlt|Hok] Hf] [(Hst & _ & Hfound & _) Hk] Hs Hs'; [lia|]. split; [|cbn; by rewrite Hfound].
  right. cbn [fst snd]. rewrite core_at. apply round_ok_early; [apply Hk; [lia|done]|cbn; rewrite Hst; lia|done].
Qed.

Lemma same_state_inv p p' : inv p -> keeps p p' -> 3 <= round_state_value (state p) -> next_inv (p', state p).
Proof using Type.
  clear parse_tx parse_block.
  intros [[Hlt|Hok] Hf] [(Hst & _ & Hfound & _) Hk] Hs; [lia|]. split; [|cbn; by rewrite Hfound].
  right. cbn [fst snd]. rewrite <- Hst. destruct p'. by apply Hk.
Qed.

Lemma keeps_found p p' : keeps p p' -> inv p -> Forall good_block (found p').
Proof using Type. by intros [(_ & _ & -> & _) _] [_ Hf]. Qed.

Lemma keeps_ok p p' : keeps p p' -> inv p -> 3 <= round_state_value (state p) -> round_ok (core p').
Proof using Type. clear parse_tx parse_block. intros [_ Hk] [[?|Hok] _] Hs; [lia|by apply Hk]. Qed.

#[local] Hint Resolve give_up_inv next_block_inv : core.

Context (fk : list hard_fork) (nettype : network_type) (conf : network_config).
Context (my_pub : bytes) (generate_signature : bytes -> bytes).

Lemma begin_stage_timer_keeps s now p : keeps p (begin_stage_timer fk nettype conf s now p).
Proof using Type.
  unfold begin_stage_timer. destruct (_ <? _); [reflexivity|].
  destruct (stage_of s (transient p)) as [g|] eqn:E; [|reflexivity]. by eapply set_stage_keeps.
Qed.

Lemma relay_keeps bits p :
  keeps p (relay_validator_handshake_bit_or_bitset blake2b check_signature generate_signature parse_block
             parse_tx get_block_hash quorumnet bits p).
Proof using Type. apply receive_keeps. Qed.

Lemma start_send_keeps e s make p :
  keeps p (start_send fk nettype conf blake2b check_signature generate_signature parse_block parse_tx
             get_block_hash quorumnet e s make p).
Proof using Type.
  unfold start_send. destruct (to_send _); [|reflexivity].
  etransitivity; [apply begin_stage_timer_keeps|]. etransitivity; [|apply receive_keeps].
  apply keeps_core; [by repeat split|]. by destruct s.
Qed.

(** *** The stages *)

Section Stage.
Context (e : environment) (Hhf21 : strict -> hf20_compat_mode fk nettype e = false).
Context (p : pulse_impl) (Hinv : inv p).

Abbreviation started s make := (start_send fk nettype conf blake2b check_signature generate_signature parse_block
  parse_tx get_block_hash quorumnet e s make p).

Lemma wait_for_next_block_inv : next_inv (wait_for_next_block fk nettype conf e p).
Proof using Hinv.
  unfold wait_for_next_block. destruct Hinv as [_ Hf].
  repeat case_match; (split; [by left|done]).
Qed.

Lemma wait_for_round_inv : state p = st_wait_for_round -> next_inv (wait_for_round e p).
Proof using Hinv.
  intros Hs. unfold wait_for_round. destruct (negb _); [apply next_block_inv, Hinv|].
  destruct (_ <? _); [rewrite <- Hs; apply same_state_inv; [done|reflexivity|by rewrite Hs]|].
  destruct (participant _); [apply give_up_inv, Hinv| |]; (eapply early_inv; [done|reflexivity|by rewrite Hs|done]).
Qed.

Lemma handshakes_inv :
  state p = st_send_and_wait_for_handshakes ->
  next_inv (send_and_wait_for_handshakes blake2b check_signature generate_signature parse_block parse_tx
              get_block_hash quorumnet e p).
Proof using Hinv.
  intros Hs. unfold send_and_wait_for_handshakes. set (p1 := if handshakes_sent _ then p else _).
  assert (keeps p p1) as K1.
  { subst p1. destruct (handshakes_sent _); [reflexivity|]. etransitivity; [|apply relay_keeps]. by apply keeps_core. }
  assert (keeps p (receive_early st_send_and_wait_for_handshakes p1)) as K by (etransitivity; [done|apply receive_early_keeps]).
  destruct (_ || _); (eapply early_inv; [done|done|by rewrite Hs|done]).
Qed.

Lemma handshake_bitsets_inv :
  state p = st_send_handshake_bitsets ->
  next_inv (send_handshake_bitsets fk nettype conf blake2b check_signature generate_signature parse_block parse_tx
              get_block_hash quorumnet e p).
Proof using Hinv.
  intros Hs. unfold send_handshake_bitsets. eapply early_inv; [done| |by rewrite Hs|done].
  etransitivity; [apply relay_keeps|apply begin_stage_timer_keeps].
Qed.

Lemma wait_bitsets_inv :
  state p = st_wait_for_handshake_bitsets ->
  next_inv (wait_for_handshake_bitsets fk nettype conf blake2b check_signature parse_block parse_tx get_block_hash
              quorumnet e p).
Proof using Hinv.
  intros Hs. unfold wait_for_handshake_bitsets.
  pose proof (receive_early_keeps st_wait_for_handshake_bitsets p) as K.
  set (p1 := receive_early _ p) in *.
  destruct (_ || _); [|eapply early_inv; [done|done|by rewrite Hs|done]].
  destruct (most_common _) as [best count]. destruct (_ || _ || _); [apply give_up_inv; by eapply keeps_found|].
  assert (keeps p (with_transient p1 (with_best (transient p1) best (u16 count)))) as K2.
  { etransitivity; [exact K|]. by apply keeps_core. }
  destruct (bool_decide _); (eapply early_inv; [done| |by rewrite Hs|done]); [done|].
  etransitivity; [exact K2|apply begin_stage_timer_keeps].
Qed.

Lemma wait_template_inv :
  state p = st_wait_for_block_template ->
  next_inv (wait_for_block_template blake2b check_signature parse_block parse_tx get_block_hash quorumnet e p).
Proof using Hinv.
  intros Hs. unfold wait_for_block_template. pose proof (receive_early_keeps st_wait_for_block_template p) as K.
  set (p1 := receive_early _ p) in *.
  destruct (Z.eqb_spec (msgs_received (template_stage (transient p1))) 1) as [E1|].
  - destruct (template_acceptable e (t_block (transient p1))) eqn:Et; [|apply give_up_inv; by eapply keeps_found].
    split; [|exact (keeps_found p p1 K Hinv)]. right.
    assert (round_ok (core p1)) as Hok by (apply (keeps_ok p); [done..|by rewrite Hs]).
    apply (round_ok_template (core p1)); [done|exact (core_state p p1 _ K Hs)|done|].
    apply andb_true_iff in Et as [_ Et%Nat.eqb_eq]. by apply nil_length_inv.
  - destruct (_ <=? _); [apply give_up_inv; by eapply keeps_found|].
    eapply early_inv; [done|done|by rewrite Hs|done].
Qed.

(** Either everybody answered, or the late stages start over, or the round ends. *)
Lemma retry_or_give_up_inv g p1 go_on :
  keeps p p1 -> 9 <= round_state_value (state p) ->
  (bitset g = participants (transient p1) -> next_inv (go_on p1)) ->
  next_inv (retry_or_give_up fk nettype blake2b e g p1 go_on).
Proof using Hinv.
  clear parse_tx parse_block Hhf21 my_pub generate_signature.
  intros K Hs Hgo. unfold retry_or_give_up, reset_for_missing_validators.
  destruct (Z.eqb_spec (bitset g) (participants (transient p1))) as [Eb|]; [by apply Hgo|].
  destruct (negb _); [apply give_up_inv, (keeps_found p p1 K Hinv)|].
  destruct (_ && _); [|apply give_up_inv, (keeps_found p p1 K Hinv)].
  split; [|exact (keeps_found p p1 K Hinv)]. right.
  assert (round_ok (core p1)) as Hok by (apply (keeps_ok p); [done|done|lia]).
  assert (state p1 = state p) as Hst by apply K.
  exact (round_ok_retry (core p1) (with_validator_bitset (t_block (transient p1)) (bitset g)) Hok
           ltac:(cbn; rewrite Hst; lia) eq_refl eq_refl).
Qed.

Lemma go_to_values_inv p1 :
  keeps p p1 -> state p = st_send_and_wait_for_random_value_hashes ->
  (strict -> bitset (wait_stage (random_value_hashes (transient p1))) = participants (transient p1)) ->
  next_inv (p1, st_send_and_wait_for_random_value).
Proof using Hinv.
  intros K Hs Hall. split; [|exact (keeps_found p p1 K Hinv)]. right.
  apply (round_ok_hashes (core p1)); [apply (keeps_ok p); [done|done|by rewrite Hs]|exact (core_state p p1 _ K Hs)|done].
Qed.

Lemma hashes_inv :
  state p = st_send_and_wait_for_random_value_hashes ->
  next_inv (send_and_wait_for_random_value_hashes fk nettype conf blake2b check_signature generate_signature
              parse_block parse_tx get_block_hash quorumnet e p).
Proof using Hinv Hhf21.
  intros Hs. unfold send_and_wait_for_random_value_hashes.
  set (p1 := receive_early _ _).
  assert (keeps p p1) as K by (etransitivity; [apply start_send_keeps|apply receive_early_keeps]).
  destruct (_ || _); [|rewrite <- Hs; apply same_state_inv; [done|done|by rewrite Hs]].
  destruct (_ && hf20_compat_mode _ _ _) eqn:Em.
  - destruct (_ <? _); [apply give_up_inv, (keeps_found p p1 K Hinv)|].
    apply go_to_values_inv; [done..|]. intros Hstrict. rewrite (Hhf21 Hstrict), andb_false_r in Em. done.
  - apply retry_or_give_up_inv; [done|by rewrite Hs|]. intros Hall. by apply go_to_values_inv.
Qed.

Lemma finish_random_value_inv p1 :
  keeps p p1 -> state p = st_send_and_wait_for_random_value ->
  (strict -> bitset (wait_stage (random_values (transient p1))) = participants (transient p1)) ->
  next_inv (finish_random_value fk nettype generichash generate_signature get_block_hash e p1).
Proof using Hinv Hhf21.
  intros K Hs Hall. unfold finish_random_value.
  set (b := if hf20_compat_mode _ _ _ then _ else _).
  split; [|exact (keeps_found p p1 K Hinv)]. right.
  apply (round_ok_values (core p1) b).
  - apply (keeps_ok p); [done|done|by rewrite Hs].
  - exact (core_state p p1 _ K Hs).
  - intros Hstrict. split; [by apply Hall|]. unfold b. by rewrite (Hhf21 Hstrict).
  - unfold b. by destruct (hf20_compat_mode _ _ _).
  - unfold b. by destruct (hf20_compat_mode _ _ _).
  - unfold b. by destruct (hf20_compat_mode _ _ _).
Qed.

Lemma values_inv :
  state p = st_send_and_wait_for_random_value ->
  next_inv (send_and_wait_for_random_value fk nettype conf blake2b generichash check_signature generate_signature
              parse_block parse_tx get_block_hash quorumnet e p).
Proof using Hinv Hhf21.
  intros Hs. unfold send_and_wait_for_random_value.
  set (p1 := receive_early _ _).
  assert (keeps p p1) as K by (etransitivity; [apply start_send_keeps|apply receive_early_keeps]).
  destruct (_ || _); [|rewrite <- Hs; apply same_state_inv; [done|done|by rewrite Hs]].
  destruct (_ && hf20_compat_mode _ _ _) eqn:Em.
  - destruct (_ <? _); [apply give_up_inv, (keeps_found p p1 K Hinv)|].
    apply finish_random_value_inv; [done..|]. intros Hstrict. rewrite (Hhf21 Hstrict), andb_false_r in Em. done.
  - apply retry_or_give_up_inv; [done|by rewrite Hs|]. intros Hall. by apply finish_random_value_inv.
Qed.

(** The block hash leaves the signatures out. *)
Context (Hhash : forall b sigs, get_block_hash (with_signatures b sigs) = get_block_hash b).

Lemma finish_block_inv p1 :
  keeps p p1 -> state p = st_send_and_wait_for_block_signatures ->
  bitset (wait_stage (block_signatures (transient p1))) = participants (transient p1) ->
  next_inv (finish_block e p1).
Proof using Hinv Hhash.
  clear parse_tx parse_block Hhf21 my_pub generate_signature.
  intros K Hs Hall. unfold finish_block.
  pose proof (keeps_found p p1 K Hinv) as Hf. destruct (negb _); [by apply give_up_inv|].
  set (b := with_signatures _ _).
  assert (Forall good_block (found p1 ++ [b])) as Hf'.
  { apply Forall_app. split; [done|]. apply Forall_singleton.
    assert (round_ok (core p1)) as [[C1 C0 C2 C3 C4 C5 C6] [S0 S1 _ _ _ S8 S9 S10]]
      by (apply (keeps_ok p); [done|done|by rewrite Hs]).
    pose proof (core_state p p1 _ K Hs : c_state (core p1) = 11) as E11.
    exists (r_quorum (round p1)), (wait_data (block_signatures (transient p1))).
    destruct S1 as [St Hb]; [lia|]. split.
    - pose proof C0 as C. rewrite <- S0 in C by done. exact C.
    - exact C1.
    - change (tracks (wait_data (block_signatures (transient p1))) (participants (transient p1))).
      rewrite <- Hall. exact C4.
    - intros i s Hi. unfold b. rewrite Hhash. by apply C6.
    - unfold b. cbn. cbn in Hb. by rewrite Hb. }
  destruct (accept_block e b); [by apply next_block_inv|by apply give_up_inv].
Qed.

Lemma signatures_inv :
  state p = st_send_and_wait_for_block_signatures ->
  next_inv (send_and_wait_for_block_signatures fk nettype conf blake2b check_signature generate_signature
              parse_block parse_tx get_block_hash quorumnet e p).
Proof using Hinv Hhash.
  intros Hs. unfold send_and_wait_for_block_signatures. 
  set (p1 := receive_early _ _).
  assert (keeps p p1) as K by (etransitivity; [apply start_send_keeps|apply receive_early_keeps]).
  destruct (_ || _); [|rewrite <- Hs; apply same_state_inv; [done|done|by rewrite Hs]].
  apply retry_or_give_up_inv; [done|by rewrite Hs|]. by apply finish_block_inv.
Qed.

(** After the values began to be revealed, no commitment changes or is added. *)
Definition same_hashes (r : pulse_impl * round_state) : Prop :=
  strict -> 10 <= round_state_value r.2 ->
    data_of (random_value_hashes (transient r.1)) = data_of (random_value_hashes (transient p)).

Lemma keeps_same_hashes p1 s : keeps p p1 -> 10 <= round_state_value (state p) -> same_hashes (p1, s).
Proof using Hinv.
  clear parse_tx parse_block Hhf21 my_pub generate_signature Hhash.
  intros [_ Hk] Hs Hm _. destruct Hinv as [[?|Hok] _]; [lia|]. destruct (Hk ltac:(lia) Hok) as [_ (_ & Hh & _)].
  by apply Hh.
Qed.

Lemma retry_same_hashes g p1 go_on : same_hashes (go_on p1) -> same_hashes (retry_or_give_up fk nettype blake2b e g p1 go_on).
Proof using Type.
  unfold retry_or_give_up, reset_for_missing_validators. intros Hgo.
  destruct (_ =? _); [done|]. destruct (negb _); [by intros _ []|]. destruct (_ && _); by intros _ [].
Qed.

Lemma values_same_hashes :
  state p = st_send_and_wait_for_random_value ->
  same_hashes (send_and_wait_for_random_value fk nettype conf blake2b generichash check_signature generate_signature
              parse_block parse_tx get_block_hash quorumnet e p).
Proof using Hinv.
  intros Hs. unfold send_and_wait_for_random_value.
  set (p1 := receive_early _ _).
  assert (keeps p p1) as K by (etransitivity; [apply start_send_keeps|apply receive_early_keeps]).
  assert (forall s, same_hashes (p1, s)) as Hp1 by (intros s; apply keeps_same_hashes; [done|by rewrite Hs]).
  destruct (_ || _); [|apply Hp1]. destruct (_ && hf20_compat_mode _ _ _).
  - destruct (_ <? _); [by intros _ []|exact (Hp1 st_send_and_wait_for_block_signatures)].
  - apply retry_same_hashes. exact (Hp1 st_send_and_wait_for_block_signatures).
Qed.

Lemma signatures_same_hashes :
  state p = st_send_and_wait_for_block_signatures ->
  same_hashes (send_and_wait_for_block_signatures fk nettype conf blake2b check_signature generate_signature
              parse_block parse_tx get_block_hash quorumnet e p).
Proof using Hinv.
  intros Hs. unfold send_and_wait_for_block_signatures.
  set (p1 := receive_early _ _).
  assert (keeps p p1) as K by (etransitivity; [apply start_send_keeps|apply receive_early_keeps]).
  destruct (_ || _); [|apply keeps_same_hashes; [done|by rewrite Hs]].
  apply retry_same_hashes. unfold finish_block. destruct (negb _); [by intros _ []|].
  destruct (accept_block _ _); by intros _ [].
Qed.

Lemma send_template_inv block_to_blob :
  next_inv (send_block_template blake2b generate_signature block_to_blob e p).
Proof using Hinv.
  unfold send_block_template. destruct Hinv as [_ Hf]. repeat case_match; by auto.
Qed.

Lemma prepare_for_round_inv cn_fast_hash fuel `{Engine G} seed_number seed_sequence r :
  (forall q n top, generate_pulse_quorum fuel seed_number seed_sequence nettype (next_block_leader e)
     (get_network_version fk nettype (chain_height e)) (active_nodes e)
     (get_pulse_entropy_for_next_block cn_fast_hash (find_block e) top n) n = Returned q -> origin q n) ->
  prepare_for_round fk nettype conf my_pub cn_fast_hash fuel seed_number seed_sequence e p = Returned r ->
  next_inv r.
Proof using Hinv.
  clear parse_tx parse_block generate_signature Hhf21 Hhash.
  intros Ho. unfold prepare_for_round. destruct Hinv as [_ Hf].
  destruct (next_round _ _ _ _ _) as [n|]; [|intros [= <-]; by apply idle_inv].
  destruct (generate_pulse_quorum _ _ _ _ _ _ _ _ _) as [q| |] eqn:Eq; cbn [mbind outcome_bind]; try discriminate.
  destruct (verify_pulse_quorum_sizes q) eqn:Ev; cbn [negb]; [|intros [= <-]; by apply idle_inv].
  destruct (participation my_pub q) as [part position]. intros [= <-]. split; [|done]. right.
  apply (round_ok_new q n (t_block new_transient)); [|by eapply Ho].
  unfold verify_pulse_quorum_sizes in Ev. bool_hyps. unfold NUM. lia.
Qed.

End Stage.
End Safety.
