(* ===== verification/PulseRuns.v ===== *)
(** * Runs of the pulse state machine

    Over every run of the machine of [Pulse.v] (messages from anyone in any order, any clock):
    the random value of a block is fixed by commitments that were collected before any value was
    revealed, and a block is handed to the core with signatures that
    [verify_quorum_signatures] accepts. *)
From stdpp Require Import gmap.
From S2P Require Import Prelude Hardfork Config Address Rules Voting Transactions NodeProof.
From S2P Require Import ServiceNode NodeList Random Quorums Events PulseEntropy Pulse PulseSafety.
#[local] Open Scope Z_scope.

(** ** Runs of the machine *)

Definition initial : pulse_impl := Pulse 0 (null_bytes 32) 0 new_round new_transient st_null [] [].

Section Run.
Context (fk : list hard_fork) (nettype : network_type) (conf : network_config).
Context (blake2b : bytes -> bytes) (generichash : list bytes -> bytes).
Context (check_signature : bytes -> bytes -> bytes -> bool).
Context (my_pub : bytes) (generate_signature : bytes -> bytes).
Context (parse_block : bytes -> option block) (parse_tx : bytes -> option transaction).
Context (get_block_hash : block -> bytes) (quorumnet : bool).
Context (cn_fast_hash : bytes -> bytes).
Context (fuel : nat) {G : Type} `{Engine G} (seed_number : Z -> G) (seed_sequence : list Z -> G).
Context (block_to_blob : block -> bytes).

Abbreviation receive := (handle_message blake2b check_signature parse_block parse_tx get_block_hash quorumnet).
Abbreviation stage := (run_stage fk nettype conf blake2b generichash check_signature my_pub generate_signature
  parse_block parse_tx get_block_hash quorumnet cn_fast_hash fuel seed_number seed_sequence block_to_blob).
Abbreviation stages := (run_stages fk nettype conf blake2b generichash check_signature my_pub generate_signature
  parse_block parse_tx get_block_hash quorumnet cn_fast_hash fuel seed_number seed_sequence block_to_blob).
Abbreviation check := (check_state fk nettype conf blake2b generichash check_signature my_pub generate_signature
  parse_block parse_tx get_block_hash quorumnet cn_fast_hash fuel seed_number seed_sequence block_to_blob).

(** Messages arrive and stages run, in any order; if [strict], under the rules of HF21. *)
Inductive step (strict : Prop) (p : pulse_impl) : pulse_impl -> Prop :=
| step_message m : step strict p (receive p m)
| step_stage e p' s :
    (strict -> hf20_compat_mode fk nettype e = false) -> stage e p = Returned (p', s) ->
    step strict p (with_state_ p' s).
Definition reachable (strict : Prop) (p : pulse_impl) : Prop := rtc (step strict) initial p.

(** The quorum was generated for round [n] from the nodes of some chain. *)
Definition round_quorum (q : quorum) (n : Z) : Prop :=
  exists leader version nodes find top,
    generate_pulse_quorum fuel seed_number seed_sequence nettype leader version nodes
      (get_pulse_entropy_for_next_block cn_fast_hash find top n) n = Returned q.

Context (Hhash : forall b sigs, get_block_hash (with_signatures b sigs) = get_block_hash b).
Context (strict : Prop).
Abbreviation run_inv := (inv blake2b generichash check_signature get_block_hash round_quorum strict).

Lemma stage_inv e p p' s :
  (strict -> hf20_compat_mode fk nettype e = false) -> run_inv p -> stage e p = Returned (p', s) ->
  run_inv (with_state_ p' s).
Proof using Hhash.
  intros Hm Hinv Hr.
  change (next_inv blake2b generichash check_signature get_block_hash round_quorum strict (p', s)).
  unfold run_stage in Hr. unfold mret, outcome_ret in Hr. destruct (state p) eqn:Es;
    try match type of Hr with Returned ?r = _ => replace (p', s) with r by congruence end.
  - by apply idle_inv; [|apply Hinv].
  - by apply wait_for_next_block_inv.
  - eapply prepare_for_round_inv; [done| |exact Hr]. intros q n top Hq. by do 5 eexists.
  - by apply wait_for_round_inv.
  - by apply handshakes_inv.
  - by apply handshake_bitsets_inv.
  - by apply wait_bitsets_inv.
  - by apply send_template_inv.
  - by apply wait_template_inv.
  - by apply hashes_inv.
  - by apply values_inv.
  - by apply signatures_inv.
Qed.

Lemma step_inv p p' : step strict p p' -> run_inv p -> run_inv p'.
Proof using Hhash.
  intros [m|e p1 s Hm Hr] Hinv; [|by eapply stage_inv]. destruct Hinv as [Hok Hf].
  pose proof (receive_keeps blake2b generichash check_signature parse_block parse_tx get_block_hash quorumnet
    round_quorum strict p m) as [Hsame Hk].
  destruct Hsame as (Hst & _ & Hfound & _). split; [|by rewrite Hfound]. rewrite Hst.
  destruct Hok as [Hlt|Hok]; [by left|].
  destruct (Z.lt_ge_cases (round_state_value (state p)) 3) as [|H3]; [by left|right; by apply Hk].
Qed.

Lemma reachable_inv p : reachable strict p -> run_inv p.
Proof using Hhash.
  unfold reachable. intros Hp. assert (run_inv initial) as H0 by (by split; [left|constructor]).
  induction Hp as [|p1 p2 p3 Hstep _ IH]; [done|]. apply IH. by eapply step_inv.
Qed.

(** [check_state] is a sequence of these steps. *)
Lemma run_stages_steps turns envs p p' :
  (forall i, strict -> hf20_compat_mode fk nettype (envs i) = false) ->
  stages turns envs p = Returned (Some p') -> rtc (step strict) p p'.
Proof using Type.
  revert envs p. induction turns as [|turns IH]; intros envs p Hm; cbn [run_stages]; [done|].
  destruct (stage (envs 0%nat) p) as [[p1 s]| |] eqn:Er; cbn [mbind outcome_bind]; try discriminate.
  intros Hr. eapply rtc_l; [by apply (step_stage strict p (envs 0%nat)); [apply Hm|]|].
  destruct (bool_decide _); [injection Hr as <-; apply rtc_refl|]. exact (IH _ _ (fun i => Hm (S i)) Hr).
Qed.

Lemma check_state_steps turns envs p p' :
  (forall i, strict -> hf20_compat_mode fk nettype (envs i) = false) ->
  check turns envs p = Returned (Some p') -> rtc (step strict) p p'.
Proof using Type.
  intros Hm. unfold check_state. destruct (hard_fork_begins _ _ _); [|intros [= <-]; apply rtc_refl].
  destruct (_ && _); [intros [= <-]; apply rtc_refl|by apply run_stages_steps].
Qed.

(** What the quorum rules look at. *)
Definition pulse_info (b : block) : block_pulse :=
  BlockPulse (validator_bitset (b_pulse b)) (pulse_round (b_pulse b)).

Lemma evidence_accepted q sigs b v :
  block_evidence check_signature get_block_hash round_quorum q sigs b ->
  verify_quorum_signatures check_signature q pulse v (get_block_hash b) (b_signatures b) (Some (pulse_info b))
  = (7 <=? popcount (validator_bitset (b_pulse b))).
Proof using Type.
  clear parse_tx parse_block my_pub generate_signature block_to_blob Hhash.
  intros [_ Hq Hs Hv Hb]. rewrite add_signatures_listing in Hb by (cbn; lia). cbn [app] in Hb.
  assert (Hall : Forall (sig_ok check_signature q pulse (get_block_hash b) (Some (pulse_info b))) (b_signatures b)).
  { rewrite Hb. apply Forall_take, Forall_forall. intros x (k & Hk & Hx)%elem_of_listing.
    assert (k < NUM)%nat as Hlt by (destruct Hs as [<- _]; by eapply lookup_lt_Some).
    assert (sigs !!! k = Some (qs_signature x)) as Hx' by (by apply list_lookup_total_correct).
    unfold NUM, PULSE_QUORUM_NUM_VALIDATORS in *. split; [rewrite Hq; lia|].
    replace (Z.to_nat (voter_index x)) with k by lia. split; [by apply Hv|].
    intros _. exists (pulse_info b). split; [done|]. cbn. destruct Hs as [_ ->]; [|lia].
    replace (Z.to_nat (voter_index x)) with k by lia. rewrite Hx'. by apply bool_decide_eq_true_2. }
  assert (Hsorted : StronglySorted Z.lt (voter_index <$> b_signatures b)).
  { rewrite Hb, fmap_take. eapply (StronglySorted_app_1_l _ _ (drop 7 _)). rewrite take_drop. apply listing_sorted. }
  pose proof (tracks_popcount sigs _ 0 Hs) as Hpop.
  apply eq_iff_eq_true. rewrite Z.leb_le, quorum_signatures_accepted_spec; [|by right| | |].
  2: { rewrite Hq. unfold NUM, PULSE_QUORUM_NUM_VALIDATORS. lia. }
  2: { rewrite Hq. unfold NUM, PULSE_QUORUM_NUM_VALIDATORS. lia. }
  2: { eapply Forall_impl; [exact Hall|]. intros x [[? _] _]. done. }
  split.
  - intros (_ & _ & _ & Hp). destruct (Hp eq_refl) as [Hl _]. rewrite Hb, length_take in Hl. lia.
  - intros H7. split; [done|]. split; [|split; [done|]].
    + rewrite list_fmap_compose. apply voters_NoDup; [done|]. apply Forall_fmap.
      eapply Forall_impl; [exact Hall|]. intros x [[? _] _]. done.
    + intros _. split; [rewrite Hb, length_take; lia|]. split; [intros _; by apply StronglySorted_Sorted|].
      exists (pulse_info b). split; [done|]. by apply (tracks_bound sigs).
Qed.

Lemma step_same_hashes p p' :
  strict -> run_inv p -> step strict p p' -> 10 <= round_state_value (state p) -> 10 <= round_state_value (state p') ->
  data_of (random_value_hashes (transient p')) = data_of (random_value_hashes (transient p)).
Proof using Type.
  intros Hstrict Hinv [m|e p1 s Hm Hr] Hs Hs'.
  - exact (keeps_same_hashes blake2b generichash check_signature get_block_hash round_quorum strict p Hinv _ (state p)
      (receive_keeps _ _ _ _ _ _ _ _ _ p m) Hs Hstrict Hs).
  - cbn in Hs'. unfold run_stage, mret, outcome_ret in Hr. destruct (state p) eqn:Es; cbn in Hs; try lia.
    + pose proof (values_same_hashes blake2b generichash check_signature parse_block parse_tx get_block_hash quorumnet
        round_quorum strict fk nettype conf generate_signature e p Hinv Es Hstrict) as Hv.
      injection Hr as Hr. rewrite Hr in Hv. by apply Hv.
    + pose proof (signatures_same_hashes blake2b generichash check_signature parse_block parse_tx get_block_hash quorumnet
        round_quorum strict fk nettype conf generate_signature e p Hinv Es Hstrict) as Hv.
      injection Hr as Hr. rewrite Hr in Hv. by apply Hv.
Qed.

Lemma run_committed p :
  strict -> reachable strict p -> 3 <= round_state_value (state p) ->
  let t := transient p in
  let hashes := wait_data (random_value_hashes t) in
  let values := wait_data (random_values t) in
  (forall i v, values !!! i = Some v -> hashes !!! i = Some (blake2b v)) /\
  (round_state_value (state p) <= 9 -> values = replicate NUM None) /\
  (10 <= round_state_value (state p) ->
     (forall i, 0 <= i -> is_Some (hashes !!! Z.to_nat i) <-> Z.testbit (participants t) i = true) /\
     (forall p', step strict p p' -> 10 <= round_state_value (state p') ->
        wait_data (random_value_hashes (transient p')) = hashes)) /\
  (11 <= round_state_value (state p) ->
     (forall i, 0 <= i -> is_Some (values !!! Z.to_nat i) <-> Z.testbit (participants t) i = true) /\
     random_value (b_pulse (t_block t)) = take 16 (generichash (omap id values))).
Proof using Hhash.
  intros Hm Hp H3 t hashes values. pose proof (reachable_inv p Hp) as Hinv.
  assert (round_ok blake2b generichash check_signature get_block_hash round_quorum strict (core p)) as [C S]
    by (by destruct Hinv as [[?|Hok] _]; [lia|]).
  split; [intros i v Hv; exact (co_committed _ _ _ _ _ _ C i v Hm Hv)|]. split.
  { intros H9. pose proof (sg_values_early _ _ _ S H9) as Hv. exact (f_equal fst Hv). }
  split.
  - intros H10. split.
    + intros i Hi. destruct (co_hashes _ _ _ _ _ _ C) as [_ Ht].
      rewrite (sg_all_hashes _ _ _ S Hm H10) in Ht.
      change (Z.testbit (participants t) i) with (Z.testbit (c_participants (core p)) i).
      rewrite Ht by done. by rewrite bool_decide_eq_true.
    + intros p' Hstep H10'. exact (f_equal fst (step_same_hashes p p' Hm Hinv Hstep H10 H10')).
  - intros H11. split; [|exact (sg_random _ _ _ S Hm H11)].
    intros i Hi. destruct (co_values _ _ _ _ _ _ C) as [_ Ht].
    rewrite (sg_all_values _ _ _ S Hm H11) in Ht.
    change (Z.testbit (participants t) i) with (Z.testbit (c_participants (core p)) i).
    rewrite Ht by done. by rewrite bool_decide_eq_true.
Qed.

End Run.

(** *** The claims *)

(** (C10) Over every run of the pulse state machine under the rules of HF21, whatever messages
    arrive and in whatever order: a random value that is recorded answers the hash its validator
    committed to; no value is recorded while hashes are still collected; from the moment values
    are collected the hashes are those of exactly the participants, and no step changes them
    before a retry discards all of them; and when signatures are collected, the values are
    those of exactly the participants and the block's random value is their hash. *)
Theorem pulse_random_committed fk nettype conf blake2b generichash check_signature my_pub generate_signature
    parse_block parse_tx get_block_hash quorumnet cn_fast_hash fuel `{Engine G} seed_number seed_sequence block_to_blob p :
  (forall b sigs, get_block_hash (with_signatures b sigs) = get_block_hash b) ->
  let reachable := reachable fk nettype conf blake2b generichash check_signature my_pub generate_signature parse_block
    parse_tx get_block_hash quorumnet cn_fast_hash fuel seed_number seed_sequence block_to_blob in
  let step := step fk nettype conf blake2b generichash check_signature my_pub generate_signature parse_block
    parse_tx get_block_hash quorumnet cn_fast_hash fuel seed_number seed_sequence block_to_blob in
  reachable True p -> 3 <= round_state_value (state p) ->
  let t := transient p in
  let hashes := wait_data (random_value_hashes t) in
  let values := wait_data (random_values t) in
  (forall i v, values !!! i = Some v -> hashes !!! i = Some (blake2b v)) /\
  (round_state_value (state p) <= 9 -> values = replicate NUM None) /\
  (10 <= round_state_value (state p) ->
     (forall i, 0 <= i -> is_Some (hashes !!! Z.to_nat i) <-> Z.testbit (participants t) i = true) /\
     (forall p', step True p p' -> 10 <= round_state_value (state p') ->
        wait_data (random_value_hashes (transient p')) = hashes)) /\
  (11 <= round_state_value (state p) ->
     (forall i, 0 <= i -> is_Some (values !!! Z.to_nat i) <-> Z.testbit (participants t) i = true) /\
     random_value (b_pulse (t_block t)) = take 16 (generichash (omap id values))).
Proof. intros Hhash reachable step. by apply (run_committed fk nettype conf). Qed.

(** (C14) Every block that a run of the state machine hands to [handle_block_found], under the
    rules before or after HF21, was signed over its final hash by validators of a quorum
    generated for the round it names, and [verify_quorum_signatures] accepts its signatures for
    that quorum exactly if at least seven validators took part. *)
Theorem pulse_blocks_verify fk nettype conf blake2b generichash check_signature my_pub generate_signature
    parse_block parse_tx get_block_hash quorumnet cn_fast_hash fuel `{Engine G} seed_number seed_sequence block_to_blob p b :
  (forall b sigs, get_block_hash (with_signatures b sigs) = get_block_hash b) ->
  reachable fk nettype conf blake2b generichash check_signature my_pub generate_signature parse_block
    parse_tx get_block_hash quorumnet cn_fast_hash fuel seed_number seed_sequence block_to_blob False p ->
  b ∈ found p ->
  exists q, round_quorum nettype cn_fast_hash fuel seed_number seed_sequence q (pulse_round (b_pulse b)) /\
  length (validators q) = NUM /\
  forall v, verify_quorum_signatures check_signature q pulse v (get_block_hash b) (b_signatures b)
              (Some (pulse_info b)) = (7 <=? popcount (validator_bitset (b_pulse b))).
Proof.
  intros Hhash Hp Hb. apply reachable_inv in Hp as [_ Hf]; [|done]. rewrite Forall_forall in Hf.
  destruct (Hf b Hb) as (q & sigs & He). exists q.
  split; [exact (gb_origin _ _ _ _ _ _ He)|]. split; [exact (gb_size _ _ _ _ _ _ He)|].
  intros v. by eapply evidence_accepted.
Qed.

(** *** Witnesses *)

(** A counter as the random number generator. *)
Module Counter.
#[export] Instance engine : Engine Z := fun g => (u64 (g * 6364136223846793005 + 1442695040888963407), u64 (g + 1)).
Definition seed_sequence (l : list Z) : Z := foldl Z.lxor 0 l.
End Counter.
Import Counter.

(** Fourteen nodes on top of the chain of [demo_chain]; a toy hash and toy signatures. *)
Definition demo_sign (key : bytes) (hash : bytes) : bytes := key ++ hash.
Definition demo_blake (data : bytes) : bytes := 7 :: data.
Definition demo_hash (b : block) : bytes :=
  random_value (b_pulse b) ++ [pulse_round (b_pulse b); validator_bitset (b_pulse b)].
Definition demo_mix (values : list bytes) : bytes := foldr (zip_with Z.lxor) (replicate 16 0) values.
Definition demo_template : block :=
  Block hf22_sn_policy 31 1080 [] [0; 30] 0 (PulseHeader (replicate 16 0) 0 2047) [] [] [] 0 0.

Definition demo_env (height now : Z) : environment :=
  {| now_timer := now; now_check := now; now_retry := now; chain_height := height; top_hash := [0; 30];
     top_height := height - 1; top_timestamp := 1000; block_timestamp := fun _ => Some 1000;
     find_block := lookup_block demo_chain; active_nodes := demo_active (seq 0 14);
     next_block_leader := [3]; own_info := None; my_l2_votes := []; create_template := fun _ _ => None;
     load_transactions := fun _ => []; l2_synced := 0; l2_vote := fun _ => false; accept_tx := fun _ => true;
     accept_block := fun _ => true; fresh_random := replicate 16 50 |}.

Section Demo.
Context (nettype : network_type) (conf : network_config) (me : bytes) (env : Z -> environment).

Definition demo_receive : pulse_impl -> message -> pulse_impl :=
  handle_message demo_blake demo_check (fun _ => Some demo_template) (fun _ => None) demo_hash true.
Definition demo_check_state (now : Z) (p : pulse_impl) : pulse_impl :=
  match check_state [] nettype conf demo_blake demo_mix demo_check me (demo_sign me)
          (fun _ => Some demo_template) (fun _ => None) demo_hash true id 64 (fun n => n) Counter.seed_sequence (fun _ => [])
          20 (fun _ => env now) p with
  | Returned (Some p') => p'
  | _ => p
  end.

(** A message signed by the validator at a position, or by the producer. *)
Definition demo_message (p : pulse_impl) (i : nat) (c : content) : message :=
  let m := Message c (N.of_nat i) 0 [] in
  Message c (N.of_nat i) 0
    (demo_sign (default [] (message_key m (r_quorum (round p)))) (msg_signature_hash demo_blake (curr_top_hash p) m)).

(** Some validators send, then the clock shows [now]. *)
Definition demo_phase (senders : list nat) (c : nat -> content) (now : Z) (p : pulse_impl) : pulse_impl :=
  demo_check_state now (foldl (fun p i => demo_receive p (demo_message p i (c i))) p senders).

Abbreviation demo_reachable := (reachable [] nettype conf demo_blake demo_mix demo_check me (demo_sign me)
  (fun _ => Some demo_template) (fun _ => None) demo_hash true id 64 (fun n => n) Counter.seed_sequence (fun _ => [])).

Lemma demo_check_state_reachable strict now p :
  (strict -> hf20_compat_mode [] nettype (env now) = false) ->
  demo_reachable strict p -> demo_reachable strict (demo_check_state now p).
Proof.
  intros Hm Hp. unfold demo_check_state.
  destruct (check_state _ _ _ _ _ _ _ _ _ _ _ _ _ _ _ _ _ _ _ _) as [[p'|]| |] eqn:E; try done.
  unfold reachable. transitivity p; [exact Hp|]. eapply check_state_steps; [|exact E]. done.
Qed.

Lemma demo_phase_reachable strict senders c now p :
  (strict -> hf20_compat_mode [] nettype (env now) = false) ->
  demo_reachable strict p -> demo_reachable strict (demo_phase senders c now p).
Proof.
  intros Hm Hp. apply demo_check_state_reachable; [done|]. revert p Hp.
  induction senders as [|i senders IH]; intros p Hp; [done|]. cbn [foldl]. apply IH.
  eapply rtc_r; [exact Hp|]. apply step_message.
Qed.

End Demo.

(** Everybody answers at once. *)
Definition demo_value (i : nat) : bytes := if (i =? 4)%nat then replicate 16 50 else replicate 16 (Z.of_nat i).
Definition demo_signature (p : pulse_impl) (i : nat) : content :=
  BlockSignature (demo_sign (validators (r_quorum (round p)) !!! i) (demo_hash (t_block (transient p)))).

Definition demo_stage : list nat -> (nat -> content) -> pulse_impl -> pulse_impl := fun senders c =>
  demo_phase STAGENET stagenet_config [5] (demo_env 300) senders c (seconds 1075).
Definition demo_before_values : pulse_impl :=
  demo_stage (seq 0 11) (fun i => RandomValueHash (demo_blake (demo_value i)))
   (demo_stage [0%nat] (fun _ => BlockTemplate [] [])
    (demo_stage (seq 0 11) (fun _ => HandshakeBitset 2047)
     (demo_stage (seq 0 11) (fun _ => Handshake) (demo_stage [] (fun _ => Invalid) initial)))).
Definition demo_signing : pulse_impl := demo_stage (seq 0 11) (fun i => RandomValue (demo_value i)) demo_before_values.
Definition demo_done : pulse_impl := demo_stage (seq 0 11) (demo_signature demo_signing) demo_signing.

Lemma demo_signing_reachable strict :
  reachable [] STAGENET stagenet_config demo_blake demo_mix demo_check [5] (demo_sign [5])
    (fun _ => Some demo_template) (fun _ => None) demo_hash true id 64 (fun n => n) Counter.seed_sequence (fun _ => [])
    strict demo_signing.
Proof. unfold demo_signing, demo_before_values, demo_stage. do 6 (apply demo_phase_reachable; [intros _; vm_compute; reflexivity|]). apply rtc_refl. Qed.

Lemma demo_done_reachable strict :
  reachable [] STAGENET stagenet_config demo_blake demo_mix demo_check [5] (demo_sign [5])
    (fun _ => Some demo_template) (fun _ => None) demo_hash true id 64 (fun n => n) Counter.seed_sequence (fun _ => [])
    strict demo_done.
Proof. apply demo_phase_reachable; [intros _; vm_compute; reflexivity|apply demo_signing_reachable]. Qed.

(** In a round in which all eleven validators answer, the random value is the hash of values
    that were committed to. *)
Lemma pulse_random_committed_witness :
  let t := transient demo_signing in
  state demo_signing = st_send_and_wait_for_block_signatures /\
  wait_data (random_values t) !!! 7%nat = Some (replicate 16 7) /\
  wait_data (random_value_hashes t) !!! 7%nat = Some (demo_blake (replicate 16 7)) /\
  random_value (b_pulse (t_block t)) = take 16 (demo_mix (omap id (wait_data (random_values t)))).
Proof.
  intros t. assert (Hs : state demo_signing = st_send_and_wait_for_block_signatures) by (vm_compute; reflexivity).
  assert (Hv : wait_data (random_values t) !!! 7%nat = Some (replicate 16 7)) by (vm_compute; reflexivity).
  pose proof (pulse_random_committed [] STAGENET stagenet_config demo_blake demo_mix demo_check [5] (demo_sign [5])
    (fun _ => Some demo_template) (fun _ => None) demo_hash true id 64 (fun n => n) Counter.seed_sequence (fun _ => [])
    demo_signing (fun _ _ => eq_refl) (demo_signing_reachable True)
    ltac:(rewrite Hs; cbn; lia)) as (Hc & _ & _ & Hr).
  split; [exact Hs|]. split; [exact Hv|]. split; [exact (Hc _ _ Hv)|].
  apply Hr. rewrite Hs. cbn. lia.
Defined.

(** The block of that round has the signatures of seven validators, which are accepted. *)
Lemma pulse_blocks_verify_witness :
  exists b, found demo_done = [b] /\ length (b_signatures b) = 7%nat /\
  exists q, length (validators q) = 11%nat /\
    verify_quorum_signatures demo_check q pulse hf22_sn_policy (demo_hash b) (b_signatures b)
      (Some (pulse_info b)) = true.
Proof.
  assert (E : exists b, found demo_done = [b]) by (eexists; vm_compute; reflexivity).
  destruct E as [b E]. exists b. split; [exact E|].
  assert (Hb : b = hd b (found demo_done)) by (by rewrite E).
  split; [rewrite Hb; vm_compute; reflexivity|].
  assert (Hin : b ∈ found demo_done) by (rewrite E; apply list_elem_of_here).
  destruct (pulse_blocks_verify [] STAGENET stagenet_config demo_blake demo_mix demo_check [5] (demo_sign [5])
    (fun _ => Some demo_template) (fun _ => None) demo_hash true id 64 (fun n => n) Counter.seed_sequence (fun _ => [])
    demo_done b (fun _ _ => eq_refl) (demo_done_reachable False) Hin) as (q & _ & Hq & Hv).
  exists q. split; [exact Hq|]. rewrite Hv, Hb. vm_compute. reflexivity.
Defined.

(** *** Before HF21 *)

(** A round on mainnet in which the validator at position 10 sends no hash and reveals [v] when
    nine of the ten validators that sent one have revealed their values; the tenth follows. *)
Definition mainnet_stage (senders : list nat) (c : nat -> content) (now : Z) : pulse_impl -> pulse_impl :=
  demo_phase MAINNET mainnet_config [5] (demo_env 300000) senders c (seconds now).
Definition late_revealer_signing (v : bytes) : pulse_impl :=
  mainnet_stage [10%nat; 9%nat] (fun i => RandomValue (if (i =? 10)%nat then v else demo_value i)) 1125
   (mainnet_stage (seq 0 9) (fun i => RandomValue (demo_value i)) 1115
    (mainnet_stage (seq 0 10) (fun i => RandomValueHash (demo_blake (demo_value i))) 1115
     (mainnet_stage [0%nat] (fun _ => BlockTemplate [] []) 1075
      (mainnet_stage (seq 0 11) (fun _ => HandshakeBitset 2047) 1075
       (mainnet_stage (seq 0 11) (fun _ => Handshake) 1075 (mainnet_stage [] (fun _ => Invalid) 1075 initial)))))).
Definition late_revealer (v : bytes) : pulse_impl :=
  mainnet_stage (seq 0 11) (demo_signature (late_revealer_signing v)) 1135 (late_revealer_signing v).

Lemma late_revealer_reachable v :
  reachable [] MAINNET mainnet_config demo_blake demo_mix demo_check [5] (demo_sign [5])
    (fun _ => Some demo_template) (fun _ => None) demo_hash true id 64 (fun n => n) Counter.seed_sequence (fun _ => [])
    False (late_revealer v).
Proof. unfold late_revealer, late_revealer_signing, mainnet_stage. do 8 (apply demo_phase_reachable; [by intros []|]). apply rtc_refl. Qed.

(** Before HF21 a value counts without a commitment: of the eleven validators ten committed and
    sign, and the eleventh, which is not a participant of the block, chooses the block's random
    value after it has seen all values but one, or all of them if that one is a partner's. *)
Lemma compat_value_uncommitted :
  let random v := (fun b => random_value (b_pulse b)) <$> found (late_revealer v) in
  let bits v := (fun b => validator_bitset (b_pulse b)) <$> found (late_revealer v) in
  bits (replicate 16 0) = [1023] /\ bits (replicate 16 50) = [1023] /\
  random (replicate 16 0) = [replicate 16 55] /\ random (replicate 16 50) = [replicate 16 5].
Proof. vm_compute. done. Qed.

(** Before HF21, if some participant sent no hash and all that sent one have revealed their
    values, the round is given up: [all_values] holds, so that the missing participant is looked
    for in the block's bit set and retries are not allowed yet. *)
Lemma compat_complete_values_give_up fk nettype conf blake2b generichash check_signature generate_signature parse_block
    parse_tx get_block_hash quorumnet e p :
  let p1 := handle_messages_received_early_for blake2b check_signature parse_block parse_tx get_block_hash quorumnet
              st_send_and_wait_for_random_value
              (start_send fk nettype conf blake2b check_signature generate_signature parse_block parse_tx get_block_hash
                 quorumnet e st_send_and_wait_for_random_value RandomValue p) in
  let hashes := bitset (wait_stage (random_value_hashes (transient p1))) in
  let values := bitset (wait_stage (random_values (transient p1))) in
  hf20_compat_mode fk nettype e = true -> get_network_version fk nettype (chain_height e) < hf21_eth ->
  values = hashes -> hashes <> participants (transient p1) ->
  send_and_wait_for_random_value fk nettype conf blake2b generichash check_signature generate_signature parse_block
    parse_tx get_block_hash quorumnet e p = goto_preparing_for_next_round p1.
Proof.
  intros p1 hashes values Hm Hv Hall Hne. unfold send_and_wait_for_random_value. fold p1. rewrite Hm.
  fold hashes values. rewrite Hall, Z.eqb_refl, orb_true_r. cbn [negb andb].
  unfold retry_or_give_up, reset_for_missing_validators. fold values. rewrite Hall.
  rewrite (proj2 (Z.eqb_neq _ _) Hne). destruct (negb _); [done|].
  rewrite (proj2 (Z.leb_gt _ _) Hv), andb_false_r. done.
Qed.

(** So on mainnet one validator that takes part in the handshakes and sends nothing more ends the
    round, although the ten others answer in time. *)
Lemma compat_silent_validator_ends_round :
  let p := mainnet_stage (seq 0 10) (fun i => RandomValue (demo_value i)) 1115
    (mainnet_stage (seq 0 10) (fun i => RandomValueHash (demo_blake (demo_value i))) 1115
     (mainnet_stage [0%nat] (fun _ => BlockTemplate [] []) 1075
      (mainnet_stage (seq 0 11) (fun _ => HandshakeBitset 2047) 1075
       (mainnet_stage (seq 0 11) (fun _ => Handshake) 1075 (mainnet_stage [] (fun _ => Invalid) 1075 initial))))) in
  number (round p) = 1 /\ found p = [] /\ state p <> st_send_and_wait_for_block_signatures.
Proof. vm_compute. done. Qed.
