(* ===== verification/PulseTermination.v ===== *)
(** * The loop of [check_state] ends

    A stage that moves on brings the machine of [Pulse.v] closer to rest, as long as the chain
    stays the same: rounds are used up, a retry has fewer participants than the attempt before
    it, and otherwise the stages follow each other. *)
From stdpp Require Import gmap.
From S2P Require Import Prelude Hardfork Config Address Rules Voting Transactions NodeProof.
From S2P Require Import ServiceNode NodeList Random Quorums Events PulseEntropy Pulse PulseSafety PulseRuns.
#[local] Open Scope Z_scope.

(** ** Counting participants *)

Lemma tracks_range (data : list (option bytes)) bits : tracks data bits -> 0 <= bits < 2 ^ 11.
Proof.
  intros Ht. split; [|by eapply tracks_bound]. destruct (Z.le_gt_cases 0 bits) as [|Hneg]; [done|]. exfalso.
  assert (Z.testbit bits (Z.log2 (Z.pred (- bits)) + 12) = true) as Hb.
  { apply Z.bits_above_log2_neg; [done|]. lia. }
  destruct Ht as [Hl Ht]. pose proof (Z.log2_nonneg (Z.pred (- bits))). rewrite Ht in Hb by lia.
  apply bool_decide_eq_true_1 in Hb. rewrite list_lookup_total_alt, lookup_ge_None_2 in Hb; [by destruct Hb|].
  rewrite Hl. unfold NUM, PULSE_QUORUM_NUM_VALIDATORS. lia.
Qed.

Definition count (x : Z) (l : list nat) : Z := foldr (fun i n => b2z (Z.testbit x (Z.of_nat i)) + n) 0 l.

Lemma count_range x l : 0 <= count x l <= Z.of_nat (length l).
Proof. induction l as [|i l IH]; cbn -[Z.of_nat]; [lia|]. fold (count x l). destruct (Z.testbit x _); cbn -[Z.of_nat]; lia. Qed.

Lemma count_le x y l : Z.lor x y = y -> count x l <= count y l.
Proof.
  intros Hxy. induction l as [|i l IH]; cbn; [lia|]. fold (count x l) (count y l).
  assert (Z.testbit x (Z.of_nat i) = true -> Z.testbit y (Z.of_nat i) = true) as Hi.
  { intros Hx. rewrite <- Hxy, Z.lor_spec, Hx. done. }
  destruct (Z.testbit x _); [rewrite Hi by done|destruct (Z.testbit y _)]; cbn; lia.
Qed.

Lemma count_app x l1 l2 : count x (l1 ++ l2) = count x l1 + count x l2.
Proof. unfold count. induction l1 as [|i l1 IH]; cbn [app foldr]; [done|]. rewrite IH. lia. Qed.

Lemma count_lt x y l i :
  Z.lor x y = y -> i ∈ l -> Z.testbit x (Z.of_nat i) = false -> Z.testbit y (Z.of_nat i) = true ->
  count x l < count y l.
Proof.
  intros Hxy Hi Hx Hy. apply list_elem_of_split in Hi as (l1 & l2 & ->). rewrite !count_app.
  pose proof (count_le x y l1 Hxy) as H1. pose proof (count_le x y l2 Hxy) as H2.
  change (count ?z (i :: l2)) with (b2z (Z.testbit z (Z.of_nat i)) + count z l2). rewrite Hx, Hy. cbn. lia.
Qed.

Lemma popcount_range x : 0 <= popcount x <= 16.
Proof. exact (count_range x (seq 0 16)). Qed.

(** Dropping participants. *)
Lemma popcount_lt x y : 0 <= x < 65536 -> 0 <= y < 65536 -> x <> y -> Z.lor x y = y -> popcount x < popcount y.
Proof.
  intros Hx Hy Hne Hxy.
  destruct (decide (Forall (fun i => Z.testbit x (Z.of_nat i) = Z.testbit y (Z.of_nat i)) (seq 0 16))) as [Hall|Hno].
  - exfalso. apply Hne. apply Z.bits_inj'. intros j Hj. destruct (Z.lt_ge_cases j 16) as [Hlt|Hge].
    + rewrite Forall_forall in Hall. specialize (Hall (Z.to_nat j)). rewrite Z2Nat.id in Hall by done.
      apply Hall, elem_of_seq. lia.
    + assert (forall z, 0 <= z < 65536 -> Z.testbit z j = false) as Hz; [|rewrite (Hz x), (Hz y) by done; done].
      intros z Hz. apply (Z.bounded_iff_bits_nonneg 16 z); [lia..|]. lia.
  - apply not_Forall_Exists in Hno; [|apply _]. apply Exists_exists in Hno as (i & Hi & Hd).
    apply (count_lt x y (seq 0 16) i); [done..| |].
    + destruct (Z.testbit x _) eqn:E; [|done]. exfalso. apply Hd. rewrite <- Hxy, Z.lor_spec, E. done.
    + destruct (Z.testbit y _) eqn:E; [done|]. exfalso. apply Hd. rewrite <- Hxy, Z.lor_spec in E.
      apply orb_false_iff in E as [-> ->]. done.
Qed.

(** ** How far the machine is from rest *)

Section Rank.
Context (fk : list hard_fork) (nettype : network_type) (conf : network_config).
(** The chain: its height and its top. *)
Context (h : Z) (top : bytes).

Definition compat_at : bool :=
  match hard_fork_begins fk nettype hf21_eth with None => true | Some begins => h <? begins end.

(** Retries are possible from HF21 on, with fewer and fewer participants. *)
Definition weight (p : pulse_impl) : Z :=
  let x := participants (transient p) in
  if compat_at then 0
  else if (round_state_value (state p) <=? 8) || (x <? 0) || (65536 <=? x) then 17 else popcount x.

Definition rank (p : pulse_impl) : Z :=
  let s := round_state_value (state p) in
  let left := 300 * (255 - number (round p)) in
  (if s =? 0 then 1 else if s =? 1 then 0
   else if s =? 2 then (if queue_for_next_round (round p) then left - 50 else left + 250)
   else left + 12 * weight p + (12 - s))
  + (if bool_decide (curr_top_hash p = top) then 0 else 100000).

Definition numbered (p : pulse_impl) : Prop := 0 <= number (round p) < 255.
(** A round is prepared after another one, or is the first. *)
Definition requested (p : pulse_impl) : Prop :=
  state p = st_prepare_for_round -> queue_for_next_round (round p) = true \/ number (round p) = 0.
Definition descends (p : pulse_impl) (r : pulse_impl * round_state) : Prop :=
  numbered r.1 /\ requested (with_state_ r.1 r.2) /\ (r.2 <> state p -> rank (with_state_ r.1 r.2) < rank p).

Lemma weight_range p : 0 <= weight p <= 17.
Proof using Type.
  unfold weight. pose proof (popcount_range (participants (transient p))).
  destruct compat_at; [lia|]. destruct (_ || _); lia.
Qed.

Lemma state_range s : 0 <= round_state_value s <= 11.
Proof using Type. destruct s; cbn; lia. Qed.

Lemma rank_range p : numbered p -> 0 <= rank p < 200000.
Proof using Type.
  intros Hn. unfold numbered in Hn. unfold rank. pose proof (weight_range p). pose proof (state_range (state p)).
  repeat case_match; lia.
Qed.

(** Among the stages of a round. *)
Lemma rank_round p :
  3 <= round_state_value (state p) ->
  rank p = 300 * (255 - number (round p)) + 12 * weight p + (12 - round_state_value (state p))
           + (if bool_decide (curr_top_hash p = top) then 0 else 100000).
Proof using Type.
  intros Hs. unfold rank. rewrite !(proj2 (Z.eqb_neq _ _)) by lia. done.
Qed.

(** A stage does not leave its round. *)
Definition same_round (p p1 : pulse_impl) : Prop := round p1 = round p /\ curr_top_hash p1 = curr_top_hash p.

Lemma same_round_numbered p p1 : same_round p p1 -> numbered p -> numbered p1.
Proof using Type. intros [Hr _]. unfold numbered. by rewrite Hr. Qed.

Lemma move_descends p p1 s :
  same_round p p1 -> numbered p -> 3 <= round_state_value (state p) -> 3 <= round_state_value s ->
  12 * weight (with_state_ p1 s) - round_state_value s < 12 * weight p - round_state_value (state p) ->
  descends p (p1, s).
Proof using Type.
  intros Hp Hn Hs Hs' Hw. split; [by eapply same_round_numbered|].
  split; [intros E; cbn in E; subst s; cbn in Hs'; lia|]. intros _. cbn [fst snd].
  rewrite !rank_round by done. destruct Hp as [Hr Ht]. cbn. rewrite Hr, Ht.
  destruct (bool_decide _); lia.
Qed.

Lemma stay_descends p p1 :
  same_round p p1 -> numbered p -> round_state_value (state p) <> 2 -> descends p (p1, state p).
Proof using Type.
  intros Hp Hn Hs. split; [by eapply same_round_numbered|]. split; [|done]. intros E. cbn in E. by rewrite E in Hs.
Qed.

Lemma give_up_descends p p1 :
  same_round p p1 -> numbered p -> 3 <= round_state_value (state p) -> descends p (goto_preparing_for_next_round p1).
Proof using Type.
  intros Hp Hn Hs. destruct Hp as [Hr Ht]. unfold numbered in Hn. split; [unfold numbered; cbn; by rewrite Hr|].
  split; [by left|]. intros _. rewrite (rank_round p) by done. unfold rank. cbn. rewrite Hr, Ht.
  pose proof (weight_range p). pose proof (state_range (state p)). destruct (bool_decide _); lia.
Qed.

Lemma rest_descends p p1 :
  curr_top_hash p1 = curr_top_hash p -> numbered p -> numbered p1 -> round_state_value (state p) <> 1 ->
  descends p (p1, st_wait_for_next_block).
Proof using Type.
  intros Ht Hn Hn1 Hs. split; [done|]. split; [done|]. intros _. unfold rank. cbn. rewrite Ht. unfold numbered in Hn.
  rewrite (proj2 (Z.eqb_neq _ 1)) by done. pose proof (weight_range p). pose proof (state_range (state p)).
  repeat case_match; lia.
Qed.

Lemma clear_descends p p1 :
  same_round p p1 -> numbered p -> 3 <= round_state_value (state p) ->
  descends p (goto_wait_for_next_block_and_clear_round_data p1).
Proof using Type.
  intros [_ Ht] Hn Hs. apply rest_descends; [done..|by unfold numbered; cbn; lia|lia].
Qed.

(** Up to the template. *)
Lemma early_descends p p1 s :
  same_round p p1 -> numbered p -> 3 <= round_state_value (state p) <= 8 ->
  round_state_value (state p) < round_state_value s <= 9 -> descends p (p1, s).
Proof using Type.
  intros Hp Hn Hs Hs'. apply move_descends; [done|done|lia|lia|].
  assert (weight (with_state_ p1 s) <= weight p) as Hw; [|lia].
  unfold weight. destruct compat_at; [done|]. rewrite (proj2 (Z.leb_le (round_state_value (state p)) 8)) by lia. cbn [orb].
  pose proof (popcount_range (participants (transient (with_state_ p1 s)))). destruct (_ || _); lia.
Qed.

(** After it, with the same participants. *)
Lemma late_descends p p1 s :
  same_round p p1 -> numbered p -> 9 <= round_state_value (state p) < round_state_value s ->
  (compat_at = false -> participants (transient p1) = participants (transient p)) -> descends p (p1, s).
Proof using Type.
  intros Hp Hn Hs Hb. apply move_descends; [done|done|lia|lia|].
  assert (weight (with_state_ p1 s) = weight p) as ->; [|lia].
  unfold weight. destruct compat_at; [done|]. cbn. rewrite Hb by done.
  rewrite !(proj2 (Z.leb_gt _ 8)) by lia. done.
Qed.

(** A retry. *)
Lemma retry_descends p p1 :
  same_round p p1 -> numbered p -> 9 < round_state_value (state p) -> compat_at = false ->
  let old := participants (transient p) in
  let new := participants (transient p1) in
  0 <= new < 65536 -> new <> old -> Z.lor new old = old ->
  descends p (p1, st_send_and_wait_for_random_value_hashes).
Proof using Type.
  intros Hp Hn Hs Hm old new Hnew Hne Hsub. apply move_descends; [done|done|lia|done|]. cbn [round_state_value].
  pose proof (state_range (state p)).
  assert (weight (with_state_ p1 st_send_and_wait_for_random_value_hashes) < weight p) as Hw; [|lia].
  unfold weight. rewrite Hm. cbn [with_state_ state transient round_state_value]. fold new old.
  rewrite (proj2 (Z.leb_gt 9 8)) by lia. rewrite (proj2 (Z.leb_gt _ 8)) by lia. cbn [orb].
  rewrite (proj2 (Z.ltb_ge new 0)), (proj2 (Z.leb_gt 65536 new)) by lia. cbn [orb].
  pose proof (popcount_range new). destruct (Z.ltb_spec old 0); cbn [orb]; [lia|].
  destruct (Z.leb_spec 65536 old); [lia|]. apply popcount_lt; [lia|lia|done|done].
Qed.

End Rank.

(** ** Every stage descends *)

Section Descend.
Context (fk : list hard_fork) (nettype : network_type) (conf : network_config).
Context (blake2b : bytes -> bytes) (generichash : list bytes -> bytes).
Context (check_signature : bytes -> bytes -> bytes -> bool).
Context (generate_signature : bytes -> bytes).
Context (parse_block : bytes -> option block) (parse_tx : bytes -> option transaction).
Context (get_block_hash : block -> bytes) (quorumnet : bool).
Context (origin : quorum -> Z -> Prop) (strict : Prop).

Abbreviation keeps := (keeps blake2b generichash check_signature get_block_hash origin strict).
Abbreviation receive_early := (handle_messages_received_early_for blake2b check_signature parse_block parse_tx
  get_block_hash quorumnet).

Context (Hconf : get_config nettype = Some conf) (Hsched : schedule_ok (get_hard_forks fk nettype)).
Context (e : environment) (p : pulse_impl).
Context (Hinv : inv blake2b generichash check_signature get_block_hash origin strict p).
Context (Hnum : numbered p).
Abbreviation compat := (compat_at fk nettype (chain_height e)).
Abbreviation descends := (descends fk nettype (chain_height e) (top_hash e) p).

Lemma keeps_round p1 : keeps p p1 -> same_round p p1.
Proof using Type. by intros [(_ & Hr & _ & Ht & _) _]. Qed.

Lemma keeps_block p1 : keeps p p1 -> 9 <= round_state_value (state p) -> t_block (transient p1) = t_block (transient p).
Proof using Hinv.
  clear - Hinv. intros [_ Hk] Hs. destruct Hinv as [[?|Hok] _]; [lia|]. destruct (Hk ltac:(lia) Hok) as [_ (Hb & _)].
  by apply Hb.
Qed.

Lemma keeps_tracked p1 :
  keeps p p1 -> 9 <= round_state_value (state p) ->
  0 <= bitset (wait_stage (random_value_hashes (transient p1))) < 65536 /\
  0 <= bitset (wait_stage (random_values (transient p1))) < 65536 /\
  0 <= bitset (wait_stage (block_signatures (transient p1))) < 65536.
Proof using Hinv.
  clear - Hinv. intros Hk Hs.
  assert (round_ok blake2b generichash check_signature get_block_hash origin strict (core p1)) as [[_ _ C2 C3 C4 _ _] _].
  { eapply keeps_ok; [exact Hk|exact Hinv|lia]. }
  pose proof (tracks_range _ _ C2) as R2. pose proof (tracks_range _ _ C3) as R3. pose proof (tracks_range _ _ C4) as R4.
  cbn [core core_of data_of c_hashes c_values c_sigs fst snd] in R2, R3, R4. change (2 ^ 11) with 2048 in *. lia.
Qed.

(** The version at a height and the first height of a version agree. *)
Lemma retry_not_compat : hf21_eth <= get_network_version fk nettype (chain_height e) -> compat = false.
Proof using Hsched.
  intros Hv. pose proof (hard_fork_begins_iff fk nettype hf21_eth (chain_height e) Hsched ltac:(done)) as [Hb _].
  destruct Hb as (b & Eb & Hle); [by apply Z.leb_le|]. unfold compat_at. rewrite Eb. by apply Z.ltb_ge.
Qed.

Lemma retry_or_give_up_descends g p1 go_on :
  keeps p p1 -> 9 <= round_state_value (state p) -> 0 <= bitset g < 65536 ->
  descends (go_on p1) -> descends (retry_or_give_up fk nettype blake2b e g p1 go_on).
Proof using Hinv Hnum Hsched.
  clear parse_tx parse_block generate_signature.
  intros K Hs Hg Hgo. pose proof (keeps_round p1 K) as Hp. pose proof (keeps_block p1 K Hs) as Hb.
  unfold retry_or_give_up, reset_for_missing_validators.
  destruct (Z.eqb_spec (bitset g) (participants (transient p1))) as [|Hne]; [done|].
  destruct (Z.eqb_spec (Z.lor (bitset g) (participants (transient p1))) (participants (transient p1))) as [Hsub|];
    cbn [negb]; [|apply give_up_descends; [done|done|lia]].
  destruct (_ && _) eqn:Ec; [|apply give_up_descends; [done|done|lia]].
  apply andb_true_iff in Ec as [_ Ev%Z.leb_le]. cbn beta iota.
  assert (Hb' : participants (transient p1) = participants (transient p)) by (unfold participants; by rewrite Hb).
  destruct (Z.lt_ge_cases 9 (round_state_value (state p))) as [Hlt|Hge].
  - apply retry_descends; [done|done|done|by apply retry_not_compat|done|cbn; by rewrite <- Hb'|cbn; by rewrite <- Hb'].
  - assert (Hs9 : state p = st_send_and_wait_for_random_value_hashes) by (destruct (state p); cbn in Hs, Hge; done || lia).
    rewrite <- Hs9. apply stay_descends; [done|done|by rewrite Hs9].
Qed.

Lemma hashes_descends :
  state p = st_send_and_wait_for_random_value_hashes ->
  descends (send_and_wait_for_random_value_hashes fk nettype conf blake2b check_signature generate_signature
              parse_block parse_tx get_block_hash quorumnet e p).
Proof using Hinv Hnum Hsched.
  intros Hs. unfold send_and_wait_for_random_value_hashes. set (p1 := receive_early _ _).
  assert (keeps p p1) as K by (etransitivity; [apply start_send_keeps|apply receive_early_keeps]).
  assert (9 <= round_state_value (state p)) as H9 by (by rewrite Hs).
  pose proof (keeps_round p1 K) as Hp. destruct (keeps_tracked p1 K H9) as (Hg & _ & _).
  destruct (_ || _); [|rewrite <- Hs; by apply stay_descends; [..|rewrite Hs]].
  assert (descends (p1, st_send_and_wait_for_random_value)) as Hgo.
  { apply late_descends; [done|done|rewrite Hs; cbn; lia|]. intros _. unfold participants. by rewrite keeps_block. }
  destruct (_ && hf20_compat_mode _ _ _).
  - destruct (_ <? _); [by apply give_up_descends; [..|lia]|done].
  - by apply retry_or_give_up_descends.
Qed.

Lemma values_descends :
  state p = st_send_and_wait_for_random_value ->
  descends (send_and_wait_for_random_value fk nettype conf blake2b generichash check_signature generate_signature
              parse_block parse_tx get_block_hash quorumnet e p).
Proof using Hinv Hnum Hsched.
  intros Hs. unfold send_and_wait_for_random_value. set (p1 := receive_early _ _).
  assert (keeps p p1) as K by (etransitivity; [apply start_send_keeps|apply receive_early_keeps]).
  assert (9 <= round_state_value (state p)) as H9 by (by rewrite Hs).
  pose proof (keeps_round p1 K) as Hp. destruct (keeps_tracked p1 K H9) as (_ & Hg & _).
  destruct (_ || _); [|rewrite <- Hs; by apply stay_descends; [..|rewrite Hs]].
  assert (descends (finish_random_value fk nettype generichash generate_signature get_block_hash e p1)) as Hgo.
  { apply late_descends; [done|done|rewrite Hs; cbn; lia|]. intros Hm. cbn.
    change (hf20_compat_mode fk nettype e) with compat. rewrite Hm. unfold participants. cbn. by rewrite keeps_block. }
  destruct (_ && hf20_compat_mode _ _ _).
  - destruct (_ <? _); [by apply give_up_descends; [..|lia]|done].
  - by apply retry_or_give_up_descends.
Qed.

Lemma signatures_descends :
  state p = st_send_and_wait_for_block_signatures ->
  descends (send_and_wait_for_block_signatures fk nettype conf blake2b check_signature generate_signature
              parse_block parse_tx get_block_hash quorumnet e p).
Proof using Hinv Hnum Hsched.
  intros Hs. unfold send_and_wait_for_block_signatures. set (p1 := receive_early _ _).
  assert (keeps p p1) as K by (etransitivity; [apply start_send_keeps|apply receive_early_keeps]).
  assert (9 <= round_state_value (state p)) as H9 by (by rewrite Hs).
  pose proof (keeps_round p1 K) as Hp. destruct (keeps_tracked p1 K H9) as (_ & _ & Hg).
  destruct (_ || _); [|rewrite <- Hs; by apply stay_descends; [..|rewrite Hs]].
  apply retry_or_give_up_descends; [done|done|done|]. unfold finish_block.
  destruct (negb _); [by apply give_up_descends; [..|lia]|].
  destruct (accept_block _ _).
  - apply rest_descends; [apply Hp|done|by unfold numbered; cbn; lia|rewrite Hs; done].
  - by apply give_up_descends; [..|lia].
Qed.

(** *** Up to the template *)

Lemma wait_for_round_descends : state p = st_wait_for_round -> descends (wait_for_round e p).
Proof using Hnum.
  clear parse_tx parse_block generate_signature Hinv.
  intros Hs. assert (same_round p p) as Hp by done. assert (3 <= round_state_value (state p)) as H3 by (by rewrite Hs).
  unfold wait_for_round. destruct (negb _); [by apply clear_descends|].
  destruct (_ <? _); [rewrite <- Hs; by apply stay_descends; [..|rewrite Hs]|].
  destruct (participant _); [by apply give_up_descends| |]; (apply early_descends; [done|done|rewrite Hs; cbn; lia..]).
Qed.

Lemma handshakes_descends :
  state p = st_send_and_wait_for_handshakes ->
  descends (send_and_wait_for_handshakes blake2b check_signature generate_signature parse_block parse_tx
              get_block_hash quorumnet e p).
Proof using Hinv Hnum.
  intros Hs. unfold send_and_wait_for_handshakes. set (p1 := if handshakes_sent _ then p else _).
  assert (keeps p p1) as K1.
  { subst p1. destruct (handshakes_sent _); [reflexivity|]. etransitivity; [|apply relay_keeps]. by apply keeps_core. }
  assert (keeps p (receive_early st_send_and_wait_for_handshakes p1)) as K by (etransitivity; [done|apply receive_early_keeps]).
  apply keeps_round in K. set (p2 := receive_early _ p1) in *.
  destruct (_ || _); [apply early_descends; [done|done|rewrite Hs; cbn; lia..]|rewrite <- Hs; by apply stay_descends; [..|rewrite Hs]].
Qed.

Lemma handshake_bitsets_descends :
  state p = st_send_handshake_bitsets ->
  descends (send_handshake_bitsets fk nettype conf blake2b check_signature generate_signature parse_block parse_tx
              get_block_hash quorumnet e p).
Proof using Hinv Hnum.
  intros Hs. unfold send_handshake_bitsets. apply early_descends; [|done|rewrite Hs; cbn; lia..].
  apply keeps_round. etransitivity; [apply relay_keeps|apply begin_stage_timer_keeps].
Qed.

Lemma wait_bitsets_descends :
  state p = st_wait_for_handshake_bitsets ->
  descends (wait_for_handshake_bitsets fk nettype conf blake2b check_signature parse_block parse_tx get_block_hash
              quorumnet e p).
Proof using Hinv Hnum.
  intros Hs. unfold wait_for_handshake_bitsets.
  assert (keeps p (receive_early st_wait_for_handshake_bitsets p)) as K by apply receive_early_keeps.
  set (p1 := receive_early _ p) in *.
  pose proof (keeps_round p1 K) as Hp.
  destruct (_ || _); [|rewrite <- Hs; by apply stay_descends; [..|rewrite Hs]].
  destruct (most_common _) as [best count].
  destruct (_ || _ || _); [apply give_up_descends; [done|done|by rewrite Hs]|].
  assert (keeps p (with_transient p1 (with_best (transient p1) best (u16 count)))) as K2.
  { etransitivity; [exact K|]. by apply keeps_core. }
  destruct (bool_decide _); (apply early_descends; [|done|rewrite Hs; cbn; lia..]); [done|].
  apply keeps_round. etransitivity; [exact K2|apply begin_stage_timer_keeps].
Qed.

Lemma wait_template_descends :
  state p = st_wait_for_block_template ->
  descends (wait_for_block_template blake2b check_signature parse_block parse_tx get_block_hash quorumnet e p).
Proof using Hinv Hnum.
  intros Hs. unfold wait_for_block_template.
  assert (keeps p (receive_early st_wait_for_block_template p)) as K by apply receive_early_keeps.
  apply keeps_round in K. set (p1 := receive_early _ p) in *.
  assert (3 <= round_state_value (state p)) as H3 by (by rewrite Hs).
  destruct (_ =? 1).
  - destruct (template_acceptable _ _); [|by apply give_up_descends].
    apply early_descends; [done|done|rewrite Hs; cbn; lia..].
  - destruct (_ <=? _); [by apply give_up_descends|]. rewrite <- Hs. by apply stay_descends; [..|rewrite Hs].
Qed.

Lemma send_template_descends block_to_blob :
  state p = st_send_block_template ->
  descends (send_block_template blake2b generate_signature block_to_blob e p).
Proof using Hnum.
  intros Hs. assert (same_round p p) as Hp by done. assert (3 <= round_state_value (state p)) as H3 by (by rewrite Hs).
  unfold send_block_template. repeat case_match; (by apply give_up_descends) || (by apply clear_descends).
Qed.

(** *** Between rounds *)

Lemma max_rounds_le v r : max_rounds conf v r <= 255.
Proof using Hconf.
  clear - Hconf. unfold max_rounds. destruct (pulse_recovery _ _); [lia|]. destruct (_ <=? _); [|lia].
  destruct nettype; cbn in Hconf; try discriminate; injection Hconf as <-; by vm_compute.
Qed.

Lemma round_timeout_pos : 0 < seconds (PULSE_ROUND_TIMEOUT conf).
Proof using Hconf. clear - Hconf. destruct nettype; cbn in Hconf; try discriminate; injection Hconf as <-; by vm_compute. Qed.

Lemma next_round_spec n :
  next_round fk nettype conf e p = Some n ->
  0 <= n < 255 /\
  (if queue_for_next_round (round p) then number (round p) < n else number (round p) <= n) /\
  time_since (now_check e) (round_0_start_time p) / seconds (PULSE_ROUND_TIMEOUT conf) <= n /\
  (queue_for_next_round (round p) = true \/ number (round p) = 0 ->
   let '(v, r) := get_network_version_revision fk nettype (chain_height e) in n < max_rounds conf v r).
Proof using Hconf Hnum.
  unfold next_round. destruct (get_network_version_revision _ _ _) as [v r].
  pose proof (max_rounds_le v r) as Hmax. pose proof round_timeout_pos as Ht. unfold numbered in Hnum.
  clear - Hnum Hmax Ht. generalize dependent (max_rounds conf v r). intros limit Hmax.
  assert (0 <= time_since (now_check e) (round_0_start_time p)) as Hts.
  { unfold time_since. destruct (Z.leb_spec (now_check e) (round_0_start_time p)); lia. }
  pose proof (Z.div_pos _ _ Hts Ht) as Hpos.
  set (clock := time_since _ _ / _) in *. destruct (queue_for_next_round _).
  - destruct (Z.leb_spec limit (number (round p) + 1)); [done|]. destruct (negb _); [done|]. cbn.
    destruct (Z.leb_spec limit clock); [done|]. intros [= <-]. unfold u8. rewrite !Z.mod_small by lia. repeat split; intros; lia.
  - cbn. destruct (Z.leb_spec limit clock); [done|]. intros [= <-]. unfold u8. rewrite Z.mod_small by lia. repeat split; [lia..|]. intros [?|?]; [done|lia].
Qed.

Lemma wait_for_next_block_descends :
  state p = st_wait_for_next_block -> descends (wait_for_next_block fk nettype conf e p).
Proof using Hnum.
  intros Hs. unfold wait_for_next_block. case_bool_decide as Ht; [rewrite <- Hs; by apply stay_descends; [..|rewrite Hs]|].
  destruct (get_round_timings _ _ _ _ _ _ _) as [times|]; [|rewrite <- Hs; by apply stay_descends; [..|rewrite Hs]].
  split; [unfold numbered; cbn; lia|]. split; [by right|]. intros _. unfold rank. rewrite Hs. cbn.
  rewrite bool_decide_eq_true_2, bool_decide_eq_false_2 by done. lia.
Qed.

Lemma prepare_descends my_pub cn_fast_hash fuel `{Engine G} seed_number seed_sequence r :
  state p = st_prepare_for_round ->
  prepare_for_round fk nettype conf my_pub cn_fast_hash fuel seed_number seed_sequence e p = Returned r -> descends r.
Proof using Hnum Hconf.
  clear Hinv. clear parse_tx parse_block generate_signature origin check_signature blake2b.
  intros Hs. unfold prepare_for_round.
  assert (descends (clear_round_data p, st_wait_for_next_block)) as Hrest.
  { apply rest_descends; [done|done|by unfold numbered; cbn; lia|by rewrite Hs]. }
  destruct (next_round _ _ _ _ _) as [n|] eqn:En; [|by intros [= <-]].
  destruct (generate_pulse_quorum _ _ _ _ _ _ _ _ _) as [q| |]; cbn [mbind outcome_bind]; try discriminate.
  destruct (negb _); [by intros [= <-]|]. destruct (participation my_pub q) as [part position]. intros [= <-].
  apply next_round_spec in En as (Hn & Hlt & _). split; [exact Hn|]. split; [done|]. intros _. unfold numbered in Hnum.
  rewrite rank_round by (cbn; lia). unfold rank. rewrite Hs. cbn.
  match goal with |- context [weight _ _ _ ?x] => pose proof (weight_range fk nettype (chain_height e) x) end.
  destruct (queue_for_next_round _), (bool_decide _); lia.
Qed.

End Descend.

(** ** The loop *)

Section Loop.
Context (fk : list hard_fork) (nettype : network_type) (conf : network_config).
Context (blake2b : bytes -> bytes) (generichash : list bytes -> bytes).
Context (check_signature : bytes -> bytes -> bytes -> bool).
Context (my_pub : bytes) (generate_signature : bytes -> bytes).
Context (parse_block : bytes -> option block) (parse_tx : bytes -> option transaction).
Context (get_block_hash : block -> bytes) (quorumnet : bool).
Context (cn_fast_hash : bytes -> bytes).
Context (fuel : nat) {G : Type} `{EngineLaws G} (seed_number : Z -> G) (seed_sequence : list Z -> G).
Context (block_to_blob : block -> bytes).

Abbreviation stage := (run_stage fk nettype conf blake2b generichash check_signature my_pub generate_signature
  parse_block parse_tx get_block_hash quorumnet cn_fast_hash fuel seed_number seed_sequence block_to_blob).
Abbreviation stages := (run_stages fk nettype conf blake2b generichash check_signature my_pub generate_signature
  parse_block parse_tx get_block_hash quorumnet cn_fast_hash fuel seed_number seed_sequence block_to_blob).
Abbreviation check := (check_state fk nettype conf blake2b generichash check_signature my_pub generate_signature
  parse_block parse_tx get_block_hash quorumnet cn_fast_hash fuel seed_number seed_sequence block_to_blob).
Abbreviation reachable := (reachable fk nettype conf blake2b generichash check_signature my_pub generate_signature
  parse_block parse_tx get_block_hash quorumnet cn_fast_hash fuel seed_number seed_sequence block_to_blob).
Abbreviation run_inv := (inv blake2b generichash check_signature get_block_hash
  (round_quorum nettype cn_fast_hash fuel seed_number seed_sequence) False).

Context (Hconf : get_config nettype = Some conf) (Hsched : schedule_ok (get_hard_forks fk nettype)).
Context (Hhash : forall b sigs, get_block_hash (with_signatures b sigs) = get_block_hash b).

Lemma stage_descends e p r :
  run_inv p -> numbered p -> stage e p = Returned r -> descends fk nettype (chain_height e) (top_hash e) p r.
Proof using Hconf Hsched.
  intros Hinv Hn. unfold run_stage, mret, outcome_ret. destruct (state p) eqn:Es; try (intros [= <-]).
  - apply rest_descends; [done..|by rewrite Es].
  - by apply wait_for_next_block_descends.
  - intros Hr. by eapply prepare_descends.
  - by apply wait_for_round_descends.
  - by eapply handshakes_descends.
  - by eapply handshake_bitsets_descends.
  - by eapply wait_bitsets_descends.
  - by apply send_template_descends.
  - by eapply wait_template_descends.
  - by eapply hashes_descends.
  - by eapply values_descends.
  - by eapply signatures_descends.
Qed.

Lemma reachable_numbered p : reachable False p -> numbered p /\ requested p.
Proof using Hconf Hsched Hhash.
  unfold PulseRuns.reachable. intros Hp.
  assert (run_inv initial /\ numbered initial /\ requested initial) as H1
    by (split; [by split; [left|constructor]|split; [unfold numbered; cbn; lia|done]]).
  revert H1. induction Hp as [|p1 p2 p3 Hstep _ IH]; intros (Hi & Hn & Hq); [done|]. apply IH.
  split; [by eapply step_inv|].
  destruct Hstep as [m|e p' s _ Hr].
  - destruct (receive_keeps blake2b generichash check_signature parse_block parse_tx get_block_hash quorumnet
      (round_quorum nettype cn_fast_hash fuel seed_number seed_sequence) False p1 m) as [(Hst & Hr & _) _].
    unfold numbered, requested. by rewrite Hr, Hst.
  - destruct (stage_descends e p1 (p', s) Hi Hn Hr) as (Hn' & Hq' & _). by split.
Qed.

(** The service nodes of a chain, for which quorums are generated without an error. *)
Definition nodes_ok (e : environment) : Prop :=
  NoDup (active_nodes e).*1 /\ Z.of_nat (length (active_nodes e)) <= UINT64_MAX.

Lemma stage_returns e p :
  nodes_ok e -> numbered p ->
  ends (stage e p) (fun r => True)
    (rng_stalls fuel seed_number seed_sequence (get_network_version fk nettype (chain_height e))).
Proof using Hconf H0.
  intros [Hnd Hl] Hn. unfold run_stage. destruct (state p); try done. unfold prepare_for_round.
  destruct (next_round _ _ _ _ _) as [n|] eqn:En; [|done].
  apply next_round_spec in En as [Hn' _]; [|done|done].
  eapply ends_bind; [apply (pulse_spec _ _ _ _ nettype conf); [done|done|lia|done]|].
  intros q _. destruct (negb _); [done|]. by destruct (participation my_pub q).
Qed.

Lemma run_stages_return h top turns envs p :
  (forall i, chain_height (envs i) = h /\ top_hash (envs i) = top /\ nodes_ok (envs i)) ->
  run_inv p -> numbered p -> rank fk nettype h top p < Z.of_nat turns ->
  ends (stages turns envs p) is_Some (rng_stalls fuel seed_number seed_sequence (get_network_version fk nettype h)).
Proof using Hconf Hsched Hhash H0.
  revert envs p. induction turns as [|turns IH]; intros envs p He Hi Hn Hlt.
  { pose proof (rank_range fk nettype h top p Hn). lia. }
  cbn [run_stages]. destruct (He 0%nat) as (<- & <- & Hok). pose proof (stage_returns (envs 0%nat) p Hok Hn) as Hr.
  destruct (stage (envs 0%nat) p) as [[p' s]| |] eqn:Er; [|exact Hr|destruct Hr]. cbn [mbind outcome_bind].
  destruct (stage_descends _ _ _ Hi Hn Er) as (Hn' & _ & Hd). case_bool_decide as Es; [by eexists|].
  apply IH; [intros i; apply (He (S i))|by eapply stage_inv|exact Hn'|]. specialize (Hd Es). cbn [fst snd] in Hd. lia.
Qed.

(** (C19) The loop of [check_state] ends: from any state a run can reach, under the rules before
    or after HF21, while the chain does not change, 200000 turns are enough for the machine to
    come to rest (far fewer are used: rounds are limited, a retry drops participants and the
    other transitions go forward), unless the random number generator never leaves a rejected
    range. *)
Theorem check_state_returns h top turns envs p :
  reachable False p ->
  (forall i, chain_height (envs i) = h /\ top_hash (envs i) = top /\ nodes_ok (envs i)) ->
  200000 <= Z.of_nat turns ->
  ends (check turns envs p) is_Some
    (rng_stalls fuel seed_number seed_sequence (get_network_version fk nettype h)).
Proof using Hconf Hsched Hhash H0.
  intros Hp He Ht. unfold check_state. destruct (hard_fork_begins _ _ _); [|by eexists].
  destruct (_ && _); [by eexists|]. pose proof (reachable_numbered p Hp) as [Hn _].
  apply (run_stages_return h top); [done|by eapply reachable_inv|done|].
  pose proof (rank_range fk nettype h top p Hn). lia.
Qed.

End Loop.

Import Counter.
#[local] Instance counter_laws : @EngineLaws Z Counter.engine.
Proof. constructor. intros g. unfold is_u64, next, Counter.engine. cbn [fst]. apply Z.mod_pos_bound. done. Qed.

(** Starting the machine on the chain of the demonstration round. *)
Lemma check_state_returns_witness :
  ends (check_state [] STAGENET stagenet_config demo_blake demo_mix demo_check [5] (demo_sign [5])
          (fun _ => Some demo_template) (fun _ => None) demo_hash true id 64 (fun n => n) Counter.seed_sequence
          (fun _ => []) (Z.to_nat 200000) (fun _ => demo_env 300 (seconds 1200)) demo_signing)
    is_Some (rng_stalls 64 (fun n => n) Counter.seed_sequence (get_network_version [] STAGENET 300)).
Proof.
  apply (check_state_returns [] STAGENET stagenet_config demo_blake demo_mix demo_check [5] (demo_sign [5])
          (fun _ => Some demo_template) (fun _ => None) demo_hash true id 64 (fun n => n) Counter.seed_sequence
          (fun _ => []) eq_refl (compiled_schedule_ok [] STAGENET eq_refl) (fun _ _ => eq_refl) 300 [0; 30]).
  - apply demo_signing_reachable.
  - intros i. split; [reflexivity|]. split; [reflexivity|]. split; [|vm_compute; discriminate].
    apply (bool_decide_unpack _). vm_compute. exact I.
  - rewrite Z2Nat.id by lia. lia.
Defined.

(** ** The clock and the rounds *)

Lemma time_since_round conf r0 n t :
  0 < seconds (PULSE_ROUND_TIMEOUT conf) -> 0 <= n ->
  r0 + n * seconds (PULSE_ROUND_TIMEOUT conf) <= t < r0 + (n + 1) * seconds (PULSE_ROUND_TIMEOUT conf) ->
  time_since t r0 / seconds (PULSE_ROUND_TIMEOUT conf) = n.
Proof.
  intros Ht Hn Hr. symmetry. unfold time_since. destruct (Z.leb_spec t r0).
  - assert (n = 0) by nia. subst. done.
  - apply (Z.div_unique_pos _ _ _ (t - r0 - n * seconds (PULSE_ROUND_TIMEOUT conf))); lia.
Qed.

Lemma fallback_iff conf v r r0 t :
  0 < seconds (PULSE_ROUND_TIMEOUT conf) -> 0 < max_rounds conf v r ->
  (convert_time_to_round conf v r t r0).1 = (t <? r0 + seconds (PULSE_ROUND_TIMEOUT conf) * max_rounds conf v r).
Proof.
  intros Ht Hm. unfold convert_time_to_round. cbn [fst]. apply eq_iff_eq_true. rewrite !Z.ltb_lt.
  unfold time_since. destruct (Z.leb_spec t r0).
  - rewrite Z.div_0_l by lia. split; [nia|lia].
  - pose proof (Z.mul_succ_div_gt (t - r0) _ Ht). split; intros Hlt; [nia|]. apply Z.div_lt_upper_bound; lia.
Qed.

(** (C26) When a round is prepared, the clock and the schedule agree: the round is one of those
    allowed at this height and comes after the round that was given up; it has not ended yet;
    every time between its start and its end is converted back to this round; and times are
    converted to allowed rounds exactly until the miners' fallback time of the block. *)
Theorem prepared_round_on_schedule fk nettype conf my_pub cn_fast_hash fuel `{Engine G} seed_number seed_sequence
    e p p' v rev :
  get_config nettype = Some conf -> numbered p -> requested p -> state p = st_prepare_for_round ->
  get_network_version_revision fk nettype (chain_height e) = (v, rev) ->
  prepare_for_round fk nettype conf my_pub cn_fast_hash fuel seed_number seed_sequence e p
    = Returned (p', st_wait_for_round) ->
  let r := round p' in
  let r0 := round_0_start_time p' in
  0 <= number r < max_rounds conf v rev /\
  (queue_for_next_round (round p) = true -> number (round p) < number r) /\
  now_check e < round_end_time r /\
  (forall t, start_time r <= t < round_end_time r ->
     convert_time_to_round conf v rev t r0 = (true, number r)) /\
  (forall t, (convert_time_to_round conf v rev t r0).1
             = (t <? r0 + seconds (PULSE_ROUND_TIMEOUT conf) * max_rounds conf v rev)).
Proof.
  intros Hconf Hn Hq Hs Hv. unfold prepare_for_round.
  destruct (next_round _ _ _ _ _) as [n|] eqn:En; [|discriminate].
  destruct (generate_pulse_quorum _ _ _ _ _ _ _ _ _) as [q| |]; cbn [mbind outcome_bind]; try discriminate.
  destruct (negb _); [discriminate|]. destruct (participation my_pub q) as [part position]. intros [= <-].
  cbn -[convert_time_to_round Z.mul seconds].
  destruct (next_round_spec fk nettype conf Hconf e p Hn n En) as (Hr & Hnext & Hclock & Hlim).
  specialize (Hlim (Hq Hs)). rewrite Hv in Hlim. pose proof (round_timeout_pos nettype conf Hconf) as Ht.
  split; [lia|]. split; [intros Hf; by rewrite Hf in Hnext|]. split; [|split].
  - unfold time_since in Hclock. destruct (Z.leb_spec (now_check e) (round_0_start_time p)); [nia|].
    pose proof (Z.mul_succ_div_gt (now_check e - round_0_start_time p) _ Ht). nia.
  - intros t Htt. unfold convert_time_to_round. rewrite (time_since_round conf _ n) by lia.
    rewrite (proj2 (Z.ltb_lt _ _)), Z.min_l by lia. unfold u8. by rewrite Z.mod_small by lia.
  - intros t. by apply fallback_iff; [|lia].
Qed.

(** Round 0 of the demonstration was given up; 35 seconds after its start round 1 is prepared. *)
Definition demo_given_up : pulse_impl :=
  Pulse 300 [0; 30] (seconds 1075) (with_queue_flag new_round true) new_transient st_prepare_for_round [] [].

Lemma prepared_round_on_schedule_witness :
  exists p', prepare_for_round [] STAGENET stagenet_config [5] id 64 (fun n => n) Counter.seed_sequence
               (demo_env 300 (seconds 1110)) demo_given_up = Returned (p', st_wait_for_round) /\
    number (round p') = 1 /\
    convert_time_to_round stagenet_config hf21_eth 0 (seconds 1105) (round_0_start_time p') = (true, 1) /\
    convert_time_to_round stagenet_config hf21_eth 0 (seconds 1134) (round_0_start_time p') = (true, 1).
Proof.
  assert (E : exists p', prepare_for_round [] STAGENET stagenet_config [5] id 64 (fun n => n) Counter.seed_sequence
               (demo_env 300 (seconds 1110)) demo_given_up = Returned (p', st_wait_for_round) /\
               number (round p') = 1 /\ start_time (round p') = seconds 1105 /\
               round_end_time (round p') = seconds 1135)
    by (eexists; split; [vm_compute; reflexivity|]; split_and!; vm_compute; reflexivity).
  destruct E as (p' & E & En & Es & Ee). exists p'. split; [exact E|]. split; [exact En|].
  destruct (prepared_round_on_schedule [] STAGENET stagenet_config [5] id 64 (fun n => n) Counter.seed_sequence
    (demo_env 300 (seconds 1110)) demo_given_up p' hf21_eth 0) as (_ & _ & _ & Hc & _);
    [reflexivity|unfold numbered; cbn; lia|left; reflexivity|reflexivity|vm_compute; reflexivity|exact E|].
  rewrite En, Es, Ee in Hc. split; apply Hc; unfold seconds; lia.
Defined.
