(* ===== verification/VerifyBlock.v ===== *)
(** * Which blocks the service node list accepts

    [verify_block] and [verify_block_components] of [cryptonote_core/service_node_list.cpp]: the
    checkpoint that comes with a block, and that the block was made by the pulse quorum of its
    height in the time of its round or, when pulse is not possible or has timed out, by a miner
    (from HF22 on one of the authorized fallback miners).  Reading the database and decoding hex
    (the oxenc library) are parameters; the mock network is left out.  Times are integers without
    bound: 64 bits of nanoseconds last until the year 2262. *)
From stdpp Require Import gmap strings.
From S2P Require Import Prelude Hardfork Config Address Rules Voting Transactions NodeProof ServiceNode NodeList.
From S2P Require Import QuorumCop VoteHandling Random Quorums Events PulseEntropy Pulse PulseSafety PulseRuns.
#[local] Open Scope Z_scope.

Inductive verify_error :=
| no_checkpoint_quorum
| checkpoint_failed
| no_previous_block
| no_timings
| components_failed.

(** The states a quorum is looked up in. *)
Record snode_states := SnodeStates {
  ss_state : state_t;
  ss_history : gmap Z state_t;
  ss_archive : gmap Z state_t;
  ss_alt : list (bytes * state_t);
}.

(** What is read of the chain. *)
Record chain_view := ChainView {
  cv_height : Z;
  cv_timestamp : Z -> option Z;
  cv_block : bytes -> option block;
}.

Section Verify.
Context (fk : list hard_fork) (nettype : network_type) (conf : network_config).
Context (check_signature : bytes -> bytes -> bytes -> bool) (get_block_hash : block -> bytes).
Context (is_hex : string -> bool) (from_hex : string -> bytes).

Definition check_pulse_timestamps : bool := negb (bool_decide (nettype = FAKECHAIN)).

Definition try_load_from_hex_guts (hex : string) : option bytes :=
  if (String.length hex =? 64)%nat && is_hex hex then Some (from_hex hex) else None.

Definition fallback_miner_pubkeys : list bytes := omap try_load_from_hex_guts (FALLBACK_MINER_PUBKEYS conf).

Definition verify_fallback_miner_signature (b : block) (block_hash : bytes) : bool :=
  match b_signatures b with
  | [s] =>
      (voter_index s =? FALLBACK_MINER_VOTER_INDEX)
      && existsb (fun pk => check_signature block_hash pk (qs_signature s)) fallback_miner_pubkeys
  | _ => false
  end.

Definition to_seconds (t : Z) : Z := u64 (t / 1000000000).

Definition verify_miner_components (b : block) : bool :=
  if has_pulse b then false
  else if negb (pulse_round (b_pulse b) =? 0) then false
  else if negb (validator_bitset (b_pulse b) =? 0) then false
  else if hf22_sn_policy <=? major_version b then
    if (length fallback_miner_pubkeys =? 0)%nat then false
    else verify_fallback_miner_signature b (get_block_hash b)
  else (length (b_signatures b) =? 0)%nat.

Definition signed_by (b : block) (q : quorum) : bool :=
  verify_quorum_signatures check_signature q pulse (major_version b) (get_block_hash b) (b_signatures b)
    (Some (pulse_info b)).

Definition in_round_time (times : timings) (b : block) : bool :=
  let begin := r0_timestamp times + pulse_round (b_pulse b) * seconds (PULSE_ROUND_TIMEOUT conf) in
  (to_seconds begin <=? b_timestamp b)
  && (b_timestamp b <=? to_seconds (begin + seconds (PULSE_ROUND_TIMEOUT conf))).

Definition verify_pulse_components (b : block) (alt_block : bool) (times : timings)
    (pulse_quorum : option quorum) (alt_pulse_quorums : list quorum) : bool :=
  if negb (has_pulse b) then false
  else if check_pulse_timestamps && negb (in_round_time times b) then false
  else if negb (b_nonce b =? 0) then false
  else if alt_block then
    match pulse_quorum with Some q => signed_by b q | None => false end
    || existsb (signed_by b) alt_pulse_quorums
  else
    match pulse_quorum with
    | None => false
    | Some q => signed_by b q
    end.

Definition verify_block_components (b : block) (miner_block alt_block : bool) (times : timings)
    (pulse_quorum : option quorum) (alt_pulse_quorums : list quorum) : bool :=
  if miner_block then verify_miner_components b
  else verify_pulse_components b alt_block times pulse_quorum alt_pulse_quorums.

(** The part of [get_quorum] that collects the quorums of alternative states. *)
Definition get_alt_quorums (alts : list (bytes * state_t)) (type : quorum_type) (height : Z) : list quorum :=
  omap (fun a => if st_height a.2 =? offset_testing_quorum_height type height
                 then qm_get (quorums a.2) type else None) alts.

Definition lookup_quorum (s : snode_states) (type : quorum_type) (height : Z) : option quorum :=
  get_quorum (ss_state s) (ss_history s) (ss_archive s) [] type height false.

Definition verify_checkpoint_of (s : snode_states) (b : block) (alt_block : bool)
    (checkpoint : option checkpoint_t) : option verify_error :=
  match checkpoint with
  | Some c =>
      if hf13_enforce_checkpoints <=? major_version b then
        match lookup_quorum s checkpointing (cp_height c) with
        | None => Some no_checkpoint_quorum
        | Some q =>
            if verify_checkpoint check_signature (major_version b) c q then None
            else if alt_block
                    && existsb (verify_checkpoint check_signature (major_version b) c)
                         (get_alt_quorums (ss_alt s) checkpointing (cp_height c))
            then None else Some checkpoint_failed
        end
      else None
  | None => None
  end.

Definition no_timings_yet : timings := Timings 0 0 0 0 0.

Definition timings_of (v : chain_view) (b : block) (alt_block : bool) : timings + verify_error :=
  if hf16_pulse <=? major_version b then
    match (if alt_block then b_timestamp <$> cv_block v (b_prev_id b)
           else cv_timestamp v (u64 (b_height b - 1))) with
    | None => inr no_previous_block
    | Some prev =>
        match get_round_timings fk nettype conf (cv_height v) (cv_timestamp v) (b_height b) prev with
        | Some times => inl times
        | None => inr no_timings
        end
    end
  else inl no_timings_yet.

(** [None] when the block is accepted, otherwise why the code throws. *)
Definition verify_block (s : snode_states) (v : chain_view) (b : block) (alt_block : bool)
    (checkpoint : option checkpoint_t) : option verify_error :=
  if major_version b <? hf9_service_nodes then None
  else
    match verify_checkpoint_of s b alt_block checkpoint with
    | Some err => Some err
    | None =>
        match timings_of v b alt_block with
        | inr err => Some err
        | inl times =>
            let pulse_hf := hf16_pulse <=? major_version b in
            let pulse_quorum := if pulse_hf then lookup_quorum s pulse (b_height b) else None in
            let alts := if pulse_hf && alt_block then get_alt_quorums (ss_alt s) pulse (b_height b) else [] in
            let pulse_quorum :=
              if check_pulse_timestamps && (miner_fallback_timestamp times <=? seconds (b_timestamp b))
              then None else pulse_quorum in
            let result :=
              if alt_block then
                (pulse_hf && verify_block_components b false true times pulse_quorum alts)
                || verify_block_components b true true times pulse_quorum alts
              else
                let miner_block := negb pulse_hf || negb (bool_decide (is_Some pulse_quorum)) in
                verify_block_components b miner_block false times pulse_quorum alts in
            if result then None else Some components_failed
        end
    end.

(** ** What is accepted *)

(** A block of the quorum: seven validators that took part, in order, signed it in the time of its
    round. *)
Definition made_by_quorum (q : quorum) (times : timings) (b : block) : Prop :=
  has_pulse b = true /\ b_nonce b = 0 /\
  (let begin := r0_timestamp times + pulse_round (b_pulse b) * seconds (PULSE_ROUND_TIMEOUT conf) in
   to_seconds begin <= b_timestamp b <= to_seconds (begin + seconds (PULSE_ROUND_TIMEOUT conf))) /\
  length (b_signatures b) = 7%nat /\ validator_bitset (b_pulse b) < 2 ^ 11 /\
  StronglySorted Z.lt (voter_index <$> b_signatures b) /\
  Forall (fun s => voter_index s < Z.of_nat (length (validators q)) /\
            Z.testbit (validator_bitset (b_pulse b)) (voter_index s) = true /\
            check_signature (get_block_hash b) (validators q !!! Z.to_nat (voter_index s)) (qs_signature s) = true)
    (b_signatures b).

(** A block of an authorized fallback miner. *)
Definition made_by_fallback_miner (b : block) : Prop :=
  has_pulse b = false /\ pulse_round (b_pulse b) = 0 /\ validator_bitset (b_pulse b) = 0 /\
  exists s pk, b_signatures b = [s] /\ voter_index s = FALLBACK_MINER_VOTER_INDEX /\
    pk ∈ fallback_miner_pubkeys /\ check_signature (get_block_hash b) pk (qs_signature s) = true.

Lemma signed_by_iff b q :
  (length (validators q) <= 16)%nat -> Forall (fun s => 0 <= voter_index s) (b_signatures b) ->
  signed_by b q = true <->
  length (b_signatures b) = 7%nat /\ validator_bitset (b_pulse b) < 2 ^ 11 /\
  StronglySorted Z.lt (voter_index <$> b_signatures b) /\
  Forall (fun s => voter_index s < Z.of_nat (length (validators q)) /\
            Z.testbit (validator_bitset (b_pulse b)) (voter_index s) = true /\
            check_signature (get_block_hash b) (validators q !!! Z.to_nat (voter_index s)) (qs_signature s) = true)
    (b_signatures b).
Proof using Type.
  intros Hq Hn. unfold signed_by. rewrite quorum_signatures_accepted_spec; [|by right|lia|done|done]. split.
  - intros (Hall & _ & _ & Hp). destruct (Hp eq_refl) as (Hl & Ho & bp & [= <-] & Hb). split; [done|].
    split; [exact Hb|]. split; [apply Sorted_StronglySorted; [intros x y z; lia|by apply Ho]|].
    eapply Forall_impl; [exact Hall|]. intros s (Hi & Hc & Ht). destruct (Ht eq_refl) as (bp & [= <-] & Hbit). split; [lia|done].
  - intros (Hl & Hb & Hs & Hall). split; [|split; [|split; [done|]]].
    + apply Forall_forall. intros s Hin. rewrite Forall_forall in Hall, Hn. destruct (Hall s Hin) as (Hi & Hbit & Hc).
      split; [split; [by apply Hn|done]|]. split; [done|]. intros _. by exists (pulse_info b).
    + rewrite list_fmap_compose. apply voters_NoDup; [done|]. by apply Forall_fmap.
    + intros _. split; [done|]. split; [intros _; by apply StronglySorted_Sorted|]. by exists (pulse_info b).
Qed.

Lemma pulse_components_iff b times q :
  check_pulse_timestamps = true ->
  (length (validators q) <= 16)%nat -> Forall (fun s => 0 <= voter_index s) (b_signatures b) ->
  verify_block_components b false false times (Some q) [] = true <-> made_by_quorum q times b.
Proof using Type.
  intros Ht Hq Hn. unfold verify_block_components, verify_pulse_components, made_by_quorum, in_round_time.
  rewrite Ht. cbn [andb]. destruct (has_pulse b); cbn [negb]; [|naive_solver].
  rewrite <- signed_by_iff by done.
  destruct (Z.leb_spec (to_seconds (r0_timestamp times + pulse_round (b_pulse b) * seconds (PULSE_ROUND_TIMEOUT conf))) (b_timestamp b));
    cbn [andb negb]; [|split; [done|lia]].
  destruct (Z.leb_spec (b_timestamp b) (to_seconds (r0_timestamp times + pulse_round (b_pulse b) * seconds (PULSE_ROUND_TIMEOUT conf)
    + seconds (PULSE_ROUND_TIMEOUT conf)))); cbn [negb]; [|split; [done|lia]].
  destruct (Z.eqb_spec (b_nonce b) 0); cbn [negb]; [|split; [done|lia]]. naive_solver.
Qed.

Lemma miner_components_iff b times q alts :
  hf22_sn_policy <= major_version b ->
  verify_block_components b true false times q alts = true <-> made_by_fallback_miner b.
Proof using Type.
  intros Hv. unfold verify_block_components, verify_miner_components, made_by_fallback_miner.
  destruct (has_pulse b); [naive_solver|].
  destruct (Z.eqb_spec (pulse_round (b_pulse b)) 0); cbn [negb]; [|naive_solver].
  destruct (Z.eqb_spec (validator_bitset (b_pulse b)) 0); cbn [negb]; [|naive_solver].
  rewrite (proj2 (Z.leb_le _ _)) by done. unfold verify_fallback_miner_signature. split.
  - destruct (_ =? 0)%nat; [done|]. destruct (b_signatures b) as [|s [|]]; try done.
    intros [Hi%Z.eqb_eq (pk & Hpk & Hc)%existsb_exists]%andb_true_iff. do 3 (split; [done|]).
    exists s, pk. split; [done|]. split; [done|]. split; [by apply list_elem_of_In|done].
  - intros (_ & _ & _ & s & pk & -> & -> & Hpk & Hc). destruct (Nat.eqb_spec (length fallback_miner_pubkeys) 0) as [E|].
    + apply nil_length_inv in E. rewrite E in Hpk. by apply elem_of_nil in Hpk.
    + rewrite Z.eqb_refl. cbn [andb]. apply existsb_exists. exists pk. split; [by apply list_elem_of_In|done].
Qed.

Lemma main_chain_components s v b c times :
  hf16_pulse <= major_version b -> check_pulse_timestamps = true ->
  verify_checkpoint_of s b false c = None -> timings_of v b false = inl times ->
  let q := if miner_fallback_timestamp times <=? seconds (b_timestamp b) then None
           else lookup_quorum s pulse (b_height b) in
  verify_block s v b false c = None <->
  verify_block_components b (negb (bool_decide (is_Some q))) false times q [] = true.
Proof using Type.
  intros Hv Ht Hc Htm q. unfold verify_block. assert (hf9_service_nodes < hf16_pulse) by done.
  rewrite (proj2 (Z.ltb_ge _ _)) by lia. rewrite Hc, Htm, Ht, (proj2 (Z.leb_le _ _) Hv). cbn [andb orb negb]. fold q.
  destruct (verify_block_components _ _ _ _ _ _); naive_solver.
Qed.

(** Where no fallback miner is authorized, nothing is accepted after the fallback time. *)
Lemma no_block_without_fallback_miner s v b c times :
  FALLBACK_MINER_PUBKEYS conf = [] -> hf22_sn_policy <= major_version b -> check_pulse_timestamps = true ->
  timings_of v b false = inl times -> miner_fallback_timestamp times <= seconds (b_timestamp b) ->
  verify_block s v b false c <> None.
Proof using Type.
  intros Hk Hv Ht Htm Hf E. assert (hf16_pulse <= major_version b) as H16 by (unfold hf22_sn_policy, hf16_pulse in *; lia).
  assert (verify_checkpoint_of s b false c = None) as Hc.
  { unfold verify_block in E. destruct (_ <? _) eqn:E9; [apply Z.ltb_lt in E9; unfold hf9_service_nodes, hf22_sn_policy in *; lia|].
    by destruct (verify_checkpoint_of _ _ _ _). }
  rewrite (main_chain_components s v b c times H16 Ht Hc Htm), (proj2 (Z.leb_le _ _) Hf) in E.
  change (verify_block_components b true false times None [] = true) in E.
  apply miner_components_iff in E; [|done]. destruct E as (_ & _ & _ & x & pk & _ & _ & Hpk & _).
  unfold fallback_miner_pubkeys in Hpk. rewrite Hk in Hpk. by apply elem_of_nil in Hpk.
Qed.

End Verify.

(** (C15) From HF22 on a block at the top of the chain is accepted exactly if the checkpoint it
    comes with verifies and it was made by whose turn it is: before the fallback time of its
    height, and with a pulse quorum, by that quorum (seven different validators that took part,
    in order, over its hash, dated within its round, without a nonce); afterwards, or without a
    quorum, by one of the authorized fallback miners of the network. *)
Theorem main_chain_block_accepted fk nettype conf check_signature get_block_hash is_hex from_hex s v b c :
  nettype <> FAKECHAIN -> hf22_sn_policy <= major_version b ->
  Forall (fun x => 0 <= voter_index x) (b_signatures b) ->
  (forall q, lookup_quorum s pulse (b_height b) = Some q -> (length (validators q) <= 16)%nat) ->
  verify_block fk nettype conf check_signature get_block_hash is_hex from_hex s v b false c = None <->
  verify_checkpoint_of check_signature s b false c = None /\
  exists times, timings_of fk nettype conf v b false = inl times /\
    ((exists q, lookup_quorum s pulse (b_height b) = Some q /\
        seconds (b_timestamp b) < miner_fallback_timestamp times /\
        made_by_quorum conf check_signature get_block_hash q times b) \/
     ((lookup_quorum s pulse (b_height b) = None \/ miner_fallback_timestamp times <= seconds (b_timestamp b)) /\
        made_by_fallback_miner conf check_signature get_block_hash is_hex from_hex b)).
Proof.
  intros Hnet Hv Hn Hq. assert (check_pulse_timestamps nettype = true) as Ht.
  { unfold check_pulse_timestamps. by rewrite bool_decide_eq_false_2. }
  assert (hf16_pulse <= major_version b) as H16 by (unfold hf22_sn_policy, hf16_pulse in *; lia).
  destruct (verify_checkpoint_of check_signature s b false c) as [err|] eqn:Ec.
  { split; [|by intros [? _]]. unfold verify_block. rewrite Ec.
    rewrite (proj2 (Z.ltb_ge _ _)) by (unfold hf22_sn_policy, hf9_service_nodes in *; lia). done. }
  destruct (timings_of fk nettype conf v b false) as [times|err] eqn:Etm.
  2: { split; [|by intros (_ & ? & ? & _)]. unfold verify_block. rewrite Ec, Etm.
    rewrite (proj2 (Z.ltb_ge _ _)) by (unfold hf22_sn_policy, hf9_service_nodes in *; lia). done. }
  rewrite main_chain_components by done.
  destruct (Z.leb_spec (miner_fallback_timestamp times) (seconds (b_timestamp b))) as [Hf|Hf].
  - change (negb (bool_decide (is_Some (@None quorum)))) with true. rewrite miner_components_iff by done. split.
    + intros Hm. split; [done|]. exists times. split; [done|]. right. split; [by right|done].
    + intros (_ & t & [= <-] & [(q & _ & Hlt & _)|[_ Hm]]); [lia|done].
  - destruct (lookup_quorum s pulse (b_height b)) as [q|] eqn:Eq.
    + change (negb (bool_decide (is_Some (Some q)))) with false. rewrite pulse_components_iff by (done || by apply Hq). split.
      * intros Hm. split; [done|]. exists times. split; [done|]. left. by exists q.
      * intros (_ & t & [= <-] & [(q' & [= <-] & _ & Hm)|[[?|?] _]]); [done|done|lia].
    + change (negb (bool_decide (is_Some (@None quorum)))) with true. rewrite miner_components_iff by done. split.
      * intros Hm. split; [done|]. exists times. split; [done|]. right. split; [by left|done].
      * intros (_ & t & [= <-] & [(q & ? & _)|[_ Hm]]); [done|done].
Qed.

(** *** Witnesses *)

Definition demo_view : chain_view := ChainView 300000 (fun _ => Some 1000) (fun _ => None).
Definition empty_state (h : Z) (q : quorum_manager) : state_t := State ∅ [] ∅ ∅ h q [] 0 [] [] [].
Definition no_managed_quorums : quorum_manager := QuorumManager None None None None.

(** A block of a fallback miner on mainnet, dated three hours after the block before it. *)
Definition demo_fallback_block : block :=
  Block hf22_sn_policy 300000 11800 [] [] 5 no_pulse [QuorumSignature 65535 ([7] ++ demo_hash (plain_block 0 0 0))] [] [] 0 0.

Lemma main_chain_block_accepted_witness :
  let s := SnodeStates (empty_state 299999 no_managed_quorums) ∅ ∅ [] in
  verify_block [] MAINNET mainnet_config demo_check demo_hash (fun _ => true) (fun _ => [7]) s demo_view
    demo_fallback_block false None = None /\
  verify_block [] MAINNET mainnet_config demo_check demo_hash (fun _ => true) (fun _ => [8]) s demo_view
    demo_fallback_block false None <> None.
Proof.
  intros s. split.
  - apply main_chain_block_accepted; [done|done|repeat constructor; done|by vm_compute|].
    split; [done|]. eexists. split; [vm_compute; reflexivity|]. right. split; [by left|].
    split; [vm_compute; reflexivity|]. split; [done|]. split; [done|]. eexists _, [7]. split; [reflexivity|].
    split; [done|]. split; [apply list_elem_of_here|vm_compute; reflexivity].
  - vm_compute. discriminate.
Defined.

(** Networks on which a block that is too late for pulse can not be made by anyone: no fallback
    miner is authorized, but the versions from 22 on require one. *)
Lemma networks_without_fallback_miner fk :
  FALLBACK_MINER_PUBKEYS stagenet_config = [] /\ hf22_sn_policy <= get_network_version fk STAGENET 250 /\
  FALLBACK_MINER_PUBKEYS devnet_config = [] /\ hf22_sn_policy <= get_network_version fk DEVNET 2 /\
  FALLBACK_MINER_PUBKEYS localdev_config = [] /\ hf22_sn_policy <= get_network_version fk LOCALDEV 171.
Proof. by vm_compute. Qed.
