(* ===== verification/Money.v ===== *)
(** * Amounts with a thousandth of an atomic unit

    [reward_money] of [cryptonote_basic/cryptonote_basic_impl.h]: an amount in atomic units and
    thousandths of one, the precision in which rewards are divided, with its conversions to the
    columns of the reward database.  [milli] is the amount it stands for; the operations are
    proved to compute with it. *)
From S2P Require Import Prelude Hardfork Config NodeList Staking Events.
#[local] Open Scope Z_scope.

Definition BATCH_REWARD_FACTOR : Z := 1000.

Definition zero_money : reward_money := RewardMoney 0 0.

(** The columns whose unit depends on the hard fork, and those that are always atomic. *)
Definition from_db_amount (amount : Z) (hf_version : hf) : reward_money :=
  if hf22_eth_fixup <=? hf_version then RewardMoney amount 0
  else RewardMoney (Z.quot amount BATCH_REWARD_FACTOR) (Z.rem amount BATCH_REWARD_FACTOR).
Definition from_db_atomic (amount : Z) : reward_money := from_coin amount.

Definition from_intermediate (amount : Z) : reward_money :=
  RewardMoney (s64 (amount / BATCH_REWARD_FACTOR)) (amount mod BATCH_REWARD_FACTOR).

Definition negative (m : reward_money) : bool := (atomic m <? 0) || (subatomic m <? 0).

(** [None] is [std::nullopt]. *)
Definition to_intermediate (m : reward_money) : option Z :=
  if negative m then None
  else if u64 (atomic m) <? UINT64_MAX / BATCH_REWARD_FACTOR
  then Some (u64 (u64 (atomic m) * BATCH_REWARD_FACTOR + subatomic m)) else None.

Definition truncate (m : reward_money) : reward_money := RewardMoney (atomic m) 0.
Definition round (m : reward_money) : reward_money :=
  RewardMoney (if BATCH_REWARD_FACTOR / 2 <=? subatomic m then atomic m + 1
               else if subatomic m <=? Z.quot (- BATCH_REWARD_FACTOR) 2 then atomic m - 1
               else atomic m) 0.

Definition to_db_amount (m : reward_money) (hf_version : hf) : Z :=
  if hf22_eth_fixup <=? hf_version then atomic (round m)
  else atomic m * BATCH_REWARD_FACTOR + subatomic m.
Definition to_db_atomic (m : reward_money) : Z := s64 (to_coin m).

(** The defaulted [operator<=>]: first the atomic part, then the rest. *)
Definition money_ltb (a b : reward_money) : bool :=
  (atomic a <? atomic b) || ((atomic a =? atomic b) && (subatomic a <? subatomic b)).
Definition money_eqb (a b : reward_money) : bool :=
  (atomic a =? atomic b) && (subatomic a =? subatomic b).

Definition money_add (a b : reward_money) : reward_money :=
  let sub := subatomic a + subatomic b in
  let whole := atomic a + atomic b + Z.quot sub BATCH_REWARD_FACTOR in
  let sub := Z.rem sub BATCH_REWARD_FACTOR in
  if (0 <? whole) && (sub <? 0) then RewardMoney (whole - 1) (sub + BATCH_REWARD_FACTOR)
  else if (whole <? 0) && (0 <? sub) then RewardMoney (whole + 1) (sub - BATCH_REWARD_FACTOR)
  else RewardMoney whole sub.
Definition money_opp (m : reward_money) : reward_money := RewardMoney (- atomic m) (- subatomic m).
Definition money_sub (a b : reward_money) : reward_money := money_add a (money_opp b).
Definition money_div (m : reward_money) (n : Z) : reward_money :=
  RewardMoney (Z.quot (atomic m) n)
    (Z.quot (Z.rem (atomic m) n * BATCH_REWARD_FACTOR + subatomic m) n).

(** ** The amount that is meant *)

Definition milli (m : reward_money) : Z := atomic m * BATCH_REWARD_FACTOR + subatomic m.

(** An amount that is not negative, in its normal form. *)
Definition canonical (m : reward_money) : Prop :=
  0 <= atomic m /\ 0 <= subatomic m < BATCH_REWARD_FACTOR.

Create HintDb money.

Lemma milli_add a b : milli (money_add a b) = milli a + milli b.
Proof.
  unfold milli, money_add, BATCH_REWARD_FACTOR.
  pose proof (Z.quot_rem' (subatomic a + subatomic b) 1000) as E.
  destruct (_ && _); [cbn; lia|]. destruct (_ && _); cbn; lia.
Qed.

Lemma milli_sub a b : milli (money_sub a b) = milli a - milli b.
Proof. unfold money_sub. rewrite milli_add. unfold milli, money_opp. cbn. lia. Qed.

Lemma canonical_nonneg m : canonical m -> 0 <= milli m.
Proof. unfold canonical, milli, BATCH_REWARD_FACTOR. lia. Qed.

Lemma canonical_zero : canonical zero_money.
Proof. by vm_compute. Qed.

Lemma canonical_inj a b : canonical a -> canonical b -> milli a = milli b -> a = b.
Proof.
  destruct a, b. unfold canonical, milli, BATCH_REWARD_FACTOR. cbn. intros. f_equal; lia.
Qed.

Lemma money_ltb_milli a b : canonical a -> canonical b -> money_ltb a b = (milli a <? milli b).
Proof. unfold canonical, money_ltb, milli, BATCH_REWARD_FACTOR. intros. lia. Qed.

(** A difference that is not negative is in normal form again. *)
Lemma canonical_add a b :
  canonical a -> - BATCH_REWARD_FACTOR < subatomic b < BATCH_REWARD_FACTOR -> 0 <= milli a + milli b ->
  (0 <= atomic b /\ 0 <= subatomic b) \/ (atomic b <= 0 /\ subatomic b <= 0) ->
  canonical (money_add a b).
Proof.
  intros (Ha & Hs) Hb Hsum Hsign. pose proof (milli_add a b) as E.
  unfold money_add, milli, canonical, BATCH_REWARD_FACTOR in *.
  pose proof (Z.quot_rem' (subatomic a + subatomic b) 1000) as Eq.
  assert (- 1000 < Z.rem (subatomic a + subatomic b) 1000 < 1000) as Hr.
  { pose proof (Z.rem_bound_abs (subatomic a + subatomic b) 1000). lia. }
  clear E.
  destruct (Z.ltb_spec 0 (atomic a + atomic b + Z.quot (subatomic a + subatomic b) 1000)),
    (Z.ltb_spec (Z.rem (subatomic a + subatomic b) 1000) 0),
    (Z.ltb_spec (atomic a + atomic b + Z.quot (subatomic a + subatomic b) 1000) 0),
    (Z.ltb_spec 0 (Z.rem (subatomic a + subatomic b) 1000)); cbn [andb atomic subatomic] in *; lia.
Qed.

Lemma canonical_plus a b : canonical a -> canonical b -> canonical (money_add a b).
Proof.
  intros Ha Hb. pose proof (canonical_nonneg a Ha). pose proof (canonical_nonneg b Hb).
  destruct Hb. apply canonical_add; [done|unfold BATCH_REWARD_FACTOR in *; lia|lia|lia].
Qed.

Lemma canonical_minus a b : canonical a -> canonical b -> milli b <= milli a -> canonical (money_sub a b).
Proof.
  intros Ha Hb Hle. pose proof Hb as [? ?]. unfold money_sub. apply canonical_add; [done| | |]; cbn.
  - unfold BATCH_REWARD_FACTOR in *. lia.
  - unfold milli, money_opp, BATCH_REWARD_FACTOR in *. cbn. lia.
  - lia.
Qed.

Lemma milli_div m n : canonical m -> 0 < n -> milli (money_div m n) = milli m / n /\ canonical (money_div m n).
Proof.
  intros [Ha Hs] Hn. unfold milli, money_div, canonical, BATCH_REWARD_FACTOR in *. cbn.
  rewrite (Z.quot_div_nonneg (atomic m)) by lia. rewrite (Z.rem_mod_nonneg (atomic m)) by lia.
  pose proof (Z.mod_pos_bound (atomic m) n Hn). rewrite Z.quot_div_nonneg by lia.
  pose proof (Z.div_mod (atomic m) n ltac:(lia)) as E. split.
  - symmetry. rewrite E at 1.
    replace ((n * (atomic m / n) + atomic m mod n) * 1000 + subatomic m)
      with (atomic m mod n * 1000 + subatomic m + atomic m / n * 1000 * n) by lia.
    rewrite Z.div_add by lia. lia.
  - split; [apply Z.div_pos; lia|]. split; [apply Z.div_pos; lia|]. apply Z.div_lt_upper_bound; lia.
Qed.

(** *** Conversions *)

Definition max_intermediate : Z := UINT64_MAX / BATCH_REWARD_FACTOR.

Lemma to_intermediate_spec m :
  canonical m -> atomic m < max_intermediate -> to_intermediate m = Some (milli m).
Proof.
  intros [Ha Hs] Hm. unfold to_intermediate, negative, milli, max_intermediate, BATCH_REWARD_FACTOR in *.
  rewrite !(proj2 (Z.ltb_ge _ _)) by lia. cbn [orb]. change (UINT64_MAX / 1000) with 18446744073709551 in *.
  rewrite (u64_small (atomic m)) by width. rewrite (proj2 (Z.ltb_lt _ _)) by done. f_equal. apply u64_small. width.
Qed.

Lemma to_intermediate_Some m x :
  - BATCH_REWARD_FACTOR < subatomic m < BATCH_REWARD_FACTOR -> atomic m < 2 ^ 64 ->
  to_intermediate m = Some x -> canonical m /\ x = milli m /\ 0 <= x <= UINT64_MAX.
Proof.
  intros Hs Ha. unfold to_intermediate, negative, canonical, milli, BATCH_REWARD_FACTOR in *.
  destruct (Z.ltb_spec (atomic m) 0); [done|]. destruct (Z.ltb_spec (subatomic m) 0); [done|]. cbn [orb].
  change (UINT64_MAX / 1000) with 18446744073709551. rewrite (u64_small (atomic m)) by width.
  destruct (Z.ltb_spec (atomic m) 18446744073709551); [|done]. intros [= <-].
  rewrite u64_small by width. width.
Qed.

Lemma from_intermediate_spec x :
  is_u64 x -> milli (from_intermediate x) = x /\ canonical (from_intermediate x).
Proof.
  intros Hx. unfold from_intermediate, milli, canonical, BATCH_REWARD_FACTOR. cbn.
  pose proof (Z.div_mod x 1000 ltac:(lia)). pose proof (Z.mod_pos_bound x 1000 ltac:(lia)).
  assert (0 <= x / 1000 < 18446744073709552) as Hd.
  { split; [apply Z.div_pos; width|apply Z.div_lt_upper_bound; width]. }
  rewrite s64_small by (unfold is_s64; lia). lia.
Qed.

(** Before [hf22_eth_fixup] a stored amount is read back as it was written. *)
Lemma db_amount_exact m v : canonical m -> v < hf22_eth_fixup -> from_db_amount (to_db_amount m v) v = m.
Proof.
  intros [Ha Hs] Hv. unfold from_db_amount, to_db_amount, BATCH_REWARD_FACTOR in *.
  rewrite (proj2 (Z.leb_gt _ _)) by done. rewrite Z.quot_div_nonneg, Z.rem_mod_nonneg by lia.
  destruct m as [a s]. cbn in *. f_equal; lia.
Qed.

Lemma db_amount_milli m v : v < hf22_eth_fixup -> to_db_amount m v = milli m.
Proof. intros Hv. unfold to_db_amount. by rewrite (proj2 (Z.leb_gt _ _)). Qed.

(** From then on it is rounded to the nearest unit, half of one up. *)
Lemma db_amount_rounded m v :
  canonical m -> hf22_eth_fixup <= v -> 2 * Z.abs (to_db_amount m v * BATCH_REWARD_FACTOR - milli m) <= BATCH_REWARD_FACTOR.
Proof.
  intros [Ha Hs] Hv. unfold to_db_amount, round, milli, BATCH_REWARD_FACTOR in *. cbn [atomic].
  rewrite (proj2 (Z.leb_le _ _)) by done. change (1000 / 2) with 500. change (Z.quot (Z.opp 1000) 2) with (-500).
  destruct (Z.leb_spec 500 (subatomic m)); [lia|]. destruct (Z.leb_spec (subatomic m) (-500)); lia.
Qed.

#[export] Hint Resolve canonical_zero canonical_plus canonical_nonneg : money.
