(* ===== verification/Ledger.v ===== *)
(** * The reward ledger

    [BlockchainSQLite] of [blockchain_db/sqlite/db_sqlite.cpp]: what every address has accrued,
    with copies of the table for recent heights and for every [HISTORY_ARCHIVE_INTERVAL]-th one,
    and the payments that are due later.  A table is a map by its primary key; a statement is a
    function on the tables, with its constraints ([None] is the exception of a violated one) and
    the triggers that [upgrade_schema] installs.  An operation is a program of the monad [db],
    which keeps the changes made before an exception; a transaction undoes them.  Integers are
    unbounded (SQLite's have 64 bits), iteration of an unordered map is by [map_to_list], and
    assertions, logging and the migrations of older databases are left out. *)
From stdpp Require Import gmap strings.
From S2P Require Import Prelude IntUtil Order Hardfork Config Address Reward Rules Voting Transactions L2Votes NodeProof.
From S2P Require Import ServiceNode NodeList Staking Events BlockUpdate Money.
#[local] Open Scope Z_scope.

(** ** Tables *)

(** A row of [batched_payments_accrued], without its key. *)
Record accrued_row := AccruedRow {
  amount : Z;
  payout_offset : option Z;
  lifetime_locked_stakes : Z;
  lifetime_unlocked_stakes : Z;
  lifetime_liquidated_stakes : Z;
  lifetime_rewards : Z;
}.

Record delayed_row := DelayedRow {
  dr_eth_address : bytes;
  dr_amount : Z;
  dr_payout_height : Z;
  dr_height : Z;
  dr_block_height : Z;
  dr_block_tx_index : Z;
  dr_contributor_index : Z;
  dr_liquidation_amount : Z;
}.

Abbreviation balances := (gmap bytes accrued_row).

(** The copies are grouped by their height. *)
Record tables := Tables {
  accrued : balances;
  accrued_recent : gmap Z balances;
  accrued_archive : gmap Z balances;
  delayed : list delayed_row;
  info_height : Z;
}.
Definition with_accrued (t : tables) (m : balances) : tables :=
  Tables m (accrued_recent t) (accrued_archive t) (delayed t) (info_height t).
Definition with_delayed (t : tables) (l : list delayed_row) : tables :=
  Tables (accrued t) (accrued_recent t) (accrued_archive t) l (info_height t).
Definition empty_tables : tables := Tables ∅ ∅ ∅ [] 0.

(** [rescan_tx] is the long transaction of a rescan, with the tables at its start. *)
Record ledger := Ledger {
  l_tables : tables;
  l_height : Z;
  rescan_tx : option tables;
  rescan_count : Z;
  rescan_target : Z;
}.
Definition with_tables (l : ledger) (t : tables) : ledger :=
  Ledger t (l_height l) (rescan_tx l) (rescan_count l) (rescan_target l).
Definition with_height (l : ledger) (h : Z) : ledger :=
  Ledger (l_tables l) h (rescan_tx l) (rescan_count l) (rescan_target l).

Inductive recipient := EthAddress (a : bytes) | OxenAddress (a : account_public_address).

#[global] Instance accrued_row_eq_dec : EqDecision accrued_row.
Proof. solve_decision. Defined.
#[global] Instance recipient_eq_dec : EqDecision recipient.
Proof. unfold bytes. solve_decision. Defined.
#[global] Instance recipient_countable : Countable recipient.
Proof.
  apply (inj_countable'
    (fun r => match r with
              | EthAddress a => inl a
              | OxenAddress a => inr (m_spend_public_key a, m_view_public_key a)
              end)
    (fun s : list Z + list Z * list Z => match s with
              | inl a => EthAddress a
              | inr (s, v) => OxenAddress (AccountAddress s v)
              end)).
  by intros [|[]].
Defined.

(** The bytes of the variant, which are the key of its row. *)
Definition recipient_blob (r : recipient) : bytes :=
  match r with EthAddress a => a | OxenAddress a => address_blob a end.

Record sql_payment := SqlPayment { sp_amount : reward_money; sp_liquidation : reward_money }.
Definition no_payment : sql_payment := SqlPayment zero_money zero_money.
Abbreviation block_payments := (gmap recipient sql_payment).

Record batch_sn_payment := BatchPayment { bp_address : account_public_address; bp_amount : reward_money }.

(** What the ledger reads of a block besides the header: [block.reward] and the outputs of
    [miner_tx], none if there is no such transaction. *)
Record coinbase := Coinbase { cb_reward : Z; cb_vouts : list (bytes * Z) }.

Definition modulus (a : account_public_address) (interval : Z) : Z :=
  if interval =? 0 then 0 else load_le (take 8 (m_view_public_key a)) mod interval.

(** ** Programs over the ledger *)

Definition db (A : Type) : Type := ledger -> option A * ledger.
#[export] Instance db_ret : MRet db := fun A x l => (Some x, l).
#[export] Instance db_bind : MBind db := fun A B f m l =>
  match m l with
  | (Some x, l') => f x l'
  | (None, l') => (None, l')
  end.

Definition get_ledger : db ledger := fun l => (Some l, l).
Definition or_throw {A} (o : option A) : db A := fun l => (o, l).
Definition statement (f : tables -> option tables) : db () := fun l =>
  match f (l_tables l) with
  | Some t => (Some tt, with_tables l t)
  | None => (None, l)
  end.
Fixpoint for_each {A} (f : A -> db ()) (xs : list A) : db () :=
  match xs with
  | [] => mret tt
  | x :: xs => f x ≫= fun _ => for_each f xs
  end.

(** The [try] block with its transaction ([begin_tx]): [false] and an exception roll back,
    unless the transaction of a rescan is running. *)
Definition in_transaction (m : db bool) : db bool := fun l =>
  match rescan_tx l, m l with
  | _, (Some true, l') => (Some true, l')
  | Some _, (_, l') => (Some false, l')
  | None, (_, l') => (Some false, with_tables l' (l_tables l))
  end.

(** ** Statements *)

Definition check_amount (r : accrued_row) : bool := 0 <=? amount r.

(** [INSERT ... ON CONFLICT (address) DO UPDATE]: the check is made for the row to insert, then
    for the updated one. *)
Definition upsert (key : bytes) (new : accrued_row) (merge : accrued_row -> accrued_row -> accrued_row)
    (t : tables) : option tables :=
  let row := match accrued t !! key with Some old => merge old new | None => new end in
  if check_amount new && check_amount row then Some (with_accrued t (<[key := row]> (accrued t)))
  else None.

(** [UPDATE ... WHERE address = ?] *)
Definition update_row (key : bytes) (f : accrued_row -> accrued_row) (t : tables) : option tables :=
  match accrued t !! key with
  | Some old => if check_amount (f old) then Some (with_accrued t (<[key := f old]> (accrued t))) else None
  | None => Some t
  end.

Definition add_amount (r : accrued_row) (x : Z) : accrued_row :=
  AccruedRow (amount r + x) (payout_offset r) (lifetime_locked_stakes r) (lifetime_unlocked_stakes r)
    (lifetime_liquidated_stakes r) (lifetime_rewards r).
Definition add_reward (old new : accrued_row) : accrued_row :=
  AccruedRow (amount old + amount new) (payout_offset old) (lifetime_locked_stakes old)
    (lifetime_unlocked_stakes old) (lifetime_liquidated_stakes old)
    (lifetime_rewards old + lifetime_rewards new).
Definition add_unlocked (old new : accrued_row) : accrued_row :=
  AccruedRow (amount old + amount new) (payout_offset old) (lifetime_locked_stakes old)
    (lifetime_unlocked_stakes old + lifetime_unlocked_stakes new)
    (lifetime_liquidated_stakes old + lifetime_liquidated_stakes new) (lifetime_rewards old).
Definition add_locked (r : accrued_row) (x : Z) : accrued_row :=
  AccruedRow (amount r) (payout_offset r) (lifetime_locked_stakes r + x) (lifetime_unlocked_stakes r)
    (lifetime_liquidated_stakes r) (lifetime_rewards r).

Definition rows_at (m : gmap Z balances) (h : Z) : balances := default ∅ (m !! h).

(** [INSERT INTO ... SELECT ..., height], with the primary key of address and height. *)
Definition insert_rows (h : Z) (rows : balances) (m : gmap Z balances) : option (gmap Z balances) :=
  if bool_decide (dom (rows_at m h) ∩ dom rows =@{gset bytes} ∅)
  then Some (<[h := rows_at m h ∪ rows]> m) else None.

Definition keep_from (lo : Z) (m : gmap Z balances) : gmap Z balances := filter (fun e => lo <= e.1) m.
Definition keep_to (hi : Z) (m : gmap Z balances) : gmap Z balances := filter (fun e => e.1 <= hi) m.

Definition same_key (a b : delayed_row) : bool :=
  (dr_block_height a =? dr_block_height b) && (dr_block_tx_index a =? dr_block_tx_index b)
  && (dr_contributor_index a =? dr_contributor_index b).

Definition insert_delayed (r : delayed_row) (t : tables) : option tables :=
  if (0 <=? dr_amount r) && (0 <=? dr_payout_height r) && (0 <=? dr_height r) && (0 <=? dr_block_height r)
     && (0 <=? dr_block_tx_index r) && (0 <=? dr_contributor_index r)
     && negb (existsb (same_key r) (delayed t))
  then Some (with_delayed t (delayed t ++ [r])) else None.

Inductive payment_table_type := table_nil | table_archive | table_recent.

Section Ledger.
Context (fk : list hard_fork) (nettype : network_type) (conf : network_config).
Context (cn_fast_hash : bytes -> bytes) (check_key : bytes -> bool).
(** [get_deterministic_output_key] with the key pair of a height, and the addresses registered
    for the transition to the L2 network. *)
Context (output_key : Z -> account_public_address -> Z -> option bytes).
Context (registered_for_transition : Z -> account_public_address -> bool).

(** *** Height and history *)

(** The triggers [make_recent], [make_archive] and [clear_recent_and_archive]. *)
Definition make_recent (h : Z) (t : tables) : option tables :=
  recent ← insert_rows h (accrued t) (accrued_recent t);
  Some (Tables (accrued t) (keep_from (h - HISTORY_RECENT_KEEP_WINDOW conf) recent) (accrued_archive t)
          (delayed t) (info_height t)).

Definition make_archive (h : Z) (t : tables) : option tables :=
  if h mod HISTORY_ARCHIVE_INTERVAL conf =? 0 then
    archive ← insert_rows h (accrued t) (accrued_archive t);
    Some (Tables (accrued t) (accrued_recent t) (keep_from (h - HISTORY_ARCHIVE_KEEP_WINDOW conf) archive)
            (filter (fun r => h - HISTORY_ARCHIVE_KEEP_WINDOW conf <= dr_payout_height r) (delayed t))
            (info_height t))
  else Some t.

Definition clear_recent_and_archive (h : Z) (t : tables) : tables :=
  Tables (accrued t) (keep_to h (accrued_recent t)) (keep_to h (accrued_archive t))
    (filter (fun r => dr_height r <= h) (delayed t)) (info_height t).

(** [UPDATE batch_db_info SET height = ?] *)
Definition update_info (h : Z) (t : tables) : option tables :=
  let old := info_height t in
  let t := Tables (accrued t) (accrued_recent t) (accrued_archive t) (delayed t) h in
  if old <? h then make_recent h t ≫= make_archive h
  else if h <? old then Some (clear_recent_and_archive h t)
  else Some t.

Definition update_height (h : Z) : db () := fun l => statement (update_info h) (with_height l h).

Definition reset_database : db () := fun l => update_height 0 (with_tables l empty_tables).

Definition rescan_start : db () := fun l =>
  let t := default (l_tables l) (rescan_tx l) in
  (Some tt, Ledger t (l_height l) (Some t) (rescan_count l) (rescan_target l)).
Definition rescan_stop : db () := fun l =>
  (Some tt, match rescan_tx l with
            | Some _ => Ledger (l_tables l) (l_height l) None 0 (rescan_target l)
            | None => l
            end).
Definition set_rescan_target (h : Z) : db () := fun l =>
  (Some tt, Ledger (l_tables l) (l_height l) (rescan_tx l) (rescan_count l) h).

(** [DELETE FROM batched_payments_accrued], and the rows of one height instead. *)
Definition restore (m : gmap Z balances) (h : Z) (t : tables) : option tables :=
  Some (with_accrued t (rows_at m h)).

Definition blockchain_detached (history : payment_table_type) (new_height target_height : Z) : db () :=
  l ← get_ledger;
  _ ← (if new_height =? l_height l then mret tt
       else match history with
            | table_nil => reset_database
            | table_archive => statement (fun t => restore (accrued_archive t) new_height t)
            | table_recent => statement (fun t => restore (accrued_recent t) new_height t)
            end);
  _ ← update_height new_height;
  if u64 (new_height + 5000) <? target_height
  then set_rescan_target target_height ≫= fun _ => rescan_start
  else mret tt.

Definition batch_payments_accrued_has_any (recent : bool) (h : Z) (l : ledger) : bool :=
  bool_decide (rows_at (if recent then accrued_recent (l_tables l) else accrued_archive (l_tables l)) h <> ∅).

(** *** Rewards *)

(** The row inserted for one payment. *)
Definition insert_payment (hf_version : hf) (rewards_payment : bool) (p : recipient * sql_payment) : db () :=
  let amt := money_sub (sp_amount p.2) (sp_liquidation p.2) in
  let x := to_db_amount amt hf_version in
  let key := recipient_blob p.1 in
  if hf21_eth <=? hf_version then
    if rewards_payment then statement (upsert key (AccruedRow x None 0 0 0 x) add_reward)
    else statement (upsert key (AccruedRow x None 0 (to_db_atomic amt) (to_db_atomic (sp_liquidation p.2)) 0)
                      add_unlocked)
  else
    match p.1 with
    | OxenAddress a =>
        statement (upsert key (AccruedRow x (Some (modulus a (BATCHING_INTERVAL conf))) 0 0 0 0)
                     (fun old new => add_amount old (amount new)))
    | EthAddress _ => or_throw None
    end.

Definition add_sn_rewards (hf_version : hf) (payments : block_payments) (rewards_payment : bool) : db () :=
  for_each (insert_payment hf_version rewards_payment) (map_to_list payments).

(** [payments[to].amount += x] *)
Definition pay (to : recipient) (x : reward_money) (payments : block_payments) : block_payments :=
  let old := default no_payment (payments !! to) in
  <[to := SqlPayment (money_add (sp_amount old) x) (sp_liquidation old)]> payments.

Definition uses_eth_address (hf_version : hf) (info : service_node_info) : bool :=
  (hf21_eth <=? hf_version)
  && negb (bool_decide (nettype = LOCALDEV) && bool_decide (operator_ethereum_address info = null_bytes 20)).

Definition fee_recipient (use_eth : bool) (info : service_node_info) : recipient :=
  if use_eth then EthAddress (match contributors info with
                              | c :: _ => ethereum_beneficiary c
                              | [] => operator_ethereum_address info
                              end)
  else OxenAddress (operator_address info).
Definition share_recipient (use_eth : bool) (c : contributor_t) : recipient :=
  if use_eth then EthAddress (ethereum_beneficiary c) else OxenAddress (contributor_address c).

(** A payment of zero makes no entry. *)
Definition pay_positive (to : recipient) (x : reward_money) (payments : block_payments) : block_payments :=
  if money_ltb zero_money x then pay to x payments else payments.

Definition operator_fee (milli_amount : Z) (info : service_node_info) : reward_money :=
  from_intermediate (Int128.mul128_div64 (portions_for_operator info) milli_amount STAKING_PORTIONS).
Definition contributor_reward (post_fee : Z) (info : service_node_info) (c : contributor_t) : reward_money :=
  from_intermediate (Int128.mul128_div64 (contributor_amount c) post_fee (staking_requirement info)).

Definition add_rewards (hf_version : hf) (distribution_amount : reward_money) (info : service_node_info)
    (payments : block_payments) : option block_payments :=
  milli_amount ← to_intermediate distribution_amount;
  let fee := operator_fee milli_amount info in
  let use_eth := uses_eth_address hf_version info in
  let payments := pay_positive (fee_recipient use_eth info) fee payments in
  post_fee ← to_intermediate (money_sub distribution_amount fee);
  Some (foldl (fun ps c => pay_positive (share_recipient use_eth c) (contributor_reward post_fee info c) ps)
          payments (contributors info)).

Definition chars (s : string) : bytes := (fun a => Z.of_N (Ascii.N_of_ascii a)) <$> String.list_ascii_of_string s.

Definition null_address : account_public_address := AccountAddress (null_bytes 32) (null_bytes 32).
Definition governance_address (hf_version : hf) : account_public_address :=
  match get_account_address_from_str cn_fast_hash check_key nettype
          (chars (governance_wallet_address conf hf_version)) with
  | Some info => address info
  | None => null_address
  end.

Definition governance_reward_formula (hf_version : hf) (base_reward : Z) : Z :=
  if feature_ETH_BLS <=? hf_version then 0
  else if hf19_reward_batching <=? hf_version then FOUNDATION_REWARD_HF19
  else if hf17 <=? hf_version then FOUNDATION_REWARD_HF17
  else if hf16_pulse <=? hf_version then FOUNDATION_REWARD_HF15 + CHAINFLIP_LIQUIDITY_HF16
  else if hf15_ons <=? hf_version then FOUNDATION_REWARD_HF15
  else base_reward / 20.

(** The same reward for every node of a list. *)
Fixpoint pay_nodes (hf_version : hf) (x : reward_money) (infos : gmap bytes service_node_info)
    (keys : list bytes) (payments : block_payments) : option block_payments :=
  match keys with
  | [] => Some payments
  | key :: keys =>
      info ← infos !! key;
      payments ← add_rewards hf_version x info payments;
      pay_nodes hf_version x infos keys payments
  end.

(** Fees to the producer of a pulse block, and the governance's share: before the L2 network. *)
Definition base_sn_reward : reward_money := from_coin SN_REWARD_HF19.
Definition pay_fees (b : block) (st : state_t) (producer : bytes) (reward : reward_money)
    : option block_payments :=
  if money_ltb reward base_sn_reward then None
  else
    let fees := money_sub reward base_sn_reward in
    if match to_intermediate fees with Some x => 0 <? x | None => false end
       && has_pulse b && negb (bool_decide (producer = null_bytes 32))
    then
      info ← service_nodes_infos st !! producer;
      add_rewards (major_version b) fees info ∅
    else Some ∅.
Definition pay_governance (hf_version : hf) (payments : block_payments) : block_payments :=
  if bool_decide (nettype = FAKECHAIN) then payments
  else pay (OxenAddress (governance_address hf_version)) (from_coin (governance_reward_formula hf_version 0))
         payments.

(** What a block pays. *)
Definition rewards_of (b : block) (reward : Z) (st : state_t) (producer : bytes) (payable : list bytes)
    : option block_payments :=
  if UINT64_MAX / BATCH_REWARD_FACTOR <? reward then None
  else
    '(reward, payments) ←
      (if major_version b <? feature_ETH_BLS then
         payments ← pay_fees b st producer (from_coin reward);
         Some (base_sn_reward, pay_governance (major_version b) payments)
       else Some (from_coin reward, ∅));
    let per_sn := if (length payable =? 0)%nat then zero_money
                  else money_div reward (Z.of_nat (length payable)) in
    pay_nodes (major_version b) per_sn (service_nodes_infos st) payable payments.

(** [get_delayed_payments]: the rows that are due, summed by address. *)
Definition add_due (ps : block_payments) (r : delayed_row) : block_payments :=
  let old := default no_payment (ps !! EthAddress (dr_eth_address r)) in
  <[EthAddress (dr_eth_address r) :=
      SqlPayment (money_add (sp_amount old) (from_db_atomic (dr_amount r)))
        (money_add (sp_liquidation old) (from_db_atomic (dr_liquidation_amount r)))]> ps.
Definition sum_delayed (rows : list delayed_row) : block_payments := foldl add_due ∅ rows.
Definition get_delayed_payments (payout_height : Z) (l : ledger) : block_payments :=
  sum_delayed (filter (fun r => dr_payout_height r = payout_height) (delayed (l_tables l))).

Definition reward_handler (b : block) (reward : Z) (st : state_t) (producer : bytes) (ba : block_add_result)
    : db () :=
  payments ← or_throw (rewards_of b reward st producer (payable_nodes_hf19_onwards ba));
  l ← get_ledger;
  _ ← (if hf21_eth <=? major_version b
       then add_sn_rewards (major_version b) (get_delayed_payments (b_height b) l) false
       else mret tt);
  add_sn_rewards (major_version b) payments true.

(** *** Stakes *)

Definition submit_stakes_metadata (ba : block_add_result) : db () :=
  _ ← for_each (fun s => statement (upsert (es_addr s) (AccruedRow 0 None (to_db_atomic (es_amount s)) 0 0 0)
                                      (fun old new => add_locked old (lifetime_locked_stakes new))))
        (locked_stakes (ba_stakes ba));
  for_each (fun s => statement (update_row (es_addr s) (fun r => add_locked r (- to_db_atomic (es_amount s)))))
    (purged_stakes (ba_stakes ba)).

Definition delayed_row_of (at_height delay_blocks : Z) (s : eth_stake) : delayed_row :=
  DelayedRow (es_addr s) (to_db_atomic (es_amount s))
    (at_height + (if 0 <? delay_blocks then delay_blocks else 1)) at_height (es_block_height s)
    (es_tx_index s) (es_contributor_index s) (to_db_atomic (es_liquidation s)).
Definition add_delayed_payments (payments : list eth_stake) (at_height delay_blocks : Z) : db bool :=
  in_transaction
    (_ ← for_each (fun s => statement (insert_delayed (delayed_row_of at_height delay_blocks s))) payments;
     mret true).

(** At the first block of [hf22_eth_fixup]. *)
Definition convert_row (r : accrued_row) : accrued_row :=
  AccruedRow (Z.quot (amount r) BATCH_REWARD_FACTOR) (payout_offset r) (lifetime_locked_stakes r)
    (lifetime_unlocked_stakes r) (lifetime_liquidated_stakes r) (Z.quot (lifetime_rewards r) BATCH_REWARD_FACTOR).
Definition convert_hf22 : db () :=
  statement (fun t => if forallb (fun e => check_amount (convert_row e.2)) (map_to_list (accrued t))
                      then Some (with_accrued t (convert_row <$> accrued t)) else None).

(** *** Payments in the miner transaction *)

(** [SELECT address, amount ... ORDER BY address ASC] for the amounts that qualify; a key that is
    no account address is an exception. *)
Definition rows_by_address (qualifies : Z -> bool) (m : balances) : option (list (account_public_address * Z)) :=
  mapM (fun e : bytes * Z => a ← parse_address e.1; Some (a, e.2))
    (sort_by (fun a b => bytes_ltb a.1 b.1)
       (filter (fun e => qualifies e.2 = true) ((fun e => (e.1, amount e.2)) <$> map_to_list m))).

Definition is_final_payout (h : Z) : bool :=
  match hard_fork_begins fk nettype hf21_eth with
  | Some begins => (h =? u64 (begins - 1)) && negb (bool_decide (nettype = TESTNET))
  | None => false
  end.

Definition payment_of (hf_version : hf) (e : account_public_address * Z) : batch_sn_payment :=
  BatchPayment e.1 (truncate (from_db_amount e.2 hf_version)).
Definition due_in_slot (interval h : Z) (rows : list (account_public_address * Z))
    : list (account_public_address * Z) :=
  filter (fun e => modulus e.1 interval = h mod interval) rows.
Definition due_finally (hf_version : hf) (h : Z) (rows : list (account_public_address * Z))
    : list (account_public_address * Z) :=
  filter (fun e => negb (registered_for_transition h e.1)
                   && (0 <? to_coin (from_db_amount e.2 hf_version)) = true) rows.

Definition get_sn_payments (h : Z) (l : ledger) : option (list batch_sn_payment) :=
  if negb (bool_decide (nettype = FAKECHAIN))
     && (h <=? default 0 (hard_fork_begins fk nettype hf19_reward_batching)) then Some []
  else
    let hf_version := get_network_version fk nettype h in
    let interval := batching_interval conf hf_version in
    let min := min_batch_payment_amount conf hf_version * BATCH_REWARD_FACTOR in
    slot ← rows_by_address (fun x => min <=? x) (accrued (l_tables l));
    due ← (if is_final_payout h
           then due_finally hf_version h <$> rows_by_address (fun _ => true) (accrued (l_tables l))
           else Some (due_in_slot interval h slot));
    Some (payment_of hf_version <$> due).

(** The outputs of the block, one by one against the payments that are due. *)
Fixpoint outputs_match (h index : Z) (vouts : list (bytes * Z)) (payments : list batch_sn_payment) : bool :=
  match vouts, payments with
  | (pubkey, amt) :: vouts, p :: payments =>
      if negb (money_eqb (from_coin amt) (bp_amount p)) then false
      else match output_key h (bp_address p) index with
           | None => false
           | Some key => if bool_decide (pubkey = key) then outputs_match h (index + 1) vouts payments else false
           end
  | _, _ => true
  end.
Definition total_of (amounts : list reward_money) : Z := foldl (fun sum m => u64 (sum + to_coin m)) 0 amounts.

Fixpoint save_each (paid : list batch_sn_payment) : db bool :=
  match paid with
  | [] => mret true
  | p :: paid =>
      l ← get_ledger;
      match accrued (l_tables l) !! address_blob (bp_address p) with
      | None => mret false
      | Some row =>
          if negb (money_eqb (truncate (from_db_amount (amount row) hf20_eth_transition)) (bp_amount p))
          then mret false
          else
            _ ← statement (update_row (address_blob (bp_address p))
                             (fun r => add_amount r (- to_db_amount (bp_amount p) hf20_eth_transition)));
            save_each paid
      end
  end.
Definition delete_empty (t : tables) : option tables :=
  Some (with_accrued t (filter (fun e => amount e.2 <> 0) (accrued t))).
Definition save_payments (paid : list batch_sn_payment) : db bool :=
  ok ← save_each paid;
  if negb ok then mret false
  else if (length paid =? 0)%nat then mret true
  else statement delete_empty ≫= fun _ => mret true.

Definition validate_batch_payment (vouts : list (bytes * Z)) (payments : list batch_sn_payment) (h : Z)
    (skip_verify : bool) : db bool :=
  if negb skip_verify
     && (negb (length vouts =? length payments)%nat || negb (outputs_match h 0 vouts payments)
         || negb (total_of (from_coin <$> vouts.*2) =? total_of (bp_amount <$> payments)))
  then mret false
  else save_payments payments.

(** *** A block *)

Definition count_rescan : db () := fun l =>
  (Some tt, Ledger (l_tables l) (l_height l) (rescan_tx l) (rescan_count l + 1) (rescan_target l)).

(** After a block of a rescan: the transaction is renewed every hundred blocks. *)
Definition renew_rescan : db () :=
  l ← get_ledger;
  match rescan_tx l with
  | None => mret tt
  | Some _ =>
      _ ← count_rescan;
      if (100 <=? rescan_count l + 1) || (rescan_target l <=? l_height l) then
        _ ← rescan_stop;
        if l_height l <? rescan_target l then rescan_start else mret tt
      else mret tt
  end.

Definition add_rewards_of_block (b : block) (cb : coinbase) (st : state_t) (producer : bytes) (ba : block_add_result)
    (skip_verify : bool) (payments : list batch_sn_payment) : db bool :=
  in_transaction
    (ok ← validate_batch_payment (cb_vouts cb) payments (b_height b) skip_verify;
     if negb ok then mret false
     else
       _ ← reward_handler b (cb_reward cb) st producer ba;
       _ ← (if hf21_eth <=? major_version b then submit_stakes_metadata ba else mret tt);
       l ← get_ledger;
       _ ← update_height (l_height l + 1);
       _ ← renew_rescan;
       mret true).

(** [producer] is [get_block_producer()] of the state. *)
Definition add_block (b : block) (cb : coinbase) (st : state_t) (producer : bytes) (ba : block_add_result)
    (skip_verify : bool) : db bool :=
  if major_version b <? hf19_reward_batching then update_height (b_height b) ≫= fun _ => mret true
  else
    _ ← (if b_height b =? default 0 (hard_fork_begins fk nettype hf19_reward_batching)
         then reset_database ≫= fun _ => update_height (b_height b - 1)
         else mret tt);
    l ← get_ledger;
    if negb (b_height b =? l_height l + 1) then mret false
    else
      payments ← (if major_version b <? feature_ETH_BLS then or_throw (get_sn_payments (b_height b) l)
                  else mret []);
      add_rewards_of_block b cb st producer ba skip_verify payments.

(** *** What an address is told *)

Record wallet_info := WalletInfo {
  wi_height : Z;
  wi_found : bool;
  wi_amount : reward_money;
  wi_lifetime_locked_stakes : reward_money;
  wi_lifetime_unlocked_stakes : reward_money;
  wi_lifetime_liquidated_stakes : reward_money;
  wi_lifetime_rewards : reward_money;
  wi_locked_stakes : reward_money;
  wi_timelocked_stakes : reward_money;
}.
Definition not_found (h : Z) (found : bool) : wallet_info :=
  WalletInfo h found zero_money zero_money zero_money zero_money zero_money zero_money zero_money.

Definition timelocked (addr : bytes) (l : ledger) : reward_money :=
  match sum_delayed (filter (fun r => dr_eth_address r = addr /\ l_height l < dr_payout_height r)
                       (delayed (l_tables l))) !! EthAddress addr with
  | Some p => if money_ltb (sp_amount p) (sp_liquidation p) then zero_money
              else money_sub (sp_amount p) (sp_liquidation p)
  | None => zero_money
  end.

Definition wallet_info_of (addr : bytes) (row : option accrued_row) (hf_version : option hf) (l : ledger)
    : wallet_info :=
  match row with
  | None => not_found (l_height l) false
  | Some r =>
      let v := default (get_network_version fk nettype (l_height l)) hf_version in
      let locked := from_db_atomic (lifetime_locked_stakes r) in
      let unlocked := from_db_atomic (lifetime_unlocked_stakes r) in
      let liquidated := from_db_atomic (lifetime_liquidated_stakes r) in
      WalletInfo (l_height l) true (from_db_amount (amount r) v) locked unlocked liquidated
        (from_db_amount (lifetime_rewards r) v) (money_sub (money_sub locked unlocked) liquidated)
        (if (length addr =? 20)%nat then timelocked addr l else zero_money)
  end.

Definition get_accrued_rewards (addr : bytes) (hf_version : option hf) (l : ledger) : wallet_info :=
  wallet_info_of addr (accrued (l_tables l) !! addr) hf_version l.

(** [MIN(height)] of the rows that are there. *)
Definition oldest_recent (l : ledger) : Z :=
  match (filter (fun e : Z * balances => e.2 <> ∅) (map_to_list (accrued_recent (l_tables l)))).*1 with
  | [] => 0
  | h :: hs => foldl Z.min h hs
  end.
Definition get_accrued_rewards_at (addr : bytes) (at_height : Z) (l : ledger) : wallet_info :=
  if l_height l <? at_height then not_found 0 false
  else if at_height =? l_height l then get_accrued_rewards addr None l
  else match rows_at (accrued_recent (l_tables l)) at_height !! addr with
       | Some row => wallet_info_of addr (Some row) None l
       | None => if at_height <? oldest_recent l then not_found 0 false else not_found (oldest_recent l) true
       end.
End Ledger.
