(* ===== verification/LedgerHistory.v ===== *)
(** * The history of the reward ledger

    The tables of [Ledger] keep copies of the balances so that a reorganisation can go back.  The
    abstract ledger is a stack of snapshots, one per block of the current chain: a block pushes
    one, a detach pops.  The tables are shown to represent that stack over every run of blocks,
    refused blocks, delayed payments and detaches, so that a detach finds the balances and the
    pending payments as they were. *)
From stdpp Require Import gmap strings.
From S2P Require Import Prelude IntUtil Order Hardfork Config Address Reward Rules Voting Transactions L2Votes NodeProof.
From S2P Require Import ServiceNode NodeList Staking Events BlockUpdate Money Ledger.
#[local] Open Scope Z_scope.

(** ** Which parts of the ledger a program changes *)

(** Every run of the program, also one that ends in an exception, is in the relation. *)
Definition keeps_to (R : relation ledger) {A} (m : db A) : Prop := forall l, R l (m l).2.

Section Frames.
Context (R : relation ledger) `{!Reflexive R, !Transitive R}.

Lemma keeps_ret {A} (x : A) : keeps_to R (mret x : db A).
Proof using Type*. intros l. reflexivity. Qed.
Lemma keeps_get : keeps_to R get_ledger.
Proof using Type*. intros l. reflexivity. Qed.
Lemma keeps_throw {A} (o : option A) : keeps_to R (or_throw o).
Proof using Type*. intros l. reflexivity. Qed.
Lemma keeps_bind {A B} (m : db A) (f : A -> db B) :
  keeps_to R m -> (forall x, keeps_to R (f x)) -> keeps_to R (m ≫= f).
Proof using Type*.
  intros Hm Hf l. unfold mbind, db_bind. specialize (Hm l). destruct (m l) as [[x|] l']; [|done].
  etransitivity; [exact Hm|apply Hf].
Qed.
Lemma keeps_for_each {A} (f : A -> db ()) xs : (forall x, keeps_to R (f x)) -> keeps_to R (for_each f xs).
Proof using Type*.
  intros Hf. induction xs as [|x xs IH]; [apply keeps_ret|]. apply keeps_bind; [apply Hf|by intros []].
Qed.
Lemma keeps_transaction (m : db bool) :
  (forall l l', R l l' -> R l (with_tables l' (l_tables l))) -> keeps_to R m -> keeps_to R (in_transaction m).
Proof using Type.
  intros Hback Hm l. specialize (Hm l). unfold in_transaction.
  destruct (rescan_tx l), (m l) as [[[]|] l']; cbn in *; auto.
Qed.
End Frames.

(** [frame] takes a program apart. *)
Create HintDb frame.
Ltac frame :=
  repeat first
    [ progress (auto with nocore frame)
    | apply keeps_ret; typeclasses eauto | apply keeps_get; typeclasses eauto
    | apply keeps_throw; typeclasses eauto
    | apply keeps_bind; [typeclasses eauto..| |intros ?]
    | apply keeps_for_each; [typeclasses eauto..|intros ?]
    | case_match ].

(** Only balances. *)
Definition only_balances : relation ledger :=
  fun l l' => l' = with_tables l (with_accrued (l_tables l) (accrued (l_tables l'))).

#[export] Instance only_balances_refl : Reflexive only_balances.
Proof. by intros [[] ????]. Qed.
#[export] Instance only_balances_trans : Transitive only_balances.
Proof. intros x y z Hxy Hyz. unfold only_balances in *. rewrite Hyz at 1. rewrite Hxy. done. Qed.

Lemma statement_balances f :
  (forall t t', f t = Some t' -> t' = with_accrued t (accrued t')) -> keeps_to only_balances (statement f).
Proof.
  intros Hf l. unfold statement. destruct (f (l_tables l)) as [t|] eqn:E; [|reflexivity].
  unfold only_balances. cbn. by rewrite <- (Hf _ _ E).
Qed.

Lemma upsert_balances key new merge : keeps_to only_balances (statement (upsert key new merge)).
Proof. apply statement_balances. unfold upsert. intros t t'. case_match; by intros [= <-]. Qed.
Lemma update_row_balances key f : keeps_to only_balances (statement (update_row key f)).
Proof.
  apply statement_balances. unfold update_row. intros t t'. case_match; [case_match|]; intros [= <-]; try done.
  by destruct t.
Qed.

#[export] Hint Resolve upsert_balances update_row_balances : frame.

Lemma add_sn_rewards_balances conf v ps rewards : keeps_to only_balances (add_sn_rewards conf v ps rewards).
Proof. unfold add_sn_rewards, insert_payment. frame. Qed.

Lemma submit_stakes_balances ba : keeps_to only_balances (submit_stakes_metadata ba).
Proof. unfold submit_stakes_metadata. frame. Qed.

Lemma save_each_balances ps : keeps_to only_balances (save_each ps).
Proof. induction ps as [|p ps IH]; cbn [save_each]; frame. Qed.

Lemma delete_empty_balances : keeps_to only_balances (statement delete_empty).
Proof. apply statement_balances. by intros t t' [= <-]. Qed.

#[export] Hint Resolve add_sn_rewards_balances submit_stakes_balances save_each_balances delete_empty_balances : frame.

Lemma validate_balances output_key vouts ps h skip :
  keeps_to only_balances (validate_batch_payment output_key vouts ps h skip).
Proof. unfold validate_batch_payment, save_payments. frame. Qed.

Lemma reward_handler_balances nt conf cn ck b r st p ba :
  keeps_to only_balances (reward_handler nt conf cn ck b r st p ba).
Proof. unfold reward_handler. frame. Qed.

#[export] Hint Resolve validate_balances reward_handler_balances : frame.

(** ** The abstract ledger *)

Record snapshot := Snapshot {
  sn_height : Z;
  sn_balances : balances;
  sn_delayed : list delayed_row;
}.

(** The snapshots that a detach to height [h] leaves. *)
Definition popped (h : Z) (chain : list snapshot) : list snapshot := filter (fun s => sn_height s <= h) chain.

(** Newest first. *)
Definition descending (chain : list snapshot) : Prop :=
  StronglySorted (fun a b => sn_height b < sn_height a) chain.

(** Copies of balances agree with the chain, and from height [lo] on those of the chosen heights
    are complete. *)
Record copies (chain : list snapshot) (wanted : Z -> Prop) (lo : Z) (m : gmap Z balances) : Prop := {
  co_complete : forall s, s ∈ chain -> wanted (sn_height s) -> lo <= sn_height s ->
    rows_at m (sn_height s) = sn_balances s;
  co_sound : forall h, rows_at m h <> ∅ -> exists s, s ∈ chain /\ sn_height s = h /\ rows_at m h = sn_balances s;
}.

(** A payment that was added by then and is not due yet. *)
Definition pending_at (s : snapshot) (r : delayed_row) : Prop :=
  dr_height r <= sn_height s < dr_payout_height r.

Section Represents.
Context (conf : network_config).

(** [peak] is the greatest height reached since the start. *)
Record represents (peak : Z) (chain : list snapshot) (l : ledger) : Prop := {
  rp_descending : descending chain;
  rp_top : exists s, head chain = Some s /\ sn_height s = l_height l /\ accrued (l_tables l) = sn_balances s;
  rp_info : info_height (l_tables l) = l_height l;
  rp_peak : l_height l <= peak;
  rp_recent : copies chain (fun _ => True) (peak - HISTORY_RECENT_KEEP_WINDOW conf) (accrued_recent (l_tables l));
  rp_archive : copies chain (fun h => h mod HISTORY_ARCHIVE_INTERVAL conf = 0)
                 (peak - HISTORY_ARCHIVE_KEEP_WINDOW conf) (accrued_archive (l_tables l));
  rp_delayed : forall s r, s ∈ chain -> peak - HISTORY_ARCHIVE_KEEP_WINDOW conf <= sn_height s -> pending_at s r ->
    r ∈ delayed (l_tables l) <-> r ∈ sn_delayed s;
}.

(** A ledger without history. *)
Definition blank (h : Z) (l : ledger) : Prop :=
  l_height l = h /\ info_height (l_tables l) = h /\ accrued (l_tables l) = ∅ /\ delayed (l_tables l) = [] /\
  (forall h', rows_at (accrued_recent (l_tables l)) h' = ∅) /\ (forall h', rows_at (accrued_archive (l_tables l)) h' = ∅).

(** *** Copies *)

Lemma rows_at_insert m h rows h' : rows_at (<[h := rows]> m) h' = if decide (h = h') then rows else rows_at m h'.
Proof using Type. unfold rows_at. rewrite lookup_insert. by case_decide. Qed.

Lemma rows_at_keep (P : Z * balances -> Prop) `{forall e, Decision (P e)} m h :
  (forall rows rows', P (h, rows) -> P (h, rows')) ->
  rows_at (filter P m) h = if decide (P (h, ∅)) then rows_at m h else ∅.
Proof using Type.
  intros HP. unfold rows_at. rewrite map_lookup_filter. destruct (m !! h) as [rows|] eqn:E; cbn; [|by case_decide].
  case_guard as G1; case_decide as G2; cbn; try done; exfalso; eauto.
Qed.

Lemma chain_below chain l peak s : represents peak chain l -> s ∈ chain -> sn_height s <= l_height l.
Proof using Type.
  intros H Hs. destruct (rp_top _ _ _ H) as (s0 & Hh & E & _). pose proof (rp_descending _ _ _ H) as Hd.
  destruct chain as [|s1 chain]; [done|]. injection Hh as ->. apply StronglySorted_inv in Hd as [_ Hd].
  rewrite Forall_forall in Hd. apply elem_of_cons in Hs as [->|Hs]; [lia|]. specialize (Hd s Hs). cbn in Hd. lia.
Qed.

(** A new copy, and the oldest dropped. *)
Lemma copies_push chain wanted lo m h rows delayed k lo' :
  copies chain wanted lo m -> (forall s, s ∈ chain -> sn_height s < h) -> lo <= lo' -> k <= lo' -> wanted h ->
  exists m', insert_rows h rows m = Some m' /\
    copies (Snapshot h rows delayed :: chain) wanted lo' (keep_from k m').
Proof using Type.
  intros [Hc Hs] Hlt Hlo Hk Hw.
  assert (rows_at m h = ∅) as E.
  { destruct (decide (rows_at m h = ∅)) as [|N]; [done|]. destruct (Hs h N) as (s & Hin & E & _).
    specialize (Hlt s Hin). lia. }
  unfold insert_rows. rewrite E, bool_decide_eq_true_2 by set_solver. eexists. split; [done|].
  rewrite (left_id_L ∅ (∪)). unfold keep_from. split.
  - intros s Hin Hws Hle. rewrite rows_at_keep by done. cbn. rewrite decide_True by lia. rewrite rows_at_insert.
    apply elem_of_cons in Hin as [->|Hin]; [by rewrite decide_True|].
    specialize (Hlt s Hin). rewrite decide_False by lia. apply Hc; [done|done|lia].
  - intros h'. rewrite rows_at_keep by done. cbn. case_decide; [|done]. rewrite rows_at_insert. case_decide as Eh.
    + intros _. exists (Snapshot h rows delayed). split; [by left|done].
    + intros N. destruct (Hs h' N) as (s & Hin & ?). exists s. split; [by right|done].
Qed.

(** A height that is not copied. *)
Lemma copies_skip chain wanted lo m s lo' :
  copies chain wanted lo m -> (forall s', s' ∈ chain -> sn_height s' < sn_height s) -> lo <= lo' -> ~ wanted (sn_height s) ->
  copies (s :: chain) wanted lo' m.
Proof using Type.
  intros [Hc Hs] Hlt Hlo Hw. split.
  - intros s' Hin Hws Hle. apply elem_of_cons in Hin as [->|Hin]; [done|]. apply Hc; [done|done|lia].
  - intros h N. destruct (Hs h N) as (s' & Hin & ?). exists s'. split; [by right|done].
Qed.

Lemma copies_pop chain wanted lo m h :
  copies chain wanted lo m -> copies (popped h chain) wanted lo (keep_to h m).
Proof using Type.
  intros [Hc Hs]. unfold popped, keep_to. split.
  - intros s [Hle Hin]%list_elem_of_filter Hw Hlo. rewrite rows_at_keep by done. cbn. rewrite decide_True by done. auto.
  - intros h'. rewrite rows_at_keep by done. cbn. case_decide; [|done]. intros N. destruct (Hs h' N) as (s & Hin & E & ?).
    exists s. split; [apply list_elem_of_filter; split; [lia|done]|done].
Qed.

(** *** Blocks and detaches *)

Context (Hrecent : 0 <= HISTORY_RECENT_KEEP_WINDOW conf) (Harchive : 0 <= HISTORY_ARCHIVE_KEEP_WINDOW conf).

(** What the triggers make of the tables after a block. *)
Definition kept_delayed (lo : Z) (rows rows' : list delayed_row) : Prop :=
  forall r, lo <= dr_payout_height r -> r ∈ rows' <-> r ∈ rows.

Lemma triggers_after_block peak chain l m :
  represents peak chain l -> let h := l_height l + 1 in let peak' := Z.max peak h in
  exists t, update_info conf h (with_accrued (l_tables l) m) = Some t /\
    accrued t = m /\ info_height t = h /\
    kept_delayed (peak' - HISTORY_ARCHIVE_KEEP_WINDOW conf) (delayed (l_tables l)) (delayed t) /\
    forall d, copies (Snapshot h m d :: chain) (fun _ => True) (peak' - HISTORY_RECENT_KEEP_WINDOW conf) (accrued_recent t) /\
      copies (Snapshot h m d :: chain) (fun h => h mod HISTORY_ARCHIVE_INTERVAL conf = 0)
        (peak' - HISTORY_ARCHIVE_KEEP_WINDOW conf) (accrued_archive t).
Proof using All.
  intros H h peak'.
  assert (forall s, s ∈ chain -> sn_height s < h) as Hlt.
  { intros s Hs. pose proof (chain_below _ _ _ s H Hs). lia. }
  pose proof (fun d => copies_push _ _ _ _ h m d (h - HISTORY_RECENT_KEEP_WINDOW conf)
    (peak' - HISTORY_RECENT_KEEP_WINDOW conf) (rp_recent _ _ _ H) Hlt ltac:(lia) ltac:(lia) I) as Hr.
  pose proof (fun d Hm => copies_push _ _ _ _ h m d (h - HISTORY_ARCHIVE_KEEP_WINDOW conf)
    (peak' - HISTORY_ARCHIVE_KEEP_WINDOW conf) (rp_archive _ _ _ H) Hlt ltac:(lia) ltac:(lia) Hm) as Ha.
  destruct (Hr []) as (recent & Er & _).
  unfold update_info. cbn [info_height with_accrued accrued accrued_recent accrued_archive delayed].
  rewrite (rp_info _ _ _ H), (proj2 (Z.ltb_lt _ _)) by lia. unfold make_recent. cbn [accrued accrued_recent]. rewrite Er.
  cbn [mbind option_bind accrued accrued_archive delayed info_height].
  unfold make_archive. cbn [accrued accrued_recent accrued_archive delayed info_height].
  destruct (Z.eqb_spec (h mod HISTORY_ARCHIVE_INTERVAL conf) 0) as [Em|Em].
  - destruct (Ha [] Em) as (archive & Ea & _). rewrite Ea. cbn [mbind option_bind].
    eexists. split_and!; [done..| |].
    + intros r Hlo. cbn. rewrite list_elem_of_filter. split; [tauto|]. intros Hin. split; [lia|done].
    + intros d. destruct (Hr d) as (? & E1 & C1), (Ha d Em) as (? & E2 & C2). cbn.
      rewrite Er in E1. rewrite Ea in E2. by simplify_eq.
  - eexists. split_and!; [done..| |].
    + by intros r _.
    + intros d. destruct (Hr d) as (? & E1 & C1). rewrite Er in E1. simplify_eq. split; [done|].
      eapply copies_skip; [exact (rp_archive _ _ _ H)|exact Hlt|lia|done].
Qed.

(** The triggers can not fail, and push a snapshot. *)
Lemma represents_push peak chain l m :
  represents peak chain l ->
  exists t, update_info conf (l_height l + 1) (with_accrued (l_tables l) m) = Some t /\ accrued t = m /\
  forall l', l_tables l' = t -> l_height l' = l_height l + 1 ->
    represents (Z.max peak (l_height l + 1)) (Snapshot (l_height l + 1) m (delayed t) :: chain) l'.
Proof using All.
  intros H. destruct (triggers_after_block _ _ _ m H) as (t & E & Hm & Hi & Hd & Hc). exists t. split_and!; [done..|].
  intros l' <- Hh. destruct (Hc (delayed (l_tables l'))) as [Hc1 Hc2].
  split; [|exists (Snapshot (l_height l + 1) m (delayed (l_tables l')))|..]; cbn; try done; try lia.
  - constructor; [apply (rp_descending _ _ _ H)|]. apply Forall_forall. intros s Hs.
    pose proof (chain_below _ _ _ s H Hs). cbn. lia.
  - intros s r Hs Hlo Hr. apply elem_of_cons in Hs as [->|Hs]; [done|]. destruct Hr as [Hr1 Hr2].
    rewrite (Hd r) by lia. apply (rp_delayed _ _ _ H); [done|lia|done].
Qed.

Lemma popped_top chain s :
  descending chain -> s ∈ chain -> exists rest, popped (sn_height s) chain = s :: rest.
Proof using Type.
  intros Hd Hs. unfold popped. induction Hd as [|s' chain Hd IH Hf]; [by apply elem_of_nil in Hs|].
  apply elem_of_cons in Hs as [->|Hs]; rewrite filter_cons.
  - rewrite decide_True by done. by eexists.
  - rewrite Forall_forall in Hf. specialize (Hf s Hs). rewrite decide_False by lia. auto.
Qed.

Lemma popped_all h chain : (forall s, s ∈ chain -> sn_height s <= h) -> popped h chain = chain.
Proof using Type.
  unfold popped. induction chain as [|s chain IH]; intros Hc; [done|]. rewrite filter_cons.
  rewrite decide_True by (apply Hc; by left). f_equal. apply IH. intros s' Hs'. apply Hc. by right.
Qed.

Lemma descending_popped h chain : descending chain -> descending (popped h chain).
Proof using Type.
  unfold descending, popped. induction 1 as [|s chain Hd IH Hf]; [constructor|]. rewrite filter_cons.
  case_decide; [|done]. constructor; [done|]. apply Forall_forall. intros s' [_ Hs]%list_elem_of_filter.
  rewrite Forall_forall in Hf. by apply Hf.
Qed.

(** Going down to a snapshot whose rows were put in place. *)
Lemma represents_pop peak chain l s :
  represents peak chain l -> s ∈ chain ->
  exists t, update_info conf (sn_height s) (with_accrued (l_tables l) (sn_balances s)) = Some t /\
  forall l', l_tables l' = t -> l_height l' = sn_height s -> represents peak (popped (sn_height s) chain) l'.
Proof using Type.
  intros H Hs. pose proof (chain_below _ _ _ s H Hs) as Hle.
  destruct (popped_top _ s (rp_descending _ _ _ H) Hs) as [rest Hpop].
  unfold update_info. cbn [info_height with_accrued accrued accrued_recent accrued_archive delayed].
  rewrite (rp_info _ _ _ H), (proj2 (Z.ltb_ge _ _)) by lia.
  assert (forall l' r, delayed (l_tables l') = filter (fun r => dr_height r <= sn_height s) (delayed (l_tables l)) \/
    delayed (l_tables l') = delayed (l_tables l) -> forall s', s' ∈ popped (sn_height s) chain ->
    pending_at s' r -> r ∈ delayed (l_tables l') <-> r ∈ delayed (l_tables l)) as Hdel.
  { intros l' r [E|E] s' [Hle' _]%list_elem_of_filter [Hr _]; rewrite E; [|done]. rewrite list_elem_of_filter.
    split; [tauto|]. intros Hin. split; [lia|done]. }
  destruct (Z.ltb_spec (sn_height s) (l_height l)) as [Hlt|Hge]; (eexists; split; [reflexivity|]; intros l' El Hh).
  - split; [by apply descending_popped, (rp_descending _ _ _ H)| | | | | |].
    + exists s. rewrite Hpop, El. done.
    + by rewrite El.
    + pose proof (rp_peak _ _ _ H). lia.
    + rewrite El. apply copies_pop, (rp_recent _ _ _ H).
    + rewrite El. apply copies_pop, (rp_archive _ _ _ H).
    + intros s' r Hs' Hlo Hr. rewrite (Hdel l' r) by (try done; left; by rewrite El).
      apply list_elem_of_filter in Hs' as [_ Hs']. by apply (rp_delayed _ _ _ H).
  - assert (sn_height s = l_height l) as Eh by lia. assert (popped (sn_height s) chain = chain) as Echain.
    { apply popped_all. intros s' Hs'. rewrite Eh. by apply (chain_below _ _ _ s' H). }
    rewrite Echain in *. split; [apply (rp_descending _ _ _ H)| | | | | |].
    + exists s. rewrite Hpop, El. done.
    + by rewrite El.
    + pose proof (rp_peak _ _ _ H). lia.
    + rewrite El. apply (rp_recent _ _ _ H).
    + rewrite El. apply (rp_archive _ _ _ H).
    + intros s' r Hs' Hlo Hr. rewrite El. by apply (rp_delayed _ _ _ H).
Qed.
End Represents.

(** ** Delayed payments and detaches *)

Section Delayed.
Context (conf : network_config).

(** Only payments for the next height. *)
Definition more_delayed (h : Z) : relation ledger := fun l l' =>
  exists rows, Forall (fun r => dr_height r = h) rows /\
    l' = with_tables l (with_delayed (l_tables l) (delayed (l_tables l) ++ rows)).

#[export] Instance more_delayed_refl h : Reflexive (more_delayed h).
Proof using Type. intros [[] ????]. exists []. split; [done|]. cbn. by rewrite app_nil_r. Qed.
#[export] Instance more_delayed_trans h : Transitive (more_delayed h).
Proof using Type.
  intros x y z (r1 & H1 & ->) (r2 & H2 & ->). exists (r1 ++ r2). split; [by apply Forall_app|].
  cbn. by rewrite app_assoc.
Qed.

Lemma add_delayed_rows stakes h delay : keeps_to (more_delayed h) (add_delayed_payments stakes h delay).
Proof using Type.
  apply keeps_transaction; [typeclasses eauto..| |].
  - intros l l' (rows & _ & ->). destruct l as [[] ????]. reflexivity.
  - frame. intros l. unfold statement, insert_delayed. case_match eqn:E; [|reflexivity].
    case_match; [|done]. injection E as <-. exists [delayed_row_of h delay x]. split; [by repeat constructor|done].
Qed.

Lemma represents_delayed peak chain l l' :
  represents conf peak chain l -> more_delayed (l_height l + 1) l l' -> represents conf peak chain l'.
Proof using Type.
  intros H (rows & Hrows & ->). split; try apply H. intros s r Hs Hlo Hr. cbn.
  rewrite elem_of_app, <- (rp_delayed _ _ _ _ H s r Hs Hlo Hr). split; [|tauto]. intros [|Hin]; [done|].
  rewrite Forall_forall in Hrows. specialize (Hrows r Hin). destruct Hr as [Hr _].
  pose proof (chain_below _ _ _ _ s H Hs). lia.
Qed.

Lemma represents_blank h l : blank h l -> represents conf h [Snapshot h ∅ []] l.
Proof using Type.
  intros (Hh & Hi & Ha & Hd & Hr & Hv). split; [repeat constructor| |congruence|lia| | |].
  - by eexists.
  - split; [intros s ->%list_elem_of_singleton _ _; apply Hr|intros h' []; apply Hr].
  - split; [intros s ->%list_elem_of_singleton _ _; apply Hv|intros h' []; apply Hv].
  - intros s r ->%list_elem_of_singleton _ _. by rewrite Hd.
Qed.

(** *** Detaches *)

(** The snapshot of a height that can be detached to. *)
Lemma detach_snapshot peak chain l recent h :
  represents conf peak chain l -> h = l_height l \/ batch_payments_accrued_has_any recent h l = true ->
  exists s, s ∈ chain /\ sn_height s = h /\
    (if decide (h = l_height l) then accrued (l_tables l)
     else rows_at (if recent then accrued_recent (l_tables l) else accrued_archive (l_tables l)) h) = sn_balances s.
Proof using Type.
  intros H Hhas. case_decide as Eh.
  - destruct (rp_top _ _ _ _ H) as (s & Hhd & Es & Ea). exists s. split; [|by subst].
    destruct chain; [done|]. injection Hhd as ->. by left.
  - destruct Hhas as [|Hany]; [done|]. apply bool_decide_eq_true in Hany.
    destruct recent; [apply (co_sound _ _ _ _ (rp_recent _ _ _ _ H) h Hany)
      |apply (co_sound _ _ _ _ (rp_archive _ _ _ _ H) h Hany)].
Qed.

Lemma detach_outcome peak chain l recent h target s :
  represents conf peak chain l -> rescan_tx l = None \/ target <= u64 (h + 5000) -> s ∈ chain -> sn_height s = h ->
  (if decide (h = l_height l) then accrued (l_tables l)
   else rows_at (if recent : bool then accrued_recent (l_tables l) else accrued_archive (l_tables l)) h) = sn_balances s ->
  exists l', blockchain_detached conf (if recent then table_recent else table_archive) h target l = (Some tt, l') /\
    accrued (l_tables l') = sn_balances s /\ l_height l' = h /\ represents conf peak (popped h chain) l'.
Proof using Type.
  intros H Htx Hin Eh Erows.
  destruct (represents_pop conf _ _ _ _ H Hin) as (t & Et & Hrep). rewrite Eh in Et, Hrep.
  set (l1 := with_tables l (with_accrued (l_tables l) (sn_balances s))).
  assert ((if h =? l_height l then mret tt
       else match (if recent then table_recent else table_archive) with
            | table_nil => reset_database conf
            | table_archive => statement (fun t => restore (accrued_archive t) h t)
            | table_recent => statement (fun t => restore (accrued_recent t) h t)
            end) l = (Some tt, l1)) as E1.
  { case_decide as E; [rewrite E, Z.eqb_refl|rewrite (proj2 (Z.eqb_neq _ _)) by done].
    - unfold l1. rewrite <- Erows. by destruct l as [[] ????].
    - unfold l1. rewrite <- Erows. by destruct recent. }
  set (l2 := with_tables (with_height l1 h) t).
  assert (update_height conf h l1 = (Some tt, l2)) as E2.
  { unfold update_height, statement. cbn. by rewrite Et. }
  assert (accrued t = sn_balances s) as Ha.
  { destruct (rp_top _ _ _ _ (Hrep l2 eq_refl eq_refl)) as (s' & Hhd & Es' & Ea).
    destruct (popped_top _ s (rp_descending _ _ _ _ H) Hin) as [rest Hpop]. rewrite Eh in Hpop. rewrite Hpop in Hhd.
    injection Hhd as ->. exact Ea. }
  unfold blockchain_detached, mbind, db_bind, get_ledger. rewrite E1, E2.
  destruct (Z.ltb_spec (u64 (h + 5000)) target) as [Hlt|]; [|by exists l2; auto].
  destruct Htx as [Htx|]; [|lia]. unfold set_rescan_target, rescan_start. cbn. rewrite Htx. cbn.
  eexists. split; [done|]. split; [exact Ha|]. split; [done|]. by apply Hrep.
Qed.
End Delayed.

(** ** Runs *)

Section Runs.
Context (fk : list hard_fork) (nettype : network_type) (conf : network_config).
Context (cn_fast_hash : bytes -> bytes) (check_key : bytes -> bool).
Context (output_key : Z -> account_public_address -> Z -> option bytes).
Context (registered_for_transition : Z -> account_public_address -> bool).

Abbreviation add_block := (add_block fk nettype conf cn_fast_hash check_key output_key registered_for_transition).
Abbreviation add_rewards_of_block := (add_rewards_of_block nettype conf cn_fast_hash check_key output_key).

(** The ledger after some blocks of the current chain: a block that is added, one that is
    refused, delayed payments for the next block, and a detach to a height that the chosen table
    has (or the current one). *)
Inductive run : Z -> list snapshot -> ledger -> Prop :=
| run_start h l : blank h l -> run h [Snapshot h ∅ []] l
| run_block peak chain l l' b cb st producer ba skip :
    run peak chain l -> hf19_reward_batching <= major_version b ->
    hard_fork_begins fk nettype hf19_reward_batching <> Some (b_height b) -> 0 < b_height b ->
    add_block b cb st producer ba skip l = (Some true, l') ->
    run (Z.max peak (l_height l')) (Snapshot (l_height l') (accrued (l_tables l')) (delayed (l_tables l')) :: chain) l'
| run_refused peak chain l l' b cb st producer ba skip :
    run peak chain l -> hf19_reward_batching <= major_version b ->
    hard_fork_begins fk nettype hf19_reward_batching <> Some (b_height b) -> 0 < b_height b ->
    rescan_tx l = None -> add_block b cb st producer ba skip l = (Some false, l') ->
    run peak chain l'
| run_delayed peak chain l stakes delay :
    run peak chain l -> run peak chain (add_delayed_payments stakes (l_height l + 1) delay l).2
| run_detach peak chain l l' recent h target :
    run peak chain l -> h = l_height l \/ batch_payments_accrued_has_any recent h l = true ->
    rescan_tx l = None \/ target <= u64 (h + 5000) ->
    blockchain_detached conf (if recent : bool then table_recent else table_archive) h target l = (Some tt, l') ->
    run peak (popped h chain) l'.

(** *** Programs of a block *)

Lemma db_bind_Some {A B} (m : db A) (f : A -> db B) l y l' :
  (m ≫= f) l = (Some y, l') <-> exists x l1, m l = (Some x, l1) /\ f x l1 = (Some y, l').
Proof using Type.
  unfold mbind, db_bind. split.
  - destruct (m l) as [[x|] l1]; [|done]. intros E. by exists x, l1.
  - by intros (x & l1 & -> & E).
Qed.

Lemma frame_of {A} (R : relation ledger) (m : db A) l r l' : keeps_to R m -> m l = (r, l') -> R l l'.
Proof using Type. intros H E. specialize (H l). by rewrite E in H. Qed.

Lemma renew_rescan_tables l : exists l', renew_rescan l = (Some tt, l') /\ l_tables l' = l_tables l /\ l_height l' = l_height l.
Proof using Type.
  unfold renew_rescan, get_ledger, count_rescan, rescan_stop, rescan_start, mbind, db_bind, mret, db_ret. cbn.
  destruct l as [t h [tx|] c g]; cbn; [|by eexists]. destruct (_ || _); [|by eexists]. destruct (_ <? _); by eexists.
Qed.

(** The part of a block before the new height. *)
Definition block_body (b : block) (cb : coinbase) (st : state_t) (producer : bytes) (ba : block_add_result)
    (skip : bool) (payments : list batch_sn_payment) : db bool :=
  ok ← validate_batch_payment output_key (cb_vouts cb) payments (b_height b) skip;
  if negb ok then mret false
  else
    _ ← reward_handler nettype conf cn_fast_hash check_key b (cb_reward cb) st producer ba;
    _ ← (if hf21_eth <=? major_version b then submit_stakes_metadata ba else mret tt);
    mret true.

Lemma block_body_balances b cb st producer ba skip payments :
  keeps_to only_balances (block_body b cb st producer ba skip payments).
Proof using Type. unfold block_body. frame. Qed.

Lemma bind_assoc {A B C} (m : db A) (f : A -> db B) (g : B -> db C) l :
  ((m ≫= f) ≫= g) l = (m ≫= fun x => f x ≫= g) l.
Proof using Type. unfold mbind, db_bind. by destruct (m l) as [[x|] l1]. Qed.

Lemma add_rewards_of_block_body b cb st producer ba skip payments l :
  add_rewards_of_block b cb st producer ba skip payments l =
  in_transaction (block_body b cb st producer ba skip payments ≫= fun ok : bool =>
    if ok then l ← get_ledger; _ ← update_height conf (l_height l + 1); _ ← renew_rescan; mret true
    else mret false) l.
Proof using Type.
  unfold Ledger.add_rewards_of_block, in_transaction, block_body.
  match goal with |- match rescan_tx l with Some _ => match ?x with _ => _ end | None => _ end =
    match rescan_tx l with Some _ => match ?y with _ => _ end | None => _ end => replace y with x; [done|] end.
  unfold mbind, db_bind, mret, db_ret, get_ledger.
  destruct (validate_batch_payment _ _ _ _ _ _) as [[[]|] l1]; cbn; try done.
  destruct (reward_handler _ _ _ _ _ _ _ _ _ _) as [[[]|] l2]; try done.
  destruct (hf21_eth <=? major_version b); [|done]. by destruct (submit_stakes_metadata ba l2) as [[[]|] l3].
Qed.

Section Sane.
Context (Hrecent : 0 <= HISTORY_RECENT_KEEP_WINDOW conf) (Harchive : 0 <= HISTORY_ARCHIVE_KEEP_WINDOW conf).

Lemma block_outcome peak chain l b cb st producer ba skip payments r l' :
  represents conf peak chain l -> add_rewards_of_block b cb st producer ba skip payments l = (r, l') ->
  match r with
  | Some true => l_height l' = l_height l + 1 /\ represents conf (Z.max peak (l_height l'))
      (Snapshot (l_height l') (accrued (l_tables l')) (delayed (l_tables l')) :: chain) l'
  | Some false => rescan_tx l = None -> l' = l
  | None => False
  end.
Proof using Hrecent Harchive.
  intros H. rewrite add_rewards_of_block_body. unfold in_transaction, mbind, db_bind.
  pose proof (block_body_balances b cb st producer ba skip payments l) as Hb.
  destruct (block_body _ _ _ _ _ _ _ l) as [ok l1]. cbn [snd] in Hb. unfold only_balances in Hb.
  assert (with_tables l1 (l_tables l) = l) as Hback by (rewrite Hb; by destruct l).
  destruct ok as [[]|].
  2-3: destruct (rescan_tx l); cbn; intros [= <- <-]; done.
  destruct (represents_push conf Hrecent Harchive _ _ _ (accrued (l_tables l1)) H) as (t & Et & Hm & Hrep).
  assert (l_height l1 = l_height l) as Hh by (by rewrite Hb).
  assert (l_tables l1 = with_accrued (l_tables l) (accrued (l_tables l1))) as Ht by (by rewrite Hb at 1).
  unfold get_ledger, update_height, statement. cbn [l_tables with_height]. rewrite Hh, Ht, Et.
  destruct (renew_rescan_tables (with_tables (with_height l1 (l_height l + 1)) t)) as (l2 & -> & E2 & E3).
  cbn in E2, E3. cbn. intros E. assert (r = Some true /\ l2 = l') as [-> <-].
  { destruct (rescan_tx l); by injection E as <- <-. }
  specialize (Hrep l2 E2 E3). rewrite E2, E3, Hm. split; [done|exact Hrep].
Qed.

Lemma add_block_outcome peak chain l b cb st producer ba skip r l' :
  represents conf peak chain l -> hf19_reward_batching <= major_version b ->
  hard_fork_begins fk nettype hf19_reward_batching <> Some (b_height b) -> 0 < b_height b ->
  add_block b cb st producer ba skip l = (Some r, l') ->
  if r then l_height l' = l_height l + 1 /\ represents conf (Z.max peak (l_height l'))
      (Snapshot (l_height l') (accrued (l_tables l')) (delayed (l_tables l')) :: chain) l'
  else rescan_tx l = None -> l' = l.
Proof using Hrecent Harchive.
  intros H Hv Hb Hpos. unfold Ledger.add_block. rewrite (proj2 (Z.ltb_ge _ _)) by done.
  destruct (Z.eqb_spec (b_height b) (default 0 (hard_fork_begins fk nettype hf19_reward_batching))) as [E|_].
  { destruct (hard_fork_begins _ _ _); cbn in E; [congruence|lia]. }
  unfold mbind at 1, db_bind at 1, mret, db_ret. unfold mbind at 1, db_bind at 1, get_ledger.
  destruct (negb _); [by intros [= <- <-]|]. rewrite db_bind_Some. intros (payments & l1 & E1 & E2).
  assert (l1 = l) as ->.
  { destruct (_ <? _); [unfold or_throw in E1; by destruct (get_sn_payments _ _ _ _ _ _); simplify_eq|by injection E1 as _ <-]. }
  apply (block_outcome _ _ _ _ _ _ _ _ _ _ _ _ H) in E2. by destruct r.
Qed.

(** The tables represent the chain of snapshots over every run. *)
Lemma run_represents peak chain l : run peak chain l -> represents conf peak chain l.
Proof using Hrecent Harchive.
  induction 1 as [| |peak chain l l' b cb st producer ba skip _ IH Hv Hb Hpos Htx E| |peak chain l l' recent h target _ IH Hhas Htx E].
  - by apply represents_blank.
  - by eapply (add_block_outcome _ _ _ _ _ _ _ _ _ true) in IHrun as [_ ?].
  - by rewrite (add_block_outcome _ _ _ _ _ _ _ _ _ false _ IH Hv Hb Hpos E Htx).
  - eapply represents_delayed; [done|]. apply add_delayed_rows.
  - destruct (detach_snapshot _ _ _ _ recent h IH Hhas) as (s & Hin & Eh & Erows).
    destruct (detach_outcome _ _ _ _ recent h target s IH Htx Hin Eh Erows) as (l1 & E1 & _ & _ & Hr).
    rewrite E in E1. by injection E1 as ->.
Qed.
End Sane.
End Runs.

Lemma history_windows nt conf :
  get_config nt = Some conf -> 0 <= HISTORY_RECENT_KEEP_WINDOW conf <= HISTORY_ARCHIVE_KEEP_WINDOW conf.
Proof. destruct nt; intros [= <-]; by vm_compute. Qed.

(** (C11) A detach of the reward ledger goes back exactly: over every run of added and refused
    blocks, delayed payments and earlier detaches, detaching to a block of the current chain
    restores the balances of all addresses as they were after that block, and the payments that
    were then still pending are pending again.  The recent table can do so for every height down
    to its keep window below the greatest height reached, the archive table for the multiples of
    its interval. *)
Theorem ledger_detach_exact fk nettype conf cn_fast_hash check_key output_key registered_for_transition
    peak chain l s target (recent : bool) :
  get_config nettype = Some conf ->
  run fk nettype conf cn_fast_hash check_key output_key registered_for_transition peak chain l ->
  s ∈ chain ->
  (if recent then peak - HISTORY_RECENT_KEEP_WINDOW conf <= sn_height s
   else sn_height s mod HISTORY_ARCHIVE_INTERVAL conf = 0 /\ peak - HISTORY_ARCHIVE_KEEP_WINDOW conf <= sn_height s) ->
  rescan_tx l = None \/ target <= u64 (sn_height s + 5000) ->
  exists l', blockchain_detached conf (if recent then table_recent else table_archive) (sn_height s) target l = (Some tt, l') /\
    l_height l' = sn_height s /\ accrued (l_tables l') = sn_balances s /\
    forall r, pending_at s r -> r ∈ delayed (l_tables l') <-> r ∈ sn_delayed s.
Proof.
  intros Hconf Hrun Hs Hlo Htx. destruct (history_windows _ _ Hconf) as [Hw1 Hw2].
  apply run_represents in Hrun as H; [|lia..].
  destruct (detach_outcome _ _ _ _ recent (sn_height s) target s H Htx Hs eq_refl) as (l' & E & Ha & Hh & Hr).
  { case_decide as Et.
    - destruct (rp_top _ _ _ _ H) as (s0 & Hhd & Es & Ea).
      destruct (popped_top _ s (rp_descending _ _ _ _ H) Hs) as [rest Hpop].
      rewrite popped_all in Hpop by (intros s' Hs'; rewrite Et; by apply (chain_below _ _ _ _ s' H)).
      rewrite Hpop in Hhd. injection Hhd as <-. done.
    - destruct recent; [by apply (co_complete _ _ _ _ (rp_recent _ _ _ _ H))
        |by apply (co_complete _ _ _ _ (rp_archive _ _ _ _ H)); [|destruct Hlo..]]. }
  exists l'. split_and!; [done..|]. intros r Hp. apply (rp_delayed _ _ _ _ Hr).
  - apply list_elem_of_filter. by split.
  - destruct recent; lia.
  - done.
Qed.

(** *** Witness: two blocks of version 19 on mainnet, then back to the first. *)

Definition demo_block (v h : Z) : block := Block v h 1000 [] [] 0 no_pulse [] [] [] 0 0.
Definition demo_state (h : Z) : state_t := State ∅ [] ∅ ∅ h no_quorums [] 0 [] [] [].
Definition demo_ledger (h : Z) : ledger := Ledger (Tables ∅ ∅ ∅ [] h) h None 0 0.
Definition demo_add (h : Z) (l : ledger) : option bool * ledger :=
  add_block [] MAINNET mainnet_config (fun _ => []) (fun _ => true) (fun _ _ _ => None) (fun _ _ => false)
    (demo_block hf19_reward_batching h) (Coinbase SN_REWARD_HF19 []) (demo_state h) (null_bytes 32)
    (BlockAddResult (BlockStakes [] []) []) false l.
Definition demo_1 : ledger := (demo_add 800001 (demo_ledger 800000)).2.
Definition demo_2 : ledger := (demo_add 800002 demo_1).2.

Definition snapshot_of (l : ledger) : snapshot := Snapshot (l_height l) (accrued (l_tables l)) (delayed (l_tables l)).
Definition demo_run : Z -> list snapshot -> ledger -> Prop :=
  run [] MAINNET mainnet_config (fun _ => []) (fun _ => true) (fun _ _ _ => None) (fun _ _ => false).

Lemma demo_run_add peak chain l h :
  demo_run peak chain l -> (demo_add h l).1 = Some true ->
  hard_fork_begins [] MAINNET hf19_reward_batching <> Some h -> 0 < h ->
  demo_run (Z.max peak (l_height (demo_add h l).2)) (snapshot_of (demo_add h l).2 :: chain) (demo_add h l).2.
Proof.
  intros Hr E Hb Hh. eapply (run_block _ _ _ _ _ _ _ peak chain l (demo_add h l).2
    (demo_block hf19_reward_batching h)); [exact Hr|done|done|done|].
  rewrite <- E. apply surjective_pairing.
Qed.

Lemma ledger_detach_exact_witness :
  bool_decide (accrued (l_tables demo_1) = accrued (l_tables demo_2)) = false /\
  exists l', blockchain_detached mainnet_config table_recent (l_height demo_1) 800003 demo_2 = (Some tt, l') /\
    l_height l' = l_height demo_1 /\ accrued (l_tables l') = accrued (l_tables demo_1).
Proof.
  split; [vm_compute; reflexivity|].
  assert (E1 : (demo_add 800001 (demo_ledger 800000)).1 = Some true) by (vm_compute; reflexivity).
  assert (E2 : (demo_add 800002 demo_1).1 = Some true) by (vm_compute; reflexivity).
  assert (N : forall h, 800000 < h -> hard_fork_begins [] MAINNET hf19_reward_batching <> Some h /\ 0 < h).
  { intros h Hh. change (hard_fork_begins [] MAINNET hf19_reward_batching) with (hard_fork_begins [] MAINNET 19).
    destruct (hard_fork_begins [] MAINNET 19) as [x|] eqn:E; [|split; [done|lia]].
    assert (x <= 800000); [|split; [intros [=]; lia|lia]]. vm_compute in E. injection E as <-. lia. }
  pose proof (demo_run_add 800000 [Snapshot 800000 ∅ []] (demo_ledger 800000) 800001
    (run_start _ _ _ _ _ _ _ 800000 (demo_ledger 800000) (conj eq_refl (conj eq_refl (conj eq_refl (conj eq_refl
      (conj (fun _ => eq_refl) (fun _ => eq_refl))))))) E1 (proj1 (N 800001 eq_refl)) eq_refl) as R1. fold demo_1 in R1.
  pose proof (demo_run_add _ _ demo_1 800002 R1 E2 (proj1 (N 800002 eq_refl)) eq_refl) as R. fold demo_2 in R.
  destruct (ledger_detach_exact [] MAINNET mainnet_config (fun _ => []) (fun _ => true) (fun _ _ _ => None) (fun _ _ => false)
    _ _ _ (snapshot_of demo_1) 800003 true eq_refl R)
    as (l' & E & Hh & Ha & _); [apply list_elem_of_further, list_elem_of_here|vm_compute; discriminate
    |left; vm_compute; reflexivity|exact (ex_intro _ l' (conj E (conj Hh Ha)))].
Defined.
