(* ===== verification/LedgerRewards.v ===== *)
(** * What the reward ledger pays

    The accounting of [Ledger].  A block credits no more than its reward and the governance's
    share, and loses less than a thousandth of a unit per division; the payments of the miner
    transaction settle the accounts that are due down to a fraction of a unit; and from the L2
    network on the claimable amount of an address is its rewards plus its returned stakes. *)
From stdpp Require Import gmap strings.
From S2P Require Import Prelude IntUtil Order Hardfork Config Address Reward Rules Voting Transactions L2Votes NodeProof Random Quorums Swarm.
From S2P Require Import ServiceNode NodeList Staking Funding Events BlockUpdate Money Ledger LedgerHistory.
#[local] Open Scope Z_scope.

(** ** Sums over maps *)

Section MapSum.
Context {K V : Type} `{Countable K} (f : V -> Z).

Definition map_sum (m : gmap K V) : Z := map_fold (fun _ v acc => f v + acc) 0 m.

Lemma map_sum_new m k v : m !! k = None -> map_sum (<[k := v]> m) = f v + map_sum m.
Proof using Type. intros E. apply (map_fold_insert_L (fun _ v acc => f v + acc) 0 k v m); [intros; lia|done]. Qed.

Lemma map_sum_delete m k v : m !! k = Some v -> map_sum m = f v + map_sum (delete k m).
Proof using Type.
  intros E. rewrite <- (insert_delete_id m k v E) at 1. apply map_sum_new. apply lookup_delete_eq.
Qed.

Lemma map_sum_insert m k v : map_sum (<[k := v]> m) = map_sum m + f v - from_option f 0 (m !! k).
Proof using Type.
  rewrite <- insert_delete_eq, map_sum_new by apply lookup_delete_eq.
  destruct (m !! k) as [v0|] eqn:E; cbn.
  - rewrite (map_sum_delete m k v0 E). lia.
  - rewrite delete_id by done. lia.
Qed.

Lemma map_sum_list m : map_sum m = zsum ((fun e => f e.2) <$> map_to_list m).
Proof using Type.
  unfold map_sum. rewrite map_fold_foldr. unfold zsum. induction (map_to_list m) as [|[k v] l IH]; [done|]. cbn. by rewrite IH.
Qed.
End MapSum.

Definition paid_total (ps : block_payments) : Z := map_sum (fun p => milli (sp_amount p)) ps.
Definition credit_total (m : balances) : Z := map_sum amount m.

Lemma paid_total_empty : paid_total ∅ = 0.
Proof. done. Qed.

(** ** Payments of a block *)

(** Amounts in normal form, nothing liquidated, and addresses of the right kind. *)
Definition right_kind (hf_version : hf) (r : recipient) : Prop :=
  match r with OxenAddress _ => True | EthAddress _ => hf21_eth <= hf_version end.
Definition payments_ok (v : hf) (ps : block_payments) : Prop :=
  map_Forall (fun to p => right_kind v to /\ canonical (sp_amount p) /\ sp_liquidation p = zero_money) ps.

Lemma pay_total to x ps : paid_total (pay to x ps) = paid_total ps + milli x.
Proof.
  unfold paid_total, pay. rewrite map_sum_insert. cbn [sp_amount]. rewrite milli_add.
  destruct (ps !! to); cbn [default from_option id sp_amount no_payment]; [lia|]. change (milli zero_money) with 0. lia.
Qed.

Lemma pay_ok v to x ps : right_kind v to -> canonical x -> payments_ok v ps -> payments_ok v (pay to x ps).
Proof.
  intros Ht Hx Hps. apply map_Forall_insert_2; [|done]. split; [done|]. destruct (ps !! to) as [p|] eqn:E; cbn.
  - destruct (Hps to p E) as (_ & ? & ?). split; [by apply canonical_plus|done].
  - split; [apply canonical_plus; [apply canonical_zero|done]|done].
Qed.

Lemma pay_positive_total to x ps : canonical x -> paid_total (pay_positive to x ps) = paid_total ps + milli x.
Proof.
  intros Hx. unfold pay_positive. rewrite money_ltb_milli by (try apply canonical_zero; done).
  change (milli zero_money) with 0. pose proof (canonical_nonneg x Hx). destruct (Z.ltb_spec 0 (milli x)); [apply pay_total|lia].
Qed.

Lemma pay_positive_ok v to x ps :
  right_kind v to -> canonical x -> payments_ok v ps -> payments_ok v (pay_positive to x ps).
Proof. intros Ht Hx Hps. unfold pay_positive. case_match; [by apply pay_ok|done]. Qed.

Lemma recipients_right_kind nt v info :
  right_kind v (fee_recipient (uses_eth_address nt v info) info) /\
  forall c, right_kind v (share_recipient (uses_eth_address nt v info) c).
Proof.
  unfold fee_recipient, share_recipient, uses_eth_address.
  destruct (Z.leb_spec hf21_eth v); cbn [andb]; [|done]. by destruct (negb _).
Qed.

(** *** Shares *)

(** [mul128_div64] of a share that is at most the whole. *)
Lemma share_spec part amt whole :
  0 <= part <= whole -> 0 < whole -> is_u64 amt ->
  Int128.mul128_div64 part amt whole = part * amt / whole /\ 0 <= part * amt / whole <= amt.
Proof.
  intros Hp Hw Ha. unfold Int128.mul128_div64.
  assert (0 <= part * amt / whole <= amt).
  { unfold is_u64 in Ha. split; [apply Z.div_pos; nia|apply Z.div_le_upper_bound; nia]. }
  rewrite u64_small by width. done.
Qed.

(** The fee and the shares of a node: less than one thousandth is lost per contributor. *)
Definition paid_to_node (info : service_node_info) (total : Z) : Z :=
  let fee := portions_for_operator info * total / STAKING_PORTIONS in
  fee + zsum (floors (total - fee) (staking_requirement info) (amounts_of (contributors info))).

Lemma amounts_bound info :
  stakes_ok info -> Forall (fun c => 0 <= contributor_amount c <= staking_requirement info) (contributors info).
Proof.
  intros [Hreq Hb _ _]. apply Forall_forall. intros c [i Hc]%list_elem_of_lookup.
  destruct (books_entry _ _ _ _ i c Hb Hc). pose proof (bk_limit _ _ _ _ Hb). lia.
Qed.

Lemma zsum_nonneg_all l : Forall (fun x => 0 <= x) l -> 0 <= zsum l.
Proof. unfold zsum. induction 1; cbn in *; lia. Qed.

Lemma paid_to_node_bounds info total :
  stakes_ok info -> 0 <= total ->
  0 <= paid_to_node info total <= total /\
  (is_fully_funded info = true -> total - Z.of_nat (length (contributors info)) <= paid_to_node info total).
Proof.
  intros Hok Ht. pose proof (amounts_bound info Hok) as Ham. destruct Hok as [Hreq Hb _ Hfee].
  unfold paid_to_node. set (fee := portions_for_operator info * total / STAKING_PORTIONS).
  assert (0 <= fee <= total) as Hf.
  { unfold fee, STAKING_PORTIONS in *. split; [apply Z.div_pos; nia|apply Z.div_le_upper_bound; nia]. }
  assert (Forall is_u64 (amounts_of (contributors info))) as Hu.
  { unfold amounts_of. apply Forall_fmap. eapply Forall_impl; [exact Ham|]. intros c Hc. unfold compose. width. }
  pose proof (floors_sum (total - fee) (staking_requirement info) _ ltac:(lia) ltac:(lia) Hu) as [H1 H2].
  assert (0 <= zsum (floors (total - fee) (staking_requirement info) (amounts_of (contributors info)))) as Hpos.
  { apply zsum_nonneg_all. unfold floors. apply Forall_fmap. eapply Forall_impl; [exact Hu|]. intros x Hx. unfold compose, is_u64 in *.
    apply Z.div_pos; nia. }
  rewrite <- (bk_contributed _ _ _ _ Hb) in H1, H2.
  pose proof (bk_limit _ _ _ _ Hb). destruct (books_contributed _ _ _ _ Hb).
  assert (length (amounts_of (contributors info)) = length (contributors info)) as El by (unfold amounts_of; by rewrite length_fmap).
  rewrite El in H2. split; [|intros Hfull%Z.leb_le]; nia.
Qed.

(** [add_rewards] pays exactly that. *)
Lemma share_fold v use_eth info post cs ps :
  (forall c, right_kind v (share_recipient use_eth c)) -> Forall (fun c => 0 <= contributor_amount c <= staking_requirement info) cs -> 0 < staking_requirement info ->
  is_u64 post -> payments_ok v ps ->
  let ps' := foldl (fun ps c => pay_positive (share_recipient use_eth c) (contributor_reward post info c) ps) ps cs in
  payments_ok v ps' /\
  paid_total ps' = paid_total ps + zsum (floors post (staking_requirement info) (amounts_of cs)).
Proof.
  intros Hk Hcs Hreq Hpost. revert ps. induction Hcs as [|c cs Hc Hcs IH]; intros ps Hps; cbn [foldl].
  { split; [done|]. change (zsum (floors post (staking_requirement info) (amounts_of []))) with 0. lia. }
  destruct (share_spec (contributor_amount c) post (staking_requirement info) Hc Hreq Hpost) as [E Hr].
  assert (is_u64 (contributor_amount c * post / staking_requirement info)) as Hu by width.
  destruct (from_intermediate_spec _ Hu) as [Em Hcan]. rewrite <- E in Em, Hcan.
  fold (contributor_reward post info c) in Em, Hcan.
  destruct (IH (pay_positive (share_recipient use_eth c) (contributor_reward post info c) ps)) as [H1 H2];
    [by apply pay_positive_ok|]. split; [done|]. rewrite H2, pay_positive_total by done. rewrite Em, E.
  unfold zsum, floors, amounts_of. cbn [fmap list_fmap foldr]. lia.
Qed.

Lemma add_rewards_spec nt v dist info ps :
  stakes_ok info -> canonical dist -> atomic dist < max_intermediate -> payments_ok v ps ->
  exists ps', add_rewards nt v dist info ps = Some ps' /\ payments_ok v ps' /\
    paid_total ps' = paid_total ps + paid_to_node info (milli dist).
Proof.
  intros Hok Hd Hmax Hps. unfold add_rewards. rewrite to_intermediate_spec by done. cbn [mbind option_bind].
  pose proof (amounts_bound info Hok) as Ham. destruct Hok as [Hreq _ _ Hfee].
  assert (is_u64 (milli dist)) as Hu.
  { unfold milli, max_intermediate, BATCH_REWARD_FACTOR in *. change (UINT64_MAX / 1000) with 18446744073709551 in Hmax.
    destruct Hd. unfold BATCH_REWARD_FACTOR in *. width. }
  destruct (share_spec (portions_for_operator info) (milli dist) STAKING_PORTIONS Hfee eq_refl Hu) as [E Hr].
  assert (is_u64 (portions_for_operator info * milli dist / STAKING_PORTIONS)) as Hfu by width.
  destruct (from_intermediate_spec _ Hfu) as [Em Hcan]. rewrite <- E in Em, Hcan.
  fold (operator_fee (milli dist) info) in Em, Hcan. rewrite E in Em.
  set (fee := operator_fee (milli dist) info) in *.
  assert (canonical (money_sub dist fee)) as Hpc by (apply canonical_minus; [done|done|lia]).
  pose proof (milli_sub dist fee) as Es.
  rewrite to_intermediate_spec; [|done|].
  2: { destruct Hpc, Hcan, Hd. unfold milli, BATCH_REWARD_FACTOR in *. lia. }
  cbn [mbind option_bind]. eexists. split; [done|].
  destruct (recipients_right_kind nt v info) as [Hk1 Hk2].
  destruct (share_fold v (uses_eth_address nt v info) info (milli (money_sub dist fee)) (contributors info)
    (pay_positive (fee_recipient (uses_eth_address nt v info) info) fee ps)) as [H1 H2];
    [done|done|lia|rewrite Es, Em; width|by apply pay_positive_ok|].
  split; [done|]. rewrite H2, pay_positive_total by done. unfold paid_to_node. rewrite Es, Em. lia.
Qed.

(** *** The whole block *)

Definition nodes_ok (infos : gmap bytes service_node_info) : Prop := map_Forall (fun _ info => stakes_ok info) infos.

Definition node_share (infos : gmap bytes service_node_info) (total : Z) (key : bytes) : Z :=
  from_option (fun info => paid_to_node info total) 0 (infos !! key).

Lemma pay_nodes_spec nt v x infos keys ps :
  nodes_ok infos -> Forall (fun key => is_Some (infos !! key)) keys -> canonical x -> atomic x < max_intermediate ->
  payments_ok v ps ->
  exists ps', pay_nodes nt v x infos keys ps = Some ps' /\ payments_ok v ps' /\
    paid_total ps' = paid_total ps + zsum (node_share infos (milli x) <$> keys).
Proof.
  intros Hok Hkeys Hx Hmax. revert ps. induction Hkeys as [|key keys [info Hi] _ IH]; intros ps Hps; cbn [pay_nodes].
  { exists ps. split_and!; [done|done|]. cbn. lia. }
  rewrite Hi. cbn [mbind option_bind].
  destruct (add_rewards_spec nt v x info ps (Hok key info Hi) Hx Hmax Hps) as (ps1 & -> & Hps1 & E1).
  cbn [mbind option_bind]. destruct (IH ps1 Hps1) as (ps2 & -> & Hps2 & E2). exists ps2. split_and!; [done|done|].
  rewrite E2, E1. unfold zsum, node_share. cbn [fmap list_fmap foldr]. rewrite Hi. cbn [from_option]. lia.
Qed.

Lemma zsum_bounds {A} (f : A -> Z) lo hi l :
  Forall (fun x => lo <= f x <= hi) l -> Z.of_nat (length l) * lo <= zsum (f <$> l) <= Z.of_nat (length l) * hi.
Proof. unfold zsum. induction 1; cbn in *; lia. Qed.

(** Contributors of the nodes that are paid. *)
Definition contributors_of (infos : gmap bytes service_node_info) (key : bytes) : Z :=
  from_option (fun info => Z.of_nat (length (contributors info))) 0 (infos !! key).

Lemma node_shares infos total keys :
  nodes_ok infos -> 0 <= total ->
  zsum (node_share infos total <$> keys) <= Z.of_nat (length keys) * total /\
  (Forall (fun key => exists info, infos !! key = Some info /\ is_fully_funded info = true) keys ->
   Z.of_nat (length keys) * total - zsum (contributors_of infos <$> keys) <= zsum (node_share infos total <$> keys)).
Proof.
  intros Hok Ht. unfold zsum. split.
  - induction keys as [|key keys IH]; cbn in *; [lia|]. enough (node_share infos total key <= total) by lia.
    unfold node_share. destruct (infos !! key) as [info|] eqn:E; cbn; [|lia].
    destruct (paid_to_node_bounds info total (Hok key info E) Ht). lia.
  - induction 1 as [|key keys (info & Hi & Hf) _ IH]; cbn in *; [lia|].
    enough (total - contributors_of infos key <= node_share infos total key) by lia.
    unfold node_share, contributors_of. rewrite Hi. cbn.
    destruct (paid_to_node_bounds info total (Hok key info Hi) Ht) as [_ Hlow]. auto.
Qed.

Definition governance_share (nt : network_type) : Z :=
  if bool_decide (nt = FAKECHAIN) then 0 else FOUNDATION_REWARD_HF19.

Lemma from_coin_canonical x : 0 <= x < 2 ^ 63 -> canonical (from_coin x) /\ milli (from_coin x) = x * BATCH_REWARD_FACTOR.
Proof.
  intros Hx. unfold from_coin, canonical, milli, BATCH_REWARD_FACTOR. cbn [atomic subatomic].
  rewrite s64_small by (unfold is_s64; lia). lia.
Qed.

Section Block.
Context (nt : network_type) (b : block) (st : state_t) (producer : bytes).
Context (Hok : nodes_ok (service_nodes_infos st)).
Context (Hv : hf19_reward_batching <= major_version b < feature_ETH_BLS).

(** The block has fees for a producer that is no longer in the list: [at] throws. *)
Definition producer_missing (reward : Z) : Prop :=
  SN_REWARD_HF19 < reward /\ has_pulse b = true /\ producer <> null_bytes 32 /\
  service_nodes_infos st !! producer = None.

Lemma pay_fees_missing reward :
  reward <= UINT64_MAX / BATCH_REWARD_FACTOR -> producer_missing reward -> pay_fees nt b st producer (from_coin reward) = None.
Proof using Type.
  change (UINT64_MAX / BATCH_REWARD_FACTOR) with 18446744073709551. intros Hr (Hf & Hp & Hn & E).
  destruct (from_coin_canonical reward ltac:(unfold SN_REWARD_HF19 in *; lia)) as [Hc Em].
  destruct (from_coin_canonical SN_REWARD_HF19 ltac:(by vm_compute)) as [Hc0 Em0]. fold base_sn_reward in Hc0, Em0.
  unfold pay_fees. rewrite money_ltb_milli by done. rewrite (proj2 (Z.ltb_ge _ _)) by (unfold BATCH_REWARD_FACTOR in *; lia).
  pose proof (canonical_minus _ _ Hc Hc0 ltac:(unfold BATCH_REWARD_FACTOR in *; lia)) as Hfc.
  pose proof (milli_sub (from_coin reward) base_sn_reward) as Emf.
  rewrite to_intermediate_spec; [|done|].
  2: { change max_intermediate with 18446744073709551. destruct Hfc. unfold milli, SN_REWARD_HF19, BATCH_REWARD_FACTOR in *. lia. }
  rewrite (proj2 (Z.ltb_lt _ _)) by (unfold BATCH_REWARD_FACTOR in *; lia). rewrite Hp, bool_decide_eq_false_2 by done.
  cbn [andb negb]. by rewrite E.
Qed.

Lemma pay_fees_spec reward :
  SN_REWARD_HF19 <= reward <= UINT64_MAX / BATCH_REWARD_FACTOR -> ~ producer_missing reward ->
  exists ps, pay_fees nt b st producer (from_coin reward) = Some ps /\ payments_ok (major_version b) ps /\
    0 <= paid_total ps <= (reward - SN_REWARD_HF19) * BATCH_REWARD_FACTOR.
Proof using Hok.
  intros Hr Hprod. change (UINT64_MAX / BATCH_REWARD_FACTOR) with 18446744073709551 in Hr.
  destruct (from_coin_canonical reward ltac:(unfold SN_REWARD_HF19 in *; lia)) as [Hc Em].
  destruct (from_coin_canonical SN_REWARD_HF19 ltac:(by vm_compute)) as [Hc0 Em0]. fold base_sn_reward in Hc0, Em0.
  unfold pay_fees. rewrite money_ltb_milli by done. rewrite (proj2 (Z.ltb_ge _ _)) by (unfold BATCH_REWARD_FACTOR in *; lia).
  pose proof (canonical_minus _ _ Hc Hc0 ltac:(unfold BATCH_REWARD_FACTOR in *; lia)) as Hf.
  pose proof (milli_sub (from_coin reward) base_sn_reward) as Emf.
  set (fees := money_sub (from_coin reward) base_sn_reward) in *.
  assert (atomic fees < max_intermediate) as Hmax.
  { change max_intermediate with 18446744073709551. destruct Hf. unfold milli, SN_REWARD_HF19, BATCH_REWARD_FACTOR in *. lia. }
  assert (payments_ok (major_version b) ∅) as H0 by apply map_Forall_empty.
  destruct (_ && has_pulse b && _) eqn:E; [|exists ∅; rewrite paid_total_empty; unfold BATCH_REWARD_FACTOR; split_and!; [done|done|lia..]].
  bool_hyps. destruct (service_nodes_infos st !! producer) as [info|] eqn:Hi.
  2: { destruct Hprod. split_and!; [|done|by eapply bool_decide_eq_false_1|done].
       rewrite to_intermediate_spec in * by done. bool_hyps. unfold BATCH_REWARD_FACTOR in *. lia. }
  cbn [mbind option_bind].
  destruct (add_rewards_spec nt (major_version b) fees info ∅ (Hok _ _ Hi) Hf Hmax H0) as (ps & -> & Hps & Ep).
  exists ps. split_and!; [done|done|..]; rewrite Ep, paid_total_empty;
    destruct (paid_to_node_bounds info (milli fees) (Hok _ _ Hi) (canonical_nonneg _ Hf)); unfold BATCH_REWARD_FACTOR in *; lia.
Qed.

Context (conf : network_config) (cn_fast_hash : bytes -> bytes) (check_key : bytes -> bool).

Lemma pay_governance_spec ps :
  payments_ok (major_version b) ps ->
  let ps' := pay_governance nt conf cn_fast_hash check_key (major_version b) ps in
  payments_ok (major_version b) ps' /\ paid_total ps' = paid_total ps + governance_share nt * BATCH_REWARD_FACTOR.
Proof using Hv producer.
  intros Hps. unfold pay_governance, governance_share. destruct (bool_decide (nt = FAKECHAIN)); [split; [done|lia]|].
  unfold governance_reward_formula. rewrite (proj2 (Z.leb_gt _ _)) by lia. rewrite (proj2 (Z.leb_le _ _)) by lia.
  destruct (from_coin_canonical FOUNDATION_REWARD_HF19 ltac:(by vm_compute)) as [Hc Em].
  split; [by apply pay_ok|]. by rewrite pay_total, Em.
Qed.

(** The keys are of nodes of the list that are payable at the block. *)
Definition payable_listed (keys : list bytes) : Prop :=
  Forall (fun key => exists info, service_nodes_infos st !! key = Some info /\ is_payable info (b_height b) nt = Some true) keys.

Lemma listed_funded keys :
  payable_listed keys ->
  Forall (fun key => is_Some (service_nodes_infos st !! key)) keys /\
  Forall (fun key => exists info, service_nodes_infos st !! key = Some info /\ is_fully_funded info = true) keys.
Proof using Type.
  intros Hl. split; (eapply Forall_impl; [exact Hl|]); intros key (info & Hi & Hp); cbn beta; [by exists info|].
  exists info. split; [done|]. unfold is_payable, is_active in Hp. simplify_option_eq. by bool_hyps.
Qed.

(** What the payments of a block add up to. *)
Lemma rewards_of_spec reward payable :
  SN_REWARD_HF19 <= reward <= UINT64_MAX / BATCH_REWARD_FACTOR -> ~ producer_missing reward ->
  payable_listed payable ->
  exists ps, rewards_of nt conf cn_fast_hash check_key b reward st producer payable = Some ps /\
    payments_ok (major_version b) ps /\
    paid_total ps <= (reward + governance_share nt) * BATCH_REWARD_FACTOR /\
    (payable <> [] ->
     (SN_REWARD_HF19 + governance_share nt) * BATCH_REWARD_FACTOR - Z.of_nat (length payable)
       - zsum (contributors_of (service_nodes_infos st) <$> payable) <= paid_total ps).
Proof using Hok Hv.
  intros Hr Hprod Hlisted. destruct (listed_funded payable Hlisted) as [Hkeys Hfull].
  destruct (pay_fees_spec reward Hr Hprod) as (ps1 & E1 & H1 & B1).
  destruct (pay_governance_spec ps1 H1) as [H2 T2].
  set (ps2 := pay_governance _ _ _ _ _ ps1) in *.
  unfold rewards_of. rewrite (proj2 (Z.ltb_ge _ _)) by lia. rewrite (proj2 (Z.ltb_lt _ _)) by lia. rewrite E1.
  cbn [mbind option_bind]. fold ps2.
  destruct (from_coin_canonical SN_REWARD_HF19 ltac:(by vm_compute)) as [Hc0 Em0]. fold base_sn_reward in Hc0, Em0.
  set (per_sn := if (length payable =? 0)%nat then zero_money else _).
  assert (canonical per_sn /\ 0 <= milli per_sn /\ Z.of_nat (length payable) * milli per_sn <= milli base_sn_reward /\
    (payable <> [] -> milli base_sn_reward - Z.of_nat (length payable) <= Z.of_nat (length payable) * milli per_sn))
    as (Hpc & Hp0 & Hp1 & Hp2).
  { unfold per_sn. destruct payable as [|k ks]; [split_and!; [apply canonical_zero|done|by vm_compute|done]|].
    cbn [length Nat.eqb]. set (n := Z.of_nat (S (length ks))). assert (0 < n) as Hn by lia.
    destruct (milli_div base_sn_reward n Hc0 Hn) as [-> Hc].
    pose proof (Z.div_mod (milli base_sn_reward) n ltac:(lia)). pose proof (Z.mod_pos_bound (milli base_sn_reward) n Hn).
    pose proof (Z.div_pos (milli base_sn_reward) n (canonical_nonneg _ Hc0) Hn). split_and!; [done|lia|lia|lia]. }
  assert (atomic per_sn < max_intermediate) as Hmax.
  { change max_intermediate with 18446744073709551. unfold per_sn. destruct payable as [|k ks]; [done|]. cbn [length Nat.eqb].
    unfold money_div. cbn [atomic]. apply Z.le_lt_trans with (atomic base_sn_reward); [|by vm_compute].
    destruct Hc0. rewrite Z.quot_div_nonneg by lia. apply Z.div_le_upper_bound; [lia|]. nia. }
  destruct (pay_nodes_spec nt (major_version b) per_sn (service_nodes_infos st) payable ps2 Hok Hkeys Hpc Hmax H2)
    as (ps & Ep & Hps & T). exists ps. split; [exact Ep|]. split; [done|].
  destruct (node_shares (service_nodes_infos st) (milli per_sn) payable Hok Hp0) as [Hhi Hlo].
  rewrite T, T2. unfold BATCH_REWARD_FACTOR in *. split; [nia|]. intros Hne. specialize (Hlo Hfull). specialize (Hp2 Hne). nia.
Qed.
End Block.

(** ** Crediting the accounts *)

(** No account is overdrawn: the table's constraint. *)
Definition credits_ok (m : balances) : Prop := map_Forall (fun _ r => 0 <= amount r) m.

Definition credited (l l' : ledger) (x : Z) : Prop :=
  only_balances l l' /\ credits_ok (accrued (l_tables l')) /\
  credit_total (accrued (l_tables l')) = credit_total (accrued (l_tables l)) + x.

Lemma upsert_credit key new merge l :
  credits_ok (accrued (l_tables l)) -> 0 <= amount new ->
  (forall old, amount (merge old new) = amount old + amount new) ->
  exists l', statement (upsert key new merge) l = (Some tt, l') /\ credited l l' (amount new).
Proof.
  intros Hl Hn Hm. set (m := accrued (l_tables l)) in *.
  set (row := match m !! key with Some old => merge old new | None => new end).
  assert (0 <= amount row /\ amount row = amount new + from_option amount 0 (m !! key)) as [Hrow Erow].
  { unfold row. destruct (m !! key) as [old|] eqn:E; cbn; [|lia]. specialize (Hl key old E). cbn in Hl. rewrite Hm. lia. }
  assert (upsert key new merge (l_tables l) = Some (with_accrued (l_tables l) (<[key := row]> m))) as Eu.
  { unfold upsert, check_amount. fold m row. by rewrite !(proj2 (Z.leb_le _ _)). }
  unfold statement. rewrite Eu. eexists. split; [done|]. split; [done|]. cbn. split.
  - by apply map_Forall_insert_2.
  - fold m. unfold credit_total. rewrite map_sum_insert. lia.
Qed.

Lemma insert_payment_credit conf v p l :
  v < hf21_eth -> right_kind v p.1 -> canonical (sp_amount p.2) -> sp_liquidation p.2 = zero_money ->
  credits_ok (accrued (l_tables l)) ->
  exists l', insert_payment conf v true p l = (Some tt, l') /\ credited l l' (milli (sp_amount p.2)).
Proof.
  intros Hv Hk Hc Hz Hl. unfold insert_payment. rewrite (proj2 (Z.leb_gt _ _)) by done. rewrite Hz.
  destruct p.1 as [|a]; cbn in Hk; [lia|].
  assert (to_db_amount (money_sub (sp_amount p.2) zero_money) v = milli (sp_amount p.2)) as ->.
  { rewrite db_amount_milli, milli_sub by (unfold hf22_eth_fixup, hf21_eth in *; lia). change (milli zero_money) with 0. lia. }
  apply upsert_credit; [done|by apply canonical_nonneg|done].
Qed.

Lemma credited_trans l1 l2 l3 x y : credited l1 l2 x -> credited l2 l3 y -> credited l1 l3 (x + y).
Proof. intros (H1 & _ & E1) (H2 & H3 & E2). split; [by etransitivity|]. split; [done|lia]. Qed.

Lemma add_sn_rewards_credit conf v ps l :
  v < hf21_eth -> payments_ok v ps -> credits_ok (accrued (l_tables l)) ->
  exists l', add_sn_rewards conf v ps true l = (Some tt, l') /\ credited l l' (paid_total ps).
Proof.
  intros Hv Hps Hl. unfold add_sn_rewards, paid_total. rewrite map_sum_list.
  assert (Forall (fun e => right_kind v e.1 /\ canonical (sp_amount e.2) /\ sp_liquidation e.2 = zero_money) (map_to_list ps)) as Hall.
  { apply Forall_forall. intros [to p] Hin%elem_of_map_to_list. by apply Hps. }
  clear Hps. revert l Hl. induction Hall as [|e es (Hk & Hc & Hz) _ IH]; intros l Hl; cbn [for_each].
  { exists l. split; [done|]. split; [reflexivity|]. split; [done|]. cbn. lia. }
  destruct (insert_payment_credit conf v e l Hv Hk Hc Hz Hl) as (l1 & E1 & C1).
  destruct (IH l1 ltac:(apply C1)) as (l2 & E2 & C2). exists l2. unfold mbind, db_bind. rewrite E1. split; [exact E2|].
  exact (credited_trans _ _ _ _ _ C1 C2).
Qed.

(** [update_from_block] hands over such keys: the assignment of swarms that may follow keeps the nodes payable. *)
Section Update.
Context (fk : list hard_fork).
Context (cn_fast_hash : bytes -> bytes).
Context (check_signature : bytes -> bytes -> bytes -> bool).
Context (check_key : bytes -> bool).
Context (ed25519_verify : bytes -> bytes -> bytes -> bool).
Context (snpk_to_xpk : bytes -> bytes).
Context (generate_key_derivation : bytes -> bytes -> option bytes).
Context (derive_public_key : bytes -> Z -> bytes -> option bytes).
Context (derivation_to_scalar : bytes -> Z -> bytes).
Context (decodeRctSimple decodeRct : bytes -> bytes -> Z -> option Z).
Context (check_key_image_signature : bytes -> bytes -> bytes -> bool).
Context (get_tx : bytes -> option transaction).
Context (get_block_from_height : Z -> option block).
Context (find_block : bytes -> option block).
Context (apply_fixups transition : block -> state_t -> state_t).
Context (order : gmap bytes service_node_info -> list entry).
Context (fuel : nat) (sort_sizes : list swarm_size -> list swarm_size).
Context {G : Type} `{Engine G} (seed_number : Z -> G) (seed_sequence : list Z -> G).
Context (Horder : forall m, order m ≡ₚ map_to_list m).

#[local] Abbreviation update := (update_from_block fk cn_fast_hash check_signature check_key ed25519_verify snpk_to_xpk
  generate_key_derivation derive_public_key derivation_to_scalar decodeRctSimple decodeRct check_key_image_signature
  get_tx get_block_from_height find_block apply_fixups transition order fuel sort_sizes seed_number seed_sequence).

Lemma keys_where_sound test l keys :
  keys_where test l = Some keys -> Forall (fun key => exists info, (key, info) ∈ l /\ test info = Some true) keys.
Proof using Type.
  revert keys. induction l as [|[k info] l IH]; intros keys E; cbn in E; [by injection E as <-|].
  destruct (test info) as [t|] eqn:Et; cbn in E; [|done]. destruct (keys_where test l) as [ks|]; cbn in E; [|done].
  injection E as <-. assert (Forall (fun key => exists i, (key, i) ∈ (k, info) :: l /\ test i = Some true) ks) as Hks.
  { eapply Forall_impl; [by apply IH|]. intros key (i & Hi & Hp). exists i. split; [by apply list_elem_of_further|done]. }
  destruct t; [|done]. apply Forall_cons. split; [|done]. exists info. split; [apply list_elem_of_here|done].
Qed.

Lemma apply_swarms_payable nt h assigned infos infos' key info :
  apply_swarms assigned infos = Some infos' -> infos !! key = Some info -> is_payable info h nt = Some true ->
  exists info', infos' !! key = Some info' /\ is_payable info' h nt = Some true.
Proof using Type.
  revert infos info. induction assigned as [|[id k] rest IH]; intros infos info E Hi Hp; cbn [apply_swarms] in E.
  { injection E as <-. by exists info. }
  destruct (infos !! k) as [i|] eqn:Ek; cbn in E; [|done].
  destruct (swarm_id i =? id); [by eapply IH|].
  destruct (decide (k = key)) as [->|Hne].
  - rewrite Hi in Ek. injection Ek as <-. eapply IH; [exact E|by rewrite lookup_insert_eq|exact Hp].
  - eapply IH; [exact E|by rewrite lookup_insert_ne|exact Hp].
Qed.

Lemma update_lists_payable hist arch alts nt b txs feed w w' ba :
  hf19_reward_batching <= major_version b ->
  update hist arch alts nt b txs feed w = Returned (w', ba) ->
  payable_listed nt b (w_state w') (payable_nodes_hf19_onwards ba).
Proof using Horder.
  intros Hv E. unfold update_from_block in E.
  destruct (precompute _ _ _ _ _ _ _ _ _ _ _ _ _ _ _ _ _) as [pre|]; cbn [of_option mbind outcome_bind] in E; [|done].
  destruct (update_pulse _ _ _ _ _ _ _ _ _ _) as [st1| |]; cbn [mbind outcome_bind] in E; [|done..].
  destruct (update_list _ _ _ _ _ _ _ _ _ _ _ _ _ _ _ _ _ _ _ _ _ _ _) as [[[s2 w2] stakes]|];
    cbn [of_option mbind outcome_bind] in E; [|done].
  destruct (payable_nodes _ _ _ _) as [payable|] eqn:Ep; cbn [of_option mbind outcome_bind] in E; [|done].
  destruct (if s2 then _ else _) as [st3| |] eqn:E3; cbn [mbind outcome_bind] in E; [|done..].
  destruct (generate_other_quorums _ _ _ _ _ _ _ _ _ _) as [qm| |]; cbn [mbind outcome_bind] in E; [|done..].
  injection E as <- <-. unfold payable_listed. cbn [w_state with_state payable_nodes_hf19_onwards].
  unfold payable_nodes in Ep. rewrite (proj2 (Z.leb_le _ _)) in Ep by done.
  eapply Forall_impl; [exact (keys_where_sound _ _ _ Ep)|]. intros key (info & Hin & Hp). cbn beta.
  rewrite Horder in Hin. apply elem_of_map_to_list in Hin.
  change (exists i, service_nodes_infos st3 !! key = Some i /\ is_payable i (b_height b) nt = Some true).
  destruct s2; [|injection E3 as <-; by exists info]. unfold update_swarms in E3.
  destruct (calc_swarm_changes _ _ _ _) as [[sw g]| |]; cbn [mbind outcome_bind] in E3; [|done..].
  destruct (apply_swarms _ _) as [infos|] eqn:Ea; cbn [of_option mbind outcome_bind] in E3; [|done]. injection E3 as <-.
  by eapply apply_swarms_payable.
Qed.
End Update.

Lemma reward_handler_throws nt conf cn_fast_hash check_key b reward st producer ba l :
  major_version b < feature_ETH_BLS -> reward <= UINT64_MAX / BATCH_REWARD_FACTOR ->
  producer_missing b st producer reward ->
  reward_handler nt conf cn_fast_hash check_key b reward st producer ba l = (None, l).
Proof.
  intros Hv Hr Hm. unfold reward_handler, rewards_of. rewrite (proj2 (Z.ltb_ge _ _)) by lia. rewrite (proj2 (Z.ltb_lt _ _)) by lia.
  by rewrite pay_fees_missing.
Qed.

(** (C12) A block creates no money.  Before the L2 network, for a list of nodes with balanced
    books and the payable nodes that [update_from_block] reports ([update_lists_payable]),
    distributing a reward of at least the base reward throws exactly if the block has fees and
    its producer is no longer in the list after the block ([producer_missing]), and then nothing
    changes.  Otherwise the accounts together gain, in thousandths of a unit, at most the block's
    reward and the governance's share; and if there is a payable node, at least the base reward
    and that share, less one thousandth per payable node and per contributor of one. *)
Theorem block_rewards_conserved nt conf cn_fast_hash check_key b reward st producer ba l :
  hf19_reward_batching <= major_version b < feature_ETH_BLS ->
  nodes_ok (service_nodes_infos st) -> credits_ok (accrued (l_tables l)) ->
  SN_REWARD_HF19 <= reward <= UINT64_MAX / BATCH_REWARD_FACTOR ->
  let payable := payable_nodes_hf19_onwards ba in
  payable_listed nt b st payable ->
  let handled := reward_handler nt conf cn_fast_hash check_key b reward st producer ba l in
  (producer_missing b st producer reward -> handled = (None, l)) /\
  (~ producer_missing b st producer reward ->
   exists l' gain, handled = (Some tt, l') /\ credited l l' gain /\
     gain <= (reward + governance_share nt) * BATCH_REWARD_FACTOR /\
     (payable <> [] ->
      (SN_REWARD_HF19 + governance_share nt) * BATCH_REWARD_FACTOR - Z.of_nat (length payable)
        - zsum (contributors_of (service_nodes_infos st) <$> payable) <= gain)).
Proof.
  intros Hv Hok Hl Hr payable Hkeys. cbv zeta. split; [intros Hm; apply reward_handler_throws; [lia|lia|done]|]. intros Hm.
  destruct (rewards_of_spec nt b st producer Hok Hv conf cn_fast_hash check_key reward payable Hr Hm Hkeys)
    as (ps & E & Hps & Hhi & Hlo).
  assert (major_version b < hf21_eth) as Hv2 by apply Hv.
  destruct (add_sn_rewards_credit conf (major_version b) ps l Hv2 Hps Hl) as (l' & El & Hc).
  exists l', (paid_total ps). split; [|done].
  unfold reward_handler, mbind, db_bind, or_throw, get_ledger, mret, db_ret. fold payable. rewrite E.
  rewrite (proj2 (Z.leb_gt _ _)) by exact Hv2. exact El.
Qed.

(** *** Witness: two nodes with three contributors in all, one third short of a whole thousandth. *)

Definition demo_contributor (n amt : Z) : contributor_t :=
  Contributor amt amt (AccountAddress (replicate 32 n) (replicate 32 n)) (null_bytes 20) (null_bytes 20) [].
Definition demo_node (fee : Z) (cs : list contributor_t) (req : Z) : service_node_info :=
  Info 1 0 1 0 0 1 0 0 0 0 cs req req req fee 1 (AccountAddress (replicate 32 1) (replicate 32 1)) [] [] 0 9
    (PulseSortKey 0 0).
Definition demo_nodes : gmap bytes service_node_info :=
  {[ [1] := demo_node 5 [demo_contributor 1 100] 100;
     [2] := demo_node 7 [demo_contributor 1 50; demo_contributor 2 50] 100 ]}.
Definition demo_result : block_add_result := BlockAddResult (BlockStakes [] []) [[1]; [2]].

Definition demo_pulse_block (v h : Z) : block := Block v h 1000 [] [] 0 (PulseHeader (replicate 16 1) 0 2047) [] [] [] 0 0.
Definition demo_fees : Z := SN_REWARD_HF19 + 7.

Lemma block_rewards_conserved_witness :
  let nodes := State demo_nodes [] ∅ ∅ 900000 no_quorums [] 0 [] [] [] in
  let pay producer := reward_handler MAINNET mainnet_config (fun _ => []) (fun _ => true)
                        (demo_pulse_block hf21_weekly_batching 900000) demo_fees nodes producer demo_result (demo_ledger 899999) in
  (exists l' gain, pay [1] = (Some tt, l') /\ credited (demo_ledger 899999) l' gain /\
     20650000000000 - 5 <= gain <= 20650000000000 + 7000) /\
  pay [3] = (None, demo_ledger 899999).
Proof.
  cbv zeta.
  assert (H1 : stakes_ok (demo_node 5 [demo_contributor 1 100] 100)).
  { split; [done|split; cbn; [by repeat constructor|done..|apply NoDup_singleton]|apply list_elem_of_here|done]. }
  assert (H2 : stakes_ok (demo_node 7 [demo_contributor 1 50; demo_contributor 2 50] 100)).
  { split; [done|split; cbn; [by repeat constructor|done..|]|apply list_elem_of_here|done].
    apply NoDup_cons. split; [|apply NoDup_singleton]. rewrite list_elem_of_singleton. discriminate. }
  assert (Hn : nodes_ok demo_nodes).
  { unfold demo_nodes. intros key info [[_ <-]|[_ [_ <-]%lookup_singleton_Some]]%lookup_insert_Some; assumption. }
  set (nodes := State demo_nodes [] ∅ ∅ 900000 no_quorums [] 0 [] [] []).
  assert (Hp : payable_listed MAINNET (demo_pulse_block hf21_weekly_batching 900000) nodes (payable_nodes_hf19_onwards demo_result)).
  { unfold payable_listed. cbn [payable_nodes_hf19_onwards demo_result]. apply Forall_cons. split; [|apply Forall_singleton].
    - exists (demo_node 5 [demo_contributor 1 100] 100). split; vm_compute; reflexivity.
    - exists (demo_node 7 [demo_contributor 1 50; demo_contributor 2 50] 100). split; vm_compute; reflexivity. }
  split.
  - destruct (proj2 (block_rewards_conserved MAINNET mainnet_config (fun _ => []) (fun _ => true)
      (demo_pulse_block hf21_weekly_batching 900000) demo_fees nodes [1] demo_result (demo_ledger 899999)
      ltac:(by vm_compute) Hn (map_Forall_empty _) ltac:(by vm_compute) Hp)) as (l' & gain & E & Hc & Hhi & Hlo).
    { intros (_ & _ & _ & Hm). vm_compute in Hm. discriminate Hm. }
    exists l', gain. split; [exact E|]. split; [exact Hc|]. split; [|exact Hhi]. apply Hlo. discriminate.
  - apply (proj1 (block_rewards_conserved MAINNET mainnet_config (fun _ => []) (fun _ => true)
      (demo_pulse_block hf21_weekly_batching 900000) demo_fees nodes [3] demo_result (demo_ledger 899999)
      ltac:(by vm_compute) Hn (map_Forall_empty _) ltac:(by vm_compute) Hp)).
    split_and!; [by vm_compute|by vm_compute|discriminate|by vm_compute].
Defined.
