(* ===== verification/LedgerPayouts.v ===== *)
(** * Payments of accrued rewards

    Before the L2 network a block's miner transaction pays the accounts whose turn it is
    ([get_sn_payments], [validate_batch_payment] and [save_payments] of
    [blockchain_db/sqlite/db_sqlite.cpp]).  A block is refused unless its outputs are exactly the
    payments that are due; then the accounts paid keep less than one unit. *)
From stdpp Require Import gmap strings.
From S2P Require Import Prelude IntUtil Order Hardfork Config Address Reward Rules Voting Transactions L2Votes NodeProof.
From S2P Require Import ServiceNode NodeList Staking Funding Events BlockUpdate Money Ledger LedgerHistory LedgerRewards.
#[local] Open Scope Z_scope.

Definition payment_key (p : batch_sn_payment) : bytes := address_blob (bp_address p).
Definition paid_keys (ps : list batch_sn_payment) : list bytes := payment_key <$> ps.

(** What is left of an account that is paid. *)
Definition settled (r : accrued_row) : accrued_row := add_amount r (- (amount r / BATCH_REWARD_FACTOR) * BATCH_REWARD_FACTOR).

Lemma settled_amount r : amount (settled r) = amount r mod BATCH_REWARD_FACTOR.
Proof. unfold settled, add_amount. cbn. unfold BATCH_REWARD_FACTOR. lia. Qed.

(** ** The payments that are due *)

Lemma parsed_address_blob data a : parse_address data = Some a -> address_blob a = data.
Proof. unfold parse_address. case_decide; [|done]. intros [= <-]. unfold address_blob. cbn. apply take_drop. Qed.

Lemma mapM_addresses (l : list (bytes * Z)) rows :
  mapM (fun e : bytes * Z => a ← parse_address e.1; Some (a, e.2)) l = Some rows ->
  (fun e : account_public_address * Z => (address_blob e.1, e.2)) <$> rows = l.
Proof.
  intros H%mapM_Some. induction H as [|[k x] [a y] l rows E _ IH]; [done|]. cbn in *. rewrite IH.
  destruct (parse_address k) as [a'|] eqn:Ea; [|done]. cbn in E. injection E as -> ->. by rewrite (parsed_address_blob _ _ Ea).
Qed.

Lemma sublist_map {A B} (f : A -> B) l k : l `sublist_of` k -> f <$> l `sublist_of` f <$> k.
Proof. induction 1; cbn; by constructor. Qed.

Lemma rows_by_address_keys q m rows :
  rows_by_address q m = Some rows ->
  NoDup (address_blob <$> rows.*1) /\
  (forall a x, (a, x) ∈ rows -> exists r, m !! address_blob a = Some r /\ amount r = x /\ q x = true) /\
  (forall k r, m !! k = Some r -> q (amount r) = true -> exists a, (a, amount r) ∈ rows /\ address_blob a = k).
Proof.
  intros E%mapM_addresses. set (l := filter _ _) in E.
  assert (((fun e : account_public_address * Z => (address_blob e.1, e.2)) <$> rows) ≡ₚ l) as Hp
    by (rewrite E; apply sort_by_Permutation). split_and!.
  - replace (address_blob <$> rows.*1) with ((fun e => (address_blob e.1, e.2)) <$> rows).*1
      by (rewrite <- !list_fmap_compose; done). rewrite Hp. unfold l.
    eapply sublist_NoDup; [|apply sublist_map, sublist_filter]. rewrite <- list_fmap_compose. apply NoDup_fst_map_to_list.
  - intros a x Hin. assert ((address_blob a, x) ∈ l) as Hl.
    { rewrite <- Hp. by apply (list_elem_of_fmap_2 (fun e : account_public_address * Z => (address_blob e.1, e.2))) in Hin. }
    apply list_elem_of_filter in Hl as [Hq Hl]. apply list_elem_of_fmap in Hl as ([k r] & [= -> ->] & Hr%elem_of_map_to_list).
    by exists r.
  - intros k r Hk Hq. assert ((k, amount r) ∈ l) as Hl.
    { apply list_elem_of_filter. split; [done|]. apply list_elem_of_fmap. exists (k, r). split; [done|]. by apply elem_of_map_to_list. }
    rewrite <- Hp in Hl. apply list_elem_of_fmap in Hl as ([a x] & [= -> ->] & Hin). by exists a.
Qed.

Lemma rows_by_address_iff q m rows :
  rows_by_address q m = Some rows ->
  forall a x, (a, x) ∈ rows <-> exists k r, m !! k = Some r /\ parse_address k = Some a /\ amount r = x /\ q x = true.
Proof.
  intros E a x. destruct (rows_by_address_keys _ _ _ E) as (_ & Hs & Hc).
  assert (forall a x, (a, x) ∈ rows -> parse_address (address_blob a) = Some a) as Hparse.
  { intros a' x' [i Hi]%list_elem_of_lookup. apply mapM_Some in E. destruct (Forall2_lookup_r _ _ _ _ _ E Hi) as ([k y] & _ & Ek). cbn in Ek.
    destruct (parse_address k) as [a''|] eqn:Ek'; [|done]. cbn in Ek. injection Ek as -> _. by rewrite (parsed_address_blob _ _ Ek'). }
  split.
  - intros Hin. destruct (Hs a x Hin) as (r & Hr & Hx & Hq). exists (address_blob a), r. split_and!; [done|by eapply Hparse|done|done].
  - intros (k & r & Hk & Hp & <- & Hq). destruct (Hc k r Hk Hq) as (a' & Hin & Hb). assert (a' = a) as ->; [|done].
    pose proof (Hparse a' _ Hin) as Hp'. rewrite Hb in Hp'. congruence.
Qed.

Section Due.
Context (fk : list hard_fork) (nt : network_type) (conf : network_config).
Context (registered_for_transition : Z -> account_public_address -> bool).

(** The payment of an account. *)
Definition pays (m : balances) (p : batch_sn_payment) : Prop :=
  exists r, m !! payment_key p = Some r /\ bp_amount p = RewardMoney (Z.quot (amount r) BATCH_REWARD_FACTOR) 0.

Lemma payments_due h l ps :
  get_network_version fk nt h < hf22_eth_fixup ->
  get_sn_payments fk nt conf registered_for_transition h l = Some ps ->
  NoDup (payment_key <$> ps) /\ Forall (pays (accrued (l_tables l))) ps.
Proof using Type.
  intros Hv. unfold get_sn_payments. case_match; [intros [= <-]; split; [apply NoDup_nil_2|constructor]|].
  set (v := get_network_version fk nt h) in *.
  intros (slot & E1 & (rows & Ed & [= <-])%bind_Some)%bind_Some.
  assert (exists q all, rows_by_address q (accrued (l_tables l)) = Some all /\ rows `sublist_of` all) as (q & all & Ea & Hsub).
  { destruct (is_final_payout _ _ _).
    - apply fmap_Some in Ed as (all & Ea & ->). exists (fun _ => true), all. split; [done|]. apply sublist_filter.
    - injection Ed as <-. eexists _, slot. split; [exact E1|]. apply sublist_filter. }
  destruct (rows_by_address_keys _ _ _ Ea) as (Hn & Hs & _). split.
  - replace (payment_key <$> (payment_of v <$> rows)) with (address_blob <$> rows.*1)
      by (rewrite <- !list_fmap_compose; done).
    eapply sublist_NoDup; [exact Hn|]. by do 2 apply sublist_map.
  - apply Forall_fmap, Forall_forall. intros [a x] Hin. unfold compose.
    destruct (Hs a x) as (r & Hr & <- & _); [by eapply elem_of_sublist|]. exists r. split; [done|].
    unfold payment_of, truncate, from_db_amount. cbn [bp_amount fst snd]. by rewrite (proj2 (Z.leb_gt _ _)).
Qed.

(** When an account is due: in its slot if it holds the minimum, and in the last block before the L2 network if its owner has not
    registered for the transition and it holds a unit. *)
Definition account_due (h : Z) (a : account_public_address) (r : accrued_row) : Prop :=
  let v := get_network_version fk nt h in
  if is_final_payout fk nt h
  then registered_for_transition h a = false /\ 0 < to_coin (from_db_amount (amount r) v)
  else min_batch_payment_amount conf v * BATCH_REWARD_FACTOR <= amount r /\
       modulus a (batching_interval conf v) = h mod batching_interval conf v.
Definition batching_started (h : Z) : Prop := nt = FAKECHAIN \/ default 0 (hard_fork_begins fk nt hf19_reward_batching) < h.

Lemma payments_exact h l ps :
  get_sn_payments fk nt conf registered_for_transition h l = Some ps ->
  forall k, k ∈ paid_keys ps <->
    batching_started h /\ exists r a, accrued (l_tables l) !! k = Some r /\ parse_address k = Some a /\ account_due h a r.
Proof using Type.
  unfold get_sn_payments, batching_started, account_due. intros E k. case_match eqn:Es.
  { injection E as <-. apply andb_true_iff in Es as [Ef%negb_true_iff%bool_decide_eq_false Eh%Z.leb_le].
    split; [by intros ?%not_elem_of_nil|]. intros [[?|?] _]; [done|lia]. }
  assert (nt = FAKECHAIN \/ default 0 (hard_fork_begins fk nt hf19_reward_batching) < h) as Hs.
  { apply andb_false_iff in Es as [Ef%negb_false_iff%bool_decide_eq_true|Eh%Z.leb_gt]; auto. }
  set (v := get_network_version fk nt h) in *. apply bind_Some in E as (slot & E1 & (rows & Ed & [= <-])%bind_Some).
  assert (forall a x, (a, x) ∈ rows <-> exists k' r, accrued (l_tables l) !! k' = Some r /\ parse_address k' = Some a /\ amount r = x /\
    (if is_final_payout fk nt h then registered_for_transition h a = false /\ 0 < to_coin (from_db_amount (amount r) v)
     else min_batch_payment_amount conf v * BATCH_REWARD_FACTOR <= amount r /\
          modulus a (batching_interval conf v) = h mod batching_interval conf v)) as Hrows.
  { intros a x. destruct (is_final_payout fk nt h).
    - apply fmap_Some in Ed as (all & Ea & ->). unfold due_finally. rewrite list_elem_of_filter, (rows_by_address_iff _ _ _ Ea). cbn.
      rewrite andb_true_iff, negb_true_iff, Z.ltb_lt. split.
      + intros ([H1 H2] & k' & r & Hk & Hp & <- & _). exists k', r. done.
      + intros (k' & r & Hk & Hp & <- & H1 & H2). split; [done|]. by exists k', r.
    - injection Ed as <-. unfold due_in_slot. rewrite list_elem_of_filter, (rows_by_address_iff _ _ _ E1). cbn. setoid_rewrite Z.leb_le. split.
      + intros (Hm & k' & r & Hk & Hp & <- & Hq). exists k', r. done.
      + intros (k' & r & Hk & Hp & <- & Hq & Hm). split; [done|]. by exists k', r. }
  unfold paid_keys. rewrite <- list_fmap_compose, list_elem_of_fmap. split.
  - intros ([a x] & -> & Hin). split; [done|]. apply Hrows in Hin as (k' & r & Hk & Hp & <- & Hd). unfold compose, payment_key. cbn.
    rewrite (parsed_address_blob _ _ Hp). by exists r, a.
  - intros (_ & r & a & Hk & Hp & Hd). exists (a, amount r). unfold compose, payment_key. cbn. rewrite (parsed_address_blob _ _ Hp). split; [done|].
    apply Hrows. by exists k, r.
Qed.
End Due.

(** ** Paying them *)

Definition paid_sum (ps : list batch_sn_payment) : Z := zsum ((fun p => atomic (bp_amount p)) <$> ps).

Lemma settled_payment r :
  0 <= amount r -> add_amount r (- to_db_amount (RewardMoney (Z.quot (amount r) BATCH_REWARD_FACTOR) 0) hf20_eth_transition) = settled r.
Proof.
  intros Hr. unfold settled. f_equal. unfold to_db_amount, BATCH_REWARD_FACTOR. cbn [atomic subatomic].
  rewrite (proj2 (Z.leb_gt _ _)) by by vm_compute. rewrite Z.quot_div_nonneg by lia. lia.
Qed.

Lemma money_eqb_eq a b : money_eqb a b = true <-> a = b.
Proof.
  unfold money_eqb. rewrite andb_true_iff, !Z.eqb_eq. destruct a, b. cbn. split; [intros [-> ->]; done|by intros [= -> ->]].
Qed.

Lemma save_each_settles ps l :
  NoDup (paid_keys ps) -> Forall (pays (accrued (l_tables l))) ps -> credits_ok (accrued (l_tables l)) ->
  exists l', save_each ps l = (Some true, l') /\ only_balances l l' /\
    (forall k, accrued (l_tables l') !! k =
       if bool_decide (k ∈ paid_keys ps) then settled <$> accrued (l_tables l) !! k else accrued (l_tables l) !! k) /\
    credits_ok (accrued (l_tables l')) /\
    credit_total (accrued (l_tables l')) = credit_total (accrued (l_tables l)) - paid_sum ps * BATCH_REWARD_FACTOR.
Proof.
  revert l. induction ps as [|p ps IH]; intros l Hn Hp Hl.
  { exists l. split_and!; [done|reflexivity| |done|unfold paid_sum, BATCH_REWARD_FACTOR; cbn; lia].
    intros k. rewrite bool_decide_eq_false_2; [done|apply not_elem_of_nil]. }
  apply NoDup_cons in Hn as [Hnp Hn]. apply Forall_cons in Hp as [(r & Hr & Ea) Hp].
  set (m := accrued (l_tables l)) in *. pose proof (Hl _ _ Hr) as Hnn. cbn in Hnn.
  set (l1 := with_tables l (with_accrued (l_tables l) (<[payment_key p := settled r]> m))).
  assert (0 <= amount (settled r)) as Hs.
  { rewrite settled_amount. apply Z.mod_pos_bound. done. }
  destruct (IH l1) as (l' & E & Ho & Hk & Hc & Ht).
  - done.
  - apply Forall_forall. intros q Hq. rewrite Forall_forall in Hp. destruct (Hp q Hq) as (rq & Hrq & Eq). exists rq. split; [|done]. cbn.
    rewrite lookup_insert_ne; [done|]. intros Heq. apply Hnp. rewrite Heq. by apply list_elem_of_fmap_2.
  - cbn. by apply map_Forall_insert_2.
  - exists l'. split_and!.
    + cbn [save_each]. unfold mbind at 1, db_bind at 1, get_ledger.
      match goal with |- match ?x with Some _ => _ | None => _ end l = _ => replace x with (Some r) by exact (eq_sym Hr) end.
      assert (truncate (from_db_amount (amount r) hf20_eth_transition) = bp_amount p) as Et by (rewrite Ea; done).
      rewrite Et, (proj2 (money_eqb_eq _ _) eq_refl). cbn [negb]. unfold mbind, db_bind, statement, update_row.
      match goal with |- context [match ?x with Some _ => if check_amount _ then _ else _ | None => _ end] =>
        replace x with (Some r) by exact (eq_sym Hr) end.
      rewrite Ea, settled_payment by done. unfold check_amount. rewrite (proj2 (Z.leb_le _ _)) by done. exact E.
    + etransitivity; [|exact Ho]. done.
    + intros k. rewrite Hk. cbn [l1 l_tables with_tables with_accrued accrued].
      change (paid_keys (p :: ps)) with (payment_key p :: paid_keys ps).
      destruct (decide (k = payment_key p)) as [->|Hne].
      * rewrite (bool_decide_eq_false_2 (payment_key p ∈ paid_keys ps)), (bool_decide_eq_true_2 (_ ∈ _ :: _)) by (try done; by left).
        by rewrite lookup_insert_eq, Hr.
      * rewrite lookup_insert_ne by done. rewrite (bool_decide_ext (k ∈ payment_key p :: paid_keys ps) (k ∈ paid_keys ps)); [done|].
        rewrite elem_of_cons. tauto.
    + done.
    + rewrite Ht. cbn [l1 l_tables with_tables with_accrued accrued]. unfold credit_total. rewrite map_sum_insert, Hr.
      cbn [from_option]. rewrite settled_amount. unfold paid_sum, zsum. cbn [fmap list_fmap foldr]. rewrite Ea. cbn [atomic].
      rewrite Z.quot_div_nonneg by (unfold BATCH_REWARD_FACTOR; lia). unfold BATCH_REWARD_FACTOR. lia.
Qed.

(** Without the accounts that are empty. *)
Lemma credit_total_nonzero (m : balances) : credit_total (filter (fun e => amount e.2 <> 0) m) = credit_total m.
Proof.
  induction m as [|k r m Hk IH] using map_ind; [done|].
  assert (credit_total (<[k := r]> m) = amount r + credit_total m) as -> by by apply map_sum_new.
  rewrite map_filter_insert. case_decide as E; cbn in E.
  - unfold credit_total at 1. rewrite map_sum_new; [by fold (credit_total (filter (fun e => amount e.2 <> 0) m)); rewrite IH|].
    apply map_lookup_filter_None. by left.
  - rewrite map_filter_delete, delete_id; [rewrite IH; lia|]. apply map_lookup_filter_None. by left.
Qed.

(** *** The outputs of the block *)

(** One output for each payment, with its amount, to the key derived for its position. *)
Definition outputs_due (output_key : Z -> account_public_address -> Z -> option bytes) (h : Z)
    (vouts : list (bytes * Z)) (ps : list batch_sn_payment) : Prop :=
  length vouts = length ps /\
  forall i v p, vouts !! i = Some v -> ps !! i = Some p ->
    from_coin v.2 = bp_amount p /\ output_key h (bp_address p) (Z.of_nat i) = Some v.1.

Lemma outputs_match_iff output_key h n vouts ps :
  length vouts = length ps ->
  outputs_match output_key h (Z.of_nat n) vouts ps = true <->
  forall i v p, vouts !! i = Some v -> ps !! i = Some p ->
    from_coin v.2 = bp_amount p /\ output_key h (bp_address p) (Z.of_nat (n + i)) = Some v.1.
Proof.
  revert n ps. induction vouts as [|[pk amt] vouts IH]; intros n [|p ps] Hl; try done.
  cbn [outputs_match]. injection Hl as Hl. specialize (IH (S n) ps Hl).
  replace (Z.of_nat n + 1) with (Z.of_nat (S n)) by lia.
  assert (forall P : nat -> Prop, (forall i, P i) <-> P 0%nat /\ forall i, P (S i)) as Hsplit.
  { intros P. split; [auto|]. intros [H0 HS] [|i]; auto. }
  rewrite Hsplit. cbn [lookup list_lookup]. setoid_rewrite Nat.add_succ_r. setoid_rewrite Nat.add_succ_l in IH.
  rewrite <- IH. rewrite Nat.add_0_r.
  destruct (money_eqb (from_coin amt) (bp_amount p)) eqn:Em; cbn [negb].
  - apply money_eqb_eq in Em. destruct (output_key h (bp_address p) (Z.of_nat n)) as [key|] eqn:Ek.
    + case_bool_decide as Eq; split; try done.
      * intros H. split; [|done]. intros v p' [= <-] [= <-]. subst. by rewrite Ek.
      * by intros [_ H].
      * intros [H _]. destruct (H _ _ eq_refl eq_refl) as [_ E]. cbn in E. congruence.
    + split; [done|]. intros [H _]. destruct (H _ _ eq_refl eq_refl) as [_ E]. cbn in E. congruence.
  - split; [done|]. intros [H _]. destruct (H _ _ eq_refl eq_refl) as [E _]. cbn in E.
    apply money_eqb_eq in E. congruence.
Qed.

Lemma outputs_due_amounts output_key h vouts ps :
  outputs_due output_key h vouts ps -> from_coin <$> vouts.*2 = bp_amount <$> ps.
Proof.
  intros [Hl H]. apply list_eq_same_length with (length ps); rewrite ?length_fmap; [done|lia|].
  intros i x y _ Hx Hy. apply list_lookup_fmap_Some in Hx as (a & -> & Ha).
  apply list_lookup_fmap_Some in Ha as (v & -> & Hv). apply list_lookup_fmap_Some in Hy as (p & -> & Hp).
  by destruct (H i v p Hv Hp).
Qed.

(** What an account is after the block's payments. *)
Definition after_payments (ps : list batch_sn_payment) (k : bytes) (r : accrued_row) : option accrued_row :=
  let r := if bool_decide (k ∈ paid_keys ps) then settled r else r in
  match ps with
  | [] => Some r
  | _ => if amount r =? 0 then None else Some r
  end.

Lemma save_payments_settles ps l :
  NoDup (paid_keys ps) -> Forall (pays (accrued (l_tables l))) ps -> credits_ok (accrued (l_tables l)) ->
  exists l', save_payments ps l = (Some true, l') /\ only_balances l l' /\
    (forall k, accrued (l_tables l') !! k = accrued (l_tables l) !! k ≫= after_payments ps k) /\
    credit_total (accrued (l_tables l')) = credit_total (accrued (l_tables l)) - paid_sum ps * BATCH_REWARD_FACTOR.
Proof.
  intros Hn Hp Hl. destruct (save_each_settles ps l Hn Hp Hl) as (l1 & E & Ho & Hk & Hc & Ht).
  unfold save_payments, mbind at 1, db_bind. rewrite E. cbn [negb].
  destruct ps as [|p ps]; cbn [length Nat.eqb].
  - exists l1. split_and!; [done|done| |done]. intros k. rewrite Hk, bool_decide_eq_false_2 by apply not_elem_of_nil.
    destruct (accrued (l_tables l) !! k); [|done]. unfold after_payments. cbn.
    by rewrite bool_decide_eq_false_2 by apply not_elem_of_nil.
  - unfold mbind, db_bind, statement, delete_empty. eexists. split; [done|]. split_and!.
    + etransitivity; [exact Ho|]. done.
    + intros k. cbn [l_tables with_tables with_accrued accrued]. rewrite map_lookup_filter, Hk.
      unfold after_payments. destruct (accrued (l_tables l) !! k) as [r|]; [|by case_bool_decide].
      set (r' := if bool_decide (k ∈ paid_keys (p :: ps)) then settled r else r).
      replace (if bool_decide (k ∈ paid_keys (p :: ps)) then settled <$> Some r else Some r) with (Some r') by (unfold r'; by case_bool_decide).
      cbn [mbind option_bind]. fold r'.
      destruct (Z.eqb_spec (amount r') 0); [by rewrite option_guard_False by (cbn; tauto)|by rewrite option_guard_True by done].
    + cbn [l_tables with_tables with_accrued accrued]. by rewrite credit_total_nonzero.
Qed.

(** (C13) Accrued rewards are paid exactly.  Before the L2 network, [get_sn_payments] lists an account if and only if it is due: once
    batching has started, in its slot if it holds the minimum, and in the last block before the L2 network if it holds a unit and is
    not registered for the transition; each account once, with its amount in whole units.  The block's payments are accepted if and
    only if its outputs are that list, in order, to the keys derived for them; then every account paid keeps the fraction of a
    unit it has, the others are unchanged (empty ones are removed), and the accounts together lose what was paid.
    Otherwise nothing changes. *)
Theorem batch_payments_settle fk nt conf registered_for_transition output_key h l ps vouts :
  get_network_version fk nt h < hf22_eth_fixup -> credits_ok (accrued (l_tables l)) ->
  get_sn_payments fk nt conf registered_for_transition h l = Some ps ->
  (forall k, k ∈ paid_keys ps <->
     batching_started fk nt h /\
     exists r a, accrued (l_tables l) !! k = Some r /\ parse_address k = Some a /\ account_due fk nt conf registered_for_transition h a r) /\
  NoDup (paid_keys ps) /\
  Forall (fun p => exists r, accrued (l_tables l) !! payment_key p = Some r /\ bp_amount p = RewardMoney (amount r / BATCH_REWARD_FACTOR) 0) ps /\
  (outputs_due output_key h vouts ps ->
   exists l', validate_batch_payment output_key vouts ps h false l = (Some true, l') /\ only_balances l l' /\
     (forall k, accrued (l_tables l') !! k = accrued (l_tables l) !! k ≫= after_payments ps k) /\
     credit_total (accrued (l_tables l')) = credit_total (accrued (l_tables l)) - paid_sum ps * BATCH_REWARD_FACTOR) /\
  (~ outputs_due output_key h vouts ps ->
   validate_batch_payment output_key vouts ps h false l = (Some false, l)).
Proof.
  intros Hv Hl E. destruct (payments_due fk nt conf registered_for_transition h l ps Hv E) as [Hn Hp].
  split_and!; [by apply payments_exact|done|..].
  - eapply Forall_impl; [exact Hp|]. intros p (r & Hr & Ep). exists r. split; [done|]. rewrite Ep. f_equal.
    pose proof (Hl _ _ Hr) as Hnn. cbn in Hnn. apply Z.quot_div_nonneg; [done|by vm_compute].
  - intros Hd. unfold validate_batch_payment. rewrite (outputs_due_amounts _ _ _ _ Hd), Z.eqb_refl.
    destruct Hd as [Hlen Hd]. pose proof (proj2 (outputs_match_iff output_key h 0 vouts ps Hlen) Hd) as Em.
    change (Z.of_nat 0) with 0 in Em. rewrite Hlen, Nat.eqb_refl, Em.
    cbn [negb andb orb]. by apply save_payments_settles.
  - intros Hd. unfold validate_batch_payment. cbn [negb andb].
    destruct (Nat.eqb_spec (length vouts) (length ps)) as [Hlen|]; [|done]. cbn [negb orb].
    destruct (outputs_match output_key h 0 vouts ps) eqn:Em; [|done].
    destruct Hd. split; [done|]. exact (proj1 (outputs_match_iff output_key h 0 vouts ps Hlen) Em).
Qed.

(** *** Witness: two accounts in the slot, one of them above the minimum of mainnet. *)

Definition demo_account (n : Z) : account_public_address := AccountAddress (replicate 32 n) (replicate 32 0).
Definition demo_row (x : Z) : accrued_row := AccruedRow x (Some 0) 0 0 0 0.
Definition demo_accounts : ledger :=
  Ledger (Tables {[ address_blob (demo_account 1) := demo_row 7000000123; address_blob (demo_account 2) := demo_row 1000000000234;
                    address_blob (demo_account 3) := demo_row 999 ]} ∅ ∅ [] 1007999) 1007999 None 0 0.
Definition demo_output_key (h : Z) (a : account_public_address) (i : Z) : option bytes := Some (h :: i :: m_spend_public_key a).

Lemma demo_accounts_ok : credits_ok (accrued (l_tables demo_accounts)).
Proof. do 2 (apply map_Forall_insert_2; [done|]). by apply map_Forall_singleton. Qed.

Lemma batch_payments_settle_witness :
  exists l', validate_batch_payment demo_output_key [(1008000 :: 0 :: replicate 32 2, 1000000000)]
      [BatchPayment (demo_account 2) (RewardMoney 1000000000 0)] 1008000 false demo_accounts = (Some true, l') /\
    accrued (l_tables l') !! address_blob (demo_account 2) = Some (demo_row 234).
Proof.
  assert (E : get_sn_payments [] MAINNET mainnet_config (fun _ _ => false) 1008000 demo_accounts
    = Some [BatchPayment (demo_account 2) (RewardMoney 1000000000 0)]) by (vm_compute; reflexivity).
  destruct (batch_payments_settle [] MAINNET mainnet_config (fun _ _ => false) demo_output_key 1008000 demo_accounts _
    [(1008000 :: 0 :: replicate 32 2, 1000000000)] ltac:(vm_compute; reflexivity)
    demo_accounts_ok E) as (_ & _ & _ & Hpay & _).
  destruct Hpay as (l' & El & _ & Hk & _).
  - split; [done|]. intros [|i] x p Hx Hp; [|done]. injection Hx as <-. injection Hp as <-. split; vm_compute; reflexivity.
  - exists l'. split; [exact El|]. rewrite Hk. vm_compute. reflexivity.
Defined.
