(* ===== verification/LedgerStakes.v ===== *)
(** * What an address can claim on the L2 network

    From [hf21_eth] on the ledger tells each address the total it may ever claim.  The ledger
    keeps that total beside the rewards and the returned stakes it consists of, in units that
    change at [hf22_eth_fixup]; the three are shown to agree, which [wallet_info] of
    [blockchain_db/sqlite/db_sqlite.cpp] asserts. *)
From stdpp Require Import gmap strings.
From S2P Require Import Prelude IntUtil Order Hardfork Config Address Reward Rules Voting Transactions L2Votes NodeProof.
From S2P Require Import ServiceNode NodeList Staking Funding Events BlockUpdate Money Ledger LedgerHistory LedgerRewards.
#[local] Open Scope Z_scope.

(** The unit of [amount] and [lifetime_rewards], in the unit of the stakes. *)
Definition unit_of (v : hf) : Z := if hf22_eth_fixup <=? v then 1 else BATCH_REWARD_FACTOR.

Definition claimable (v : hf) (r : accrued_row) : Prop :=
  0 <= lifetime_unlocked_stakes r /\ 0 <= lifetime_rewards r /\
  amount r = lifetime_unlocked_stakes r * unit_of v + lifetime_rewards r.

(** Of every L2 address. *)
Definition claims_ok (v : hf) (l : ledger) : Prop :=
  map_Forall (fun k r => length k = 20%nat -> claimable v r) (accrued (l_tables l)).

Definition claims_kept (v : hf) : relation ledger := fun l l' => claims_ok v l -> claims_ok v l'.
#[export] Instance claims_kept_refl v : Reflexive (claims_kept v).
Proof. by intros l H. Qed.
#[export] Instance claims_kept_trans v : Transitive (claims_kept v).
Proof. intros x y z Hxy Hyz H. auto. Qed.

Lemma upsert_claims v key new merge :
  (0 <= amount new -> claimable v new) ->
  (forall old, 0 <= amount new -> claimable v old -> claimable v (merge old new)) ->
  keeps_to (claims_kept v) (statement (upsert key new merge)).
Proof.
  intros Hnew Hmerge l Hl. unfold statement, upsert. case_match eqn:E; [|done]. case_match eqn:Ec; [|done]. injection E as <-.
  bool_hyps. unfold check_amount in *. bool_hyps. apply map_Forall_insert_2; [|done].
  destruct (accrued (l_tables l) !! key) as [old|] eqn:Eo; intros Hk; [|auto]. apply Hmerge; [done|]. by apply (Hl key old Eo).
Qed.

Lemma update_row_claims v key f :
  (forall r, claimable v r -> claimable v (f r)) -> keeps_to (claims_kept v) (statement (update_row key f)).
Proof.
  intros Hf l Hl. unfold statement, update_row. case_match eqn:E; [|done]. case_match eqn:Eo.
  - case_match; [|done]. injection E as <-. apply map_Forall_insert_2; [|done]. intros Hk. apply Hf. by apply (Hl key _ Eo).
  - injection E as <-. by destruct l.
Qed.

(** ** Rewards and returned stakes *)

(** A whole number of units, in 64 bits. *)
Definition whole (m : reward_money) : Prop := subatomic m = 0 /\ 0 <= atomic m < 2 ^ 63.

Lemma whole_db m v : whole m -> to_db_amount m v = to_db_atomic m * unit_of v /\ 0 <= to_db_atomic m.
Proof.
  intros [Hs Ha]. unfold to_db_amount, to_db_atomic, to_coin, unit_of, round. rewrite Hs. cbn [atomic].
  rewrite u64_small, s64_small by width. change (BATCH_REWARD_FACTOR / 2 <=? 0) with false.
  change (0 <=? Z.quot (- BATCH_REWARD_FACTOR) 2) with false. destruct (hf22_eth_fixup <=? v); lia.
Qed.

Lemma insert_reward_claims conf v p : hf21_eth <= v -> keeps_to (claims_kept v) (insert_payment conf v true p).
Proof.
  intros Hv. unfold insert_payment. rewrite (proj2 (Z.leb_le _ _)) by done. apply upsert_claims.
  - unfold claimable. cbn. lia.
  - unfold claimable, add_reward. cbn. lia.
Qed.

Lemma insert_stake_claims conf v p :
  hf21_eth <= v -> whole (money_sub (sp_amount p.2) (sp_liquidation p.2)) ->
  keeps_to (claims_kept v) (insert_payment conf v false p).
Proof.
  intros Hv Hw. unfold insert_payment. rewrite (proj2 (Z.leb_le _ _)) by done.
  destruct (whole_db _ v Hw) as [E Hpos]. rewrite E. apply upsert_claims.
  - unfold claimable. cbn. lia.
  - unfold claimable, add_unlocked. cbn. lia.
Qed.

Lemma submit_stakes_claims v ba : keeps_to (claims_kept v) (submit_stakes_metadata ba).
Proof.
  unfold submit_stakes_metadata. frame; [apply upsert_claims|apply update_row_claims]; unfold claimable, add_locked; cbn; lia.
Qed.

(** *** Payments that are due *)

Definition delayed_ok (rows : list delayed_row) : Prop :=
  Forall (fun r => 0 <= dr_liquidation_amount r <= dr_amount r) rows /\ zsum (dr_amount <$> rows) < 2 ^ 63.

Definition whole_upto (total : Z) (p : sql_payment) : Prop :=
  subatomic (sp_amount p) = 0 /\ subatomic (sp_liquidation p) = 0 /\
  0 <= atomic (sp_liquidation p) <= atomic (sp_amount p) /\ atomic (sp_amount p) <= total.

Lemma money_add_whole a b : subatomic a = 0 -> subatomic b = 0 -> money_add a b = RewardMoney (atomic a + atomic b) 0.
Proof. intros Ha Hb. unfold money_add. rewrite Ha, Hb. cbn. rewrite Z.add_0_r, !andb_false_r. done. Qed.

Lemma sum_delayed_whole rows (ps : block_payments) total :
  Forall (fun r => 0 <= dr_liquidation_amount r <= dr_amount r) rows -> 0 <= total ->
  total + zsum (dr_amount <$> rows) < 2 ^ 63 -> map_Forall (fun _ p => whole_upto total p) ps ->
  map_Forall (fun _ p => whole_upto (2 ^ 63 - 1) p) (foldl add_due ps rows).
Proof.
  intros Hrows. revert ps total. induction Hrows as [|r rows Hr Hrows IH]; intros ps total Ht Hsum Hps; cbn [foldl].
  - eapply map_Forall_impl; [exact Hps|]. intros k p (? & ? & ? & ?). change (zsum (dr_amount <$> [])) with 0 in Hsum. split_and!; [done|done|lia|lia|lia].
  - assert (0 <= zsum (dr_amount <$> rows)) as Hz.
    { apply zsum_nonneg_all, Forall_fmap. eapply Forall_impl; [exact Hrows|]. intros x Hx. unfold compose; cbn in *; lia. }
    change (zsum (dr_amount <$> r :: rows)) with (dr_amount r + zsum (dr_amount <$> rows)) in Hsum.
    apply (IH _ (total + dr_amount r)); [lia|lia|]. apply map_Forall_insert_2.
    + destruct (ps !! EthAddress (dr_eth_address r)) as [p|] eqn:E; cbn [default from_option id].
      * destruct (Hps _ _ E) as (H1 & H2 & H3 & H4). unfold whole_upto. cbn [sp_amount sp_liquidation].
        rewrite !money_add_whole by done. unfold from_db_atomic, from_coin. cbn [atomic subatomic].
        rewrite !s64_small by width. split_and!; [done..|lia|lia|lia].
      * unfold whole_upto. cbn [sp_amount sp_liquidation no_payment]. rewrite !money_add_whole by done.
        unfold from_db_atomic, from_coin. cbn [atomic subatomic zero_money]. rewrite !s64_small by width.
        split_and!; [done..|lia|lia|lia].
    + eapply map_Forall_impl; [exact Hps|]. intros k p (? & ? & ? & ?). split_and!; [done|done|lia|lia|lia].
Qed.

Lemma zsum_filter_le (P : delayed_row -> Prop) `{forall r, Decision (P r)} rows :
  Forall (fun r => 0 <= dr_amount r) rows -> zsum (dr_amount <$> filter P rows) <= zsum (dr_amount <$> rows).
Proof.
  unfold zsum. induction 1 as [|r rows Hr _ IH]; [done|]. rewrite filter_cons. case_decide; cbn in *; lia.
Qed.

Lemma delayed_whole h l :
  delayed_ok (delayed (l_tables l)) ->
  map_Forall (fun _ p => whole (money_sub (sp_amount p) (sp_liquidation p))) (get_delayed_payments h l).
Proof.
  intros [Hrows Hsum]. unfold get_delayed_payments, sum_delayed.
  pose proof (Forall_impl _ (fun r => 0 <= dr_amount r) _ Hrows ltac:(cbn; lia)) as Hnn.
  eapply map_Forall_impl; [apply (sum_delayed_whole _ _ 0)|].
  - apply Forall_forall. intros r [_ Hr]%list_elem_of_filter. rewrite Forall_forall in Hrows. by apply Hrows.
  - done.
  - pose proof (zsum_filter_le (fun r => dr_payout_height r = h) _ Hnn). lia.
  - apply map_Forall_empty.
  - intros k p (H1 & H2 & H3 & H4). unfold money_sub. rewrite money_add_whole by (cbn; lia). split; [done|]. cbn. lia.
Qed.

(** ** A block *)

Section Block.
Context (fk : list hard_fork) (nt : network_type) (conf : network_config).
Context (cn_fast_hash : bytes -> bytes) (check_key : bytes -> bool).
Context (output_key : Z -> account_public_address -> Z -> option bytes).
Context (registered_for_transition : Z -> account_public_address -> bool).
Context (b : block) (Hv : hf21_eth <= major_version b).

Lemma reward_handler_claims reward st producer ba l :
  delayed_ok (delayed (l_tables l)) -> claims_ok (major_version b) l ->
  claims_ok (major_version b) (reward_handler nt conf cn_fast_hash check_key b reward st producer ba l).2.
Proof using Hv.
  intros Hd Hl. unfold reward_handler, mbind, db_bind, or_throw, get_ledger.
  destruct (rewards_of _ _ _ _ _ _ _ _ _) as [ps|]; [|done]. rewrite (proj2 (Z.leb_le _ _)) by done.
  assert (claims_ok (major_version b)
    (add_sn_rewards conf (major_version b) (get_delayed_payments (b_height b) l) false l).2) as H1.
  { unfold add_sn_rewards. pose proof (delayed_whole (b_height b) l Hd) as Hw.
    assert (Forall (fun e => whole (money_sub (sp_amount e.2) (sp_liquidation e.2)))
      (map_to_list (get_delayed_payments (b_height b) l))) as Hall.
    { apply Forall_forall. intros [to p] Hin%elem_of_map_to_list. by apply (Hw to p). }
    clear Hd Hw. revert l Hl Hall. intros l0. generalize (map_to_list (get_delayed_payments (b_height b) l0)). intros es Hl Hall.
    revert l0 Hl. induction Hall as [|e es He _ IH]; intros l0 Hl; [done|]. cbn [for_each]. unfold mbind, db_bind.
    pose proof (insert_stake_claims conf _ e Hv He l0 Hl) as H1.
    destruct (insert_payment conf (major_version b) false e l0) as [[[]|] l1]; [by apply IH|done]. }
  destruct (add_sn_rewards _ _ _ false l) as [[[]|] l1]; [|done].
  assert (keeps_to (claims_kept (major_version b)) (add_sn_rewards conf (major_version b) ps true)) as H2.
  { apply keeps_for_each; [typeclasses eauto..|]. intros p. by apply insert_reward_claims. }
  by apply H2.
Qed.

Lemma update_height_accrued h l : accrued (l_tables (update_height conf h l).2) = accrued (l_tables l).
Proof using Type.
  unfold update_height, statement, update_info, make_recent, make_archive, clear_recent_and_archive, insert_rows.
  cbn [l_tables with_height]. repeat case_match; simplify_option_eq; repeat case_match; simplify_option_eq; done.
Qed.

Lemma validate_nothing vouts h skip l : (validate_batch_payment output_key vouts [] h skip l).2 = l.
Proof using Type. unfold validate_batch_payment. by destruct (_ && _). Qed.

Lemma block_body_claims cb st producer ba skip l :
  delayed_ok (delayed (l_tables l)) -> claims_ok (major_version b) l ->
  claims_ok (major_version b)
    (block_body nt conf cn_fast_hash check_key output_key b cb st producer ba skip [] l).2.
Proof using Hv.
  intros Hd Hl. unfold block_body, mbind, db_bind.
  pose proof (validate_nothing (cb_vouts cb) (b_height b) skip l) as E.
  destruct (validate_batch_payment _ _ _ _ _ _) as [[[]|] l1]; cbn in E; subst l1; [|done..]. cbn [negb].
  pose proof (reward_handler_claims (cb_reward cb) st producer ba l Hd Hl) as H1.
  destruct (reward_handler _ _ _ _ _ _ _ _ _ _) as [[[]|] l2]; [|done]. rewrite (proj2 (Z.leb_le _ _)) by done.
  pose proof (submit_stakes_claims (major_version b) ba l2 H1) as H2.
  by destruct (submit_stakes_metadata ba l2) as [[[]|] l3].
Qed.

Lemma add_block_claims cb st producer ba skip l :
  hard_fork_begins fk nt hf19_reward_batching <> Some (b_height b) -> 0 < b_height b ->
  delayed_ok (delayed (l_tables l)) -> claims_ok (major_version b) l ->
  claims_ok (major_version b)
    (add_block fk nt conf cn_fast_hash check_key output_key registered_for_transition b cb st producer ba skip l).2.
Proof using Hv.
  intros Hb Hpos Hd Hl. unfold add_block.
  assert (hf19_reward_batching <= major_version b /\ feature_ETH_BLS <= major_version b) as [H19 Heth].
  { split; [|done]. etransitivity; [|exact Hv]. done. }
  rewrite (proj2 (Z.ltb_ge _ _)) by done.
  destruct (Z.eqb_spec (b_height b) (default 0 (hard_fork_begins fk nt hf19_reward_batching))) as [E|_].
  { destruct (hard_fork_begins _ _ _); cbn in E; [congruence|lia]. }
  unfold mbind, db_bind, mret, db_ret, get_ledger. destruct (negb _); [done|]. rewrite (proj2 (Z.ltb_ge _ _)) by done.
  rewrite add_rewards_of_block_body. unfold in_transaction, mbind, db_bind.
  pose proof (block_body_claims cb st producer ba skip l Hd Hl) as H1.
  assert (forall l1, claims_ok (major_version b) (with_tables l1 (l_tables l))) as Hback by (intros l1; exact Hl).
  destruct (block_body _ _ _ _ _ _ _ _ _ _ _ _ l) as [[[]|] l1]; cbn [snd] in H1; [|by destruct (rescan_tx l)..].
  unfold get_ledger. pose proof (update_height_accrued (l_height l1 + 1) l1) as E2.
  destruct (update_height conf (l_height l1 + 1) l1) as [[[]|] l2]; cbn [snd] in E2.
  - destruct (renew_rescan_tables l2) as (l3 & -> & E3 & _).
    assert (claims_ok (major_version b) l3) as H3 by (unfold claims_ok in *; by rewrite E3, E2).
    by destruct (rescan_tx l).
  - assert (claims_ok (major_version b) l2) as H2 by (unfold claims_ok in *; by rewrite E2).
    by destruct (rescan_tx l).
Qed.
End Block.

(** The conversion of all accounts to whole units. *)
Lemma convert_row_claimable v r : v < hf22_eth_fixup -> claimable v r -> claimable hf22_eth_fixup (convert_row r).
Proof.
  intros Hv (Hu & Hr & Ha). unfold claimable, convert_row, unit_of in *. cbn [lifetime_unlocked_stakes lifetime_rewards amount].
  rewrite (proj2 (Z.leb_gt _ _)) in Ha by done. rewrite (proj2 (Z.leb_le _ _)) by done. unfold BATCH_REWARD_FACTOR in *.
  rewrite !Z.quot_div_nonneg by lia. rewrite Ha, Z.div_add_l by lia.
  split; [done|]. split; [by apply Z.div_pos|lia].
Qed.

Lemma convert_claims v l : v < hf22_eth_fixup -> claims_ok v l -> (convert_hf22 l).1 = Some tt -> claims_ok hf22_eth_fixup (convert_hf22 l).2.
Proof.
  intros Hv Hl. unfold convert_hf22, statement. destruct (forallb _ _); [|done]. intros _.
  unfold claims_ok. cbn. apply map_Forall_fmap. eapply map_Forall_impl; [exact Hl|]. intros k r Hr Hk. cbn.
  eapply convert_row_claimable; eauto.
Qed.

(** What [wallet_info] rederives. *)
Lemma claimable_rederived v r :
  claimable v r -> lifetime_unlocked_stakes r < 2 ^ 63 ->
  from_db_amount (amount r) v = money_add (from_db_atomic (lifetime_unlocked_stakes r)) (from_db_amount (lifetime_rewards r) v).
Proof.
  intros (Hu & Hr & Ha) Hmax. unfold from_db_atomic, from_coin. rewrite s64_small by (unfold is_s64; lia).
  unfold from_db_amount, unit_of in *. destruct (hf22_eth_fixup <=? v).
  - rewrite money_add_whole by done. cbn. f_equal. lia.
  - assert (0 <= amount r) as Hnn by (unfold BATCH_REWARD_FACTOR in *; lia).
    apply canonical_inj; [|apply canonical_plus|rewrite milli_add]; unfold canonical, milli, BATCH_REWARD_FACTOR in *;
      cbn [atomic subatomic]; rewrite ?Z.quot_div_nonneg, ?Z.rem_mod_nonneg by lia; lia.
Qed.

(** (C16) On the L2 network the claimable total of an address is always its rewards plus its
    returned stakes: adding a block keeps this for every address, whether the block is accepted,
    refused or fails half way through a rescan, the conversion at [hf22_eth_fixup] keeps it in
    the new unit, and what an address is told rederives the total from its parts, which the code
    asserts. *)
Theorem claims_rederived fk nt conf cn_fast_hash check_key output_key registered_for_transition b cb st producer ba skip l :
  hf21_eth <= major_version b -> hard_fork_begins fk nt hf19_reward_batching <> Some (b_height b) -> 0 < b_height b ->
  delayed_ok (delayed (l_tables l)) -> claims_ok (major_version b) l ->
  let l' := (add_block fk nt conf cn_fast_hash check_key output_key registered_for_transition b cb st producer ba skip l).2 in
  claims_ok (major_version b) l' /\
  (major_version b < hf22_eth_fixup -> (convert_hf22 l').1 = Some tt -> claims_ok hf22_eth_fixup (convert_hf22 l').2) /\
  forall (addr : bytes) r, length addr = 20%nat -> accrued (l_tables l') !! addr = Some r -> lifetime_unlocked_stakes r < 2 ^ 63 ->
    let w := get_accrued_rewards fk nt addr (Some (major_version b)) l' in
    wi_found w = true /\ wi_amount w = money_add (wi_lifetime_unlocked_stakes w) (wi_lifetime_rewards w).
Proof.
  intros Hv Hb Hpos Hd Hl l'.
  pose proof (add_block_claims fk nt conf cn_fast_hash check_key output_key registered_for_transition b Hv cb st producer ba skip l
    Hb Hpos Hd Hl) as H. fold l' in H. split; [done|]. split.
  - intros Hlt E. by apply (convert_claims (major_version b)).
  - intros addr r Hk Hr Hmax. unfold get_accrued_rewards, wallet_info_of. rewrite Hr. cbn. split; [done|].
    apply claimable_rederived; [|done]. by apply (H addr r Hr).
Qed.

(** *** Witness: an exit falls due at the block, for an address that has rewards. *)

Definition demo_eth : bytes := replicate 20 7.
Definition demo_claims : ledger :=
  Ledger (Tables {[ demo_eth := AccruedRow 5250 None 100 0 0 5250 ]} ∅ ∅
            [DelayedRow demo_eth 100 200001 199000 198000 0 0 25] 200000) 200000 None 0 0.

Lemma claims_rederived_witness :
  let l' := (add_block [] STAGENET stagenet_config (fun _ => []) (fun _ => true) (fun _ _ _ => None) (fun _ _ => false)
    (demo_block hf21_eth 200001) (Coinbase 0 []) (demo_state 200001) (null_bytes 32)
    (BlockAddResult (BlockStakes [] []) []) false demo_claims).2 in
  let w := get_accrued_rewards [] STAGENET demo_eth (Some hf21_eth) l' in
  wi_amount w = RewardMoney 80 250 /\ wi_amount w = money_add (wi_lifetime_unlocked_stakes w) (wi_lifetime_rewards w).
Proof.
  intros l' w. split; [vm_compute; reflexivity|].
  destruct (claims_rederived [] STAGENET stagenet_config (fun _ => []) (fun _ => true) (fun _ _ _ => None) (fun _ _ => false)
    (demo_block hf21_eth 200001) (Coinbase 0 []) (demo_state 200001) (null_bytes 32)
    (BlockAddResult (BlockStakes [] []) []) false demo_claims) as (_ & _ & Hw).
  - done.
  - vm_compute. discriminate.
  - done.
  - split; [by repeat constructor|by vm_compute].
  - apply map_Forall_singleton. intros _. split_and!; done.
  - assert (E : match accrued (l_tables l') !! demo_eth with
                | Some r => lifetime_unlocked_stakes r <? 2 ^ 63 | None => false end = true) by (vm_compute; reflexivity).
    destruct (accrued (l_tables l') !! demo_eth) as [r|] eqn:Er; [|discriminate].
    exact (proj2 (Hw demo_eth r eq_refl Er (proj1 (Z.ltb_lt _ _) E))).
Defined.

(** A balance asked for a height before [hf22_eth_fixup] is converted by the version of the
    current one: within the keep window after the fork it is a thousand times too large. *)
Lemma past_balance_unit fk nt addr row at_height l :
  at_height < l_height l -> get_network_version fk nt at_height < hf22_eth_fixup <= get_network_version fk nt (l_height l) ->
  rows_at (accrued_recent (l_tables l)) at_height !! addr = Some row ->
  let w := get_accrued_rewards_at fk nt addr at_height l in
  wi_height w = l_height l /\ milli (wi_amount w) = BATCH_REWARD_FACTOR * milli (from_db_amount (amount row) (get_network_version fk nt at_height)).
Proof.
  intros Hlt [Hold Hnew] Hrow. unfold get_accrued_rewards_at. rewrite (proj2 (Z.ltb_ge _ _)) by lia.
  rewrite (proj2 (Z.eqb_neq _ _)) by lia. rewrite Hrow. unfold wallet_info_of. cbn [wi_height wi_amount default id from_option].
  split; [done|]. unfold from_db_amount. rewrite (proj2 (Z.leb_le _ _)) by done. rewrite (proj2 (Z.leb_gt _ _)) by done.
  unfold milli, BATCH_REWARD_FACTOR. cbn. pose proof (Z.quot_rem' (amount row) 1000). lia.
Qed.
