(* ===== verification/History.v ===== *)
(** * The history of the service node list

    [block_add], [process_block], [blockchain_detached], [alt_block_add], [reset] and the key
    image index of [service_node_list] in [cryptonote_core/service_node_list.cpp]: the list keeps
    copies of its state for recent heights, for every [HISTORY_ARCHIVE_INTERVAL]-th one and for
    blocks of alternative chains, and is added to and detached together with the reward ledger
    ([Ledger]).  [state_t::update_from_block] is used through the class [BlockUpdater], whose laws
    [BlockUpdate] meets.  An ordered [std::set] of states is a map by height.  The mock network,
    locks, assertions and the blob stored in the database are left out. *)
From stdpp Require Import gmap strings.
From S2P Require Import Prelude Order Hardfork Config Address Rules Voting Transactions L2Votes NodeProof.
From S2P Require Import ServiceNode NodeList QuorumCop VoteHandling Random Swarm Quorums Staking Events PulseEntropy.
From S2P Require Import BlockUpdate Rotation Pulse VerifyBlock Money Ledger.
#[local] Open Scope Z_scope.

(** ** What the history uses of the states *)

(** [update_from_block] and [get_block_producer], with the databases of the moment. *)
Class BlockUpdater := {
  apply_block : gmap Z state_t -> gmap Z state_t -> list (bytes * state_t) -> block -> list transaction ->
    option pulse_entropy_feeder -> world -> outcome (world * block_add_result);
  block_producer : gmap Z state_t -> state_t -> outcome bytes;
}.

(** On an ordinary block the state moves to the next height, and so do the payments of the
    stakes that exits return. *)
Class BlockUpdaterLaws (ordinary : block -> state_t -> Prop) (U : BlockUpdater) := {
  apply_block_height hist arch alts b txs feed w w' res :
    ordinary b (w_state w) -> apply_block hist arch alts b txs feed w = Returned (w', res) ->
    st_height (w_state w') = u64 (st_height (w_state w) + 1);
  apply_block_payments hist arch alts b txs feed w w' res :
    ordinary b (w_state w) -> apply_block hist arch alts b txs feed w = Returned (w', res) ->
    exists new, w_payments w' = w_payments w ++ new /\
      Forall (fun p => dp_height p = u64 (st_height (w_state w) + 1)) new;
}.

(** ** The list with its history *)

Record stored := Stored { only_loaded_quorums : bool; stored_state : state_t }.
Abbreviation state_set := (gmap Z stored).

(** [insert] and [emplace_hint] of an ordered set: what is there stays. *)
Definition insert_stored (s : stored) (m : state_set) : state_set :=
  let h := st_height (stored_state s) in
  match m !! h with Some _ => m | None => <[h := s]> m end.
Definition states_of (m : state_set) : gmap Z state_t := stored_state <$> m.
Definition cull (lo : Z) (m : state_set) : state_set := filter (fun e => lo <= e.1) m.

Record snl := Snl {
  m_state : state_t;
  m_list : node_list;
  state_history : state_set;
  state_archive : state_set;
  alt_state : list (bytes * state_t);
  old_quorum_states : list (Z * quorum_manager);
  long_term_data_dirty : bool;
  m_key_image_cache : gmap bytes (Z * contribution_t);
  pulse_entropy_feed : pulse_entropy_feeder;
  sql : ledger;
}.

Definition new_state (h : Z) : state_t :=
  State ∅ [] ∅ ∅ h no_quorums [] 0 [] (null_bytes 32) (null_bytes 32).

(** The state as [verify_block] sees it. *)
Definition states (s : snl) : snode_states :=
  SnodeStates (m_state s) (states_of (state_history s)) (states_of (state_archive s)) (alt_state s).

(** *** The key image index *)

(** A contribution of the listing, with the unlock height of its node. *)
Definition locked_images (l : list entry) : list (bytes * (Z * contribution_t)) :=
  e ← l; c ← contributors e.2;
  (fun x => (key_image x, (requested_unlock_height e.2, x))) <$> locked_contributions c.

(** [emplace] keeps the entry that is there. *)
Definition emplace_image (m : gmap bytes (Z * contribution_t)) (e : bytes * (Z * contribution_t))
    : gmap bytes (Z * contribution_t) :=
  match m !! e.1 with Some _ => m | None => <[e.1 := e.2]> m end.

Definition is_key_image_locked (s : snl) (check_image : bytes) : option (Z * contribution_t) :=
  m_key_image_cache s !! check_image.

(** What is known when a block is added. *)
Record block_env := BlockEnv {
  be_txs : list transaction;
  be_coinbase : coinbase;
  be_checkpoint : option checkpoint_t;
  be_skip_verify : bool;
  be_view : chain_view;
  be_now : Z;
  be_db : database;
}.

(** Why [block_add] throws, or that it returns and what the ledger said. *)
Inductive add_verdict :=
| block_added (in_ledger : bool)
| out_of_sync
| refused (e : verify_error)
| no_pulse_quorum
| ledger_threw.

Inductive alt_verdict := alt_accepted | alt_known | no_parent_state | wrong_parent_state | alt_refused (e : verify_error).

Section History.
Context (fk : list hard_fork) (nettype : network_type) (conf : network_config).
Context (cn_fast_hash : bytes -> bytes) (check_signature : bytes -> bytes -> bytes -> bool) (check_key : bytes -> bool).
Context (get_block_hash : block -> bytes) (is_hex : string -> bool) (from_hex : string -> bytes).
Context (snpk_to_xpk : bytes -> bytes).
Context (output_key : Z -> account_public_address -> Z -> option bytes).
Context (registered_for_transition : Z -> account_public_address -> bool).
(** The listings of the unordered maps, and the limit of [--store-full-quorum-history]. *)
Context (order : gmap bytes service_node_info -> list entry).
Context (alt_order : list (bytes * state_t) -> list (bytes * state_t)).
Context (m_store_quorum_history : Z).

Definition rebuild_key_image_cache (st : state_t) : gmap bytes (Z * contribution_t) :=
  foldl emplace_image ∅ (locked_images (order (service_nodes_infos st))).

(** *** Adding a block *)

Definition min_recent_height (height : Z) : Z :=
  if height <? HISTORY_RECENT_KEEP_WINDOW conf then 0 else height - HISTORY_RECENT_KEEP_WINDOW conf.

Definition keep_quorum_offset : Z := VOTE_LIFETIME + VOTE_OR_TX_VERIFY_HEIGHT_BUFFER.

(** The state itself at an archive height, only its quorums shortly before one. *)
Definition archived (st : state_t) : option stored :=
  let interval := HISTORY_ARCHIVE_INTERVAL conf in
  let round_up_height := u64 (st_height st + (interval - 1)) in
  let archive_height := round_up_height - round_up_height mod interval in
  let quorums_only := (u64 (archive_height - keep_quorum_offset) <=? st_height st)
                      && (st_height st <=? u64 (archive_height - 1)) in
  if quorums_only then Some (Stored true (with_quorums (new_state (st_height st)) (quorums st)))
  else if st_height st =? archive_height then Some (Stored false st)
  else None.

Definition archive_cull_height (height : Z) : Z :=
  let h := if height <? HISTORY_ARCHIVE_KEEP_WINDOW conf then 0 else height - HISTORY_ARCHIVE_KEEP_WINDOW conf in
  let h := h - h mod HISTORY_ARCHIVE_INTERVAL conf in
  if keep_quorum_offset <=? h then h - keep_quorum_offset else h.

(** The walk stops at the first state that is recent enough. *)
Fixpoint cull_alt (lo : Z) (l : list (bytes * state_t)) : list (bytes * state_t) :=
  match l with
  | [] => []
  | e :: rest => if st_height e.2 <? lo then cull_alt lo rest else l
  end.

Definition keep_last (n : Z) {A} (l : list A) : list A := drop (length l - Z.to_nat n) l.

(** The history and the archive with the current state, before it is updated. *)
Definition remember (b : block) (e : block_env) (s : snl) : snl :=
  let h := st_height (m_state s) in
  let archive := match archived (m_state s) with
                 | Some x => insert_stored x (state_archive s)
                 | None => state_archive s
                 end in
  let old := if m_store_quorum_history =? 0 then old_quorum_states s
             else old_quorum_states s ++ [(h, quorums (m_state s))] in
  Snl (m_state s) (m_list s)
    (cull (min_recent_height h) (insert_stored (Stored false (m_state s)) (state_history s)))
    (cull (archive_cull_height h) archive)
    (cull_alt (min_recent_height h) (alt_state s))
    (keep_last m_store_quorum_history old)
    (long_term_data_dirty s || bool_decide (is_Some (archived (m_state s))))
    (m_key_image_cache s) (PulseEntropy.add_block cn_fast_hash (be_db e) (pulse_entropy_feed s) b).2 (sql s).

(** The payments queued by the handlers are rows of the ledger; a failure is only logged. *)
Definition queue_payments (ps : list delayed_payments) (l : ledger) : ledger :=
  foldl (fun l p => (add_delayed_payments (dp_stakes p) (dp_height p) (dp_delay p) l).2) l ps.

Definition process_block `{U : BlockUpdater} (b : block) (e : block_env) (s : snl)
    : outcome (block_add_result * snl) :=
  if major_version b <? hf9_service_nodes then mret (BlockAddResult (BlockStakes [] []) [], s)
  else
    let s := remember b e s in
    '(w, res) ← apply_block (states_of (state_history s)) (states_of (state_archive s)) [] b (be_txs e)
                  (Some (pulse_entropy_feed s)) (World (m_state s) (Some (m_list s)) []);
    mret (res, Snl (w_state w) (default (m_list s) (w_list w)) (state_history s) (state_archive s) (alt_state s)
            (old_quorum_states s) (long_term_data_dirty s) (m_key_image_cache s) (pulse_entropy_feed s)
            (queue_payments (w_payments w) (sql s))).

Definition with_cache (s : snl) : snl :=
  Snl (m_state s) (m_list s) (state_history s) (state_archive s) (alt_state s) (old_quorum_states s)
    (long_term_data_dirty s) (rebuild_key_image_cache (m_state s)) (pulse_entropy_feed s) (sql s).
Definition with_sql (s : snl) (l : ledger) : snl :=
  Snl (m_state s) (m_list s) (state_history s) (state_archive s) (alt_state s) (old_quorum_states s)
    (long_term_data_dirty s) (m_key_image_cache s) (pulse_entropy_feed s) l.
Definition with_nodes (s : snl) (st : state_t) (nl : node_list) : snl :=
  Snl st nl (state_history s) (state_archive s) (alt_state s) (old_quorum_states s)
    (long_term_data_dirty s) (m_key_image_cache s) (pulse_entropy_feed s) (sql s).

(** Who took part in the newest block, if it arrives in its time. *)
Definition is_current (b : block) (e : block_env) : bool :=
  (cv_height (be_view e) =? u64 (b_height b + 1))
  && (seconds (b_timestamp b - TARGET_BLOCK_TIME conf) <=? be_now e)
  && (be_now e <=? seconds (b_timestamp b + TARGET_BLOCK_TIME conf)).

Definition record_participants (b : block) (q : quorum) (st : state_t) (nl : node_list) : option node_list :=
  keys ← mapM (fun i => validators q !! i) (seq 0 (Z.to_nat PULSE_QUORUM_NUM_VALIDATORS));
  Some (foldl (fun nl p => record_pulse_participation st nl p.2 (b_height b) (pulse_round (b_pulse b))
                             (Z.testbit (validator_bitset (b_pulse b)) (Z.of_nat p.1)))
          nl (imap pair keys)).

Definition record_block (b : block) (e : block_env) (s : snl) : outcome (option snl) :=
  if has_pulse b && is_current b e then
    match lookup_quorum (states s) pulse (b_height b) with
    | None | Some (Quorum [] _) => mret None
    | Some q =>
        nl ← of_option (record_participants b q (m_state s) (m_list s));
        mret (Some (with_nodes s (m_state s) nl))
    end
  else mret (Some s).

(** In lock step with the list. *)
Definition add_to_ledger `{U : BlockUpdater} (b : block) (e : block_env) (ba : block_add_result) (s : snl)
    : outcome (add_verdict * snl) :=
  producer ← block_producer (states_of (state_history s)) (m_state s);
  let '(r, l) := add_block fk nettype conf cn_fast_hash check_key output_key registered_for_transition b (be_coinbase e)
                   (m_state s) producer ba (be_skip_verify e) (sql s) in
  mret (match r with Some ok => block_added ok | None => ledger_threw end, with_sql s l).

(** The state left behind is that of the code also when it throws, except in the update itself. *)
Definition block_add `{U : BlockUpdater} (b : block) (e : block_env) (s : snl) : outcome (add_verdict * snl) :=
  if major_version b <? hf9_service_nodes then
    add_to_ledger b e (BlockAddResult (BlockStakes [] []) [])
      (with_nodes s (let st := m_state s in with_position st (b_height b) (block_hash st)) (m_list s))
  else if negb (st_height (m_state s) =? l_height (sql s)) then mret (out_of_sync, s)
  else
    '(res, s) ← process_block b e s;
    let s := with_cache s in
    match (if be_skip_verify e then None
           else verify_block fk nettype conf check_signature get_block_hash is_hex from_hex (states s) (be_view e) b
                  false (be_checkpoint e)) with
    | Some err => mret (refused err, s)
    | None =>
        r ← record_block b e s;
        match r with
        | None => mret (no_pulse_quorum, s)
        | Some s => add_to_ledger b e res s
        end
    end.

(** A process that only follows the chain of another one. *)
Definition process_block_readonly `{U : BlockUpdater} (b : block) (e : block_env) (s : snl) : outcome snl :=
  if major_version b <? hf9_service_nodes then
    mret (with_nodes s (let st := m_state s in with_position st (b_height b) (block_hash st)) (m_list s))
  else
    '(_, s) ← process_block b e s;
    mret (with_cache s).

(** *** Detaching *)

Definition sqlite_begins : Z := default UINT64_MAX (hard_fork_begins fk nettype hf19_reward_batching).
Definition sql_db_has (l : ledger) (height : Z) (recent : bool) : bool :=
  (height <? sqlite_begins) || (l_height l =? height) || batch_payments_accrued_has_any recent height l.

(** The first state found going down. *)
Definition newest (p : Z -> stored -> bool) (m : state_set) : option Z :=
  foldr (fun e acc => if p e.1 e.2 then Some (match acc with Some h => Z.max e.1 h | None => e.1 end) else acc)
    None (map_to_list m).

(** Nodes without contributors, left over from before HF21. *)
Definition is_zombie (n : recently_removed_node) : bool := bool_decide (contributors (rn_info n) = []).
Definition cleanup_zombies_from_state (st : state_t) : state_t :=
  match hard_fork_begins fk nettype hf21_eth with
  | None => st
  | Some _ =>
      let gone := filter (fun n => is_zombie n = true /\ service_nodes_infos st !! rn_service_node_pubkey n = None)
                    (recently_removed_nodes st) in
      with_removed
        (with_maps st
           (foldr (fun n m => delete (snpk_to_xpk (rn_service_node_pubkey n)) m) (x25519_map st) gone)
           (foldr (fun n m => delete (bls_public_key (rn_info n)) m) (bls_map st) gone))
        (filter (fun n => is_zombie n = false) (recently_removed_nodes st))
  end.

Definition initial_height : Z := u64 (default 1 (hard_fork_begins fk nettype hf9_service_nodes) - 1).

(** [reset(true)]: the ledger is reset too, unless this process only reads it. *)
Definition reset (s : snl) : option () * snl :=
  let st := new_state initial_height in
  let '(r, l) := if db_is_read_only (m_list s) then (Some tt, sql s) else reset_database conf (sql s) in
  (r, Snl st (m_list s) ∅ ∅ [] [] false (rebuild_key_image_cache st) (pulse_entropy_feed s) l).

(** Back to a stored state. *)
Definition restore_state (st : state_t) (history archive : state_set) (s : snl) : snl :=
  with_cache (Snl (cleanup_zombies_from_state st) (m_list s) history archive (alt_state s) (old_quorum_states s)
    (long_term_data_dirty s) (m_key_image_cache s) (pulse_entropy_feed s) (sql s)).
Definition trim (hi : Z) (m : state_set) : state_set := filter (fun e => e.1 <= hi) m.

(** Where to: the newest state that the ledger has too, else an archived one, else none. *)
Definition detach_point (target_height : Z) (s : snl) : payment_table_type * Z :=
  let archive_height := target_height - target_height mod HISTORY_ARCHIVE_INTERVAL conf in
  match newest (fun h x => negb (only_loaded_quorums x) && (h <=? target_height) && sql_db_has (sql s) h true)
          (state_history s) with
  | Some h => (table_recent, h)
  | None =>
      match newest (fun h x => negb (only_loaded_quorums x) && (h <=? archive_height)
                               && (h mod HISTORY_ARCHIVE_INTERVAL conf =? 0) && sql_db_has (sql s) h false)
              (state_archive s) with
      | Some h => (table_archive, h)
      | None => (table_nil, 0)
      end
  end.

Definition detach_list (point : payment_table_type * Z) (s : snl) : option () * snl :=
  match point.1 with
  | table_nil =>
      reset (Snl (m_state s) (m_list s) ∅ ∅ (alt_state s) (old_quorum_states s) (long_term_data_dirty s)
               (m_key_image_cache s) (pulse_entropy_feed s) (sql s))
  | table_archive =>
      match state_archive s !! point.2 with
      | None => (None, s)
      | Some x => (Some tt, restore_state (stored_state x) ∅ (trim point.2 (state_archive s)) s)
      end
  | table_recent =>
      match state_history s !! point.2 with
      | None => (None, s)
      | Some x => (Some tt, restore_state (stored_state x) (trim point.2 (state_history s)) (state_archive s) s)
      end
  end.

(** The list, then the ledger to the same height; [chain_height] is that of the block database. *)
Definition detach_both (point : payment_table_type * Z) (chain_height : Z) (s : snl) : option () * snl :=
  match detach_list point s with
  | (None, s) => (None, s)
  | (Some _, s) =>
      let '(r, l) := Ledger.blockchain_detached conf point.1 (st_height (m_state s)) chain_height (sql s) in
      (r, with_sql s l)
  end.

Definition blockchain_detached (height chain_height : Z) (s : snl) : option () * snl :=
  let target_height := if height =? 0 then 0 else height - 1 in
  if (st_height (m_state s) =? target_height) && (l_height (sql s) =? target_height) then (Some tt, s)
  else detach_both (detach_point target_height s) chain_height s.

(** *** Blocks of other chains *)

Definition find_alt (hash : bytes) (s : snl) : option state_t :=
  (fun e => e.2.2) <$> list_find (fun e => e.1 = hash) (alt_state s).
Definition starting_state (b : block) (s : snl) : option state_t :=
  match state_history s !! u64 (b_height b - 1) with
  | Some x => if bool_decide (b_prev_id b = block_hash (stored_state x)) then Some (stored_state x)
              else find_alt (b_prev_id b) s
  | None => find_alt (b_prev_id b) s
  end.

Definition alt_block_add `{U : BlockUpdater} (b : block) (e : block_env) (s : snl) : outcome (alt_verdict * snl) :=
  if major_version b <? hf9_service_nodes then mret (alt_accepted, s)
  else if bool_decide (b_hash b ∈ (alt_state s).*1) then mret (alt_known, s)
  else
    match starting_state b s with
    | None => mret (no_parent_state, s)
    | Some start =>
        if negb (bool_decide (block_hash start = b_prev_id b)) then mret (wrong_parent_state, s)
        else
          '(w, _) ← apply_block (states_of (state_history s)) (states_of (state_archive s)) (alt_state s) b (be_txs e)
                      None (World start (Some (m_list s)) []);
          let s := Snl (m_state s) (default (m_list s) (w_list w)) (state_history s) (state_archive s)
                     (alt_order ((b_hash b, w_state w) :: alt_state s)) (old_quorum_states s) (long_term_data_dirty s)
                     (m_key_image_cache s) (pulse_entropy_feed s) (queue_payments (w_payments w) (sql s)) in
          mret (match verify_block fk nettype conf check_signature get_block_hash is_hex from_hex (states s) (be_view e) b
                        true (be_checkpoint e) with
                | Some err => alt_refused err
                | None => alt_accepted
                end, s)
    end.

End History.

(** ** The update of a block as the list uses it *)

Section Updater.
Context (fk : list hard_fork) (nettype : network_type).
Context (cn_fast_hash : bytes -> bytes).
Context (check_signature : bytes -> bytes -> bytes -> bool).
Context (check_key : bytes -> bool).
Context (ed25519_verify : bytes -> bytes -> bytes -> bool).
Context (snpk_to_xpk : bytes -> bytes).
Context (generate_key_derivation : bytes -> bytes -> option bytes).
Context (derive_public_key : bytes -> Z -> bytes -> option bytes).
Context (derivation_to_scalar : bytes -> Z -> bytes).
Context (decodeRctSimple decodeRct : bytes -> bytes -> Z -> option Z).
Context (check_key_image_signature : bytes -> bytes -> bytes -> bool).
Context (get_tx : bytes -> option transaction).
Context (get_block_from_height : Z -> option block).
Context (find_block : database).
(** The winner that the coinbase of a block names, in its [tx_extra]. *)
Context (get_service_node_winner : block -> bytes).
Context (apply_fixups transition : block -> state_t -> state_t).
Context (order : gmap bytes service_node_info -> list entry).
Context (fuel : nat) (sort_sizes : list swarm_size -> list swarm_size).
Context {G : Type} `{Engine G} (seed_number : Z -> G) (seed_sequence : list Z -> G).

(** The calls below have a list and know the block. *)
Definition get_block_leader (b : block) (st : state_t) : bytes :=
  if bool_decide (block_leader st <> null_bytes 32) || is_hard_fork_at_least fk nettype hf20_eth_transition (st_height st)
  then block_leader st
  else get_service_node_winner b.

(** The pulse quorum of the block of a state, from the state before it. *)
Definition get_pulse_quorum (state_history : gmap Z state_t) (st : state_t) : outcome (option quorum) :=
  match find_block (block_hash st) with
  | None => mret None
  | Some b =>
      if negb (has_pulse b) then mret None
      else
        match state_history !! u64 (st_height st - 1) with
        | None => mret None
        | Some prev_state =>
            q ← generate_pulse_quorum fuel seed_number seed_sequence nettype (get_block_leader b st) (major_version b)
                  (active_snode_list order prev_state)
                  (get_pulse_entropy_for_next_block cn_fast_hash find_block (b_prev_id b) (pulse_round (b_pulse b)))
                  (pulse_round (b_pulse b));
            mret (if verify_pulse_quorum_sizes q then Some q else None)
        end
  end.

Definition get_block_producer (state_history : gmap Z state_t) (st : state_t) : outcome bytes :=
  q ← get_pulse_quorum state_history st;
  match q with
  | Some q => of_option (head (workers q))
  | None => mret (null_bytes 32)
  end.

#[export] Instance list_updater : BlockUpdater := {
  apply_block hist arch alts b txs feed w :=
    update_from_block fk cn_fast_hash check_signature check_key ed25519_verify snpk_to_xpk generate_key_derivation
      derive_public_key derivation_to_scalar decodeRctSimple decodeRct check_key_image_signature get_tx
      get_block_from_height find_block apply_fixups transition order fuel sort_sizes seed_number seed_sequence
      hist arch alts nettype b txs feed w;
  block_producer := get_block_producer;
}.

(** *** Its laws *)

(** Payments are only added, for height [h]. *)
Definition pays_at (h : Z) (w w' : world) : Prop :=
  exists new, w_payments w' = w_payments w ++ new /\ Forall (fun p => dp_height p = h) new.

#[export] Instance pays_at_refl h : Reflexive (pays_at h).
Proof using Type. intros w. exists []. by rewrite app_nil_r. Qed.
#[export] Instance pays_at_trans h : Transitive (pays_at h).
Proof using Type.
  intros w1 w2 w3 (n1 & E1 & H1) (n2 & E2 & H2). exists (n1 ++ n2). rewrite E2, E1, app_assoc. split; [done|].
  by apply Forall_app.
Qed.
Lemma pays_at_same h w w' : w_payments w' = w_payments w -> pays_at h w w'.
Proof using Type. intros E. exists []. by rewrite E, app_nil_r. Qed.

Lemma confirmed_event_pays e confirm w r w' :
  process_confirmed_event fk cn_fast_hash check_signature check_key ed25519_verify snpk_to_xpk e confirm w
    = Some (r, w') -> pays_at (st_height (w_state w)) w w'.
Proof using Type.
  intros E. destruct e as [new_sn|bls|bls amount|req|bls]; cbn [process_confirmed_event] in E.
  - injection E as E. unfold confirm_new_service_node in E.
    repeat (case_match; try (injection E as _ <-; by apply pays_at_same)); try (by simplify_eq).
  - unfold confirm_exit_request in E. repeat (case_match; simplify_option_eq; try by apply pays_at_same).
  - unfold confirm_exit in E. repeat (case_match; simplify_option_eq; try by apply pays_at_same).
    destruct (w_list w); cbn [mbind option_bind] in E; [|done]. injection E as _ <-.
    eexists. split; [reflexivity|]. by repeat constructor.
  - injection E as _ <-. by apply pays_at_same.
  - unfold confirm_purge in E. repeat (case_match; simplify_option_eq; try by apply pays_at_same).
Qed.

Abbreviation vote_loop := (l2_vote_loop fk cn_fast_hash check_signature check_key ed25519_verify snpk_to_xpk get_tx
  get_block_from_height).

Lemma resolve_event_pays h nt v i r w stakes s w' stakes' :
  st_height (w_state w) = h ->
  resolve_event fk cn_fast_hash check_signature check_key ed25519_verify snpk_to_xpk get_tx get_block_from_height
    nt v h i r w stakes = Some (s, w', stakes') -> st_height (w_state w') = h /\ pays_at h w w'.
Proof using Type.
  intros Hh E. split; [apply resolve_event_moved in E as [-> _]; exact Hh|]. unfold resolve_event in E.
  apply bind_Some in E as (tx & _ & E). apply bind_Some in E as (e & _ & E). apply bind_Some in E as (mined & _ & E).
  apply bind_Some in E as ([index k] & _ & E). apply bind_Some in E as ([res w1] & E1 & [= _ <- _]). destruct (r_accepted r); [|by injection E1 as _ <-].
  apply confirmed_event_pays in E1. by rewrite Hh in E1.
Qed.

Lemma l2_vote_loop_pays h nt v weight i votes m s w stakes m' s' w' stakes' :
  st_height (w_state w) = h -> vote_loop nt v weight h i votes m s w stakes = Some (m', s', w', stakes') ->
  pays_at h w w'.
Proof using Type.
  revert i m s w stakes m'. induction votes as [|vote votes IH]; intros i m s w stakes m' Hh E.
  { destruct m; injection E as _ _ <- _; reflexivity. }
  destruct m as [|[k u] rest]; [injection E as _ _ <- _; reflexivity|]. cbn [l2_vote_loop] in E.
  destruct (confirmed _ h) as [fin|].
  - apply bind_Some in E as ([[s1 w1] stakes1] & Er & E). apply resolve_event_pays in Er as [Hh1 Hp]; [|done].
    transitivity w1; [done|]. by eapply IH.
  - apply bind_Some in E as ([[[m1 s1] w1] stakes1] & Er & [= _ -> -> ->]). by eapply IH.
Qed.

Lemma l2_votes_pay h nt b s w stakes s' w' stakes' :
  st_height (w_state w) = h ->
  process_l2_votes fk cn_fast_hash check_signature check_key ed25519_verify snpk_to_xpk get_tx get_block_from_height
    nt b h s w stakes = Some (s', w', stakes') -> pays_at h w w'.
Proof using Type.
  intros Hh E. unfold process_l2_votes in E. case_match; [|by simplify_eq]. case_match; [done|].
  apply bind_Some in E as ([[[m1 s1] w1] stakes1] & Er & [= _ <- _]). apply l2_vote_loop_pays in Er; [|done].
  etransitivity; [exact Er|]. by apply pays_at_same.
Qed.

Abbreviation handle_txs := (process_txs fk cn_fast_hash check_signature check_key ed25519_verify
  snpk_to_xpk generate_key_derivation derive_public_key derivation_to_scalar decodeRctSimple decodeRct
  check_key_image_signature get_tx).

Lemma process_txs_pay nothing hist arch alts nt b txs i s w s' w' :
  handle_txs hist arch alts nt b txs i s w = Some (s', w') -> pays_at nothing w w'.
Proof using Type.
  revert i s w. induction txs as [|tx txs IH]; intros i s w E; cbn [process_txs] in E; [by simplify_eq|].
  apply bind_Some in E as ([s1 w1] & E1 & E). apply IH in E. transitivity w1; [|done]. apply pays_at_same. clear E IH.
  unfold process_tx, process_stake in E1.
  repeat (case_match || (apply bind_Some in E1 as (? & _ & E1)) || (injection E1 as _ <-)); done.
Qed.

Lemma update_list_pays hist arch alts nt b txs pre w s w' stakes :
  update_list fk cn_fast_hash check_signature check_key ed25519_verify snpk_to_xpk generate_key_derivation
    derive_public_key derivation_to_scalar decodeRctSimple decodeRct check_key_image_signature get_tx
    get_block_from_height transition order hist arch alts nt b txs pre w = Some (s, w', stakes) ->
  ordinary_block fk nt b (w_state w) -> pays_at (b_height b) w w'.
Proof using Type.
  intros E (Hh & Hmig & _). unfold update_list in E. rewrite <- Hh in E.
  apply bind_Some in E as (st1 & E1 & E). rewrite bool_decide_eq_false_2 in E by done.
  apply bind_Some in E as ([s3 st3] & E3 & E). apply bind_Some in E as ([[s5 w5] stakes5] & E5 & E).
  apply bind_Some in E as ([s7 w7] & E7 & [= _ <- _]). apply (process_txs_pay (b_height b)) in E7.
  assert (st_height st3 = b_height b) as H3.
  { apply (erase_nodes_moved fk snpk_to_xpk (b_height b)) in E3 as [-> _]. cbn.
    unfold remove_unfunded in E1. clear E5 E7. case_match; [|by injection E1 as <-].
    apply fmap_Some in E1 as ([s1 st1'] & E1 & ->). apply (erase_nodes_moved fk snpk_to_xpk (b_height b)) in E1 as [E1 _]; exact E1. }
  apply l2_votes_pay in E5.
  2: { cbn. unfold advance_winner. by destruct (service_nodes_infos st3 !! pre_leader pre). }
  etransitivity; [|exact E7]. etransitivity; [|by apply pays_at_same]. exact E5.
Qed.

#[export] Instance list_updater_laws : BlockUpdaterLaws (ordinary_block fk nettype) list_updater.
Proof using Type.
  split; intros hist arch alts b txs feed w w' res Hb E; pose proof Hb as (Hh & _ & Hfix).
  - cbn in E. apply update_queue in E as ([-> _] & _); [|done]. by rewrite <- Hh.
  - cbn in E. unfold update_from_block in E. rewrite <- Hh.
    rewrite (bool_decide_eq_false_2 (hard_fork_begins fk nettype hf22_eth_fixup = _)), andb_false_r in E by done.
    destruct (precompute _ _ _ _ _ _ _ _ _ _ _ _ _ _ _ _ _) as [pre|]; cbn [of_option mbind outcome_bind] in E; [|done].
    destruct (update_pulse _ _ _ _ _ _ _ _ _ _) as [st1| |] eqn:E1; cbn [mbind outcome_bind] in E; [|done..].
    destruct (update_list _ _ _ _ _ _ _ _ _ _ _ _ _ _ _ _ _ _ _ _ _ _ _) as [[[s2 w2] stakes]|] eqn:E2;
      cbn [of_option mbind outcome_bind] in E; [|done].
    apply update_list_pays in E2.
    2: { apply update_pulse_moved with (h := b_height b) in E1 as [Eh _]. cbn in *. unfold ordinary_block in *. by rewrite Eh. }
    destruct (payable_nodes _ _ _ _) as [payable|]; cbn [of_option mbind outcome_bind] in E; [|done].
    destruct (if s2 then _ else _) as [st3| |]; cbn [mbind outcome_bind] in E; [|done..].
    destruct (generate_other_quorums _ _ _ _ _ _ _ _ _ _) as [qm| |]; cbn [mbind outcome_bind] in E; [|done..].
    injection E as <- _. exact E2.
Qed.

End Updater.
