(* ===== verification/HistoryRuns.v ===== *)
(** * What the history of the service node list guarantees

    From any state in which they agree, over runs of blocks that are added, refused or lost half
    way and of detaches (as [detach_in_step] lists them), the list and the reward ledger agree on their height whenever they are at rest, and a detach brings both
    back to the same block: the list to the state it had after that block and the ledger to its
    balances.  The archive is the exception: [stale_archive] shows how it can keep the state of an
    abandoned chain.  The index of locked key images is that of a walk over the list. *)
From stdpp Require Import gmap strings.
From S2P Require Import Prelude Order Hardfork Config Address Rules Voting Transactions L2Votes NodeProof.
From S2P Require Import ServiceNode NodeList QuorumCop VoteHandling Random Swarm Quorums Staking Events PulseEntropy.
From S2P Require Import Reward BlockUpdate Rotation Pulse VerifyBlock Money Ledger LedgerHistory History.
#[local] Open Scope Z_scope.

(** ** Sets of states *)

Lemma lookup_insert_stored x m h :
  insert_stored x m !! h =
  match m !! h with
  | Some y => Some y
  | None => if decide (st_height (stored_state x) = h) then Some x else None
  end.
Proof.
  unfold insert_stored. destruct (m !! st_height (stored_state x)) as [y|] eqn:E.
  - case_decide as Eh; [subst; by rewrite E|]. by destruct (m !! h).
  - rewrite lookup_insert. case_decide as Eh; [subst; by rewrite E|]. by destruct (m !! h).
Qed.

Lemma lookup_cull lo m h x : cull lo m !! h = Some x <-> m !! h = Some x /\ lo <= h.
Proof. unfold cull. rewrite map_lookup_filter_Some. done. Qed.
Lemma lookup_trim hi m h x : trim hi m !! h = Some x <-> m !! h = Some x /\ h <= hi.
Proof. unfold trim. rewrite map_lookup_filter_Some. done. Qed.

(** [newest] as the walk down the ordered set. *)
Lemma newest_spec p m :
  match newest p m with
  | Some h => (exists x, m !! h = Some x /\ p h x = true) /\ forall h' x', m !! h' = Some x' -> p h' x' = true -> h' <= h
  | None => forall h x, m !! h = Some x -> p h x = false
  end.
Proof.
  unfold newest.
  assert (forall l, match foldr (fun e acc => if p e.1 e.2 then Some (match acc with Some h => Z.max e.1 h | None => e.1 end) else acc)
      None l with
    | Some h => (exists x, (h, x) ∈ l /\ p h x = true) /\ forall h' x', (h', x') ∈ l -> p h' x' = true -> h' <= h
    | None => forall h x, (h, x) ∈ l -> p h x = false
    end) as Hl.
  { induction l as [|[h x] l IH]; cbn [foldr fst snd]; [by intros h x ?%elem_of_nil|].
    destruct (p h x) eqn:Ep; destruct (foldr _ _ _) as [h1|].
    - destruct IH as [(x1 & Hin & Hp1) Hmax]. split.
      + destruct (Z.max_spec h h1) as [[_ ->]|[_ ->]]; [exists x1|exists x]; split; try done; [by right|by left].
      + intros h' x' [[= -> ->]|Hin']%elem_of_cons Hp'; [lia|]. specialize (Hmax h' x' Hin' Hp'). lia.
    - split; [exists x; split; [by left|done]|]. intros h' x' [[= -> ->]|Hin']%elem_of_cons Hp'; [lia|].
      by rewrite (IH h' x' Hin') in Hp'.
    - destruct IH as [(x1 & Hin & Hp1) Hmax]. split; [exists x1; split; [by right|done]|].
      intros h' x' [[= -> ->]|Hin']%elem_of_cons Hp'; [congruence|by eapply Hmax].
    - intros h' x' [[= -> ->]|Hin']%elem_of_cons; [done|by apply IH]. }
  specialize (Hl (map_to_list m)). destruct (foldr _ _ _) as [h|].
  - destruct Hl as [(x & Hin & Hp) Hmax]. apply elem_of_map_to_list in Hin. split; [by exists x|].
    intros h' x' Hx. apply Hmax. by apply elem_of_map_to_list.
  - intros h x Hx. apply Hl. by apply elem_of_map_to_list.
Qed.

(** ** The index of key images *)

Section Index.
Context (order : gmap bytes service_node_info -> list entry).
Context (Horder : forall m, order m ≡ₚ map_to_list m).

(** A contribution that is locked in a node of the list. *)
Definition locked_in (st : state_t) (image : bytes) (e : Z * contribution_t) : Prop :=
  exists key info c, service_nodes_infos st !! key = Some info /\ c ∈ contributors info /\
    e.2 ∈ locked_contributions c /\ key_image e.2 = image /\ e.1 = requested_unlock_height info.

Lemma elem_of_locked_images l image e :
  (image, e) ∈ locked_images l <->
  exists key info c, (key, info) ∈ l /\ c ∈ contributors info /\ e.2 ∈ locked_contributions c /\
    key_image e.2 = image /\ e.1 = requested_unlock_height info.
Proof using Type.
  unfold locked_images. rewrite list_elem_of_bind. split.
  - intros ([key info] & (c & (x & [= -> ->] & Hx)%list_elem_of_fmap & Hc)%list_elem_of_bind & Hin). by exists key, info, c.
  - intros (key & info & c & Hin & Hc & Hx & <- & Eh). exists (key, info). split; [|done]. apply list_elem_of_bind.
    exists c. split; [|done]. apply list_elem_of_fmap. exists e.2. split; [|done]. destruct e. cbn in *. by subst.
Qed.

Lemma emplaced_images l m image :
  match foldl emplace_image m l !! image with
  | Some e => m !! image = Some e \/ (image, e) ∈ l
  | None => m !! image = None /\ forall e, (image, e) ∉ l
  end.
Proof using Type.
  revert m. induction l as [|[i e] l IH]; intros m; cbn [foldl].
  { destruct (m !! image); [by left|]. split; [done|]. intros e. apply not_elem_of_nil. }
  specialize (IH (emplace_image m (i, e))). destruct (foldl emplace_image (emplace_image m (i, e)) l !! image) as [e'|].
  - destruct IH as [IH|IH]; [|right; by right]. unfold emplace_image in IH. cbn in IH. case_match; [by left|].
    apply lookup_insert_Some in IH as [[-> ->]|[_ IH]]; [right; by left|by left].
  - destruct IH as [IH Hn]. unfold emplace_image in IH. cbn in IH. destruct (m !! i) as [y|] eqn:Ei.
    + split; [done|]. intros e' [[= -> ->]|Hin]%elem_of_cons; [congruence|by eapply Hn].
    + apply lookup_insert_None in IH as [IH Hne]. split; [done|].
      intros e' [[= -> ->]|Hin]%elem_of_cons; [done|by eapply Hn].
Qed.

Lemma cache_exact st image :
  match rebuild_key_image_cache order st !! image with
  | Some e => locked_in st image e
  | None => forall e, ~ locked_in st image e
  end.
Proof using Horder.
  assert (forall e, (image, e) ∈ locked_images (order (service_nodes_infos st)) <-> locked_in st image e) as Hl.
  { intros e. rewrite elem_of_locked_images. unfold locked_in.
    split; intros (key & info & c & H & ?); exists key, info, c; (split; [|done]).
    - rewrite (Horder _) in H. by apply elem_of_map_to_list in H.
    - rewrite (Horder _). by apply elem_of_map_to_list. }
  pose proof (emplaced_images (locked_images (order (service_nodes_infos st))) ∅ image) as H.
  unfold rebuild_key_image_cache. destruct (foldl _ _ _ !! image) as [e|].
  - destruct H as [H|H]; [by rewrite lookup_empty in H|by apply Hl].
  - destruct H as [_ H]. intros e He%Hl. by apply (H e).
Qed.
End Index.

(** ** The list and the ledger together *)

Section Together.
Context (fk : list hard_fork) (nettype : network_type) (conf : network_config).
Context (snpk_to_xpk : bytes -> bytes).
Context (order : gmap bytes service_node_info -> list entry).

Abbreviation cleaned := (cleanup_zombies_from_state fk nettype snpk_to_xpk).
Abbreviation detach := (History.blockchain_detached fk nettype conf snpk_to_xpk order).
Abbreviation detach_both := (detach_both fk nettype conf snpk_to_xpk order).
Abbreviation detach_point := (detach_point fk nettype conf).
Abbreviation begins := (sqlite_begins fk nettype).

(** A block of the current chain: the state of the list and the ledger after it. *)
Abbreviation moment := (state_t * snapshot)%type.
Definition unwound (h : Z) (chain : list moment) : list moment := filter (fun c => sn_height c.2 <= h) chain.

(** [past] are the states the list ever had, [peak] the greatest height of the ledger, and from
    [lo] on the recent history is complete. *)
Record tracks (past : list state_t) (peak lo : Z) (chain : list moment) (s : snl) : Prop := {
  tr_ledger : represents conf peak chain.*2 (sql s);
  tr_chain : Forall (fun c => st_height c.1 = sn_height c.2 /\ c.1 ∈ past /\ begins <= sn_height c.2) chain;
  tr_history : forall h x, state_history s !! h = Some x -> only_loaded_quorums x = false /\
    exists c, c ∈ chain /\ sn_height c.2 = h /\ cleaned (stored_state x) = cleaned c.1;
  tr_complete : forall c, c ∈ chain -> lo <= sn_height c.2 ->
    sn_height c.2 = st_height (m_state s) \/ is_Some (state_history s !! sn_height c.2);
  tr_archive : forall h x, state_archive s !! h = Some x -> only_loaded_quorums x = false ->
    begins <= h /\ exists st, st ∈ past /\ st_height st = h /\ cleaned (stored_state x) = cleaned st;
  tr_front : l_height (sql s) <= st_height (m_state s);
  tr_cache : m_key_image_cache s = rebuild_key_image_cache order (m_state s);
}.

(** At rest the list is at the top of the chain; after a block that failed it is past it. *)
Definition at_rest (chain : list moment) (s : snl) : Prop :=
  st_height (m_state s) = l_height (sql s) /\ exists c, head chain = Some c /\ cleaned (m_state s) = cleaned c.1.

(** *** States that are cleaned *)

Lemma cleaned_height st : st_height (cleaned st) = st_height st.
Proof using Type. unfold cleanup_zombies_from_state. by case_match. Qed.

Lemma cleaned_idemp st : cleaned (cleaned st) = cleaned st.
Proof using Type.
  unfold cleanup_zombies_from_state. destruct (hard_fork_begins fk nettype hf21_eth); [|done]. cbn.
  assert (forall l : list recently_removed_node, filter (fun n => is_zombie n = true /\
    service_nodes_infos st !! rn_service_node_pubkey n = None) (filter (fun n => is_zombie n = false) l) = []) as ->.
  { intros l. induction l as [|n l IH]; [done|]. rewrite filter_cons. case_decide as E; [|done].
    rewrite filter_cons, decide_False; [done|]. intros [E' _]. by rewrite E in E'. }
  cbn. rewrite list_filter_filter. f_equal. apply list_filter_iff. intros n. split; [by intros [? _]|done].
Qed.

(** *** Chains *)

Lemma unwound_snapshots h chain : (unwound h chain).*2 = popped h chain.*2.
Proof using Type.
  unfold unwound, popped. induction chain as [|c chain IH]; [done|]. rewrite fmap_cons, !filter_cons.
  case_decide; [rewrite fmap_cons; by f_equal|done].
Qed.

Lemma elem_of_unwound h chain c : c ∈ unwound h chain <-> c ∈ chain /\ sn_height c.2 <= h.
Proof using Type. unfold unwound. rewrite list_elem_of_filter. split; by intros []. Qed.

Lemma same_height peak (chain : list moment) l c c' :
  represents conf peak chain.*2 l -> c ∈ chain -> c' ∈ chain -> sn_height c.2 = sn_height c'.2 -> c = c'.
Proof using Type.
  intros H. pose proof (rp_descending _ _ _ _ H) as Hd. clear H. unfold descending in Hd.
  induction chain as [|d chain IH]; cbn in Hd; [by intros ?%elem_of_nil|].
  apply StronglySorted_inv in Hd as [Hd Hf]. rewrite Forall_forall in Hf.
  assert (forall x, x ∈ chain -> sn_height x.2 < sn_height d.2) as Hlt.
  { intros x Hx. apply (Hf x.2). by apply list_elem_of_fmap_2. }
  intros [->|Hc]%elem_of_cons [->|Hc']%elem_of_cons E; [done| | |by apply IH].
  - specialize (Hlt _ Hc'). lia.
  - specialize (Hlt _ Hc). lia.
Qed.

Lemma chain_top past peak lo chain s c :
  tracks past peak lo chain s -> head chain = Some c -> sn_height c.2 = l_height (sql s).
Proof using Type.
  intros H Hc. destruct (rp_top _ _ _ _ (tr_ledger _ _ _ _ _ H)) as (d & Hd & Eh & _).
  destruct chain as [|c' chain]; [done|]. injection Hc as ->. cbn in Hd. by injection Hd as <-.
Qed.
(** *** Detaches *)

(** The snapshot of a height that the ledger has. *)
Lemma ledger_has peak (chain : list moment) l h recent :
  represents conf peak chain.*2 l -> begins <= h -> sql_db_has fk nettype l h recent = true ->
  exists c, c ∈ chain /\ sn_height c.2 = h /\
    (if decide (h = l_height l) then accrued (l_tables l)
     else rows_at (if recent then accrued_recent (l_tables l) else accrued_archive (l_tables l)) h) = sn_balances c.2.
Proof using Type.
  intros H Hb Hhas. unfold sql_db_has in Hhas. rewrite (proj2 (Z.ltb_ge _ _)) in Hhas by done.
  destruct (detach_snapshot _ _ _ _ recent h H) as (d & (c & -> & Hc)%list_elem_of_fmap & Eh & E).
  { apply orb_true_iff in Hhas as [E%Z.eqb_eq|E]; [by left|by right]. }
  by exists c.
Qed.

Lemma recent_point past peak lo chain s target h :
  tracks past peak lo chain s -> detach_point target s = (table_recent, h) ->
  exists c x, c ∈ chain /\ sn_height c.2 = h /\ h <= target /\ state_history s !! h = Some x /\
    cleaned (stored_state x) = cleaned c.1 /\
    (if decide (h = l_height (sql s)) then accrued (l_tables (sql s))
     else rows_at (accrued_recent (l_tables (sql s))) h) = sn_balances c.2.
Proof using Type.
  intros H E. unfold History.detach_point in E. pose proof (newest_spec (fun h x => negb (only_loaded_quorums x)
    && (h <=? target) && sql_db_has fk nettype (sql s) h true) (state_history s)) as Hn.
  destruct (newest _ (state_history s)) as [h'|]; [|by destruct (newest _ _)]. injection E as ->.
  destruct Hn as [(x & Hx & Hp) _]. apply andb_prop in Hp as [[_ Hle%Z.leb_le]%andb_prop Hhas].
  destruct (tr_history _ _ _ _ _ H _ _ Hx) as [_ (c & Hc & Eh & Ec)].
  destruct (ledger_has _ _ _ h true (tr_ledger _ _ _ _ _ H)) as (c' & Hc' & Eh' & Erows); [|done|].
  { pose proof (tr_chain _ _ _ _ _ H) as Ht. rewrite Forall_forall in Ht. destruct (Ht c Hc) as (_ & _ & ?). by rewrite <- Eh. }
  assert (c' = c) as -> by (eapply same_height; [apply H|done..|by rewrite Eh, Eh']). by exists c, x.
Qed.

Lemma archive_point past peak lo chain s target h :
  tracks past peak lo chain s -> 0 < HISTORY_ARCHIVE_INTERVAL conf -> 0 <= target ->
  detach_point target s = (table_archive, h) ->
  exists c x st, c ∈ chain /\ sn_height c.2 = h /\ h <= target /\ state_archive s !! h = Some x /\
    st ∈ past /\ st_height st = h /\ cleaned (stored_state x) = cleaned st /\
    (if decide (h = l_height (sql s)) then accrued (l_tables (sql s))
     else rows_at (accrued_archive (l_tables (sql s))) h) = sn_balances c.2.
Proof using Type.
  intros H Hi Ht E. unfold History.detach_point in E. destruct (newest _ (state_history s)) as [h'|]; [done|].
  match type of E with match newest ?p ?m with _ => _ end = _ => pose proof (newest_spec p m) as Hn end.
  destruct (newest _ (state_archive s)) as [h'|]; [|done]. injection E as ->.
  destruct Hn as [(x & Hx & Hp) _]. apply andb_prop in Hp as [[[Hl Hle%Z.leb_le]%andb_prop _]%andb_prop Hhas].
  apply negb_true_iff in Hl. destruct (tr_archive _ _ _ _ _ H _ _ Hx Hl) as (Hb & st & Hst & Eh & Ec).
  destruct (ledger_has _ _ _ h false (tr_ledger _ _ _ _ _ H) Hb Hhas) as (c & Hc & Ech & Erows).
  exists c, x, st. split_and!; try done. pose proof (Z.mod_pos_bound target _ Hi). lia.
Qed.
Lemma unwound_top peak (chain : list moment) l c :
  represents conf peak chain.*2 l -> c ∈ chain -> exists rest, unwound (sn_height c.2) chain = c :: rest.
Proof using Type.
  intros H Hc. destruct (popped_top chain.*2 c.2) as [rest E]; [apply H|by apply list_elem_of_fmap_2|].
  rewrite <- unwound_snapshots in E. destruct (unwound (sn_height c.2) chain) as [|d ds] eqn:Eu; [done|].
  exists ds. f_equal. injection E as Ed _. eapply same_height; [exact H| |done|by rewrite Ed].
  assert (d ∈ unwound (sn_height c.2) chain) as [? _]%elem_of_unwound by (rewrite Eu; by left). done.
Qed.

(** What is kept of the invariant when the chain is unwound. *)
Lemma chain_unwound past st h (chain : list moment) :
  Forall (fun c => st_height c.1 = sn_height c.2 /\ c.1 ∈ past /\ begins <= sn_height c.2) chain ->
  Forall (fun c => st_height c.1 = sn_height c.2 /\ c.1 ∈ st :: past /\ begins <= sn_height c.2) (unwound h chain).
Proof using Type.
  rewrite !Forall_forall. intros H c [Hc _]%elem_of_unwound. destruct (H c Hc) as (? & ? & ?). split_and!; try done. by right.
Qed.

Lemma detach_recent past peak lo chain s target h chain_height :
  tracks past peak lo chain s -> rescan_tx (sql s) = None -> detach_point target s = (table_recent, h) ->
  exists c s', c ∈ chain /\ sn_height c.2 = h /\ h <= target /\
    detach_both (table_recent, h) chain_height s = (Some tt, s') /\
    tracks (m_state s' :: past) peak lo (unwound h chain) s' /\ at_rest (unwound h chain) s' /\
    m_state s' = cleaned c.1 /\ accrued (l_tables (sql s')) = sn_balances c.2.
Proof using Type.
  intros H Htx E. destruct (recent_point _ _ _ _ _ _ _ H E) as (c & x & Hc & Eh & Hle & Hx & Ec & Erows).
  pose proof (tr_chain _ _ _ _ _ H) as Ht. rewrite Forall_forall in Ht. destruct (Ht c Hc) as (Ehc & _).
  destruct (detach_outcome _ _ _ _ true h chain_height c.2 (tr_ledger _ _ _ _ _ H)) as (l' & El & Ha & Hl & Hr);
    [by left|by apply list_elem_of_fmap_2|done|done|].
  assert (st_height (cleaned (stored_state x)) = h) as Ehs by by rewrite Ec, cleaned_height, Ehc.
  destruct (unwound_top _ _ _ c (tr_ledger _ _ _ _ _ H) Hc) as [rest Hu]. rewrite Eh in Hu.
  exists c, (with_sql (restore_state fk nettype snpk_to_xpk order (stored_state x) (trim h (state_history s))
    (state_archive s) s) l').
  split_and!; [done..| | | |exact Ec|exact Ha].
  - unfold History.detach_both, detach_list. cbn [fst snd]. rewrite Hx. cbn [restore_state with_cache m_state sql].
    rewrite Ehs, El. reflexivity.
  - split; cbn.
    + by rewrite unwound_snapshots.
    + exact (chain_unwound _ _ _ _ (tr_chain _ _ _ _ _ H)).
    + intros h' x' [Hx' Hh']%lookup_trim. destruct (tr_history _ _ _ _ _ H _ _ Hx') as (? & c' & Hc' & Eh' & Ec').
      split; [done|]. exists c'. split_and!; try done. apply elem_of_unwound. by rewrite Eh'.
    + intros c' [Hc' Hle']%elem_of_unwound Hlo. rewrite Ehs.
      destruct (decide (sn_height c'.2 = h)) as [|Hne]; [by left|right].
      destruct (tr_complete _ _ _ _ _ H c' Hc' Hlo) as [Em|[x' Hx']].
      * pose proof (chain_below _ _ _ _ c.2 (tr_ledger _ _ _ _ _ H) (list_elem_of_fmap_2 snd _ _ Hc)) as Hb.
        pose proof (tr_front _ _ _ _ _ H). lia.
      * exists x'. by apply lookup_trim.
    + intros h' x' Hx' Hl'. destruct (tr_archive _ _ _ _ _ H _ _ Hx' Hl') as (? & st & ? & ? & ?).
      split; [done|]. exists st. split_and!; try done. by right.
    + by rewrite Ehs, Hl.
    + reflexivity.
  - split; cbn; [by rewrite Ehs|]. exists c. rewrite Hu. split; [done|]. by rewrite Ec, cleaned_idemp.
Qed.

(** The archive restores the ledger of the block, and a state that the list had at its height. *)
Lemma detach_archive past peak lo chain s target h chain_height :
  tracks past peak lo chain s -> 0 < HISTORY_ARCHIVE_INTERVAL conf -> 0 <= target -> rescan_tx (sql s) = None ->
  detach_point target s = (table_archive, h) ->
  exists c rest st s', c ∈ chain /\ sn_height c.2 = h /\ h <= target /\ unwound h chain = c :: rest /\
    detach_both (table_archive, h) chain_height s = (Some tt, s') /\
    let chain' := (m_state s', c.2) :: rest in
    tracks (m_state s' :: past) peak h chain' s' /\ at_rest chain' s' /\
    st ∈ past /\ st_height st = h /\ m_state s' = cleaned st /\ accrued (l_tables (sql s')) = sn_balances c.2.
Proof using Type.
  intros H Hi Htg Htx E.
  destruct (archive_point _ _ _ _ _ _ _ H Hi Htg E) as (c & x & st & Hc & Eh & Hle & Hx & Hst & Ehst & Ec & Erows).
  destruct (detach_outcome _ _ _ _ false h chain_height c.2 (tr_ledger _ _ _ _ _ H)) as (l' & El & Ha & Hl & Hr);
    [by left|by apply list_elem_of_fmap_2|done|done|].
  assert (st_height (cleaned (stored_state x)) = h) as Ehs by by rewrite Ec, cleaned_height.
  destruct (unwound_top _ _ _ c (tr_ledger _ _ _ _ _ H) Hc) as [rest Hu]. rewrite Eh in Hu.
  exists c, rest, st, (with_sql (restore_state fk nettype snpk_to_xpk order (stored_state x) ∅
    (trim h (state_archive s)) s) l').
  cbv zeta. split_and!; [done..| | | |done|done|exact Ec|exact Ha].
  - unfold History.detach_both, detach_list. cbn [fst snd]. rewrite Hx. cbn [restore_state with_cache m_state sql].
    rewrite Ehs, El. reflexivity.
  - pose proof (chain_unwound past (cleaned (stored_state x)) h chain (tr_chain _ _ _ _ _ H)) as Hch. rewrite Hu in Hch.
    apply Forall_cons in Hch as [(_ & _ & Hb) Hch]. rewrite <- unwound_snapshots, Hu in Hr.
    split; cbn.
    + exact Hr.
    + constructor; [|done]. cbn. rewrite Ehs, Eh. split_and!; [done|by left|by rewrite <- Eh].
    + done.
    + intros c' [->|Hc']%elem_of_cons Hlo; [left; cbn; by rewrite Ehs|].
      assert (c' ∈ unwound h chain) as [Hin Hle']%elem_of_unwound by (rewrite Hu; by right).
      left. rewrite Ehs. lia.
    + intros h' x' [Hx' _]%lookup_trim Hl'. destruct (tr_archive _ _ _ _ _ H _ _ Hx' Hl') as (? & st' & ? & ? & ?).
      split; [done|]. exists st'. split_and!; try done. by right.
    + by rewrite Ehs, Hl.
    + reflexivity.
  - split; cbn; [by rewrite Ehs|]. by eexists.
Qed.

(** Without a common state both start again. *)
Lemma empty_tables_at h :
  0 <= h -> exists t, update_info conf h empty_tables = Some t /\ accrued t = ∅ /\ delayed t = [] /\ info_height t = h /\
    (forall h', rows_at (accrued_recent t) h' = ∅) /\ forall h', rows_at (accrued_archive t) h' = ∅.
Proof using Type.
  intros Hh. assert (forall k h', rows_at (keep_from k (<[h := ∅]> ∅)) h' = ∅) as Hrows.
  { intros k h'. unfold keep_from. rewrite rows_at_keep by done. case_decide; [|done].
    rewrite rows_at_insert. by case_decide. }
  unfold update_info, empty_tables. cbn [info_height accrued accrued_recent accrued_archive delayed].
  destruct (Z.ltb_spec 0 h) as [Hlt|Hge].
  - unfold make_recent, make_archive, insert_rows. cbn -[keep_from].
    destruct (h mod HISTORY_ARCHIVE_INTERVAL conf =? 0); (eexists; split; [reflexivity|]; cbn -[keep_from]; auto).
  - rewrite (proj2 (Z.ltb_ge _ _)) by lia. eexists. split; [reflexivity|]. cbn. split_and!; done.
Qed.

Lemma detach_reset s chain_height :
  db_is_read_only (m_list s) = false -> rescan_tx (sql s) = None ->
  exists s', detach_both (table_nil, 0) chain_height s = (Some tt, s') /\
    m_state s' = new_state (initial_height fk nettype) /\ blank (initial_height fk nettype) (sql s') /\
    state_history s' = ∅ /\ state_archive s' = ∅ /\ m_key_image_cache s' = rebuild_key_image_cache order (m_state s').
Proof using Type.
  intros Hro Htx. set (h0 := initial_height fk nettype).
  assert (0 <= h0) as Hh0 by (unfold h0, initial_height, u64; apply Z.mod_pos_bound; lia).
  destruct (empty_tables_at h0 Hh0) as (t & Et & Ha & Hd & Hi & Hr & Hv).
  set (l0 := Ledger empty_tables 0 None (rescan_count (sql s)) (rescan_target (sql s))).
  assert (forall l, rescan_tx l = None -> reset_database conf l = (Some tt, Ledger empty_tables 0 None (rescan_count l) (rescan_target l)))
    as Hreset by (intros [] E; cbn in E; by rewrite E).
  assert (forall l, rescan_tx l = None -> l_tables l = empty_tables -> l_height l = 0 -> exists l',
    Ledger.blockchain_detached conf table_nil h0 chain_height l = (Some tt, l') /\ l_tables l' = t /\ l_height l' = h0) as Hdet.
  { intros l E1 E2 E3. unfold Ledger.blockchain_detached, mbind, db_bind, get_ledger.
    assert (exists l1, (if h0 =? l_height l then mret tt else reset_database conf) l = (Some tt, l1) /\
      l_tables l1 = empty_tables /\ rescan_tx l1 = None) as (l1 & -> & Et1 & Etx1).
    { destruct (h0 =? l_height l); [by exists l|]. rewrite Hreset by done. by eexists. }
    unfold update_height, statement. cbn [l_tables with_height]. rewrite Et1, Et.
    destruct (u64 (h0 + 5000) <? chain_height); [|by eexists].
    unfold set_rescan_target, rescan_start. cbn. rewrite Etx1. by eexists. }
  destruct (Hdet l0 eq_refl eq_refl eq_refl) as (l' & El & Et' & Eh').
  unfold History.detach_both, detach_list, reset. cbn [fst snd m_list sql]. rewrite Hro, Hreset by done.
  cbn [m_state sql new_state st_height]. fold h0. fold l0. rewrite El.
  eexists. split; [reflexivity|]. cbn. unfold blank. rewrite Et', Eh'. split_and!; done.
Qed.
(** *** Blocks *)

Lemma queue_payments_rows h ps l :
  Forall (fun p => dp_height p = h) ps -> more_delayed h l (queue_payments ps l).
Proof using Type.
  intros H. revert l. induction H as [|p ps Hp _ IH]; intros l; [reflexivity|]. cbn.
  etransitivity; [|apply IH]. rewrite Hp. apply add_delayed_rows.
Qed.

Context (cn_fast_hash : bytes -> bytes) (check_signature : bytes -> bytes -> bytes -> bool) (check_key : bytes -> bool).
Context (get_block_hash : block -> bytes) (is_hex : string -> bool) (from_hex : string -> bytes).
Context (output_key : Z -> account_public_address -> Z -> option bytes).
Context (registered_for_transition : Z -> account_public_address -> bool).
Context (m_store_quorum_history : Z).
Context (Hkeep : 0 <= HISTORY_RECENT_KEEP_WINDOW conf) (Harchive : 0 <= HISTORY_ARCHIVE_KEEP_WINDOW conf).

Abbreviation block_add := (block_add fk nettype conf cn_fast_hash check_signature check_key get_block_hash is_hex from_hex
  output_key registered_for_transition order m_store_quorum_history).
Abbreviation add_to_ledger := (add_to_ledger fk nettype conf cn_fast_hash check_key output_key registered_for_transition).
Abbreviation process_block := (process_block conf cn_fast_hash m_store_quorum_history).
Abbreviation remember := (remember conf cn_fast_hash m_store_quorum_history).
Abbreviation oldest_kept lo s := (Z.max lo (min_recent_height conf (l_height (sql s)))).

Lemma archived_state st x :
  archived conf st = Some x -> only_loaded_quorums x = false -> stored_state x = st.
Proof using Type. unfold archived. repeat case_match; intros [= <-]; done. Qed.

(** The top of the chain is remembered, and what is recent enough stays. *)
Lemma remember_tracks past peak lo chain s b e :
  tracks past peak lo chain s -> at_rest chain s ->
  let s1 := remember b e s in
  tracks past peak (oldest_kept lo s) chain s1 /\
  forall c, c ∈ chain -> oldest_kept lo s <= sn_height c.2 -> is_Some (state_history s1 !! sn_height c.2).
Proof using All.
  intros H (Hh & top & Htop & Ectop) s1. pose proof (chain_top _ _ _ _ _ _ H Htop) as Eht.
  pose proof (tr_chain _ _ _ _ _ H) as Ht. rewrite Forall_forall in Ht.
  assert (top ∈ chain) as Hin by (destruct chain; [done|]; injection Htop as ->; by left).
  destruct (Ht top Hin) as (Est & Hpast & Hb).
  assert (forall c, c ∈ chain -> oldest_kept lo s <= sn_height c.2 -> is_Some (state_history s1 !! sn_height c.2)) as Hfull.
  { intros c Hc Hlo.
    assert (exists x, insert_stored (Stored false (m_state s)) (state_history s) !! sn_height c.2 = Some x) as [x Hx].
    { rewrite lookup_insert_stored. destruct (tr_complete _ _ _ _ _ H c Hc ltac:(lia)) as [E|[x ->]]; [|by exists x].
      destruct (state_history s !! _); [by eexists|]. cbn. rewrite decide_True by done. by eexists. }
    exists x. cbn. apply lookup_cull. split; [done|]. rewrite Hh. lia. }
  split; [|done]. split; cbn; try apply H.
  - intros h x [Hx _]%lookup_cull. rewrite lookup_insert_stored in Hx.
    destruct (state_history s !! h) as [y|] eqn:Ey; [injection Hx as ->; by apply (tr_history _ _ _ _ _ H)|].
    case_decide as Eh; [|done]. injection Hx as <-. split; [done|]. exists top. cbn in *. split_and!; [done|lia|done].
  - intros c Hc Hlo. right. by apply Hfull.
  - intros h x [Hx _]%lookup_cull Hl. destruct (archived conf (m_state s)) as [y|] eqn:Ey; [|by apply (tr_archive _ _ _ _ _ H)].
    rewrite lookup_insert_stored in Hx. destruct (state_archive s !! h) as [z|] eqn:Ez.
    { injection Hx as ->. by apply (tr_archive _ _ _ _ _ H). }
    case_decide as Eh; [|done]. injection Hx as ->. apply archived_state in Ey as Ex; [|done]. rewrite Ex in *.
    split; [lia|]. exists top.1. split_and!; [done|lia|done].
Qed.

Lemma process_tracks `{U : BlockUpdater} ordinary `{!BlockUpdaterLaws ordinary U} past peak lo chain s b e res s' :
  tracks past peak lo chain s -> at_rest chain s -> hf9_service_nodes <= major_version b -> ordinary b (m_state s) ->
  is_u64 (l_height (sql s) + 1) -> process_block b e s = Returned (res, s') ->
  tracks past peak (oldest_kept lo s) chain (with_cache order s') /\
  st_height (m_state s') = l_height (sql s) + 1 /\ l_height (sql s') = l_height (sql s) /\
  rescan_tx (sql s') = rescan_tx (sql s).
Proof using All.
  intros H Hr Hv Hb Hu. unfold History.process_block. rewrite (proj2 (Z.ltb_ge _ _)) by done.
  destruct (remember_tracks _ _ _ _ _ b e H Hr) as [H1 Hfull]. destruct Hr as [Hh _].
  set (s1 := remember b e s) in *. assert (sql s1 = sql s /\ m_state s1 = m_state s) as [Es Em] by done.
  clearbody s1. destruct (apply_block _ _ _ _ _ _ _) as [[w r]| |] eqn:E; cbn [mbind outcome_bind]; [|done..].
  intros [= <- <-].
  assert (st_height (w_state w) = l_height (sql s) + 1) as Ew.
  { apply apply_block_height in E; [|by rewrite Em]. cbn in E. rewrite E, Em, Hh. by apply u64_small. }
  apply apply_block_payments in E as (ps & Eps & Hps); [|by rewrite Em]. cbn in Eps, Hps.
  rewrite Em, Hh, u64_small in Hps by done.
  apply (queue_payments_rows _ _ (sql s1)) in Hps as Hmore. rewrite Eps, Es in *.
  destruct (Hmore) as (rows & _ & El). cbn. rewrite El in *. cbn.
  split; [|done]. split; cbn; try apply H1.
  - apply (represents_delayed _ _ _ (sql s)); [rewrite <- Es; apply H1|exact Hmore].
  - intros c Hc Hlo. right. by apply Hfull.
  - lia.
  - done.
Qed.
(** Only the records about the nodes change. *)
Lemma record_block_tracks past peak lo chain s b e s' :
  record_block conf b e s = Returned (Some s') -> tracks past peak lo chain s ->
  tracks past peak lo chain s' /\ m_state s' = m_state s /\ sql s' = sql s.
Proof using Type.
  unfold record_block. destruct (has_pulse b && is_current conf b e); [|by intros [= <-]].
  destruct (lookup_quorum (states s) pulse (b_height b)) as [[[|v vs] ws]|]; [done| |done].
  destruct (record_participants _ _ _ _) as [nl|]; cbn [of_option mbind outcome_bind]; [|done].
  intros [= <-] H. split; [|done]. split; apply H.
Qed.

Abbreviation ledger_add := (Ledger.add_block fk nettype conf cn_fast_hash check_key output_key registered_for_transition).

(** A ledger that throws has not changed. *)
Lemma ledger_add_throws peak chain l b cb st producer ba skip l' :
  represents conf peak chain l -> hf19_reward_batching <= major_version b ->
  hard_fork_begins fk nettype hf19_reward_batching <> Some (b_height b) -> 0 < b_height b ->
  ledger_add b cb st producer ba skip l = (None, l') -> l' = l.
Proof using All.
  intros H Hv Hb Hpos. unfold Ledger.add_block. rewrite (proj2 (Z.ltb_ge _ _)) by done.
  destruct (Z.eqb_spec (b_height b) (default 0 (hard_fork_begins fk nettype hf19_reward_batching))) as [E|_].
  { destruct (hard_fork_begins _ _ _); cbn in E; [congruence|lia]. }
  unfold mbind, db_bind, mret, db_ret, get_ledger. destruct (negb _); [done|].
  destruct (major_version b <? feature_ETH_BLS).
  - unfold or_throw. destruct (get_sn_payments _ _ _ _ _ _) as [ps|]; [|by intros [= <-]].
    intros E. by apply (block_outcome nettype conf cn_fast_hash check_key output_key Hkeep Harchive _ _ _ _ _ _ _ _ _ _ _ _ H) in E.
  - intros E. by apply (block_outcome nettype conf cn_fast_hash check_key output_key Hkeep Harchive _ _ _ _ _ _ _ _ _ _ _ _ H) in E.
Qed.

(** The next block of a network that has batching. *)
Definition batched_block (b : block) : Prop :=
  hf19_reward_batching <= major_version b /\
  exists first, hard_fork_begins fk nettype hf19_reward_batching = Some first /\ 0 <= first < b_height b.

Lemma add_to_ledger_tracks `{U : BlockUpdater} past peak lo chain s b e ba v s' :
  tracks past peak lo chain s -> st_height (m_state s) = l_height (sql s) + 1 -> batched_block b ->
  (forall c, c ∈ chain -> lo <= sn_height c.2 -> is_Some (state_history s !! sn_height c.2)) ->
  add_to_ledger b e ba s = Returned (v, s') ->
  match v with
  | block_added true =>
      let chain' := (m_state s', snapshot_of (sql s')) :: chain in
      tracks (m_state s' :: past) (Z.max peak (l_height (sql s'))) lo chain' s' /\ at_rest chain' s'
  | _ => rescan_tx (sql s) = None -> s' = s
  end.
Proof using All.
  intros H Hh (Hv & first & Hf & Hpos) Hfull. unfold History.add_to_ledger.
  destruct (block_producer _ _) as [producer| |]; cbn [mbind outcome_bind]; [|done..].
  destruct (ledger_add _ _ _ _ _ _ _) as [[ok|] l'] eqn:E; intros [= <- <-].
  2: { intros _. apply (ledger_add_throws _ _ _ _ _ _ _ _ _ _ (tr_ledger _ _ _ _ _ H)) in E as ->; [by destruct s|done|rewrite Hf; intros [=]; lia|lia]. }
  apply (add_block_outcome fk nettype conf cn_fast_hash check_key output_key registered_for_transition Hkeep Harchive
    _ _ _ _ _ _ _ _ _ _ _ (tr_ledger _ _ _ _ _ H)) in E; [|done|rewrite Hf; intros [=]; lia|lia].
  destruct ok; [|intros Htx; rewrite E by done; by destruct s]. destruct E as [Hnext E].
  assert (st_height (m_state s) = l_height l') as Eh by lia.
  pose proof (tr_chain _ _ _ _ _ H) as Ht. rewrite Forall_forall in Ht.
  split; [|split; [done|by eexists]]. split; cbn.
  - exact E.
  - constructor; cbn.
    + split_and!; [done|by left|]. destruct (rp_top _ _ _ _ (tr_ledger _ _ _ _ _ H)) as (d & Hd & Ed & _).
      destruct chain as [|c chain]; [done|]. injection Hd as <-. destruct (Ht c (list_elem_of_here _ _)) as (_ & _ & ?). lia.
    + apply Forall_forall. intros c Hc. destruct (Ht c Hc) as (? & ? & ?). split_and!; try done. by right.
  - intros h x Hx. destruct (tr_history _ _ _ _ _ H h x Hx) as (? & c & ? & ? & ?). split; [done|]. exists c.
    split_and!; try done. by right.
  - intros c [->|Hc]%elem_of_cons Hlo; [by left|right]. by apply Hfull.
  - intros h x Hx Hl. destruct (tr_archive _ _ _ _ _ H h x Hx Hl) as (? & st & ? & ? & ?). split; [done|]. exists st.
    split_and!; try done. by right.
  - lia.
  - apply H.
Qed.
Lemma past_the_chain past peak lo chain s :
  tracks past peak lo chain s -> st_height (m_state s) = l_height (sql s) + 1 ->
  forall c, c ∈ chain -> lo <= sn_height c.2 -> is_Some (state_history s !! sn_height c.2).
Proof using All.
  intros H Hh c Hc Hlo. destruct (tr_complete _ _ _ _ _ H c Hc Hlo) as [E|]; [|done].
  pose proof (chain_below _ _ _ _ c.2 (tr_ledger _ _ _ _ _ H) (list_elem_of_fmap_2 snd _ _ Hc)). lia.
Qed.

(** A block is added to both, or the list is one block past a chain that it still remembers. *)
Lemma block_add_tracks `{U : BlockUpdater} ordinary `{!BlockUpdaterLaws ordinary U} past peak lo chain s b e v s' :
  tracks past peak lo chain s -> at_rest chain s -> batched_block b -> ordinary b (m_state s) ->
  is_u64 (l_height (sql s) + 1) -> block_add b e s = Returned (v, s') ->
  match v with
  | block_added true =>
      let chain' := (m_state s', snapshot_of (sql s')) :: chain in
      tracks (m_state s' :: past) (Z.max peak (l_height (sql s'))) (oldest_kept lo s) chain' s' /\ at_rest chain' s'
  | _ => rescan_tx (sql s) = None ->
      tracks past peak (oldest_kept lo s) chain s' /\ st_height (m_state s') = l_height (sql s') + 1
  end.
Proof using All.
  intros H Hr Hbb Hb Hu. unfold History.block_add. assert (hf9_service_nodes <= major_version b) as Hv.
  { destruct Hbb as [Hv _]. unfold hf19_reward_batching, hf9_service_nodes in *. lia. }
  rewrite (proj2 (Z.ltb_ge _ _)) by done. rewrite (proj2 (Z.eqb_eq _ _)) by apply Hr. cbn [negb].
  destruct (process_block b e s) as [[res s1]| |] eqn:E; cbn [mbind outcome_bind]; [|done..].
  destruct (process_tracks ordinary _ _ _ _ _ _ _ _ _ H Hr Hv Hb Hu E) as (H1 & Hh1 & El1 & Etx1).
  set (s2 := with_cache order s1) in *. assert (st_height (m_state s2) = l_height (sql s2) + 1) as Hh2 by (cbn; lia).
  assert (rescan_tx (sql s2) = rescan_tx (sql s)) as Etx2 by done. clearbody s2. clear E Hh1 El1 Etx1 s1.
  destruct (if be_skip_verify e then _ else _); [by intros [= <- <-]|].
  destruct (record_block conf b e s2) as [[s3|]| |] eqn:E3; cbn [mbind outcome_bind]; [|by intros [= <- <-]|done..].
  apply (record_block_tracks _ _ _ _ _ _ _ _ E3) in H1 as (H3 & Em & Es). rewrite <- Em, <- Es in Hh2.
  intros E. pose proof (past_the_chain _ _ _ _ _ H3 Hh2) as Hfull.
  apply (add_to_ledger_tracks _ _ _ _ _ _ _ _ _ _ H3 Hh2 Hbb Hfull) in E.
  destruct v as [[]| | | |]; [exact E|..]; intros Htx; rewrite E by (rewrite Es, Etx2; exact Htx); done.
Qed.

(** *** Runs *)

(** For example a list without history, with a ledger without balances. *)
Lemma blank_tracks s (h := st_height (m_state s)) :
  blank h (sql s) -> begins <= h -> state_history s = ∅ -> state_archive s = ∅ ->
  m_key_image_cache s = rebuild_key_image_cache order (m_state s) ->
  tracks [m_state s] h h [(m_state s, Snapshot h ∅ [])] s /\ at_rest [(m_state s, Snapshot h ∅ [])] s.
Proof using All.
  intros Hblank Hb Eh Ea Ec. pose proof Hblank as (Elh & _). split; [|split; [done|by eexists]]. split; cbn.
  - by apply represents_blank.
  - apply Forall_singleton. split_and!; [done|by left|done].
  - intros h' x. by rewrite Eh.
  - intros c ->%list_elem_of_singleton _. by left.
  - intros h' x. by rewrite Ea.
  - by rewrite Elh.
  - done.
Qed.

(** [resting] unless the last block failed; [past], [peak] and [lo] as in [tracks]. *)
Inductive history_run : bool -> list state_t -> Z -> Z -> list moment -> snl -> Prop :=
| history_start past peak lo chain s : tracks past peak lo chain s -> at_rest chain s -> history_run true past peak lo chain s
| history_added `(U : BlockUpdater) ordinary `(!BlockUpdaterLaws ordinary U) past peak lo chain s b e s' :
    history_run true past peak lo chain s -> batched_block b -> ordinary b (m_state s) ->
    is_u64 (l_height (sql s) + 1) -> block_add b e s = Returned (block_added true, s') ->
    history_run true (m_state s' :: past) (Z.max peak (l_height (sql s'))) (oldest_kept lo s)
      ((m_state s', snapshot_of (sql s')) :: chain) s'
| history_failed `(U : BlockUpdater) ordinary `(!BlockUpdaterLaws ordinary U) past peak lo chain s b e v s' :
    history_run true past peak lo chain s -> batched_block b -> ordinary b (m_state s) ->
    is_u64 (l_height (sql s) + 1) -> rescan_tx (sql s) = None ->
    block_add b e s = Returned (v, s') -> v <> block_added true ->
    history_run false past peak (oldest_kept lo s) chain s'
| history_recent resting past peak lo chain s target h chain_height s' :
    history_run resting past peak lo chain s -> rescan_tx (sql s) = None ->
    detach_point target s = (table_recent, h) -> detach_both (table_recent, h) chain_height s = (Some tt, s') ->
    history_run true (m_state s' :: past) peak lo (unwound h chain) s'
| history_archive resting past peak lo chain s target h chain_height c rest s' :
    history_run resting past peak lo chain s -> rescan_tx (sql s) = None -> 0 <= target ->
    detach_point target s = (table_archive, h) -> detach_both (table_archive, h) chain_height s = (Some tt, s') ->
    unwound h chain = c :: rest -> history_run true (m_state s' :: past) peak h ((m_state s', c.2) :: rest) s'.

Lemma history_run_tracks resting past peak lo chain s :
  0 < HISTORY_ARCHIVE_INTERVAL conf -> history_run resting past peak lo chain s -> tracks past peak lo chain s /\
  if resting then at_rest chain s else st_height (m_state s) = l_height (sql s) + 1.
Proof using All.
  intros Hi. induction 1 as [past peak lo chain s H Hr|U ordinary Laws past peak lo chain s b e s' _ [IH Hr] Hbb Hb Hu E
    |U ordinary Laws past peak lo chain s b e v s' _ [IH Hr] Hbb Hb Hu Htx E Hv
    |resting past peak lo chain s target h ch s' _ [IH _] Htx Ep E
    |resting past peak lo chain s target h ch c rest s' _ [IH _] Htx Ht Ep E Hu].
  - done.
  - by apply (block_add_tracks ordinary _ _ _ _ _ _ _ _ _ IH Hr Hbb Hb Hu) in E.
  - apply (block_add_tracks ordinary _ _ _ _ _ _ _ _ _ IH Hr Hbb Hb Hu) in E. destruct v as [[]| | | |]; auto. done.
  - destruct (detach_recent _ _ _ _ _ _ _ ch IH Htx Ep) as (c & s1 & _ & _ & _ & E1 & H1 & Hr1 & _).
    rewrite E in E1. injection E1 as <-. done.
  - destruct (detach_archive _ _ _ _ _ _ _ ch IH Hi Ht Htx Ep) as (c1 & rest1 & st & s1 & _ & _ & _ & Hu1 & E1 & H1 & Hr1 & _).
    rewrite E in E1. injection E1 as <-. rewrite Hu in Hu1. by injection Hu1 as <- <-.
Qed.
(** *** Where a detach lands *)

(** The ledger as it was after a block: balances, and the payments then pending. *)
Definition ledger_of (peak : Z) (d : snapshot) (l : ledger) : Prop :=
  l_height l = sn_height d /\ accrued (l_tables l) = sn_balances d /\
  forall r, peak - HISTORY_ARCHIVE_KEEP_WINDOW conf <= sn_height d -> pending_at d r ->
    r ∈ delayed (l_tables l) <-> r ∈ sn_delayed d.

Lemma tracks_ledger past peak lo chain s c :
  tracks past peak lo chain s -> head chain = Some c -> ledger_of peak c.2 (sql s).
Proof using Type.
  intros H Hc. pose proof (tr_ledger _ _ _ _ _ H) as Hl. destruct (rp_top _ _ _ _ Hl) as (d & Hd & Eh & Ea).
  destruct chain as [|c' chain]; [done|]. injection Hc as ->. cbn in Hd. injection Hd as <-. split_and!; [done..|].
  intros r Hlo Hp. apply (rp_delayed _ _ _ _ Hl); [by left|done|done].
Qed.

(** A block that the recent history and the ledger both have is where the search stops. *)
Lemma exact_point past peak lo chain s target c :
  tracks past peak lo chain s -> c ∈ chain -> sn_height c.2 = target -> is_Some (state_history s !! target) ->
  peak - HISTORY_RECENT_KEEP_WINDOW conf <= target -> sn_balances c.2 <> ∅ -> detach_point target s = (table_recent, target).
Proof using All.
  intros H Hc Eh [x Hx] Hlo Hne. unfold History.detach_point.
  match goal with |- match newest ?p ?m with _ => _ end = _ => pose proof (newest_spec p m) as Hn end.
  assert (negb (only_loaded_quorums x) && (target <=? target) && sql_db_has fk nettype (sql s) target true = true) as Hp.
  { destruct (tr_history _ _ _ _ _ H _ _ Hx) as [-> _]. rewrite Z.leb_refl. cbn. unfold sql_db_has.
    apply orb_true_iff. right. unfold batch_payments_accrued_has_any. apply bool_decide_eq_true_2.
    pose proof (co_complete _ _ _ _ (rp_recent _ _ _ _ (tr_ledger _ _ _ _ _ H)) c.2 (list_elem_of_fmap_2 snd _ _ Hc) I) as E.
    rewrite Eh in E. by rewrite E. }
  destruct (newest _ _) as [h|].
  - destruct Hn as [(y & Hy & Hpy) Hmax]. specialize (Hmax target x Hx Hp).
    apply andb_prop in Hpy as [[_ Hle%Z.leb_le]%andb_prop _]. f_equal. lia.
  - by rewrite (Hn _ _ Hx) in Hp.
Qed.

(** Both are at the same height: at a block of the chain not above the target, or at the start. *)
Definition landed (past : list state_t) (peak : Z) (chain : list moment) (target : Z) (s' : snl) : Prop :=
  st_height (m_state s') = l_height (sql s') /\
  ((exists c, c ∈ chain /\ sn_height c.2 <= target /\ ledger_of peak c.2 (sql s') /\
      (cleaned (m_state s') = cleaned c.1 \/
       state_history s' = ∅ /\ exists st, st ∈ past /\ st_height st = sn_height c.2 /\ m_state s' = cleaned st)) \/
   (m_state s' = new_state (initial_height fk nettype) /\ blank (initial_height fk nettype) (sql s') /\
      state_history s' = ∅ /\ state_archive s' = ∅)).

Lemma rest_landed past peak lo chain s :
  tracks past peak lo chain s -> at_rest chain s ->
  landed past peak chain (l_height (sql s)) s /\
  forall c, c ∈ chain -> sn_height c.2 = l_height (sql s) -> cleaned (m_state s) = cleaned c.1.
Proof using All.
  intros H (Eh & c & Hc & Ec). pose proof (tracks_ledger _ _ _ _ _ _ H Hc) as Hl. pose proof Hl as (Elc & _).
  assert (c ∈ chain) as Hin by (destruct chain; [done|]; injection Hc as ->; by left). split.
  - split; [done|]. left. exists c. split_and!; [done|lia|done|by left].
  - intros c' Hc' Eh'. assert (c' = c) as -> by (eapply same_height; [apply H|done..|lia]). done.
Qed.

Lemma recent_landed past peak lo chain s target h chain_height :
  tracks past peak lo chain s -> rescan_tx (sql s) = None -> detach_point target s = (table_recent, h) ->
  exists s', detach_both (table_recent, h) chain_height s = (Some tt, s') /\ landed past peak chain target s' /\
    l_height (sql s') = h /\ forall c, c ∈ chain -> sn_height c.2 = h -> cleaned (m_state s') = cleaned c.1.
Proof using All.
  intros H Htx Ep.
  destruct (detach_recent _ _ _ _ _ _ _ chain_height H Htx Ep) as (c & s' & Hc & Eh & Hle & E & H' & Hr' & Em & _).
  destruct (unwound_top _ _ _ c (tr_ledger _ _ _ _ _ H) Hc) as [rest Hu]. rewrite Eh in Hu.
  pose proof (tracks_ledger _ _ _ _ _ c H' ltac:(by rewrite Hu)) as Hl. pose proof Hl as (Elc & _).
  exists s'. split_and!; [done| |lia|].
  - split; [apply Hr'|]. left. exists c. split_and!; [done|lia|done|]. left. by rewrite Em, cleaned_idemp.
  - intros c' Hc' Eh'. assert (c' = c) as -> by (eapply same_height; [apply H|done..|lia]). by rewrite Em, cleaned_idemp.
Qed.

Lemma archive_landed past peak lo chain s target h chain_height :
  tracks past peak lo chain s -> 0 < HISTORY_ARCHIVE_INTERVAL conf -> 0 <= target -> rescan_tx (sql s) = None ->
  detach_point target s = (table_archive, h) ->
  exists s', detach_both (table_archive, h) chain_height s = (Some tt, s') /\ landed past peak chain target s'.
Proof using All.
  intros H Hi Htg Htx Ep. destruct (detach_archive _ _ _ _ _ _ _ chain_height H Hi Htg Htx Ep)
    as (c & rest & st & s' & Hc & Eh & Hle & Hu & E & H' & Hr' & Hst & Ehst & Em & _).
  pose proof (tracks_ledger _ _ _ _ _ (m_state s', c.2) H' eq_refl) as Hl.
  exists s'. split; [done|]. split; [apply Hr'|]. left. exists c. split_and!; [done|lia|done|]. right. split.
  - unfold History.detach_both, detach_list in E. cbn in E. destruct (state_archive s !! h); [|done].
    destruct (Ledger.blockchain_detached _ _ _ _ _) as [r l]. by injection E as _ <-.
  - exists st. split_and!; [done|lia|done].
Qed.

Lemma detach_lands resting past peak lo chain s height chain_height :
  0 < HISTORY_ARCHIVE_INTERVAL conf -> history_run resting past peak lo chain s ->
  rescan_tx (sql s) = None -> db_is_read_only (m_list s) = false -> 0 <= height ->
  let target := if height =? 0 then 0 else height - 1 in
  exists s', detach height chain_height s = (Some tt, s') /\ landed past peak chain target s' /\
    (forall c, c ∈ chain -> sn_height c.2 = target -> lo <= target -> peak - HISTORY_RECENT_KEEP_WINDOW conf <= target ->
       sn_balances c.2 <> ∅ -> l_height (sql s') = target /\ cleaned (m_state s') = cleaned c.1).
Proof using All.
  intros Hi Hrun Htx Hro Hheight target.
  assert (0 <= target) as Htg by (unfold target; destruct (Z.eqb_spec height 0); lia).
  destruct (history_run_tracks _ _ _ _ _ _ Hi Hrun) as [H Hrest]. unfold History.blockchain_detached. fold target.
  destruct ((st_height (m_state s) =? target) && (l_height (sql s) =? target)) eqn:Eearly.
  { apply andb_prop in Eearly as [E1%Z.eqb_eq E2%Z.eqb_eq]. destruct resting; [|lia]. exists s.
    destruct (rest_landed _ _ _ _ _ H Hrest) as [Hl Hc]. rewrite E2 in Hl, Hc. auto. }
  assert (forall c, c ∈ chain -> sn_height c.2 = target -> lo <= target -> peak - HISTORY_RECENT_KEEP_WINDOW conf <= target ->
    sn_balances c.2 <> ∅ -> detach_point target s = (table_recent, target)) as Hexact.
  { intros c Hc Eh Hlo Hpk Hne. eapply exact_point; try done. rewrite <- Eh in *.
    destruct (tr_complete _ _ _ _ _ H c Hc Hlo) as [E|]; [|done]. exfalso. destruct resting.
    - destruct Hrest as [Er _]. apply andb_false_iff in Eearly as [En%Z.eqb_neq|En%Z.eqb_neq]; lia.
    - pose proof (chain_below _ _ _ _ c.2 (tr_ledger _ _ _ _ _ H) (list_elem_of_fmap_2 snd _ _ Hc)). lia. }
  destruct (detach_point target s) as [[| |] h] eqn:Ep.
  - assert (h = 0) as -> by (unfold History.detach_point in Ep; by repeat case_match; simplify_eq).
    destruct (detach_reset s chain_height Hro Htx) as (s' & E & Em & Hb & Hh & Ha & _). pose proof Hb as (El & _).
    exists s'. split; [done|]. split; [split; [by rewrite Em|by right]|].
    intros c Hc Eh Hlo Hpk Hne. by specialize (Hexact c Hc Eh Hlo Hpk Hne).
  - destruct (archive_landed _ _ _ _ _ _ _ chain_height H Hi Htg Htx Ep) as (s' & E & Hl). exists s'.
    split_and!; [done..|]. intros c Hc Eh Hlo Hpk Hne. by specialize (Hexact c Hc Eh Hlo Hpk Hne).
  - destruct (recent_landed _ _ _ _ _ _ _ chain_height H Htx Ep) as (s' & E & Hl & El & Hc). exists s'.
    split_and!; [done..|]. intros c Hin Eh Hlo Hpk Hne. injection (Hexact c Hin Eh Hlo Hpk Hne) as Eht.
    split; [by rewrite El|apply Hc; [done|by rewrite Eh, Eht]].
Qed.
End Together.

Lemma archive_interval_positive nt conf : get_config nt = Some conf -> 0 < HISTORY_ARCHIVE_INTERVAL conf.
Proof. destruct nt; intros [= <-]; by vm_compute. Qed.

(** (C3) The service node list and the reward ledger are detached together.  The runs
    ([history_run]) start at any state at rest in which the list and the ledger hold the same
    chain of blocks with batched rewards ([tracks]; without history, [blank_tracks]); their steps
    are blocks of [hf19_reward_batching] or
    later above that first block, other than the first blocks of [hf21_eth] and
    [hf22_eth_fixup] (whose migrations are parameters of the model), that are added or that the
    list or the ledger refuses, and detaches that the recent history or the archive serves.
    Blocks whose [update_from_block] throws, and what follows a detach back to the start of the
    chain, are not part of them.  After every such run, if the ledger is not in a rescan and the
    database can be written, a detach succeeds and leaves both at the same height, at a block of
    the current chain that is not above the target, with the ledger as it was after that block
    and the list in the state it had after it (from the archive: in a state it had at that
    height), or both at the start of the chain.  It is exactly the block of the target that is
    restored if that block is on the chain, not below the height [lo] from which the run has
    kept the recent states, within the keep window of the ledger below its greatest height, and
    left balances. *)
Theorem detach_in_step fk nettype conf snpk_to_xpk order cn_fast_hash check_signature check_key get_block_hash is_hex
    from_hex output_key registered_for_transition m_store_quorum_history resting past peak lo chain s height chain_height :
  get_config nettype = Some conf ->
  history_run fk nettype conf snpk_to_xpk order cn_fast_hash check_signature check_key get_block_hash is_hex from_hex
    output_key registered_for_transition m_store_quorum_history resting past peak lo chain s ->
  rescan_tx (sql s) = None -> db_is_read_only (m_list s) = false -> 0 <= height ->
  let target := if height =? 0 then 0 else height - 1 in
  exists s', blockchain_detached fk nettype conf snpk_to_xpk order height chain_height s = (Some tt, s') /\
    landed fk nettype conf snpk_to_xpk past peak chain target s' /\
    (forall c, c ∈ chain -> sn_height c.2 = target -> lo <= target -> peak - HISTORY_RECENT_KEEP_WINDOW conf <= target ->
       sn_balances c.2 <> ∅ -> l_height (sql s') = target /\
       cleanup_zombies_from_state fk nettype snpk_to_xpk (m_state s') = cleanup_zombies_from_state fk nettype snpk_to_xpk c.1).
Proof.
  intros Hconf Hrun Htx Hro Hh. destruct (history_windows _ _ Hconf) as [Hw1 Hw2].
  eapply (detach_lands fk nettype conf snpk_to_xpk order cn_fast_hash check_signature check_key get_block_hash is_hex from_hex
    output_key registered_for_transition m_store_quorum_history); [lia|lia|by eapply archive_interval_positive|done..].
Qed.

(** (C27) The index of locked key images is exact: over every such run, looking up a key image gives
    a contribution of that image which a node of the list holds, with the unlock height of the
    node, and finds nothing only if no node holds one. *)
Theorem key_image_index_exact fk nettype conf snpk_to_xpk order cn_fast_hash check_signature check_key get_block_hash is_hex
    from_hex output_key registered_for_transition m_store_quorum_history resting past peak lo chain s check_image :
  get_config nettype = Some conf -> (forall m, order m ≡ₚ map_to_list m) ->
  history_run fk nettype conf snpk_to_xpk order cn_fast_hash check_signature check_key get_block_hash is_hex from_hex
    output_key registered_for_transition m_store_quorum_history resting past peak lo chain s ->
  match is_key_image_locked s check_image with
  | Some e => locked_in (m_state s) check_image e
  | None => forall e, ~ locked_in (m_state s) check_image e
  end.
Proof.
  intros Hconf Horder Hrun. destruct (history_windows _ _ Hconf) as [Hw1 Hw2].
  apply history_run_tracks in Hrun as [H _]; [|lia|lia|by eapply archive_interval_positive].
  unfold is_key_image_locked. rewrite (tr_cache _ _ _ _ _ _ _ _ _ _ H). by apply cache_exact.
Qed.

(** *** Witness: three blocks on mainnet, the last of which fails, then back to the first. *)

Definition demo_updater : BlockUpdater :=
  list_updater [] MAINNET id (fun _ _ _ => true) (fun _ => true) (fun _ _ _ => true) id (fun _ _ => None)
    (fun _ _ _ => None) (fun _ _ => []) (fun _ _ _ => None) (fun _ _ _ => None) (fun _ _ _ => true)
    (fun _ => None) (fun _ => None) (fun _ => None) (fun _ => []) (fun _ st => st) (fun _ st => st) map_to_list 64 id
    Mt19937_64.seed demo_seq.
Definition demo_env : block_env := BlockEnv [] (Coinbase SN_REWARD_HF19 []) None false demo_view 0 (fun _ => None).
Definition demo_block_add (v h : Z) (s : snl) : outcome (add_verdict * snl) :=
  @block_add [] MAINNET mainnet_config (fun _ => []) (fun _ _ _ => false) (fun _ => true) b_hash (fun _ => true) (fun _ => [])
    (fun _ _ _ => None) (fun _ _ => false) map_to_list 0 demo_updater (plain_block v h 0)
    demo_env s.
Definition after (r : outcome (add_verdict * snl)) (s : snl) : snl := match r with Returned (_, s') => s' | _ => s end.
Definition verdict_of (r : outcome (add_verdict * snl)) : option add_verdict :=
  match r with Returned (v, _) => Some v | _ => None end.

Definition demo_snl_0 : snl :=
  Snl (new_state 800000) (NodeList MAINNET false false ∅ ∅ ∅) ∅ ∅ [] [] false ∅ empty_feeder (demo_ledger 800000).
Definition demo_snl_1 : snl := after (demo_block_add hf19_reward_batching 800001 demo_snl_0) demo_snl_0.
Definition demo_snl_2 : snl := after (demo_block_add hf19_reward_batching 800002 demo_snl_1) demo_snl_1.
Definition demo_snl_3 : snl := after (demo_block_add hf22_sn_policy 800003 demo_snl_2) demo_snl_2.
Definition demo_history : bool -> list state_t -> Z -> Z -> list (state_t * snapshot) -> snl -> Prop :=
  history_run [] MAINNET mainnet_config id map_to_list (fun _ => []) (fun _ _ _ => false) (fun _ => true) b_hash
    (fun _ => true) (fun _ => []) (fun _ _ _ => None) (fun _ _ => false) 0.

(** A start without history. *)
Lemma demo_history_start s (h := st_height (m_state s)) :
  blank h (sql s) -> sqlite_begins [] MAINNET <= h -> state_history s = ∅ -> state_archive s = ∅ ->
  m_key_image_cache s = rebuild_key_image_cache map_to_list (m_state s) ->
  demo_history true [m_state s] h h [(m_state s, Snapshot h ∅ [])] s.
Proof.
  intros H1 H2 H3 H4 H5. destruct (blank_tracks [] MAINNET mainnet_config id map_to_list (fun _ => []) (fun _ _ _ => false) (fun _ => true) b_hash
    (fun _ => true) (fun _ => []) (fun _ _ _ => None) (fun _ _ => false) 0 ltac:(by vm_compute) ltac:(by vm_compute) s H1 H2 H3 H4 H5) as [Ht Hr].
  by apply history_start.
Qed.

Lemma returned_after r s v : verdict_of r = Some v -> r = Returned (v, after r s).
Proof. destruct r as [[v' s']| |]; cbn; congruence. Qed.

Definition demo_chain_1 : list (state_t * snapshot) :=
  [(m_state demo_snl_1, snapshot_of (sql demo_snl_1)); (m_state demo_snl_0, Snapshot 800000 ∅ [])].
Definition demo_chain_2 : list (state_t * snapshot) := (m_state demo_snl_2, snapshot_of (sql demo_snl_2)) :: demo_chain_1.

Lemma demo_batched v h : hf19_reward_batching <= v -> 753 < h -> batched_block [] MAINNET (plain_block v h 0).
Proof. intros Hv Hh. split; [done|]. exists 753. split; [reflexivity|]. cbn. lia. Qed.

Lemma demo_ordinary v h st :
  h = u64 (st_height st + 1) -> h <> 219120 -> ordinary_block [] MAINNET (plain_block v h 0) st.
Proof. intros Hh Hn. split; [exact Hh|]. split; vm_compute; discriminate. Qed.

Lemma demo_history_add past peak lo chain s v h s' peak' lo' :
  demo_history true past peak lo chain s -> verdict_of (demo_block_add v h s) = Some (block_added true) ->
  after (demo_block_add v h s) s = s' -> h = u64 (st_height (m_state s) + 1) -> h <> 219120 ->
  hf19_reward_batching <= v -> 753 < h -> is_u64 (l_height (sql s) + 1) ->
  Z.max peak (l_height (sql s')) = peak' -> Z.max lo (min_recent_height mainnet_config (l_height (sql s))) = lo' ->
  demo_history true (m_state s' :: past) peak' lo' ((m_state s', snapshot_of (sql s')) :: chain) s'.
Proof.
  intros H E Es Hh Hn Hv Hpos Hu <- <-. apply (returned_after _ s) in E. rewrite Es in E.
  apply (history_added [] MAINNET mainnet_config id map_to_list (fun _ => []) (fun _ _ _ => false) (fun _ => true) b_hash
    (fun _ => true) (fun _ => []) (fun _ _ _ => None) (fun _ _ => false) 0 demo_updater (ordinary_block [] MAINNET) _
    past peak lo chain s (plain_block v h 0) demo_env s' H (demo_batched v h Hv Hpos) (demo_ordinary v h _ Hh Hn) Hu E).
Qed.

Lemma demo_history_2 :
  demo_history true [m_state demo_snl_2; m_state demo_snl_1; m_state demo_snl_0] 800002 800000 demo_chain_2 demo_snl_2.
Proof.
  assert (demo_history true [m_state demo_snl_0] 800000 800000 [(m_state demo_snl_0, Snapshot 800000 ∅ [])] demo_snl_0) as H0.
  { apply (demo_history_start demo_snl_0); [by repeat split|by vm_compute|done..]. }
  assert (demo_history true [m_state demo_snl_1; m_state demo_snl_0] 800001 800000 demo_chain_1 demo_snl_1) as H1.
  { apply (demo_history_add _ _ _ _ _ hf19_reward_batching 800001 demo_snl_1 _ _ H0); [|reflexivity|..]; by vm_compute. }
  apply (demo_history_add _ _ _ _ _ hf19_reward_batching 800002 demo_snl_2 _ _ H1); [|reflexivity|..]; by vm_compute.
Qed.

Lemma demo_history_fail past peak lo chain s v h verdict s' lo' :
  demo_history true past peak lo chain s -> verdict_of (demo_block_add v h s) = Some verdict ->
  verdict <> block_added true -> after (demo_block_add v h s) s = s' -> h = u64 (st_height (m_state s) + 1) -> h <> 219120 ->
  hf19_reward_batching <= v -> 753 < h -> is_u64 (l_height (sql s) + 1) -> rescan_tx (sql s) = None ->
  Z.max lo (min_recent_height mainnet_config (l_height (sql s))) = lo' ->
  demo_history false past peak lo' chain s'.
Proof.
  intros H E Hne Es Hh Hn Hv Hpos Hu Htx <-. apply (returned_after _ s) in E. rewrite Es in E.
  apply (history_failed [] MAINNET mainnet_config id map_to_list (fun _ => []) (fun _ _ _ => false) (fun _ => true) b_hash
    (fun _ => true) (fun _ => []) (fun _ _ _ => None) (fun _ _ => false) 0 demo_updater (ordinary_block [] MAINNET) _
    past peak lo chain s (plain_block v h 0) demo_env verdict s' H (demo_batched v h Hv Hpos) (demo_ordinary v h _ Hh Hn)
    Hu Htx E Hne).
Qed.

Lemma demo_history_3 :
  demo_history false [m_state demo_snl_2; m_state demo_snl_1; m_state demo_snl_0] 800002 800000 demo_chain_2 demo_snl_3.
Proof.
  apply (demo_history_fail _ _ _ _ _ hf22_sn_policy 800003 (refused components_failed) demo_snl_3 _ demo_history_2);
    [| |reflexivity|..]; by vm_compute.
Qed.

(** The list is a block ahead of the ledger; both go back to block 800001. *)
Lemma detach_in_step_witness :
  exists s', blockchain_detached [] MAINNET mainnet_config id map_to_list 800002 800003 demo_snl_3 = (Some tt, s') /\
    l_height (sql s') = 800001 /\ st_height (m_state s') = 800001.
Proof.
  destruct (detach_in_step [] MAINNET mainnet_config id map_to_list (fun _ => []) (fun _ _ _ => false) (fun _ => true) b_hash
    (fun _ => true) (fun _ => []) (fun _ _ _ => None) (fun _ _ => false) 0 false _ _ _ _ demo_snl_3 800002 800003 eq_refl
    demo_history_3) as (s' & E & [Hl _] & Hexact); [by vm_compute|by vm_compute|done|].
  destruct (Hexact (m_state demo_snl_1, snapshot_of (sql demo_snl_1))) as [Eh _].
  - right. left.
  - by vm_compute.
  - done.
  - by vm_compute.
  - assert (size (accrued (l_tables (sql demo_snl_1))) = 1%nat) as Hs by by vm_compute.
    intros E0. cbn in E0. rewrite E0, map_size_empty in Hs. lia.
  - exists s'. split; [exact E|]. split; [exact Eh|by rewrite Hl].
Defined.

Definition demo_staked : state_t := with_infos (new_state 800000) {[ [1] := demo_info ]}.
Definition demo_snl_staked : snl :=
  Snl demo_staked (NodeList MAINNET false false ∅ ∅ ∅) ∅ ∅ [] [] false (rebuild_key_image_cache map_to_list demo_staked)
    empty_feeder (demo_ledger 800000).

Definition demo_snl_staked_1 : snl := after (demo_block_add hf19_reward_batching 800001 demo_snl_staked) demo_snl_staked.

Lemma key_image_index_exact_witness :
  is_key_image_locked demo_snl_staked_1 [11] = Some (0, Contribution [9] [11] 20) /\
  locked_in (m_state demo_snl_staked_1) [11] (0, Contribution [9] [11] 20) /\
  is_key_image_locked demo_snl_staked_1 [99] = None /\ forall e, ~ locked_in (m_state demo_snl_staked_1) [99] e.
Proof.
  assert (demo_history true [demo_staked] 800000 800000 [(demo_staked, Snapshot 800000 ∅ [])] demo_snl_staked) as H0.
  { apply (demo_history_start demo_snl_staked); [by repeat split|by vm_compute|reflexivity..]. }
  assert (demo_history true [m_state demo_snl_staked_1; demo_staked] 800001 800000
    [(m_state demo_snl_staked_1, snapshot_of (sql demo_snl_staked_1)); (demo_staked, Snapshot 800000 ∅ [])] demo_snl_staked_1) as H1.
  { apply (demo_history_add _ _ _ _ _ hf19_reward_batching 800001 demo_snl_staked_1 _ _ H0); [|reflexivity|..]; by vm_compute. }
  pose proof (fun i => key_image_index_exact [] MAINNET mainnet_config id map_to_list (fun _ => []) (fun _ _ _ => false) (fun _ => true)
    b_hash (fun _ => true) (fun _ => []) (fun _ _ _ => None) (fun _ _ => false) 0 true _ _ _ _ demo_snl_staked_1 i eq_refl
    (fun _ => reflexivity _) H1) as H.
  assert (is_key_image_locked demo_snl_staked_1 [11] = Some (0, Contribution [9] [11] 20)) as E by (vm_compute; reflexivity).
  assert (is_key_image_locked demo_snl_staked_1 [99] = None) as En by (vm_compute; reflexivity).
  pose proof (H [11]) as H11. pose proof (H [99]) as H12. rewrite E in H11. rewrite En in H12. split_and!; [exact E|exact H11|exact En|exact H12].
Defined.

(** ** What the history does not guarantee *)

(** The archive keeps what it has: a detach by the recent history leaves the states of the abandoned
    chain in it, and the state of the new chain at an archive height does not replace them. *)
Lemma stale_archive fk nettype conf snpk_to_xpk order cn_fast_hash m_store h chain_height s s' b e old :
  detach_both fk nettype conf snpk_to_xpk order (table_recent, h) chain_height s = (Some tt, s') ->
  state_archive s' = state_archive s /\
  forall s1, state_archive s1 !! st_height (m_state s1) = Some old ->
    archive_cull_height conf (st_height (m_state s1)) <= st_height (m_state s1) ->
    state_archive (remember conf cn_fast_hash m_store b e s1) !! st_height (m_state s1) = Some old.
Proof.
  intros E. split.
  - unfold detach_both, detach_list in E. cbn in E. destruct (state_history s !! h); [|done].
    destruct (Ledger.blockchain_detached _ _ _ _ _) as [r l]. by injection E as _ <-.
  - intros s1 Hold Hle. cbn. apply lookup_cull. split; [|done]. destruct (archived conf (m_state s1)); [|done].
    rewrite lookup_insert_stored. by rewrite Hold.
Qed.

(** An alternative block that fails its verification leaves its state, so that the same block is
    not verified when it comes again. *)
Lemma alt_block_verified_once `{U : BlockUpdater} fk nettype conf check_signature get_block_hash is_hex from_hex alt_order b e s err s' :
  (forall l, alt_order l ≡ₚ l) ->
  alt_block_add fk nettype conf check_signature get_block_hash is_hex from_hex alt_order b e s
    = Returned (alt_refused err, s') ->
  forall e', alt_block_add fk nettype conf check_signature get_block_hash is_hex from_hex alt_order b e' s'
    = Returned (alt_known, s').
Proof.
  intros Horder E e'. unfold alt_block_add in *. destruct (major_version b <? hf9_service_nodes); [done|].
  case_bool_decide as Hin; [done|]. destruct (starting_state b s) as [start|]; [|done].
  destruct (negb _); [done|]. destruct (apply_block _ _ _ _ _ _ _) as [[w r]| |]; cbn [mbind outcome_bind] in E; [|done..].
  injection E as _ <-. cbn [alt_state]. rewrite bool_decide_eq_true_2; [done|].
  rewrite Horder. cbn. by left.
Qed.

(** One recent state at the head of the unordered map keeps all older ones behind it. *)
Lemma alt_states_not_culled lo e l : lo <= st_height e.2 -> cull_alt lo (e :: l) = e :: l.
Proof. intros H. cbn. by rewrite (proj2 (Z.ltb_ge _ _)) by done. Qed.
