(* ===== verification/Checkpoints.v ===== *)
(** * Checkpoints and the choice between chains

    [checkpoints/checkpoints.cpp], the queries on stored checkpoints ([get_checkpoints_range] and
    [get_immutable_checkpoint] of [blockchain_db/]) and how [handle_alternative_block] of
    [cryptonote_core/blockchain.cpp] decides between the main chain and another one.  The table of
    checkpoints is a map by height; a cursor walks it in the order of the heights.  Failures of
    the database are left out. *)
From stdpp Require Import gmap sorting strings.
From S2P Require Import Prelude Hardfork Rules Voting Transactions.
#[local] Open Scope Z_scope.

(** ** The table *)

Abbreviation checkpoint_db := (gmap Z checkpoint_t).

(** The type is not stored: it is read off the number of signatures. *)
Definition convert_mdb_val_to_checkpoint (c : checkpoint_t) : checkpoint_t :=
  Checkpoint (if (length (cp_signatures c) =? 0)%nat then hardcoded else service_node) (cp_height c) (cp_block_hash c)
    (cp_signatures c).
Definition update_block_checkpoint (c : checkpoint_t) (db : checkpoint_db) : checkpoint_db :=
  <[cp_height c := convert_mdb_val_to_checkpoint c]> db.
Definition remove_block_checkpoint (height : Z) (db : checkpoint_db) : checkpoint_db := delete height db.

(** The order of a cursor. *)
Definition heights (db : checkpoint_db) : list Z := merge_sort Z.le (map_to_list db).*1.
Definition ascending (db : checkpoint_db) : list checkpoint_t := omap (fun h => db !! h) (heights db).
Definition get_bottom_checkpoint (db : checkpoint_db) : option checkpoint_t := head (ascending db).
Definition get_top_checkpoint (db : checkpoint_db) : option checkpoint_t := last (ascending db).

Definition GET_ALL_CHECKPOINTS : nat := 0.

(** The loop over the heights from [start] on, in one direction, before [stop]. *)
Fixpoint first_checkpoint (fuel : nat) (up : bool) (db : checkpoint_db) (height stop : Z) : option checkpoint_t :=
  match fuel with
  | O => None
  | S fuel =>
      if height =? stop then None
      else match db !! height with
           | Some c => Some c
           | None => first_checkpoint fuel up db (if up then height + 1 else height - 1) stop
           end
  end.

(** [MDB_NEXT] or [MDB_PREV] from a height on. *)
Definition cursor_from (up : bool) (height : Z) (db : checkpoint_db) : list checkpoint_t :=
  if up then filter (fun c => height < cp_height c) (ascending db)
  else reverse (filter (fun c => cp_height c < height) (ascending db)).

Definition clamp_height (x lo hi : Z) : Z := if x <? lo then lo else if hi <? x then hi else x.

Definition get_checkpoints_range (db : checkpoint_db) (start stop : Z) (num_desired_checkpoints : nat) : list checkpoint_t :=
  match get_top_checkpoint db, get_bottom_checkpoint db with
  | Some top, Some bottom =>
      let start := clamp_height start (cp_height bottom) (cp_height top) in
      let stop := clamp_height stop (cp_height bottom) (cp_height top) in
      let up := start <=? stop in
      if (if stop <? start then start <? cp_height bottom else cp_height top <? start) then []
      else
        let desired := if (num_desired_checkpoints =? GET_ALL_CHECKPOINTS)%nat then size db else num_desired_checkpoints in
        let found := match first_checkpoint (Z.to_nat (Z.abs (stop - start))) up db start stop with
                     | Some c => Some c
                     | None => db !! stop
                     end in
        match found with
        | None => []
        | Some c =>
            c :: take (desired - 1)
                   (filter (fun x => Z.min start stop <= cp_height x <= Z.max start stop) (cursor_from up (cp_height c) db))
        end
  | _, _ => []
  end.

(** The last two of a height: a hardcoded one is final, one of service nodes once another follows. *)
Definition get_immutable_checkpoint (db : checkpoint_db) (block_height : Z) : option checkpoint_t :=
  match get_checkpoints_range db block_height 0 (Z.to_nat CHECKPOINT_NUM_CHECKPOINTS_FOR_CHAIN_FINALITY) with
  | [] => None
  | c :: rest =>
      if negb (bool_decide (cp_type c = service_node)) then Some c
      else match rest with c' :: _ => Some c' | [] => None end
  end.

(** ** The container *)

Record checkpoints := Checkpoints {
  c_db : checkpoint_db;
  m_last_cull_height : Z;
  m_immutable_height : Z;
}.
Definition with_db (c : checkpoints) (db : checkpoint_db) : checkpoints :=
  Checkpoints db (m_last_cull_height c) (m_immutable_height c).

Definition get_checkpoint (height : Z) (c : checkpoints) : option checkpoint_t := c_db c !! height.

(** A process that only reads the database writes nothing. *)
Section Container.
Context (is_read_only : bool).
Context (try_load_hash : string -> option bytes).

Definition update_checkpoint (checkpoint : checkpoint_t) (c : checkpoints) : checkpoints :=
  if is_read_only then c else with_db c (update_block_checkpoint checkpoint (c_db c)).

Definition add_checkpoint (height : Z) (hash_str : string) (c : checkpoints) : bool * checkpoints :=
  match try_load_hash hash_str with
  | None => (false, c)
  | Some h =>
      match get_checkpoint height c with
      | Some existing => (bool_decide (h = cp_block_hash existing), c)
      | None => (true, update_checkpoint (Checkpoint hardcoded height h []) c)
      end
  end.

(** The culling loop: every fourth height from the last one on, except the persistent ones. *)
Fixpoint cull_loop (fuel : nat) (last end_cull_height : Z) (db : checkpoint_db) : Z * checkpoint_db :=
  match fuel with
  | O => (last, db)
  | S fuel =>
      if last <? end_cull_height then
        cull_loop fuel (last + CHECKPOINT_INTERVAL) end_cull_height
          (if last mod CHECKPOINT_STORE_PERSISTENTLY_INTERVAL =? 0 then db else remove_block_checkpoint last db)
      else (last, db)
  end.

Definition start_cull_height (end_cull_height : Z) : Z :=
  let h := if end_cull_height <? CHECKPOINT_STORE_PERSISTENTLY_INTERVAL then 0
           else end_cull_height - CHECKPOINT_STORE_PERSISTENTLY_INTERVAL in
  if 0 <? h mod CHECKPOINT_INTERVAL then h + (CHECKPOINT_INTERVAL - h mod CHECKPOINT_INTERVAL) else h.

(** The loop ends after at most this many rounds. *)
Definition cull_fuel (last end_cull_height : Z) : nat := Z.to_nat (end_cull_height - last).

Definition block_add (b : block) (checkpoint : option checkpoint_t) (c : checkpoints) : checkpoints :=
  let height := b_height b in
  if is_read_only then c
  else if (height <? CHECKPOINT_STORE_PERSISTENTLY_INTERVAL) || (major_version b <? hf12_checkpointing) then c
  else
    let end_cull_height := match get_immutable_checkpoint (c_db c) (u64 (height + 1)) with
                           | Some x => cp_height x
                           | None => 0
                           end in
    let last := Z.max (m_last_cull_height c) (start_cull_height end_cull_height) in
    let '(last, db) := cull_loop (cull_fuel last end_cull_height) last end_cull_height (c_db c) in
    let c := Checkpoints db last (m_immutable_height c) in
    match checkpoint with
    | Some x => update_checkpoint x c
    | None => c
    end.

(** From the top checkpoint down in steps of four, to the height that is detached. *)
Fixpoint detach_loop (fuel : nat) (delete_height height : Z) (db : checkpoint_db) : checkpoint_db :=
  match fuel with
  | O => db
  | S fuel =>
      if (height <=? delete_height) && (CHECKPOINT_INTERVAL <=? delete_height)
      then detach_loop fuel (delete_height - CHECKPOINT_INTERVAL) height (remove_block_checkpoint delete_height db)
      else db
  end.

Definition blockchain_detached (height : Z) (c : checkpoints) : checkpoints :=
  if is_read_only then c
  else
    let db := match get_top_checkpoint (c_db c) with
              | Some top => detach_loop (Z.to_nat (cp_height top)) (cp_height top) height (c_db c)
              | None => c_db c
              end in
    Checkpoints db (Z.min (m_last_cull_height c) height) (m_immutable_height c).

Definition is_in_checkpoint_zone (height : Z) (c : checkpoints) : bool :=
  height <=? match get_top_checkpoint (c_db c) with Some top => cp_height top | None => 0 end.

(** Whether the block fits; whether its height has a checkpoint, and one of service nodes. *)
Definition check_block (height : Z) (h : bytes) (c : checkpoints) : bool * bool * bool :=
  match get_checkpoint height c with
  | None => (true, false, false)
  | Some x => (bool_decide (cp_block_hash x = h), true, bool_decide (cp_type x = service_node))
  end.

Definition is_alternative_block_allowed (blockchain_height block_height : Z) (c : checkpoints) : bool * checkpoints :=
  if block_height =? 0 then (false, c)
  else
    match get_checkpoints_range (c_db c) 0 blockchain_height 1 with
    | [] => (true, c)
    | first :: _ =>
        if blockchain_height <? cp_height first then (true, c)
        else
          let immutable_height := match get_immutable_checkpoint (c_db c) blockchain_height with
                                  | Some x => cp_height x
                                  | None => 0
                                  end in
          let c := Checkpoints (c_db c) (m_last_cull_height c) (Z.max immutable_height (m_immutable_height c)) in
          (m_immutable_height c <? block_height, c)
    end.

Definition get_max_height (c : checkpoints) : Z :=
  match get_top_checkpoint (c_db c) with Some top => cp_height top | None => 0 end.

Definition HARDCODED_MAINNET_CHECKPOINTS : list (Z * string) :=
  [(0, "d728fbf0eb74c06349b4cd6bbca1ef11f7f35cadc0cb6828cf72d5f77b7ebed4"%string)].

(** [init] with a database: [None] when a hardcoded checkpoint can not be added. *)
Definition add_hardcoded (c : option checkpoints) (entry : Z * string) : option checkpoints :=
  c ← c;
  match get_checkpoint entry.1 c with
  | Some _ => Some c
  | None => let '(added, c) := add_checkpoint entry.1 entry.2 c in if added then Some c else None
  end.
Definition init (nettype : network_type) (db : checkpoint_db) : option checkpoints :=
  let c := Checkpoints db 0 0 in
  if is_read_only then Some c
  else if bool_decide (nettype = MAINNET) then foldl add_hardcoded (Some c) HARDCODED_MAINNET_CHECKPOINTS
  else Some c.

End Container.

(** ** Walking the table *)

(** Every checkpoint is stored at its height. *)
Definition keyed (db : checkpoint_db) : Prop := map_Forall (fun h c => cp_height c = h /\ 0 <= h) db.

Definition before (a b : checkpoint_t) : Prop := cp_height a < cp_height b.

Lemma elem_of_heights db h : h ∈ heights db <-> is_Some (db !! h).
Proof.
  unfold heights. rewrite merge_sort_Permutation, list_elem_of_fmap. split.
  - intros ([h' c] & -> & Hin%elem_of_map_to_list). by exists c.
  - intros [c Hc]. exists (h, c). split; [done|]. by apply elem_of_map_to_list.
Qed.

Lemma heights_increase db : StronglySorted Z.lt (heights db).
Proof.
  assert (StronglySorted Z.le (heights db)) as Hs by (apply StronglySorted_merge_sort; apply _).
  assert (NoDup (heights db)) as Hn.
  { unfold heights. rewrite merge_sort_Permutation. apply NoDup_fst_map_to_list. }
  induction Hs as [|h l Hs IH Hf]; [constructor|]. apply NoDup_cons in Hn as [Hh Hn]. constructor; [by apply IH|].
  rewrite Forall_forall in *. intros x Hx. specialize (Hf x Hx). assert (h <> x) by (intros ->; done). lia.
Qed.

Lemma elem_of_ascending db c : keyed db -> c ∈ ascending db <-> db !! cp_height c = Some c.
Proof.
  intros Hk. unfold ascending. rewrite list_elem_of_omap. split.
  - intros (h & _ & Hc). by destruct (Hk h c Hc) as [-> _].
  - intros Hc. exists (cp_height c). split; [|done]. apply elem_of_heights. by exists c.
Qed.

Lemma ascending_sorted db : keyed db -> StronglySorted before (ascending db).
Proof.
  intros Hk. unfold ascending. pose proof (heights_increase db) as Hs.
  induction Hs as [|h l Hs IH Hf]; cbn; [constructor|]. destruct (db !! h) as [c|] eqn:Ec; [|done]. constructor; [done|].
  apply Forall_forall. rewrite List.Forall_forall in Hf. intros x (h' & Hh' & Hx)%list_elem_of_omap. unfold before.
  destruct (Hk _ _ Ec) as [-> _], (Hk _ _ Hx) as [-> _]. apply Hf. by apply list_elem_of_In.
Qed.

Lemma filter_out_all (P : checkpoint_t -> Prop) `{forall x, Decision (P x)} (l : list checkpoint_t) : (forall x, x ∈ l -> ~ P x) -> filter P l = [].
Proof.
  intros HP. destruct (filter P l) as [|x fl] eqn:Ef; [done|]. exfalso.
  assert (x ∈ filter P l) as [Hp Hx]%list_elem_of_filter by (rewrite Ef; by left). by apply (HP x).
Qed.

Lemma filter_keep_all (P : checkpoint_t -> Prop) `{forall x, Decision (P x)} (l : list checkpoint_t) : (forall x, x ∈ l -> P x) -> filter P l = l.
Proof.
  intros HP. induction l as [|x l IH]; [done|]. rewrite filter_cons, decide_True by (apply HP; by left). f_equal.
  apply IH. intros y Hy. apply HP. by right.
Qed.

(** Splitting a sorted walk at its last element below a height. *)
Lemma filter_upto h c l :
  StronglySorted before l -> c ∈ l -> cp_height c <= h -> (forall x, x ∈ l -> cp_height x <= h -> cp_height x <= cp_height c) ->
  filter (fun x => cp_height x <= h) l = filter (fun x => cp_height x < cp_height c) l ++ [c].
Proof.
  intros Hs. induction Hs as [|d l Hs IH Hf]; intros Hc Hle Hmax; [by apply elem_of_nil in Hc|].
  rewrite !filter_cons. apply elem_of_cons in Hc as [->|Hc].
  - rewrite decide_True, decide_False by lia. rewrite Forall_forall in Hf.
    rewrite !filter_out_all; [done|..]; intros x Hx; specialize (Hf x Hx); unfold before in Hf.
    + lia.
    + intros Hxh. specialize (Hmax x ltac:(by right) Hxh). lia.
  - rewrite Forall_forall in Hf. pose proof (Hf c Hc) as Hdc. unfold before in Hdc. rewrite !decide_True by lia. cbn. f_equal.
    apply IH; [done|done|]. intros x Hx. apply Hmax. by right.
Qed.

(** The checkpoints up to a height, the newest first. *)
Definition upto (h : Z) (db : checkpoint_db) : list checkpoint_t :=
  reverse (filter (fun c => cp_height c <= h) (ascending db)).

Lemma elem_of_upto h db c : keyed db -> c ∈ upto h db <-> db !! cp_height c = Some c /\ cp_height c <= h.
Proof.
  intros Hk. unfold upto. rewrite elem_of_reverse, list_elem_of_filter, elem_of_ascending by done. tauto.
Qed.

Lemma upto_at h c db :
  keyed db -> db !! cp_height c = Some c -> cp_height c <= h ->
  (forall x, x ∈ ascending db -> cp_height x <= h -> cp_height x <= cp_height c) ->
  upto h db = c :: reverse (filter (fun x => cp_height x < cp_height c) (ascending db)).
Proof.
  intros Hk Hc Hle Hmax. unfold upto. rewrite (filter_upto h c); [|by apply ascending_sorted|by apply elem_of_ascending|done..].
  by rewrite reverse_app.
Qed.

Lemma bottom_least db b : keyed db -> get_bottom_checkpoint db = Some b ->
  db !! cp_height b = Some b /\ forall x, x ∈ ascending db -> cp_height b <= cp_height x.
Proof.
  intros Hk Hb. pose proof (ascending_sorted db Hk) as Hs. unfold get_bottom_checkpoint in Hb.
  assert (b ∈ ascending db) as Hin by by apply head_Some_elem_of. split; [by apply elem_of_ascending|].
  destruct (ascending db) as [|d l]; [done|]. injection Hb as ->. apply StronglySorted_inv in Hs as [_ Hf].
  rewrite Forall_forall in Hf. intros x [->|Hx]%elem_of_cons; [lia|]. specialize (Hf x Hx). unfold before in Hf. lia.
Qed.

Lemma top_greatest db t : keyed db -> get_top_checkpoint db = Some t ->
  db !! cp_height t = Some t /\ forall x, x ∈ ascending db -> cp_height x <= cp_height t.
Proof.
  intros Hk Ht. pose proof (ascending_sorted db Hk) as Hs. unfold get_top_checkpoint in Ht.
  apply last_Some in Ht as [l Hl]. split; [apply elem_of_ascending; [done|]; rewrite Hl; apply elem_of_app; right; by left|].
  rewrite Hl in Hs |- *. clear Hl. induction l as [|d l IH]; cbn in *.
  - intros x ->%list_elem_of_singleton. lia.
  - apply StronglySorted_inv in Hs as [Hs Hf]. rewrite Forall_forall in Hf. intros x [->|Hx]%elem_of_cons; [|by apply IH].
    specialize (Hf t ltac:(apply elem_of_app; right; by left)). unfold before in Hf. lia.
Qed.

(** Looking down finds the nearest checkpoint above [stop]. *)
Lemma first_checkpoint_down fuel db height stop :
  keyed db -> stop <= height -> (Z.to_nat (height - stop) <= fuel)%nat ->
  match first_checkpoint fuel false db height stop with
  | Some c => db !! cp_height c = Some c /\ stop < cp_height c <= height /\
      forall h, cp_height c < h <= height -> db !! h = None
  | None => forall h, stop < h <= height -> db !! h = None
  end.
Proof.
  intros Hk. revert height. induction fuel as [|fuel IH]; intros height Hle Hfuel; cbn [first_checkpoint].
  { intros h Hh. lia. }
  destruct (Z.eqb_spec height stop) as [->|Hne]; [intros h Hh; lia|].
  destruct (db !! height) as [c|] eqn:Ec.
  - destruct (Hk _ _ Ec) as [Eh _]. rewrite Eh. split_and!; [done|lia|lia|]. intros h Hh. lia.
  - specialize (IH (height - 1) ltac:(lia) ltac:(lia)). destruct (first_checkpoint _ _ _ _ _) as [c|].
    + destruct IH as (Hc & Hr & Hn). split_and!; [done|lia|lia|]. intros h Hh.
      destruct (decide (h = height)) as [->|]; [done|]. apply Hn. lia.
    + intros h Hh. destruct (decide (h = height)) as [->|]; [done|]. apply IH. lia.
Qed.

(** Going down the range is the list up to the height, if there is a checkpoint that low. *)
Lemma range_down db start n b :
  keyed db -> get_bottom_checkpoint db = Some b -> cp_height b <= start -> (0 < n)%nat ->
  get_checkpoints_range db start 0 n = take n (upto start db).
Proof.
  intros Hk Hb Hle Hn. destruct (bottom_least db b Hk Hb) as [Hbdb Hbl]. destruct (Hk _ _ Hbdb) as [_ Hb0].
  unfold get_checkpoints_range. rewrite Hb. destruct (get_top_checkpoint db) as [t|] eqn:Et.
  2: { apply last_None in Et. unfold get_bottom_checkpoint in Hb. by rewrite Et in Hb. }
  destruct (top_greatest db t Hk Et) as [Htdb Htg].
  assert (b ∈ ascending db) as Hbin by by apply elem_of_ascending. pose proof (Htg b Hbin) as Hbt.
  assert (clamp_height 0 (cp_height b) (cp_height t) = cp_height b) as ->.
  { unfold clamp_height. destruct (Z.ltb_spec 0 (cp_height b)), (Z.ltb_spec (cp_height t) 0); lia. }
  assert (clamp_height start (cp_height b) (cp_height t) = Z.min start (cp_height t)) as ->.
  { unfold clamp_height. destruct (Z.ltb_spec start (cp_height b)), (Z.ltb_spec (cp_height t) start); lia. }
  set (st := Z.min start (cp_height t)).
  assert (forall x, x ∈ ascending db -> cp_height x <= start -> cp_height x <= st) as Hst.
  { intros x Hx Hxs. specialize (Htg x Hx). lia. }
  rewrite (proj2 (Nat.eqb_neq n GET_ALL_CHECKPOINTS)) by (unfold GET_ALL_CHECKPOINTS; lia).
  destruct (Z.leb_spec st (cp_height b)) as [Hsb|Hsb].
  - assert (st = cp_height b) as -> by lia. rewrite Z.sub_diag, Z.ltb_irrefl. change (Z.to_nat (Z.abs 0)) with 0%nat.
    rewrite (proj2 (Z.ltb_ge _ _)) by done. cbn [first_checkpoint]. rewrite Hbdb.
    rewrite (upto_at start b) by (try done; intros x Hx Hxs; specialize (Hst x Hx Hxs); lia).
    rewrite (filter_out_all (fun x => cp_height x < cp_height b)) by (intros x Hx; specialize (Hbl x Hx); lia).
    rewrite filter_out_all by (intros x [Hx _]%list_elem_of_filter; lia). rewrite take_nil. by destruct n as [|[]]; [lia|..].
  - rewrite (proj2 (Z.ltb_lt _ _) Hsb), (proj2 (Z.ltb_ge _ _)) by lia.
    pose proof (first_checkpoint_down (Z.to_nat (Z.abs (cp_height b - st))) db st (cp_height b) Hk ltac:(lia) ltac:(lia)) as Hf.
    assert (exists c, match first_checkpoint (Z.to_nat (Z.abs (cp_height b - st))) false db st (cp_height b) with
      | Some c => Some c | None => db !! cp_height b end = Some c /\ db !! cp_height c = Some c /\ cp_height c <= st /\
      forall x, x ∈ ascending db -> cp_height x <= start -> cp_height x <= cp_height c) as (c & -> & Hc & Hcs & Hmax).
    { destruct (first_checkpoint _ _ _ _ _) as [c|]; [exists c|exists b].
      - destruct Hf as (Hc & Hr & Hno). split_and!; [done|done|lia|]. intros x Hx Hxs. specialize (Hst x Hx Hxs).
        destruct (Z.le_gt_cases (cp_height x) (cp_height c)) as [|Hgt]; [done|].
        apply elem_of_ascending in Hx; [|done]. rewrite Hno in Hx by lia. done.
      - split_and!; [done|done|lia|]. intros x Hx Hxs. specialize (Hst x Hx Hxs).
        destruct (Z.le_gt_cases (cp_height x) (cp_height b)) as [|Hgt]; [done|].
        apply elem_of_ascending in Hx; [|done]. rewrite Hf in Hx by lia. done. }
    rewrite (upto_at start c) by (try done; lia). destruct n as [|n]; [lia|]. cbn [take]. f_equal.
    rewrite Nat.sub_succ, Nat.sub_0_r. f_equal. cbn [cursor_from]. unfold cursor_from.
    rewrite filter_keep_all; [done|]. intros x [Hxc Hx]%elem_of_reverse%list_elem_of_filter. specialize (Hbl x Hx). lia.
Qed.

(** ** Finality *)

(** The checkpoint of the genesis block is there. *)
Definition from_genesis (db : checkpoint_db) : Prop := keyed db /\ is_Some (db !! 0).

Lemma genesis_bottom db : from_genesis db -> exists b, get_bottom_checkpoint db = Some b /\ db !! 0 = Some b /\ cp_height b = 0.
Proof.
  intros [Hk [g Hg]]. destruct (Hk _ _ Hg) as [Eg _]. assert (g ∈ ascending db) as Hin.
  { apply elem_of_ascending; [done|]. by rewrite Eg. }
  destruct (get_bottom_checkpoint db) as [b|] eqn:Eb.
  - destruct (bottom_least db b Hk Eb) as [Hb Hl]. specialize (Hl g Hin). destruct (Hk _ _ Hb) as [_ H0].
    assert (cp_height b = 0) as E by lia. rewrite E in Hb. by exists b.
  - unfold get_bottom_checkpoint in Eb. destruct (ascending db); [by apply elem_of_nil in Hin|done].
Qed.

(** The last two checkpoints up to the height decide. *)
Lemma immutable_spec db h :
  from_genesis db -> 0 <= h ->
  get_immutable_checkpoint db h =
  match upto h db with
  | c :: rest => if bool_decide (cp_type c = service_node) then head rest else Some c
  | [] => None
  end.
Proof.
  intros Hg Hh. destruct (genesis_bottom db Hg) as (b & Hb & _ & E0). destruct Hg as [Hk _].
  unfold get_immutable_checkpoint. rewrite (range_down db h _ b Hk Hb) by (lia || (vm_compute; lia)).
  change (Z.to_nat CHECKPOINT_NUM_CHECKPOINTS_FOR_CHAIN_FINALITY) with 2%nat.
  destruct (upto h db) as [|c [|c' rest]]; [done|..]; cbn [take]; by destruct (bool_decide (cp_type c = service_node)).
Qed.

Lemma upto_descends h db : keyed db -> StronglySorted (fun a b => before b a) (upto h db).
Proof.
  intros Hk. unfold upto. pose proof (ascending_sorted db Hk) as Hs.
  assert (StronglySorted before (filter (fun c => cp_height c <= h) (ascending db))) as Hf.
  { induction Hs as [|c l Hs IH Hf]; [constructor|]. rewrite filter_cons. case_decide; [|done]. constructor; [done|].
    rewrite Forall_forall in Hf. apply Forall_forall. intros x [_ Hx]%list_elem_of_filter. by apply Hf. }
  induction Hf as [|c l Hf IH Ha]; [constructor|]. rewrite reverse_cons. apply StronglySorted_app_2; [|done|by repeat constructor].
  intros x y Hx ->%list_elem_of_singleton. rewrite elem_of_reverse in Hx. rewrite Forall_forall in Ha. by apply Ha.
Qed.

(** A checkpoint under another one is final. *)
Lemma immutable_above db h a b :
  from_genesis db -> 0 <= h -> is_Some (db !! a) -> is_Some (db !! b) -> a < b <= h ->
  exists x, get_immutable_checkpoint db h = Some x /\ a <= cp_height x.
Proof.
  intros Hg Hh [ca Ha] [cb Hb] Hab. pose proof Hg as [Hk _]. rewrite immutable_spec by done.
  destruct (Hk _ _ Ha) as [Ea _], (Hk _ _ Hb) as [Eb _].
  assert (ca ∈ upto h db) as Hina by (apply elem_of_upto; [done|]; rewrite Ea; split; [done|lia]).
  assert (cb ∈ upto h db) as Hinb by (apply elem_of_upto; [done|]; rewrite Eb; split; [done|lia]).
  pose proof (upto_descends h db Hk) as Hs. destruct (upto h db) as [|c rest]; [by apply elem_of_nil in Hina|].
  apply StronglySorted_inv in Hs as [Hs Hf]. rewrite Forall_forall in Hf. unfold before in *.
  assert (cp_height cb <= cp_height c) as Hc by (apply elem_of_cons in Hinb as [->|Hx]; [lia|specialize (Hf _ Hx); lia]).
  case_bool_decide as Et; [|exists c; split; [done|lia]].
  apply elem_of_cons in Hina as [->|Hina]; [lia|]. destruct rest as [|c' rest]; [by apply elem_of_nil in Hina|].
  exists c'. split; [done|]. apply StronglySorted_inv in Hs as [_ Hf']. rewrite Forall_forall in Hf'.
  apply elem_of_cons in Hina as [->|Hx]; [lia|specialize (Hf' _ Hx); cbn in Hf'; lia].
Qed.

(** *** What the operations keep *)

Lemma genesis_update c db : from_genesis db -> 0 <= cp_height c -> from_genesis (update_block_checkpoint c db).
Proof.
  intros [Hk Hg] Hc. split.
  - apply map_Forall_insert_2; [done|done].
  - unfold update_block_checkpoint. rewrite lookup_insert. case_decide; [by eexists|done].
Qed.

Lemma genesis_remove h db : from_genesis db -> h <> 0 -> from_genesis (remove_block_checkpoint h db).
Proof.
  intros [Hk Hg] Hh. split; [by apply map_Forall_delete|]. unfold remove_block_checkpoint. by rewrite lookup_delete_ne.
Qed.

Lemma genesis_cull fuel last end_cull db : from_genesis db -> from_genesis (cull_loop fuel last end_cull db).2.
Proof.
  revert last db. induction fuel as [|fuel IH]; intros last db Hg; cbn [cull_loop]; [done|].
  destruct (last <? end_cull); [|done]. apply IH. destruct (Z.eqb_spec (last mod CHECKPOINT_STORE_PERSISTENTLY_INTERVAL) 0); [done|].
  apply genesis_remove; [done|]. by intros ->.
Qed.

Lemma genesis_detach fuel h height db : from_genesis db -> from_genesis (detach_loop fuel h height db).
Proof.
  revert h db. induction fuel as [|fuel IH]; intros h db Hg; cbn [detach_loop]; [done|].
  destruct (_ && _) eqn:E; [|done]. apply andb_prop in E as [_ Hh%Z.leb_le]. apply IH. apply genesis_remove; [done|].
  unfold CHECKPOINT_INTERVAL in Hh. lia.
Qed.

(** The first checkpoint of the chain is that of the genesis block. *)
Lemma first_is_genesis db h :
  from_genesis db -> 0 <= h -> exists b rest, get_checkpoints_range db 0 h 1 = b :: rest /\ cp_height b = 0.
Proof.
  intros Hg Hh. destruct (genesis_bottom db Hg) as (b & Hb & H0 & E0). destruct Hg as [Hk _].
  unfold get_checkpoints_range. rewrite Hb. destruct (get_top_checkpoint db) as [t|] eqn:Et.
  2: { apply last_None in Et. unfold get_bottom_checkpoint in Hb. by rewrite Et in Hb. }
  destruct (top_greatest db t Hk Et) as [Ht _]. destruct (Hk _ _ Ht) as [_ Ht0]. rewrite E0.
  assert (clamp_height 0 0 (cp_height t) = 0) as ->.
  { unfold clamp_height. cbn. destruct (Z.ltb_spec (cp_height t) 0); lia. }
  assert (0 <= clamp_height h 0 (cp_height t)) as Hc.
  { unfold clamp_height. destruct (Z.ltb_spec h 0), (Z.ltb_spec (cp_height t) h); lia. }
  set (stop := clamp_height h 0 (cp_height t)) in *. rewrite (proj2 (Z.ltb_ge stop 0)) by done.
  rewrite (proj2 (Z.ltb_ge _ _)) by done. rewrite (proj2 (Z.leb_le _ _)) by done.
  assert (match first_checkpoint (Z.to_nat (Z.abs (stop - 0))) true db 0 stop with Some c => Some c | None => db !! stop end
    = Some b) as ->; [|by eexists _, _].
  destruct (decide (stop = 0)) as [->|Hne]; [exact H0|].
  destruct (Z.to_nat (Z.abs (stop - 0))) as [|fuel] eqn:Ef; [lia|]. cbn [first_checkpoint].
  rewrite (proj2 (Z.eqb_neq 0 stop)) by lia. by rewrite H0.
Qed.

(** *** What a block and a detach leave *)

Lemma cull_lookup fuel last end_cull db h y : (cull_loop fuel last end_cull db).2 !! h = Some y -> db !! h = Some y.
Proof.
  revert last db. induction fuel as [|fuel IH]; intros last db; cbn [cull_loop]; [done|].
  destruct (last <? end_cull); [|done]. intros H%IH. unfold remove_block_checkpoint in H. destruct (_ =? _); [done|]. by apply lookup_delete_Some in H as [_ H].
Qed.

(** A block adds its own checkpoint and no other. *)
Lemma block_add_lookup b x c h y :
  c_db (block_add false b x c) !! h = Some y ->
  c_db c !! h = Some y \/ exists z, x = Some z /\ h = cp_height z /\ y = convert_mdb_val_to_checkpoint z.
Proof.
  unfold block_add. destruct (_ || _); [by left|]. destruct (cull_loop _ _ _ _) as [last db] eqn:Ec.
  assert (forall k z, db !! k = Some z -> c_db c !! k = Some z) as Hdb.
  { intros k z. change db with (last, db).2. rewrite <- Ec. apply cull_lookup. }
  destruct x as [x|]; cbn; [|by left; apply Hdb].
  unfold update_block_checkpoint. rewrite lookup_insert. case_decide as Eh; [|by left; apply Hdb].
  intros [= <-]. right. by exists x.
Qed.

Lemma genesis_block_add b x c :
  from_genesis (c_db c) -> 0 <= default 0 (cp_height <$> x) -> from_genesis (c_db (block_add false b x c)).
Proof.
  intros Hg Hx. unfold block_add. destruct (_ || _); [done|]. destruct (cull_loop _ _ _ _) as [last db] eqn:Ec.
  assert (from_genesis db) as Hdb by (change db with (last, db).2; rewrite <- Ec; by apply genesis_cull).
  destruct x as [x|]; [by apply genesis_update|done].
Qed.

Lemma block_add_immutable b x c : m_immutable_height (block_add false b x c) = m_immutable_height c.
Proof. unfold block_add. destruct (_ || _); [done|]. destruct (cull_loop _ _ _ _). by destruct x. Qed.

Lemma detach_loop_lookup fuel d height db h y : detach_loop fuel d height db !! h = Some y -> db !! h = Some y.
Proof.
  revert d db. induction fuel as [|fuel IH]; intros d db; cbn [detach_loop]; [done|].
  destruct (_ && _); [|done]. intros H%IH. unfold remove_block_checkpoint in H. by apply lookup_delete_Some in H as [_ H].
Qed.

Lemma detach_loop_clears fuel d height db h :
  (Z.to_nat d <= fuel)%nat -> height <= h <= d -> CHECKPOINT_INTERVAL <= h -> (d - h) mod CHECKPOINT_INTERVAL = 0 ->
  detach_loop fuel d height db !! h = None.
Proof.
  unfold CHECKPOINT_INTERVAL. revert d db. induction fuel as [|fuel IH]; intros d db Hf Hh Hi Hm; [lia|]. cbn [detach_loop].
  unfold CHECKPOINT_INTERVAL. rewrite (proj2 (Z.leb_le height d)), (proj2 (Z.leb_le 4 d)) by lia. cbn.
  destruct (decide (h = d)) as [->|Hne]; [|apply IH; lia].
  destruct (detach_loop _ _ _ _ !! d) as [y|] eqn:E; [|done]. apply detach_loop_lookup in E.
  unfold remove_block_checkpoint in E. by rewrite lookup_delete_eq in E.
Qed.

Lemma detached_lookup height c h y : c_db (blockchain_detached false height c) !! h = Some y -> c_db c !! h = Some y.
Proof. cbn. destruct (get_top_checkpoint (c_db c)); [apply detach_loop_lookup|done]. Qed.

Lemma genesis_detached height c : from_genesis (c_db c) -> from_genesis (c_db (blockchain_detached false height c)).
Proof. intros Hg. cbn. destruct (get_top_checkpoint (c_db c)); [by apply genesis_detach|done]. Qed.

(** With checkpoints at every fourth height only, a detach leaves none on the detached blocks. *)
Lemma detached_clears height c h :
  from_genesis (c_db c) -> map_Forall (fun k _ => k mod CHECKPOINT_INTERVAL = 0) (c_db c) -> 1 <= height <= h ->
  c_db (blockchain_detached false height c) !! h = None.
Proof.
  intros [Hk _] Ha Hh. destruct (c_db (blockchain_detached false height c) !! h) as [y|] eqn:E; [|done].
  pose proof (detached_lookup _ _ _ _ E) as Hy. pose proof (Ha _ _ Hy) as Hmod. cbn in Hmod. destruct (Hk _ _ Hy) as [Ey _].
  cbn in E. destruct (get_top_checkpoint (c_db c)) as [t|] eqn:Et.
  - destruct (top_greatest _ _ Hk Et) as [Ht Hmax]. pose proof (Ha _ _ Ht) as Htmod. cbn in Htmod. unfold CHECKPOINT_INTERVAL in *.
    assert (h <= cp_height t) by (rewrite <- Ey; apply Hmax; apply elem_of_ascending; [done|]; by rewrite Ey).
    rewrite detach_loop_clears in E; [done|lia..|unfold CHECKPOINT_INTERVAL; lia|unfold CHECKPOINT_INTERVAL].
    rewrite Zminus_mod, Hmod, Htmod. done.
  - exfalso. unfold get_top_checkpoint in Et. apply last_None in Et.
    assert (y ∈ ascending (c_db c)) as Hin by (apply elem_of_ascending; [done|]; by rewrite Ey). rewrite Et in Hin. by apply elem_of_nil in Hin.
Qed.

(** *** Runs *)

Definition immutable_height (blockchain_height : Z) (c : checkpoints) : Z :=
  default 0 (cp_height <$> get_immutable_checkpoint (c_db c) blockchain_height).

Section Finality.
Context (try_load_hash : string -> option bytes).

(** The container of a mainnet node, with the immutable heights it has seen. *)
Inductive checkpoint_run : list Z -> checkpoints -> Prop :=
| checkpoint_init db c : keyed db -> init false try_load_hash MAINNET db = Some c -> checkpoint_run [] c
| checkpoint_update seen c x :
    checkpoint_run seen c -> 0 <= cp_height x -> checkpoint_run seen (update_checkpoint false x c)
| checkpoint_added seen c h hash :
    checkpoint_run seen c -> 0 <= h -> checkpoint_run seen (add_checkpoint false try_load_hash h hash c).2
| checkpoint_block seen c b x :
    checkpoint_run seen c -> 0 <= default 0 (cp_height <$> x) -> checkpoint_run seen (block_add false b x c)
| checkpoint_detached seen c h : checkpoint_run seen c -> checkpoint_run seen (blockchain_detached false h c)
| checkpoint_asked seen c blockchain_height block_height :
    checkpoint_run seen c -> 0 <= blockchain_height -> block_height <> 0 ->
    checkpoint_run (immutable_height blockchain_height c :: seen)
      (is_alternative_block_allowed blockchain_height block_height c).2.

Lemma allowed_spec c blockchain_height block_height :
  from_genesis (c_db c) -> 0 <= blockchain_height -> block_height <> 0 ->
  is_alternative_block_allowed blockchain_height block_height c =
  let immutable := Z.max (immutable_height blockchain_height c) (m_immutable_height c) in
  (immutable <? block_height, Checkpoints (c_db c) (m_last_cull_height c) immutable).
Proof using Type.
  intros Hg Hb Hh. unfold is_alternative_block_allowed. rewrite (proj2 (Z.eqb_neq _ _)) by done.
  destruct (first_is_genesis _ _ Hg Hb) as (g & rest & -> & E0). rewrite E0, (proj2 (Z.ltb_ge _ _)) by done.
  unfold immutable_height. by destruct (get_immutable_checkpoint _ _).
Qed.

Lemma run_invariant seen c :
  checkpoint_run seen c -> from_genesis (c_db c) /\ m_immutable_height c = foldr Z.max 0 seen.
Proof using Type.
  induction 1 as [db c Hk E|seen c x _ [Hg Hm] Hx|seen c h hash _ [Hg Hm] Hh|seen c b x _ [Hg Hm] Hx|seen c h _ [Hg Hm]
    |seen c bh h _ [Hg Hm] Hbh Hh].
  - unfold init in E. rewrite bool_decide_eq_true_2 in E by done. cbn in E. unfold get_checkpoint in E. cbn in E.
    destruct (db !! 0) as [g|] eqn:Eg.
    + injection E as <-. split; [split; [done|by exists g]|done].
    + unfold add_checkpoint, get_checkpoint in E. cbn in E. destruct (try_load_hash _) as [h|]; [|done]. rewrite Eg in E.
      injection E as <-. cbn. split; [|done]. split; [by apply map_Forall_insert_2|]. by rewrite lookup_insert_eq.
  - split; [by apply genesis_update|done].
  - unfold add_checkpoint. destruct (try_load_hash hash); [|done]. destruct (get_checkpoint h c); [done|].
    split; [by apply genesis_update|done].
  - rewrite block_add_immutable. split; [by apply genesis_block_add|done].
  - split; [by apply genesis_detached|done].
  - rewrite allowed_spec by done. cbn. split; [done|]. by rewrite Hm.
Qed.
End Finality.

(** (C4) What is final stays final: over every run of a mainnet node (checkpoints added, blocks that
    cull them, detaches that remove them), an alternative block is allowed exactly if it is above
    the immutable checkpoint of the chain and above every one seen before; and a height at or
    below a checkpoint that has another one above it is never allowed. *)
Theorem finality_permanent try_load_hash seen c blockchain_height block_height :
  checkpoint_run try_load_hash seen c -> 0 <= blockchain_height -> 0 < block_height ->
  ((is_alternative_block_allowed blockchain_height block_height c).1 = true <->
     Forall (fun x => x < block_height) (immutable_height blockchain_height c :: seen)) /\
  (forall a b, is_Some (get_checkpoint a c) -> is_Some (get_checkpoint b c) -> a < b <= blockchain_height -> block_height <= a ->
     (is_alternative_block_allowed blockchain_height block_height c).1 = false).
Proof.
  intros Hrun Hbh Hh. destruct (run_invariant _ _ _ Hrun) as [Hg Hm]. rewrite allowed_spec by (done || lia). cbn. rewrite Hm. split.
  - rewrite Z.ltb_lt. assert (foldr Z.max 0 seen < block_height <-> Forall (fun x => x < block_height) seen) as Hs.
    { clear -Hh. induction seen as [|x seen IH]; cbn; [split; [constructor|done]|]. rewrite Forall_cons, <- IH. lia. }
    rewrite Forall_cons, <- Hs. lia.
  - intros a b Ha Hb Hab Hle. destruct (immutable_above _ _ a b Hg Hbh Ha Hb Hab) as (x & Ex & Hx).
    apply Z.ltb_ge. unfold immutable_height. rewrite Ex. cbn. lia.
Qed.

(** *** Culling *)

(** What the loop removes, with enough fuel. *)
Definition culled (last end_cull h : Z) : Prop :=
  last <= h < end_cull /\ (h - last) mod CHECKPOINT_INTERVAL = 0 /\ h mod CHECKPOINT_STORE_PERSISTENTLY_INTERVAL <> 0.
#[global] Instance culled_dec last end_cull h : Decision (culled last end_cull h).
Proof. unfold culled. apply _. Defined.

Lemma cull_loop_spec fuel last end_cull db :
  (Z.to_nat (end_cull - last) <= fuel)%nat ->
  let '(last', db') := cull_loop fuel last end_cull db in
  last <= last' /\ end_cull <= last' /\ (last' - last) mod CHECKPOINT_INTERVAL = 0 /\
  forall h, db' !! h = if decide (culled last end_cull h) then None else db !! h.
Proof.
  unfold CHECKPOINT_INTERVAL. revert last db. induction fuel as [|fuel IH]; intros last db Hf; cbn [cull_loop].
  { split_and!; [lia|lia|by rewrite Z.sub_diag|]. intros h. rewrite decide_False; [done|]. unfold culled. lia. }
  destruct (Z.ltb_spec last end_cull) as [Hlt|Hge].
  2: { split_and!; [lia|lia|by rewrite Z.sub_diag|]. intros h. rewrite decide_False; [done|]. unfold culled. lia. }
  unfold CHECKPOINT_INTERVAL. specialize (IH (last + 4) (if last mod CHECKPOINT_STORE_PERSISTENTLY_INTERVAL =? 0 then db
    else remove_block_checkpoint last db) ltac:(lia)).
  destruct (cull_loop _ _ _ _) as [last' db']. destruct IH as (H1 & H2 & H3 & H4). split_and!; [lia|lia|lia|].
  intros h. rewrite H4. unfold culled, CHECKPOINT_INTERVAL, CHECKPOINT_STORE_PERSISTENTLY_INTERVAL.
  destruct (decide (h = last)) as [->|Hne].
  - rewrite decide_False by lia. destruct (Z.eqb_spec (last mod 60) 0) as [E|E].
    + rewrite decide_False by lia. done.
    + rewrite decide_True by (rewrite Z.sub_diag; lia). apply lookup_delete_eq.
  - assert ((if last mod 60 =? 0 then db else remove_block_checkpoint last db) !! h = db !! h) as ->.
    { destruct (_ =? _); [done|]. by apply lookup_delete_ne. }
    destruct (decide (last + 4 <= h < end_cull /\ (h - (last + 4)) mod 4 = 0 /\ h mod 60 <> 0)) as [Hc|Hc].
    + by rewrite decide_True by lia.
    + by rewrite decide_False by lia.
Qed.

(** Once the last culled height is not a multiple of four, which a detach can make it, the checkpoints
    of service nodes are not culled any more. *)
Lemma misaligned_cull fuel last end_cull db h :
  (Z.to_nat (end_cull - last) <= fuel)%nat -> last mod CHECKPOINT_INTERVAL <> 0 -> h mod CHECKPOINT_INTERVAL = 0 ->
  (cull_loop fuel last end_cull db).2 !! h = db !! h /\ (cull_loop fuel last end_cull db).1 mod CHECKPOINT_INTERVAL <> 0.
Proof.
  intros Hf Hl Hh. pose proof (cull_loop_spec fuel last end_cull db Hf) as Hs. destruct (cull_loop _ _ _ _) as [last' db'].
  destruct Hs as (_ & _ & Hm & Hs). cbn. unfold CHECKPOINT_INTERVAL in *. split; [|lia].
  rewrite Hs, decide_False; [done|]. unfold culled, CHECKPOINT_INTERVAL. lia.
Qed.

(** A detach removes every fourth checkpoint below the top one: with a hardcoded one on top, those
    of service nodes stay. *)
Lemma detach_misses_checkpoint :
  let sn h := Checkpoint service_node h [h] [QuorumSignature 0 []] in
  let db := update_block_checkpoint (Checkpoint hardcoded 13 [13] []) (update_block_checkpoint (sn 12) (update_block_checkpoint (sn 8) ∅)) in
  get_checkpoint 12 (blockchain_detached false 10 (Checkpoints db 0 0)) = Some (sn 12).
Proof. by vm_compute. Qed.

(** A range whose heights are all below the first checkpoint still returns that one. *)
Lemma range_below_first :
  let c := Checkpoint hardcoded 100 [1] [] in
  get_immutable_checkpoint (update_block_checkpoint c ∅) 50 = Some c.
Proof. by vm_compute. Qed.

(** *** Witness: checkpoints at 64 and 68 make 64 final, also after both are detached. *)

Definition demo_sn_checkpoint (h : Z) : checkpoint_t := Checkpoint service_node h [h] [QuorumSignature 0 []].
Definition demo_load (s : string) : option bytes := Some [7].
Definition demo_genesis : checkpoints := Checkpoints (update_block_checkpoint (Checkpoint hardcoded 0 [7] []) ∅) 0 0.
Definition demo_two : checkpoints :=
  update_checkpoint false (demo_sn_checkpoint 68) (update_checkpoint false (demo_sn_checkpoint 64) demo_genesis).
Definition demo_detached : checkpoints :=
  blockchain_detached false 60 (is_alternative_block_allowed 70 65 demo_two).2.

Lemma finality_permanent_witness :
  (is_alternative_block_allowed 70 65 demo_two).1 = true /\ (is_alternative_block_allowed 60 64 demo_detached).1 = false.
Proof.
  assert (checkpoint_run demo_load [] demo_two) as H2.
  { apply checkpoint_update; [|done]. apply checkpoint_update; [|done].
    apply (checkpoint_init demo_load ∅); [apply map_Forall_empty|by vm_compute]. }
  assert (checkpoint_run demo_load [64] demo_detached) as H3.
  { apply checkpoint_detached. change [64] with [immutable_height 70 demo_two]. by apply checkpoint_asked. }
  split.
  - apply (finality_permanent demo_load [] demo_two 70 65 H2); [done|done|]. vm_compute. by repeat constructor.
  - destruct (finality_permanent demo_load [64] demo_detached 60 64 H3) as [Hiff _]; [done|done|].
    destruct (is_alternative_block_allowed 60 64 demo_detached).1; [|done]. destruct Hiff as [Hf _]. specialize (Hf eq_refl).
    apply Forall_cons in Hf as [_ Hf]. apply Forall_cons in Hf as [Hf _]. lia.
Defined.

(** A checkpoint that a peer sends with a block and calls hardcoded needs no signature: it verifies
    for every quorum, is stored with the block whatever hash it names, and is final at once. *)
Lemma unsigned_checkpoint_final :
  (forall check_signature v h hash q, verify_checkpoint check_signature v (Checkpoint hardcoded h hash []) q = true) /\
  let forged := Checkpoint hardcoded 68 [9] [] in
  let c := block_add false (plain_block hf22_sn_policy 68 0) (Some forged) demo_two in
  get_checkpoint 68 c = Some forged /\ get_immutable_checkpoint (c_db c) 69 = Some forged /\
  (is_alternative_block_allowed 69 68 c).1 = false.
Proof. split; [done|]. by vm_compute. Qed.

(** ** Which chain wins *)

Definition PULSE_BASE_WEIGHT : Z := 144403552893600.
Definition MIN_WEIGHT_INCREMENT : Z := 1.

(** The loop over a chain, in 64 bits. *)
Definition add_weight (weight : Z) (b : block) : Z :=
  let weight := u64 (weight + MIN_WEIGHT_INCREMENT) in
  if has_pulse b then u64 (weight + PULSE_BASE_WEIGHT / (1 + pulse_round (b_pulse b))) else weight.
Definition chain_weight (bs : list block) : Z := foldl add_weight 0 bs.

(** Whether [handle_alternative_block] switches: with the checkpoints on either chain, their blocks
    from the fork on, and their difficulties. *)
Definition alt_chain_wins (v : hf) (num_checkpoints_on_alt_chain num_checkpoints_on_chain : Z)
    (alt_chain blocks : list block) (alt_difficulty main_difficulty : Z) : bool :=
  let more_checkpoints := num_checkpoints_on_chain <? num_checkpoints_on_alt_chain in
  let equal_checkpoints := num_checkpoints_on_alt_chain =? num_checkpoints_on_chain in
  if hf16_pulse <=? v then
    more_checkpoints || (equal_checkpoints && (chain_weight blocks <? chain_weight alt_chain))
  else
    let greater_pow := main_difficulty <? alt_difficulty in
    if hf13_enforce_checkpoints <=? v then more_checkpoints || (greater_pow && equal_checkpoints)
    else greater_pow.

(** The weight of a block: a pulse block counts by its round, and every block a little. *)
Definition weight_of (b : block) : Z :=
  MIN_WEIGHT_INCREMENT + (if has_pulse b then PULSE_BASE_WEIGHT / (1 + pulse_round (b_pulse b)) else 0).
Definition total_weight (bs : list block) : Z := foldr (fun b sum => weight_of b + sum) 0 bs.

Definition rounds_ok (bs : list block) : Prop := Forall (fun b => 0 <= pulse_round (b_pulse b)) bs.
(** Chains this long can not overflow the sum. *)
Definition MAX_CHAIN : Z := UINT64_MAX / (PULSE_BASE_WEIGHT + MIN_WEIGHT_INCREMENT).

Lemma weight_of_bounds b : 0 <= pulse_round (b_pulse b) -> 1 <= weight_of b <= PULSE_BASE_WEIGHT + 1.
Proof.
  intros Hr. unfold weight_of, MIN_WEIGHT_INCREMENT. destruct (has_pulse b); [|unfold PULSE_BASE_WEIGHT; lia].
  assert (0 <= PULSE_BASE_WEIGHT / (1 + pulse_round (b_pulse b)) <= PULSE_BASE_WEIGHT); [|lia]. split.
  - apply Z.div_pos; unfold PULSE_BASE_WEIGHT; lia.
  - apply Z.div_le_upper_bound; unfold PULSE_BASE_WEIGHT; nia.
Qed.

Lemma total_weight_bounds bs :
  rounds_ok bs -> Z.of_nat (length bs) <= total_weight bs <= Z.of_nat (length bs) * (PULSE_BASE_WEIGHT + 1).
Proof.
  induction 1 as [|b bs Hb _ IH]; cbn [total_weight foldr length]; [lia|].
  pose proof (weight_of_bounds b Hb). fold (total_weight bs). rewrite Nat2Z.inj_succ. unfold PULSE_BASE_WEIGHT in *. lia.
Qed.

Lemma chain_weight_exact bs :
  rounds_ok bs -> Z.of_nat (length bs) <= MAX_CHAIN -> chain_weight bs = total_weight bs.
Proof.
  intros Hr Hlen. pose proof (total_weight_bounds bs Hr) as Hb.
  assert (total_weight bs < 2 ^ 64) as Hlt.
  { change MAX_CHAIN with 127744 in Hlen. unfold PULSE_BASE_WEIGHT in Hb. lia. }
  clear Hb Hlen. unfold chain_weight.
  assert (forall acc, 0 <= acc -> acc + total_weight bs < 2 ^ 64 -> foldl add_weight acc bs = acc + total_weight bs) as H.
  { clear Hlt. induction Hr as [|b bs Hb Hr IH]; intros acc Ha Hlt; cbn [foldl total_weight foldr] in *; [lia|].
    fold (total_weight bs) in *. pose proof (total_weight_bounds bs Hr) as Ht. pose proof (weight_of_bounds b Hb) as Hw.
    assert (add_weight acc b = acc + weight_of b) as ->; [|rewrite IH; lia].
    unfold add_weight, weight_of, MIN_WEIGHT_INCREMENT in *. destruct (has_pulse b).
    - pose proof (Z.div_pos PULSE_BASE_WEIGHT (1 + pulse_round (b_pulse b)) ltac:(done) ltac:(lia)).
      rewrite (u64_small (acc + 1)), u64_small by (unfold is_u64; lia). lia.
    - rewrite u64_small by (unfold is_u64; lia). lia. }
  rewrite H by lia. lia.
Qed.

(** (C17) The choice between chains is a strict preference: from pulse on, and for chains of up to
    127744 blocks, the other chain wins exactly if it has more checkpoints, or as many and a
    greater total weight; so it does not win against itself, two chains never win against each
    other, and of chains of first-round pulse blocks the longer one wins. *)
Theorem chain_choice v cp_alt cp_main alt main d_alt d_main :
  hf16_pulse <= v -> rounds_ok alt -> rounds_ok main ->
  Z.of_nat (length alt) <= MAX_CHAIN -> Z.of_nat (length main) <= MAX_CHAIN ->
  (alt_chain_wins v cp_alt cp_main alt main d_alt d_main = true <->
     cp_main < cp_alt \/ cp_main = cp_alt /\ total_weight main < total_weight alt) /\
  (alt_chain_wins v cp_alt cp_main alt main d_alt d_main = true ->
     alt_chain_wins v cp_main cp_alt main alt d_main d_alt = false) /\
  (cp_main = cp_alt -> Forall (fun b => has_pulse b = true /\ pulse_round (b_pulse b) = 0) (alt ++ main) ->
     alt_chain_wins v cp_alt cp_main alt main d_alt d_main = true <-> (length main < length alt)%nat).
Proof.
  intros Hv Ha Hm Hla Hlm. unfold alt_chain_wins. rewrite (proj2 (Z.leb_le _ _) Hv), !chain_weight_exact by done.
  assert (forall a m wa wm, (m <? a) || ((a =? m) && (wm <? wa)) = true <-> m < a \/ m = a /\ wm < wa) as Hdec.
  { intros a m wa wm. rewrite orb_true_iff, andb_true_iff, !Z.ltb_lt, Z.eqb_eq. lia. }
  split_and!.
  - apply Hdec.
  - rewrite Hdec. intros H. apply not_true_iff_false. rewrite Hdec. lia.
  - intros -> Hall. rewrite Hdec. apply Forall_app in Hall as [H1 H2].
    assert (forall bs, Forall (fun b => has_pulse b = true /\ pulse_round (b_pulse b) = 0) bs ->
      total_weight bs = Z.of_nat (length bs) * (PULSE_BASE_WEIGHT + 1)) as Hw.
    { induction 1 as [|b bs [Hp Hr] _ IH]; cbn [total_weight foldr length]; [lia|]. fold (total_weight bs). rewrite IH.
      unfold weight_of, MIN_WEIGHT_INCREMENT. rewrite Hp, Hr, Z.div_1_r. lia. }
    rewrite !Hw by done. unfold PULSE_BASE_WEIGHT. lia.
Qed.

Definition demo_pulse_block (round : Z) : block :=
  Block hf16_pulse 10 0 [] [] 0 (PulseHeader (replicate 16 1) round 2047) [] [] [] 0 0.

Lemma chain_choice_witness :
  alt_chain_wins hf16_pulse 1 1 [demo_pulse_block 0] (replicate 100 (plain_block hf16_pulse 10 0)) 0 5 = true /\
  alt_chain_wins hf16_pulse 1 1 (replicate 100 (plain_block hf16_pulse 10 0)) [demo_pulse_block 0] 5 0 = false.
Proof.
  destruct (chain_choice hf16_pulse 1 1 [demo_pulse_block 0] (replicate 100 (plain_block hf16_pulse 10 0)) 0 5)
    as (Hiff & Hasym & _).
  - done.
  - by repeat constructor.
  - apply Forall_replicate. done.
  - by vm_compute.
  - by vm_compute.
  - assert (alt_chain_wins hf16_pulse 1 1 [demo_pulse_block 0] (replicate 100 (plain_block hf16_pulse 10 0)) 0 5 = true) as E.
    { apply Hiff. right. split; [done|]. by vm_compute. }
    split; [exact E|exact (Hasym E)].
Defined.
