(* ===== verification/Reorg.v ===== *)
(** * Chain switching

    How [cryptonote_core/blockchain.cpp] takes blocks: [add_new_block] with
    [handle_block_to_main_chain], [basic_block_checks] and [handle_alternative_block], which builds
    the other chain ([build_alt_chain]), compares it with the main chain and switches to it
    ([switch_to_alternative_blockchain], [rollback_blockchain_switching]).  The checkpoints are
    those of [Checkpoints].  What is outside of this file is the class
    [Subsystems]: the state of the parts that are told of blocks (transaction pool, service node
    list, reward ledger, name system, quorum cop) and what they do and say, on which nothing is
    assumed: their verdict on a block, its checkpoint, its work, transactions and rewards may
    depend on the chain and on all of their state, and they may refuse any block. *)
From stdpp Require Import gmap sorting strings.
From S2P Require Import Prelude Hardfork Config Rules Voting Transactions Checkpoints.
#[local] Open Scope Z_scope.

Definition BLOCKCHAIN_TIMESTAMP_CHECK_WINDOW : nat := 11.
Definition BLOCK_FUTURE_TIME_LIMIT_V2 : Z := 60 * 10.

(** ** State *)

(** A block of the main chain, and one of another chain; of the stored data the weight and the
    coins, which nothing here reads, are left out. *)
Record entry := Entry {
  e_block : block;
  e_cumulative_difficulty : Z;
}.
Record alt_block_data := AltBlock {
  ad_block : block;
  ad_height : Z;
  ad_cumulative_difficulty : Z;
  ad_checkpoint : option checkpoint_t;
}.

(** What the checks of work, transactions and rewards say: refused, marking the block as invalid or
    not, or accepted with the difficulty of the block. *)
Inductive contents :=
| ContentsRefused (mark : bool)
| ContentsAccepted (difficulty : Z).

(** What the subsystems do with blocks: they judge the contents of one for the top of the chain (the
    transactions are taken out of the pool) and, for another chain, its difficulty and work; they
    take a block with its checkpoint (or refuse it by an exception), return its transactions to
    the pool when it is popped, follow a detach (and then load what is missing), and look at a
    block of another chain. *)
Class Subsystems (S : Type) := {
  sub_contents : list entry -> block -> S -> contents * S;
  sub_work : list entry -> list alt_block_data -> block -> S -> option Z;
  sub_add : block -> option checkpoint_t -> S -> bool * S;
  sub_pop : block -> S -> S;
  sub_detach : bool -> list block -> S -> S;
  sub_alt : block -> option checkpoint_t -> S -> bool * S;
}.

Record blockchain (Sub : Type) := Blockchain {
  m_blocks : list entry;
  m_alt_blocks : gmap bytes alt_block_data;
  m_invalid_blocks : gset bytes;
  m_checkpoints : checkpoints;
  m_subsystems : Sub;
}.
Arguments Blockchain {Sub} _ _ _ _ _.
Arguments m_blocks {Sub} _.
Arguments m_alt_blocks {Sub} _.
Arguments m_invalid_blocks {Sub} _.
Arguments m_checkpoints {Sub} _.
Arguments m_subsystems {Sub} _.

Record block_verification_context := Bvc {
  m_added_to_main_chain : bool;
  m_verifivation_failed : bool;
  m_marked_as_orphaned : bool;
  m_already_exists : bool;
}.
Definition no_verdict : block_verification_context := Bvc false false false false.
Definition added : block_verification_context := Bvc true false false false.
Definition failed : block_verification_context := Bvc false true false false.
Definition orphaned : block_verification_context := Bvc false false true false.
Definition already_exists : block_verification_context := Bvc false false false true.

(** A call returns a result and the flags, or an exception leaves it. *)
Inductive outcome :=
| Threw
| Returned (result : bool) (bvc : block_verification_context).

(** ** Reading the chain *)

Definition blocks_of (es : list entry) : list block := e_block <$> es.
Definition hashes (es : list entry) : list bytes := (fun e => b_hash (e_block e)) <$> es.
Definition chain_height (es : list entry) : Z := Z.of_nat (length es).
Definition null_hash : bytes := replicate 32 0.
Definition top_hash (es : list entry) : bytes := default null_hash (last (hashes es)).
Definition position_of (id : bytes) (es : list entry) : option nat :=
  fst <$> list_find (fun h => h = id) (hashes es).
Definition timestamp_at (es : list entry) (h : nat) : Z := default 0 (b_timestamp ∘ e_block <$> es !! h).
Definition difficulty_at (es : list entry) (h : nat) : Z := default 0 (e_cumulative_difficulty <$> es !! h).

(** [tools::median]. *)
Definition median (l : list Z) : Z :=
  let sorted := merge_sort Z.le l in
  let mid := ((length l - 1) / 2)%nat in
  match length l with
  | O => 0
  | S _ =>
      if Nat.odd (length l) then default 0 (sorted !! mid)
      else u64 (default 0 (sorted !! mid) + default 0 (sorted !! S mid)) / 2
  end.

(** The timestamps of the main chain that complete those of another chain, from the newest down. *)
Definition complete_timestamps_vector (start_top_height : nat) (timestamps : list Z) (es : list entry) : list Z :=
  if (BLOCKCHAIN_TIMESTAMP_CHECK_WINDOW <=? length timestamps)%nat then timestamps
  else if (length es <=? start_top_height)%nat then timestamps
  else
    let need_elements := (BLOCKCHAIN_TIMESTAMP_CHECK_WINDOW - length timestamps)%nat in
    let stop_offset := (start_top_height - need_elements)%nat in
    timestamps ++ (timestamp_at es <$> reverse (seq (S stop_offset) (start_top_height - stop_offset))).

Section Blockchain.
Context {Sub : Type} `{!Subsystems Sub}.
Context (fakechain_hard_forks : list hard_fork) (nettype : network_type) (conf : network_config) (m_max_sync_height : Z).
Context (minor_version : block -> Z).
Context (prevalidate_block_rewards : block -> Z -> hf -> bool).

Definition with_blocks (bc : blockchain Sub) (es : list entry) : blockchain Sub :=
  Blockchain es (m_alt_blocks bc) (m_invalid_blocks bc) (m_checkpoints bc) (m_subsystems bc).
Definition with_alts (bc : blockchain Sub) (alts : gmap bytes alt_block_data) : blockchain Sub :=
  Blockchain (m_blocks bc) alts (m_invalid_blocks bc) (m_checkpoints bc) (m_subsystems bc).
Definition with_checkpoints (bc : blockchain Sub) (c : checkpoints) : blockchain Sub :=
  Blockchain (m_blocks bc) (m_alt_blocks bc) (m_invalid_blocks bc) c (m_subsystems bc).
Definition with_subsystems (bc : blockchain Sub) (s : Sub) : blockchain Sub :=
  Blockchain (m_blocks bc) (m_alt_blocks bc) (m_invalid_blocks bc) (m_checkpoints bc) s.

Definition add_block_as_invalid (id : bytes) (bc : blockchain Sub) : blockchain Sub :=
  Blockchain (m_blocks bc) (m_alt_blocks bc) ({[id]} ∪ m_invalid_blocks bc) (m_checkpoints bc) (m_subsystems bc).
(** [None] is the exception when the block is not there. *)
Definition remove_alt_block (id : bytes) (bc : blockchain Sub) : option (blockchain Sub) :=
  if bool_decide (is_Some (m_alt_blocks bc !! id)) then Some (with_alts bc (delete id (m_alt_blocks bc))) else None.
(** A loop over several; the flag is false when an exception ended it. *)
Fixpoint remove_alt_blocks (ids : list bytes) (bc : blockchain Sub) : bool * blockchain Sub :=
  match ids with
  | [] => (true, bc)
  | id :: rest =>
      match remove_alt_block id bc with
      | Some bc => remove_alt_blocks rest bc
      | None => (false, bc)
      end
  end.
Definition height (bc : blockchain Sub) : Z := chain_height (m_blocks bc).
Definition block_exists (id : bytes) (bc : blockchain Sub) : bool := bool_decide (id ∈ hashes (m_blocks bc)).
Definition have_block (id : bytes) (bc : blockchain Sub) : bool :=
  block_exists id bc || bool_decide (is_Some (m_alt_blocks bc !! id)) || bool_decide (id ∈ m_invalid_blocks bc).

(** ** Checks of one block *)

(** At a time of the clock, for a block of the main chain. *)
Definition check_block_timestamp (now : Z) (es : list entry) (b : block) : bool :=
  if now + BLOCK_FUTURE_TIME_LIMIT_V2 <? b_timestamp b then false
  else if (length es <? BLOCKCHAIN_TIMESTAMP_CHECK_WINDOW)%nat then true
  else
    let recent := drop (length es - BLOCKCHAIN_TIMESTAMP_CHECK_WINDOW) (b_timestamp <$> blocks_of es) in
    negb (b_timestamp b <? median recent).

(** A fallback block is not dated more than two rounds ahead. *)
Definition dated_ahead (now : Z) (b : block) : bool :=
  let '(blk_ver, blk_rev) := get_network_version_revision fakechain_hard_forks nettype (b_height b) in
  negb (bool_decide (nettype = FAKECHAIN)) && negb (has_pulse b) && pulse_recovery blk_ver blk_rev &&
  (now + 2 * PULSE_ROUND_TIMEOUT conf <? b_timestamp b).

Definition past_max_sync (b : block) : bool := negb (m_max_sync_height =? 0) && (m_max_sync_height <=? b_height b).
Definition wrong_version (b : block) (required : hf) : bool :=
  negb (major_version b =? required) || ((required <? hf19_reward_batching) && (minor_version b <? required)).
Definition wrong_eth_count (b : block) : bool :=
  (feature_ETH_BLS <=? major_version b) && (Z.of_nat (length (tx_hashes b)) <? tx_eth_count b).

(** In the zone of checkpoints a block must fit the checkpoint at its height. *)
Definition fits_checkpoint (b : block) (h : Z) (c : checkpoints) : bool :=
  if is_in_checkpoint_zone h c then
    let '(fits, _, service_node_checkpoint) := check_block h (b_hash b) c in
    fits || (service_node_checkpoint && (major_version b <? hf13_enforce_checkpoints))
  else true.

(** [basic_block_checks], for the top of the main chain. *)
Definition basic_block_checks (now : Z) (b : block) (bc : blockchain Sub) : bool :=
  let es := m_blocks bc in
  if past_max_sync b then false
  else if negb (bool_decide (b_prev_id b = top_hash es)) then false
  else if wrong_version b (get_network_version fakechain_hard_forks nettype (height bc)) then false
  else if negb (fits_checkpoint b (height bc) (m_checkpoints bc)) then false
  else if negb (check_block_timestamp now es b) then false
  else if wrong_eth_count b then false
  else if dated_ahead now b then false
  else prevalidate_block_rewards b (height bc) (get_network_version fakechain_hard_forks nettype (height bc)).

(** [basic_block_checks], for another chain: it asks the checkpoints, which remember. *)
Definition basic_alt_checks (now : Z) (b : block) (bc : blockchain Sub) : bool * blockchain Sub :=
  if past_max_sync b then (false, bc)
  else if b_height b =? 0 then (false, bc)
  else
    let '(allowed, c) := is_alternative_block_allowed (height bc) (b_height b) (m_checkpoints bc) in
    let bc := with_checkpoints bc c in
    if negb allowed then (false, bc)
    else if wrong_version b (get_network_version fakechain_hard_forks nettype (b_height b)) then (false, bc)
    else if wrong_eth_count b then (false, bc)
    else if dated_ahead now b then (false, bc)
    else (prevalidate_block_rewards b (b_height b) (get_network_version fakechain_hard_forks nettype (height bc)), bc).

(** ** The main chain *)

(** Not the genesis block: popping that throws. *)
Definition pop_block_from_db (bc : blockchain Sub) : option (block * blockchain Sub) :=
  match last (m_blocks bc) with
  | Some e =>
      if (1 <? length (m_blocks bc))%nat then
        Some (e_block e,
              with_subsystems (with_blocks bc (take (length (m_blocks bc) - 1) (m_blocks bc)))
                (sub_pop (e_block e) (m_subsystems bc)))
      else None
  | None => None
  end.

Definition exec_detach_hooks (load_missing_blocks : bool) (bc : blockchain Sub) : blockchain Sub :=
  Blockchain (m_blocks bc) (m_alt_blocks bc) (m_invalid_blocks bc)
    (blockchain_detached false (height bc) (m_checkpoints bc))
    (sub_detach load_missing_blocks (blocks_of (m_blocks bc)) (m_subsystems bc)).

(** The block as it is stored. *)
Definition next_entry (es : list entry) (b : block) (difficulty : Z) : entry :=
  Entry b (if (0 <? length es)%nat then u64 (difficulty + difficulty_at es (length es - 1)) else difficulty).

(** A block the subsystems refuse is popped again, and they are told. *)
Definition abort_block (bc : blockchain Sub) : blockchain Sub :=
  match pop_block_from_db bc with
  | Some (_, bc) => exec_detach_hooks false bc
  | None => bc
  end.

Definition handle_block_to_main_chain (now : Z) (b : block) (checkpoint : option checkpoint_t) (bc : blockchain Sub)
    : bool * blockchain Sub :=
  if negb (basic_block_checks now b bc) then (false, bc)
  else
    let '(verdict, s) := sub_contents (m_blocks bc) b (m_subsystems bc) in
    let bc := with_subsystems bc s in
    match verdict with
    | ContentsRefused mark => (false, if mark then add_block_as_invalid (b_hash b) bc else bc)
    | ContentsAccepted difficulty =>
        let stored := with_blocks bc (m_blocks bc ++ [next_entry (m_blocks bc) b difficulty]) in
        let '(ok, s) := sub_add b checkpoint (m_subsystems bc) in
        let stored := with_subsystems stored s in
        if ok then (true, with_checkpoints stored (block_add false b checkpoint (m_checkpoints bc)))
        else (false, abort_block stored)
    end.

(** ** Switching *)

Definition block_and_checkpoint : Type := block * option checkpoint_t.

(** Popping blocks down to a condition; the popped ones, oldest first. *)
Fixpoint pop_until (fuel : nat) (stop : list entry -> bool) (bc : blockchain Sub) (popped : list block_and_checkpoint)
    : blockchain Sub * list block_and_checkpoint :=
  match fuel with
  | O => (bc, popped)
  | Datatypes.S fuel =>
      if stop (m_blocks bc) then (bc, popped)
      else match pop_block_from_db bc with
           | None => (bc, popped)
           | Some (b, bc) => pop_until fuel stop bc ((b, get_checkpoint (b_height b) (m_checkpoints bc)) :: popped)
           end
  end.

(** Adding blocks until one is refused, which is the first of the rest. *)
Fixpoint connect (now : Z) (chain : list block_and_checkpoint) (bc : blockchain Sub)
    : list block_and_checkpoint * blockchain Sub :=
  match chain with
  | [] => ([], bc)
  | (b, checkpoint) :: rest =>
      let '(ok, bc) := handle_block_to_main_chain now b checkpoint bc in
      if ok then connect now rest bc else (chain, bc)
  end.

Definition rollback_blockchain_switching (now : Z) (original_chain : list block_and_checkpoint) (rollback_height : nat)
    (bc : blockchain Sub) : bool * blockchain Sub :=
  if (length (m_blocks bc) <? rollback_height)%nat then (true, bc)
  else
    let '(bc, _) := pop_until (length (m_blocks bc)) (fun es => bool_decide (length es = rollback_height)) bc [] in
    let bc := exec_detach_hooks true bc in
    let '(rest, bc) := connect now original_chain bc in
    (bool_decide (rest = []), bc).

(** Making room for blinks that conflict with mined transactions; the protocol handler goes back no
    further than to the block that the checkpoints show as final. *)
Definition blink_rollback (now : Z) (rollback_height : nat) (bc : blockchain Sub) : bool * blockchain Sub :=
  rollback_blockchain_switching now [] rollback_height bc.
Definition rollback_for_blinks (now blink_rollback_height : Z) (bc : blockchain Sub) : blockchain Sub :=
  if 0 <? blink_rollback_height then
    let immutable := immutable_height (height bc) (m_checkpoints bc) in
    let blink_rollback_height := if blink_rollback_height <=? immutable then immutable + 1 else blink_rollback_height in
    if blink_rollback_height <? height bc then (blink_rollback now (Z.to_nat blink_rollback_height) bc).2 else bc
  else bc.

Definition entry_of_alt (a : alt_block_data) : block_and_checkpoint := (ad_block a, ad_checkpoint a).

(** The blocks after a refused one become invalid as well; the source removes the hash of the
    refused one, for each of them, from the alternative blocks. *)
Fixpoint orphan_rest (refused : block) (rest : list block_and_checkpoint) (bc : blockchain Sub) : bool * blockchain Sub :=
  match rest with
  | [] => (true, bc)
  | x :: rest =>
      let bc := add_block_as_invalid (b_hash x.1) bc in
      match remove_alt_block (b_hash refused) bc with
      | Some bc => orphan_rest refused rest bc
      | None => (false, bc)
      end
  end.

(** Keeping the blocks of the old chain, until [push_alt] throws. *)
Fixpoint push_disconnected (push_alt : block_and_checkpoint -> blockchain Sub -> bool * blockchain Sub)
    (disconnected_chain : list block_and_checkpoint) (bc : blockchain Sub) : bool * blockchain Sub :=
  match disconnected_chain with
  | [] => (true, bc)
  | x :: rest =>
      let '(ok, bc) := push_alt x bc in
      if ok then push_disconnected push_alt rest bc else (false, bc)
  end.

(** The ends of a switch, [None] for an exception: the old chain is kept if wanted and the new one is
    no longer an alternative; or, after the rollback, the refused block and those behind it are
    dropped. *)
Definition finish_switch (push_alt : block_and_checkpoint -> blockchain Sub -> bool * blockchain Sub) (keep_disconnected_chain : bool)
    (disconnected_chain : list block_and_checkpoint) (alt_chain : list alt_block_data) (bc : blockchain Sub)
    : option bool * blockchain Sub :=
  let '(ok, bc) := if keep_disconnected_chain then push_disconnected push_alt disconnected_chain bc else (true, bc) in
  if negb ok then (None, bc)
  else
    let '(ok, bc) := remove_alt_blocks ((fun a => b_hash (ad_block a)) <$> alt_chain) bc in
    (if ok then Some true else None, bc).
Definition refuse_switch (refused : block) (rest : list block_and_checkpoint) (bc : blockchain Sub)
    : option bool * blockchain Sub :=
  let bc := add_block_as_invalid (b_hash refused) bc in
  match remove_alt_block (b_hash refused) bc with
  | None => (None, bc)
  | Some bc =>
      let '(ok, bc) := orphan_rest refused rest bc in
      (if ok then Some false else None, bc)
  end.

(** [push_alt] keeps a block of the old chain as an alternative one. *)
Definition switch_to_alternative_blockchain (push_alt : block_and_checkpoint -> blockchain Sub -> bool * blockchain Sub)
    (now : Z) (alt_chain : list alt_block_data) (keep_disconnected_chain : bool) (bc : blockchain Sub)
    : option bool * blockchain Sub :=
  match alt_chain with
  | [] => (Some false, bc)
  | front :: _ =>
      let prev_id := b_prev_id (ad_block front) in
      if negb (block_exists prev_id bc) then (Some false, bc)
      else
        let '(bc, disconnected_chain) :=
          pop_until (length (m_blocks bc)) (fun es => bool_decide (top_hash es = prev_id)) bc [] in
        let split_height := length (m_blocks bc) in
        let bc := exec_detach_hooks true bc in
        match connect now (entry_of_alt <$> alt_chain) bc with
        | ([], bc) => finish_switch push_alt keep_disconnected_chain disconnected_chain alt_chain bc
        | ((refused, _) :: rest, bc) =>
            let '(_, bc) := rollback_blockchain_switching now disconnected_chain split_height bc in
            refuse_switch refused rest bc
        end
  end.

(** ** Alternative blocks *)

(** The walk from a block down to the main chain, newest first. *)
Fixpoint walk_alt (fuel : nat) (id : bytes) (alts : gmap bytes alt_block_data) : list alt_block_data :=
  match fuel with
  | O => []
  | Datatypes.S fuel =>
      match alts !! id with
      | Some a => a :: walk_alt fuel (b_prev_id (ad_block a)) alts
      | None => []
      end
  end.

(** The checkpoint of a block on the walk: the one stored with it, or one at its height that fits. *)
Definition resolve_checkpoint (c : checkpoints) (a : alt_block_data) : alt_block_data :=
  let '(fits, is_checkpointed, _) := check_block (ad_height a) (b_hash (ad_block a)) c in
  match ad_checkpoint a with
  | Some _ => a
  | None =>
      if is_checkpointed && fits
      then AltBlock (ad_block a) (ad_height a) (ad_cumulative_difficulty a) (get_checkpoint (ad_height a) c)
      else a
  end.
(** Whether the main chain has another block checkpointed at its height. *)
Definition against_checkpoint (c : checkpoints) (a : alt_block_data) : bool :=
  let '(fits, is_checkpointed, _) := check_block (ad_height a) (b_hash (ad_block a)) c in
  is_checkpointed && negb fits.

Definition count_if {A} (f : A -> bool) (l : list A) : Z := Z.of_nat (length (List.filter f l)).
Definition is_checkpointed (a : alt_block_data) : bool := bool_decide (is_Some (ad_checkpoint a)).

Inductive alt_chain_result :=
| ChainThrew
| ChainRefused (bvc : block_verification_context)
| ChainBuilt (alt_chain : list alt_block_data) (timestamps : list Z) (num_alt_checkpoints num_checkpoints : Z).

(** Whether the chain is connected to the main chain where it says; [None] is the exception of
    asking for a block above the main chain. *)
Definition alt_chain_connects (front : alt_block_data) (bc : blockchain Sub) : option bool :=
  let prev_id := b_prev_id (ad_block front) in
  match m_blocks bc !! Z.to_nat (u64 (ad_height front - 1)) with
  | None => None
  | Some e => Some (negb (height bc <? ad_height front) && block_exists prev_id bc && bool_decide (b_hash (e_block e) = prev_id))
  end.

(** A chain that does not connect is removed. *)
Definition refuse_alt_chain (alt_chain : list alt_block_data) (bc : blockchain Sub) : alt_chain_result * blockchain Sub :=
  let '(removed, bc) := remove_alt_blocks ((fun a => b_hash (ad_block a)) <$> alt_chain) bc in
  (if removed then ChainRefused failed else ChainThrew, bc).

Definition build_alt_chain (prev_id : bytes) (bc : blockchain Sub) : alt_chain_result * blockchain Sub :=
  let walked := walk_alt (size (m_alt_blocks bc)) prev_id (m_alt_blocks bc) in
  let alt_chain := reverse (resolve_checkpoint (m_checkpoints bc) <$> walked) in
  let timestamps := b_timestamp ∘ ad_block <$> walked in
  let built timestamps :=
    ChainBuilt alt_chain timestamps (count_if is_checkpointed alt_chain) (count_if (against_checkpoint (m_checkpoints bc)) walked) in
  match alt_chain with
  | front :: _ =>
      match alt_chain_connects front bc with
      | None => (ChainThrew, bc)
      | Some connects =>
          let '(ok, bc) :=
            if connects then
              let '(allowed, c) := is_alternative_block_allowed (height bc) (ad_height front) (m_checkpoints bc) in
              (allowed, with_checkpoints bc c)
            else (false, bc) in
          if ok then
            let start := default O (position_of (b_prev_id (ad_block front)) (m_blocks bc)) in
            (built (complete_timestamps_vector start timestamps (m_blocks bc)), bc)
          else refuse_alt_chain alt_chain bc
      end
  | [] =>
      match position_of prev_id (m_blocks bc) with
      | None => (ChainRefused no_verdict, bc)
      | Some start => (built (complete_timestamps_vector start timestamps (m_blocks bc)), bc)
      end
  end.

(** The comparison, with the blocks of the main chain from the height of the fork on; [None] when
    these can not be read. *)
Definition alt_chain_preferred (v : hf) (alt_chain : list alt_block_data) (num_alt num_main : Z) (es : list entry) : option bool :=
  let start := default 0 (ad_height <$> head alt_chain) in
  if (hf16_pulse <=? v) && (num_alt =? num_main) && (chain_height es <=? start) then None
  else
    Some (alt_chain_wins v num_alt num_main (ad_block <$> alt_chain) (drop (Z.to_nat start) (blocks_of es))
            (default 0 (ad_cumulative_difficulty <$> last alt_chain)) (difficulty_at es (length es - 1))).

(** Before pulse the old chain is kept, unless the other one won by its checkpoints. *)
Definition keeps_disconnected_chain (v : hf) (num_alt num_main : Z) : bool :=
  if hf16_pulse <=? v then false
  else if hf13_enforce_checkpoints <=? v then negb (num_main <? num_alt)
  else true.

(** A block that no checkpoint came with must fit a hardcoded one at its height. *)
Definition fails_hardcoded (b : block) (checkpoint : option checkpoint_t) (c : checkpoints) : bool :=
  let '(fits, _, service_node_checkpoint) := check_block (b_height b) (b_hash b) c in
  bool_decide (checkpoint = None) && negb fits && negb service_node_checkpoint.

(** The fuel bounds how often keeping an old chain can lead to another switch. *)
Fixpoint handle_alternative_block (fuel : nat) (now : Z) (b : block) (checkpoint : option checkpoint_t) (bc : blockchain Sub)
    : outcome * blockchain Sub :=
  match fuel with
  | O => (Threw, bc)
  | Datatypes.S fuel =>
      let prev_data := m_alt_blocks bc !! b_prev_id b in
      if negb (block_exists (b_prev_id b) bc || bool_decide (is_Some prev_data)) then (Returned true orphaned, bc)
      else
        let '(ok, bc) := basic_alt_checks now b bc in
        if negb ok then (Returned false failed, bc)
        else
          match build_alt_chain (b_prev_id b) bc with
          | (ChainThrew, bc) => (Threw, bc)
          | (ChainRefused bvc, bc) => (Returned false bvc, bc)
          | (ChainBuilt alt_chain timestamps num_alt num_main, bc) =>
              if b_timestamp b <? median timestamps then (Returned false failed, bc)
              else
                match sub_work (m_blocks bc) alt_chain b (m_subsystems bc) with
                | None => (Returned false failed, bc)
                | Some current_diff =>
                    if bool_decide (is_Some (m_alt_blocks bc !! b_hash b)) then (Returned false no_verdict, bc)
                    else if bool_decide (alt_chain = []) && (height bc <=? u64 (b_height b - 1)) then (Threw, bc)
                    else
                      let prev_difficulty :=
                        match alt_chain, prev_data with
                        | _ :: _, Some a => ad_cumulative_difficulty a
                        | _, _ => difficulty_at (m_blocks bc) (default O (position_of (b_prev_id b) (m_blocks bc)))
                        end in
                      let alt_data := AltBlock b (b_height b) (u64 (current_diff + prev_difficulty)) checkpoint in
                      let bc := with_alts bc (<[b_hash b := alt_data]> (m_alt_blocks bc)) in
                      let num_alt := if is_checkpointed alt_data then num_alt + 1 else num_alt in
                      let num_main := if against_checkpoint (m_checkpoints bc) alt_data then num_main + 1 else num_main in
                      let alt_chain := alt_chain ++ [alt_data] in
                      if fails_hardcoded b checkpoint (m_checkpoints bc) then (Returned false failed, bc)
                      else
                        let '(ok, s) := sub_alt b checkpoint (m_subsystems bc) in
                        let bc := with_subsystems bc s in
                        if negb ok then (Returned false no_verdict, bc)
                        else
                          match alt_chain_preferred (major_version b) alt_chain num_alt num_main (m_blocks bc) with
                          | None => (Returned false no_verdict, bc)
                          | Some false => (Returned true no_verdict, bc)
                          | Some true =>
                              let push_alt x bc :=
                                let '(o, bc) := handle_alternative_block fuel now x.1 x.2 bc in
                                (match o with Threw => false | Returned _ _ => true end, bc) in
                              let '(switched, bc) :=
                                switch_to_alternative_blockchain push_alt now alt_chain
                                  (keeps_disconnected_chain (major_version b) num_alt num_main) bc in
                              (match switched with
                               | Some ok => Returned ok (if ok then added else failed)
                               | None => Threw
                               end, bc)
                          end
                end
          end
  end.

(** A checkpoint with fewer signatures than the stored one is dropped. *)
Definition better_checkpoint (b : block) (checkpoint : option checkpoint_t) (bc : blockchain Sub) : option checkpoint_t :=
  match checkpoint, get_checkpoint (b_height b) (m_checkpoints bc) with
  | Some x, Some existing => if (length (cp_signatures x) <? length (cp_signatures existing))%nat then None else Some x
  | _, _ => checkpoint
  end.

Definition add_new_block (fuel : nat) (now : Z) (b : block) (checkpoint : option checkpoint_t) (bc : blockchain Sub)
    : outcome * blockchain Sub :=
  if have_block (b_hash b) bc then (Returned false already_exists, bc)
  else
    let checkpoint := better_checkpoint b checkpoint bc in
    if bool_decide (b_prev_id b = top_hash (m_blocks bc)) then
      let '(ok, bc) := handle_block_to_main_chain now b checkpoint bc in
      (Returned ok (if ok then added else failed), bc)
    else handle_alternative_block fuel now b checkpoint bc.

End Blockchain.
