(* ===== verification/ReorgRuns.v ===== *)
(** * What a chain switch does to the main chain

    For subsystems of which nothing is assumed.  A block is added on top, or a preferred chain takes
    the place of the blocks above a fork, or the blocks stay; the exception is a rollback after a
    failed switch in which a block of the old chain is refused itself, which ends the chain
    there.  Blocks and votes take off no block at or below the height that was found final; a
    rollback for a blink looks only at the checkpoints of the moment ([blink_forgets_final]). *)
From stdpp Require Import gmap sorting strings relations.
From S2P Require Import Prelude Hardfork Config Rules Voting Transactions Checkpoints Reorg.
#[local] Open Scope Z_scope.

(** ** The walk is complete

    Hashes do not form a cycle, so that a walk visits each alternative block at most once and the
    number of them is fuel enough. *)
Section Walk.
Context (alts : gmap bytes alt_block_data) (rank : bytes -> nat).
Context (acyclic : forall id a, alts !! id = Some a -> (rank (b_prev_id (ad_block a)) < rank id)%nat).

Lemma walk_length fuel id :
  (length (walk_alt fuel id alts) <= size (filter (fun e => rank e.1 <= rank id)%nat alts))%nat.
Proof using acyclic.
  revert id. induction fuel as [|fuel IH]; intros id; cbn [walk_alt length]; [lia|].
  destruct (alts !! id) as [a|] eqn:Ea; cbn [length]; [|lia]. specialize (acyclic id a Ea). etrans; [apply le_n_S, IH|].
  set (below := filter (fun e => rank e.1 <= rank (b_prev_id (ad_block a)))%nat alts).
  assert (below !! id = None) as Hid by (apply map_lookup_filter_None; right; cbn; intros; lia).
  apply (map_size_insert_None id a below) in Hid. cut (size (<[id := a]> below) <= size (filter (fun e => rank e.1 <= rank id)%nat alts))%nat; [lia|].
  clear Hid. apply map_subseteq_size. apply map_subseteq_spec. intros k y. rewrite lookup_insert.
  case_decide as Ek; [intros [= <-]; subst k; by apply map_lookup_filter_Some|].
  intros [Hk Hr]%map_lookup_filter_Some. apply map_lookup_filter_Some. cbn in *. split; [done|lia].
Qed.

Lemma walk_more fuel n id : (length (walk_alt (fuel + n) id alts) <= fuel)%nat -> walk_alt fuel id alts = walk_alt (fuel + n) id alts.
Proof using Type.
  revert id. induction fuel as [|fuel IH]; intros id; cbn [Nat.add walk_alt].
  - destruct n as [|n]; [done|]. cbn [walk_alt]. destruct (alts !! id); [cbn; lia|done].
  - destruct (alts !! id) as [a|]; [|done]. cbn [length]. intros Hl. f_equal. apply IH. lia.
Qed.

Lemma walk_complete n id : walk_alt (size alts) id alts = walk_alt (size alts + n) id alts.
Proof using acyclic.
  apply walk_more. etrans; [apply walk_length|]. apply map_subseteq_size, map_filter_subseteq.
Qed.
End Walk.

Section Switching.
Context {Sub : Type} `{!Subsystems Sub}.
Context (fk : list hard_fork) (nettype : network_type) (conf : network_config) (m_max_sync_height : Z).
Context (minor_version : block -> Z) (prevalidate_block_rewards : block -> Z -> hf -> bool).
(** Hashes do not form a cycle: a block comes after the one it names. *)
Context (rank : bytes -> nat).

#[local] Abbreviation chain := (blockchain Sub).
#[local] Abbreviation add_main := (handle_block_to_main_chain fk nettype conf m_max_sync_height minor_version
  prevalidate_block_rewards).
#[local] Abbreviation connect := (Reorg.connect fk nettype conf m_max_sync_height minor_version prevalidate_block_rewards).

(** ** The invariant *)

(** A block has a 64 bit height and a hash that comes after the one before it. *)
Definition linked (b : block) : Prop := (rank (b_prev_id b) < rank (b_hash b))%nat.
Definition typed (b : block) : Prop := is_u64 (b_height b) /\ linked b.
Definition incoming (b : block) (x : option checkpoint_t) : Prop := typed b /\ 0 <= default 0 (cp_height <$> x).

(** Every block names the one below it. *)
Inductive chain_ok : list entry -> Prop :=
| chain_ok_genesis g : chain_ok [g]
| chain_ok_next es e : chain_ok es -> b_prev_id (e_block e) = top_hash es -> typed (e_block e) -> chain_ok (es ++ [e]).

Definition alt_ok (a : alt_block_data) : Prop := ad_height a = b_height (ad_block a) /\ incoming (ad_block a) (ad_checkpoint a).
Definition alts_ok (alts : gmap bytes alt_block_data) : Prop := map_Forall (fun id a => alt_ok a /\ id = b_hash (ad_block a)) alts.

Record node_ok (bc : chain) : Prop := {
  node_chain : chain_ok (m_blocks bc);
  node_genesis : from_genesis (c_db (m_checkpoints bc));
  node_alts : alts_ok (m_alt_blocks bc);
}.

Lemma chain_ok_nonempty es : chain_ok es -> es <> [].
Proof using All. destruct 1 as [g|es e]; [done|]. by destruct es. Qed.

Lemma chain_ok_split es e ds : es <> [] -> chain_ok (es ++ e :: ds) -> chain_ok es /\ b_prev_id (e_block e) = top_hash es /\ typed (e_block e).
Proof using All.
  intros Hne. induction ds as [|d ds IH] using rev_ind; intros H; inversion H as [g Eg|es' e' Hok Hp Ht E].
  - by destruct es as [|? [|? ?]].
  - apply app_inj_tail in E as [-> ->]. by split_and!.
  - by destruct es as [|? [|? ?]].
  - rewrite app_comm_cons, app_assoc in E. apply app_inj_tail in E as [-> ->]. by apply IH.
Qed.

Lemma chain_ok_prefix es ds : es <> [] -> chain_ok (es ++ ds) -> chain_ok es.
Proof using All.
  intros Hne. destruct ds as [|e ds]; [by rewrite app_nil_r|]. intros H. by apply (chain_ok_split es e ds).
Qed.

Lemma top_hash_snoc es e : top_hash (es ++ [e]) = b_hash (e_block e).
Proof using All. unfold top_hash, hashes. rewrite fmap_app. cbn. by rewrite last_snoc. Qed.

(** So no block is on the chain twice. *)
Lemma chain_ranks es : chain_ok es -> Forall (fun e => (rank (b_hash (e_block e)) <= rank (top_hash es))%nat) es /\ NoDup (hashes es).
Proof using All.
  induction 1 as [g|es e _ [IHr IHn] Hp [_ Hl]].
  { split; [by repeat constructor|apply NoDup_singleton]. }
  unfold linked in Hl. rewrite Hp in Hl. rewrite top_hash_snoc. split.
  - apply Forall_app. split; [|by repeat constructor]. eapply Forall_impl; [exact IHr|]. cbn. lia.
  - unfold hashes. rewrite fmap_app. apply NoDup_app. split_and!; [done| |apply NoDup_singleton].
    intros id (y & -> & Hy)%list_elem_of_fmap Hid%list_elem_of_singleton. rewrite Forall_forall in IHr. specialize (IHr y Hy).
    cbn in IHr. rewrite Hid in IHr. lia.
Qed.

(** ** One block on the main chain *)

Definition immutable (bc : chain) : Z := m_immutable_height (m_checkpoints bc).
(** What the main chain does not touch. *)
Definition same_side (bc bc' : chain) : Prop := m_alt_blocks bc' = m_alt_blocks bc /\ immutable bc' = immutable bc.

Lemma same_side_trans bc1 bc2 bc3 : same_side bc1 bc2 -> same_side bc2 bc3 -> same_side bc1 bc3.
Proof using All. intros [H1 H2] [H3 H4]. split; congruence. Qed.

Lemma pop_spec (bc : chain) es e :
  m_blocks bc = es ++ [e] -> es <> [] ->
  pop_block_from_db bc = Some (e_block e, with_subsystems (with_blocks bc es) (sub_pop (e_block e) (m_subsystems bc))).
Proof using All.
  intros E Hne. unfold pop_block_from_db. rewrite E, last_snoc, length_app. cbn [length].
  replace (length es + 1 - 1)%nat with (length es) by lia. rewrite take_app_length.
  assert (length es <> 0%nat) by (by destruct es). by rewrite (proj2 (Nat.ltb_lt _ _)) by lia.
Qed.

Lemma detach_ok load (bc : chain) : node_ok bc -> node_ok (exec_detach_hooks load bc) /\ same_side bc (exec_detach_hooks load bc).
Proof using All. intros [Hc Hg Ha]. split; [|done]. split; [done|by apply genesis_detached|done]. Qed.

Lemma abort_ok (bc : chain) e s :
  node_ok bc ->
  let bc' := abort_block (with_subsystems (with_blocks bc (m_blocks bc ++ [e])) s) in
  node_ok bc' /\ same_side bc bc' /\ m_blocks bc' = m_blocks bc.
Proof using All.
  intros [Hc Hg Ha]. cbv zeta. unfold abort_block.
  rewrite (pop_spec _ (m_blocks bc) e) by (done || by apply chain_ok_nonempty). cbn [m_subsystems with_subsystems with_blocks].
  destruct (detach_ok false (with_subsystems (with_blocks bc (m_blocks bc)) (sub_pop (e_block e) s))) as [H1 H2]; [by split|].
  split_and!; [exact H1|exact H2|done].
Qed.

Lemma chain_height_pos es : chain_ok es -> 0 < chain_height es.
Proof using All. intros H%chain_ok_nonempty. unfold chain_height. destruct es; [done|]. cbn. lia. Qed.

Lemma basic_checks_top now b (bc : chain) :
  basic_block_checks fk nettype conf m_max_sync_height minor_version prevalidate_block_rewards now b bc = true -> b_prev_id b = top_hash (m_blocks bc).
Proof using All.
  unfold basic_block_checks. destruct (past_max_sync _ _); [done|]. destruct (bool_decide _) eqn:E; [|done]. by apply bool_decide_eq_true in E.
Qed.

Lemma main_step now b x (bc : chain) :
  node_ok bc -> incoming b x ->
  let '(ok, bc') := add_main now b x bc in
  node_ok bc' /\ same_side bc bc' /\
  if ok then exists e, e_block e = b /\ b_prev_id b = top_hash (m_blocks bc) /\ m_blocks bc' = m_blocks bc ++ [e]
  else m_blocks bc' = m_blocks bc.
Proof using All.
  intros [Hc Hg Ha] [Ht Hx]. unfold handle_block_to_main_chain.
  destruct (basic_block_checks _ _ _ _ _ _ now b bc) eqn:Eb; cbn [negb]; [|done]. apply basic_checks_top in Eb.
  destruct (sub_contents (m_blocks bc) b (m_subsystems bc)) as [[mark|d] s]; [by destruct mark; split_and!; [split|..]|].
  cbn [m_blocks m_subsystems with_subsystems]. destruct (sub_add b x s) as [[] s'].
  - split_and!; [|split; [done|apply block_add_immutable]|by exists (next_entry (m_blocks bc) b d)].
    split; cbn [m_blocks m_checkpoints m_alt_blocks with_checkpoints with_subsystems with_blocks];
      [by apply chain_ok_next|by apply genesis_block_add|done].
  - apply (abort_ok (with_subsystems bc s) (next_entry (m_blocks bc) b d) s'). by split.
Qed.

(** ** Chains of blocks *)

(** Blocks are taken in order until one is refused. *)
Lemma connect_step now (l : list block_and_checkpoint) (bc : chain) :
  node_ok bc -> Forall (fun x => incoming x.1 x.2) l ->
  let '(rest, bc') := connect now l bc in
  node_ok bc' /\ same_side bc bc' /\
  exists taken es, l = taken ++ rest /\ blocks_of es = taken.*1 /\ m_blocks bc' = m_blocks bc ++ es /\
    match head rest with
    | Some x => exists bc1, m_blocks bc1 = m_blocks bc' /\ add_main now x.1 x.2 bc1 = (false, bc')
    | None => True
    end.
Proof using All.
  intros Hok Hl. revert bc Hok. induction Hl as [|[b x] l Hx _ IH]; intros bc Hok; cbn [Reorg.connect].
  { split_and!; [done|done|]. exists [], []. split_and!; [done|done|by rewrite app_nil_r|done]. }
  pose proof (main_step now b x bc Hok Hx) as Hm. destruct (add_main now b x bc) as [ok bc1] eqn:Ea.
  destruct Hm as (Hok1 & Hside & Hb). destruct ok.
  - specialize (IH bc1 Hok1). destruct (connect now l bc1) as [rest bc2].
    destruct IH as (Hok2 & Hside2 & taken & es & -> & Hes & Hbs & Hend).
    destruct Hb as (e & <- & _ & Hb). split_and!; [done|by eapply same_side_trans|].
    exists ((e_block e, x) :: taken), (e :: es). split_and!; [done|cbn; by f_equal|by rewrite Hbs, Hb, <- app_assoc|done].
  - split_and!; [done|done|]. exists [], []. split_and!; [done|done|by rewrite app_nil_r|]. exists bc. by rewrite Hb.
Qed.

(** Blocks as they were taken off the chain. *)
Definition popped_entry (c : checkpoints) (e : entry) : block_and_checkpoint := (e_block e, get_checkpoint (b_height (e_block e)) c).

(** Popping stops at the first prefix the condition holds of, and at the latest at the genesis block. *)
Lemma pop_until_spec fuel stop (bc : chain) popped :
  (length (m_blocks bc) <= fuel)%nat -> m_blocks bc <> [] ->
  let '(bc', popped') := pop_until fuel stop bc popped in
  exists ds, m_blocks bc = m_blocks bc' ++ ds /\ m_blocks bc' <> [] /\
    popped' = (popped_entry (m_checkpoints bc) <$> ds) ++ popped /\
    bc' = with_subsystems (with_blocks bc (m_blocks bc')) (foldr sub_pop (m_subsystems bc) (blocks_of ds)) /\
    (stop (m_blocks bc') = true \/ length (m_blocks bc') = 1%nat) /\
    (forall p q, m_blocks bc = p ++ q -> (length (m_blocks bc') < length p)%nat -> stop p = false).
Proof using All.
  revert bc popped. induction fuel as [|fuel IH]; intros bc popped Hf Hne; [destruct (m_blocks bc); [done|cbn in Hf; lia]|]. cbn [pop_until].
  assert (bc = with_subsystems (with_blocks bc (m_blocks bc)) (foldr sub_pop (m_subsystems bc) (blocks_of []))) as Hid by by destruct bc.
  destruct (stop (m_blocks bc)) eqn:Est.
  { exists []. rewrite app_nil_r. split_and!; [done|done|done|done|by left|].
    intros p q E Hl. rewrite E, length_app in Hl. lia. }
  destruct (exists_last Hne) as (es & e & E).
  destruct (decide (es = [])) as [->|Hes].
  - unfold pop_block_from_db. rewrite E. cbn. exists []. rewrite app_nil_r. split_and!; [done|done|done|done|right; by rewrite E|].
    intros p q E' Hl. apply (f_equal length) in E'. rewrite length_app in E'. rewrite ?E in *. cbn in *. lia.
  - rewrite (pop_spec bc es e E Hes). set (bc1 := with_subsystems _ _).
    specialize (IH bc1 ((e_block e, get_checkpoint (b_height (e_block e)) (m_checkpoints bc1)) :: popped)).
    destruct (pop_until fuel stop bc1 _) as [bc' popped']. destruct IH as (ds & E1 & Hne' & Hp & Hbc' & Hstop & Hbetween).
    { cbn. rewrite E, length_app in Hf. cbn in Hf. lia. }
    { done. }
    change (m_blocks bc1) with es in *. exists (ds ++ [e]). split_and!; [by rewrite E, E1 at 1; rewrite <- app_assoc|done| | |done|].
    + rewrite Hp, fmap_app, <- app_assoc. done.
    + rewrite Hbc' at 1. unfold blocks_of. rewrite fmap_app, foldr_app. done.
    + intros p q E' Hl. destruct (decide (q = [])) as [->|Hq].
      * rewrite app_nil_r in E'. by rewrite <- E'.
      * destruct (exists_last Hq) as (q' & e' & ->). rewrite E, app_assoc in E'. apply app_inj_tail in E' as [E' _]. by apply (Hbetween p q').
Qed.
(** What is put back: its checkpoints come from the database. *)
Lemma popped_incoming c es ds :
  chain_ok (es ++ ds) -> es <> [] -> keyed (c_db c) -> Forall (fun x => incoming x.1 x.2) (popped_entry c <$> ds).
Proof using All.
  intros Hc Hes Hk. revert es Hc Hes. induction ds as [|e ds IH]; intros es Hc Hes; [by constructor|]. rewrite fmap_cons. constructor.
  - destruct (chain_ok_split es e ds Hes Hc) as (_ & _ & Ht). split; [done|]. cbn. unfold get_checkpoint.
    destruct (c_db c !! b_height (e_block e)) as [y|] eqn:Ey; [|done]. cbn. destruct (Hk _ _ Ey) as [-> ?]. done.
  - apply (IH (es ++ [e])); [by rewrite <- app_assoc|by destruct es].
Qed.

(** Popping and telling the subsystems. *)
Lemma pop_and_detach stop (bc : chain) :
  node_ok bc ->
  let '(bc1, popped) := pop_until (length (m_blocks bc)) stop bc [] in
  let bc2 := exec_detach_hooks true bc1 in
  node_ok bc2 /\ same_side bc bc2 /\ m_blocks bc2 = m_blocks bc1 /\ m_blocks bc1 <> [] /\
  (stop (m_blocks bc1) = true \/ length (m_blocks bc1) = 1%nat) /\
  (forall p q, m_blocks bc = p ++ q -> (length (m_blocks bc1) < length p)%nat -> stop p = false) /\
  exists ds, m_blocks bc = m_blocks bc1 ++ ds /\ popped = popped_entry (m_checkpoints bc) <$> ds /\
    Forall (fun x => incoming x.1 x.2) popped.
Proof using All.
  intros [Hc Hg Ha].
  pose proof (pop_until_spec (length (m_blocks bc)) stop bc [] ltac:(lia) (chain_ok_nonempty _ Hc)) as Hp.
  destruct (pop_until _ stop bc []) as [bc1 popped]. destruct Hp as (ds & E & Hne & Hpop & Hbc1 & Hstop & Hbetween).
  rewrite app_nil_r in Hpop. cbv zeta.
  assert (m_checkpoints bc1 = m_checkpoints bc /\ m_alt_blocks bc1 = m_alt_blocks bc) as (Ecp & Ealt) by (by rewrite Hbc1).
  destruct (detach_ok true bc1) as [Hok2 Hside2].
  { split; [|by rewrite Ecp|by rewrite Ealt]. rewrite E in Hc. by apply chain_ok_prefix in Hc. }
  split_and!; [done| |done|done|done|done|].
  - destruct Hside2 as [H1 H2]. split; [by rewrite H1|]. rewrite H2. unfold immutable. by rewrite Ecp.
  - exists ds. split_and!; [done|done|]. rewrite Hpop. rewrite E in Hc. destruct Hg as [Hk _]. by eapply popped_incoming.
Qed.

(** The chain of before is back, or ends where one of its blocks was refused. *)
Definition put_back (now : Z) (es ds : list entry) (bc' : chain) : Prop :=
  exists es', m_blocks bc' = es ++ es' /\
    (blocks_of es' = blocks_of ds \/
     exists d rest x bc1 bc2, blocks_of ds = blocks_of es' ++ d :: rest /\ m_blocks bc1 = m_blocks bc' /\
       add_main now d x bc1 = (false, bc2)).

(** The rollback, with the blocks of before or (for a blink) none. *)
Lemma rollback_spec now c es ds (bc : chain) :
  node_ok bc -> es <> [] -> (exists more, m_blocks bc = es ++ more) ->
  Forall (fun x => incoming x.1 x.2) (popped_entry c <$> ds) ->
  let bc' := (rollback_blockchain_switching fk nettype conf m_max_sync_height minor_version prevalidate_block_rewards
      now (popped_entry c <$> ds) (length es) bc).2 in
  node_ok bc' /\ same_side bc bc' /\ put_back now es ds bc'.
Proof using All.
  intros Hok Hes [more Hbs] Hin. unfold rollback_blockchain_switching.
  rewrite (proj2 (Nat.ltb_ge _ _)) by (rewrite Hbs, length_app; lia).
  pose proof (pop_and_detach (fun l => bool_decide (length l = length es)) bc Hok) as Hp.
  destruct (pop_until _ _ bc []) as [bc1 popped]. destruct Hp as (Hok2 & Hside & Hb2 & Hne & Hstop & Hbetween & ds' & E & _).
  assert (m_blocks bc1 = es) as E1.
  { assert (length (m_blocks bc1) = length es) as Hl.
    { destruct Hstop as [Hstop|Hone]; [by apply bool_decide_eq_true in Hstop|].
      destruct (decide (length (m_blocks bc1) < length es)%nat) as [Hlt|Hge].
      - specialize (Hbetween es more Hbs Hlt). by apply bool_decide_eq_false in Hbetween.
      - assert (length es <> 0%nat) by by destruct es. lia. }
    rewrite Hbs in E. by apply app_inj_1 in E as [-> _]. }
  pose proof (connect_step now (popped_entry c <$> ds) (exec_detach_hooks true bc1) Hok2 Hin) as Hcon.
  destruct (connect now _ _) as [rest bc3]. destruct Hcon as (Hok3 & Hside3 & taken & es' & El & Ees & Hb3 & Hend).
  cbn [snd]. split_and!; [done|by eapply same_side_trans|]. exists es'. split; [by rewrite Hb3, Hb2, E1|].
  assert (blocks_of ds = taken.*1 ++ rest.*1) as Eds.
  { apply (f_equal (fmap fst)) in El. rewrite fmap_app, <- list_fmap_compose in El. exact El. }
  destruct rest as [|[d x] rest]; [left; by rewrite Ees, Eds, app_nil_r|right].
  cbn in Hend. destruct Hend as (bc4 & Hb4 & Eadd). exists d, (rest.*1), x, bc4, bc3. split_and!; [by rewrite Ees|done|done].
Qed.

(** ** The switch *)

(** Alternative blocks are dropped, and nothing else changes but the set of invalid blocks. *)
Definition trims (bc bc' : chain) : Prop :=
  m_blocks bc' = m_blocks bc /\ m_checkpoints bc' = m_checkpoints bc /\ m_subsystems bc' = m_subsystems bc /\
  m_alt_blocks bc' ⊆ m_alt_blocks bc.

#[local] Instance trims_preorder : PreOrder trims.
Proof using All.
  split; [intros bc; split_and!; [done..|reflexivity]|]. intros bc1 bc2 bc3 (H1 & H2 & H3 & H4) (H5 & H6 & H7 & H8).
  split_and!; [by rewrite H5|by rewrite H6|by rewrite H7|by etrans].
Qed.

Lemma remove_alt_trims id (bc bc' : chain) : remove_alt_block id bc = Some bc' -> trims bc bc'.
Proof using All. unfold remove_alt_block. case_bool_decide; [|done]. intros [= <-]. split_and!; [done..|]. apply delete_subseteq. Qed.

Lemma remove_all_trims ids (bc : chain) : trims bc (remove_alt_blocks ids bc).2.
Proof using All.
  revert bc. induction ids as [|id ids IH]; intros bc; cbn [remove_alt_blocks]; [done|].
  destruct (remove_alt_block id bc) as [bc1|] eqn:E; [|done]. etrans; [by eapply remove_alt_trims|apply IH].
Qed.

Lemma orphan_trims refused rest (bc : chain) : trims bc (orphan_rest refused rest bc).2.
Proof using All.
  revert bc. induction rest as [|x rest IH]; intros bc; cbn [orphan_rest]; [done|].
  assert (trims bc (add_block_as_invalid (b_hash x.1) bc)) as Ht by done.
  destruct (remove_alt_block _ _) as [bc1|] eqn:E; [|done]. etrans; [exact Ht|]. etrans; [by eapply remove_alt_trims|apply IH].
Qed.

(** Blocks that are there, each once, can be removed. *)
Lemma remove_all_succeeds ids (bc : chain) :
  NoDup ids -> Forall (fun id => is_Some (m_alt_blocks bc !! id)) ids -> (remove_alt_blocks ids bc).1 = true.
Proof using All.
  intros Hn. revert bc. induction Hn as [|id ids Hid _ IH]; intros bc Hf; cbn [remove_alt_blocks]; [done|].
  apply Forall_cons in Hf as [Hx Hf]. unfold remove_alt_block. rewrite bool_decide_eq_true_2 by done. apply IH.
  rewrite Forall_forall in Hf. apply Forall_forall. intros k Hk. cbn. rewrite lookup_delete_ne by (by intros ->). by apply Hf.
Qed.

Definition alt_hash (a : alt_block_data) : bytes := b_hash (ad_block a).
(** The blocks of an alternative chain are stored, and different. *)
Definition chain_stored (alt_chain : list alt_block_data) (bc : chain) : Prop :=
  NoDup (alt_hash <$> alt_chain) /\ Forall (fun a => is_Some (m_alt_blocks bc !! alt_hash a)) alt_chain.

Lemma trims_ok (bc bc' : chain) : trims bc bc' -> node_ok bc -> node_ok bc'.
Proof using All.
  intros (H1 & H2 & H3 & H4) [Hc Hg Ha]. split; rewrite ?H1, ?H2; [done..|].
  intros id a Hid. apply (Ha id a). by eapply lookup_weaken.
Qed.

(** The final height only rises, and the blocks up to where it was stay. *)
Definition keeps (upto : Z) (bc bc' : chain) : Prop :=
  forall h e, Z.of_nat h <= upto -> m_blocks bc !! h = Some e -> m_blocks bc' !! h = Some e.
Definition grows (bc bc' : chain) : Prop := immutable bc <= immutable bc' /\ keeps (immutable bc) bc bc'.

#[local] Instance grows_preorder : PreOrder grows.
Proof using All.
  split; [intros bc; split; [lia|by intros h e]|]. intros bc1 bc2 bc3 [Hi1 Hk1] [Hi2 Hk2]. split; [lia|]. intros h e Hh He. apply Hk2; [lia|]. by apply Hk1.
Qed.

Lemma trims_grows bc bc' : trims bc bc' -> grows bc bc'.
Proof using All. intros (H1 & H2 & _). unfold grows, keeps, immutable. rewrite H1, H2. split; [lia|done]. Qed.

Lemma same_chain_grows bc bc' : immutable bc <= immutable bc' -> m_blocks bc' = m_blocks bc -> grows bc bc'.
Proof using All. intros Hi E. split; [done|]. intros h e _ He. by rewrite E. Qed.

Lemma fork_kept (bc bc' : chain) es ds new upto :
  m_blocks bc = es ++ ds -> m_blocks bc' = es ++ new -> upto < chain_height es -> keeps upto bc bc'.
Proof using All.
  intros E E' Hlt h e Hh. rewrite E, E'. unfold chain_height in Hlt. by rewrite !lookup_app_l by lia.
Qed.

(** The blocks before the fork are where the popping stops. *)
Lemma fork_top es ds es' id (stop := fun l => bool_decide (top_hash l = id)) :
  es <> [] -> id ∈ hashes (es ++ ds) -> es' = es ++ ds ->
  stop es = true \/ length es = 1%nat ->
  (forall p q, es' = p ++ q -> (length es < length p)%nat -> stop p = false) -> top_hash es = id.
Proof using All.
  intros Hne Hid -> [Hs|Hone] Hbetween; [by apply bool_decide_eq_true in Hs|].
  unfold hashes in Hid. apply list_elem_of_fmap in Hid as (e & -> & He). apply list_elem_of_split in He as (p & q & E).
  assert (top_hash (p ++ [e]) = b_hash (e_block e)) as Ht.
  { unfold top_hash, hashes. rewrite fmap_app. cbn. by rewrite last_snoc. }
  destruct p as [|e0 p].
  - destruct es as [|e1 [|? ?]]; [done| |done]. cbn in E. by injection E as -> _.
  - specialize (Hbetween ((e0 :: p) ++ [e]) q). rewrite E, <- app_assoc in Hbetween. specialize (Hbetween eq_refl).
    rewrite length_app in Hbetween. cbn [length] in Hbetween. specialize (Hbetween ltac:(lia)).
    apply bool_decide_eq_false in Hbetween. done.
Qed.

(** Where the first block of another chain leaves the main chain, by its own height. *)
Definition forks_at (bc : chain) (front : alt_block_data) : Prop :=
  exists p e, m_blocks bc !! p = Some e /\ b_hash (e_block e) = b_prev_id (ad_block front) /\ ad_height front = Z.of_nat p + 1.

Lemma fork_height es ds p e :
  chain_ok (es ++ ds) -> es <> [] -> (es ++ ds) !! p = Some e -> b_hash (e_block e) = top_hash es -> chain_height es = Z.of_nat p + 1.
Proof using All.
  intros [_ Hnd]%chain_ranks Hes Hp Hh. destruct (exists_last Hes) as (es0 & t & ->).
  rewrite top_hash_snoc in Hh. assert (hashes ((es0 ++ [t]) ++ ds) !! p = Some (b_hash (e_block e))) as H1.
  { unfold hashes. by rewrite list_lookup_fmap, Hp. }
  assert (hashes ((es0 ++ [t]) ++ ds) !! length es0 = Some (b_hash (e_block t))) as H2.
  { unfold hashes. rewrite list_lookup_fmap, <- app_assoc. by rewrite lookup_app_r, Nat.sub_diag by lia. }
  rewrite Hh in H1. pose proof (NoDup_lookup _ _ _ _ Hnd H1 H2) as ->. unfold chain_height. rewrite length_app. cbn. lia.
Qed.

(** The main chain after a switch. *)
Definition switched (bc bc' : chain) (alt_chain : list alt_block_data) : Prop :=
  exists es ds new, m_blocks bc = es ++ ds /\ m_blocks bc' = es ++ new /\ blocks_of new = ad_block <$> alt_chain /\
    default 0 (ad_height <$> head alt_chain) = chain_height es.
(** And after one that failed: the blocks above the fork were put back. *)
Definition rolled_back (now above : Z) (bc bc' : chain) : Prop :=
  exists es ds, m_blocks bc = es ++ ds /\ above < chain_height es /\ put_back now es ds bc'.

Lemma put_back_same now es ds (bc bc' : chain) : m_blocks bc' = m_blocks bc -> put_back now es ds bc -> put_back now es ds bc'.
Proof using All.
  intros E (es' & Eb & H). exists es'. rewrite E. split; [done|]. destruct H as [H|(d & rest & x & bc1 & bc2 & H1 & H2 & H3)]; [by left|right].
  by exists d, rest, x, bc1, bc2.
Qed.

Lemma finish_spec push_alt disconnected alt_chain (bc : chain) :
  chain_stored alt_chain bc ->
  let '(r, bc') := finish_switch push_alt false disconnected alt_chain bc in r = Some true /\ trims bc bc'.
Proof using All.
  intros [Hnd Hin]. unfold finish_switch. cbn [negb]. pose proof (remove_all_trims (alt_hash <$> alt_chain) bc) as Ht.
  pose proof (remove_all_succeeds (alt_hash <$> alt_chain) bc Hnd) as Hs. unfold alt_hash in *.
  rewrite Forall_fmap in Hs. specialize (Hs Hin). destruct (remove_alt_blocks _ bc) as [ok bc2]. cbn in Ht, Hs. by subst ok.
Qed.

Lemma refuse_tail refused rest (bc : chain) :
  let '(r, bc') := refuse_switch refused rest bc in trims bc bc' /\ r <> Some true.
Proof using All.
  unfold refuse_switch.
  assert (trims bc (add_block_as_invalid (b_hash refused) bc)) as Ht by done.
  destruct (remove_alt_block _ _) as [bc1|] eqn:E; [|done]. apply remove_alt_trims in E.
  pose proof (orphan_trims refused rest bc1) as Ho. destruct (orphan_rest refused rest bc1) as [ok bc2]. cbn in Ho.
  split; [etrans; [exact Ht|by etrans]|by destruct ok].
Qed.

Lemma switch_step now push_alt alt_chain front rest (bc : chain) :
  alt_chain = front :: rest -> node_ok bc -> Forall alt_ok alt_chain -> chain_stored alt_chain bc ->
  forks_at bc front -> immutable bc < ad_height front ->
  let '(r, bc') := switch_to_alternative_blockchain fk nettype conf m_max_sync_height minor_version prevalidate_block_rewards
      push_alt now alt_chain false bc in
  node_ok bc' /\ grows bc bc' /\
  if decide (r = Some true) then switched bc bc' alt_chain else rolled_back now (ad_height front - 1) bc bc'.
Proof using All.
  intros -> Hok Hal Hstored (p & e & Hp & Hpe & Hfh) Himm. unfold switch_to_alternative_blockchain.
  assert (b_prev_id (ad_block front) ∈ hashes (m_blocks bc)) as Ex.
  { rewrite <- Hpe. unfold hashes. apply list_elem_of_fmap. exists e. split; [done|]. by eapply list_elem_of_lookup_2. }
  unfold block_exists. rewrite bool_decide_eq_true_2 by done. cbn [negb].
  pose proof (pop_and_detach (fun es => bool_decide (top_hash es = b_prev_id (ad_block front))) bc Hok) as Hpop.
  destruct (pop_until _ _ bc []) as [bc1 popped].
  destruct Hpop as (Hok2 & Hside & Hb2 & Hne & Hstop & Hbetween & ds & E & Hpopped & Hin).
  set (bc2 := exec_detach_hooks true bc1) in *.
  assert (top_hash (m_blocks bc1) = b_prev_id (ad_block front)) as Htop by (rewrite E in Ex; by eapply fork_top).
  assert (ad_height front = chain_height (m_blocks bc1)) as Hfork.
  { rewrite Hfh. symmetry. apply (fork_height _ ds p e); [rewrite <- E; apply Hok|done|by rewrite <- E|by rewrite Htop]. }
  assert (Forall (fun x => incoming x.1 x.2) (entry_of_alt <$> front :: rest)) as Hal'.
  { apply Forall_fmap. eapply Forall_impl; [exact Hal|]. by intros a [_ ?]. }
  pose proof (connect_step now _ bc2 Hok2 Hal') as Hcon.
  destruct (connect now (entry_of_alt <$> front :: rest) bc2) as [left bc3].
  destruct Hcon as (Hok3 & Hside3 & taken & new & El & Enew & Hb3 & _). rewrite Hb2 in Hb3.
  pose proof (same_side_trans _ _ _ Hside Hside3) as [Ea3 Hi3].
  destruct left as [|[refused x] rest'].
  - rewrite app_nil_r in El. subst taken.
    assert (blocks_of new = ad_block <$> front :: rest) as Hnew by (rewrite Enew, <- list_fmap_compose; done).
    pose proof (finish_spec push_alt popped (front :: rest) bc3) as Htail.
    destruct (finish_switch _ _ _ _ _) as [r bc4]. destruct Htail as [-> Ht]; [unfold chain_stored in *; by rewrite Ea3|].
    pose proof Ht as (Hb4 & Hc4 & _). split_and!; [by eapply trims_ok| |].
    + split; [unfold immutable in *; rewrite Hc4; lia|]. eapply fork_kept; [exact E|by rewrite Hb4|lia].
    + destruct (decide _); [|done]. exists (m_blocks bc1), ds, new. by rewrite Hb4.
  - rewrite Hpopped in *. pose proof (rollback_spec now (m_checkpoints bc) (m_blocks bc1) ds bc3 Hok3 Hne) as Hroll.
    cbv zeta in Hroll. destruct (rollback_blockchain_switching _ _ _ _ _ _ _ _ _ bc3) as [ok bc4]. cbn [snd] in Hroll.
    destruct Hroll as (Hok4 & [_ Hi4] & Hput); [by exists new|done|].
    pose proof (refuse_tail refused rest' bc4) as Htail. destruct (refuse_switch _ _ _) as [r bc5]. destruct Htail as [Ht Hr].
    pose proof Ht as (Hb5 & Hc5 & _). apply (put_back_same _ _ _ _ bc5 Hb5) in Hput.
    split_and!; [by eapply trims_ok| |].
    + split; [unfold immutable in *; rewrite Hc5; lia|]. destruct Hput as (es' & Eb & _).
      eapply fork_kept; [exact E|exact Eb|lia].
    + destruct (decide _); [done|]. exists (m_blocks bc1), ds. split_and!; [done|lia|done].
Qed.

(** ** Alternative blocks *)

#[local] Abbreviation add_alternative := (handle_alternative_block fk nettype conf m_max_sync_height minor_version
  prevalidate_block_rewards).

(** The final height as the checkpoints show it now. *)
Definition final_height (bc : chain) : Z := Z.max (immutable_height (height bc) (m_checkpoints bc)) (immutable bc).

(** The chain stays, and with it all that is final. *)
Definition quiet (bc bc' : chain) : Prop :=
  node_ok bc' /\ m_blocks bc' = m_blocks bc /\ c_db (m_checkpoints bc') = c_db (m_checkpoints bc) /\ immutable bc <= immutable bc'.

Lemma quiet_refl bc : node_ok bc -> quiet bc bc.
Proof using All. intros Hok. split_and!; [done..|lia]. Qed.

Lemma quiet_trans bc1 bc2 bc3 : quiet bc1 bc2 -> quiet bc2 bc3 -> quiet bc1 bc3.
Proof using All. intros (_ & E1 & C1 & I1) (H & E2 & C2 & I2). split_and!; [done|congruence|congruence|lia]. Qed.

Lemma asked_ok h (bc : chain) :
  node_ok bc ->
  let '(allowed, c) := is_alternative_block_allowed (height bc) h (m_checkpoints bc) in
  quiet bc (with_checkpoints bc c) /\ (allowed = true -> h <> 0 /\ m_immutable_height c = final_height bc /\ m_immutable_height c < h).
Proof using All.
  intros Hok. destruct (Z.eq_dec h 0) as [->|Hh].
  { cbn. split; [|done]. split_and!; [by destruct Hok|done|done|unfold immutable; cbn; lia]. }
  pose proof Hok as [Hc Hg Ha]. pose proof (chain_height_pos _ Hc) as Hpos.
  rewrite allowed_spec by (unfold height; lia || done). cbv zeta. split.
  - split_and!; [by split|done|done|unfold immutable; cbn; lia].
  - cbn. intros Hlt%Z.ltb_lt. done.
Qed.

Lemma basic_alt_ok now b (bc : chain) :
  node_ok bc ->
  let '(ok, bc') := basic_alt_checks fk nettype conf m_max_sync_height minor_version prevalidate_block_rewards now b bc in
  quiet bc bc' /\ m_alt_blocks bc' = m_alt_blocks bc /\
  (ok = true -> immutable bc' = final_height bc /\ immutable bc' < b_height b).
Proof using All.
  intros Hok. unfold basic_alt_checks. pose proof (quiet_refl bc Hok) as Hq.
  destruct (past_max_sync _ _); [done|]. destruct (_ =? 0); [done|].
  pose proof (asked_ok (b_height b) bc Hok) as H. destruct (is_alternative_block_allowed _ _ _) as [allowed c].
  destruct H as [Hq' Hall]. destruct allowed; cbn [negb]; [|done]. destruct (Hall eq_refl) as [_ Hall'].
  destruct (wrong_version _ _ _); [done|]. destruct (wrong_eth_count _); [done|]. by destruct (dated_ahead _ _ _ _ _).
Qed.

Lemma walk_ok fuel id alts :
  alts_ok alts ->
  Forall (fun a => alt_ok a /\ alts !! alt_hash a = Some a /\ (rank (alt_hash a) <= rank id)%nat) (walk_alt fuel id alts) /\
  NoDup (alt_hash <$> walk_alt fuel id alts).
Proof using All.
  intros Ha. revert id. induction fuel as [|fuel IH]; intros id; cbn [walk_alt]; [split; [done|constructor]|].
  destruct (alts !! id) as [a|] eqn:E; [|split; [done|constructor]]. destruct (Ha id a E) as [Hok ->]. change (b_hash (ad_block a)) with (alt_hash a) in *.
  pose proof Hok as (_ & [_ Hlink] & _). unfold linked in Hlink. change (b_hash (ad_block a)) with (alt_hash a) in Hlink.
  destruct (IH (b_prev_id (ad_block a))) as [Hf Hn]. split.
  - constructor; [by split_and!|]. eapply Forall_impl; [exact Hf|]. cbn. intros x (? & ? & ?). split_and!; [done..|lia].
  - rewrite fmap_cons. constructor; [|done]. intros (x & Ex & Hx)%list_elem_of_fmap. rewrite List.Forall_forall in Hf.
    destruct (Hf x ltac:(by apply list_elem_of_In)) as (_ & _ & Hr). rewrite <- Ex in Hr. lia.
Qed.

(** So the walk of a node is complete. *)
Lemma node_walk_complete n id (bc : chain) :
  node_ok bc -> walk_alt (size (m_alt_blocks bc)) id (m_alt_blocks bc) = walk_alt (size (m_alt_blocks bc) + n) id (m_alt_blocks bc).
Proof using All.
  intros Hok. apply (walk_complete _ rank). intros id' a Ha. destruct (node_alts _ Hok id' a Ha) as [(_ & [_ Hl] & _) ->]. exact Hl.
Qed.

Lemma resolve_same c a : ad_block (resolve_checkpoint c a) = ad_block a /\ ad_height (resolve_checkpoint c a) = ad_height a.
Proof using All.
  unfold resolve_checkpoint. destruct (check_block _ _ _) as [[fits is_cp] ?]. destruct (ad_checkpoint a); [done|]. by destruct (_ && _).
Qed.

Lemma resolve_hash c a : alt_hash (resolve_checkpoint c a) = alt_hash a.
Proof using All. unfold alt_hash. by destruct (resolve_same c a) as [-> _]. Qed.

Lemma resolve_ok c a : keyed (c_db c) -> alt_ok a -> alt_ok (resolve_checkpoint c a).
Proof using All.
  intros Hk (Hh & Ht & Hx). destruct (resolve_same c a) as [Eb Eh]. split; [by rewrite Eb, Eh|]. rewrite Eb. split; [done|].
  unfold resolve_checkpoint. destruct (check_block _ _ _) as [[fits is_cp] ?]. destruct (ad_checkpoint a) eqn:Ex; [by rewrite Ex|].
  destruct (_ && _); [|by rewrite Ex]. cbn. unfold get_checkpoint. destruct (c_db c !! ad_height a) as [y|] eqn:Ey; [|done].
  destruct (Hk _ _ Ey) as [Ey' ?]. cbn. by rewrite Ey'.
Qed.

Lemma against_same c c' a a' :
  c_db c' = c_db c -> ad_block a' = ad_block a -> ad_height a' = ad_height a -> against_checkpoint c' a' = against_checkpoint c a.
Proof using All. unfold against_checkpoint, check_block, get_checkpoint. by intros -> -> ->. Qed.

Lemma refuse_ok alt_chain (bc : chain) :
  node_ok bc ->
  let '(r, bc') := refuse_alt_chain alt_chain bc in
  quiet bc bc' /\ match r with ChainBuilt _ _ _ _ => False | _ => True end.
Proof using All.
  intros Hok. unfold refuse_alt_chain. pose proof (remove_all_trims ((fun a => b_hash (ad_block a)) <$> alt_chain) bc) as Ht.
  destruct (remove_alt_blocks _ bc) as [removed bc']. cbn in Ht. pose proof (trims_ok _ _ Ht Hok). destruct Ht as (Hb & Hc & _).
  unfold quiet, immutable. rewrite Hb, Hc. split; [split_and!; [done..|lia]|by destruct removed].
Qed.

Lemma count_if_app {A} (f : A -> bool) l1 l2 : count_if f (l1 ++ l2) = count_if f l1 + count_if f l2.
Proof using All. unfold count_if. rewrite List.filter_app, length_app. lia. Qed.

Lemma count_if_reverse_map {A} (f : A -> bool) (g : A -> A) l :
  (forall x, f (g x) = f x) -> count_if f (reverse (g <$> l)) = count_if f l.
Proof using All.
  intros Hg. induction l as [|x l IH]; [done|]. rewrite fmap_cons, reverse_cons, count_if_app, IH. unfold count_if. cbn. rewrite Hg.
  destruct (f x); cbn; lia.
Qed.

Lemma count_if_ext {A} (f g : A -> bool) l : (forall x, f x = g x) -> count_if f l = count_if g l.
Proof using All. intros Hfg. unfold count_if. by rewrite (List.filter_ext f g Hfg). Qed.

(** What the built chain is. *)
Definition built_ok (bc : chain) (alt_chain : list alt_block_data) (num_alt num_main : Z) : Prop :=
  Forall alt_ok alt_chain /\ chain_stored alt_chain bc /\ num_alt = count_if is_checkpointed alt_chain /\
  num_main = count_if (against_checkpoint (m_checkpoints bc)) alt_chain /\
  (forall front, head alt_chain = Some front -> forks_at bc front /\ immutable bc < ad_height front).

Lemma position_spec id es p : position_of id es = Some p -> exists e, es !! p = Some e /\ b_hash (e_block e) = id.
Proof using All.
  unfold position_of. destruct (list_find _ _) as [[q h]|] eqn:E; [|done]. intros [= <-]. apply list_find_Some in E as (E & -> & _).
  unfold hashes in E. rewrite list_lookup_fmap in E. destruct (es !! q) as [e|]; [|done]. injection E as <-. by exists e.
Qed.

Lemma build_ok prev_id (bc : chain) :
  node_ok bc ->
  let '(r, bc') := build_alt_chain prev_id bc in
  quiet bc bc' /\
  match r with
  | ChainBuilt alt_chain _ num_alt num_main =>
      built_ok bc' alt_chain num_alt num_main /\
      (alt_chain = [] -> immutable bc' = immutable bc /\ exists p e, m_blocks bc !! p = Some e /\ b_hash (e_block e) = prev_id)
  | _ => True
  end.
Proof using All.
  intros Hok. pose proof Hok as [_ [Hk _] Ha]. unfold build_alt_chain.
  pose proof (quiet_refl bc Hok) as Hq.
  destruct (walk_ok (size (m_alt_blocks bc)) prev_id _ Ha) as [Hw Hnd]. set (walked := walk_alt _ _ _) in *.
  set (alt_chain := reverse (resolve_checkpoint (m_checkpoints bc) <$> walked)).
  assert (Forall alt_ok alt_chain) as Hal.
  { apply Forall_reverse, Forall_fmap. eapply Forall_impl; [exact Hw|]. intros a [? _]. by apply resolve_ok. }
  assert (forall bc', m_alt_blocks bc' = m_alt_blocks bc -> chain_stored alt_chain bc') as Hstored.
  { intros bc' Ealt. unfold chain_stored. rewrite Ealt. subst alt_chain. split.
    - rewrite fmap_reverse, reverse_Permutation, <- list_fmap_compose.
      rewrite (list_fmap_ext _ alt_hash walked); [done|]. intros ? a _. apply resolve_hash.
    - apply Forall_reverse, Forall_fmap. eapply Forall_impl; [exact Hw|]. cbn. intros a (_ & Hin & _). rewrite resolve_hash. by eexists. }
  assert (forall c, c_db c = c_db (m_checkpoints bc) ->
    count_if (against_checkpoint (m_checkpoints bc)) walked = count_if (against_checkpoint c) alt_chain) as Hcount.
  { intros c Hc. subst alt_chain. rewrite count_if_reverse_map.
    - apply count_if_ext. intros a. by apply against_same.
    - intros a. by apply against_same; [|apply resolve_same..]. }
  clearbody alt_chain walked. destruct alt_chain as [|front rest].
  { destruct (position_of _ _) as [p|] eqn:Ep; [|done]. apply position_spec in Ep as (e & He & Hh). split; [done|].
    split; [by split_and!; [|apply Hstored|done|apply Hcount|]|]. intros _. split; [done|]. by exists p, e. }
  apply Forall_cons in Hal as [Hfront Hal]. pose proof Hfront as (Hfh & [Hft _] & _).
  destruct (alt_chain_connects front bc) as [connects|] eqn:Econ; [|done]. unfold alt_chain_connects in Econ.
  destruct (m_blocks bc !! _) as [e|] eqn:Ee; [|done]. injection Econ as Econ.
  destruct connects; [|cbn [negb]].
  2: { pose proof (refuse_ok (front :: rest) bc Hok) as Hr. destruct (refuse_alt_chain _ _) as [r bc']. by destruct Hr, r. }
  apply andb_prop in Econ as [_ Ehash%bool_decide_eq_true].
  pose proof (asked_ok (ad_height front) bc Hok) as H. destruct (is_alternative_block_allowed _ _ _) as [allowed c].
  destruct H as [Hq' Hall]. destruct allowed.
  - split; [done|]. split; [|done]. destruct (Hall eq_refl) as (Hnz & _ & Hlt).
    split_and!; [by apply Forall_cons|by apply Hstored|done|apply Hcount; by apply Hq'|].
    intros ? [= <-]. split; [|done]. eexists _, e. split_and!; [exact Ee|done|].
    rewrite <- Hfh in Hft. unfold is_u64 in Hft. rewrite u64_small by (unfold is_u64; lia). lia.
  - pose proof (refuse_ok (front :: rest) (with_checkpoints bc c) ltac:(apply Hq')) as Hr.
    destruct (refuse_alt_chain _ _) as [r bc']. destruct Hr as [Hr Hb]. split; [by eapply quiet_trans|by destruct r].
Qed.

(** The main chain is replaced above the final height by a preferred chain that ends in the block. *)
Definition replaced (b : block) (bc bc' : chain) : Prop :=
  exists es ds new alt_chain d d', m_blocks bc = es ++ ds /\ m_blocks bc' = es ++ new /\
    blocks_of new = ad_block <$> alt_chain /\ last (blocks_of new) = Some b /\ final_height bc < chain_height es /\
    alt_chain_wins (major_version b) (count_if is_checkpointed alt_chain)
      (count_if (against_checkpoint (m_checkpoints bc)) alt_chain) (blocks_of new) (blocks_of ds) d d' = true.

(** The main chain stays, or was put back. *)
Definition left_alone (now : Z) (bc bc' : chain) : Prop :=
  m_blocks bc' = m_blocks bc \/ rolled_back now (final_height bc) bc bc'.

Definition alt_result (now : Z) (b : block) (bc : chain) (r : outcome * chain) : Prop :=
  node_ok r.2 /\ grows bc r.2 /\ keeps (final_height bc) bc r.2 /\
  (r.1 = Returned true added /\ replaced b bc r.2 \/ r.1 <> Returned true added /\ left_alone now bc r.2).

Lemma quiet_result now b (bc bc' : chain) o : quiet bc bc' -> o <> Returned true added -> alt_result now b bc (o, bc').
Proof using All.
  intros (Hok & E & _ & Hi) Ho. split_and!; [done|by apply same_chain_grows| |right; split; [done|by left]]. cbn. intros h e _ He. by rewrite E.
Qed.

(** The decision, once the chain is built and the subsystems have looked at the block. *)
Lemma decide_result now push_alt b (bc bc' : chain) alt_chain num_alt num_main :
  hf16_pulse <= major_version b ->
  quiet bc bc' -> final_height bc <= immutable bc' -> built_ok bc' alt_chain num_alt num_main ->
  last (ad_block <$> alt_chain) = Some b ->
  alt_result now b bc
    match alt_chain_preferred (major_version b) alt_chain num_alt num_main (m_blocks bc') with
    | None => (Returned false no_verdict, bc')
    | Some false => (Returned true no_verdict, bc')
    | Some true =>
        let '(switched, bc'') :=
          switch_to_alternative_blockchain fk nettype conf m_max_sync_height minor_version prevalidate_block_rewards
            push_alt now alt_chain (keeps_disconnected_chain (major_version b) num_alt num_main) bc' in
        (match switched with Some ok => Returned ok (if ok then added else failed) | None => Threw end, bc'')
    end.
Proof using All.
  intros Hv Hq Hfinal (Hal & Hstored & Hna & Hnm & Himm) Hlast. destruct (alt_chain_preferred _ _ _ _ _) as [[]|] eqn:Ep; [|by apply quiet_result..].
  destruct alt_chain as [|front rest] eqn:Ealt; [done|]. destruct (Himm front eq_refl) as [Hfork Hlt]. destruct Hq as (Hok & Eb & Ec & Hi).
  assert (keeps_disconnected_chain (major_version b) num_alt num_main = false) as ->.
  { unfold keeps_disconnected_chain. by rewrite (proj2 (Z.leb_le _ _) Hv). }
  pose proof (switch_step now push_alt (front :: rest) front rest bc' eq_refl Hok Hal Hstored Hfork Hlt) as Hs.
  destruct (switch_to_alternative_blockchain _ _ _ _ _ _ _ _ _ _ _) as [r bc''].
  destruct Hs as (Hok' & Hg & Hb).
  split_and!; [done|by etrans; [apply same_chain_grows|]| |].
  { cbn. intros h e Hh He. apply Hg; [lia|]. by rewrite Eb. }
  cbn [fst snd]. destruct (decide (r = Some true)) as [->|Hr]; [left|right].
  2: { split; [by destruct r as [[]|]|]. right. destruct Hb as (es & ds & E1 & Ehead & Hput). exists es, ds. rewrite <- Eb. split_and!; [done|lia|done]. }
  split; [done|]. destruct Hb as (es & ds & new & E1 & E2 & E3 & Ehead). change (ad_height front = chain_height es) in Ehead.
  unfold alt_chain_preferred in Ep. destruct (_ && _ && _); [done|]. injection Ep as Ep.
  exists es, ds, new, (front :: rest). do 2 eexists. split_and!; [by rewrite <- Eb|done|done|by rewrite E3|lia|].
  change (default 0 (ad_height <$> head (front :: rest))) with (ad_height front) in Ep. rewrite Ehead, E1 in Ep. unfold blocks_of, chain_height in Ep. rewrite fmap_app, Nat2Z.id, drop_app_length' in Ep by (by rewrite length_fmap).
  rewrite E3, <- Hna. erewrite count_if_ext; [rewrite <- Hnm; exact Ep|]. intros a. by apply against_same.
Qed.

Lemma chain_stored_snoc (bc bc' : chain) alt_chain a :
  m_alt_blocks bc' = <[alt_hash a := a]> (m_alt_blocks bc) -> ~ is_Some (m_alt_blocks bc !! alt_hash a) ->
  chain_stored alt_chain bc -> chain_stored (alt_chain ++ [a]) bc'.
Proof using All.
  intros E Hnew [Hnd Hin]. split.
  - rewrite fmap_app. apply NoDup_app. split_and!; [done| |apply NoDup_singleton].
    intros id (y & -> & Hy)%list_elem_of_fmap Hid%list_elem_of_singleton. rewrite Forall_forall in Hin. apply Hnew. rewrite <- Hid. by apply Hin.
  - rewrite E. apply Forall_app. split.
    + eapply Forall_impl; [exact Hin|]. cbn. intros y [z Hz]. rewrite lookup_insert. case_decide; by eexists.
    + constructor; [|done]. rewrite lookup_insert_eq. by eexists.
Qed.

(** The block says its height, as far as the main chain can tell: the code does not compare them. *)
Definition says_height (b : block) (bc : chain) : Prop :=
  forall p e, m_blocks bc !! p = Some e -> b_hash (e_block e) = b_prev_id b -> b_height b = Z.of_nat p + 1.

Lemma alternative_step fuel now b x (bc : chain) :
  node_ok bc -> incoming b x -> hf16_pulse <= major_version b -> says_height b bc -> alt_result now b bc (add_alternative fuel now b x bc).
Proof using All.
  intros Hok Hx Hv Hsays. destruct fuel as [|fuel]; cbn [handle_alternative_block].
  { apply quiet_result; [by apply quiet_refl|done]. }
  pose proof (quiet_refl bc Hok) as Hq.
  destruct (_ || _); cbn [negb]; [|by apply quiet_result].
  pose proof (basic_alt_ok now b bc Hok) as H1. destruct (basic_alt_checks _ _ _ _ _ _ _ _ _) as [ok bc1].
  destruct H1 as (Hq1 & Ea1 & Hall). destruct ok; cbn [negb]; [|by apply quiet_result]. destruct (Hall eq_refl) as [Hf1 Hlt1].
  pose proof (build_ok (b_prev_id b) bc1 ltac:(apply Hq1)) as H2. destruct (build_alt_chain (b_prev_id b) bc1) as [r bc2].
  destruct H2 as [Hq2 Hr]. pose proof (quiet_trans _ _ _ Hq1 Hq2) as Hq12.
  destruct r as [|bvc|alt_chain timestamps num_alt num_main]; [by apply quiet_result| |].
  { apply quiet_result; [done|]. by destruct bvc. }
  destruct Hr as [(Hal & Hstored & Hna & Hnm & Himm) Hnil].
  destruct (_ <? median _); [by apply quiet_result|]. destruct (sub_work _ _ _ _) as [diff|]; [|by apply quiet_result].
  case_bool_decide as Hnew; [by apply quiet_result|]. destruct (_ && _); [by apply quiet_result|].
  set (alt_data := AltBlock b _ _ x). set (bc3 := with_alts bc2 _).
  assert (alt_ok alt_data) as Hdata by done.
  assert (node_ok bc3) as Hok3.
  { destruct Hq2 as [[Hc2 Hg2 Ha2] _]. split; [done..|]. by apply map_Forall_insert_2. }
  assert (quiet bc bc3) as Hq3 by (destruct Hq12 as [_ H]; split; [done|exact H]).
  destruct (fails_hardcoded _ _ _); [by apply quiet_result|]. cbv zeta.
  destruct (sub_alt b x (m_subsystems bc3)) as [ok s]. set (bc4 := with_subsystems bc3 s).
  assert (quiet bc bc4) as Hq4.
  { destruct Hq3 as [[Hc3 Hg3 Ha3] H]. split; [by split|exact H]. }
  destruct ok; cbn [negb]; [|by apply quiet_result].
  apply decide_result.
  - done.
  - done.
  - destruct Hq2 as (_ & _ & _ & Hi2). unfold immutable in *. cbn. lia.
  - split_and!.
    + apply Forall_app. by split; [|constructor].
    + by apply (chain_stored_snoc bc2).
    + rewrite count_if_app, <- Hna. unfold count_if. cbn. destruct (is_checkpointed alt_data); cbn; lia.
    + rewrite count_if_app. change (m_checkpoints bc4) with (m_checkpoints bc2). rewrite <- Hnm. unfold count_if. cbn.
      change (m_checkpoints bc3) with (m_checkpoints bc2). destruct (against_checkpoint _ alt_data); cbn; lia.
    + intros front. change (immutable bc4) with (immutable bc2). unfold forks_at. change (m_blocks bc4) with (m_blocks bc2).
      destruct alt_chain as [|front' rest]; [|by intros [= <-]; apply (Himm front')].
      intros [= <-]. destruct (Hnil eq_refl) as (Himm' & p & e & Hp & He). destruct Hq1 as (_ & E1 & _). destruct Hq2 as (_ & E2 & _).
      split; [|rewrite Himm'; exact Hlt1]. exists p, e. rewrite E2. split_and!; [done|done|]. cbn. apply (Hsays p e); [by rewrite <- E1|done].
  - rewrite fmap_app. cbn. by rewrite last_snoc.
Qed.

(** From pulse on the old chain is not kept, so that one round of fuel is enough. *)
Lemma pulse_fuel fuel now b x (bc : chain) :
  hf16_pulse <= major_version b -> add_alternative (Datatypes.S fuel) now b x bc = add_alternative 1 now b x bc.
Proof using All.
  intros Hv. cbn [handle_alternative_block]. assert (forall m n, keeps_disconnected_chain (major_version b) m n = false) as Hkeep.
  { intros m n. unfold keeps_disconnected_chain. by rewrite (proj2 (Z.leb_le _ _) Hv). }
  destruct (_ || _); [|done]. destruct (basic_alt_checks _ _ _ _ _ _ _ _ _) as [[] bc1]; [|done].
  destruct (build_alt_chain _ bc1) as [[|bvc|alt_chain timestamps num_alt num_main] bc2]; [done..|].
  destruct (_ <? _); [done|]. destruct (sub_work _ _ _ _); [|done]. destruct (bool_decide _); [done|].
  destruct (_ && _); [done|]. destruct (fails_hardcoded _ _ _); [done|]. destruct (sub_alt _ _ _) as [[] s]; [|done]. cbn [negb].
  destruct (alt_chain_preferred _ _ _ _ _) as [[]|]; [|done..]. rewrite !Hkeep. unfold switch_to_alternative_blockchain.
  destruct (alt_chain ++ _); [done|]. destruct (negb _); [done|]. destruct (pop_until _ _ _ _). by destruct (connect _ _ _) as [[|[]] ?].
Qed.

(** ** Runs of a node *)

#[local] Abbreviation add_new_block := (Reorg.add_new_block fk nettype conf m_max_sync_height minor_version
  prevalidate_block_rewards).

(** A block that arrives.  One beside the main chain is of a version with pulse and, if it leaves the
    main chain, says its height there. *)
Definition offered (b : block) (x : option checkpoint_t) (bc : chain) : Prop :=
  incoming b x /\ (b_prev_id b <> top_hash (m_blocks bc) -> hf16_pulse <= major_version b /\ says_height b bc).

Lemma new_block_step fuel now b x (bc : chain) :
  node_ok bc -> offered b x bc ->
  let '(o, bc') := add_new_block fuel now b x bc in
  node_ok bc' /\ grows bc bc' /\ keeps (final_height bc) bc bc' /\
  (o = Returned true added /\ ((exists e, e_block e = b /\ m_blocks bc' = m_blocks bc ++ [e]) \/ replaced b bc bc') \/
   o <> Returned true added /\ left_alone now bc bc').
Proof using All.
  intros Hok [Hx Hside]. unfold Reorg.add_new_block. destruct (have_block _ _).
  { split_and!; [done|done|by intros h e|right; split; [done|by left]]. }
  assert (incoming b (better_checkpoint b x bc)) as Hx'.
  { destruct Hx as [Ht Hx]. split; [done|]. unfold better_checkpoint. destruct x as [x|]; [|done]. destruct (get_checkpoint _ _); [|done]. by destruct (_ <? _)%nat. }
  case_bool_decide as Ep.
  - pose proof (main_step now b (better_checkpoint b x bc) bc Hok Hx') as Hm. destruct (add_main _ _ _ bc) as [ok bc'].
    destruct Hm as (Hok' & [_ Hi] & Hb).
    assert (exists es, m_blocks bc' = m_blocks bc ++ es) as [es Hes].
    { destruct ok; [destruct Hb as (e & _ & _ & Hb); by exists [e]|exists []; by rewrite app_nil_r]. }
    assert (forall upto, keeps upto bc bc') as Hkeep by (intros upto h e _ He; rewrite Hes; by apply lookup_app_l_Some).
    split_and!; [done|by split; [rewrite Hi|]|done|]. destruct ok; [left|right; split; [done|by left]]. split; [done|]. left.
    destruct Hb as (e & He & _ & Hb). by exists e.
  - destruct (Hside Ep) as [Hv Hsays].
    pose proof (alternative_step fuel now b (better_checkpoint b x bc) bc Hok Hx' Hv Hsays) as Ha.
    destruct (add_alternative _ _ _ _ bc) as [o bc']. destruct Ha as (Hok' & Hg & Hk & Hr). split_and!; [done..|].
    destruct Hr as [[? ?]|?]; [left; by split; [|right]|by right].
Qed.

(** A node with the genesis block and its checkpoint. *)
Definition genesis_node (g : entry) (s : Sub) : chain :=
  Blockchain [g] ∅ ∅ (Checkpoints (update_block_checkpoint (Checkpoint hardcoded 0 (b_hash (e_block g)) []) ∅) 0 0) s.

(** Blocks arrive, at any time of the clock, checkpoints are made of votes, and the subsystems change
    by themselves. *)
Inductive node_step : chain -> chain -> Prop :=
| step_block now fuel b x bc : offered b x bc -> node_step bc (add_new_block fuel now b x bc).2
| step_votes x bc : 0 <= cp_height x -> node_step bc (with_checkpoints bc (update_checkpoint false x (m_checkpoints bc)))
| step_subsystems s bc : node_step bc (with_subsystems bc s).

Lemma genesis_ok g s : node_ok (genesis_node g s).
Proof using All.
  split; cbn [genesis_node m_blocks m_checkpoints m_alt_blocks c_db].
  - apply chain_ok_genesis.
  - split; [by apply map_Forall_insert_2|]. unfold update_block_checkpoint. by rewrite lookup_insert_eq.
  - done.
Qed.

Lemma step_ok bc bc' : node_step bc bc' -> node_ok bc -> node_ok bc' /\ grows bc bc'.
Proof using All.
  intros [now fuel b x bc0 Hx|x bc0 Hpos|s bc0] Hok.
  - pose proof (new_block_step fuel now b x bc0 Hok Hx) as H.
    destruct (add_new_block fuel now b x bc0) as [o bc1]. by destruct H as (? & ? & _).
  - destruct Hok as [Hc Hg Ha]. split; [|apply same_chain_grows; [unfold immutable; cbn; lia|done]].
    split; [done| |done]. cbn. by apply genesis_update.
  - destruct Hok as [Hc Hg Ha]. split; [by split|]. by apply same_chain_grows.
Qed.

Lemma run_ok bc bc' : rtc node_step bc bc' -> node_ok bc -> node_ok bc' /\ grows bc bc'.
Proof using All.
  induction 1 as [bc|bc1 bc2 bc3 Hstep _ IH]; intros Hok; [done|].
  destruct (step_ok _ _ Hstep Hok) as [Hok2 Hg2]. destruct (IH Hok2) as [Hok3 Hg3]. split; [done|]. by etrans.
Qed.

(** Blocks may also be taken off for a blink. *)
#[local] Abbreviation rollback_for_blinks := (Reorg.rollback_for_blinks fk nettype conf m_max_sync_height minor_version
  prevalidate_block_rewards).
Inductive any_step : chain -> chain -> Prop :=
| any_node bc bc' : node_step bc bc' -> any_step bc bc'
| any_blink now requested bc : any_step bc (rollback_for_blinks now requested bc).

Lemma blink_ok now requested (bc : chain) :
  node_ok bc ->
  node_ok (rollback_for_blinks now requested bc) /\
  keeps (immutable_height (height bc) (m_checkpoints bc)) bc (rollback_for_blinks now requested bc).
Proof using All.
  intros Hok. unfold Reorg.rollback_for_blinks. destruct (Z.ltb_spec 0 requested) as [Hpos|]; [|split; [done|by intros h e]].
  set (final := immutable_height _ _). set (h := if requested <=? final then final + 1 else requested).
  assert (0 < h /\ final < h) as [Hh Hf] by (unfold h; destruct (Z.leb_spec requested final); lia). clearbody h final.
  destruct (Z.ltb_spec h (height bc)) as [Hlt|]; [|split; [done|by intros ? e]]. unfold height, chain_height in Hlt.
  assert (length (take (Z.to_nat h) (m_blocks bc)) = Z.to_nat h) as El by (rewrite length_take; lia).
  pose proof (rollback_spec now (m_checkpoints bc) (take (Z.to_nat h) (m_blocks bc)) [] bc Hok) as Hr. cbv zeta in Hr. rewrite El in Hr.
  destruct Hr as (Hok' & _ & es' & E & _).
  - intros E. rewrite E in El. cbn in El. lia.
  - exists (drop (Z.to_nat h) (m_blocks bc)). by rewrite take_drop.
  - constructor.
  - split; [exact Hok'|]. unfold blink_rollback.
    eapply fork_kept; [symmetry; apply (take_drop (Z.to_nat h))|exact E|]. unfold chain_height. rewrite El. lia.
Qed.

Lemma any_run_ok bc bc' : rtc any_step bc bc' -> node_ok bc -> node_ok bc'.
Proof using All.
  induction 1 as [bc|bc1 bc2 bc3 Hstep _ IH]; intros Hok; [done|]. apply IH.
  destruct Hstep as [bc1 bc2 Hs|now requested bc]; [by apply (step_ok bc1 bc2)|by apply blink_ok].
Qed.


(** (C2) Final blocks are permanent, whatever the subsystems say and do.  After every run of blocks,
    checkpoints, blinks and changes of the subsystems from the genesis block: as long as only
    blocks, checkpoints and changes of the subsystems follow, the height that was found final
    only rises and no block at or below it is replaced or taken off; already the next block can
    not replace one up to a checkpoint that has another one above it; and a rollback for a blink
    takes off no block up to the one that the checkpoints then show as final, which can be
    earlier than the one found final before ([blink_forgets_final]).  The blocks of the runs are
    [offered] ones: one beside the main chain is of [hf16_pulse] or later and, if it leaves the
    main chain, says its true height ([false_height_below_final] shows why).  Not part of the
    runs is the operator's command to pop blocks, which asks no checkpoint. *)
Theorem final_blocks_permanent g s bc bc' :
  rtc any_step (genesis_node g s) bc -> rtc node_step bc bc' ->
  immutable bc <= immutable bc' /\ keeps (immutable bc) bc bc' /\
  (forall now requested, keeps (immutable_height (height bc) (m_checkpoints bc)) bc (rollback_for_blinks now requested bc)) /\
  (forall lower upper fuel now b x,
     is_Some (get_checkpoint lower (m_checkpoints bc)) -> is_Some (get_checkpoint upper (m_checkpoints bc)) ->
     lower < upper <= height bc -> offered b x bc ->
     keeps lower bc (add_new_block fuel now b x bc).2).
Proof using All.
  intros Hrun Hrun'. pose proof (any_run_ok _ _ Hrun (genesis_ok g s)) as Hok.
  destruct (run_ok _ _ Hrun' Hok) as [_ [Hi Hk]]. split_and!; [done|done|intros; by apply blink_ok|].
  intros lower upper fuel now b x Hl Hu Hlt Hx.
  pose proof (new_block_step fuel now b x bc Hok Hx) as H.
  destruct (add_new_block fuel now b x bc) as [o bc1]. destruct H as (_ & _ & Hkeep & _).
  intros h e Hh He. apply Hkeep; [|done]. pose proof Hok as [Hc Hg _]. pose proof (chain_height_pos _ Hc).
  destruct (immutable_above _ (height bc) lower upper Hg ltac:(unfold height; lia) Hl Hu Hlt) as (y & Ey & Hy).
  unfold final_height, immutable_height. rewrite Ey. cbn. lia.
Qed.
End Switching.

(** ** Witnesses

    Subsystems that refuse a block with the nonce 666 and from then on one with the nonce 7. *)
#[local] Instance demo_subsystems : Subsystems bool := {
  sub_contents _ _ s := (ContentsAccepted 1, s);
  sub_work _ _ _ _ := Some 1;
  sub_add b _ s := if b_nonce b =? 666 then (false, true) else if (b_nonce b =? 7) && s then (false, s) else (true, s);
  sub_pop b s := s;
  sub_detach _ bs s := s;
  sub_alt b x s := (true, s);
}.

Definition demo_rank (id : bytes) : nat := Z.to_nat (default 0 (head id)).
Definition demo_forks : list hard_fork := [HardFork hf22_sn_policy 0 0 0].
Definition demo_add (b : block) (bc : blockchain bool) : outcome * blockchain bool :=
  add_new_block demo_forks FAKECHAIN fakechain_config 0 (fun _ => 0) (fun _ _ _ => true) 1 0 b None bc.

Definition demo_block (h id prev nonce : Z) (p : pulse_header) : block :=
  Block hf22_sn_policy h 0 [id] [prev] nonce p [] [] [] 0 0.
Definition demo_pulse : pulse_header := PulseHeader (replicate 16 1) 0 2047.

(** Two mined blocks on the genesis block; a pulse block beside them wins, a bad one does not. *)
Definition demo_genesis_node : blockchain bool := genesis_node (Entry (demo_block 0 0 0 0 no_pulse) 1) false.
Definition demo_next (n : nat) : block := demo_block (Z.of_nat n + 1) (Z.of_nat n + 1) (Z.of_nat n) 0 no_pulse.
Fixpoint demo_chain (n : nat) : blockchain bool :=
  match n with
  | O => demo_genesis_node
  | S n => (demo_add (demo_next n) (demo_chain n)).2
  end.
(** Ten blocks, with checkpoints of service nodes at 4 and 8. *)
Definition demo_vote (h : Z) (bc : blockchain bool) : blockchain bool :=
  with_checkpoints bc (update_checkpoint false (Checkpoint service_node h [h] [QuorumSignature 0 []]) (m_checkpoints bc)).
Definition demo_final : blockchain bool := demo_vote 8 (demo_vote 4 (demo_chain 9)).

#[local] Abbreviation demo_step := (any_step demo_forks FAKECHAIN fakechain_config 0 (fun _ => 0) (fun _ _ _ => true) demo_rank).
#[local] Abbreviation demo_offered := (offered demo_rank).

Lemma demo_typed h id prev nonce p : is_u64 h -> 0 <= prev < id -> typed demo_rank (demo_block h id prev nonce p).
Proof. intros Hh Hid. split; [done|]. unfold linked, demo_rank. cbn. lia. Qed.

Lemma demo_top n : (n < 10)%nat -> top_hash (m_blocks (demo_chain n)) = [Z.of_nat n].
Proof. intros Hn. do 10 (destruct n as [|n]; [by vm_compute|]). lia. Qed.

Lemma demo_run n : (n < 10)%nat -> rtc demo_step demo_genesis_node (demo_chain n).
Proof.
  induction n as [|n IH]; [done|]. intros Hn. eapply rtc_r; [by apply IH; lia|].
  apply any_node. apply (step_block demo_forks FAKECHAIN fakechain_config 0 (fun _ => 0) (fun _ _ _ => true) demo_rank 0 1 (demo_next n) None (demo_chain n)).
  split; [split; [|done]|].
  - apply demo_typed; [unfold is_u64; lia|lia].
  - rewrite demo_top by lia. by intros [].
Qed.

Lemma demo_final_run : rtc demo_step demo_genesis_node demo_final.
Proof.
  assert (forall h bc, 0 <= h -> demo_step bc (demo_vote h bc)) as Hv.
  { intros h bc Hh. apply any_node. exact (step_votes demo_forks FAKECHAIN fakechain_config 0 (fun _ => 0) (fun _ _ _ => true) demo_rank
      (Checkpoint service_node h [h] [QuorumSignature 0 []]) bc Hh). }
  unfold demo_final. eapply rtc_r; [eapply rtc_r; [apply (demo_run 9); lia|]|]; apply Hv; lia.
Qed.



Lemma final_blocks_permanent_witness :
  let fork := demo_block 4 44 3 0 demo_pulse in
  length (m_blocks demo_final) = 10%nat /\ (demo_add fork demo_final).1 = Returned false failed /\
  immutable (demo_add fork demo_final).2 = 4 /\ keeps 4 demo_final (demo_add fork demo_final).2.
Proof.
  cbv zeta. split; [by vm_compute|]. split; [by vm_compute|]. split; [by vm_compute|].
  destruct (final_blocks_permanent demo_forks FAKECHAIN fakechain_config 0 (fun _ => 0) (fun _ _ _ => true) demo_rank
    (Entry (demo_block 0 0 0 0 no_pulse) 1) false demo_final demo_final demo_final_run ltac:(apply rtc_refl)) as (_ & _ & _ & H).
  apply (H 4 8 1%nat 0 (demo_block 4 44 3 0 demo_pulse) None); [by vm_compute; eexists|by vm_compute; eexists|by vm_compute|].
  split; [split; [apply demo_typed; [by unfold is_u64|lia]|done]|]. intros _. split; [by vm_compute|].
  intros p e Hp He. do 10 (destruct p as [|p]; [vm_compute in Hp; injection Hp as <-; vm_compute in He; first [discriminate He|done]|]).
  vm_compute in Hp. discriminate Hp.
Defined.

(** ** Where the code falls short *)

(** A failed switch whose rollback is refused as well: the block of nonce 7 is gone, the call reports
    a failed block as always. *)
Lemma rollback_loses_blocks :
  let bc := (demo_add (demo_block 2 2 1 7 no_pulse) (demo_chain 1)).2 in
  let bad := demo_block 1 12 0 666 demo_pulse in
  length (m_blocks bc) = 3%nat /\ (demo_add bad bc).1 = Returned false failed /\ length (m_blocks (demo_add bad bc).2) = 2%nat.
Proof. by vm_compute. Qed.

(** Two rollbacks for blinks, each no further than the checkpoints show as final: the first drops the
    checkpoint that made the block at 4 final, and the second takes that block off. *)
Lemma blink_forgets_final :
  let asked := (demo_add (demo_block 4 44 3 0 demo_pulse) demo_final).2 in
  let roll := Reorg.rollback_for_blinks demo_forks FAKECHAIN fakechain_config 0 (fun _ => 0) (fun _ _ _ => true) 0 in
  immutable asked = 4 /\ length (m_blocks (roll 5 asked)) = 5%nat /\ length (m_blocks (roll 1 (roll 5 asked))) = 1%nat.
Proof. by vm_compute. Qed.

(** A block that says another height than that of its place can leave the main chain below the final
    height. *)
Lemma false_height_below_final :
  let liar := demo_block 9 44 3 0 demo_pulse in
  let bc := (demo_add liar demo_final).2 in
  final_height demo_final = 4 /\ (demo_add liar demo_final).1 = Returned true added /\
  (b_hash ∘ e_block <$> m_blocks bc !! 4%nat) = Some [44].
Proof. by vm_compute. Qed.

(** After a failed switch the hash of the refused block is removed once more for each block behind it,
    which throws at the first: the others are neither marked as invalid nor removed. *)
Lemma refused_chain_throws {Sub : Type} (refused : block) x rest (bc : blockchain Sub) :
  is_Some (m_alt_blocks bc !! b_hash refused) ->
  let '(r, bc') := refuse_switch refused (x :: rest) bc in
  r = None /\ m_alt_blocks bc' = delete (b_hash refused) (m_alt_blocks bc) /\
  m_invalid_blocks bc' = {[b_hash x.1]} ∪ ({[b_hash refused]} ∪ m_invalid_blocks bc).
Proof.
  intros Hin. unfold refuse_switch, remove_alt_block. rewrite bool_decide_eq_true_2 by done. cbn [orphan_rest].
  unfold remove_alt_block. rewrite bool_decide_eq_false_2; [done|]. cbn. rewrite lookup_delete_eq. by intros [? ?].
Qed.

(** A chain that starts above the main chain is never refused and cleaned up: asking for the block
    below its start throws first. *)
Lemma cleanup_unreachable {Sub : Type} (front : alt_block_data) (bc : blockchain Sub) :
  height bc < ad_height front < 2 ^ 64 -> alt_chain_connects front bc = None.
Proof.
  unfold height, chain_height. intros Hh. unfold alt_chain_connects. rewrite u64_small by (unfold is_u64; lia).
  by rewrite (proj2 (lookup_ge_None _ _)) by lia.
Qed.

(** A block on top of the chain that the subsystems refuse costs the node the checkpoint of its
    height, though the block agreed with it. *)
Lemma refused_block_drops_checkpoint :
  let bc := demo_vote 4 (demo_chain 3) in
  let bad := demo_block 4 4 3 666 no_pulse in
  is_Some (get_checkpoint 4 (m_checkpoints bc)) /\ (demo_add bad bc).1 = Returned false failed /\
  get_checkpoint 4 (m_checkpoints (demo_add bad bc).2) = None.
Proof. cbv zeta. split; [by vm_compute; eexists|]. by vm_compute. Qed.

(** A stored checkpoint that the newest alternative block fits is not counted for its chain, only
    once another block follows. *)
Lemma fitting_checkpoint_not_counted :
  let bc := with_checkpoints (demo_chain 6)
    (update_checkpoint false (Checkpoint service_node 4 [44] [QuorumSignature 0 []]) (m_checkpoints (demo_chain 6))) in
  let one := demo_add (demo_block 4 44 3 0 no_pulse) bc in
  one.1 = Returned true no_verdict /\ m_blocks one.2 = m_blocks bc /\
  (demo_add (demo_block 5 55 44 0 no_pulse) one.2).1 = Returned true added.
Proof. by vm_compute. Qed.
