(* ===== verification/Blink.v ===== *)
(** * Blink transactions

    [cryptonote_core/tx_blink.cpp] with its header: the signatures that two quorums of service nodes
    give a transaction before it is in a block, when they approve or reject it, and the form in which
    they are sent on; and how a node takes them in ([parse_incoming_blinks] and [add_blinks] of
    [cryptonote_core.cpp], [add_existing_blink] of [tx_pool.cpp]).  Locks are left out. *)
From stdpp Require Import gmap.
From S2P Require Import Prelude Hardfork Rules Voting.
#[local] Open Scope Z_scope.

(** ** Data *)

Inductive signature_status := sig_none | sig_rejected | sig_approved.
#[global] Instance signature_status_eq_dec : EqDecision signature_status.
Proof. solve_decision. Defined.

Record quorum_signature := BlinkSignature {
  bs_status : signature_status;
  bs_sig : bytes;
}.

(** The transaction is kept by its hash; a row of signatures for each subquorum. *)
Record blink_tx := BlinkTx {
  bl_height : Z;
  bl_txhash : bytes;
  signatures_ : list (list quorum_signature);
}.

(** [enum_count<subquorum>]: [base] is 0, [future] is 1. *)
Definition subquorum_count : Z := 2.

(** The signature of an empty slot is never read. *)
Definition empty_slot : quorum_signature := BlinkSignature sig_none [].
Definition new_blink (height : Z) (txhash : bytes) : blink_tx :=
  BlinkTx height txhash (replicate (Z.to_nat subquorum_count) (replicate (Z.to_nat BLINK_SUBQUORUM_SIZE) empty_slot)).

Record serializable_blink_metadata := BlinkMetadata {
  bm_tx_hash : bytes;
  bm_height : Z;
  bm_quorum : list Z;
  bm_position : list Z;
  bm_signature : list bytes;
}.

Inductive blink_error := invalid_argument | domain_error | signature_verification_error | out_of_range.

(** ** Operations *)

(** In 64 bits; a height that wraps around is before the first quorum. *)
Definition blink_quorum_height (h q : Z) : Z :=
  let bh := u64 (h - h mod BLINK_QUORUM_INTERVAL - BLINK_QUORUM_LAG + q * BLINK_QUORUM_INTERVAL) in
  if h <? bh then 0 else bh.

Definition check_args (q position : Z) : bool :=
  (0 <=? q) && (q <? subquorum_count) && (0 <=? position) && (position <? BLINK_SUBQUORUM_SIZE).

Definition slot_at (b : blink_tx) (q position : Z) : option quorum_signature :=
  row ← signatures_ b !! Z.to_nat q; row !! Z.to_nat position.
Definition with_slot (b : blink_tx) (q position : Z) (s : quorum_signature) : blink_tx :=
  BlinkTx (bl_height b) (bl_txhash b) (alter (fun row => <[Z.to_nat position := s]> row) (Z.to_nat q) (signatures_ b)).

(** Slots that the subquorum is too small for count as rejected. *)
Definition limit_signatures (q : Z) (max_size : nat) (b : blink_tx) : blink_error + blink_tx :=
  if BLINK_SUBQUORUM_SIZE <? Z.of_nat max_size then inl domain_error
  else inr (BlinkTx (bl_height b) (bl_txhash b)
              (alter (imap (fun i s => if (max_size <=? i)%nat then BlinkSignature sig_rejected (bs_sig s) else s)) (Z.to_nat q) (signatures_ b))).

Definition add_prechecked_signature (q position : Z) (approved : bool) (sig : bytes) (b : blink_tx) : blink_error + (bool * blink_tx) :=
  if negb (check_args q position) then inl invalid_argument
  else
    match slot_at b q position with
    | Some (BlinkSignature sig_none _) =>
        inr (true, with_slot b q position (BlinkSignature (if approved then sig_approved else sig_rejected) sig))
    | _ => inr (false, b)
    end.

Definition get_signature_status (q position : Z) (b : blink_tx) : blink_error + signature_status :=
  if negb (check_args q position) then inl invalid_argument
  else inr (from_option bs_status sig_none (slot_at b q position)).

Definition sig_count (row : list quorum_signature) (status : signature_status) : Z :=
  Z.of_nat (length (filter (fun s => bs_status s = status) row)).
Definition approved (b : blink_tx) : bool :=
  forallb (fun row => BLINK_MIN_VOTES <=? sig_count row sig_approved) (signatures_ b).
Definition rejected (b : blink_tx) : bool :=
  existsb (fun row => BLINK_SUBQUORUM_SIZE - BLINK_MIN_VOTES <? sig_count row sig_rejected) (signatures_ b).

(** The approvals, subquorum by subquorum. *)
Definition row_entries (q : nat) (row : list quorum_signature) : list (Z * Z * bytes) :=
  omap (fun p =>
          s ← row !! p;
          if decide (bs_status s = sig_approved) then Some (Z.of_nat q, Z.of_nat p, bs_sig s) else None)
    (seq 0 (length row)).
Definition approval_entries (b : blink_tx) : list (Z * Z * bytes) := mjoin (imap row_entries (signatures_ b)).
Definition fill_serialization_data (b : blink_tx) : serializable_blink_metadata :=
  let es := approval_entries b in
  BlinkMetadata (bl_txhash b) (bl_height b) ((fun e => e.1.1) <$> es) ((fun e => e.1.2) <$> es) ((fun e => e.2) <$> es).

Section Blink.
Context (cn_fast_hash : bytes -> bytes) (check_signature : bytes -> bytes -> bytes -> bool).
(** The validators of the blink quorum of a height. *)
Context (get_quorum : Z -> option (list bytes)).

Definition blink_hash (approved : bool) (b : blink_tx) : bytes :=
  cn_fast_hash (store_le 8 (bl_height b) ++ bl_txhash b ++ [b2z approved]).

Definition null_public_key : bytes := replicate 32 0.
Definition get_sn_pubkey (q position : Z) (b : blink_tx) : blink_error + bytes :=
  if negb (check_args q position) then inl invalid_argument
  else
    inr match get_quorum (blink_quorum_height (bl_height b) q) with
        | Some validators => default null_public_key (validators !! Z.to_nat position)
        | None => null_public_key
        end.

Definition add_signature (q position : Z) (approved : bool) (sig pubkey : bytes) (b : blink_tx) : blink_error + (bool * blink_tx) :=
  if negb (check_args q position) then inl invalid_argument
  else if negb (check_signature (blink_hash approved b) pubkey sig) then inl signature_verification_error
  else add_prechecked_signature q position approved sig b.

(** The overload that looks the key up. *)
Definition add_signature_snl (q position : Z) (approved : bool) (sig : bytes) (b : blink_tx) : blink_error + (bool * blink_tx) :=
  match get_sn_pubkey q position b with
  | inl e => inl e
  | inr pubkey => add_signature q position approved sig pubkey b
  end.

(** ** Taking in what peers send *)

Definition malformed (bdata : serializable_blink_metadata) : bool :=
  let n := length (bm_signature bdata) in
  negb (n =? length (bm_position bdata))%nat || negb (n =? length (bm_quorum bdata))%nat ||
  (Z.of_nat n <? BLINK_MIN_VOTES * subquorum_count) || (BLINK_SUBQUORUM_SIZE * subquorum_count <? Z.of_nat n) ||
  (blink_quorum_height (bm_height bdata) 0 =? 0) ||
  existsb (fun p => BLINK_SUBQUORUM_SIZE <=? p) (bm_position bdata) || existsb (fun q => subquorum_count <=? q) (bm_quorum bdata).

(** One signature; failures are only logged. *)
Definition take_signature (validators : list (list bytes)) (b : blink_tx) (e : Z * Z * bytes) : blink_tx :=
  let '(q, position, sig) := e in
  match row ← validators !! Z.to_nat q; row !! Z.to_nat position with
  | None => b
  | Some pubkey =>
      match add_signature q position true sig pubkey b with
      | inl _ => b
      | inr (_, b) => b
      end
  end.

Definition metadata_entries (bdata : serializable_blink_metadata) : list (Z * Z * bytes) :=
  zip (zip (bm_quorum bdata) (bm_position bdata)) (bm_signature bdata).

Definition parse_blink (bdata : serializable_blink_metadata) : blink_tx :=
  let b := new_blink (bm_height bdata) (bm_tx_hash bdata) in
  if malformed bdata then b
  else
    match mapM (fun q => get_quorum (blink_quorum_height (bm_height bdata) q)) [0; 1] with
    | None => b
    | Some validators => foldl (take_signature validators) b (metadata_entries bdata)
    end.

(** [tx_height] is 0 for a transaction that is in no block.  The second component is never filled. *)
Definition parse_incoming_blinks (network_version : hf) (tx_height : bytes -> Z) (immutable_height : Z)
    (pool : gmap bytes blink_tx) (blinks : list serializable_blink_metadata) : list blink_tx * list bytes :=
  if network_version <? feature_BLINK then ([], [])
  else
    let mutable bdata := let h := tx_height (bm_tx_hash bdata) in (h =? 0) || (immutable_height <? h) in
    let missing bdata := bool_decide (pool !! bm_tx_hash bdata = None) in
    (parse_blink <$> List.filter (fun bdata => mutable bdata && missing bdata) blinks, []).

End Blink.

(** The pool keeps the first blink of a transaction. *)
Definition add_existing_blink (b : blink_tx) (pool : gmap bytes blink_tx) : bool * gmap bytes blink_tx :=
  match pool !! bl_txhash b with
  | Some _ => (false, pool)
  | None => (true, <[bl_txhash b := b]> pool)
  end.
Definition add_blink (acc : Z * gmap bytes blink_tx) (b : blink_tx) : Z * gmap bytes blink_tx :=
  if approved b then
    let '(ok, pool) := add_existing_blink b acc.2 in ((if ok then acc.1 + 1 else acc.1), pool)
  else acc.
Definition add_blinks (blinks : list blink_tx) (pool : gmap bytes blink_tx) : Z * gmap bytes blink_tx :=
  foldl add_blink (0, pool) blinks.

(** ** Shape and heights *)

Definition blink_ok (b : blink_tx) : Prop :=
  length (signatures_ b) = Z.to_nat subquorum_count /\ Forall (fun row => length row = Z.to_nat BLINK_SUBQUORUM_SIZE) (signatures_ b).

Lemma quorum_height_exact h q :
  is_u64 h -> 0 <= q < subquorum_count ->
  blink_quorum_height h q = Z.max 0 (h - h mod BLINK_QUORUM_INTERVAL - BLINK_QUORUM_LAG + q * BLINK_QUORUM_INTERVAL).
Proof.
  unfold is_u64, blink_quorum_height, u64, subquorum_count, BLINK_QUORUM_LAG, BLINK_QUORUM_INTERVAL. intros Hh Hq.
  destruct (Z.ltb_spec h ((h - h mod 5 - 7 * 5 + q * 5) mod 18446744073709551616)); lia.
Qed.

Lemma check_args_spec q p : check_args q p = true <-> 0 <= q < subquorum_count /\ 0 <= p < BLINK_SUBQUORUM_SIZE.
Proof. unfold check_args. rewrite !andb_true_iff, !Z.leb_le, !Z.ltb_lt. lia. Qed.

Lemma new_blink_ok h t : blink_ok (new_blink h t).
Proof. split; [by vm_compute|]. by apply Forall_replicate. Qed.

Lemma with_slot_ok b q p s : blink_ok b -> blink_ok (with_slot b q p s).
Proof.
  intros [H1 H2]. split; cbn; [by rewrite length_alter|]. apply Forall_alter; [done|]. intros row _ Hr. by rewrite length_insert.
Qed.

Lemma slot_at_with_slot b q p s q' p' :
  0 <= q -> 0 <= p -> 0 <= q' -> 0 <= p' ->
  slot_at (with_slot b q p s) q' p' =
  if decide (q' = q /\ p' = p) then (fun _ => s) <$> slot_at b q' p' else slot_at b q' p'.
Proof.
  intros Hq Hp Hq' Hp'. unfold slot_at, with_slot. cbn. destruct (decide (q' = q)) as [->|Hne].
  - rewrite list_lookup_alter_eq. destruct (signatures_ b !! Z.to_nat q) as [row|]; cbn; [|by case_decide].
    destruct (decide (p' = p)) as [->|Hp2].
    + rewrite decide_True by done. destruct (row !! Z.to_nat p) as [x|] eqn:E; cbn.
      * rewrite list_lookup_insert_eq; [done|]. by apply lookup_lt_Some in E.
      * apply lookup_ge_None. rewrite length_insert. by apply lookup_ge_None.
    + rewrite decide_False by tauto. rewrite list_lookup_insert_ne by lia. done.
  - rewrite list_lookup_alter_ne by lia. rewrite decide_False by tauto. done.
Qed.

Lemma slot_at_some b q p : blink_ok b -> is_Some (slot_at b q p) <-> (Z.to_nat q < 2)%nat /\ (Z.to_nat p < 10)%nat.
Proof.
  intros [H1 H2]. unfold slot_at. change (Z.to_nat subquorum_count) with 2%nat in H1. change (Z.to_nat BLINK_SUBQUORUM_SIZE) with 10%nat in H2.
  destruct (signatures_ b !! Z.to_nat q) as [row|] eqn:Eq; cbn.
  - rewrite Forall_lookup in H2. specialize (H2 _ _ Eq). cbn in H2. rewrite lookup_lt_is_Some, H2. apply lookup_lt_Some in Eq. lia.
  - apply lookup_ge_None in Eq. split; [by intros [? ?]|lia].
Qed.

(** Two sets of signatures with the same slots are the same. *)
Lemma blink_ext b b' :
  blink_ok b -> blink_ok b' -> bl_height b = bl_height b' -> bl_txhash b = bl_txhash b' ->
  (forall q p, 0 <= q -> 0 <= p -> slot_at b q p = slot_at b' q p) -> b = b'.
Proof.
  intros [H1 H2] [H3 H4] Eh Et Hs. destruct b as [h t rows], b' as [h' t' rows']. cbn in *. subst. f_equal.
  apply list_eq_same_length with 2%nat; [done|done|]. intros q row row' Hq E E'.
  rewrite Forall_lookup in H2, H4. pose proof (H2 _ _ E) as L. pose proof (H4 _ _ E') as L'. cbn in L, L'.
  apply list_eq. intros p. specialize (Hs (Z.of_nat q) (Z.of_nat p) ltac:(lia) ltac:(lia)). unfold slot_at in Hs. cbn in Hs.
  by rewrite !Nat2Z.id, E, E' in Hs.
Qed.

(** ** Counting *)

Definition has_status (row : list quorum_signature) (status : signature_status) (p : nat) : Prop :=
  bs_status <$> row !! p = Some status.
#[global] Instance has_status_dec row status p : Decision (has_status row status p).
Proof. unfold has_status. apply _. Defined.
Definition positions (row : list quorum_signature) (status : signature_status) : list nat :=
  filter (has_status row status) (seq 0 (length row)).

Lemma positions_NoDup row status : NoDup (positions row status).
Proof. apply NoDup_filter, NoDup_seq. Qed.

Lemma filter_fmap_length {A B} (f : A -> B) (P : B -> Prop) (Q : A -> Prop) `{forall x, Decision (P x)} `{forall x, Decision (Q x)} l :
  (forall x, P (f x) <-> Q x) -> length (filter P (f <$> l)) = length (filter Q l).
Proof.
  intros HPQ. induction l as [|x l IH]; [done|]. rewrite fmap_cons, !filter_cons. specialize (HPQ x).
  repeat case_decide; cbn; rewrite ?IH; tauto || done.
Qed.

Lemma sig_count_positions row status : sig_count row status = Z.of_nat (length (positions row status)).
Proof.
  unfold sig_count, positions. f_equal. induction row as [|s row IH]; [done|]. cbn [length seq]. rewrite !filter_cons.
  assert (length (filter (has_status (s :: row) status) (seq 1 (length row))) = length (filter (has_status row status) (seq 0 (length row)))) as E.
  { rewrite <- fmap_S_seq. by apply filter_fmap_length. }
  assert (has_status (s :: row) status 0 <-> bs_status s = status) as Hs by (unfold has_status; cbn; split; [by intros [= ->]|by intros ->]).
  repeat case_decide; cbn; rewrite ?E, ?IH; tauto || done.
Qed.

(** A slot has one status, so that the counts of two share the row. *)
Lemma sig_counts_share row : sig_count row sig_approved + sig_count row sig_rejected <= Z.of_nat (length row).
Proof.
  unfold sig_count. induction row as [|s row IH]; [done|]. rewrite !filter_cons. repeat case_decide; cbn [length]; [congruence|lia..].
Qed.

Lemma approved_not_rejected b : blink_ok b -> approved b = true -> rejected b = false.
Proof.
  intros [_ Hl] Ha. apply not_true_iff_false. unfold rejected. intros (row & Hrow & Hr)%existsb_exists.
  unfold approved in Ha. rewrite forallb_forall in Ha. specialize (Ha row Hrow). rewrite List.Forall_forall in Hl. specialize (Hl row Hrow).
  apply Z.leb_le in Ha. apply Z.ltb_lt in Hr. pose proof (sig_counts_share row) as Hs. rewrite Hl in Hs.
  unfold BLINK_MIN_VOTES, BLINK_SUBQUORUM_SIZE in *. lia.
Qed.

Lemma missing_txs_empty h check gq v tx_height immutable_height pool blinks :
  (parse_incoming_blinks h check gq v tx_height immutable_height pool blinks).2 = [].
Proof. unfold parse_incoming_blinks. by destruct (_ <? _). Qed.

(** ** Every approval is signed *)

Section Signed.
Context (cn_fast_hash : bytes -> bytes) (check_signature : bytes -> bytes -> bytes -> bool).
Context (get_quorum : Z -> option (list bytes)).

#[local] Abbreviation add_signature := (add_signature cn_fast_hash check_signature).
#[local] Abbreviation parse_blink := (parse_blink cn_fast_hash check_signature get_quorum).

(** The validator of a slot, and that it signed. *)
Definition validator_of (b : blink_tx) (q : Z) (p : nat) (key : bytes) : Prop :=
  exists validators, get_quorum (blink_quorum_height (bl_height b) q) = Some validators /\ validators !! p = Some key.
Definition signed (b : blink_tx) : Prop :=
  forall q p sig, 0 <= q -> 0 <= p -> slot_at b q p = Some (BlinkSignature sig_approved sig) ->
  exists key, validator_of b q (Z.to_nat p) key /\ check_signature (blink_hash cn_fast_hash true b) key sig = true.

Lemma signed_new h t : signed (new_blink h t).
Proof using All.
  intros q p sig Hq Hp E. exfalso. unfold slot_at in E. apply bind_Some in E as (row & Er & Es).
  apply list_elem_of_lookup_2, elem_of_replicate in Er as [-> _]. apply list_elem_of_lookup_2, elem_of_replicate in Es as [Es _]. done.
Qed.

(** What adding a signature does, if it does not throw. *)
Lemma blink_signature_spec q p appr sig key b r b' :
  add_signature q p appr sig key b = inr (r, b') ->
  0 <= q < subquorum_count /\ 0 <= p < BLINK_SUBQUORUM_SIZE /\
  check_signature (blink_hash cn_fast_hash appr b) key sig = true /\
  (b' = b \/ b' = with_slot b q p (BlinkSignature (if appr then sig_approved else sig_rejected) sig)).
Proof using All.
  unfold Blink.add_signature, add_prechecked_signature. destruct (check_args q p) eqn:Ea; cbn [negb]; [|done].
  apply check_args_spec in Ea as [Hq Hp]. destruct (check_signature _ _ _) eqn:Es; cbn [negb]; [|done].
  intros E. split_and!; [lia..|done|]. destruct (slot_at b q p) as [[[] sig']|]; injection E as <- <-; [by right|by left..].
Qed.

Lemma signed_add q p appr sig key b r b' :
  add_signature q p appr sig key b = inr (r, b') -> validator_of b q (Z.to_nat p) key -> signed b -> blink_ok b ->
  signed b' /\ blink_ok b' /\ bl_height b' = bl_height b /\ bl_txhash b' = bl_txhash b.
Proof using All.
  intros (Hq & Hp & Hs & [-> | ->])%blink_signature_spec Hv Hsig Hok; [done|].
  split_and!; [|by apply with_slot_ok|done|done]. intros q' p' sig' Hq' Hp'. rewrite slot_at_with_slot by lia.
  case_decide as Eqp; [|by apply Hsig]. destruct Eqp as [-> ->]. destruct (slot_at b q p); [|done]. cbn.
  intros [= Ea <-]. destruct appr; [|done]. by exists key.
Qed.

Lemma take_signature_ok validators b e :
  (forall q row, validators !! Z.to_nat q = Some row -> 0 <= q -> get_quorum (blink_quorum_height (bl_height b) q) = Some row) ->
  signed b -> blink_ok b ->
  let b' := take_signature cn_fast_hash check_signature validators b e in
  signed b' /\ blink_ok b' /\ bl_height b' = bl_height b /\ bl_txhash b' = bl_txhash b.
Proof using All.
  intros Hval Hs Hok. destruct e as [[q p] sig]. unfold take_signature. cbv zeta.
  destruct (row ← validators !! Z.to_nat q; row !! Z.to_nat p) as [key|] eqn:Ek; [|done].
  destruct (add_signature q p true sig key b) as [err|[r b']] eqn:Ea; [done|].
  pose proof (blink_signature_spec _ _ _ _ _ _ _ _ Ea) as (Hq & _). apply bind_Some in Ek as (row & Er & Ek).
  eapply signed_add; [exact Ea| |done|done]. exists row. split; [|done]. apply Hval; [done|lia].
Qed.

Lemma take_all_ok validators l b :
  (forall q row, validators !! Z.to_nat q = Some row -> 0 <= q -> get_quorum (blink_quorum_height (bl_height b) q) = Some row) ->
  signed b -> blink_ok b ->
  let b' := foldl (take_signature cn_fast_hash check_signature validators) b l in
  signed b' /\ blink_ok b' /\ bl_height b' = bl_height b /\ bl_txhash b' = bl_txhash b.
Proof using All.
  cbv zeta. revert b. induction l as [|e l IH]; intros b Hval Hs Hok; cbn [foldl]; [done|].
  pose proof (take_signature_ok validators b e Hval Hs Hok) as (H1 & H2 & H3 & H4). cbv zeta in *.
  destruct (IH (take_signature cn_fast_hash check_signature validators b e)) as (H5 & H6 & H7 & H8); [by rewrite H3|done|done|].
  split_and!; [done|done|by rewrite H7|by rewrite H8].
Qed.

(** The two quorums of a blink. *)
Lemma quorums_of h validators :
  mapM (fun q => get_quorum (blink_quorum_height h q)) [0; 1] = Some validators ->
  forall q row, validators !! Z.to_nat q = Some row -> 0 <= q -> get_quorum (blink_quorum_height h q) = Some row.
Proof using All.
  intros (v0 & E0 & (v1 & E1 & [= <-])%bind_Some)%bind_Some q row Hr Hq. apply bind_Some in E1 as (v2 & E1 & E2).
  injection E2 as <-. assert (q = 0 \/ q = 1) as [-> | ->].
  { apply lookup_lt_Some in Hr. cbn in Hr. lia. }
  - by injection Hr as <-.
  - by injection Hr as <-.
Qed.

Lemma parse_blink_ok bdata :
  let b := parse_blink bdata in
  signed b /\ blink_ok b /\ bl_height b = bm_height bdata /\ bl_txhash b = bm_tx_hash bdata.
Proof using All.
  cbv zeta. unfold Blink.parse_blink. set (b := new_blink _ _).
  assert (signed b /\ blink_ok b) as [Hs Hok] by (split; [apply signed_new|apply new_blink_ok]).
  destruct (malformed bdata); [done|]. destruct (mapM _ _) as [validators|] eqn:E; [|done].
  exact (take_all_ok validators (metadata_entries bdata) b (quorums_of _ _ E) Hs Hok).
Qed.

(** An approved blink has the signatures of seven validators in each quorum. *)
Lemma approved_signers b q :
  approved b = true -> blink_ok b -> signed b -> 0 <= q < subquorum_count ->
  exists ps, NoDup ps /\ BLINK_MIN_VOTES <= Z.of_nat (length ps) /\
    Forall (fun p => exists key sig, validator_of b q p key /\ check_signature (blink_hash cn_fast_hash true b) key sig = true) ps.
Proof using All.
  intros Ha [Hl _] Hs Hq. change (Z.to_nat subquorum_count) with 2%nat in Hl.
  destruct (lookup_lt_is_Some_2 (signatures_ b) (Z.to_nat q)) as [row Hrow]; [rewrite Hl; unfold subquorum_count in Hq; lia|].
  unfold approved in Ha. rewrite forallb_forall in Ha. specialize (Ha row). apply Z.leb_le in Ha.
  2: { apply list_elem_of_In. by eapply list_elem_of_lookup_2. }
  exists (positions row sig_approved). split_and!; [apply positions_NoDup|by rewrite <- sig_count_positions|].
  apply Forall_forall. intros p Hp. apply list_elem_of_filter in Hp as [Hp _]. unfold has_status in Hp.
  destruct (row !! p) as [[st sig]|] eqn:Ep; [|done]. injection Hp as ->.
  destruct (Hs q (Z.of_nat p) sig) as (key & Hv & Hc); [lia|lia| |].
  - unfold slot_at. rewrite Hrow. cbn. by rewrite Nat2Z.id.
  - rewrite Nat2Z.id in Hv. by exists key, sig.
Qed.
End Signed.

(** ** The pool *)

Lemma add_blinks_lookup blinks pool :
  pool ⊆ (add_blinks blinks pool).2 /\
  forall h b, (add_blinks blinks pool).2 !! h = Some b ->
    pool !! h = Some b \/ pool !! h = None /\ b ∈ blinks /\ approved b = true /\ bl_txhash b = h.
Proof.
  unfold add_blinks. generalize 0 as n. revert pool. induction blinks as [|b0 blinks IH]; intros pool n; cbn [foldl]; [by split; [|left]|].
  unfold add_blink at 2 4. cbn [fst snd]. destruct (approved b0) eqn:Ea.
  2: { destruct (IH pool n) as [H1 H2]. split; [done|]. intros h b Hb. destruct (H2 h b Hb) as [?|(? & ? & ?)]; [by left|right].
       split_and!; [done|by right|tauto|tauto]. }
  unfold add_existing_blink. destruct (pool !! bl_txhash b0) as [old|] eqn:Eo; cbn [fst snd].
  - destruct (IH pool n) as [H1 H2]. split; [done|]. intros h b Hb. destruct (H2 h b Hb) as [?|(? & ? & ?)]; [by left|right].
    split_and!; [done|by right|tauto|tauto].
  - destruct (IH (<[bl_txhash b0 := b0]> pool) (n + 1)) as [H1 H2]. split; [etrans; [by apply insert_subseteq|exact H1]|].
    intros h b Hb. destruct (H2 h b Hb) as [Hin|(Hn & Hin & ? & ?)].
    + rewrite lookup_insert in Hin. case_decide as Eh; [|by left]. injection Hin as <-. subst h. right. split_and!; [done|by left|done|done].
    + rewrite lookup_insert in Hn. case_decide; [done|]. right. split_and!; [done|by right|done|done].
Qed.

Lemma add_blinks_count blinks pool :
  (add_blinks blinks pool).1 = Z.of_nat (size (add_blinks blinks pool).2) - Z.of_nat (size pool).
Proof.
  unfold add_blinks. enough (forall n, (foldl add_blink (n, pool) blinks).1 - n = Z.of_nat (size (foldl add_blink (n, pool) blinks).2) - Z.of_nat (size pool)) as H.
  { specialize (H 0). lia. }
  revert pool. induction blinks as [|b0 blinks IH]; intros pool n; cbn [foldl]; [cbn; lia|].
  unfold add_blink at 2 4. cbn [fst snd]. destruct (approved b0); [|apply IH].
  unfold add_existing_blink. destruct (pool !! bl_txhash b0) eqn:Eo; cbn [fst snd]; [apply IH|].
  specialize (IH (<[bl_txhash b0 := b0]> pool) (n + 1)). rewrite map_size_insert_None in IH by done. lia.
Qed.

(** A blink without signatures is not approved. *)
Lemma new_blink_undecided h t : approved (new_blink h t) = false /\ rejected (new_blink h t) = false.
Proof. done. Qed.

Section Accepted.
Context (cn_fast_hash : bytes -> bytes) (check_signature : bytes -> bytes -> bytes -> bool).
Context (get_quorum : Z -> option (list bytes)).

Lemma approved_well_formed bdata :
  approved (parse_blink cn_fast_hash check_signature get_quorum bdata) = true -> malformed bdata = false.
Proof using All. unfold parse_blink. by destruct (malformed bdata). Qed.

Lemma malformed_height bdata : malformed bdata = false -> blink_quorum_height (bm_height bdata) 0 <> 0.
Proof using All.
  unfold malformed. rewrite !orb_false_iff. intros (((_ & H) & _) & _). by apply Z.eqb_neq.
Qed.

(** (C7) For every batch of blink data that a peer sends, whatever it holds: no blink that the pool has is lost or replaced, the
    number of blinks reported is the number added, and every blink that is added has the transaction hash it is stored under, is of
    a transaction that is in no block or above the immutable height, has a height with a quorum, is approved and not rejected,
    and in each of its two quorums at least seven positions hold a validator whose signature of the approval checks. *)
Theorem blink_accepted_sound network_version tx_height immutable_height pool blinks :
  let new_blinks := (parse_incoming_blinks cn_fast_hash check_signature get_quorum network_version tx_height immutable_height pool blinks).1 in
  let added := (add_blinks new_blinks pool).1 in
  let pool' := (add_blinks new_blinks pool).2 in
  pool ⊆ pool' /\ added = Z.of_nat (size pool') - Z.of_nat (size pool) /\
  forall h b, pool !! h = None -> pool' !! h = Some b ->
    feature_BLINK <= network_version /\ bl_txhash b = h /\ (tx_height h = 0 \/ immutable_height < tx_height h) /\
    blink_quorum_height (bl_height b) 0 <> 0 /\ approved b = true /\ rejected b = false /\
    forall q, 0 <= q < subquorum_count ->
      exists ps, NoDup ps /\ BLINK_MIN_VOTES <= Z.of_nat (length ps) /\
        Forall (fun p => exists key sig, validator_of get_quorum b q p key /\
                  check_signature (blink_hash cn_fast_hash true b) key sig = true) ps.
Proof using All.
  cbv zeta. set (nb := fst (parse_incoming_blinks _ _ _ _ _ _ _ _)).
  pose proof (add_blinks_lookup nb pool) as [Hsub Hl]. pose proof (add_blinks_count nb pool) as Hc.
  split_and!; [done|done|]. intros h b Hn Hb. destruct (Hl h b Hb) as [?|(_ & Hin & Ha & Ht)]; [congruence|].
  subst nb. unfold parse_incoming_blinks in Hin. destruct (Z.ltb_spec network_version feature_BLINK) as [|Hv]; [by apply not_elem_of_nil in Hin|].
  cbn [fst] in Hin. apply list_elem_of_fmap in Hin as (bdata & -> & Hf). apply list_elem_of_In, filter_In in Hf as [_ Hw].
  pose proof (parse_blink_ok cn_fast_hash check_signature get_quorum bdata) as (Hs & Hok & Hh & Htx). cbv zeta in *.
  apply andb_true_iff in Hw as [Hw _]. apply orb_true_iff in Hw. rewrite Z.eqb_eq, Z.ltb_lt, <- Htx, Ht in Hw.
  split_and!; [done|done|done| |done|by apply approved_not_rejected|].
  - rewrite Hh. by apply malformed_height, approved_well_formed.
  - intros q Hq. by apply approved_signers.
Qed.
End Accepted.

(** ** A batch that is accepted *)

Definition demo_quorum (h : Z) : option (list bytes) := if h =? 0 then None else Some (demo_keys 10).
Definition demo_metadata : serializable_blink_metadata :=
  let ks := take 7 (demo_keys 10) in
  let msg := blink_hash id true (new_blink 100 [7]) in
  let row := (fun k => k ++ msg) <$> ks in
  BlinkMetadata [7] 100 (replicate 7 0 ++ replicate 7 1) ((Z.of_nat <$> seq 0 7) ++ (Z.of_nat <$> seq 0 7)) (row ++ row).

Definition demo_accepted : gmap bytes blink_tx :=
  (add_blinks (parse_incoming_blinks id demo_check demo_quorum hf19_reward_batching (fun _ => 0) 50 ∅ [demo_metadata]).1 ∅).2.
Lemma blink_accepted_sound_witness : exists b, demo_accepted !! [7] = Some b /\ rejected b = false /\ bl_txhash b = [7].
Proof.
  assert (is_Some (demo_accepted !! [7])) as [b Hb] by (eexists; vm_compute; reflexivity).
  destruct (blink_accepted_sound id demo_check demo_quorum hf19_reward_batching (fun _ => 0) 50 ∅ [demo_metadata]) as (_ & _ & H).
  destruct (H [7] b eq_refl Hb) as (_ & Ht & _ & _ & _ & Hr & _). exists b. exact (conj Hb (conj Hr Ht)).
Defined.
