(* ===== verification/BlinkQuorum.v ===== *)
(** * Signing a blink
    [cryptonote_protocol/quorumnet.cpp]: how the service nodes of the two blink quorums collect each other's signatures of a
    transaction ([get_blink_quorums], [process_blink_signatures], and what [handle_blink] and [handle_blink_signature] do with
    the cache of submitted blinks), with the threads that work on one blink at the same time interleaved.  Decoding the
    messages, connections and the wallet side that waits for the replies are left out, as is the removal of cache entries ten
    blocks below the top, where no submission is taken any more.  [quorum_checksum] is of
    [cryptonote_core/service_node_quorum_cop.cpp]. *)
From stdpp Require Import gmap relations.
From S2P Require Import Prelude Hardfork Rules Voting Blink.
#[local] Open Scope Z_scope.

(** ** The checksum of the members *)

Definition KEY_BYTES : nat := 32.

(** Eight bytes from [offset], around the end of the key. *)
Definition checksum_word (pk : bytes) (offset : nat) : Z :=
  if (offset <=? KEY_BYTES - 8)%nat then load_le (take 8 (drop offset pk))
  else
    let prewrap := (KEY_BYTES - offset)%nat in
    load_le (take prewrap (drop offset pk) ++ take (8 - prewrap) pk).
Fixpoint checksum_loop (pubkeys : list bytes) (offset : nat) (sum : Z) : Z :=
  match pubkeys with
  | [] => sum
  | pk :: pubkeys =>
      let offset := (offset mod KEY_BYTES)%nat in
      checksum_loop pubkeys (S offset) (u64 (sum + checksum_word pk offset))
  end.
Definition quorum_checksum (pubkeys : list bytes) (offset : nat) : Z := checksum_loop pubkeys offset 0.

(** ** Signatures that other nodes send *)

Record pending_signature := Pending {
  ps_approval : bool;
  ps_quorum : Z;
  ps_position : Z;
  ps_sig : bytes;
}.
#[global] Instance pending_signature_eq_dec : EqDecision pending_signature.
Proof. solve_decision. Defined.

Inductive quorums_error := too_early | no_quorum | wrong_size | wrong_checksum.

Section Quorumnet.
Context (cn_fast_hash : bytes -> bytes) (check_signature : bytes -> bytes -> bytes -> bool).
Context (get_quorum : Z -> option (list bytes)).

(** One quorum of the loop of [get_blink_quorums]. *)
Definition get_blink_quorum (blink_height q : Z) : quorums_error + list bytes :=
  let height := blink_quorum_height blink_height q in
  if height =? 0 then inl too_early
  else
    match get_quorum height with
    | None => inl no_quorum
    | Some v =>
        if (Z.of_nat (length v) <? BLINK_MIN_VOTES) || (BLINK_SUBQUORUM_SIZE <? Z.of_nat (length v)) then inl wrong_size
        else inr v
    end.
Fixpoint get_blink_quorums_from (blink_height : Z) (qs : list Z) (local_checksum : Z) : quorums_error + (list (list bytes) * Z) :=
  match qs with
  | [] => inr ([], local_checksum)
  | q :: qs =>
      match get_blink_quorum blink_height q with
      | inl e => inl e
      | inr v =>
          match get_blink_quorums_from blink_height qs (u64 (local_checksum + quorum_checksum v (Z.to_nat (q * BLINK_SUBQUORUM_SIZE)))) with
          | inl e => inl e
          | inr (vs, sum) => inr (v :: vs, sum)
          end
      end
  end.
Definition get_blink_quorums (blink_height : Z) (input_checksum : option Z) : quorums_error + (list (list bytes) * Z) :=
  match get_blink_quorums_from blink_height [0; 1] 0 with
  | inl e => inl e
  | inr (vs, sum) => if from_option (fun c => c =? sum) true input_checksum then inr (vs, sum) else inl wrong_checksum
  end.

(** The blink that a submission starts with: slots without a validator count as rejections. *)
Fixpoint limit_all (q : Z) (quorums : list (list bytes)) (b : blink_tx) : blink_error + blink_tx :=
  match quorums with
  | [] => inr b
  | v :: quorums =>
      match limit_signatures q (length v) b with
      | inl e => inl e
      | inr b => limit_all (q + 1) quorums b
      end
  end.
Definition start_blink (height : Z) (txhash : bytes) (quorums : list (list bytes)) : blink_error + blink_tx :=
  limit_all 0 quorums (new_blink height txhash).

(** ** [process_blink_signatures] *)

(** The first pass over the list, under the shared lock.  The index of the quorum is checked by the callers. *)
Definition still_wanted (quorums : list (list bytes)) (b : blink_tx) (ps : pending_signature) : blink_error + bool :=
  match quorums !! Z.to_nat (ps_quorum ps) with
  | None => inl out_of_range
  | Some validators =>
      if (ps_position ps <? 0) || (Z.of_nat (length validators) <=? ps_position ps) then inr false
      else
        match get_signature_status (ps_quorum ps) (ps_position ps) b with
        | inl e => inl e
        | inr status => inr (bool_decide (status = sig_none))
        end
  end.
Fixpoint discard_known (quorums : list (list bytes)) (b : blink_tx) (sigs : list pending_signature) : blink_error + list pending_signature :=
  match sigs with
  | [] => inr []
  | ps :: sigs =>
      match still_wanted quorums b ps, discard_known quorums b sigs with
      | inl e, _ => inl e
      | _, inl e => inl e
      | inr keep, inr sigs => inr (if keep then ps :: sigs else sigs)
      end
  end.

(** The second, without a lock. *)
Definition valid_signature (quorums : list (list bytes)) (b : blink_tx) (ps : pending_signature) : bool :=
  match row ← quorums !! Z.to_nat (ps_quorum ps); row !! Z.to_nat (ps_position ps) with
  | Some key => check_signature (blink_hash cn_fast_hash (ps_approval ps) b) key (ps_sig ps)
  | None => false
  end.
Definition check_batch (quorums : list (list bytes)) (b : blink_tx) (sigs : list pending_signature) : blink_error + list pending_signature :=
  match discard_known quorums b sigs with
  | inl e => inl e
  | inr sigs => inr (List.filter (valid_signature quorums b) sigs)
  end.

(** The third, under the unique lock: what was added, and whether it decided. *)
Fixpoint record_signatures (b : blink_tx) (sigs : list pending_signature) : blink_error + (blink_tx * list pending_signature) :=
  match sigs with
  | [] => inr (b, [])
  | ps :: sigs =>
      match add_prechecked_signature (ps_quorum ps) (ps_position ps) (ps_approval ps) (ps_sig ps) b with
      | inl e => inl e
      | inr (ok, b) =>
          match record_signatures b sigs with
          | inl e => inl e
          | inr (b, added) => inr (b, if ok then ps :: added else added)
          end
      end
  end.
Definition became (before after : blink_tx) (added : list pending_signature) : option bool :=
  let already_approved := approved before in
  let already_rejected := negb already_approved && rejected before in
  if negb (bool_decide (added = [])) && negb already_approved && negb already_rejected then
    if approved after then Some true else if rejected after then Some false else None
  else None.

End Quorumnet.

(** ** One blink in the node *)

(** A call of [process_blink_signatures] under way: found the blink, verified its signatures, recorded them. *)
Inductive stage := found | verified | recorded (outcome : option bool).
Record job := Job {
  jb_tag : Z;
  jb_stage : stage;
  jb_sigs : list pending_signature;
}.

(** What the pool has for the transaction: the pointer to this blink, which later signatures change too, or another blink. *)
Inductive pool_entry := absent | this_blink | other_blink (b : blink_tx).

(** [blink_metadata], the jobs, the pool's entry, every decision and every reply so far. *)
Record node := Node {
  btxptr : option blink_tx;
  pending_sigs : list pending_signature;
  reply_tag : Z;
  nd_jobs : list job;
  nd_pool : pool_entry;
  nd_decided : list bool;
  nd_replies : list (bool * Z);
}.

Definition with_jobs (n : node) (js : list job) : node :=
  Node (btxptr n) (pending_sigs n) (reply_tag n) js (nd_pool n) (nd_decided n) (nd_replies n).

(** [delayed.insert]. *)
Definition stash (n : node) (sigs : list pending_signature) : node :=
  Node (btxptr n) (foldl (fun set ps => if decide (ps ∈ set) then set else ps :: set) (pending_sigs n) sigs) (reply_tag n)
    (nd_jobs n) (nd_pool n) (nd_decided n) (nd_replies n).

(** [handle_blink] stores the blink, and its own signatures join the delayed ones, which come in any order. *)
Definition submit (n : node) (b : blink_tx) (tag : Z) (sigs : list pending_signature) : node :=
  Node (Some b) [] (if 0 <? tag then tag else reply_tag n) (nd_jobs n ++ [Job tag found sigs]) (nd_pool n) (nd_decided n) (nd_replies n).

(** A submission of a blink that is there. *)
Definition submit_again (n : node) (b : blink_tx) (tag : Z) : node :=
  if tag =? 0 then n
  else if approved b then
    Node (btxptr n) (pending_sigs n) (reply_tag n) (nd_jobs n) (nd_pool n) (nd_decided n) (nd_replies n ++ [(true, tag)])
  else if rejected b then
    Node (btxptr n) (pending_sigs n) (reply_tag n) (nd_jobs n) (nd_pool n) (nd_decided n) (nd_replies n ++ [(false, tag)])
  else Node (btxptr n) (pending_sigs n) tag (nd_jobs n) (nd_pool n) (nd_decided n) (nd_replies n).

(** The end of [process_blink_signatures]: the pool, and the reply with the tag the call was made with. *)
Definition finish (n : node) (tag : Z) (outcome : option bool) (js : list job) : node :=
  Node (btxptr n) (pending_sigs n) (reply_tag n) js
    (match outcome, nd_pool n with Some true, absent => this_blink | _, e => e end) (nd_decided n)
    (nd_replies n ++ match outcome with Some d => if tag =? 0 then [] else [(d, tag)] | None => [] end).

(** [add_new_blink], where it finds the blink approved already. *)
Definition add_new_blink_entry (b : blink_tx) (e : pool_entry) : pool_entry :=
  match e with absent => if approved b then this_blink else absent | e => e end.

(** What the callers check of a list of signatures. *)
Definition index_ok (ps : pending_signature) : Prop := 0 <= ps_quorum ps < subquorum_count.

Section Steps.
Context (cn_fast_hash : bytes -> bytes) (check_signature : bytes -> bytes -> bytes -> bool).
Context (quorums : list (list bytes)) (height : Z) (txhash : bytes).

Inductive node_step (n : node) : node -> Prop :=
| step_stash sigs : btxptr n = None -> Forall index_ok sigs -> node_step n (stash n sigs)
| step_submit b tag own sigs :
    btxptr n = None -> start_blink height txhash quorums = inr b -> Forall index_ok own -> sigs ≡ₚ pending_sigs n ++ own ->
    0 <= tag -> node_step n (submit n b tag sigs)
| step_submit_again b tag : btxptr n = Some b -> 0 <= tag -> node_step n (submit_again n b tag)
| step_add_new b :
    btxptr n = Some b ->
    node_step n (Node (btxptr n) (pending_sigs n) (reply_tag n) (nd_jobs n) (add_new_blink_entry b (nd_pool n)) (nd_decided n) (nd_replies n))
| step_peer b :
    nd_pool n = absent ->
    node_step n (Node (btxptr n) (pending_sigs n) (reply_tag n) (nd_jobs n) (other_blink b) (nd_decided n) (nd_replies n))
| step_find b sigs :
    btxptr n = Some b -> Forall index_ok sigs -> node_step n (with_jobs n (nd_jobs n ++ [Job (reply_tag n) found sigs]))
| step_check b pre tag sigs post sigs' :
    btxptr n = Some b -> nd_jobs n = pre ++ Job tag found sigs :: post ->
    check_batch cn_fast_hash check_signature quorums b sigs = inr sigs' ->
    node_step n (with_jobs n (pre ++ (if decide (sigs' = []) then [] else [Job tag verified sigs']) ++ post))
| step_record b pre tag sigs post b' added :
    btxptr n = Some b -> nd_jobs n = pre ++ Job tag verified sigs :: post -> record_signatures b sigs = inr (b', added) ->
    node_step n
      (Node (Some b') (pending_sigs n) (reply_tag n) (pre ++ Job tag (recorded (became b b' added)) added :: post) (nd_pool n)
         (nd_decided n ++ option_list (became b b' added)) (nd_replies n))
| step_finish pre tag outcome sigs post :
    nd_jobs n = pre ++ Job tag (recorded outcome) sigs :: post -> node_step n (finish n tag outcome (pre ++ post)).

(** A node that has not seen the blink. *)
Definition first_node : node := Node None [] 0 [] absent [] [].
Definition reachable (n : node) : Prop := rtc node_step first_node n.
End Steps.

(** ** The checksum of parts *)

Fixpoint checksum_sum (pubkeys : list bytes) (offset : nat) : Z :=
  match pubkeys with
  | [] => 0
  | pk :: pubkeys => checksum_word pk (offset mod KEY_BYTES) + checksum_sum pubkeys (S offset)
  end.
Lemma checksum_sum_mod l : forall o, checksum_sum l (o mod KEY_BYTES) = checksum_sum l o.
Proof.
  induction l as [|pk l IH]; intros o; [done|]. cbn [checksum_sum]. rewrite Nat.Div0.mod_mod. f_equal.
  rewrite <- (IH (S (o mod KEY_BYTES))), <- (IH (S o)). f_equal. rewrite <- (Nat.add_1_r (o mod _)), <- (Nat.add_1_r o).
  apply Nat.Div0.add_mod_idemp_l.
Qed.
Lemma checksum_loop_sum l : forall o s, is_u64 s -> checksum_loop l o s = u64 (s + checksum_sum l o).
Proof.
  induction l as [|pk l IH]; intros o s Hs; cbn [checksum_loop checksum_sum].
  - unfold u64, is_u64 in *. rewrite Z.add_0_r. symmetry. apply Z.mod_small. lia.
  - rewrite IH by (unfold u64, is_u64; lia). unfold u64. rewrite Zplus_mod_idemp_l. f_equal.
    rewrite <- (checksum_sum_mod l (S (o mod _))), <- (checksum_sum_mod l (S o)).
    rewrite <- (Nat.add_1_r (o mod _)), <- (Nat.add_1_r o), Nat.Div0.add_mod_idemp_l. lia.
Qed.

(** The checksum of a list is the sum of those of its parts, the second at the offset of the first's length. *)
Lemma quorum_checksum_app l1 l2 o :
  quorum_checksum (l1 ++ l2) o = u64 (quorum_checksum l1 o + quorum_checksum l2 (o + length l1)).
Proof.
  assert (is_u64 0) as H0 by (unfold is_u64; lia). unfold quorum_checksum. rewrite !checksum_loop_sum by done. rewrite !Z.add_0_l. unfold u64.
  rewrite <- Zplus_mod. f_equal. revert o. induction l1 as [|pk l1 IH]; intros o; cbn [app checksum_sum length]; [by rewrite Nat.add_0_r|].
  rewrite IH, Nat.add_succ_r. cbn [Nat.add]. lia.
Qed.

(** ** Signatures only grow *)

Definition slot_le (s s' : quorum_signature) : Prop := bs_status s = sig_none \/ s' = s.
Definition grows (b b' : blink_tx) : Prop :=
  bl_height b' = bl_height b /\ bl_txhash b' = bl_txhash b /\ Forall2 (Forall2 slot_le) (signatures_ b) (signatures_ b').
#[global] Instance slot_le_preorder : PreOrder slot_le.
Proof. split; [by right|]. intros s1 s2 s3 [H| ->] H2; [by left|done]. Qed.
#[global] Instance grows_preorder : PreOrder grows.
Proof.
  split; [done|]. intros b1 b2 b3 (H1 & H2 & H3) (H4 & H5 & H6). split_and!; [congruence..|]. by etrans.
Qed.

Lemma sig_count_grows row row' st : st <> sig_none -> Forall2 slot_le row row' -> sig_count row st <= sig_count row' st.
Proof.
  intros Hst. unfold sig_count. induction 1 as [|s s' row row' Hs Hr IH]; [done|]. rewrite !filter_cons.
  destruct Hs as [Hs| ->]; repeat case_decide; cbn [length]; lia || congruence.
Qed.

Lemma approved_grows b b' : grows b b' -> approved b = true -> approved b' = true.
Proof.
  intros (_ & _ & H). unfold approved. induction H as [|row row' rows rows' Hr Hrs IH]; [done|]. cbn [forallb].
  rewrite !andb_true_iff, !Z.leb_le. intros [H1 H2]. split; [|by apply IH]. pose proof (sig_count_grows _ _ sig_approved ltac:(done) Hr). lia.
Qed.
Lemma rejected_grows b b' : grows b b' -> rejected b = true -> rejected b' = true.
Proof.
  intros (_ & _ & H). unfold rejected. induction H as [|row row' rows rows' Hr Hrs IH]; [done|]. cbn [existsb].
  rewrite !orb_true_iff, !Z.ltb_lt. intros [H1|H2]; [left|right; by apply IH].
  pose proof (sig_count_grows _ _ sig_rejected ltac:(done) Hr). lia.
Qed.

Lemma with_slot_grows b q p s sig : slot_at b q p = Some (BlinkSignature sig_none sig) -> grows b (with_slot b q p s).
Proof.
  intros Hs. apply bind_Some in Hs as (row & Hrow & Hs). split_and!; [done|done|]. cbn.
  apply Forall2_alter_r; [reflexivity|]. intros x y Hx Hy _. assert (x = row) as -> by congruence. assert (y = row) as -> by congruence.
  apply Forall2_lookup. intros i. destruct (decide (i = Z.to_nat p)) as [->|Hne].
  - rewrite Hs, list_lookup_insert_eq by (by eapply lookup_lt_Some). constructor. by left.
  - rewrite list_lookup_insert_ne by done. apply option_Forall2_refl. by right.
Qed.

(** What recording one signature does. *)
Lemma add_prechecked_spec q p appr sig b ok b' :
  add_prechecked_signature q p appr sig b = inr (ok, b') ->
  check_args q p = true /\
  (ok = false /\ b' = b \/
   ok = true /\ grows b b' /\ b' = with_slot b q p (BlinkSignature (if appr then sig_approved else sig_rejected) sig)).
Proof.
  unfold add_prechecked_signature. destruct (check_args q p); cbn [negb]; [|done]. intros E. split; [done|].
  destruct (slot_at b q p) as [[[] sig']|] eqn:Es; injection E as <- <-; [right|by left..]. split_and!; [done| |done].
  by eapply with_slot_grows.
Qed.

Lemma record_signatures_grows sigs : forall b b' added, record_signatures b sigs = inr (b', added) -> grows b b' /\ (added = [] -> b' = b).
Proof.
  induction sigs as [|ps sigs IH]; cbn; intros b b' added E; [by injection E as <- <-|].
  destruct (add_prechecked_signature _ _ _ _ b) as [|[ok b1]] eqn:E1; [done|].
  destruct (record_signatures b1 sigs) as [|[b2 added2]] eqn:E2; [done|]. injection E as <- <-.
  apply IH in E2 as [H1 H2]. apply add_prechecked_spec in E1 as [_ [(-> & ->)|(-> & Hg & _)]]; [done|]. split; [by etrans|done].
Qed.

(** ** Decided once *)

Definition outcome_of (b : blink_tx) (d : bool) : Prop :=
  if d then approved b = true else rejected b = true /\ approved b = false.
Definition decided_ok (b : blink_tx) (ds : list bool) : Prop :=
  ds = [] /\ approved b = false /\ rejected b = false \/ exists d, ds = [d] /\ outcome_of b d.

Lemma outcome_grows b b' d : grows b b' -> blink_ok b' -> outcome_of b d -> outcome_of b' d.
Proof.
  intros Hg Hok. destruct d; cbn; [by apply approved_grows|]. intros [Hr _]. pose proof (rejected_grows _ _ Hg Hr) as Hr'. split; [done|].
  destruct (approved b') eqn:E; [|done]. apply approved_not_rejected in E; [congruence|done].
Qed.

Lemma became_decided b b' added ds :
  grows b b' -> (added = [] -> b' = b) -> blink_ok b' -> decided_ok b ds -> decided_ok b' (ds ++ option_list (became b b' added)).
Proof.
  intros Hg Hadd Hok [(-> & Ha & Hr)|(d & -> & Ho)]; unfold became.
  - rewrite Ha, Hr. cbn. destruct (bool_decide_reflect (added = [])) as [E|E]; cbn.
    + rewrite Hadd by done. by left.
    + destruct (approved b') eqn:Ea; [right; by exists true|]. destruct (rejected b') eqn:Er; [right; by exists false|by left].
  - pose proof (outcome_grows _ _ _ Hg Hok Ho) as Ho'. right. exists d. split; [|done].
    destruct d; cbn in Ho; [by rewrite Ho, andb_false_r|]. destruct Ho as [Hr Ha]. by rewrite Ha, Hr, andb_false_r.
Qed.

Lemma became_outcome b b' added d : became b b' added = Some d -> outcome_of b' d.
Proof.
  unfold became. destruct (_ && _); [|done]. destruct (approved b') eqn:Ea; [by intros [= <-]|].
  destruct (rejected b') eqn:Er; [|done]. by intros [= <-].
Qed.

(** ** The quorums and the blink a submission starts with *)

Definition quorum_size_ok (v : list bytes) : Prop := BLINK_MIN_VOTES <= Z.of_nat (length v) <= BLINK_SUBQUORUM_SIZE.

Lemma get_blink_quorum_ok get_quorum h q v :
  get_blink_quorum get_quorum h q = inr v ->
  blink_quorum_height h q <> 0 /\ get_quorum (blink_quorum_height h q) = Some v /\ quorum_size_ok v.
Proof.
  unfold get_blink_quorum. destruct (Z.eqb_spec (blink_quorum_height h q) 0) as [|H0]; [done|].
  destruct (get_quorum _) as [w|]; [|done]. destruct (orb _ _) eqn:E; [done|]. intros [= ->]. split_and!; [done|done|].
  apply orb_false_iff in E as [E1 E2]. apply Z.ltb_ge in E1, E2. unfold quorum_size_ok. lia.
Qed.

Lemma get_blink_quorums_ok get_quorum h c vs sum :
  get_blink_quorums get_quorum h c = inr (vs, sum) ->
  exists v0 v1, vs = [v0; v1] /\ quorum_size_ok v0 /\ quorum_size_ok v1 /\ blink_quorum_height h 0 <> 0 /\
    get_quorum (blink_quorum_height h 0) = Some v0 /\ get_quorum (blink_quorum_height h 1) = Some v1.
Proof.
  unfold get_blink_quorums. cbn [get_blink_quorums_from]. destruct (get_blink_quorum get_quorum h 0) as [|v0] eqn:E0; [done|].
  destruct (get_blink_quorum get_quorum h 1) as [|v1] eqn:E1; [done|]. destruct (from_option _ _ _); [|done]. intros [= <- _].
  apply get_blink_quorum_ok in E0 as (? & ? & ?), E1 as (? & ? & ?). by exists v0, v1.
Qed.

(** The rows after [limit_signatures]. *)
Definition limited_row (max_size : nat) : list quorum_signature :=
  imap (fun i s => if (max_size <=? i)%nat then BlinkSignature sig_rejected (bs_sig s) else s) (replicate (Z.to_nat BLINK_SUBQUORUM_SIZE) empty_slot).

Lemma start_blink_eq h t v0 v1 b :
  quorum_size_ok v0 -> quorum_size_ok v1 -> start_blink h t [v0; v1] = inr b -> b = BlinkTx h t [limited_row (length v0); limited_row (length v1)].
Proof.
  unfold quorum_size_ok, start_blink. intros H0 H1. cbn [limit_all]. unfold limit_signatures.
  rewrite (proj2 (Z.ltb_ge _ _)) by lia. rewrite (proj2 (Z.ltb_ge _ _)) by lia. by intros [= <-].
Qed.
Lemma start_blink_total h t v0 v1 : quorum_size_ok v0 -> quorum_size_ok v1 -> exists b, start_blink h t [v0; v1] = inr b.
Proof.
  unfold quorum_size_ok, start_blink. intros H0 H1. cbn [limit_all]. unfold limit_signatures.
  rewrite (proj2 (Z.ltb_ge _ _)) by lia. rewrite (proj2 (Z.ltb_ge _ _)) by lia. eauto.
Qed.

Lemma limited_row_ok v :
  quorum_size_ok v ->
  length (limited_row (length v)) = Z.to_nat BLINK_SUBQUORUM_SIZE /\ sig_count (limited_row (length v)) sig_approved = 0 /\
  sig_count (limited_row (length v)) sig_rejected <= BLINK_SUBQUORUM_SIZE - BLINK_MIN_VOTES.
Proof.
  unfold quorum_size_ok, BLINK_SUBQUORUM_SIZE, BLINK_MIN_VOTES. intros H.
  assert (length v ∈ [7; 8; 9; 10]%nat) as Hl by (rewrite !elem_of_cons; lia). revert Hl. generalize (length v). apply Forall_forall.
  repeat constructor; by vm_compute.
Qed.

(** Not decided, and without approvals. *)
Lemma start_blink_ok h t v0 v1 b :
  quorum_size_ok v0 -> quorum_size_ok v1 -> start_blink h t [v0; v1] = inr b ->
  blink_ok b /\ bl_height b = h /\ bl_txhash b = t /\ decided_ok b [] /\
  forall q p sig, slot_at b q p <> Some (BlinkSignature sig_approved sig).
Proof.
  intros H0 H1 ->%start_blink_eq; [|done..]. pose proof (limited_row_ok _ H0) as (L0 & A0 & R0). pose proof (limited_row_ok _ H1) as (L1 & A1 & R1).
  unfold BLINK_SUBQUORUM_SIZE, BLINK_MIN_VOTES in *.
  split_and!; [split; [done|by repeat constructor]|done|done| |].
  - left. unfold approved, rejected. cbn [signatures_ forallb existsb]. rewrite A0, A1. split_and!; [done|done|].
    rewrite !orb_false_iff, !Z.ltb_ge. unfold BLINK_SUBQUORUM_SIZE, BLINK_MIN_VOTES. lia.
  - intros q p sig. unfold slot_at. cbn [signatures_]. intros (row & Hr & Hs)%bind_Some.
    assert (exists n, row = limited_row n) as [n ->].
    { destruct (Z.to_nat q) as [|[|]]; cbn in Hr; [injection Hr as <-; eauto..|done]. }
    unfold limited_row in Hs. rewrite list_lookup_imap in Hs. apply fmap_Some in Hs as (s & Hs & E).
    apply list_elem_of_lookup_2, elem_of_replicate in Hs as [-> _]. by destruct (_ <=? _)%nat.
Qed.

(** ** The invariant of a node *)

Section Invariant.
Context (cn_fast_hash : bytes -> bytes) (check_signature : bytes -> bytes -> bytes -> bool).
Context (get_quorum : Z -> option (list bytes)).
Context (quorums : list (list bytes)) (height : Z) (txhash : bytes) (input_checksum : option Z) (sum : Z).
Hypothesis Hquorums : get_blink_quorums get_quorum height input_checksum = inr (quorums, sum).

#[local] Abbreviation signed := (signed cn_fast_hash check_signature get_quorum).
#[local] Abbreviation node_step := (node_step cn_fast_hash check_signature quorums height txhash).

(** A blink of this transaction, with approvals that are signed. *)
Record blink_inv (b : blink_tx) : Prop := {
  bi_ok : blink_ok b;
  bi_height : bl_height b = height;
  bi_txhash : bl_txhash b = txhash;
  bi_signed : signed b;
}.

Definition sig_verified (ps : pending_signature) : Prop :=
  check_args (ps_quorum ps) (ps_position ps) = true /\
  exists validators key, quorums !! Z.to_nat (ps_quorum ps) = Some validators /\ validators !! Z.to_nat (ps_position ps) = Some key /\
    check_signature (blink_hash cn_fast_hash (ps_approval ps) (new_blink height txhash)) key (ps_sig ps) = true.

Lemma blink_hash_same appr b : blink_inv b -> blink_hash cn_fast_hash appr b = blink_hash cn_fast_hash appr (new_blink height txhash).
Proof using All. intros [_ H1 H2 _]. unfold blink_hash. cbn. by rewrite H1, H2. Qed.

Lemma quorum_lookup q row :
  0 <= q -> quorums !! Z.to_nat q = Some row -> get_quorum (blink_quorum_height height q) = Some row /\ quorum_size_ok row /\ q < subquorum_count.
Proof using All.
  destruct (get_blink_quorums_ok _ _ _ _ _ Hquorums) as (v0 & v1 & -> & S0 & S1 & _ & Q0 & Q1). intros Hq Hr.
  assert (q = 0 \/ q = 1) as [-> | ->].
  { apply lookup_lt_Some in Hr. cbn in Hr. lia. }
  - by injection Hr as <-.
  - by injection Hr as <-.
Qed.
Lemma quorum_exists q : 0 <= q < subquorum_count -> exists row, quorums !! Z.to_nat q = Some row.
Proof using All.
  destruct (get_blink_quorums_ok _ _ _ _ _ Hquorums) as (v0 & v1 & -> & _). unfold subquorum_count. intros Hq.
  apply lookup_lt_is_Some_2. cbn. lia.
Qed.

(** The first two passes do not throw, and leave signatures that check. *)
Lemma still_wanted_ok b ps :
  index_ok ps ->
  exists keep, still_wanted quorums b ps = inr keep /\
    (keep = true -> check_args (ps_quorum ps) (ps_position ps) = true).
Proof using All.
  intros Hi. unfold still_wanted. destruct (quorum_exists _ Hi) as [row Hrow]. rewrite Hrow. unfold index_ok in Hi.
  destruct (quorum_lookup (ps_quorum ps) row) as (_ & Hsz & _); [lia|done|]. destruct (orb _ _) eqn:Eo; [by exists false|].
  apply orb_false_iff in Eo as [E1 E2]. apply Z.ltb_ge in E1. apply Z.leb_gt in E2. unfold quorum_size_ok in Hsz.
  assert (check_args (ps_quorum ps) (ps_position ps) = true) as Ha by (apply check_args_spec; lia).
  unfold get_signature_status. rewrite Ha. cbn. by eexists.
Qed.

Lemma check_batch_ok b sigs :
  blink_inv b -> Forall index_ok sigs ->
  exists sigs', check_batch cn_fast_hash check_signature quorums b sigs = inr sigs' /\ Forall sig_verified sigs'.
Proof using All.
  intros Hb Hi. unfold check_batch.
  assert (exists sigs', discard_known quorums b sigs = inr sigs' /\ Forall (fun ps => check_args (ps_quorum ps) (ps_position ps) = true) sigs') as (sigs' & -> & Ha).
  { induction Hi as [|ps sigs Hp Hi (sigs' & IH & Ha)]; [by exists []|]. cbn. rewrite IH. destruct (still_wanted_ok b ps Hp) as (keep & -> & Hk).
    eexists. split; [done|]. destruct keep; [constructor; [by apply Hk|done]|done]. }
  eexists. split; [done|]. apply List.Forall_forall. intros ps (Hin & Hv)%filter_In. rewrite List.Forall_forall in Ha.
  split; [by apply Ha|]. unfold valid_signature in Hv. destruct (row ← _; row !! _) as [key|] eqn:E; [|done].
  apply bind_Some in E as (row & Er & Ek). exists row, key. by rewrite <- blink_hash_same with (b := b).
Qed.

(** The third does not throw either, and keeps the approvals signed. *)
Lemma record_one b ps :
  blink_inv b -> sig_verified ps ->
  exists ok b', add_prechecked_signature (ps_quorum ps) (ps_position ps) (ps_approval ps) (ps_sig ps) b = inr (ok, b') /\ blink_inv b'.
Proof using All.
  intros Hb (Ha & row & key & Hr & Hk & Hs).
  destruct (add_prechecked_signature _ _ _ _ b) as [e|[ok b']] eqn:E.
  { exfalso. unfold add_prechecked_signature in E. rewrite Ha in E. cbn in E. by destruct (slot_at b _ _) as [[[] ?]|]. }
  exists ok, b'. split; [done|]. apply check_args_spec in Ha as [Hq Hp].
  assert (add_signature cn_fast_hash check_signature (ps_quorum ps) (ps_position ps) (ps_approval ps) (ps_sig ps) key b = inr (ok, b')) as Eadd.
  { unfold add_signature. rewrite (proj2 (check_args_spec _ _)) by done. rewrite blink_hash_same, Hs by done. exact E. }
  destruct Hb as [Hok Hh Ht Hsg].
  assert (validator_of get_quorum b (ps_quorum ps) (Z.to_nat (ps_position ps)) key) as Hv.
  { exists row. rewrite Hh. split; [|done]. apply quorum_lookup; [lia|done]. }
  pose proof (signed_add cn_fast_hash check_signature get_quorum _ _ _ _ _ _ _ _ Eadd Hv Hsg Hok) as (H1 & H2 & H3 & H4).
  split; [done|congruence|congruence|done].
Qed.

Lemma record_ok sigs : forall b,
  blink_inv b -> Forall sig_verified sigs -> exists b' added, record_signatures b sigs = inr (b', added) /\ blink_inv b'.
Proof using All.
  induction sigs as [|ps sigs IH]; intros b Hb Hs; [by exists b, []|]. inv Hs. cbn.
  destruct (record_one b ps) as (ok & b1 & -> & Hb1); [done|done|]. destruct (IH b1) as (b2 & added & -> & Hb2); [done|done|]. eauto.
Qed.

(** The invariant. *)
Definition job_ok (b : blink_tx) (j : job) : Prop :=
  match jb_stage j with
  | found => Forall index_ok (jb_sigs j)
  | verified => Forall sig_verified (jb_sigs j)
  | recorded (Some d) => outcome_of b d
  | recorded None => True
  end.
Definition approving (j : job) : Prop := jb_stage j = recorded (Some true).
Record active (n : node) (b : blink_tx) : Prop := {
  ac_blink : blink_inv b;
  ac_jobs : Forall (job_ok b) (nd_jobs n);
  ac_decided : decided_ok b (nd_decided n);
  ac_replies : Forall (fun r => outcome_of b r.1) (nd_replies n);
  ac_pool : approved b = true -> nd_pool n <> absent \/ Exists approving (nd_jobs n);
  ac_this : nd_pool n = this_blink -> approved b = true;
}.
Definition node_inv (n : node) : Prop :=
  Forall index_ok (pending_sigs n) /\
  match btxptr n with
  | None => nd_jobs n = [] /\ nd_decided n = [] /\ nd_replies n = [] /\ nd_pool n <> this_blink
  | Some b => active n b
  end.

Lemma job_ok_grows b b' j : grows b b' -> blink_ok b' -> job_ok b j -> job_ok b' j.
Proof using All. intros Hg Hok. unfold job_ok. destruct (jb_stage j) as [| |[d|]]; [done|done| |done]. by apply outcome_grows. Qed.

Lemma stash_ok n sigs : Forall index_ok sigs -> Forall index_ok (pending_sigs n) -> Forall index_ok (pending_sigs (stash n sigs)).
Proof using All.
  cbn. generalize (pending_sigs n) as set. induction sigs as [|ps sigs IH]; intros set Hs Hp; [done|]. inv Hs. cbn. apply IH; [done|].
  case_decide; [done|by constructor].
Qed.

Lemma submit_active n b tag sigs :
  start_blink height txhash quorums = inr b -> Forall index_ok sigs -> btxptr n = None -> node_inv n -> active (submit n b tag sigs) b.
Proof using All.
  intros Hb Hs Hn [_ Hi]. rewrite Hn in Hi. destruct Hi as (J & D & R & P).
  destruct (get_blink_quorums_ok _ _ _ _ _ Hquorums) as (v0 & v1 & E & S0 & S1 & _). rewrite E in Hb.
  apply start_blink_ok in Hb as (Hok & Hh & Ht & Hd & Ha); [|done..].
  assert (approved b = false) as Hna by (destruct Hd as [(_ & ? & _)|(? & ? & _)]; done).
  split; cbn; rewrite ?J, ?D, ?R; [|by repeat constructor|done|done|congruence|done].
  split; [done..|]. intros q p sig _ _ Hsl. by apply Ha in Hsl.
Qed.

Lemma submit_again_active n b tag : btxptr n = Some b -> active n b -> active (submit_again n b tag) b.
Proof using All.
  intros Hn [Hb J D R P T]. unfold submit_again. destruct (tag =? 0); [done|].
  destruct (approved b) eqn:Ea; [|destruct (rejected b) eqn:Er]; (split; cbn; rewrite ?Ea; [done|done|done| |done|done]); [apply Forall_app_2; [done|]..|done].
  - by repeat constructor.
  - by repeat constructor.
Qed.

Lemma add_new_active n b :
  active n b ->
  active (Node (btxptr n) (pending_sigs n) (reply_tag n) (nd_jobs n) (add_new_blink_entry b (nd_pool n)) (nd_decided n) (nd_replies n)) b.
Proof using All.
  intros [Hb J D R P T]. split; cbn; [done|done|done|done| |]; unfold add_new_blink_entry; destruct (nd_pool n), (approved b); auto.
Qed.

Lemma jobs_active n b js :
  active n b -> Forall (job_ok b) js -> (Exists approving (nd_jobs n) -> Exists approving js) -> active (with_jobs n js) b.
Proof using All. intros [Hb J D R P T] Hj He. split; cbn; [done|done|done|done| |done]. intros Ha. destruct (P Ha); auto. Qed.

Lemma check_active n b pre tag sigs post sigs' :
  active n b -> nd_jobs n = pre ++ Job tag found sigs :: post ->
  check_batch cn_fast_hash check_signature quorums b sigs = inr sigs' ->
  active (with_jobs n (pre ++ (if decide (sigs' = []) then [] else [Job tag verified sigs']) ++ post)) b.
Proof using All.
  intros Ha Ej Ec. pose proof (ac_jobs _ _ Ha) as J. rewrite Ej, Forall_app, Forall_cons in J. destruct J as (J1 & J2 & J3).
  destruct (check_batch_ok b sigs) as (sigs2 & E2 & Hv); [apply Ha|done|]. assert (sigs2 = sigs') as -> by congruence.
  apply jobs_active; [done| |].
  - apply Forall_app_2; [done|]. apply Forall_app_2; [|done]. case_decide; [done|]. by repeat constructor.
  - rewrite Ej, !Exists_app, Exists_cons. intros [?|[?|?]]; [by left|done|by right; right].
Qed.

Lemma record_active n b pre tag sigs post b' added :
  active n b -> nd_jobs n = pre ++ Job tag verified sigs :: post -> record_signatures b sigs = inr (b', added) ->
  active (Node (Some b') (pending_sigs n) (reply_tag n) (pre ++ Job tag (recorded (became b b' added)) added :: post) (nd_pool n)
            (nd_decided n ++ option_list (became b b' added)) (nd_replies n)) b'.
Proof using All.
  intros [Hb J D R P T] Ej Er. rewrite Ej, Forall_app, Forall_cons in J. destruct J as (J1 & J2 & J3).
  destruct (record_ok sigs b) as (b2 & added2 & E2 & Hb'); [done|done|]. assert (b2 = b') as -> by congruence.
  destruct (record_signatures_grows _ _ _ _ Er) as [Hg Hadd]. pose proof (bi_ok _ Hb') as Hok.
  split; cbn; [done| |by apply became_decided| | |].
  - apply Forall_app_2; [|constructor].
    + eapply Forall_impl; [exact J1|]. intros j. by apply job_ok_grows.
    + unfold job_ok. cbn. destruct (became b b' added) eqn:Eb; [by eapply became_outcome|done].
    + eapply Forall_impl; [exact J3|]. intros j. by apply job_ok_grows.
  - eapply Forall_impl; [exact R|]. intros r. by apply outcome_grows.
  - intros Ha'. destruct (approved b) eqn:Ea.
    + destruct (P eq_refl) as [?|He]; [by left|right]. rewrite Ej in He. rewrite Exists_app, Exists_cons in He |- *.
      destruct He as [?|[?|?]]; [by left|done|by right; right].
    + right. rewrite Exists_app, Exists_cons. right; left. unfold approving. cbn. f_equal. unfold became. rewrite Ea, Ha'. cbn.
      destruct D as [(_ & _ & Hr)|(d & _ & Ho)].
      * rewrite Hr. cbn. case_bool_decide as Ead; [|done]. rewrite Hadd in Ha' by done. congruence.
      * exfalso. pose proof (outcome_grows _ _ _ Hg Hok Ho) as Ho'. destruct d; cbn in Ho, Ho'; [congruence|]. destruct Ho'. congruence.
  - intros E. by eapply approved_grows, T.
Qed.

Lemma finish_active n b pre tag outcome sigs post :
  active n b -> nd_jobs n = pre ++ Job tag (recorded outcome) sigs :: post -> active (finish n tag outcome (pre ++ post)) b.
Proof using All.
  intros [Hb J D R P T] Ej. rewrite Ej, Forall_app, Forall_cons in J. destruct J as (J1 & J2 & J3). unfold job_ok in J2. cbn in J2.
  split; cbn; [done|by apply Forall_app_2|done| | |].
  - apply Forall_app_2; [done|]. destruct outcome as [d|]; [|done]. destruct (tag =? 0); [done|]. by repeat constructor.
  - intros Ha. destruct outcome as [[]|]; [destruct (nd_pool n); by left|..].
    all: destruct (P Ha) as [?|He]; [left; by destruct (nd_pool n)|right]; rewrite Ej, Exists_app, Exists_cons in He; rewrite Exists_app;
      destruct He as [?|[?|?]]; [by left|done|by right].
  - destruct outcome as [[]|]; [destruct (nd_pool n); auto|exact T..].
Qed.

Lemma node_step_inv n n' : node_step n n' -> node_inv n -> node_inv n'.
Proof using All.
  intros Hstep [Hp Hi]. pose proof (conj Hp Hi : node_inv n) as Hinv.
  destruct Hstep as [sigs Hn Hs|b tag own sigs Hn Hb Hown Hperm Htag|b tag Hn Htag|b Hn|b Hpool|b sigs Hn Hs|b pre tag sigs post sigs' Hn Hj Hc|b pre tag sigs post b' added Hn Hj Hr|pre tag outcome sigs post Hj].
  - split; [by apply stash_ok|]. cbn. by rewrite Hn in Hi |- *.
  - split; [by constructor|]. apply submit_active; [done| |done|done]. rewrite Hperm. by apply Forall_app_2.
  - rewrite Hn in Hi. assert (btxptr (submit_again n b tag) = Some b /\ pending_sigs (submit_again n b tag) = pending_sigs n) as [E1 E2].
    { unfold submit_again. by destruct (tag =? 0), (approved b), (rejected b). }
    split; rewrite ?E1, ?E2; [done|]. by apply submit_again_active.
  - split; [done|]. cbn. rewrite Hn in Hi |- *. rewrite <- Hn. by apply add_new_active.
  - split; [done|]. cbn. destruct (btxptr n) as [b0|]; [|by destruct Hi as (? & ? & ? & _)].
    destruct Hi as [Hb J D R P T]. split; cbn; [done..|by left|done].
  - split; [done|]. cbn. rewrite Hn in Hi |- *. apply jobs_active; [done| |intros ?; apply Exists_app; by left].
    apply Forall_app_2; [apply Hi|by repeat constructor].
  - split; [done|]. cbn. rewrite Hn in Hi |- *. by eapply check_active.
  - split; [done|]. cbn. rewrite Hn in Hi. by eapply record_active.
  - split; [done|]. cbn. destruct (btxptr n) as [b|]; [by eapply finish_active|]. destruct Hi as (E & _). rewrite E in Hj. by destruct pre.
Qed.

Lemma node_reachable_inv n : reachable cn_fast_hash check_signature quorums height txhash n -> node_inv n.
Proof using All.
  intros Hr. assert (node_inv first_node) as H0 by (by repeat constructor). revert H0. unfold reachable in Hr.
  induction Hr as [|x y z Hs Hr IH]; intros Hx; [done|]. apply IH. by eapply node_step_inv.
Qed.
End Invariant.
