(* ===== verification/BlinkRelay.v ===== *)
(** * A blink from the quorum to the pools

    The form in which an approved blink of [BlinkQuorum] is sent to the rest of the network, taken in again as [Blink] models
    it; and the two theorems on a blink's way: the quorum decides once, and what it decided reaches every node. *)
From stdpp Require Import gmap relations.
From S2P Require Import Prelude Hardfork Rules Voting Blink BlinkQuorum.
#[local] Open Scope Z_scope.

(** ** Sending a blink on *)

(** What a peer can know of a blink: its approvals. *)
Definition approved_slot (s : quorum_signature) : quorum_signature := if decide (bs_status s = sig_approved) then s else empty_slot.
Definition approvals_only (b : blink_tx) : blink_tx :=
  BlinkTx (bl_height b) (bl_txhash b) ((fun row : list quorum_signature => approved_slot <$> row) <$> signatures_ b).

Lemma approvals_only_ok b : blink_ok b -> blink_ok (approvals_only b).
Proof.
  intros [H1 H2]. split; cbn; [by rewrite length_fmap|]. apply Forall_fmap. eapply Forall_impl; [exact H2|]. intros row. cbn. by rewrite length_fmap.
Qed.
Lemma slot_at_approvals b q p :
  slot_at (approvals_only b) q p = approved_slot <$> slot_at b q p.
Proof.
  unfold slot_at, approvals_only. cbn. rewrite list_lookup_fmap. destruct (signatures_ b !! Z.to_nat q) as [row|]; [|done]. cbn.
  by rewrite list_lookup_fmap.
Qed.
Lemma approvals_only_approved b : approved (approvals_only b) = approved b.
Proof.
  unfold approved, approvals_only. cbn. induction (signatures_ b) as [|row rows IH]; [done|]. cbn [fmap list_fmap forallb]. f_equal; [|exact IH].
  f_equal. unfold sig_count. f_equal. apply filter_fmap_length. intros s. unfold approved_slot. case_decide; [done|]. cbn. split; [done|congruence].
Qed.

Lemma row_entries_keys q row : fst <$> row_entries q row = (fun p => (Z.of_nat q, Z.of_nat p)) <$> positions row sig_approved.
Proof.
  unfold row_entries, positions. induction (seq 0 (length row)) as [|p l IH]; [done|]. rewrite filter_cons. cbn [omap list_omap].
  case_decide as E; unfold has_status in E; destruct (row !! p) as [s|]; cbn in E |- *; try done.
  - rewrite decide_True by congruence. cbn. by f_equal.
  - by rewrite decide_False by congruence.
Qed.
Lemma row_entries_length q row : Z.of_nat (length (row_entries q row)) = sig_count row sig_approved.
Proof. rewrite <- (length_fmap fst), row_entries_keys, length_fmap. by rewrite sig_count_positions. Qed.
Lemma row_entries_in q row e :
  e ∈ row_entries q row <-> exists p, e.1 = (Z.of_nat q, Z.of_nat p) /\ row !! p = Some (BlinkSignature sig_approved e.2).
Proof.
  unfold row_entries. rewrite list_elem_of_omap. split.
  - intros (p & _ & Hp). apply bind_Some in Hp as (s & Hs & Hd). case_decide as E; [|done]. injection Hd as <-. exists p. cbn.
    destruct s as [st sig]. cbn in *. by subst.
  - intros (p & Hk & Hp). exists p. split; [apply elem_of_seq; apply lookup_lt_Some in Hp; lia|]. rewrite Hp. cbn.
    destruct e as [k sig]. cbn in *. by rewrite Hk.
Qed.

(** The entries of a blink, by its two rows. *)
Lemma blink_rows b : blink_ok b -> exists r0 r1, signatures_ b = [r0; r1] /\ approval_entries b = row_entries 0 r0 ++ row_entries 1 r1.
Proof.
  intros [H _]. change (Z.to_nat subquorum_count) with 2%nat in H. unfold approval_entries. destruct (signatures_ b) as [|r0 [|r1 [|]]]; try done.
  exists r0, r1. split; [done|]. cbn. by rewrite app_nil_r.
Qed.
Lemma approval_entries_in b q p sig :
  blink_ok b -> (q, p, sig) ∈ approval_entries b <-> 0 <= q /\ 0 <= p /\ slot_at b q p = Some (BlinkSignature sig_approved sig).
Proof.
  intros (r0 & r1 & E & ->)%blink_rows. rewrite elem_of_app, !row_entries_in. cbn. unfold slot_at. rewrite E. split.
  - intros [(p' & [= -> ->] & Hp)|(p' & [= -> ->] & Hp)]; (split_and!; [lia..|]); cbn; by rewrite Nat2Z.id.
  - intros (Hq & Hp & (row & Hrow & Hs)%bind_Some). assert (q = 0 \/ q = 1) as [-> | ->].
    { apply lookup_lt_Some in Hrow. cbn in Hrow. lia. }
    + left. injection Hrow as <-. exists (Z.to_nat p). by rewrite Z2Nat.id.
    + right. injection Hrow as <-. exists (Z.to_nat p). by rewrite Z2Nat.id.
Qed.
Lemma approval_entries_NoDup b : blink_ok b -> NoDup (fst <$> approval_entries b).
Proof.
  intros (r0 & r1 & _ & ->)%blink_rows. rewrite fmap_app, !row_entries_keys. apply NoDup_app. split_and!.
  - apply NoDup_fmap_2; [intros x y [= ?]; lia|apply positions_NoDup].
  - intros k (p & -> & _)%list_elem_of_fmap (p' & [= ?] & _)%list_elem_of_fmap.
  - apply NoDup_fmap_2; [intros x y [= ?]; lia|apply positions_NoDup].
Qed.
Lemma metadata_entries_fill b : metadata_entries (fill_serialization_data b) = approval_entries b.
Proof.
  unfold metadata_entries, fill_serialization_data. cbn. induction (approval_entries b) as [|[[q p] sig] es IH]; [done|]. cbn. by f_equal.
Qed.

(** What an approved blink is sent as passes the checks of the form. *)
Lemma fill_well_formed b :
  blink_ok b -> approved b = true -> blink_quorum_height (bl_height b) 0 <> 0 -> malformed (fill_serialization_data b) = false.
Proof.
  intros Hok Ha Hh. assert (Forall (fun e => e.1.1 < 2 /\ e.1.2 < 10) (approval_entries b)) as He.
  { apply Forall_forall. intros [[q p] sig] Hin. apply approval_entries_in in Hin as (Hq & Hp & Hs); [|done]. cbn.
    pose proof (proj1 (slot_at_some b q p Hok) ltac:(eauto)). lia. }
  unfold malformed, fill_serialization_data. cbn [bm_signature bm_position bm_quorum bm_height]. rewrite !length_fmap, Nat.eqb_refl. cbn [negb orb].
  destruct (blink_rows b Hok) as (r0 & r1 & E & Ee). destruct Hok as [_ Hl]. rewrite E in Hl. inv Hl as [|? ? L0 Hl']. inv Hl' as [|? ? L1 _].
  unfold approved in Ha. rewrite E in Ha. cbn [forallb] in Ha. rewrite !andb_true_iff, !Z.leb_le in Ha.
  pose proof (sig_counts_share r0) as C0. pose proof (sig_counts_share r1) as C1. rewrite L0 in C0. rewrite L1 in C1.
  assert (Z.of_nat (length (approval_entries b)) = sig_count r0 sig_approved + sig_count r1 sig_approved) as Hn.
  { rewrite Ee, length_app, Nat2Z.inj_add. by rewrite !row_entries_length. }
  assert (forall row, 0 <= sig_count row sig_rejected) as Hpos by (intros; unfold sig_count; lia).
  pose proof (Hpos r0). pose proof (Hpos r1). unfold BLINK_MIN_VOTES, BLINK_SUBQUORUM_SIZE, subquorum_count in *.
  rewrite !orb_false_iff, !Z.ltb_ge, Z.eqb_neq. split_and!; [lia|lia|done| |].
  - apply not_true_iff_false. intros (p & Hp & Hle)%existsb_exists. apply list_elem_of_In, list_elem_of_fmap in Hp as (e & -> & Hin).
    rewrite Forall_forall in He. specialize (He e Hin). apply Z.leb_le in Hle. lia.
  - apply not_true_iff_false. intros (q & Hq & Hle)%existsb_exists. apply list_elem_of_In, list_elem_of_fmap in Hq as (e & -> & Hin).
    rewrite Forall_forall in He. specialize (He e Hin). apply Z.leb_le in Hle. lia.
Qed.

Section Relay.
Context (cn_fast_hash : bytes -> bytes) (check_signature : bytes -> bytes -> bytes -> bool).
Context (get_quorum : Z -> option (list bytes)).

#[local] Abbreviation signed := (signed cn_fast_hash check_signature get_quorum).
#[local] Abbreviation take_signature := (take_signature cn_fast_hash check_signature).
#[local] Abbreviation parse_blink := (parse_blink cn_fast_hash check_signature get_quorum).

(** A signature that checks goes into its slot, if that is free. *)
Definition entry_checks (validators : list (list bytes)) (b : blink_tx) (e : Z * Z * bytes) : Prop :=
  check_args e.1.1 e.1.2 = true /\
  exists key, (row ← validators !! Z.to_nat e.1.1; row !! Z.to_nat e.1.2) = Some key /\
    check_signature (blink_hash cn_fast_hash true b) key e.2 = true.

Lemma take_signature_free validators b q p sig :
  entry_checks validators b (q, p, sig) -> slot_at b q p = Some empty_slot ->
  take_signature validators b (q, p, sig) = with_slot b q p (BlinkSignature sig_approved sig).
Proof using All.
  intros (Ha & key & Hk & Hs) Hf. cbn in Ha, Hk, Hs. unfold Blink.take_signature. rewrite Hk. unfold add_signature, add_prechecked_signature.
  by rewrite Ha, Hs, Hf.
Qed.

(** A list of such signatures for different free slots. *)
Lemma take_all_free validators es : forall b,
  NoDup (fst <$> es) -> Forall (entry_checks validators b) es -> Forall (fun e => slot_at b e.1.1 e.1.2 = Some empty_slot) es ->
  blink_ok b ->
  let b' := foldl (take_signature validators) b es in
  blink_ok b' /\ bl_height b' = bl_height b /\ bl_txhash b' = bl_txhash b /\
  forall q p, 0 <= q -> 0 <= p ->
    (forall sig, (q, p, sig) ∈ es -> slot_at b' q p = Some (BlinkSignature sig_approved sig)) /\
    ((q, p) ∉ (fst <$> es) -> slot_at b' q p = slot_at b q p).
Proof using All.
  cbv zeta. induction es as [|[[q0 p0] sig0] es IH]; intros b Hd Hc Hf Hok; cbn [foldl].
  { split_and!; [done..|]. intros q p _ _. split; [|done]. by intros sig ?%not_elem_of_nil. }
  rewrite fmap_cons in Hd. inv Hd as [|? ? Hn Hd']. inv Hc as [|? ? Hc0 Hc']. inv Hf as [|? ? Hf0 Hf']. cbn in Hf0, Hn.
  rewrite take_signature_free by done. destruct Hc0 as (Ha & _). cbn in Ha. apply check_args_spec in Ha as [Hq0 Hp0].
  set (b1 := with_slot b q0 p0 _). destruct (IH b1) as (H1 & H2 & H3 & H4); [done|done| |by apply with_slot_ok|].
  { rewrite Forall_forall in Hf', Hc' |- *. intros [[q p] sig] Hin. cbn. specialize (Hf' _ Hin). cbn in Hf'. 
    destruct (Hc' _ Hin) as (Ha & _). cbn in Ha. apply check_args_spec in Ha as [Hq Hp]. unfold b1. rewrite slot_at_with_slot by lia.
    rewrite decide_False; [done|]. intros [-> ->]. apply Hn. apply list_elem_of_fmap. by exists (q0, p0, sig). }
  split_and!; [done|done|done|]. intros q p Hq Hp. destruct (H4 q p Hq Hp) as [H5 H6].
  assert (slot_at b1 q p = if decide (q = q0 /\ p = p0) then (fun _ => BlinkSignature sig_approved sig0) <$> slot_at b q p else slot_at b q p) as E1
    by (apply slot_at_with_slot; lia).
  split.
  - intros sig [E|Hin]%elem_of_cons; [|by apply H5]. injection E as -> -> ->. rewrite H6 by done. rewrite E1, decide_True by done. by rewrite Hf0.
  - rewrite fmap_cons, not_elem_of_cons. intros [Hne Hni]. rewrite H6 by done. rewrite E1, decide_False; [done|]. intros [-> ->]. by apply Hne.
Qed.

(** A new blink's slots are free. *)
Lemma slot_at_new h t q p : check_args q p = true -> slot_at (new_blink h t) q p = Some empty_slot.
Proof using All.
  intros [Hq Hp]%check_args_spec. destruct (proj2 (slot_at_some (new_blink h t) q p (new_blink_ok h t))) as [s Hs].
  { unfold subquorum_count, BLINK_SUBQUORUM_SIZE in *. lia. }
  rewrite Hs. unfold slot_at in Hs. apply bind_Some in Hs as (row & Hr & Hs).
  apply list_elem_of_lookup_2, elem_of_replicate in Hr as [-> _]. by apply list_elem_of_lookup_2, elem_of_replicate in Hs as [-> _].
Qed.

Lemma quorum_in h validators :
  mapM (fun q => get_quorum (blink_quorum_height h q)) [0; 1] = Some validators ->
  forall q, 0 <= q < subquorum_count -> exists row, validators !! Z.to_nat q = Some row /\ get_quorum (blink_quorum_height h q) = Some row.
Proof using All.
  intros Hv q Hq. assert (Z.to_nat q < length validators)%nat as [row Hr]%lookup_lt_is_Some_2.
  { pose proof (length_mapM _ _ _ Hv) as Hl. cbn in Hl. unfold subquorum_count in Hq. lia. }
  exists row. split; [done|]. eapply quorums_of; [exact cn_fast_hash|exact check_signature|exact Hv|done|lia].
Qed.

Lemma parse_fill b validators :
  blink_ok b -> signed b -> malformed (fill_serialization_data b) = false ->
  mapM (fun q => get_quorum (blink_quorum_height (bl_height b) q)) [0; 1] = Some validators ->
  parse_blink (fill_serialization_data b) = approvals_only b.
Proof using All.
  intros Hok Hs Hm Hv. unfold Blink.parse_blink. rewrite Hm. cbn [bm_height fill_serialization_data]. rewrite Hv.
  change (bm_tx_hash (fill_serialization_data b)) with (bl_txhash b).
  rewrite metadata_entries_fill. set (b0 := new_blink (bl_height b) (bl_txhash b)).
  assert (Forall (fun e => check_args e.1.1 e.1.2 = true /\ slot_at b e.1.1 e.1.2 = Some (BlinkSignature sig_approved e.2)) (approval_entries b)) as Hes.
  { apply Forall_forall. intros [[q p] sig] Hin. apply approval_entries_in in Hin as (Hq & Hp & Hsl); [|done]. cbn. split; [|done].
    pose proof (proj1 (slot_at_some b q p Hok) ltac:(eauto)). apply check_args_spec. unfold subquorum_count, BLINK_SUBQUORUM_SIZE. lia. }
  destruct (take_all_free validators (approval_entries b) b0) as (H1 & H2 & H3 & H4).
  - by apply approval_entries_NoDup.
  - eapply Forall_impl; [exact Hes|]. intros [[q p] sig] [Ha Hsl]. cbn in Ha, Hsl. split; [done|]. cbn. apply check_args_spec in Ha as [Hq Hp].
    destruct (Hs q p sig ltac:(lia) ltac:(lia) Hsl) as (key & (row & Hrow & Hk) & Hc). exists key. split; [|exact Hc].
    apply bind_Some. exists row. split; [|done]. destruct (quorum_in _ _ Hv q) as (row' & E1 & E2); [done|]. congruence.
  - eapply Forall_impl; [exact Hes|]. intros [[q p] sig] [Ha _]. by apply slot_at_new.
  - apply new_blink_ok.
  - apply blink_ext; [done|by apply approvals_only_ok|done|done|]. intros q p Hq Hp. destruct (H4 q p Hq Hp) as [H5 H6].
    rewrite slot_at_approvals. destruct (slot_at b q p) as [[st sig]|] eqn:Esl; cbn.
    + unfold approved_slot. cbn. case_decide as Est.
      * subst st. apply H5. by apply approval_entries_in.
      * rewrite H6.
        -- apply slot_at_new. pose proof (proj1 (slot_at_some b q p Hok) ltac:(eauto)). apply check_args_spec.
           unfold subquorum_count, BLINK_SUBQUORUM_SIZE. lia.
        -- intros ([[q' p'] sig'] & [= <- <-] & Hin)%list_elem_of_fmap. apply approval_entries_in in Hin as (_ & _ & E); [congruence|done].
    + rewrite H6.
      * apply eq_None_not_Some. rewrite slot_at_some by apply new_blink_ok. rewrite <- slot_at_some by exact Hok. rewrite Esl. by intros [? ?].
      * intros ([[q' p'] sig'] & [= <- <-] & Hin)%list_elem_of_fmap. apply approval_entries_in in Hin as (_ & _ & E); [congruence|done].
Qed.
End Relay.

(** ** From the quorum to the pools *)

Section Way.
Context (cn_fast_hash : bytes -> bytes) (check_signature : bytes -> bytes -> bytes -> bool).
Context (get_quorum : Z -> option (list bytes)).

(** Calls under way end: each has at most three steps left, and none of them throws. *)
Definition steps_left (j : job) : nat := match jb_stage j with found => 3 | verified => 2 | recorded _ => 1 end.
Lemma jobs_end quorums height txhash c sum :
  get_blink_quorums get_quorum height c = inr (quorums, sum) ->
  forall k n, node_inv cn_fast_hash check_signature get_quorum quorums height txhash n -> (sum_list_with steps_left (nd_jobs n) <= k)%nat ->
  exists n', rtc (node_step cn_fast_hash check_signature quorums height txhash) n n' /\ nd_jobs n' = [].
Proof using All.
  intros Hq. set (step := node_step cn_fast_hash check_signature quorums height txhash).
  induction k as [|k IH]; intros n Hi Hk; (destruct (nd_jobs n) as [|[tag stg sigs] js] eqn:Ej; [by exists n|]).
  { cbn in Hk. unfold steps_left in Hk. destruct stg; cbn in Hk; lia. }
  assert (exists n1, step n n1 /\ (sum_list_with steps_left (nd_jobs n1) <= k)%nat) as (n1 & Hs & Hk1).
  { destruct Hi as [_ Hb]. destruct (btxptr n) as [b|] eqn:Eb; [|by destruct Hb as [? _]; congruence].
    pose proof (ac_jobs _ _ _ _ _ _ _ _ Hb) as J. rewrite Ej in J. inv J as [|? ? J1 _]. unfold job_ok in J1. cbn in J1.
    pose proof (ac_blink _ _ _ _ _ _ _ _ Hb) as Hbi. destruct stg as [| |outcome]; cbn in J1.
    - destruct (check_batch_ok _ _ _ _ _ _ _ _ Hq b sigs Hbi J1) as (sigs' & Ec & _).
      eexists. split; [eapply step_check with (pre := []); [exact Eb|exact Ej|exact Ec]|]. cbn in Hk |- *.
      case_decide; cbn; lia.
    - destruct (record_ok _ _ _ _ _ _ _ _ Hq sigs b Hbi J1) as (b' & added & Er & _).
      eexists. split; [eapply step_record with (pre := []); [exact Eb|exact Ej|exact Er]|]. cbn in Hk |- *.
      lia.
    - eexists. split; [eapply step_finish with (pre := []); exact Ej|]. cbn in Hk |- *. lia. }
  destruct (IH n1) as (n' & Hr & Hn'); [by eapply node_step_inv|done|]. exists n'. split; [by eapply rtc_l|done].
Qed.

(** (C5) Whatever signatures arrive at a node of the quorum, in whatever order, before or after the transaction itself, and
    however the threads that work on the blink interleave: at most one of them finds the blink decided, and exactly when it
    is (approved, or else rejected); every reply to a submitter is that decision; the pool holds this blink only if it is approved,
    and, when no call is under way, holds a blink of the transaction if it is; and the calls under way all end, none with an exception. *)
Theorem blink_decided_once quorums height txhash input_checksum sum n b :
  get_blink_quorums get_quorum height input_checksum = inr (quorums, sum) ->
  reachable cn_fast_hash check_signature quorums height txhash n ->
  btxptr n = Some b ->
  (nd_decided n = [] /\ approved b = false /\ rejected b = false \/
   nd_decided n = [true] /\ approved b = true /\ rejected b = false \/
   nd_decided n = [false] /\ approved b = false /\ rejected b = true) /\
  Forall (fun r => nd_decided n = [r.1]) (nd_replies n) /\
  (nd_pool n = this_blink -> approved b = true) /\
  (nd_jobs n = [] -> approved b = true -> nd_pool n <> absent) /\
  exists n', rtc (node_step cn_fast_hash check_signature quorums height txhash) n n' /\ nd_jobs n' = [].
Proof using All.
  intros Hq Hr Hb. pose proof (node_reachable_inv _ _ _ _ _ _ _ _ Hq n Hr) as Hi. pose proof Hi as [_ Ha]. rewrite Hb in Ha.
  destruct Ha as [Hbi J D R P T]. pose proof (bi_ok _ _ _ _ _ _ Hbi) as Hok. split_and!.
  - destruct D as [?|([] & -> & Ho)]; [by left|right; left|right; right]; cbn in Ho; [|tauto]. split_and!; [done|done|by apply approved_not_rejected].
  - eapply Forall_impl; [exact R|]. intros [d tag] Ho. cbn in Ho |- *. destruct D as [(_ & ? & ?)|(d' & -> & Ho')].
    + destruct d; cbn in Ho; [congruence|]. destruct Ho. congruence.
    + f_equal. destruct d, d'; cbn in Ho, Ho'; try done; [destruct Ho'|destruct Ho]; congruence.
  - exact T.
  - intros Ej Happ. destruct (P Happ) as [|He]; [done|]. rewrite Ej in He. by inv He.
  - by eapply jobs_end.
Qed.

(** (C6) A blink that the quorum approved reaches every node: in the form in which it is sent, a node that wants the blink (it is past
    the fork, the transaction is not in an immutable block, and the pool has no blink of it) accepts it, and reads back every
    approval, in its slot and with its signature, and nothing else. *)
Theorem blink_relay_roundtrip quorums height txhash input_checksum sum n b network_version tx_height immutable_height pool :
  get_blink_quorums get_quorum height input_checksum = inr (quorums, sum) ->
  reachable cn_fast_hash check_signature quorums height txhash n ->
  btxptr n = Some b -> approved b = true ->
  feature_BLINK <= network_version -> tx_height txhash = 0 \/ immutable_height < tx_height txhash -> pool !! txhash = None ->
  let received := (parse_incoming_blinks cn_fast_hash check_signature get_quorum network_version tx_height immutable_height pool
                     [fill_serialization_data b]).1 in
  received = [approvals_only b] /\ add_blinks received pool = (1, <[txhash := approvals_only b]> pool).
Proof using All.
  intros Hq Hr Hb Ha Hv Htx Hp. pose proof (node_reachable_inv _ _ _ _ _ _ _ _ Hq n Hr) as [_ Hact]. rewrite Hb in Hact.
  destruct (ac_blink _ _ _ _ _ _ _ _ Hact) as [Hok Hh Ht Hs].
  destruct (get_blink_quorums_ok _ _ _ _ _ Hq) as (v0 & v1 & _ & _ & _ & Hnz & Q0 & Q1).
  assert (parse_blink cn_fast_hash check_signature get_quorum (fill_serialization_data b) = approvals_only b) as Hparse.
  { apply parse_fill with (validators := [v0; v1]); [done|done| |]; rewrite ?Hh; [apply fill_well_formed; congruence|]. cbn. by rewrite Q0, Q1. }
  assert ((parse_incoming_blinks cn_fast_hash check_signature get_quorum network_version tx_height immutable_height pool
             [fill_serialization_data b]).1 = [approvals_only b]) as E.
  { unfold parse_incoming_blinks. rewrite (proj2 (Z.ltb_ge _ _)) by done. cbn [List.filter fst bm_tx_hash fill_serialization_data]. rewrite Ht, Hp.
    rewrite (proj2 (orb_true_iff _ _)) by (rewrite Z.eqb_eq, Z.ltb_lt; done). cbn [andb bool_decide]. rewrite bool_decide_eq_true_2 by done. cbn. by rewrite Hparse. }
  cbv zeta. rewrite E. split; [done|]. unfold add_blinks, add_blink. cbn [foldl]. rewrite approvals_only_approved, Ha.
  unfold add_existing_blink. cbn [bl_txhash approvals_only]. rewrite Ht. cbn [snd]. by rewrite Hp.
Qed.
End Way.

(** ** A run *)

Definition demo_quorums : list (list bytes) := [demo_keys 10; demo_keys 10].
Definition demo_start : blink_tx := BlinkTx 100 [7] [limited_row 10; limited_row 10].
Definition demo_sigs : list pending_signature :=
  let msg := blink_hash id true demo_start in
  q ← [0; 1]; imap (fun p k => Pending true q (Z.of_nat p) (k ++ msg)) (take 7 (demo_keys 10)).
Definition demo_approved : blink_tx := from_option fst demo_start (match record_signatures demo_start demo_sigs with inr r => Some r | inl _ => None end).

(** The blink comes from another node, the signatures of the quorum follow, and before they are recorded it is submitted here with
    a tag: the call under way does not see it, and the submitter is never told that the blink is approved. *)
Definition demo_done : node := Node (Some demo_approved) [] 5 [] this_blink [true] [].
Lemma demo_blink_run : reachable id demo_check demo_quorums 100 [7] demo_done.
Proof.
  unfold reachable. eapply rtc_l. { by apply step_submit with (b := demo_start) (tag := 0) (own := []) (sigs := []). }
  eapply rtc_l. { eapply (step_find _ _ _ _ _ _ demo_start demo_sigs); [done|]. by repeat constructor. }
  eapply rtc_l. { by apply step_submit_again with (b := demo_start) (tag := 5). }
  eapply rtc_l. { eapply (step_check _ _ _ _ _ _ demo_start [Job 0 found []]); [done|done|vm_compute; reflexivity]. }
  eapply rtc_l. { eapply (step_record _ _ _ _ _ _ demo_start [Job 0 found []]); [done|done|vm_compute; reflexivity]. }
  eapply rtc_l. { eapply (step_finish _ _ _ _ _ _ [Job 0 found []]). vm_compute; reflexivity. }
  eapply rtc_l. { eapply (step_check _ _ _ _ _ _ demo_approved []); [done|done|vm_compute; reflexivity]. }
  vm_compute. reflexivity.
Qed.

Lemma reply_lost :
  exists n b, reachable id demo_check demo_quorums 100 [7] n /\ btxptr n = Some b /\ approved b = true /\ reply_tag n = 5 /\
    nd_jobs n = [] /\ nd_decided n = [true] /\ nd_replies n = [].
Proof. exists demo_done, demo_approved. split_and!; [exact demo_blink_run|done..]. Qed.

Lemma blink_decided_once_witness :
  nd_decided demo_done = [true] /\ nd_pool demo_done <> absent /\ rejected demo_approved = false.
Proof.
  destruct (blink_decided_once id demo_check demo_quorum demo_quorums 100 [7] None _ demo_done demo_approved eq_refl demo_blink_run eq_refl)
    as ([(E & _)|[(_ & _ & Hr)|(E & _)]] & _ & _ & Hp & _); [discriminate E| |discriminate E].
  split; [reflexivity|]. split; [exact (Hp eq_refl eq_refl)|exact Hr].
Defined.

Lemma blink_relay_roundtrip_witness :
  add_blinks (parse_incoming_blinks id demo_check demo_quorum hf19_reward_batching (fun _ => 0) 50 ∅ [fill_serialization_data demo_approved]).1 ∅ =
  (1, <[[7] := approvals_only demo_approved]> ∅).
Proof.
  apply (blink_relay_roundtrip id demo_check demo_quorum demo_quorums 100 [7] None _ demo_done demo_approved hf19_reward_batching (fun _ => 0) 50 ∅ eq_refl demo_blink_run
           eq_refl eq_refl ltac:(vm_compute; discriminate) ltac:(left; reflexivity) eq_refl).
Defined.
