(* ===== verification/SwapBackend.v ===== *)
(** * The wallet swap back ends

    [swap_backend.js] and [swap_backend.py] drive two wallet RPC servers (the
    old and the new chain).  The JavaScript class is modelled in [Module Js]
    over the npm package's [WalletClient], which is a parameter; the Python
    class in [Module Py] goes through the repository's own JSON-RPC client
    ([utils/python-rpc/framework]), which is modelled down to the body of the
    HTTP POST, so that only [requests.post] is a parameter.

    Both are written in a small state and exception monad: the state holds the
    outside world, the calls issued so far and the lines written to the
    console.  [await] hands control to the outside; whatever happens meanwhile
    is part of the transition of the call that is awaited. *)
From S2P Require Import Prelude.
From stdpp Require Import strings pretty.
#[local] Open Scope string_scope.
#[local] Open Scope list_scope.
#[local] Open Scope Z_scope.

(** ** Values of the two languages *)

#[warnings="-register-all"]
Inductive jsval : Type :=
  | JUndefined
  | JNull
  | JBool (b : bool)
  | JNum (n : Z)
  | JNaN
  | JStr (s : string)
  | JArr (l : list jsval)
  | JObj (fields : list (string * jsval)).

(** JavaScript's [ToBoolean]. *)
Definition js_truthy (v : jsval) : bool :=
  match v with
  | JUndefined | JNull | JNaN => false
  | JBool b => b
  | JNum n => negb (n =? 0)
  | JStr s => negb (String.eqb s EmptyString)
  | JArr _ | JObj _ => true
  end.

(** Python's truth test: empty lists and dicts are false too, NaN is true. *)
Definition py_truthy (v : jsval) : bool :=
  match v with
  | JArr [] | JObj [] => false
  | JNaN => true
  | v => js_truthy v
  end.

Fixpoint get_field (k : string) (fields : list (string * jsval)) : option jsval :=
  match fields with
  | [] => None
  | (k', v) :: fs => if String.eqb k k' then Some v else get_field k fs
  end.

(** ** State and exceptions *)

Record io (W Call Line : Type) := Io {
  world : W;
  calls : list Call;
  console : list Line;
}.
Arguments Io {W Call Line}.
Arguments world {W Call Line}.
Arguments calls {W Call Line}.
Arguments console {W Call Line}.

Section Monad.
Context {W Call Line Exn : Type}.
Definition M (A : Type) : Type := io W Call Line -> io W Call Line * (Exn + A).

Definition ret {A} (a : A) : M A := fun s => (s, inr a).
Definition throw {A} (e : Exn) : M A := fun s => (s, inl e).
Definition bind {A B} (m : M A) (k : A -> M B) : M B := fun s =>
  match m s with
  | (s', inl e) => (s', inl e)
  | (s', inr a) => k a s'
  end.
(** [try { m } catch (e) { h e }]. *)
Definition try_catch {A} (m : M A) (h : Exn -> M A) : M A := fun s =>
  match m s with
  | (s', inl e) => h e s'
  | r => r
  end.
Definition log (l : Line) : M unit := fun s =>
  (Io (world s) (calls s) (console s ++ [l]), inr tt).
(** A call to the outside is recorded and may change the world or throw. *)
Definition call {A} (c : Call) (f : W -> W * (Exn + A)) : M A := fun s =>
  let '(w, r) := f (world s) in (Io w (calls s ++ [c]) (console s), r).
End Monad.

Declare Scope io_scope.
Notation "x <-! m ;; k" := (bind m (fun x => k))
  (at level 100, m at next level, right associativity) : io_scope.
Notation "m ;;! k" := (bind m (fun _ => k))
  (at level 100, right associativity) : io_scope.
#[local] Open Scope io_scope.

(** The address and amount of one transfer, as both programs lay it out. *)
Definition destinations (address amount : jsval) : jsval :=
  JArr [JObj [("address", address); ("amount", amount)]].

(** ** swap_backend.js *)
Module Js.

Record options := Options { host : string; port : Z; protocol : string }.

Inductive rpc (Client : Type) :=
  | GetBalance (c : Client)
  | GetAddress (c : Client)
  | Transfer (c : Client) (params : jsval).
Arguments GetBalance {Client}.
Arguments GetAddress {Client}.
Arguments Transfer {Client}.

(** The operations of [@arqma/arqma-rpc]'s [WalletClient]: each may throw
    (reject) and may change the world. *)
Class WalletClient (W Client Exn : Type) := {
  new_client : options -> W -> W * (Exn + Client);
  client_getBalance : Client -> W -> W * (Exn + jsval);
  client_getAddress : Client -> W -> W * (Exn + jsval);
  client_transfer : Client -> jsval -> W -> W * (Exn + jsval);
}.

Section XEQSwapBackend.
Context {W Client Exn : Type} `{WC : WalletClient W Client Exn}.

Inductive line :=
  | Error (msg : string) (e : Exn)
  | Log (msg : string) (v : jsval).

Let M := (@M W (rpc Client) line Exn).

Definition getBalance (c : Client) : M jsval := call (GetBalance c) (client_getBalance c).
Definition getAddress (c : Client) : M jsval := call (GetAddress c) (client_getAddress c).
Definition transfer (c : Client) (p : jsval) : M jsval :=
  call (Transfer c p) (client_transfer c p).
(** Constructing a client issues no RPC. *)
Definition newWalletClient (o : options) : M Client := fun s =>
  let '(w, r) := new_client o (world s) in (Io w (calls s) (console s), r).

Record XEQSwapBackend := Backend {
  sourceWalletClient : Client;
  targetWalletClient : Client;
}.

Definition constructor : M XEQSwapBackend :=
  source <-! newWalletClient (Options "127.0.0.1" 18090 "http") ;;
  target <-! newWalletClient (Options "127.0.0.1" 18096 "http") ;;
  ret (Backend source target).

Definition getSourceBalance (this : XEQSwapBackend) : M jsval :=
  try_catch
    (getBalance (sourceWalletClient this))
    (fun error => log (Error "Error getting source balance:" error) ;;! ret JNull).

Definition getTargetBalance (this : XEQSwapBackend) : M jsval :=
  try_catch
    (getBalance (targetWalletClient this))
    (fun error => log (Error "Error getting target balance:" error) ;;! ret JNull).

(** [fromSource = true]: the default replaces [undefined] only. *)
Definition transferXEQ (this : XEQSwapBackend) (amount fromSource : jsval) : M jsval :=
  let fromSource := match fromSource with JUndefined => JBool true | v => v end in
  try_catch
    (if js_truthy fromSource then
       targetAddress <-! getAddress (targetWalletClient this) ;;
       transfer (sourceWalletClient this)
         (JObj [("destinations", destinations targetAddress amount)])
     else
       sourceAddress <-! getAddress (sourceWalletClient this) ;;
       transfer (targetWalletClient this)
         (JObj [("destinations", destinations sourceAddress amount)]))
    (fun error => log (Error "Error transferring XEQ:" error) ;;! ret JNull).

Definition main : M unit :=
  swapBackend <-! constructor ;;
  try_catch
    (sourceBalance <-! getSourceBalance swapBackend ;;
     targetBalance <-! getTargetBalance swapBackend ;;
     log (Log "Source wallet balance:" sourceBalance) ;;!
     log (Log "Target wallet balance:" targetBalance))
    (fun error => log (Error "Error in main:" error)).
End XEQSwapBackend.
Arguments XEQSwapBackend : clear implicits.
Arguments line : clear implicits.
End Js.

(** ** swap_backend.py over utils/python-rpc *)
Module Py.

(** What a Python call can raise here: an exception of [requests] (or of
    decoding its response), or one of the interpreter's own. *)
Inductive exn (E : Type) :=
  | Requests (e : E)
  | AssertionError (v : jsval)
  | KeyError (k : string)
  | TypeError
  | AttributeError.
Arguments Requests {E}.
Arguments AssertionError {E}.
Arguments KeyError {E}.
Arguments TypeError {E}.
Arguments AttributeError {E}.

(** One HTTP POST: url and JSON body. *)
Inductive post := Post (url : string) (body : jsval).

(** [requests.post(...).json()]. *)
Class HttpRequests (W E : Type) := {
  requests_post : string -> jsval -> W -> W * (E + jsval);
}.

(** ['error' in res] of a decoded response. *)
Definition error_in {E} (res : jsval) : exn E + bool :=
  match res with
  | JObj fs => inr (if get_field "error" fs is Some _ then true else false)
  | JArr l => inr (existsb (fun v => match v with JStr s => String.eqb s "error" | _ => false end) l)
  | JStr s => inr (if String.index 0 "error" s is Some _ then true else false)
  | _ => inl TypeError
  end.

(** [res['result']]. *)
Definition result_field {E} (res : jsval) : exn E + jsval :=
  match res with
  | JObj fs => match get_field "result" fs with Some v => inr v | None => inl (KeyError "result") end
  | _ => inl TypeError
  end.

(** [Response(d)] copies a dict, converting the dicts it holds directly or in a
    list; it needs its argument to have [keys]. *)
Fixpoint response_copy (d : jsval) : jsval :=
  match d with
  | JObj fs =>
      JObj (map (fun '(k, v) =>
        (k, match v with
            | JObj _ => response_copy v
            | JArr l => JArr (map (fun x => match x with JObj _ => response_copy x | _ => x end) l)
            | _ => v
            end)) fs)
  | _ => d
  end.

Definition Response {E} (d : jsval) : exn E + jsval :=
  match d with
  | JObj _ => inr (response_copy d)
  | _ => inl AttributeError
  end.

Section Wallet.
Context {W E : Type} `{R : HttpRequests W E}.

Inductive line :=
  | PrintError (msg : string) (e : exn E)
  | PrintValue (msg : string) (v : jsval).

Let M := (@M W post line (exn E)).

Definition lift {A} (r : exn E + A) : M A :=
  match r with inl e => throw e | inr a => ret a end.

Definition http_post (url : string) (body : jsval) : M jsval :=
  call (Post url body)
    (fun w => let '(w', r) := requests_post url body w in
              (w', match r with inl e => inl (Requests e) | inr v => inr v end)).

(** [JSONRPC.send_request(path, inputs, 'result')]. *)
Definition send_request (url path : string) (inputs : jsval) : M jsval :=
  res <-! http_post (url +:+ path) inputs ;;
  err <-! lift (error_in res) ;;
  (if (err : bool) then throw (AssertionError res) else ret tt) ;;!
  res <-! lift (result_field res) ;;
  lift (Response res).

Definition send_json_rpc_request (url : string) (inputs : jsval) : M jsval :=
  send_request url "/json_rpc" inputs.

Record Wallet := mkWallet { w_host : string; w_port : Z; rpc_url : string }.

(** [Wallet.__init__]; the port is never 0 here, so [18090 + idx] is not taken. *)
Definition new_Wallet (protocol host : string) (port idx : Z) : Wallet :=
  let p := if port =? 0 then 18090 + idx else port in
  mkWallet host port (protocol +:+ "://" +:+ host +:+ ":" +:+ pretty p).

Definition request (method : string) (params : list (string * jsval)) : jsval :=
  JObj [("method", JStr method); ("params", JObj params);
        ("jsonrpc", JStr "2.0"); ("id", JStr "0")].

Definition wallet_transfer (w : Wallet) (dests : jsval) : M jsval :=
  send_json_rpc_request (rpc_url w)
    (request "transfer"
       [("destinations", dests); ("account_index", JNum 0); ("subaddr_indices", JArr []);
        ("priority", JNum 0); ("ring_size", JNum 0); ("unlock_time", JNum 0);
        ("payment_id", JStr EmptyString); ("get_tx_key", JBool true); ("do_not_relay", JBool false);
        ("get_tx_hex", JBool false); ("get_tx_metadata", JBool false)]).

Definition wallet_get_balance (w : Wallet) : M jsval :=
  send_json_rpc_request (rpc_url w)
    (request "get_balance"
       [("account_index", JNum 0); ("address_indices", JArr []);
        ("all_accounts", JBool false); ("strict", JBool false)]).

Definition wallet_get_address (w : Wallet) : M jsval :=
  send_json_rpc_request (rpc_url w)
    (request "get_address" [("account_index", JNum 0); ("address_index", JArr [])]).

Record XEQSwapBackend := Backend { source_wallet : Wallet; target_wallet : Wallet }.

Definition init : XEQSwapBackend :=
  Backend (new_Wallet "http" "127.0.0.1" 18090 0) (new_Wallet "http" "127.0.0.1" 18096 0).

Definition get_source_balance (self : XEQSwapBackend) : M jsval :=
  try_catch (wallet_get_balance (source_wallet self))
    (fun e => log (PrintError "Error getting source balance: " e) ;;! ret JNull).

Definition get_target_balance (self : XEQSwapBackend) : M jsval :=
  try_catch (wallet_get_balance (target_wallet self))
    (fun e => log (PrintError "Error getting target balance: " e) ;;! ret JNull).

Definition transfer_xeq (self : XEQSwapBackend) (amount from_source : jsval) : M jsval :=
  try_catch
    (if py_truthy from_source then
       address <-! wallet_get_address (target_wallet self) ;;
       wallet_transfer (source_wallet self) (destinations address amount)
     else
       address <-! wallet_get_address (source_wallet self) ;;
       wallet_transfer (target_wallet self) (destinations address amount))
    (fun e => log (PrintError "Error transferring XEQ: " e) ;;! ret JNull).

Definition main : M unit :=
  let swap_backend := init in
  source_balance <-! get_source_balance swap_backend ;;
  target_balance <-! get_target_balance swap_backend ;;
  log (PrintValue "Source wallet balance: " source_balance) ;;!
  log (PrintValue "Target wallet balance: " target_balance).
End Wallet.
End Py.

(** ** Properties *)


(** Whether a transfer goes from the source wallet: the flag's truth value, an
    omitted flag counting as [true]. *)
Definition js_from_source (fromSource : jsval) : bool :=
  match fromSource with JUndefined => true | v => js_truthy v end.

(** (C37) [transferXEQ] never throws.  It asks the receiving wallet for its
    address first; when that fails nothing is sent and the result is [null] with
    one error line.  Otherwise it sends exactly one transfer, from the other
    wallet, to the address obtained and for the amount given; it returns the
    wallet's answer with nothing on the console, or [null] with one error line. *)
Theorem js_transfer_behaviour {W Client Exn} `{WC : Js.WalletClient W Client Exn}
    (this : Js.XEQSwapBackend Client) (amount fromSource : jsval)
    (s : io W (Js.rpc Client) (Js.line Exn)) :
  let sent := js_from_source fromSource in
  let sender := if sent then Js.sourceWalletClient this else Js.targetWalletClient this in
  let receiver := if sent then Js.targetWalletClient this else Js.sourceWalletClient this in
  exists s' r new out,
    Js.transferXEQ this amount fromSource s = (s', inr r) /\
    calls s' = calls s ++ new /\ console s' = console s ++ out /\
    match (Js.client_getAddress receiver (world s)).2 with
    | inl e => new = [Js.GetAddress receiver] /\ r = JNull /\
               out = [Js.Error "Error transferring XEQ:" e]
    | inr address =>
        let p := JObj [("destinations", destinations address amount)] in
        new = [Js.GetAddress receiver; Js.Transfer sender p] /\
        match (Js.client_transfer sender p (Js.client_getAddress receiver (world s)).1).2 with
        | inl e => r = JNull /\ out = [Js.Error "Error transferring XEQ:" e]
        | inr answer => r = answer /\ out = []
        end
    end.
Proof.
  intros sent sender receiver.
  unfold Js.transferXEQ, try_catch, Js.getAddress, Js.transfer, bind, call, log, ret.
  assert (js_truthy match fromSource with JUndefined => JBool true | v => v end = sent) as ->
    by (unfold sent; by destruct fromSource).
  unfold sender, receiver. destruct sent.
  all: match goal with |- context [Js.client_getAddress ?c ?w] =>
         destruct (Js.client_getAddress c w) as [w1 [e|address]] eqn:E end.
  all: cbn; try match goal with |- context [Js.client_transfer ?c ?p ?w] =>
         destruct (Js.client_transfer c p w) as [w2 [e|answer]] end; cbn.
  all: eexists _, _, _, _; split; [reflexivity|cbn].
  all: rewrite <- ?app_assoc; cbn; split; [reflexivity|split]; eauto using app_nil_r.
Qed.

(** What a balance query shows: the wallet's answer, or [null] on an error. *)
Definition or_null {Exn} (r : Exn + jsval) : jsval :=
  match r with inl _ => JNull | inr v => v end.

Lemma js_balance_behaviour {W Client Exn} `{WC : Js.WalletClient W Client Exn}
    (c : Client) msg (s : io W (Js.rpc Client) (Js.line Exn)) :
  exists out,
    try_catch (Js.getBalance c) (fun error => log (Js.Error msg error) ;;! ret JNull) s =
    (Io (Js.client_getBalance c (world s)).1 (calls s ++ [Js.GetBalance c]) (console s ++ out),
     inr (or_null (Js.client_getBalance c (world s)).2)) /\
    out = match (Js.client_getBalance c (world s)).2 with
          | inl e => [Js.Error msg e] | inr _ => [] end.
Proof.
  unfold try_catch, Js.getBalance, bind, call, log, ret.
  destruct (Js.client_getBalance c (world s)) as [w [e|v]]; cbn; eexists; split;
    try reflexivity. by rewrite app_nil_r.
Qed.

(** Once the two clients exist, [main] cannot fail and moves no money: it
    issues exactly one balance query to each wallet, source first, and ends by
    printing the two answers, [null] standing for a query that threw. *)
Theorem js_main_reads_balances {W Client Exn} `{WC : Js.WalletClient W Client Exn}
    (this : Js.XEQSwapBackend Client) (s s0 : io W (Js.rpc Client) (Js.line Exn)) :
  Js.constructor s = (s0, inr this) ->
  let source := Js.client_getBalance (Js.sourceWalletClient this) (world s0) in
  let target := Js.client_getBalance (Js.targetWalletClient this) source.1 in
  exists out,
    Js.main s =
    (Io target.1
       (calls s ++ [Js.GetBalance (Js.sourceWalletClient this);
                    Js.GetBalance (Js.targetWalletClient this)])
       (console s ++ out ++ [Js.Log "Source wallet balance:" (or_null source.2);
                             Js.Log "Target wallet balance:" (or_null target.2)]),
     inr tt) /\
    Forall (fun l => exists msg e, l = Js.Error msg e) out.
Proof.
  intros Hc source target.
  assert (calls s0 = calls s /\ console s0 = console s) as [Ec El].
  { revert Hc. unfold Js.constructor, Js.newWalletClient, bind, ret.
    destruct (Js.new_client _ (world s)) as [w1 [e|c1]]; [done|]. cbn.
    destruct (Js.new_client _ w1) as [w2 [e|c2]]; [done|]. cbn. by intros [= <- _]. }
  unfold Js.main, try_catch at 1, bind at 1 2 3. rewrite Hc.
  unfold Js.getSourceBalance, Js.getTargetBalance.
  destruct (js_balance_behaviour (Js.sourceWalletClient this)
              "Error getting source balance:" s0) as (o1 & -> & Ho1).
  cbv beta iota.
  destruct (js_balance_behaviour (Js.targetWalletClient this) "Error getting target balance:"
    (Io (Js.client_getBalance (Js.sourceWalletClient this) (world s0)).1 (calls s0 ++ [Js.GetBalance (Js.sourceWalletClient this)]) (console s0 ++ o1)))
    as (o2 & -> & Ho2).
  exists (o1 ++ o2). cbn. rewrite Ec, El, <- !app_assoc. split; [reflexivity|].
  rewrite Ho1, Ho2. apply Forall_app. split; repeat case_match; eauto 10.
Qed.

(** A wallet that answers every query, to run the programs on. *)
#[local] Instance demo_client : Js.WalletClient Z Z string := {|
  Js.new_client o w := (w, inr (Js.port o));
  Js.client_getBalance c w := (w + 1, if c =? 18090 then inr (JNum 7) else inl "timeout");
  Js.client_getAddress c w := (w + 1, inr (JStr "XEQ"));
  Js.client_transfer c p w := (w + 1, inr (JBool true));
|}.

Lemma js_main_reads_balances_witness :
  exists out,
    Js.main (WC:=demo_client) (Io 0 [] []) =
    (Io 2 [Js.GetBalance 18090; Js.GetBalance 18096]
       (out ++ [Js.Log "Source wallet balance:" (JNum 7);
                Js.Log "Target wallet balance:" JNull]), inr tt) /\
    Forall (fun l => exists msg e, l = Js.Error msg e) out.
Proof.
  destruct (js_main_reads_balances (WC:=demo_client) (Js.Backend 18090 18096) (Io 0 [] []) (Io 0 [] [])
              eq_refl) as (out & E & H).
  exists out. split; [exact E|exact H].
Defined.

(** The address of the first destination of a [transfer] request. *)
Definition transfer_address (body : jsval) : option jsval :=
  match body with
  | JObj fs =>
      match get_field "method" fs, get_field "params" fs with
      | Some (JStr m), Some (JObj ps) =>
          if String.eqb m "transfer" then
            match get_field "destinations" ps with
            | Some (JArr (JObj d :: _)) => get_field "address" d
            | _ => None
            end
          else None
      | _, _ => None
      end
  | _ => None
  end.

(** What an RPC of the Python client does: one POST, and a dict or an exception. *)
Lemma py_request_behaviour {W E} `{R : Py.HttpRequests W E} url body
    (s : io W Py.post (Py.line (E:=E))) :
  exists w r, Py.send_json_rpc_request url body s =
    (Io w (calls s ++ [Py.Post (url +:+ "/json_rpc") body]) (console s), r) /\
    (forall v, r = inr v -> exists fs, v = JObj fs).
Proof.
  unfold Py.send_json_rpc_request, Py.send_request, Py.http_post, bind, call.
  destruct (Py.requests_post _ _ (world s)) as [w [e|res]]; cbn.
  { eexists _, _. split; [reflexivity|done]. }
  unfold Py.lift. destruct (Py.error_in res) as [e|[|]]; cbn;
    [eexists _, _; by split..|].
  destruct (Py.result_field res) as [e|v]; cbn; [eexists _, _; by split|].
  destruct v; cbn; eexists _, _; (split; [reflexivity|]); intros ? [=]; eauto.
Qed.

Lemma py_pay_behaviour {W E} `{R : Py.HttpRequests W E} (receiver sender : Py.Wallet)
    (amount : jsval) (s : io W Py.post (Py.line (E:=E))) :
  exists s' r new,
    try_catch
      (address <-! Py.wallet_get_address receiver ;;
       Py.wallet_transfer sender (destinations address amount))
      (fun e => log (Py.PrintError "Error transferring XEQ: " e) ;;! ret JNull) s
    = (s', inr r) /\
    calls s' = calls s ++ new /\ (length new <= 2)%nat /\
    Forall (fun '(Py.Post _ body) =>
      forall a, transfer_address body = Some a -> exists fs, a = JObj fs) new.
Proof.
  unfold try_catch, bind, log, ret, Py.wallet_get_address, Py.wallet_transfer.
  destruct (py_request_behaviour (Py.rpc_url receiver)
    (Py.request "get_address" [("account_index", JNum 0); ("address_index", JArr [])]) s)
    as (w1 & [e|a] & -> & Ha).
  { eexists _, _, _. split; [reflexivity|]. cbn. split; [reflexivity|]. split; [cbn; lia|].
    by repeat constructor. }
  destruct (Ha a eq_refl) as [fs ->].
  edestruct (py_request_behaviour (Py.rpc_url sender)) as (w2 & r2 & -> & _).
  destruct r2 as [e|v]; eexists _, _, _; (split; [reflexivity|]); cbn;
    rewrite <- app_assoc; (split; [reflexivity|]); (split; [cbn; lia|]);
    repeat constructor; cbn; intros ? [=]; eauto.
Qed.

(** The Python back end never sends a usable transfer: [get_address] returns
    the whole answer of the RPC, so the [address] field of every transfer it
    posts is a JSON object and never an address string. *)
Theorem py_transfer_address_is_object {W E} `{R : Py.HttpRequests W E}
    (self : Py.XEQSwapBackend) (amount from_source : jsval)
    (s : io W Py.post (Py.line (E:=E))) :
  exists s' r new, Py.transfer_xeq self amount from_source s = (s', inr r) /\
    calls s' = calls s ++ new /\ (length new <= 2)%nat /\
    Forall (fun '(Py.Post _ body) =>
      forall a, transfer_address body = Some a -> exists fs, a = JObj fs) new.
Proof.
  unfold Py.transfer_xeq. destruct (py_truthy from_source); apply py_pay_behaviour.
Qed.

(** The last POST of a run against a wallet that answers with its address. *)
#[local] Instance demo_requests : Py.HttpRequests Z string := {|
  Py.requests_post url body w :=
    (w + 1, inr (JObj [("result", JObj [("address", JStr "XEQ")])]));
|}.

Example py_transfer_run :
  match Py.transfer_xeq (R:=demo_requests) Py.init (JNum 5) (JBool true) (Io 0 [] []) with
  | (s, _) => (fun '(Py.Post url body) => (url, transfer_address body)) <$> last (calls s)
  end = Some ("http://127.0.0.1:18090/json_rpc", Some (JObj [("address", JStr "XEQ")])).
Proof. vm_compute. reflexivity. Qed.
